(* ===== verification/_CoqProject ===== *)
-Q . S2P
Prelude.v
RunQueue.v
ProcTable.v
Proc.v
Mlfq.v
Sched.v
Trap.v
ProcInv.v
MlfqSpec.v
SchedSpec.v
ProcSpec.v
System.v
SystemSpec.v
ProcTree.v
TrapSpec.v
Exec.v
ProcTheorems.v
Bytes.v
CString.v
Log.v
LogSpec.v
LogTheorems.v
Fs.v
FsSpec.v
FileSpec.v
FileRw.v
InodeSpec.v
TruncSpec.v
FsInv.v
FsOps.v
CacheSpec.v
FsDir.v
DirSpec.v
PathSpec.v
FsImage.v
FsTheorems.v
Ulib.v
Grep.v
Pipe.v
Umalloc.v
Sh.v
Kalloc.v
Vm.v
VmSpec.v
VmOps.v
VmLife.v
VmTheorems.v
Console.v
Kbd.v
ConsoleSpec.v
Bio.v
BioSpec.v
BioTheorems.v
Syscall.v
File.v
FileIo.v
Sysfile.v
FsRules.v
Links.v
DirMap.v
Tree.v
LinkSpec.v
UnlinkSpec.v
CreateSpec.v
TreeState.v
TreeImage.v
TreeTheorems.v
Loader.v
UserImage.v
LoadSpec.v
StackSpec.v
ExecFs.v
ExecSpec.v
ExecTheorems.v
Mkfs.v
MkfsSpec.v
MkfsInv.v
MkfsTree.v
MkfsTheorems.v
Spinlock.v
