(* ===== verification/Prelude.v ===== *)
(** * A verification development for Customized-xv6

    Customized-xv6 is the teaching kernel xv6 (x86, 32 bits) with three added
    schedulers (first come first served, priorities, and a multi-level
    feedback queue), the system calls that go with them, and user programs.
    This library translates its C code into functions and states what makes
    them correct.

    ** How the code is represented

    - A C function is a function on an explicit state.  It returns an
      [outcome]: [Ok], [Panic] (a call of [panic]) or [Fault] (an access
      outside an object, a null pointer, a wait for a lock that the caller
      itself holds).  So "returns [Ok]" includes memory safety.
    - [int], [uint], [short], [uchar] are integers with the wrap-around
      written out ([u8], [u16], [u32], [i16], [i32] below).  Memory, blocks and
      pages are lists of bytes ([Bytes]), structures on disk and page tables
      are read and written through their bytes.
    - A call that sleeps is cut there: each definition is a stretch of code
      that runs with its lock held, and the interleavings are sequences of
      such stretches (step relations in [System], [Pipe], [ConsoleSpec],
      [BioTheorems], [Ide], [Spinlock], scripts in [TreeTheorems] and
      [LogTheorems]).
    - A loop is a [Fixpoint] on the array it scans where there is one;
      otherwise it has fuel, and the theorems prove that the fuel given in
      the definitions is enough: the length of the text for scanners and
      [printf], the number of blocks for [balloc] and [bmap], [MAXDIRENT] for
      directories, the length of the path for [namex], the number of pages of
      an address space in [vm.c].  A fuel that runs out is a [Fault], which
      the theorems exclude.
    - Linker symbols, hardware and the programs that processes run are
      arguments of the definitions that use them.

    ** Parts, files and sources

    - Processes and scheduling ([proc.c], [proc.h], [trap.c]): [RunQueue] (the
      arrays [q0]..[q4]), [ProcTable] (state, and the class [KEnv] by which
      [proc.c] uses memory and files), [Proc] ([allocproc], [fork], [exit],
      [wait], [sleep], ...), [Mlfq] ([aging], the accounting of [trap]), [Sched]
      (the four schedulers), [Trap].  [ProcInv], [MlfqSpec], [SchedSpec],
      [ProcSpec] are their specifications; [System] is the step relation of
      the whole layer, [SystemSpec], [ProcTree], [TrapSpec] its invariants,
      [Exec] runs it, [ProcTheorems] states the results.
    - Strings and bytes: [Bytes], [CString] ([string.c]).
    - Disk: [Bio], [BioSpec], [BioTheorems] ([bio.c], [sleeplock.c],
      [memide.c]); [Log], [LogSpec], [LogTheorems] ([log.c]).
    - File system ([fs.c]): [Fs] (blocks, inodes, content), [FsDir]
      (directories, paths), and their specifications [FsSpec], [FileSpec],
      [FileRw], [InodeSpec], [TruncSpec], [CacheSpec], [FsInv] (the invariant
      of disk and inode cache and the abstract file system), [FsOps],
      [DirSpec], [PathSpec], [FsImage] (an image), [FsTheorems].
    - System calls: [Syscall] ([syscall.c]), [File], [FileIo] ([file.c]),
      [Sysfile] ([sysfile.c]).  [FsRules], [Links], [DirMap], [Tree],
      [LinkSpec], [UnlinkSpec], [CreateSpec], [TreeState], [TreeImage],
      [TreeTheorems] are what the calls do to the tree of directories.
    - Memory: [Kalloc] ([kalloc.c]), [Vm] ([vm.c]), [VmSpec], [VmOps],
      [VmLife], [VmTheorems].
    - Programs: [Loader] ([exec.c], [loaduvm], [sys_exec]), [UserImage],
      [LoadSpec], [StackSpec], [ExecFs], [ExecSpec], [ExecTheorems].
    - Devices: [Pipe] ([pipe.c]), [Console], [Kbd], [ConsoleSpec]
      ([console.c], [uart.c], [kbd.c]).
    - User code: [Ulib] ([ulib.c], [printf.c]), [Umalloc] ([umalloc.c]),
      [Grep] ([grep.c]), [Sh] (the parser of [sh.c]).

    The parts meet as in the kernel: [Sysfile] and [Loader] call [File],
    [Syscall], [FsDir] and [Vm] as the C code does; [Fs] works on the blocks
    that [Log] and [Bio] are shown to provide; [Proc] uses memory and files
    through [KEnv].

    ** What the theorems show

    - Processes: the invariants of all reachable states; no exit is missed
      by [wait]; what [fork], [exit], [wait] and each scheduler do; time
      slices, demotion and aging of the feedback queue; and where the code
      fails (level 0 overflows, starvation by priorities, time slices on
      other CPUs).
    - Log: a crash at any write leaves a transaction done or not done; the
      reservation of log space is enough for a log of more than [LOGSIZE]
      blocks, and is not for the one that [mkfs] makes.
    - Buffer cache: it is an atomic array of blocks for any interleaving.
    - File system: reads and writes refine a map from inodes to contents;
      path lookup refines a walk through maps of names; [link], [unlink],
      [create], [mkdir], [open] keep the directories a tree whose link counts
      are right, and change only what they should.
    - Memory: no page is lost or used twice; growing and copying address
      spaces keep them apart and give everything back on failure.
    - [exec] installs the image the file asks for, with the arguments on the
      stack where [main] looks for them, or leaves the process as it was.
    - Pipes and console: streams in order for any interleaving; no lost
      wakeups.
    - User code: [printf] and [atoi], [malloc] and [free], [grep] against the
      language of its patterns, and the shell parser against a printer.

    Most theorems have hypotheses on the state; each has a witness, a
    concrete state in which they hold.

    ** Not modelled

    - Processor and device registers: [lapic.c], [ioapic.c], [picirq.c],
      [mp.c], the segment and interrupt tables ([seginit], [tvinit]), the
      boot code ([bootasm.S], [bootmain.c], [entry.S], [entryother.S],
      [main.c]), [swtch.S], [trapasm.S], [vectors.S]: their effect is on
      hardware for which the sources have no description.
    - [usertests.c], [forktest.c], [stressfs.c], [test.c], [tester1.c],
      [tester2.c]: test programs without a contract of their own.
    - The user programs that only pass their arguments to one system call. *)

From stdpp Require Export base list numbers strings option relations.
From Stdlib Require Export ZArith Lia.

#[global] Set Default Goal Selector "!".
Local Open Scope Z_scope.

(** ** Outcomes of kernel code

    A C function of the kernel either returns, or calls [panic] and freezes
    the machine, or performs an access outside an object (undefined behaviour
    of C: on the real machine it reads or overwrites a neighbouring global). *)

Inductive outcome (A : Type) : Type :=
| Ok (a : A)
| Panic (msg : string)
| Fault (why : string).
Arguments Ok {A} a.
Arguments Panic {A} msg.
Arguments Fault {A} why.

#[export] Instance outcome_ret : MRet outcome := @Ok.
#[export] Instance outcome_bind : MBind outcome := λ A B f m,
  match m with
  | Ok a => f a
  | Panic msg => Panic msg
  | Fault why => Fault why
  end.

Section outcome.
Context {A B : Type}.
Implicit Types (m : outcome A) (f : A → outcome B).

Definition is_Ok {A} (o : outcome A) : Prop := ∃ a, o = Ok a.

Lemma bind_ret a f : (Ok a ≫= f) = f a.
Proof. done. Qed.

Lemma bind_Ok m f b : (m ≫= f) = Ok b ↔ ∃ a, m = Ok a ∧ f a = Ok b.
Proof. destruct m; simpl; naive_solver. Qed.

Lemma bind_Ok_intro m f a b : m = Ok a → f a = Ok b → (m ≫= f) = Ok b.
Proof. intros ->. done. Qed.
End outcome.

(** Inverts every hypothesis that says a composed computation returned. *)
Ltac ok_inv :=
  repeat match goal with
  | H : (_ ≫= _) = Ok _ |- _ =>
      apply bind_Ok in H; destruct H as (? & ? & H)
  | H : Ok _ = Ok _ |- _ => injection H; clear H; intros; subst
  | H : Panic _ = Ok _ |- _ => discriminate H
  | H : Fault _ = Ok _ |- _ => discriminate H
  | H : mret _ = Ok _ |- _ => injection H; clear H; intros; subst
  end.

(** ** Record update

    [r <| f := v |>] is the C assignment [r.f = v] on a record value;
    [r <| f ::= g |>] is a read-modify-write of the field. *)

Class Fields (R : Type) := rebuild : R → R.
Class Setter {R T : Type} (proj : R → T) := set_with : (T → T) → R → R.
Arguments set_with {R T} proj {_} f r.

Ltac derive_setter :=
  match goal with
  | |- @Setter ?R ?T ?proj =>
    let e := constr:(_ : Fields R) in
    let e := eval hnf in e in
    let e := eval pattern proj in e in
    match e with
    | ?h _ => exact (fun (f : T → T) (r : R) => h (fun r' => f (proj r')) r)
    end
  end.
#[export] Hint Extern 1 (Setter _) => derive_setter : typeclass_instances.

Declare Scope update_scope.
Delimit Scope update_scope with update.
Notation "r <| f := v |>" := (set_with f (λ _, v) r)
  (at level 1, f at next level, v at level 200, left associativity,
   format "r <| f  :=  v |>") : update_scope.
Notation "r <| f ::= g |>" := (set_with f g r)
  (at level 1, f at next level, g at level 200, left associativity,
   format "r <| f  ::=  g |>") : update_scope.
Open Scope update_scope.

(** ** Machine integers

    [uint] is a 32-bit word and [int] its two's-complement reading; a value
    of either type is a [Z] in range and every arithmetic step of the code is
    followed by the wrap of its type.  (Signed overflow is undefined in C; the
    kernel runs on x86, where the addition wraps, and that is what is
    modelled.) *)

Definition u8 (z : Z) : Z := z mod 2 ^ 8.
Definition u16 (z : Z) : Z := z mod 2 ^ 16.
Definition u32 (z : Z) : Z := z mod 2 ^ 32.
Definition i32 (z : Z) : Z := (z + 2 ^ 31) mod 2 ^ 32 - 2 ^ 31.
Definition i16 (z : Z) : Z := (z + 2 ^ 15) mod 2 ^ 16 - 2 ^ 15.

Definition INT_MAX : Z := 2 ^ 31 - 1.

Lemma u32_range z : 0 ≤ u32 z < 2 ^ 32.
Proof. apply Z.mod_pos_bound; lia. Qed.
Lemma u32_small z : 0 ≤ z < 2 ^ 32 → u32 z = z.
Proof. apply Z.mod_small. Qed.
Lemma i32_range z : - 2 ^ 31 ≤ i32 z < 2 ^ 31.
Proof. unfold i32. pose proof (Z.mod_pos_bound (z + 2 ^ 31) (2 ^ 32)). lia. Qed.
Lemma i32_small z : - 2 ^ 31 ≤ z < 2 ^ 31 → i32 z = z.
Proof. intros. unfold i32. rewrite Z.mod_small; lia. Qed.
Lemma u8_range z : 0 ≤ u8 z < 2 ^ 8.
Proof. apply Z.mod_pos_bound; lia. Qed.
Lemma u8_small z : 0 ≤ z < 2 ^ 8 → u8 z = z.
Proof. apply Z.mod_small. Qed.
Lemma i32_u32 z : i32 (u32 z) = i32 z.
Proof. unfold i32, u32. by rewrite Zplus_mod_idemp_l. Qed.

Create HintDb xv6 discriminated.
Create Rewrite HintDb xv6.
#[export] Hint Resolve u32_range i32_range u8_range : xv6.
#[export] Hint Rewrite i32_u32 : xv6.

(** ** C arrays

    An array object is a list of fixed length; its index is an [int].  An
    access outside the object is a [Fault], never a silent no-op. *)

Section arrays.
Context {A : Type}.
Implicit Types (l : list A) (i : Z) (x : A).

Definition aget l i : outcome A :=
  if decide (0 ≤ i) then
    match l !! Z.to_nat i with
    | Some x => Ok x
    | None => Fault "array read out of bounds"
    end
  else Fault "array read out of bounds".

Definition aset l i x : outcome (list A) :=
  if decide (0 ≤ i < Z.of_nat (length l)) then Ok (<[Z.to_nat i := x]> l)
  else Fault "array write out of bounds".

Lemma aget_Ok l i x :
  aget l i = Ok x ↔ 0 ≤ i ∧ l !! Z.to_nat i = Some x.
Proof.
  unfold aget. case_decide; [|naive_solver].
  destruct (l !! Z.to_nat i); naive_solver.
Qed.

Lemma aget_in l i : 0 ≤ i < Z.of_nat (length l) → ∃ x, aget l i = Ok x.
Proof.
  intros Hi. destruct (lookup_lt_is_Some_2 l (Z.to_nat i)) as [x Hx]; [lia|].
  exists x. apply aget_Ok. split; [lia|done].
Qed.

Lemma aget_nat l (n : nat) x : l !! n = Some x → aget l (Z.of_nat n) = Ok x.
Proof. intros H. apply aget_Ok. rewrite Nat2Z.id. split; [lia|done]. Qed.

Lemma aset_Ok l i x l' :
  aset l i x = Ok l' ↔
  (0 ≤ i < Z.of_nat (length l)) ∧ l' = <[Z.to_nat i := x]> l.
Proof. unfold aset. case_decide; naive_solver. Qed.

Lemma aset_nat l (n : nat) x :
  (n < length l)%nat → aset l (Z.of_nat n) x = Ok (<[n := x]> l).
Proof. intros H. apply aset_Ok. rewrite Nat2Z.id. split; [lia|done]. Qed.

Lemma aset_length l i x l' : aset l i x = Ok l' → length l' = length l.
Proof. rewrite aset_Ok. intros [_ ->]. apply length_insert. Qed.

Lemma aset_fault l i x :
  ¬ (0 ≤ i < Z.of_nat (length l)) →
  aset l i x = Fault "array write out of bounds".
Proof. intros H. unfold aset. by rewrite decide_False. Qed.
End arrays.

#[export] Hint Resolve aget_nat aset_nat : xv6.

(** ** Step sequences *)

Section sequences.
Context {S : Type} (R : S → S → Prop).

(** A property kept by every step is kept by every sequence of steps. *)
Lemma rtc_preserve (P : S → Prop) :
  (∀ s s', R s s' → P s → P s') → ∀ s s', rtc R s s' → P s → P s'.
Proof. intros Hstep s s'. induction 1; eauto. Qed.
End sequences.

(** ** Lists *)

Section lists.
Context {A : Type}.
Implicit Types (l : list A).

(** Removing the element at index [i]. *)
Definition list_remove_at (i : nat) l : list A := take i l ++ drop (S i) l.

Lemma list_remove_at_length i l :
  (i < length l)%nat → length (list_remove_at i l) = pred (length l).
Proof.
  intros. unfold list_remove_at. rewrite length_app, length_take, length_drop. lia.
Qed.

Lemma list_remove_at_perm i l x :
  l !! i = Some x → l ≡ₚ x :: list_remove_at i l.
Proof.
  intros H. unfold list_remove_at.
  rewrite <-(take_drop_middle l i x H) at 1. by rewrite Permutation_middle.
Qed.

Lemma elem_of_list_remove_at i l x y :
  l !! i = Some x → y ∈ l → y ≠ x → y ∈ list_remove_at i l.
Proof.
  intros Hi Hy Hne. rewrite (list_remove_at_perm i l x Hi) in Hy.
  apply elem_of_cons in Hy as [?|?]; done.
Qed.

Lemma list_remove_at_subset i l x : x ∈ list_remove_at i l → x ∈ l.
Proof.
  unfold list_remove_at. intros Hx.
  rewrite <-(take_drop i l). apply elem_of_app in Hx as [Hx|Hx].
  - apply elem_of_app. by left.
  - apply elem_of_app. right. apply list_elem_of_lookup in Hx as [j Hj].
    rewrite lookup_drop in Hj. apply list_elem_of_lookup.
    exists (S j). rewrite lookup_drop. by replace (i + S j)%nat with (S i + j)%nat by lia.
Qed.

Lemma take_take_le n m l : (n ≤ m)%nat → take n (take m l) = take n l.
Proof. intros. rewrite take_take. f_equal. lia. Qed.

Lemma list_alter_id_at (f : A → A) l i :
  (∀ x, l !! i = Some x → f x = x) → alter f i l = l.
Proof.
  intros Hf. rewrite (list_alter_ext f id l l i) by done. by apply list_alter_id.
Qed.
End lists.
