(* ===== verification/RunQueue.v ===== *)
(** * The five run queues of the MLFQ scheduler

    [proc.c] keeps, for every level [j] of 0..4, an array [struct proc *q_j[1000]],
    the number [cnt[j]] of its entries in use, and two counters [beg_j] and
    [end_j].  The handlers of [proc.c] and [trap.c] manipulate them with the
    same four loops, written out at each use: a search, a shift to the left,
    an append and (level 4) a rotation.  This file models the loops on the
    arrays, index by index, and shows that on an array that represents a list
    of processes they are the list operations one expects. *)

From S2P Require Import Prelude.

Local Open Scope Z_scope.

(** [struct proc *q_j[1000]] in [proc.h]. *)
Definition QSIZE : nat := 1000.

(** A [struct proc *] is [None] (null) or the index of a slot of [ptable]. *)
Record runq := mkrunq {
  q_arr : list (option nat);  (* q_j[1000] *)
  q_cnt : Z;                  (* cnt[j] *)
  q_beg : Z;                  (* beg_j *)
  q_end : Z                   (* end_j *)
}.
#[export] Instance runq_fields : Fields runq :=
  λ r, mkrunq (q_arr r) (q_cnt r) (q_beg r) (q_end r).

(** The queues as [proc.c] initialises them. *)
Definition runq_init : runq := mkrunq (replicate QSIZE None) 0 0 0.

(** ** The loops *)

(** [for (; i < i + n; i++) if (test(q[i])) return i;] *)
Fixpoint qscan (test : option nat → outcome bool) (q : list (option nat))
    (i : Z) (n : nat) : outcome (option Z) :=
  match n with
  | O => Ok None
  | S n' =>
      e ← aget q i;
      b ← test e;
      if b : bool then Ok (Some i) else qscan test q (i + 1) n'
  end.

(** [for (i = 0; i < cnt[j]; i++) if (test(q_j[i])) { ind = i; break; }] *)
Definition qfind (test : option nat → outcome bool) (r : runq) : outcome (option Z) :=
  qscan test (q_arr r) 0 (Z.to_nat (q_cnt r)).

(** The same search without the [break]: the last match wins. *)
Fixpoint qscan_last (test : option nat → outcome bool) (q : list (option nat))
    (i : Z) (n : nat) (ind : Z) : outcome Z :=
  match n with
  | O => Ok ind
  | S n' =>
      e ← aget q i;
      b ← test e;
      qscan_last test q (i + 1) n' (if b : bool then i else ind)
  end.

Definition qfind_last (test : option nat → outcome bool) (r : runq) (ind : Z) : outcome Z :=
  qscan_last test (q_arr r) 0 (Z.to_nat (q_cnt r)) ind.

(** [for (; i < i + n; i++) q[i] = q[i + 1];] *)
Fixpoint qshift (q : list (option nat)) (i : Z) (n : nat) : outcome (list (option nat)) :=
  match n with
  | O => Ok q
  | S n' =>
      e ← aget q (i + 1);
      q' ← aset q i e;
      qshift q' (i + 1) n'
  end.

(** [cnt[j]--; for (i = ind; i < cnt[j]; i++) q_j[i] = q_j[i + 1];] *)
Definition qremove (r : runq) (ind : Z) : outcome runq :=
  let c := i32 (q_cnt r - 1) in
  q ← qshift (q_arr r) ind (Z.to_nat (c - ind));
  Ok (r <| q_arr := q |> <| q_cnt := c |>).

(** [cnt[j]++; q_j[cnt[j] - 1] = p; end_j += 1;] *)
Definition qpush (r : runq) (p : nat) : outcome runq :=
  q ← aset (q_arr r) (q_cnt r) (Some p);
  Ok (r <| q_arr := q |> <| q_cnt := i32 (q_cnt r + 1) |>
        <| q_end := i32 (q_end r + 1) |>).

(** The flag [f]: append [p] unless the search found it already. *)
Definition qpush_unless (test : option nat → outcome bool) (r : runq) (p : nat) : outcome runq :=
  f ← qfind test r;
  match f with
  | Some _ => Ok r
  | None => qpush r p
  end.

(** [q4[cnt[4]] = p; end4 += 1; for (i = ind; i < cnt[4]; i++) q4[i] = q4[i + 1];] *)
Definition qrotate (r : runq) (ind : Z) (p : nat) : outcome runq :=
  q ← aset (q_arr r) (q_cnt r) (Some p);
  q' ← qshift q ind (Z.to_nat (q_cnt r - ind));
  Ok (r <| q_arr := q' |> <| q_end := i32 (q_end r + 1) |>).

(** ** Representation

    The array represents the list of its first [cnt[j]] entries, none of them
    null. *)

Record q_rep (r : runq) (l : list nat) : Prop := {
  rep_size : length (q_arr r) = QSIZE;
  rep_cnt : q_cnt r = Z.of_nat (length l);
  rep_arr : take (length l) (q_arr r) = Some <$> l
}.

Lemma q_rep_init : q_rep runq_init [].
Proof. split; [apply length_replicate|done|done]. Qed.

Lemma q_rep_length r l : q_rep r l → (length l ≤ QSIZE)%nat.
Proof.
  intros [Hs _ Ha]. apply (f_equal length) in Ha.
  rewrite length_take, length_fmap in Ha. lia.
Qed.

Lemma q_rep_lookup r l i :
  q_rep r l → (i < length l)%nat → q_arr r !! i = Some <$> (l !! i).
Proof.
  intros [Hs _ Ha] Hi. rewrite <-(lookup_take_lt _ (length l)) by done.
  by rewrite Ha, list_lookup_fmap.
Qed.

Lemma q_rep_unique r l1 l2 : q_rep r l1 → q_rep r l2 → l1 = l2.
Proof.
  intros [_ Hc1 Ha1] [_ Hc2 Ha2].
  assert (length l1 = length l2) as Hl by lia. rewrite Hl, Ha2 in Ha1.
  by apply (inj (fmap Some)) in Ha1.
Qed.

(** Reading the list back from the array: total and executable. *)
Definition q_list (r : runq) : list nat :=
  omap id (take (Z.to_nat (q_cnt r)) (q_arr r)).

Lemma q_rep_list r l : q_rep r l → q_list r = l.
Proof.
  intros [_ Hc Ha]. unfold q_list. rewrite Hc, Nat2Z.id, Ha.
  clear. induction l as [|x l IH]; [done|]. cbn. by rewrite IH.
Qed.

(** The array is determined by its list and its unused tail. *)
Lemma q_rep_intro r l rest :
  q_arr r = (Some <$> l) ++ rest → length (q_arr r) = QSIZE →
  q_cnt r = Z.of_nat (length l) → q_rep r l.
Proof.
  intros Ha Hs Hc. split; [done|done|]. rewrite Ha.
  rewrite take_app_le by (by rewrite length_fmap).
  rewrite take_ge; [done|by rewrite length_fmap].
Qed.

(** ** The loops compute list operations *)

Section loops.
Context (test : option nat → outcome bool) (P : nat → bool).

Definition decides (l : list nat) : Prop :=
  ∀ x, x ∈ l → test (Some x) = Ok (P x).

Lemma qscan_spec q l k :
  decides (drop k l) → (k ≤ length l)%nat →
  take (length l) q = Some <$> l →
  qscan test q (Z.of_nat k) (length l - k) =
  Ok ((λ i, Z.of_nat (k + i)) <$> (fst <$> list_find (λ x, P x) (drop k l))).
Proof.
  intros Hd Hk Hq. remember (length l - k)%nat as n eqn:Hn.
  revert k Hd Hk Hn. induction n as [|n IH]; intros k Hd Hk Hn.
  - by rewrite drop_ge by lia.
  - destruct (lookup_lt_is_Some_2 l k) as [x Hx]; [lia|].
    rewrite (drop_S l x k Hx) in Hd |- *. cbn [qscan].
    assert (aget q (Z.of_nat k) = Ok (Some x)) as ->.
    { apply aget_nat. rewrite <-(lookup_take_lt _ (length l)) by lia.
      by rewrite Hq, list_lookup_fmap, Hx. }
    cbn. rewrite (Hd x) by (apply elem_of_cons; by left). cbn.
    destruct (P x) eqn:HPx; cbn.
    + rewrite decide_True by done. cbn. do 2 f_equal. lia.
    + rewrite decide_False by (intros []).
      replace (Z.of_nat k + 1) with (Z.of_nat (S k)) by lia.
      rewrite IH; [|intros y Hy; apply Hd, elem_of_cons; by right|lia|lia].
      destruct (list_find _ (drop (S k) l)) as [[i y]|]; [|done].
      cbn. do 2 f_equal. lia.
Qed.

Lemma qfind_spec r l :
  q_rep r l → decides l →
  qfind test r = Ok (Z.of_nat <$> (fst <$> list_find (λ x, P x) l)).
Proof.
  intros [_ Hc Ha] Hd. unfold qfind. rewrite Hc, Nat2Z.id.
  pose proof (qscan_spec (q_arr r) l 0) as H. rewrite Nat.sub_0_r in H.
  by apply H; [|lia|].
Qed.

Lemma qscan_last_spec q l k ind :
  decides (drop k l) → (k ≤ length l)%nat →
  take (length l) q = Some <$> l →
  (∀ i j x y, l !! i = Some x → l !! j = Some y → P x → P y → x = y) →
  ∃ res, qscan_last test q (Z.of_nat k) (length l - k) ind = Ok res ∧
    (((∀ x, x ∈ drop k l → P x = false) ∧ res = ind) ∨
     (∃ i x, l !! i = Some x ∧ P x ∧ (k ≤ i)%nat ∧ res = Z.of_nat i)).
Proof.
  intros Hd Hk Hq Hu. remember (length l - k)%nat as n eqn:Hn.
  revert k ind Hd Hk Hn. induction n as [|n IH]; intros k ind Hd Hk Hn.
  - exists ind. split; [done|]. left. rewrite drop_ge by lia.
    split; [|done]. intros x Hx. by apply elem_of_nil in Hx.
  - destruct (lookup_lt_is_Some_2 l k) as [x Hx]; [lia|].
    rewrite (drop_S l x k Hx) in Hd |- *. cbn [qscan_last].
    assert (aget q (Z.of_nat k) = Ok (Some x)) as ->.
    { apply aget_nat. rewrite <-(lookup_take_lt _ (length l)) by lia.
      by rewrite Hq, list_lookup_fmap, Hx. }
    cbn. rewrite (Hd x) by (apply elem_of_cons; by left). cbn.
    replace (Z.of_nat k + 1) with (Z.of_nat (S k)) by lia.
    destruct (IH (S k) (if P x then Z.of_nat k else ind)) as (res & Hres & Hcase);
      [intros y Hy; apply Hd, elem_of_cons; by right|lia|lia|].
    exists res. split; [done|].
    destruct Hcase as [[Hnone ->]|(i & y & Hi & Py & Hki & ->)].
    + destruct (P x) eqn:HPx.
      * right. exists k, x. rewrite HPx. done.
      * left. split; [|done]. intros y [->|Hy]%elem_of_cons; auto.
    + right. exists i, y. repeat split; [done|done|lia].
Qed.

Lemma qfind_last_spec r l ind :
  q_rep r l → decides l →
  (∀ i j x y, l !! i = Some x → l !! j = Some y → P x → P y → x = y) →
  ∃ res, qfind_last test r ind = Ok res ∧
    (((∀ x, x ∈ l → P x = false) ∧ res = ind) ∨
     (∃ i x, l !! i = Some x ∧ P x ∧ res = Z.of_nat i)).
Proof.
  intros [_ Hc Ha] Hd Hu. unfold qfind_last. rewrite Hc, Nat2Z.id.
  destruct (qscan_last_spec (q_arr r) l 0 ind) as (res & H & Hcase); [done|lia|done|done|].
  rewrite Nat.sub_0_r in H. exists res. split; [done|].
  destruct Hcase as [?|(i & x & ? & ? & ? & ?)]; [by left|right; eauto].
Qed.
End loops.

(** The shift copies each cell from its right neighbour. *)
Lemma qshift_spec q i n :
  (i + n < length q)%nat →
  ∃ q', qshift q (Z.of_nat i) n = Ok q' ∧ length q' = length q ∧
    (∀ j, q' !! j = if decide (i ≤ j < i + n)%nat then q !! S j else q !! j).
Proof.
  revert q i. induction n as [|n IH]; intros q i Hn.
  - exists q. split; [done|]. split; [done|]. intros j. by rewrite decide_False by lia.
  - cbn [qshift]. destruct (lookup_lt_is_Some_2 q (S i)) as [e He]; [lia|].
    replace (Z.of_nat i + 1) with (Z.of_nat (S i)) by lia.
    rewrite (aget_nat _ _ _ He). cbn. rewrite aset_nat by lia. cbn.
    destruct (IH (<[i:=e]> q) (S i)) as (q' & -> & Hl & Hq').
    { rewrite length_insert. lia. }
    exists q'. split; [done|]. split; [by rewrite Hl, length_insert|].
    intros j. rewrite Hq'. destruct (decide (i = j)) as [->|Hij].
    + rewrite decide_False by lia. rewrite decide_True by lia.
      by rewrite list_lookup_insert_eq by lia.
    + destruct (decide (S i ≤ j < S i + n)%nat).
      * rewrite decide_True by lia. by rewrite list_lookup_insert_ne by lia.
      * rewrite list_lookup_insert_ne by done. by rewrite decide_False by lia.
Qed.

(** Hence removing an entry and closing the gap is [list_remove_at]. *)
Lemma qremove_spec r l ind :
  q_rep r l → (ind < length l)%nat →
  ∃ r', qremove r (Z.of_nat ind) = Ok r' ∧ q_rep r' (list_remove_at ind l) ∧
    q_beg r' = q_beg r ∧ q_end r' = q_end r.
Proof.
  intros Hrep Hind. pose proof (q_rep_length _ _ Hrep) as Hlen.
  destruct Hrep as [Hs Hc Ha]. unfold qremove.
  assert (QSIZE = 1000%nat) as HQ by done.
  rewrite i32_small by (rewrite Hc; lia).
  replace (Z.to_nat (q_cnt r - 1 - Z.of_nat ind)) with (length l - 1 - ind)%nat by lia.
  destruct (qshift_spec (q_arr r) ind (length l - 1 - ind)) as (q' & -> & Hl' & Hq'); [lia|].
  cbn. eexists. split; [done|]. split; [|done].
  split; cbn; [congruence|rewrite list_remove_at_length by done; lia|].
  rewrite list_remove_at_length by done.
  apply list_eq. intros j. destruct (decide (j < pred (length l))%nat) as [Hj|Hj].
  - rewrite lookup_take_lt by done. rewrite Hq', list_lookup_fmap.
    unfold list_remove_at. destruct (decide (j < ind)%nat).
    + rewrite lookup_app_l by (rewrite length_take; lia).
      rewrite lookup_take_lt by done. rewrite decide_False by lia.
      apply q_rep_lookup; [done|lia].
    + rewrite lookup_app_r by (rewrite length_take; lia).
      rewrite length_take, lookup_drop, decide_True by lia.
      replace (S ind + (j - ind `min` length l))%nat with (S j) by lia.
      apply q_rep_lookup; [done|lia].
  - rewrite !lookup_ge_None_2; [done| |].
    + rewrite length_fmap, list_remove_at_length by done. lia.
    + rewrite length_take. lia.
Qed.

Lemma qpush_spec r l p :
  q_rep r l → (length l < QSIZE)%nat →
  ∃ r', qpush r p = Ok r' ∧ q_rep r' (l ++ [p]) ∧
    q_beg r' = q_beg r ∧ q_end r' = i32 (q_end r + 1).
Proof.
  intros [Hs Hc Ha] Hlt. unfold qpush. rewrite Hc, aset_nat by congruence.
  cbn. eexists. split; [done|]. split; [|done].
  assert (QSIZE = 1000%nat) as HQ by done.
  split; cbn; [by rewrite length_insert|rewrite length_app, i32_small; cbn; lia|].
  rewrite length_app. cbn. apply list_eq. intros j. rewrite fmap_app.
  destruct (decide (j < length l)%nat).
  - rewrite lookup_take_lt by lia. rewrite list_lookup_insert_ne by lia.
    rewrite lookup_app_l by (by rewrite length_fmap).
    rewrite <-Ha. by rewrite lookup_take_lt.
  - rewrite lookup_app_r by (rewrite length_fmap; lia). rewrite length_fmap.
    destruct (decide (j = length l)) as [->|].
    + rewrite lookup_take_lt by lia. rewrite list_lookup_insert_eq by congruence.
      by rewrite Nat.sub_diag.
    + rewrite !lookup_ge_None_2; [done|cbn; lia|rewrite length_take; lia].
Qed.

(** A full array is written one cell past its end. *)
Lemma qpush_overflow r l p :
  q_rep r l → length l = QSIZE → qpush r p = Fault "array write out of bounds".
Proof.
  intros [Hs Hc Ha] Hl. unfold qpush. rewrite aset_fault; [done|]. lia.
Qed.

Lemma qpush_unless_spec test P r l p :
  q_rep r l → decides test P l → (length l < QSIZE)%nat →
  ∃ r', qpush_unless test r p = Ok r' ∧
    q_rep r' (if list_find (λ x, P x) l is Some _ then l else l ++ [p]).
Proof.
  intros Hrep Hd Hlt. unfold qpush_unless. rewrite (qfind_spec _ P _ l) by done.
  cbn. destruct (list_find _ l) as [[i x]|]; cbn; [eauto|].
  destruct (qpush_spec _ _ p Hrep Hlt) as (r' & ? & ? & _). eauto.
Qed.

Lemma list_remove_at_app_l {A} i (l1 l2 : list A) :
  (i < length l1)%nat → list_remove_at i (l1 ++ l2) = list_remove_at i l1 ++ l2.
Proof.
  intros Hi. unfold list_remove_at.
  rewrite take_app_le, drop_app_le by lia. by rewrite (assoc_L (++)).
Qed.

(** The rotation of level 4 moves the entry at [ind] to the tail. *)
Lemma qrotate_spec r l ind p :
  q_rep r l → (ind < length l < QSIZE)%nat →
  ∃ r', qrotate r (Z.of_nat ind) p = Ok r' ∧ q_rep r' (list_remove_at ind l ++ [p]) ∧
    q_cnt r' = q_cnt r.
Proof.
  intros Hrep [Hind Hlt]. destruct (qpush_spec _ _ p Hrep Hlt) as (r1 & Hpush & Hrep1 & _).
  destruct (qremove_spec r1 (l ++ [p]) ind Hrep1) as (r2 & Hrem & Hrep2 & _).
  { rewrite length_app. cbn. lia. }
  rewrite list_remove_at_app_l in Hrep2 by done.
  assert (i32 (q_cnt r + 1) = q_cnt r + 1) as E1.
  { destruct Hrep as [_ -> _]. apply i32_small. unfold QSIZE in Hlt. lia. }
  assert (i32 (q_cnt r + 1 - 1) = q_cnt r) as E2.
  { destruct Hrep as [_ -> _]. rewrite i32_small; [lia|]. unfold QSIZE in Hlt. lia. }
  unfold qpush in Hpush. apply bind_Ok in Hpush as (q & Hq & [= <-]).
  unfold qremove in Hrem. cbn in Hrem. rewrite E1, E2 in Hrem.
  apply bind_Ok in Hrem as (q' & Hq' & [= <-]).
  unfold qrotate. rewrite Hq. cbn. rewrite Hq'. cbn.
  eexists. split; [done|]. split; [|done]. by destruct Hrep2.
Qed.
