(* ===== verification/ProcTable.v ===== *)
(** * Process table, per-process state and the state of the process layer

    The data of [proc.h], [procstat.h] and the globals of [proc.c], and the
    interface [KEnv] through which the process layer calls the page allocator
    ([kalloc.c]), the address-space code ([vm.c]), the file table ([file.c])
    and the inode layer ([fs.c]). *)

From stdpp Require Export gmap.
From S2P Require Import Prelude.
From S2P Require Import RunQueue.

Local Open Scope Z_scope.

(** [param.h] *)
Definition NPROC : nat := 64.
Definition NOFILE : nat := 16.
Definition KSTACKSIZE : Z := 4096.
Definition PGSIZE : Z := 4096.

(** ** Data *)

Inductive procstate := UNUSED | EMBRYO | SLEEPING | RUNNABLE | RUNNING | ZOMBIE.
#[export] Instance procstate_eq_dec : EqDecision procstate.
Proof. solve_decision. Defined.

(** Sleep channels: the addresses passed to [sleep] and [wakeup].  The kernel
    sleeps on processes ([wait]), on [&ticks], on the log, on buffers, on
    sleep locks, on console input and on the two ends of a pipe. *)
Inductive channel :=
| ChNull
| ChProc (i : nat)
| ChTicks
| ChLog
| ChInput
| ChBuf (i : nat)
| ChSleeplock (a : Z)
| ChPipeRead (a : Z)
| ChPipeWrite (a : Z).
#[export] Instance channel_eq_dec : EqDecision channel.
Proof. solve_decision. Defined.

(** A [struct proc *] used as a channel. *)
Definition chan_of_proc (p : option nat) : channel :=
  match p with None => ChNull | Some i => ChProc i end.

(** [struct trapframe] of [x86.h], without its padding. *)
Record trapframe := mktf {
  tf_edi : Z; tf_esi : Z; tf_ebp : Z; tf_oesp : Z;
  tf_ebx : Z; tf_edx : Z; tf_ecx : Z; tf_eax : Z;
  tf_gs : Z; tf_fs : Z; tf_es : Z; tf_ds : Z; tf_trapno : Z;
  tf_err : Z; tf_eip : Z; tf_cs : Z; tf_eflags : Z;
  tf_esp : Z; tf_ss : Z
}.
#[export] Instance trapframe_fields : Fields trapframe := λ t,
  mktf (tf_edi t) (tf_esi t) (tf_ebp t) (tf_oesp t)
       (tf_ebx t) (tf_edx t) (tf_ecx t) (tf_eax t)
       (tf_gs t) (tf_fs t) (tf_es t) (tf_ds t) (tf_trapno t)
       (tf_err t) (tf_eip t) (tf_cs t) (tf_eflags t)
       (tf_esp t) (tf_ss t).
Definition tf_zero : trapframe := mktf 0 0 0 0 0 0 0 0 0 0 0 0 0 0 0 0 0 0 0.

(** [struct context] of [proc.h]. *)
Record context := mkctx {
  ctx_edi : Z; ctx_esi : Z; ctx_ebx : Z; ctx_ebp : Z; ctx_eip : Z
}.

(** [struct proc_stat] of [procstat.h]. *)
Record proc_stat := mkstat {
  st_pid : Z;
  st_runtime : Z;
  st_num_run : Z;
  st_current_queue : Z;
  st_ticks : list Z  (* ticks[5] *)
}.
#[export] Instance proc_stat_fields : Fields proc_stat := λ s,
  mkstat (st_pid s) (st_runtime s) (st_num_run s) (st_current_queue s) (st_ticks s).

(** [struct proc].  Pointers to processes, files and inodes are indices of
    their tables; [kstack] and [pgdir] are addresses, 0 when null; [tf] and
    [context] are the contents of the frames kept on the kernel stack. *)
Record proc := mkproc {
  p_sz : Z;
  p_pgdir : Z;
  p_kstack : Z;
  p_state : procstate;
  p_pid : Z;
  p_parent : option nat;
  p_tf : trapframe;
  p_context : context;
  p_chan : channel;
  p_killed : Z;
  p_ofile : list (option nat);
  p_cwd : option nat;
  p_name : list Z;
  p_ctime : Z;
  p_rtime : Z;
  p_etime : Z;
  p_iotime : Z;
  p_priority : Z;
  p_qno : Z;
  p_aging_time : Z;
  p_rrtime : list Z;  (* rrtime[5] *)
  p_stat : proc_stat
}.
#[export] Instance proc_fields : Fields proc := λ p,
  mkproc (p_sz p) (p_pgdir p) (p_kstack p) (p_state p) (p_pid p) (p_parent p)
    (p_tf p) (p_context p) (p_chan p) (p_killed p) (p_ofile p) (p_cwd p)
    (p_name p) (p_ctime p) (p_rtime p) (p_etime p) (p_iotime p) (p_priority p)
    (p_qno p) (p_aging_time p) (p_rrtime p) (p_stat p).

(** A slot of the zero-initialised [ptable]. *)
Definition proc_zero : proc :=
  mkproc 0 0 0 UNUSED 0 None tf_zero (mkctx 0 0 0 0 0) ChNull 0
    (replicate NOFILE None) None (replicate 16 0) 0 0 0 0 0 0 0
    (replicate 5 0) (mkstat 0 0 0 0 (replicate 5 0)).

(** ** The scheduling policies selected by [make SCHEDULER=...] *)
Inductive policy := DEFAULT | FCFS | PBS | MLFQ.
#[export] Instance policy_eq_dec : EqDecision policy.
Proof. solve_decision. Defined.

(** ** What the process layer calls

    [E] is the state of the rest of the kernel.  A page-directory or kernel
    stack is an address, a file or an inode an index of its table. *)
Class KEnv (E : Type) := {
  e_kalloc : E → outcome (option Z * E);
  e_kfree : Z → E → outcome E;
  e_setupkvm : E → outcome (option Z * E);
  e_inituvm : Z → E → outcome E;
  e_copyuvm : Z → Z → E → outcome (option Z * E);
  e_allocuvm : Z → Z → Z → E → outcome (Z * E);
  e_deallocuvm : Z → Z → Z → E → outcome (Z * E);
  e_freevm : Z → E → outcome E;
  e_filedup : nat → E → outcome E;
  e_fileclose : nat → E → outcome E;
  e_idup : nat → E → outcome E;
  e_iput : nat → E → outcome E;
  e_namei_root : E → outcome (option nat * E);
  (** bytes a fresh page holds where the trap frame will live *)
  e_tf_junk : E → trapframe;
  (** link-time address of [forkret] *)
  e_forkret : Z
}.

(** ** The state of the process layer *)
Record kst (E : Type) := mkkst {
  k_ptable : list proc;          (* ptable.proc[NPROC] *)
  k_initproc : option nat;
  k_nextpid : Z;
  k_ticks : Z;                   (* uint ticks *)
  k_queues : list runq;          (* q0..q4, cnt, beg, end *)
  k_cpu : list (option nat);     (* cpus[i].proc *)
  k_store : gmap (Z * Z) (Z * Z); (* store[6][10000]: totaltime, qno *)
  k_env : E
}.
Arguments mkkst {E}.
Arguments k_ptable {E}.
Arguments k_initproc {E}.
Arguments k_nextpid {E}.
Arguments k_ticks {E}.
Arguments k_queues {E}.
Arguments k_cpu {E}.
Arguments k_store {E}.
Arguments k_env {E}.
#[export] Instance kst_fields {E} : Fields (kst E) := λ k,
  mkkst (k_ptable k) (k_initproc k) (k_nextpid k) (k_ticks k) (k_queues k)
    (k_cpu k) (k_store k) (k_env k).

(** The state the globals of [proc.c] and [trap.c] start from, on [ncpu] CPUs. *)
Definition kst_init {E} (ncpu : nat) (e : E) : kst E :=
  mkkst (replicate NPROC proc_zero) None 1 0 (replicate 5 runq_init)
    (replicate ncpu None) ∅ e.

Section table.
Context {E : Type}.
Implicit Types (k : kst E) (i : nat) (p : proc).

(** [p->field] through a table pointer. *)
Definition getp k i : outcome proc :=
  match k_ptable k !! i with
  | Some p => Ok p
  | None => Fault "process pointer outside ptable"
  end.

(** [p->field = ...] through a table pointer. *)
Definition updp (f : proc → proc) i k : kst E := k <| k_ptable ::= alter f i |>.

Definition setq (j : Z) (r : runq) k : kst E :=
  k <| k_queues ::= <[Z.to_nat j := r]> |>.

Definition getq k (j : Z) : outcome runq := aget (k_queues k) j.

Lemma getp_Ok k i p : getp k i = Ok p ↔ k_ptable k !! i = Some p.
Proof. unfold getp. destruct (k_ptable k !! i); naive_solver. Qed.

Lemma lookup_updp f i j k :
  k_ptable (updp f i k) !! j =
  if decide (i = j) then f <$> (k_ptable k !! j) else k_ptable k !! j.
Proof.
  unfold updp. cbn. case_decide as Hij.
  - subst. by rewrite list_lookup_alter_eq.
  - by rewrite list_lookup_alter_ne.
Qed.

Lemma lookup_updp_Some f i j k p :
  k_ptable (updp f i k) !! j = Some p →
  ∃ p0, k_ptable k !! j = Some p0 ∧ p = if decide (i = j) then f p0 else p0.
Proof.
  rewrite lookup_updp. case_decide; [|eauto].
  destruct (k_ptable k !! j) as [p0|]; cbn; naive_solver.
Qed.

Lemma length_updp f i k : length (k_ptable (updp f i k)) = length (k_ptable k).
Proof. unfold updp. cbn. apply length_alter. Qed.
End table.
#[export] Hint Rewrite @length_updp : xv6.
