(* ===== verification/Proc.v ===== *)
(** * Process lifecycle: [proc.c]

    [allocproc], [userinit], [growproc], [fork], [exit], [wait], [waitx],
    [set_priority], [check_priority], [getpinfo], [sleep], [wakeup1],
    [wakeup], [kill], [yield], [graph] and [rand], as functions on the state
    of the process layer.

    A call that blocks is modelled up to the point where it enters [sched]:
    [sleep] is the pair [sleep_enter] (up to [sched]) and [sleep_exit] (after
    it), and one turn of the loop of [wait] returns [WSleep] when the caller
    goes to sleep.  Each such piece runs with [ptable.lock] held, so it is one
    atomic step of the system. *)

From S2P Require Import Prelude.
From S2P Require Import RunQueue.
From S2P Require Import ProcTable.

Local Open Scope Z_scope.

(** [rand()] of [proc.c]: a 16-bit linear-feedback shift register; the state
    is [lfsr]. *)
Definition rand_bit (lfsr : Z) : Z :=
  Z.land (Z.lxor (Z.lxor (Z.lxor (Z.shiftr lfsr 0) (Z.shiftr lfsr 2))
                         (Z.shiftr lfsr 3)) (Z.shiftr lfsr 5)) 1.
Definition rand (lfsr : Z) : Z :=
  u16 (Z.lor (Z.shiftr lfsr 1) (Z.shiftl (rand_bit lfsr) 15)).

(** The index of the first slot that satisfies [P]: the [for] loops over
    [ptable.proc] that leave with [goto] or [break]. *)
Definition first_slot (P : proc → bool) (t : list proc) : option nat :=
  fst <$> list_find (λ p, P p) t.

(** [safestrcpy(s, t, n)] of [string.c] on an array [dst] of bytes: at most
    [n - 1] bytes of [src], stopping after a terminator, then one more zero
    byte; the rest of the array is kept. *)
Definition zero_head (dst : list Z) : list Z :=
  match dst with _ :: d => 0 :: d | [] => [] end.
Fixpoint copy_name (n : nat) (src dst : list Z) : list Z :=
  match n with
  | O => dst
  | S n' =>
      if decide (n' = O) then zero_head dst else
      match src, dst with
      | x :: src', _ :: dst' =>
          if decide (x = 0) then 0 :: zero_head dst' else x :: copy_name n' src' dst'
      | _, _ => dst
      end
  end.

(** The bytes of the literal ["initcode"]. *)
Definition initcode_str : list Z := [105; 110; 105; 116; 99; 111; 100; 101; 0].

(** The guards of [switchuvm] of [vm.c]; the rest of it loads the task
    register and [cr3] of the CPU. *)
Definition switchuvm (p : proc) : outcome unit :=
  if decide (p_kstack p = 0) then Panic "switchuvm: no kstack"
  else if decide (p_pgdir p = 0) then Panic "switchuvm: no pgdir"
  else Ok tt.

Section proc.
Context {E : Type} `{KEnv E}.
Context (pol : policy).
Implicit Types (k : kst E) (c i : nat).

(** ** allocproc *)

(** The fields set under [ptable.lock] at label [found]. *)
Definition alloc_fields (pid : Z) (p : proc) : proc :=
  p <| p_state := EMBRYO |> <| p_priority := 60 |> <| p_pid := pid |>
    <| p_qno := 0 |>
    <| p_stat := mkstat pid 0 0 0 (replicate 5 0) |>
    <| p_rrtime := replicate 5 0 |>.

(** The fields set once the kernel stack exists. *)
Definition alloc_stack (a ticks : Z) (tf : trapframe) (p : proc) : proc :=
  p <| p_kstack := a |> <| p_tf := tf |>
    <| p_context := mkctx 0 0 0 0 e_forkret |>
    <| p_ctime := i32 ticks |> <| p_rtime := 0 |> <| p_etime := 0 |>
    <| p_iotime := 0 |> <| p_aging_time := 0 |>.

Definition allocproc k : outcome (option nat * kst E) :=
  match first_slot (λ p, bool_decide (p_state p = UNUSED)) (k_ptable k) with
  | None => Ok (None, k)
  | Some i =>
      let pid := k_nextpid k in
      let k1 := updp (alloc_fields pid) i (k <| k_nextpid := i32 (pid + 1) |>) in
      r ← getq k1 0;
      r' ← qpush r i;
      let k2 := setq 0 r' k1 in
      '(oa, e) ← e_kalloc (k_env k2);
      match oa with
      | None =>
          Ok (None, updp (λ p, p <| p_kstack := 0 |> <| p_state := UNUSED |>) i
                      (k2 <| k_env := e |>))
      | Some a =>
          Ok (Some i, updp (alloc_stack a (k_ticks k2) (e_tf_junk e)) i
                        (k2 <| k_env := e |>))
      end
  end.

(** ** userinit *)

Definition SEG_UCODE : Z := 3.
Definition SEG_UDATA : Z := 4.
Definition DPL_USER : Z := 3.
Definition FL_IF : Z := 512.
Definition user_tf : trapframe :=
  let ds := Z.lor (Z.shiftl SEG_UDATA 3) DPL_USER in
  tf_zero <| tf_cs := Z.lor (Z.shiftl SEG_UCODE 3) DPL_USER |>
    <| tf_ds := ds |> <| tf_es := ds |> <| tf_ss := ds |>
    <| tf_eflags := FL_IF |> <| tf_esp := PGSIZE |> <| tf_eip := 0 |>.

Definition userinit k : outcome (kst E) :=
  '(op, k1) ← allocproc k;
  match op with
  | None => Fault "userinit: allocproc failed, null pointer"
  | Some i =>
      let k2 := k1 <| k_initproc := Some i |> in
      '(opg, e) ← e_setupkvm (k_env k2);
      match opg with
      | None => Panic "userinit: out of memory?"
      | Some pg =>
          e1 ← e_inituvm pg e;
          '(oip, e2) ← e_namei_root e1;
          Ok (updp (λ p, p <| p_pgdir := pg |> <| p_sz := PGSIZE |>
                           <| p_tf := user_tf |>
                           <| p_name ::= copy_name 16 initcode_str |>
                           <| p_cwd := oip |> <| p_state := RUNNABLE |>) i
                (k2 <| k_env := e2 |>))
      end
  end.

(** ** growproc: the new [sz], and the value returned *)
Definition growproc c (n : Z) k : outcome (Z * kst E) :=
  p ← getp k c;
  let sz := p_sz p in
  '(ok, sz', e) ←
    (if decide (0 < n) then
       '(s, e) ← e_allocuvm (p_pgdir p) sz (u32 (sz + n)) (k_env k);
       Ok (bool_decide (s ≠ 0), s, e)
     else if decide (n < 0) then
       '(s, e) ← e_deallocuvm (p_pgdir p) sz (u32 (sz + n)) (k_env k);
       Ok (bool_decide (s ≠ 0), s, e)
     else Ok (true, sz, k_env k)) : outcome (bool * Z * E);
  if ok : bool then
    _ ← switchuvm p;
    Ok (0, updp (λ p, p <| p_sz := sz' |>) c (k <| k_env := e |>))
  else Ok (-1, k <| k_env := e |>).

(** ** fork *)

(** [for (i = 0; i < NOFILE; i++) if (curproc->ofile[i]) np->ofile[i] = filedup(...)]:
    a closed descriptor of the parent leaves the child's entry as it was. *)
Fixpoint dup_files (src dst : list (option nat)) (e : E) : outcome (list (option nat) * E) :=
  match src, dst with
  | Some f :: src', _ :: dst' =>
      e1 ← e_filedup f e;
      '(rest, e2) ← dup_files src' dst' e1;
      Ok (Some f :: rest, e2)
  | None :: src', d :: dst' =>
      '(rest, e2) ← dup_files src' dst' e;
      Ok (d :: rest, e2)
  | _, _ => Ok (dst, e)
  end.

Definition fork c k : outcome (Z * kst E) :=
  '(onp, k1) ← allocproc k;
  match onp with
  | None => Ok (-1, k1)
  | Some np =>
      cur ← getp k1 c;
      '(opg, e1) ← e_copyuvm (p_pgdir cur) (p_sz cur) (k_env k1);
      n ← getp k1 np;
      match opg with
      | None =>
          e2 ← e_kfree (p_kstack n) e1;
          Ok (-1, updp (λ p, p <| p_pgdir := 0 |> <| p_kstack := 0 |>
                               <| p_state := UNUSED |>) np
                    (k1 <| k_env := e2 |>))
      | Some pg =>
          '(files, e2) ← dup_files (p_ofile cur) (p_ofile n) e1;
          match p_cwd cur with
          | None => Fault "idup of a null inode"
          | Some ip =>
              e3 ← e_idup ip e2;
              let pid := p_pid n in
              let child := λ p : proc,
                p <| p_pgdir := pg |> <| p_sz := p_sz cur |>
                  <| p_parent := Some c |>
                  <| p_tf := (p_tf cur) <| tf_eax := 0 |> |>
                  <| p_ofile := files |> <| p_cwd := Some ip |>
                  <| p_name ::= copy_name 16 (p_name cur) |>
                  <| p_qno := 0 |> in
              let prio := λ p : proc,
                if decide (pol = PBS) then p <| p_priority := Z.quot pid 2 |> else p in
              Ok (pid, updp (λ p, (prio (child p)) <| p_state := RUNNABLE |>) np
                         (k1 <| k_env := e3 |>))
          end
      end
  end.

(** ** sleep and wakeup *)

Definition wake_proc (ch : channel) (p : proc) : proc :=
  if decide (p_state p = SLEEPING ∧ p_chan p = ch) then p <| p_state := RUNNABLE |> else p.

Definition wakeup1 (ch : channel) k : kst E := k <| k_ptable ::= fmap (wake_proc ch) |>.

Definition wakeup (ch : channel) k : kst E := wakeup1 ch k.

Definition sleep_enter c (ch : channel) k : kst E :=
  updp (λ p, p <| p_chan := ch |> <| p_state := SLEEPING |>) c k.

Definition sleep_exit c k : kst E := updp (λ p, p <| p_chan := ChNull |>) c k.

Definition yield_enter c k : kst E := updp (λ p, p <| p_state := RUNNABLE |>) c k.

(** ** exit *)

(** Close the descriptors in order, clearing each entry. *)
Fixpoint close_files (fs : list (option nat)) (e : E) : outcome E :=
  match fs with
  | [] => Ok e
  | Some f :: fs' => e1 ← e_fileclose f e; close_files fs' e1
  | None :: fs' => close_files fs' e
  end.

(** The loop that passes the abandoned children to [initproc]. *)
Fixpoint reparent c (slots : list nat) k : kst E :=
  match slots with
  | [] => k
  | i :: slots' =>
      match k_ptable k !! i with
      | Some p =>
          if decide (p_parent p = Some c) then
            let k1 := updp (λ p, p <| p_parent := k_initproc k |>) i k in
            let k2 := if decide (p_state p = ZOMBIE)
                      then wakeup1 (chan_of_proc (k_initproc k)) k1 else k1 in
            reparent c slots' k2
          else reparent c slots' k
      | None => reparent c slots' k
      end
  end.

(** Up to the call of [sched], from which a zombie never returns. *)
Definition exit c k : outcome (kst E) :=
  if decide (k_initproc k = Some c) then Panic "init exiting" else
  cur ← getp k c;
  e1 ← close_files (p_ofile cur) (k_env k);
  match p_cwd cur with
  | None => Fault "iput of a null inode"
  | Some ip =>
      e2 ← e_iput ip e1;
      let k1 := updp (λ p, p <| p_ofile := replicate NOFILE None |> <| p_cwd := None |>) c
                  (k <| k_env := e2 |>) in
      let k2 := wakeup1 (chan_of_proc (p_parent cur)) k1 in
      let k3 := reparent c (seq 0 NPROC) k2 in
      Ok (updp (λ p, p <| p_state := ZOMBIE |> <| p_etime := i32 (k_ticks k3) |>) c k3)
  end.

(** ** wait and waitx *)

Inductive wait_result :=
| WReaped (i : nat) (p : proc)  (* slot and contents of the zombie freed *)
| WNone                         (* return -1 *)
| WSleep.                       (* no zombie yet: sleep on curproc *)

(** The fields both functions reset. *)
Definition reap_fields (p : proc) : proc :=
  p <| p_kstack := 0 |> <| p_pid := 0 |> <| p_parent := None |>
    <| p_name ::= <[0%nat := 0]> |> <| p_killed := 0 |> <| p_state := UNUSED |>.

Definition is_child (c : nat) (p : proc) : bool := bool_decide (p_parent p = Some c).
Definition is_zombie_child (c : nat) (p : proc) : bool :=
  is_child c p && bool_decide (p_state p = ZOMBIE).

(** One scan of the table, under [ptable.lock]. *)
Definition wait_scan c k : outcome (wait_result * kst E) :=
  match first_slot (is_zombie_child c) (k_ptable k) with
  | Some i =>
      p ← getp k i;
      e1 ← e_kfree (p_kstack p) (k_env k);
      e2 ← e_freevm (p_pgdir p) e1;
      Ok (WReaped i p, updp reap_fields i (k <| k_env := e2 |>))
  | None =>
      cur ← getp k c;
      if decide (existsb (is_child c) (k_ptable k) = false ∨ p_killed cur ≠ 0)
      then Ok (WNone, k)
      else Ok (WSleep, sleep_enter c (ChProc c) k)
  end.

(** The value [wait] returns: its local [pid] is never assigned, so the
    caller gets whatever the register or stack slot held, [junk]. *)
Definition wait_value (junk : Z) (r : wait_result) : option Z :=
  match r with
  | WReaped _ _ => Some junk
  | WNone => Some (-1)
  | WSleep => None
  end.

(** [waitx] returns the pid and stores the waiting and the running time. *)
Definition waitx_value (r : wait_result) : option (Z * option (Z * Z)) :=
  match r with
  | WReaped _ p =>
      Some (p_pid p,
            Some (i32 (p_etime p - p_ctime p - p_rtime p - p_iotime p), p_rtime p))
  | WNone => Some (-1, None)
  | WSleep => None
  end.

(** ** kill, set_priority, check_priority, getpinfo *)

Definition kill_fields (p : proc) : proc :=
  let p1 := p <| p_killed := 1 |> in
  if decide (p_state p = SLEEPING) then p1 <| p_state := RUNNABLE |> else p1.

Definition kill (pid : Z) k : Z * kst E :=
  match first_slot (λ p, p_pid p =? pid) (k_ptable k) with
  | Some i => (0, updp kill_fields i k)
  | None => (-1, k)
  end.

Definition set_priority (pid priority : Z) k : Z * kst E :=
  match first_slot (λ p, p_pid p =? pid) (k_ptable k) with
  | Some i =>
      match k_ptable k !! i with
      | Some p => (p_priority p, updp (λ p, p <| p_priority := priority |>) i k)
      | None => (-1, k)
      end
  | None => (-1, k)
  end.

Definition check_priority (prt : Z) k : Z :=
  if existsb (λ p, bool_decide (p_state p = RUNNABLE) && (p_priority p <=? prt))
       (k_ptable k)
  then 1 else 0.

(** The [struct proc_stat] written to the caller's buffer, and the result. *)
Definition getpinfo (pid : Z) k : option proc_stat * Z :=
  match list_find (λ p, bool_decide (p_state p = RUNNABLE) && (p_pid p =? pid))
          (k_ptable k) with
  | Some (_, q) =>
      (Some (mkstat (p_pid q) (st_runtime (p_stat q)) (st_num_run (p_stat q))
               (p_qno q) (st_ticks (p_stat q))), 1)
  | None => (None, 0)
  end.

(** ** graph: the samples behind [graph.png] *)

Definition graph_row (pid : Z) : option Z :=
  if pid =? 0 then Some 0 else if pid =? 1 then Some 1
  else if pid =? 2 then Some 2 else if pid =? 3 then Some 3
  else if pid =? 6 then Some 4 else if pid =? 7 then Some 5 else None.

Definition graph_proc (ticks : Z) (st : gmap (Z * Z) (Z * Z)) (p : proc) :
    gmap (Z * Z) (Z * Z) :=
  match graph_row (p_pid p) with
  | Some row => <[(row, ticks) := (i32 ticks, p_qno p)]> st
  | None => st
  end.

Definition graph k : kst E :=
  if decide (800 < k_ticks k) then k
  else k <| k_store ::= λ st, foldl (graph_proc (k_ticks k)) st (k_ptable k) |>.
End proc.
