(* ===== verification/Mlfq.v ===== *)
(** * The multi-level feedback queue: [aging] of [proc.c] and the timer part of [trap]

    Every timer interrupt charges a tick to the running process, ages the
    waiting ones, and then demotes or preempts the running one.  The branches
    of the source, one per level, differ in how they compare queue entries (by
    pointer or by pid), in the initial value of the index and in whether the
    search stops at the first match; the differences are kept. *)

From S2P Require Import Prelude.
From S2P Require Import RunQueue.
From S2P Require Import ProcTable.
From S2P Require Import Proc.

Local Open Scope Z_scope.

(** [int time_age = 50;] *)
Definition time_age : Z := 50.
(** [int clkpr[] = {1, 2, 4, 8, 16};] *)
Definition clkpr : list Z := [1; 2; 4; 8; 16].

Section mlfq.
Context {E : Type} `{KEnv E}.
Implicit Types (k : kst E) (c i : nat) (r : runq) (j : Z).

(** [q_j[i] == p] *)
Definition by_ptr (p : nat) (e : option nat) : outcome bool := Ok (bool_decide (e = Some p)).

(** A test on the process an entry points to. *)
Definition deref k (f : proc → bool) (e : option nat) : outcome bool :=
  match e with
  | None => Fault "null queue entry"
  | Some i => p ← getp k i; Ok (f p)
  end.

(** [q_j[i]->pid == pid] *)
Definition by_pid k (pid : Z) : option nat → outcome bool := deref k (λ p, p_pid p =? pid).

(** Clearing two cells of [rrtime] and setting [qno]. *)
Definition change_level (a b qno : Z) (p : proc) : proc :=
  p <| p_rrtime ::= λ t, <[Z.to_nat a := 0]> (<[Z.to_nat b := 0]> t) |>
    <| p_qno := qno |>.

(** ** Aging *)

(** The body of a branch [no == from]: take the process out of its queue and
    append it to the queue above, unless it is already there. *)
Definition age_move (src dst : option nat → outcome bool) (from : Z) i k : outcome (kst E) :=
  r ← getq k from;
  ind ← qfind src r;
  r' ← qremove r (default 0 ind);
  let k1 := setq from r' (updp (change_level (from - 1) from (from - 1)) i k) in
  d ← getq k1 (from - 1);
  d' ← qpush_unless dst d i;
  Ok (setq (from - 1) d' k1).

Definition age_level i (p : proc) k : outcome (kst E) :=
  let no := p_qno p in
  if no =? 1 then age_move (by_ptr i) (by_ptr i) 1 i k
  else if no =? 2 then age_move (by_pid k (p_pid p)) (by_pid k (p_pid p)) 2 i k
  else if no =? 3 then age_move (by_pid k (p_pid p)) (by_pid k (p_pid p)) 3 i k
  else if no =? 4 then age_move (by_pid k (p_pid p)) (by_pid k (p_pid p)) 4 i k
  else Ok k.

(** [int tm = ticks - p->ctime - p->rtime - p->aging_time] *)
Definition waited (ticks : Z) (p : proc) : Z :=
  i32 (ticks - p_ctime p - p_rtime p - p_aging_time p).

Definition age_proc i k : outcome (kst E) :=
  p ← getp k i;
  if decide (p_state p = RUNNABLE ∧ time_age < waited (k_ticks k) p) then
    k1 ← age_level i p k;
    Ok (updp (λ p, p <| p_aging_time := i32 (k_ticks k - (p_ctime p + p_rtime p)) |>) i k1)
  else Ok k.

Fixpoint age_slots (slots : list nat) k : outcome (kst E) :=
  match slots with
  | [] => Ok k
  | i :: slots' => k1 ← age_proc i k; age_slots slots' k1
  end.

Definition aging k : outcome (kst E) := age_slots (seq 0 NPROC) k.

(** ** Accounting: the timer tick on CPU 0 *)

Definition charge_tick (p : proc) : outcome proc :=
  match p_state p with
  | RUNNING =>
      let no := p_qno p in
      t ← aget (p_rrtime p) no;
      rr ← aset (p_rrtime p) no (i32 (t + 1));
      s ← aget (st_ticks (p_stat p)) no;
      st ← aset (st_ticks (p_stat p)) no (i32 (s + 1));
      Ok (p <| p_rtime ::= λ t, i32 (t + 1) |> <| p_rrtime := rr |>
            <| p_stat ::= λ s, s <| st_runtime ::= λ t, i32 (t + 1) |> <| st_ticks := st |> |>)
  | SLEEPING => Ok (p <| p_iotime ::= λ t, i32 (t + 1) |>)
  | _ => Ok p
  end.

Definition timer_tick (pol : policy) (cur : option nat) k : outcome (kst E) :=
  let k1 := wakeup ChTicks (k <| k_ticks := u32 (k_ticks k + 1) |>) in
  k2 ← (if decide (pol = MLFQ) then aging (graph k1) else Ok k1);
  match cur with
  | None => Ok k2
  | Some c => p ← getp k2 c; p' ← charge_tick p; Ok (updp (λ _, p') c k2)
  end.

(** ** Demotion: the MLFQ part of [trap] after the interrupt *)

(** Append [c] to the level below, found by pid. *)
Definition demote_to (pid : Z) (to : Z) c k : outcome (kst E) :=
  d ← getq k to;
  d' ← qpush_unless (by_pid k pid) d c;
  Ok (setq to d' k).

(** [no == 0]: the last entry with the pid, starting from [ind = -1]. *)
Definition demote0 c (p : proc) k : outcome (kst E) :=
  r ← getq k 0;
  ind ← qfind_last (by_pid k (p_pid p)) r (-1);
  r' ← qremove r ind;
  demote_to (p_pid p) 1 c (setq 0 r' (updp (change_level 0 1 1) c k)).

(** [no] = 1, 2, 3: the first entry that is the process, starting from [ind = 0]. *)
Definition demote (no : Z) c (p : proc) k : outcome (kst E) :=
  r ← getq k no;
  ind ← qfind (by_ptr c) r;
  r' ← qremove r (default 0 ind);
  demote_to (p_pid p) (no + 1) c
    (setq no r' (updp (change_level no (no + 1) (no + 1)) c k)).

(** [no == 4]: to the tail of the last queue. *)
Definition rotate4 c k : outcome (kst E) :=
  r ← getq k 4;
  ind ← qfind (by_ptr c) r;
  r' ← qrotate r (default 0 ind) c;
  Ok (setq 4 r' (updp (λ p, p <| p_rrtime ::= <[4%nat := 0]> |>) c k)).

(** [flag_j]: some entry of [q_j] is [RUNNABLE]. *)
Definition level_flag k (j : Z) : outcome bool :=
  r ← getq k j;
  f ← qfind (deref k (λ p, bool_decide (p_state p = RUNNABLE))) r;
  Ok (if f is Some _ then true else false).

Definition preempt (no : Z) k : outcome bool :=
  f0 ← level_flag k 0;
  f1 ← level_flag k 1;
  f2 ← level_flag k 2;
  f3 ← level_flag k 3;
  Ok (if no =? 1 then f0
      else if no =? 2 then f0 || f1
      else if no =? 3 then f0 || f1 || f2
      else if no =? 4 then f0 || f1 || f2 || f3
      else false).

(** The new state, and whether the handler calls [yield]. *)
Definition mlfq_timer c k : outcome (bool * kst E) :=
  p ← getp k c;
  if decide (p_state p ≠ RUNNING) then Ok (false, k) else
  let no := p_qno p in
  t ← aget (p_rrtime p) no;
  if decide (t = 0) then Ok (false, k) else
  if no =? 0 then k' ← demote0 c p k; Ok (true, k')
  else if (no =? 1) && (Z.rem t 2 =? 0) then k' ← demote 1 c p k; Ok (true, k')
  else if (no =? 2) && (Z.rem t 4 =? 0) then k' ← demote 2 c p k; Ok (true, k')
  else if (no =? 3) && (Z.rem t 8 =? 0) then k' ← demote 3 c p k; Ok (true, k')
  else if (no =? 4) && (Z.rem t 16 =? 0) then k' ← rotate4 c k; Ok (true, k')
  else y ← preempt no k; Ok (y, k).
End mlfq.
