(* ===== verification/Sched.v ===== *)
(** * The four schedulers: [scheduler] and [sched] of [proc.c]

    One turn of the [for (;;)] of [scheduler], for each value of the build
    flag.  [swtch i k] stands for everything that happens from the switch to
    process [i] until that process switches back through [sched]; it is an
    argument because it is the process's own code.  Besides the new state a
    turn returns the list of processes it announced on the console with
    "... scheduled to run", in order. *)

From S2P Require Import Prelude.
From S2P Require Import RunQueue.
From S2P Require Import ProcTable.
From S2P Require Import Proc.
From S2P Require Import Mlfq.

Local Open Scope Z_scope.

Definition is_runnable (p : proc) : bool := bool_decide (p_state p = RUNNABLE).

(** ** Selection *)

(** FCFS: [flag], [mintm] and [q] of the source; [flag] is [q != NULL]. *)
Fixpoint fcfs_scan (i : nat) (t : list proc) (q : option (nat * Z)) : option (nat * Z) :=
  match t with
  | [] => q
  | p :: t' =>
      fcfs_scan (S i) t'
        (if is_runnable p then
           match q with
           | None => Some (i, p_ctime p)
           | Some (_, mintm) => if p_ctime p <? mintm then Some (i, p_ctime p) else q
           end
         else q)
  end.
Definition fcfs_pick (t : list proc) : option nat := fst <$> fcfs_scan 0 t None.

(** PBS: the smallest priority value of a runnable process, starting from [init]. *)
Definition min_priority (init : Z) (t : list proc) : Z :=
  foldl (λ m p, if is_runnable p && (p_priority p <? m) then p_priority p else m) init t.

Section sched.
Context {E : Type} `{KEnv E}.
Context (swtch : nat → kst E → outcome (kst E)).
Implicit Types (k : kst E) (i cpu : nat).

(** [c->proc = p] *)
Definition set_cpu cpu (p : option nat) k : kst E := k <| k_cpu ::= <[cpu := p]> |>.

(** [c->proc = p; switchuvm(p); p->state = RUNNING; swtch(...); switchkvm();] *)
Definition dispatch cpu (f : proc → proc) i k : outcome (kst E) :=
  p ← getp k i;
  _ ← switchuvm p;
  swtch i (updp (λ p, (f p) <| p_state := RUNNING |>) i (set_cpu cpu (Some i) k)).

(** *** DEFAULT: round robin over the table *)
Fixpoint rr_slots cpu (slots : list nat) k : outcome (list nat * kst E) :=
  match slots with
  | [] => Ok ([], k)
  | i :: slots' =>
      p ← getp k i;
      if is_runnable p then
        k1 ← dispatch cpu id i k;
        '(tr, k2) ← rr_slots cpu slots' (set_cpu cpu None k1);
        Ok (i :: tr, k2)
      else rr_slots cpu slots' k
  end.
Definition rr_turn cpu k : outcome (list nat * kst E) := rr_slots cpu (seq 0 NPROC) k.

(** *** FCFS *)
Definition fcfs_turn cpu k : outcome (list nat * kst E) :=
  match fcfs_pick (k_ptable k) with
  | None => Ok ([], k)
  | Some i => k1 ← dispatch cpu id i k; Ok ([i], set_cpu cpu None k1)
  end.

(** *** PBS: all processes of the smallest priority value, stopping when a
    smaller one has appeared.  [c->proc] is cleared only when the loop goes
    on. *)
Fixpoint pbs_slots cpu (mxprt : Z) (slots : list nat) k : outcome (list nat * kst E) :=
  match slots with
  | [] => Ok ([], k)
  | i :: slots' =>
      p ← getp k i;
      if is_runnable p && (mxprt =? p_priority p) then
        k1 ← dispatch cpu id i k;
        if min_priority 101 (k_ptable k1) <? mxprt then Ok ([i], k1)
        else
          '(tr, k2) ← pbs_slots cpu mxprt slots' (set_cpu cpu None k1);
          Ok (i :: tr, k2)
      else pbs_slots cpu mxprt slots' k
  end.
Definition pbs_turn cpu k : outcome (list nat * kst E) :=
  pbs_slots cpu (min_priority 200 (k_ptable k)) (seq 0 NPROC) k.

(** *** MLFQ: the first runnable entry of the first level that has one *)
Definition mlfq_run cpu (j : Z) (r : runq) (ind : Z) k : outcome (list nat * kst E) :=
  e ← aget (q_arr r) ind;
  match e with
  | None => Fault "null queue entry"
  | Some i =>
      k1 ← dispatch cpu (λ p, p <| p_stat ::= λ s, s <| st_num_run ::= λ n, i32 (n + 1) |> |>) i
             (setq j (r <| q_beg := ind |>) k);
      Ok ([i], set_cpu cpu None k1)
  end.

Fixpoint mlfq_levels cpu (js : list Z) k : outcome (list nat * kst E) :=
  match js with
  | [] => Ok ([], k)
  | j :: js' =>
      r ← getq k j;
      f ← qfind (deref k is_runnable) r;
      match f with
      | Some ind => mlfq_run cpu j r ind k
      | None => mlfq_levels cpu js' k
      end
  end.
Definition mlfq_turn cpu k : outcome (list nat * kst E) := mlfq_levels cpu [0; 1; 2; 3; 4] k.

Definition scheduler_turn (pol : policy) cpu k : outcome (list nat * kst E) :=
  match pol with
  | DEFAULT => rr_turn cpu k
  | FCFS => fcfs_turn cpu k
  | PBS => pbs_turn cpu k
  | MLFQ => mlfq_turn cpu k
  end.
End sched.
(** Conversion unfolds a turn before the loop it consists of. *)
Strategy expand [rr_turn pbs_turn mlfq_turn].

(** The guards of [sched], from the state of the CPU that calls it. *)
Definition sched_guard (holding_ptable : bool) (ncli : Z) (st : procstate) (eflags_if : bool) :
    outcome unit :=
  if negb holding_ptable then Panic "sched ptable.lock"
  else if decide (ncli ≠ 1) then Panic "sched locks"
  else if decide (st = RUNNING) then Panic "sched running"
  else if eflags_if then Panic "sched interruptible"
  else Ok tt.
