(* ===== verification/Trap.v ===== *)
(** * Interrupt and trap entry: [trap] of [trap.c]

    [trap] calls [exit] and [yield], which enter the scheduler.  The handler
    is therefore cut at those calls: [trap_irq] runs from the entry to the
    first of them, [trap_resume] from the return of [yield] to the end. *)

From S2P Require Import Prelude.
From S2P Require Import RunQueue.
From S2P Require Import ProcTable.
From S2P Require Import Proc.
From S2P Require Import Mlfq.

Local Open Scope Z_scope.

(** [traps.h] *)
Definition T_SYSCALL : Z := 64.
Definition T_IRQ0 : Z := 32.
Definition IRQ_TIMER : Z := 0.
Definition IRQ_KBD : Z := 1.
Definition IRQ_COM1 : Z := 4.
Definition IRQ_IDE : Z := 14.
Definition IRQ_SPURIOUS : Z := 31.

(** [(tf->cs & 3) == DPL_USER] *)
Definition from_user (tf : trapframe) : bool := Z.land (tf_cs tf) 3 =? DPL_USER.
Definition is_timer (tf : trapframe) : bool := tf_trapno tf =? T_IRQ0 + IRQ_TIMER.

(** Where the handler goes next. *)
Inductive trap_next := TExit | TYield | TReturn.
#[export] Instance trap_next_eq_dec : EqDecision trap_next.
Proof. solve_decision. Defined.

(** The devices whose handlers [trap] calls. *)
Inductive device := DevIde | DevKbd | DevUart.

Section trap.
Context {E : Type} `{KEnv E}.
Context (pol : policy).
(** [ideintr], [kbdintr], [uartintr], and [syscall] of the running process *)
Context (intr : device → kst E → outcome (kst E)).
Context (syscall : nat → kst E → outcome (kst E)).
Implicit Types (k : kst E) (tf : trapframe) (cpu c : nat).

(** [cpus[cpu].proc] *)
Definition myproc k cpu : option nat := mjoin (k_cpu k !! cpu).

Definition killed_at k (cur : option nat) : outcome bool :=
  match cur with
  | None => Ok false
  | Some c => p ← getp k c; Ok (bool_decide (p_killed p ≠ 0))
  end.

(** The [switch] on the trap number. *)
Definition trap_dispatch cpu tf k : outcome (kst E) :=
  let no := tf_trapno tf in
  if no =? T_IRQ0 + IRQ_TIMER then
    if decide (cpu = 0%nat) then timer_tick pol (myproc k cpu) k else Ok k
  else if no =? T_IRQ0 + IRQ_IDE then intr DevIde k
  else if no =? T_IRQ0 + IRQ_IDE + 1 then Ok k
  else if no =? T_IRQ0 + IRQ_KBD then intr DevKbd k
  else if no =? T_IRQ0 + IRQ_COM1 then intr DevUart k
  else if (no =? T_IRQ0 + 7) || (no =? T_IRQ0 + IRQ_SPURIOUS) then Ok k
  else
    match myproc k cpu with
    | None => Panic "trap"
    | Some c =>
        if Z.land (tf_cs tf) 3 =? 0 then Panic "trap"
        else Ok (updp (λ p, p <| p_killed := 1 |>) c k)
    end.

(** The code between the two checks of [killed]: does the process yield? *)
Definition trap_policy (cur : option nat) tf k : outcome (bool * kst E) :=
  match cur with
  | None => Ok (false, k)
  | Some c =>
      p ← getp k c;
      if bool_decide (p_state p = RUNNING) && is_timer tf then
        match pol with
        | FCFS => Ok (false, k)
        | PBS => Ok (check_priority (p_priority p) k =? 1, k)
        | MLFQ => mlfq_timer c k
        | DEFAULT => Ok (true, k)
        end
      else Ok (false, k)
  end.

(** After [yield] has returned. *)
Definition trap_resume cpu tf k : outcome trap_next :=
  b ← killed_at k (myproc k cpu);
  Ok (if b && from_user tf then TExit else TReturn).

(** An interrupt or fault, up to [exit], [yield] or the return. *)
Definition trap_irq cpu tf k : outcome (trap_next * kst E) :=
  k1 ← trap_dispatch cpu tf k;
  b ← killed_at k1 (myproc k1 cpu);
  if b && from_user tf then Ok (TExit, k1) else
  '(y, k2) ← trap_policy (myproc k1 cpu) tf k1;
  if y : bool then
    Ok (TYield, match myproc k2 cpu with Some c => yield_enter c k2 | None => k2 end)
  else
    n ← trap_resume cpu tf k2;
    Ok (n, k2).

(** [int $T_SYSCALL]; the saved frame is the one [syscall] works on. *)
Definition trap_syscall cpu tf k : outcome (trap_next * kst E) :=
  match myproc k cpu with
  | None => Fault "system call without a process"
  | Some c =>
      b ← killed_at k (Some c);
      if b : bool then Ok (TExit, k) else
      k1 ← syscall c (updp (λ p, p <| p_tf := tf |>) c k);
      b' ← killed_at k1 (Some c);
      Ok (if b' : bool then TExit else TReturn, k1)
  end.

Definition trap cpu tf k : outcome (trap_next * kst E) :=
  if tf_trapno tf =? T_SYSCALL then trap_syscall cpu tf k else trap_irq cpu tf k.
End trap.
