(* ===== verification/ProcInv.v ===== *)
(** * The invariant of the process layer

    [kinv] states what every operation of [proc.c] and the timer code of
    [trap.c] keeps: pids identify slots, every process that is not [UNUSED] is
    on the queue its [qno] names, queue entries are pointers into [ptable],
    and levels 1 to 4 hold no process twice. *)

From S2P Require Import Prelude.
From S2P Require Import RunQueue.
From S2P Require Import ProcTable.
From S2P Require Import Proc.
From S2P Require Import Mlfq.

Local Open Scope Z_scope.

(** ** The abstract queues *)

(** The five lists the arrays represent. *)
Definition levels {E} (k : kst E) : list (list nat) := q_list <$> k_queues k.

(** [c] leaves level [a] and joins the tail of level [b] unless it is on it. *)
Definition moved (c : nat) (a b : nat) (ls ls' : list (list nat)) : Prop :=
  ∃ i l d, ls !! a = Some l ∧ ls !! b = Some d ∧ l !! i = Some c ∧
    ls' = <[b := if decide (c ∈ d) then d else d ++ [c]]> (<[a := list_remove_at i l]> ls).

Definition live (p : proc) : Prop := p_state p ≠ UNUSED.
#[export] Instance live_dec p : Decision (live p).
Proof. unfold live. apply _. Defined.

Record kinv {E} (k : kst E) : Prop := {
  inv_table : length (k_ptable k) = NPROC;
  inv_levels : length (k_queues k) = 5%nat;
  inv_rep : Forall (λ r, q_rep r (q_list r)) (k_queues k);
  inv_ptrs : ∀ j l x, levels k !! j = Some l → x ∈ l → (x < NPROC)%nat;
  inv_nodup : ∀ j l, levels k !! S j = Some l → NoDup l;
  inv_nextpid : 1 ≤ k_nextpid k ≤ INT_MAX;
  inv_pid : ∀ i p, k_ptable k !! i = Some p → 0 ≤ p_pid p < k_nextpid k;
  inv_pid_live : ∀ i p, k_ptable k !! i = Some p → live p → p_pid p ≠ 0;
  inv_pid_inj : ∀ i j p q, k_ptable k !! i = Some p → k_ptable k !! j = Some q →
    p_pid p = p_pid q → p_pid p ≠ 0 → i = j;
  inv_queued : ∀ i p, k_ptable k !! i = Some p → live p →
    0 ≤ p_qno p ≤ 4 ∧ ∃ l, levels k !! Z.to_nat (p_qno p) = Some l ∧ i ∈ l;
  inv_arrays : ∀ i p, k_ptable k !! i = Some p →
    length (p_rrtime p) = 5%nat ∧ length (st_ticks (p_stat p)) = 5%nat
}.

(** ** Changes of the table that leave the queues alone

    [pkeep] relates the contents of a slot before and after an operation that
    neither frees nor reuses it; [pfree] is what [wait] does to a zombie. *)

Definition pkeep (p p' : proc) : Prop :=
  p_pid p' = p_pid p ∧ (live p' ↔ live p) ∧ p_qno p' = p_qno p ∧
  length (p_rrtime p') = length (p_rrtime p) ∧
  length (st_ticks (p_stat p')) = length (st_ticks (p_stat p)).

Definition pfree (p p' : proc) : Prop :=
  (p_pid p' = 0 ∨ p_pid p' = p_pid p) ∧ ¬ live p' ∧
  length (p_rrtime p') = length (p_rrtime p) ∧
  length (st_ticks (p_stat p')) = length (st_ticks (p_stat p)).

#[export] Instance pkeep_refl : Reflexive pkeep.
Proof. intros p. unfold pkeep. auto. Qed.

#[export] Instance pkeep_trans : Transitive pkeep.
Proof. intros p q r (?&?&?&?&?) (?&?&?&?&?). split_and!; (congruence || tauto). Qed.

(** Solves [pkeep] goals for an explicit field update. *)
Ltac solve_pkeep :=
  unfold pkeep, pfree, live in *; cbn; repeat case_decide; cbn in *;
  split_and!; first [done | by left | by split; congruence | congruence].

Section frames.
Context {E : Type}.
Implicit Types (k : kst E).

Definition kkeep k k' : Prop :=
  Forall2 pkeep (k_ptable k) (k_ptable k') ∧
  k_queues k' = k_queues k ∧ k_nextpid k' = k_nextpid k.

(** Like [kkeep], but slots may also be freed. *)
Definition kframe k k' : Prop :=
  Forall2 (λ p p', pkeep p p' ∨ pfree p p') (k_ptable k) (k_ptable k') ∧
  k_queues k' = k_queues k ∧ k_nextpid k' = k_nextpid k.

#[export] Instance kkeep_refl : Reflexive kkeep.
Proof. intros k. split; [apply Forall2_same_length_lookup; naive_solver|done]. Qed.

#[export] Instance kkeep_trans : Transitive kkeep.
Proof.
  intros k1 k2 k3 (H1 & ? & ?) (H2 & ? & ?). split; [|split; congruence].
  by etrans.
Qed.

Lemma kkeep_kframe k k' : kkeep k k' → kframe k k'.
Proof. intros (HF & ? & ?). split; [|done]. eapply Forall2_impl; [done|]. auto. Qed.

Lemma kkeep_lookup k k' i p :
  kkeep k k' → k_ptable k !! i = Some p →
  ∃ p', k_ptable k' !! i = Some p' ∧ pkeep p p'.
Proof. intros [HF _] Hp. by eapply Forall2_lookup_l in HF. Qed.

Lemma kinv_frame k k' : kframe k k' → kinv k → kinv k'.
Proof.
  intros (HF2 & Hq & Hn) Hk.
  assert (levels k' = levels k) as Hlv by (unfold levels; by rewrite Hq).
  assert (∀ i p', k_ptable k' !! i = Some p' →
    ∃ p, k_ptable k !! i = Some p ∧ (pkeep p p' ∨ pfree p p')) as Hlk.
  { intros i p' Hp'. destruct (Forall2_lookup_r _ _ _ _ _ HF2 Hp') as (p & ? & ?). eauto. }
  split; rewrite ?Hlv, ?Hq, ?Hn; try apply Hk.
  - rewrite <-(Forall2_length _ _ _ HF2). apply Hk.
  - intros i p' (p & Hp & [[-> _]|[Hpid _]])%Hlk; [by apply (inv_pid _ Hk i)|].
    pose proof (inv_pid _ Hk i p Hp). lia.
  - intros i p' (p & Hp & [(-> & Hl & _)|(_ & ? & _)])%Hlk Hlive; [|done].
    apply Hl in Hlive. by eapply inv_pid_live.
  - intros i j p' q' (p & Hp & Hpp)%Hlk (q & Hqq & Hqp)%Hlk Heq Hne.
    assert (p_pid p' = p_pid p) as Hpe by (destruct Hpp as [[??]|[[?|?] _]]; lia).
    assert (p_pid q' = p_pid q) as Hqe by (destruct Hqp as [[??]|[[?|?] _]]; lia).
    apply (inv_pid_inj _ Hk i j p q); [done|done|lia|lia].
  - intros i p' (p & Hp & [(_ & Hl & -> & _)|(_ & ? & _)])%Hlk Hlive; [|done].
    apply (inv_queued _ Hk); [done|tauto].
  - intros i p' (p & Hp & [(_ & _ & _ & -> & ->)|(_ & _ & -> & ->)])%Hlk;
      by apply (inv_arrays _ Hk i).
Qed.

Lemma kinv_keep k k' : kkeep k k' → kinv k → kinv k'.
Proof. intros ?%kkeep_kframe. by apply kinv_frame. Qed.

Lemma kkeep_updp f i k :
  (∀ p, k_ptable k !! i = Some p → pkeep p (f p)) → kkeep k (updp f i k).
Proof.
  intros Hf. split; [|done]. apply Forall2_same_length_lookup.
  split; [by rewrite length_updp|]. intros j p p' Hp (p0 & Hp0 & ->)%lookup_updp_Some.
  rewrite Hp in Hp0. injection Hp0 as <-. case_decide; [subst; auto|done].
Qed.

Lemma kframe_updp f i k :
  (∀ p, k_ptable k !! i = Some p → pfree p (f p)) → kframe k (updp f i k).
Proof.
  intros Hf. split; [|done]. apply Forall2_same_length_lookup.
  split; [by rewrite length_updp|]. intros j p p' Hp (p0 & Hp0 & ->)%lookup_updp_Some.
  rewrite Hp in Hp0. injection Hp0 as <-. case_decide; [subst; auto|by left].
Qed.

(** Fields outside the table, the queues and [nextpid] do not matter. *)
Lemma kkeep_same k k' :
  k_ptable k' = k_ptable k → k_queues k' = k_queues k → k_nextpid k' = k_nextpid k →
  kkeep k k'.
Proof. intros Ht ??. split; [|done]. rewrite Ht. apply kkeep_refl. Qed.
End frames.

Section operations.
Context {E : Type} `{KEnv E}.
Implicit Types (k : kst E) (c i : nat).

Lemma wakeup1_keep ch k : kkeep k (wakeup1 ch k).
Proof.
  split; [|done]. cbn. apply Forall2_fmap_r, Forall_Forall2_diag, Forall_true.
  intros p. change (pkeep p (wake_proc ch p)). unfold wake_proc.
  case_decide as Hs; [|done]. destruct Hs. solve_pkeep.
Qed.

Lemma sleep_enter_keep c ch k p :
  k_ptable k !! c = Some p → live p → kkeep k (sleep_enter c ch k).
Proof. intros Hp Hl. apply kkeep_updp. intros p' Hp'. simplify_eq. solve_pkeep. Qed.

Lemma sleep_exit_keep c k : kkeep k (sleep_exit c k).
Proof. apply kkeep_updp. intros. solve_pkeep. Qed.

Lemma yield_enter_keep c k p :
  k_ptable k !! c = Some p → live p → kkeep k (yield_enter c k).
Proof. intros Hp Hl. apply kkeep_updp. intros p' Hp'. simplify_eq. solve_pkeep. Qed.

Lemma kill_keep pid k : kkeep k (kill pid k).2.
Proof.
  unfold kill. destruct (first_slot _ _); cbn; [|done].
  apply kkeep_updp. intros p _. unfold kill_fields. solve_pkeep.
Qed.

Lemma set_priority_keep pid prio k : kkeep k (set_priority pid prio k).2.
Proof.
  unfold set_priority. destruct (first_slot _ _) as [i|]; cbn; [|done].
  destruct (k_ptable k !! i); cbn; [|done].
  apply kkeep_updp. intros p' _. solve_pkeep.
Qed.

Lemma reparent_keep c slots k : kkeep k (reparent c slots k).
Proof.
  revert k. induction slots as [|i slots IH]; intros k; cbn; [done|].
  destruct (k_ptable k !! i) as [p|]; [|done]. case_decide; [|done].
  etrans; [|apply IH]. etrans; [apply (kkeep_updp (λ p, p <| p_parent := k_initproc k |>) i)|].
  - intros. solve_pkeep.
  - case_decide; [apply wakeup1_keep|done].
Qed.

Lemma exit_keep c k k' p :
  k_ptable k !! c = Some p → live p → exit c k = Ok k' → kkeep k k'.
Proof.
  intros Hp Hl Hex. unfold exit in Hex. revert Hex.
  generalize (seq 0 NPROC). intros slots Hex. case_decide; [done|].
  ok_inv. destruct (p_cwd x) as [ip|]; [|done]. ok_inv.
  match goal with |- kkeep _ (updp _ _ ?k3) => assert (kkeep k k3) as Hf end.
  { etrans; [|apply reparent_keep]. etrans; [|apply wakeup1_keep].
    etrans; [|apply kkeep_updp; intros; solve_pkeep].
    by apply kkeep_same. }
  etrans; [exact Hf|]. apply kkeep_updp. intros p3 Hp3.
  destruct (kkeep_lookup _ _ _ _ Hf Hp) as (p3' & Hp3' & Hpf). simplify_eq.
  assert (live p3) by (by apply Hpf). solve_pkeep.
Qed.

Lemma wait_scan_frame c k r k' p :
  k_ptable k !! c = Some p → live p → wait_scan c k = Ok (r, k') → kframe k k'.
Proof.
  intros Hp Hl Hw. unfold wait_scan in Hw. destruct (first_slot _ _) as [i|]; ok_inv.
  - match goal with |- kframe _ (updp _ _ ?k1) => change (kframe k1 (updp reap_fields i k1)) end.
    apply kframe_updp. intros. solve_pkeep.
  - case_decide; ok_inv; apply kkeep_kframe; [done|]. by eapply sleep_enter_keep.
Qed.

Lemma growproc_keep c n k r k' : growproc c n k = Ok (r, k') → kkeep k k'.
Proof.
  intros Hg. unfold growproc in Hg. ok_inv. destruct x0 as [[ok sz'] e].
  destruct ok; ok_inv.
  - etrans; [|apply kkeep_updp; intros; solve_pkeep]. by apply kkeep_same.
  - by apply kkeep_same.
Qed.

Lemma graph_keep k : kkeep k (graph k).
Proof. unfold graph. case_decide; [done|]. by apply kkeep_same. Qed.

Lemma charge_tick_keep p p' : charge_tick p = Ok p' → pkeep p p'.
Proof.
  unfold charge_tick. destruct (p_state p) eqn:Hst; intros Hc; ok_inv; try done.
  all: unfold pkeep, live; cbn; rewrite ?Hst; try done.
  repeat match goal with H : aset _ _ _ = Ok _ |- _ => apply aset_length in H end. done.
Qed.
End operations.
