(* ===== verification/MlfqSpec.v ===== *)
(** * The MLFQ code refines operations on five lists

    Under the invariant of the process layer, the array code of [aging] and
    of the timer part of [trap] never faults on levels 1 to 4, moves the
    process between the queues as [moved] says, and keeps the invariant. *)

From S2P Require Import Prelude.
From S2P Require Import RunQueue.
From S2P Require Import ProcTable.
From S2P Require Import Proc.
From S2P Require Import Mlfq.
From S2P Require Import ProcInv.

Local Open Scope Z_scope.

Section levels.
Context {E : Type}.
Implicit Types (k : kst E) (c : nat).

Lemma levels_setq k (j : nat) r : levels (setq (Z.of_nat j) r k) = <[j := q_list r]> (levels k).
Proof. unfold levels, setq. cbn. by rewrite Nat2Z.id, list_fmap_insert. Qed.

Lemma levels_updp f i k : levels (updp f i k) = levels k.
Proof. done. Qed.

Lemma getq_levels k (j : nat) l :
  kinv k → levels k !! j = Some l →
  ∃ r, getq k (Z.of_nat j) = Ok r ∧ q_rep r l.
Proof.
  intros Hk Hl. unfold levels in Hl. rewrite list_lookup_fmap in Hl.
  destruct (k_queues k !! j) as [r|] eqn:Hr; [|done]. injection Hl as <-.
  exists r. split; [by apply aget_nat|].
  apply (Forall_lookup_1 _ _ _ _ (inv_rep _ Hk) Hr).
Qed.

Lemma levels_lt k (j : nat) : kinv k → (j < 5)%nat → ∃ l, levels k !! j = Some l.
Proof.
  intros Hk Hj. apply lookup_lt_is_Some_2. unfold levels. rewrite length_fmap.
  by rewrite (inv_levels _ Hk).
Qed.

Lemma level_bound k j l : kinv k → levels k !! S j = Some l → (length l ≤ NPROC)%nat.
Proof.
  intros Hk Hl. pose proof (inv_nodup _ Hk _ _ Hl) as Hnd.
  apply (Nat.le_trans _ (length (seq 0 NPROC))); [|by rewrite length_seq].
  apply submseteq_length, NoDup_submseteq; [done|].
  intros x Hx. apply elem_of_seq. pose proof (inv_ptrs _ Hk _ _ x Hl Hx). lia.
Qed.

(** A process that is not on a level above 0 finds room there. *)
Lemma level_room k j l c :
  kinv k → levels k !! S j = Some l → (c < NPROC)%nat → c ∉ l →
  (length l < QSIZE)%nat.
Proof.
  intros Hk Hl Hc Hn. pose proof (level_bound _ _ _ Hk Hl). unfold NPROC, QSIZE in *. lia.
Qed.

Lemma table_lt k i p : kinv k → k_ptable k !! i = Some p → (i < NPROC)%nat.
Proof. intros Hk Hp. apply lookup_lt_Some in Hp. by rewrite (inv_table _ Hk) in Hp. Qed.

(** ** The two ways of comparing entries agree *)

Lemma by_ptr_decides c l : decides (by_ptr c) (λ x, bool_decide (x = c)) l.
Proof.
  intros x _. unfold by_ptr. f_equal. apply bool_decide_ext. naive_solver.
Qed.

Lemma by_pid_decides k j l c p :
  kinv k → levels k !! j = Some l → k_ptable k !! c = Some p → live p →
  decides (by_pid k (p_pid p)) (λ x, bool_decide (x = c)) l.
Proof.
  intros Hk Hl Hp Hlive x Hx. unfold by_pid, deref.
  destruct (lookup_lt_is_Some_2 (k_ptable k) x) as [q Hq].
  { rewrite (inv_table _ Hk). by apply (inv_ptrs _ Hk j l). }
  rewrite (proj2 (getp_Ok _ _ _) Hq). cbn. f_equal.
  destruct (Z.eqb_spec (p_pid q) (p_pid p)) as [Heq|Hne].
  - rewrite bool_decide_eq_true_2; [done|].
    apply (inv_pid_inj _ Hk x c q p); [done|done|done|].
    rewrite Heq. by apply (inv_pid_live _ Hk c).
  - rewrite bool_decide_eq_false_2; [done|]. intros ->. simplify_eq.
Qed.

Lemma find_ptr_elem c (l : list nat) :
  c ∈ l → ∃ i, list_find (λ x, bool_decide (x = c)) l = Some (i, c) ∧ l !! i = Some c.
Proof.
  intros Hc. destruct (list_find _ l) as [[i x]|] eqn:Hf.
  - apply list_find_Some in Hf as (Hi & Hx & _).
    apply bool_decide_unpack in Hx as ->. eauto.
  - apply list_find_None in Hf. rewrite Forall_forall in Hf.
    specialize (Hf c Hc). cbn in Hf. by rewrite bool_decide_eq_true_2 in Hf.
Qed.

Lemma find_ptr_case c (l : list nat) :
  (if list_find (λ x, bool_decide (x = c)) l is Some _ then l else l ++ [c]) =
  (if decide (c ∈ l) then l else l ++ [c]).
Proof.
  case_decide as Hc.
  - by destruct (find_ptr_elem _ _ Hc) as (i & -> & _).
  - destruct (list_find _ l) as [[i x]|] eqn:Hf; [|done].
    apply list_find_Some in Hf as (Hi & Hx & _).
    apply bool_decide_unpack in Hx as ->. by apply list_elem_of_lookup_2 in Hi.
Qed.

(** ** Requeuing one process keeps the invariant *)

Lemma kinv_requeue k k' c b p f :
  kinv k → k_ptable k !! c = Some p → live p →
  k_ptable k' = alter f c (k_ptable k) → k_nextpid k' = k_nextpid k →
  pkeep p ((f p) <| p_qno := p_qno p |>) → p_qno (f p) = Z.of_nat b → (b ≤ 4)%nat →
  Forall (λ r, q_rep r (q_list r)) (k_queues k') → length (k_queues k') = 5%nat →
  (∀ j l', levels k' !! j = Some l' → ∃ l, levels k !! j = Some l ∧
     (∀ x, x ∈ l' → x ∈ l ∨ x = c) ∧ (∀ x, x ∈ l → x ≠ c → x ∈ l') ∧
     (NoDup l → NoDup l')) →
  (∃ l', levels k' !! b = Some l' ∧ c ∈ l') →
  kinv k'.
Proof.
  intros Hk Hp Hlive Ht Hn (Hpid & Hlv & _ & Hrr & Hst) Hqno Hb Hrep H5 Hlev (lb & Hlb & Hcb).
  cbn in Hpid, Hlv, Hrr, Hst.
  assert (∀ i q, k_ptable k' !! i = Some q →
    ∃ q0, k_ptable k !! i = Some q0 ∧ p_pid q = p_pid q0 ∧ (live q → live q0) ∧
      length (p_rrtime q) = length (p_rrtime q0) ∧
      length (st_ticks (p_stat q)) = length (st_ticks (p_stat q0)) ∧
      ((i ≠ c ∧ q = q0) ∨ (i = c ∧ q = f p))) as Hlk.
  { intros i q. rewrite Ht. intros Hq. destruct (decide (i = c)) as [->|Hne].
    - rewrite list_lookup_alter_eq, Hp in Hq. injection Hq as <-.
      exists p. split_and!; try done. by right.
    - rewrite list_lookup_alter_ne in Hq by done. exists q. naive_solver. }
  split; rewrite ?Hn; try done.
  - rewrite Ht, length_alter. apply Hk.
  - intros j l' x Hl' Hx. destruct (Hlev _ _ Hl') as (l & Hl & Hsub & _).
    destruct (Hsub _ Hx) as [?| ->]; [by apply (inv_ptrs _ Hk j l)|by eapply table_lt].
  - intros j l' Hl'. destruct (Hlev _ _ Hl') as (l & Hl & _ & _ & Hnd).
    by apply Hnd, (inv_nodup _ Hk j).
  - apply Hk.
  - intros i q (q0 & Hq0 & -> & _)%Hlk. by apply (inv_pid _ Hk i).
  - intros i q (q0 & Hq0 & -> & Hl & _)%Hlk Hq. apply (inv_pid_live _ Hk i); auto.
  - intros i j q1 q2 (p1 & Hp1 & -> & _)%Hlk (p2 & Hp2 & -> & _)%Hlk.
    by apply (inv_pid_inj _ Hk).
  - intros i q (q0 & Hq0 & _ & Hl & _ & _ & [[Hne ->]|[-> ->]])%Hlk Hq.
    + destruct (inv_queued _ Hk i q0 Hq0 Hq) as (Hr & l & Hl0 & Hil).
      split; [done|]. destruct (levels k' !! Z.to_nat (p_qno q0)) as [l'|] eqn:Hl'.
      * exists l'. split; [done|]. destruct (Hlev _ _ Hl') as (l2 & ? & _ & Hk2 & _).
        simplify_eq. by apply Hk2.
      * apply lookup_ge_None in Hl'. unfold levels in Hl'. rewrite length_fmap, H5 in Hl'. lia.
    + rewrite Hqno. split; [lia|]. rewrite Nat2Z.id. eauto.
  - intros i q (q0 & Hq0 & _ & _ & -> & -> & _)%Hlk. by apply (inv_arrays _ Hk i).
Qed.

Lemma NoDup_remove_at (l : list nat) i : NoDup l → NoDup (list_remove_at i l).
Proof.
  intros Hnd. destruct (l !! i) as [x|] eqn:Hx.
  - rewrite (list_remove_at_perm _ _ _ Hx) in Hnd. by apply NoDup_cons in Hnd as [_ ?].
  - apply lookup_ge_None in Hx. unfold list_remove_at.
    by rewrite take_ge, drop_ge, app_nil_r by lia.
Qed.
End levels.

Section moves.
Context {E : Type} `{KEnv E}.
Implicit Types (k : kst E) (c : nat).

(** What a requeuing step leaves unchanged: only the slot of the process
    and the queues differ. *)
Definition requeued (f : proc → proc) c k k' : Prop :=
  ∃ qs, k' = (updp f c k) <| k_queues := qs |> ∧ length qs = length (k_queues k) ∧
    Forall (λ r, q_rep r (q_list r)) qs.

Lemma Forall_rep_insert (qs : list runq) j r l :
  Forall (λ r, q_rep r (q_list r)) qs → q_rep r l →
  Forall (λ r, q_rep r (q_list r)) (<[j := r]> qs).
Proof.
  intros HF Hr. apply Forall_insert; [done|]. by rewrite (q_rep_list _ _ Hr).
Qed.

(** Taking [c] out at index [i] of level [a] and appending it to level [b]. *)
Definition move_code (f : proc → proc) (test : kst E → option nat → outcome bool)
    (a b : nat) (ind : Z) c (r : runq) k : outcome (kst E) :=
  r' ← qremove r ind;
  let k1 := setq (Z.of_nat a) r' (updp f c k) in
  d ← getq k1 (Z.of_nat b);
  d' ← qpush_unless (test k1) d c;
  Ok (setq (Z.of_nat b) d' k1).

Lemma move_code_spec f test (a b i : nat) c r l d k :
  kinv k → levels k !! a = Some l → levels k !! b = Some d → a ≠ b →
  getq k (Z.of_nat a) = Ok r → l !! i = Some c →
  (∀ k1, k_ptable k1 = alter f c (k_ptable k) →
     decides (test k1) (λ x, bool_decide (x = c)) d) →
  (length d < QSIZE ∨ c ∈ d)%nat →
  ∃ k', move_code f test a b (Z.of_nat i) c r k = Ok k' ∧
    moved c a b (levels k) (levels k') ∧ requeued f c k k'.
Proof.
  intros Hk Hl Hd Hab Hr Hi Htest Hroom. unfold move_code.
  destruct (getq_levels _ _ _ Hk Hl) as (r0 & Hr0 & Hrep).
  rewrite Hr in Hr0. injection Hr0 as <-.
  destruct (getq_levels _ _ _ Hk Hd) as (rd & Hrd & Hrepd).
  destruct (qremove_spec _ _ i Hrep) as (r' & -> & Hrep' & _).
  { by eapply lookup_lt_Some. }
  cbn [mbind outcome_bind].
  assert (getq (setq (Z.of_nat a) r' (updp f c k)) (Z.of_nat b) = Ok rd) as ->.
  { unfold getq, setq in *. cbn. apply aget_Ok in Hrd as [? Hrd]. apply aget_Ok.
    split; [done|]. rewrite Nat2Z.id in Hrd. rewrite !Nat2Z.id.
    by rewrite list_lookup_insert_ne by lia. }
  cbn [mbind outcome_bind].
  specialize (Htest (setq (Z.of_nat a) r' (updp f c k)) eq_refl).
  assert (∃ d', qpush_unless (test (setq (Z.of_nat a) r' (updp f c k))) rd c = Ok d' ∧
    q_rep d' (if decide (c ∈ d) then d else d ++ [c])) as (d' & -> & Hrepd').
  { destruct Hroom as [Hroom|Hin].
    - rewrite <-find_ptr_case. by apply qpush_unless_spec.
    - unfold qpush_unless. erewrite qfind_spec by done.
      destruct (find_ptr_elem _ _ Hin) as (? & -> & _). cbn.
      exists rd. by rewrite decide_True. }
  cbn [mbind outcome_bind]. eexists. split; [done|]. split.
  - rewrite !levels_setq, levels_updp. exists i, l, d. split_and!; try done.
    by rewrite (q_rep_list _ _ Hrep'), (q_rep_list _ _ Hrepd').
  - eexists. split; [unfold setq, updp; by destruct k|]. cbn. split.
    + by rewrite !length_insert.
    + eapply Forall_rep_insert; [|done]. eapply Forall_rep_insert; [|done]. apply Hk.
Qed.

(** A move keeps the invariant. *)
Lemma kinv_moved f (a b : nat) c p k k' :
  kinv k → k_ptable k !! c = Some p → live p → a ≠ b → (b ≤ 4)%nat →
  pkeep p ((f p) <| p_qno := p_qno p |>) → p_qno (f p) = Z.of_nat b →
  moved c a b (levels k) (levels k') → requeued f c k k' → kinv k'.
Proof.
  intros Hk Hp Hl Hab Hb Hkeep Hqno (i & l & d & Hla & Hlb & Hi & Hlv) (qs & -> & Hlen & HF).
  cbn in Hlv. eapply (kinv_requeue _ _ c b p f); try done.
  - cbn. rewrite Hlen. apply Hk.
  - intros j l' Hl'. unfold levels in Hl', Hlv. cbn in Hl'. rewrite Hlv in Hl'.
    destruct (decide (j = b)) as [->|Hjb].
    + rewrite list_lookup_insert_eq in Hl'.
      2:{ rewrite length_insert. by eapply lookup_lt_Some. }
      exists d. split; [done|]. injection Hl' as <-. case_decide as Hc; [naive_solver|].
      split_and!; [set_solver|set_solver|]. intros Hnd. apply NoDup_app.
      split_and!; [done|set_solver|apply NoDup_singleton].
    + rewrite list_lookup_insert_ne in Hl' by done.
      destruct (decide (j = a)) as [->|Hja].
      * rewrite list_lookup_insert_eq in Hl' by (by eapply lookup_lt_Some).
        injection Hl' as <-. exists l. split_and!; [done| | |apply NoDup_remove_at].
        -- intros x Hx. left. by eapply list_remove_at_subset.
        -- intros x Hx Hne. by eapply elem_of_list_remove_at.
      * rewrite list_lookup_insert_ne in Hl' by done. exists l'. naive_solver.
  - exists (if decide (c ∈ d) then d else d ++ [c]). unfold levels in Hlv |- *. cbn.
    rewrite Hlv, list_lookup_insert_eq.
    + split; [done|]. case_decide; set_solver.
    + rewrite length_insert. by eapply lookup_lt_Some.
Qed.

(** The level change of the handlers keeps the slot's identity. *)
Lemma change_level_keep a b q p :
  pkeep p ((change_level a b q p) <| p_qno := p_qno p |>).
Proof.
  unfold pkeep, change_level, live. cbn. rewrite !length_insert. done.
Qed.

Lemma by_pid_requeue f c k k' p pid e :
  k_ptable k !! c = Some p → p_pid (f p) = p_pid p →
  k_ptable k' = alter f c (k_ptable k) → by_pid k' pid e = by_pid k pid e.
Proof.
  intros Hp Hpid Ht. destruct e as [i|]; [|done]. unfold by_pid, deref, getp. rewrite Ht.
  destruct (decide (i = c)) as [->|Hne].
  - rewrite list_lookup_alter_eq, Hp. cbn. by rewrite Hpid.
  - by rewrite list_lookup_alter_ne.
Qed.

Lemma by_pid_requeue_decides f c k p j l :
  kinv k → levels k !! j = Some l → k_ptable k !! c = Some p → live p →
  p_pid (f p) = p_pid p →
  ∀ k1, k_ptable k1 = alter f c (k_ptable k) →
    decides (by_pid k1 (p_pid p)) (λ x, bool_decide (x = c)) l.
Proof.
  intros Hk Hl Hp Hlive Hpid k1 Hk1 x Hx.
  rewrite (by_pid_requeue f c k k1 p) by done. by eapply by_pid_decides.
Qed.

Lemma level_room_or k j d c p :
  kinv k → levels k !! S j = Some d → k_ptable k !! c = Some p →
  (length d < QSIZE ∨ c ∈ d)%nat.
Proof.
  intros Hk Hd Hp. destruct (decide (c ∈ d)); [by right|left].
  eapply level_room; [done|done|by eapply table_lt|done].
Qed.

(** Everything a handler that moves [c] from level [a] to level [b] promises. *)
Definition move_post c (a b : nat) k (m : outcome (kst E)) : Prop :=
  ∃ k', m = Ok k' ∧ moved c a b (levels k) (levels k') ∧ kinv k' ∧
    requeued (change_level (Z.of_nat a) (Z.of_nat b) (Z.of_nat b)) c k k'.

Lemma demote0_spec c p k :
  kinv k → k_ptable k !! c = Some p → live p → p_qno p = 0 →
  move_post c 0 1 k (demote0 c p k).
Proof.
  intros Hk Hp Hl Hq. destruct (inv_queued _ Hk c p Hp Hl) as (_ & l & Hlv & Hc).
  rewrite Hq in Hlv. change (Z.to_nat 0) with O in Hlv.
  destruct (levels_lt k 1 Hk) as [d Hd]; [lia|].
  destruct (getq_levels k 0 l Hk Hlv) as (r & Hr & Hrep). change (Z.of_nat 0) with 0 in Hr.
  destruct (qfind_last_spec (by_pid k (p_pid p)) (λ x, bool_decide (x = c)) r l (-1))
    as (res & Hfind & Hcase).
  - done.
  - by eapply by_pid_decides.
  - intros i j x y _ _ Hx%bool_decide_unpack Hy%bool_decide_unpack. congruence.
  - destruct Hcase as [[Hnone _]|(i & x & Hi & Hx & ->)].
    { specialize (Hnone c Hc). cbn in Hnone. by rewrite bool_decide_eq_true_2 in Hnone. }
    apply bool_decide_unpack in Hx as ->.
    destruct (move_code_spec (change_level 0 1 1) (λ k1, by_pid k1 (p_pid p)) 0 1 i c r l d k)
      as (k' & Hm & Hmv & Hrq); try done.
    { by eapply by_pid_requeue_decides. }
    { by eapply level_room_or. }
    exists k'. split_and!; [|done| |done].
    + unfold demote0. rewrite Hr. cbn. rewrite Hfind. exact Hm.
    + eapply (kinv_moved (change_level 0 1 1) 0 1); first [done | lia | apply change_level_keep].
Qed.

Lemma demote_spec (no : nat) c p k :
  kinv k → k_ptable k !! c = Some p → live p → p_qno p = Z.of_nat no →
  (1 ≤ no ≤ 3)%nat →
  move_post c no (S no) k (demote (Z.of_nat no) c p k).
Proof.
  intros Hk Hp Hl Hq Hno. destruct (inv_queued _ Hk c p Hp Hl) as (_ & l & Hlv & Hc).
  rewrite Hq, Nat2Z.id in Hlv.
  destruct (levels_lt k (S no) Hk) as [d Hd]; [lia|].
  destruct (getq_levels k no l Hk Hlv) as (r & Hr & Hrep).
  destruct (find_ptr_elem c l Hc) as (i & Hf & Hi).
  destruct (move_code_spec (change_level (Z.of_nat no) (Z.of_nat (S no)) (Z.of_nat (S no)))
    (λ k1, by_pid k1 (p_pid p)) no (S no) i c r l d k) as (k' & Hm & Hmv & Hrq); try done.
  { by eapply by_pid_requeue_decides. }
  { by eapply level_room_or. }
  exists k'. split_and!; [|done| |done].
  - unfold demote. rewrite Hr. cbn [mbind outcome_bind].
    rewrite (qfind_spec _ _ _ _ Hrep (by_ptr_decides c l)), Hf. cbn [mbind outcome_bind fmap option_fmap option_map fst default].
    replace (Z.of_nat no + 1) with (Z.of_nat (S no)) by lia. exact Hm.
  - eapply (kinv_moved _ no (S no)); first [done | lia | apply change_level_keep].
Qed.

(** Aging: level [S b] to level [b]; only level 0 can lack room. *)
Lemma age_move_spec src dst (b : nat) c p l d k :
  kinv k → k_ptable k !! c = Some p → live p → p_qno p = Z.of_nat (S b) → (b ≤ 3)%nat →
  levels k !! S b = Some l → levels k !! b = Some d →
  decides src (λ x, bool_decide (x = c)) l → decides dst (λ x, bool_decide (x = c)) d →
  (length d < QSIZE ∨ c ∈ d)%nat →
  ∃ k', age_move src dst (Z.of_nat (S b)) c k = Ok k' ∧
    moved c (S b) b (levels k) (levels k') ∧ kinv k' ∧
    requeued (change_level (Z.of_nat b) (Z.of_nat (S b)) (Z.of_nat b)) c k k'.
Proof.
  intros Hk Hp Hl Hq Hb Hlv Hd Hsrc Hdst Hroom.
  destruct (inv_queued _ Hk c p Hp Hl) as (_ & l' & Hlv' & Hc).
  rewrite Hq, Nat2Z.id in Hlv'. simplify_eq.
  destruct (getq_levels k (S b) l Hk Hlv) as (r & Hr & Hrep).
  destruct (find_ptr_elem c l Hc) as (i & Hf & Hi).
  destruct (move_code_spec (change_level (Z.of_nat b) (Z.of_nat (S b)) (Z.of_nat b))
    (λ _, dst) (S b) b i c r l d k) as (k' & Hm & Hmv & Hrq); try done.
  exists k'. split_and!; [|done| |done].
  - unfold age_move. rewrite Hr. cbn [mbind outcome_bind].
    rewrite (qfind_spec _ _ _ _ Hrep Hsrc), Hf.
    cbn [mbind outcome_bind fmap option_fmap option_map fst default].
    replace (Z.of_nat (S b) - 1) with (Z.of_nat b) by lia. exact Hm.
  - eapply (kinv_moved _ (S b) b); first [done | lia | apply change_level_keep].
Qed.

(** Level 4: the process goes to the tail of its own queue. *)
Definition rotated c (a : nat) (ls ls' : list (list nat)) : Prop :=
  ∃ i l, ls !! a = Some l ∧ l !! i = Some c ∧
    ls' = <[a := list_remove_at i l ++ [c]]> ls.

Lemma rotate4_spec c p k :
  kinv k → k_ptable k !! c = Some p → live p → p_qno p = 4 →
  ∃ k', rotate4 c k = Ok k' ∧ rotated c 4 (levels k) (levels k') ∧ kinv k' ∧
    requeued (λ p, p <| p_rrtime ::= <[4%nat := 0]> |>) c k k'.
Proof.
  intros Hk Hp Hl Hq. destruct (inv_queued _ Hk c p Hp Hl) as (_ & l & Hlv & Hc).
  rewrite Hq in Hlv. change (Z.to_nat 4) with 4%nat in Hlv.
  destruct (getq_levels k 4 l Hk Hlv) as (r & Hr & Hrep).
  destruct (find_ptr_elem c l Hc) as (i & Hf & Hi).
  assert (i < length l)%nat as Hil by (by eapply lookup_lt_Some).
  destruct (qrotate_spec r l i c Hrep) as (r' & Hrot & Hrep' & _).
  { pose proof (level_bound k 3 l Hk Hlv). unfold NPROC, QSIZE in *. lia. }
  unfold rotate4. change (getq k 4) with (getq k (Z.of_nat 4)). rewrite Hr.
  cbn [mbind outcome_bind].
  rewrite (qfind_spec _ _ _ _ Hrep (by_ptr_decides c l)), Hf.
  cbn [mbind outcome_bind].
  change (default 0 (Z.of_nat <$> (fst <$> Some (i, c)))) with (Z.of_nat i). rewrite Hrot.
  cbn [mbind outcome_bind]. eexists. split; [done|].
  assert (levels (setq 4 r' (updp (λ p, p <| p_rrtime ::= <[4%nat := 0]> |>) c k)) =
    <[4%nat := list_remove_at i l ++ [c]]> (levels k)) as Hlv'.
  { change 4 with (Z.of_nat 4). by rewrite levels_setq, (q_rep_list _ _ Hrep'). }
  split_and!.
  - exists i, l. done.
  - eapply (kinv_requeue k _ c 4 p); try done.
    + unfold pkeep, live. cbn. by rewrite length_insert.
    + unfold setq. cbn. eapply Forall_rep_insert; [apply Hk|done].
    + unfold setq. cbn. rewrite length_insert. apply Hk.
    + intros j l' Hl'. rewrite Hlv' in Hl'. destruct (decide (j = 4%nat)) as [->|].
      * rewrite list_lookup_insert_eq in Hl' by (by eapply lookup_lt_Some).
        injection Hl' as <-. exists l. split; [done|].
        assert (list_remove_at i l ++ [c] ≡ₚ l) as Hperm.
        { rewrite (list_remove_at_perm i l c Hi) at 2.
          by rewrite Permutation_app_comm. }
        setoid_rewrite Hperm. naive_solver.
      * rewrite list_lookup_insert_ne in Hl' by done. exists l'. naive_solver.
    + rewrite Hlv', list_lookup_insert_eq by (by eapply lookup_lt_Some).
      eexists. split; [done|]. set_solver.
  - exists (<[4%nat := r']> (k_queues k)). split; [unfold setq, updp; by destruct k|].
    split; [by rewrite length_insert|]. eapply Forall_rep_insert; [apply Hk|done].
Qed.

(** ** Preemption by a higher level *)

Definition runnable_at k (x : nat) : bool :=
  match k_ptable k !! x with
  | Some p => bool_decide (p_state p = RUNNABLE)
  | None => false
  end.

Lemma runnable_at_true k i : runnable_at k i = true ↔
  ∃ p, k_ptable k !! i = Some p ∧ p_state p = RUNNABLE.
Proof.
  unfold runnable_at. destruct (k_ptable k !! i) as [p|].
  - rewrite bool_decide_eq_true. naive_solver.
  - naive_solver.
Qed.

Lemma runnable_decides k j l :
  kinv k → levels k !! j = Some l →
  decides (deref k (λ p, bool_decide (p_state p = RUNNABLE))) (runnable_at k) l.
Proof.
  intros Hk Hl x Hx. unfold deref, runnable_at, getp.
  destruct (lookup_lt_is_Some_2 (k_ptable k) x) as [q ->]; [|done].
  rewrite (inv_table _ Hk). by apply (inv_ptrs _ Hk j l).
Qed.

Lemma list_find_existsb (P : nat → bool) (l : list nat) :
  (if list_find (λ x, P x) l is Some _ then true else false) = existsb P l.
Proof.
  induction l as [|x l IH]; [done|]. cbn. destruct (P x) eqn:HP; cbn.
  - by rewrite decide_True.
  - rewrite decide_False by (intros []). rewrite <-IH. by destruct (list_find _ l).
Qed.

Lemma level_flag_spec k (j : nat) l :
  kinv k → levels k !! j = Some l →
  level_flag k (Z.of_nat j) = Ok (existsb (runnable_at k) l).
Proof.
  intros Hk Hl. destruct (getq_levels _ _ _ Hk Hl) as (r & Hr & Hrep).
  unfold level_flag. rewrite Hr. cbn [mbind outcome_bind].
  rewrite (qfind_spec _ _ _ _ Hrep (runnable_decides _ _ _ Hk Hl)).
  cbn [mbind outcome_bind]. rewrite <-list_find_existsb.
  by destruct (list_find _ l) as [[??]|].
Qed.

Lemma preempt_spec (no : nat) k :
  kinv k → (1 ≤ no ≤ 4)%nat →
  preempt (Z.of_nat no) k = Ok (existsb (existsb (runnable_at k)) (take no (levels k))).
Proof.
  intros Hk Hno. pose proof (inv_levels _ Hk) as H5.
  assert (length (levels k) = 5%nat) as Hlen by (unfold levels; by rewrite length_fmap).
  destruct (levels k) as [|l0 [|l1 [|l2 [|l3 [|l4 [|]]]]]] eqn:Hlv; try done.
  unfold preempt.
  rewrite (level_flag_spec k 0 l0 Hk : _ → level_flag k 0 = _) by (by rewrite Hlv).
  rewrite (level_flag_spec k 1 l1 Hk : _ → level_flag k 1 = _) by (by rewrite Hlv).
  rewrite (level_flag_spec k 2 l2 Hk : _ → level_flag k 2 = _) by (by rewrite Hlv).
  rewrite (level_flag_spec k 3 l3 Hk : _ → level_flag k 3 = _) by (by rewrite Hlv).
  cbn [mbind outcome_bind]. f_equal.
  destruct no as [|[|[|[|[|]]]]]; try lia; cbn; by rewrite ?orb_false_r, ?orb_assoc.
Qed.
End moves.

Section timer.
Context {E : Type} `{KEnv E}.
Implicit Types (k : kst E) (c : nat).

(** What the MLFQ part of the timer interrupt promises for the running
    process, with [t] its ticks at its level and [s] the slice of the level. *)
Definition timer_post c (no : nat) (t s : Z) k (y : bool) k' : Prop :=
  if decide (t = 0) then y = false ∧ k' = k
  else if decide (Z.rem t s = 0) then
    y = true ∧
    if decide (no = 4%nat) then
      rotated c 4 (levels k) (levels k') ∧
      requeued (λ p, p <| p_rrtime ::= <[4%nat := 0]> |>) c k k'
    else
      moved c no (S no) (levels k) (levels k') ∧
      requeued (change_level (Z.of_nat no) (Z.of_nat (S no)) (Z.of_nat (S no))) c k k'
  else k' = k ∧ y = existsb (existsb (runnable_at k)) (take no (levels k)).

Lemma mlfq_timer_expired c p k (no : nat) m :
  kinv k → k_ptable k !! c = Some p → live p → p_qno p = Z.of_nat no → (no ≤ 3)%nat →
  m = (if decide (no = 0%nat) then demote0 c p k else demote (Z.of_nat no) c p k) →
  ∃ k', (k1 ← m; Ok (true, k1)) = Ok (true, k') ∧ kinv k' ∧
    moved c no (S no) (levels k) (levels k') ∧
    requeued (change_level (Z.of_nat no) (Z.of_nat (S no)) (Z.of_nat (S no))) c k k'.
Proof.
  intros Hk Hp Hl Hq Hno ->. case_decide as H0.
  - subst. destruct (demote0_spec c p k Hk Hp Hl Hq) as (k' & -> & ? & ? & ?). eauto.
  - destruct (demote_spec no c p k Hk Hp Hl Hq) as (k' & -> & ? & ? & ?); [lia|]. eauto.
Qed.

Lemma mlfq_timer_spec c p k (no : nat) t s :
  kinv k → k_ptable k !! c = Some p → p_state p = RUNNING →
  p_qno p = Z.of_nat no → p_rrtime p !! no = Some t → clkpr !! no = Some s →
  ∃ y k', mlfq_timer c k = Ok (y, k') ∧ kinv k' ∧ timer_post c no t s k y k'.
Proof.
  intros Hk Hp Hrun Hq Ht Hs. unfold mlfq_timer, timer_post.
  assert (live p) as Hl by (unfold live; congruence).
  rewrite (proj2 (getp_Ok _ _ _) Hp). cbn [mbind outcome_bind].
  rewrite decide_False by (by auto). rewrite Hq, (aget_nat _ _ _ Ht).
  cbn [mbind outcome_bind]. case_decide as Ht0; [by exists false, k|].
  pose proof (mlfq_timer_expired c p k no) as Hexp.
  assert (no < 5)%nat as Hno by (by apply lookup_lt_Some in Hs).
  destruct (decide (Z.rem t s = 0)) as [Hrem|Hrem].
  - destruct no as [|[|[|[|[|]]]]]; [..|lia]; injection Hs as <-.
    5: destruct (rotate4_spec c p k Hk Hp Hl Hq) as (k' & Hr & ? & ? & ?).
    1: destruct (Hexp _ Hk Hp Hl Hq ltac:(lia) eq_refl) as (k' & Hm & ? & ? & ?).
    2-4: destruct (Hexp _ Hk Hp Hl Hq ltac:(lia) eq_refl) as (k' & Hm & ? & ? & ?).
    all: exists true, k'; split; [|by auto].
    1: exact Hm.
    all: rewrite ?Hrem.
    1-3: exact Hm. exact (bind_Ok_intro _ (λ k1, Ok (true, k1)) _ _ Hr eq_refl).
  - exists (existsb (existsb (runnable_at k)) (take no (levels k))), k. split; [|done].
    pose proof (preempt_spec no k Hk) as Hpre.
    assert (∀ y, preempt (Z.of_nat no) k = Ok y →
      (y ← preempt (Z.of_nat no) k; Ok (y, k)) = Ok (y, k)) as Hret by (by intros y ->).
    destruct no as [|[|[|[|[|]]]]]; [..|lia]; injection Hs as <-.
    { by rewrite Z.rem_1_r in Hrem. }
    all: rewrite <-Z.eqb_neq in Hrem; rewrite Hrem; apply Hret, Hpre; lia.
Qed.
End timer.

Section aging.
Context {E : Type} `{KEnv E}.
Implicit Types (k : kst E) (c i : nat).

(** What one visit of [aging] does to the slot it visits. *)
Definition aged (ticks : Z) (p : proc) : proc :=
  if decide (p_state p = RUNNABLE ∧ time_age < waited ticks p) then
    (if decide (1 ≤ p_qno p ≤ 4)
     then change_level (p_qno p - 1) (p_qno p) (p_qno p - 1) p else p)
    <| p_aging_time := i32 (ticks - (p_ctime p + p_rtime p)) |>
  else p.

(** ... and to the queues: up one level, to the tail. *)
Definition aged_levels i p (ticks : Z) (ls ls' : list (list nat)) : Prop :=
  if decide (p_state p = RUNNABLE ∧ time_age < waited ticks p ∧ 1 ≤ p_qno p ≤ 4)
  then moved i (Z.to_nat (p_qno p)) (pred (Z.to_nat (p_qno p))) ls ls'
  else ls' = ls.

Lemma age_level_spec i p k :
  kinv k → k_ptable k !! i = Some p → live p → 1 ≤ p_qno p ≤ 4 →
  (p_qno p = 1 → ∀ l0, levels k !! 0%nat = Some l0 → (length l0 < QSIZE ∨ i ∈ l0)%nat) →
  ∃ k', age_level i p k = Ok k' ∧ kinv k' ∧
    moved i (Z.to_nat (p_qno p)) (pred (Z.to_nat (p_qno p))) (levels k) (levels k') ∧
    requeued (change_level (p_qno p - 1) (p_qno p) (p_qno p - 1)) i k k'.
Proof.
  intros Hk Hp Hl Hq Hroom0.
  assert (∃ b, p_qno p = Z.of_nat (S b) ∧ (b ≤ 3)%nat) as (b & Hb & Hb3).
  { exists (pred (Z.to_nat (p_qno p))). lia. }
  destruct (levels_lt k (S b) Hk) as [l Hlv]; [lia|].
  destruct (levels_lt k b Hk) as [d Hd]; [lia|].
  assert (length d < QSIZE ∨ i ∈ d)%nat as Hroom.
  { destruct b; [by apply Hroom0|]. by eapply level_room_or. }
  assert (∀ src dst,
    decides src (λ x, bool_decide (x = i)) l → decides dst (λ x, bool_decide (x = i)) d →
    age_level i p k = age_move src dst (Z.of_nat (S b)) i k →
    ∃ k', age_level i p k = Ok k' ∧ kinv k' ∧
      moved i (S b) b (levels k) (levels k') ∧
      requeued (change_level (Z.of_nat b) (Z.of_nat (S b)) (Z.of_nat b)) i k k') as Hgen.
  { intros src dst Hsrc Hdst ->.
    destruct (age_move_spec src dst b i p l d k) as (k' & ? & ? & ? & ?); try done.
    eauto. }
  rewrite Hb, Nat2Z.id. replace (Z.of_nat (S b) - 1) with (Z.of_nat b) by lia.
  cbn [pred]. destruct b as [|b].
  - apply (Hgen (by_ptr i) (by_ptr i)); [apply by_ptr_decides..|].
    unfold age_level. by rewrite Hb.
  - apply (Hgen (by_pid k (p_pid p)) (by_pid k (p_pid p)));
      [by eapply by_pid_decides..|].
    unfold age_level. rewrite Hb. by destruct b as [|[|[|]]]; [..|lia].
Qed.

Lemma moved_length0 c a b ls ls' l l' :
  moved c a b ls ls' → ls !! 0%nat = Some l → ls' !! 0%nat = Some l' →
  (length l' ≤ S (length l))%nat.
Proof.
  intros (i & la & d & Ha & Hb & Hi & ->) Hl Hl'.
  destruct (decide (b = 0)%nat) as [->|Hb0].
  - rewrite list_lookup_insert_eq in Hl' by (rewrite length_insert; by eapply lookup_lt_Some).
    simplify_eq. case_decide; rewrite ?length_app; cbn; lia.
  - rewrite list_lookup_insert_ne in Hl' by done. destruct (decide (a = 0)%nat) as [->|Ha0].
    + rewrite list_lookup_insert_eq in Hl' by (by eapply lookup_lt_Some). simplify_eq.
      rewrite list_remove_at_length by (by eapply lookup_lt_Some). lia.
    + rewrite list_lookup_insert_ne in Hl' by done. simplify_eq. lia.
Qed.

Lemma age_proc_spec i p k :
  kinv k → k_ptable k !! i = Some p →
  (p_qno p = 1 → ∀ l0, levels k !! 0%nat = Some l0 → (length l0 < QSIZE ∨ i ∈ l0)%nat) →
  ∃ k', age_proc i k = Ok k' ∧ kinv k' ∧
    k_ptable k' = alter (aged (k_ticks k)) i (k_ptable k) ∧
    aged_levels i p (k_ticks k) (levels k) (levels k') ∧
    k_ticks k' = k_ticks k.
Proof.
  intros Hk Hp Hroom. unfold age_proc, aged_levels.
  rewrite (proj2 (getp_Ok _ _ _) Hp). cbn [mbind outcome_bind].
  destruct (decide (p_state p = RUNNABLE ∧ time_age < waited (k_ticks k) p)) as [Hold|Hnew].
  - set (g := λ p : proc, p <| p_aging_time := i32 (k_ticks k - (p_ctime p + p_rtime p)) |>).
    assert (live p) as Hlive by (unfold live; destruct Hold; congruence).
    destruct (inv_queued _ Hk i p Hp Hlive) as (Hr & _).
    assert (∃ k1, age_level i p k = Ok k1 ∧ kinv k1 ∧ k_ticks k1 = k_ticks k ∧
      k_ptable k1 = alter (λ p, if decide (1 ≤ p_qno p ≤ 4)
        then change_level (p_qno p - 1) (p_qno p) (p_qno p - 1) p else p) i (k_ptable k) ∧
      if decide (1 ≤ p_qno p ≤ 4)
      then moved i (Z.to_nat (p_qno p)) (pred (Z.to_nat (p_qno p))) (levels k) (levels k1)
      else levels k1 = levels k) as (k1 & -> & Hk1 & Htk & Ht1 & Hlv1).
    { destruct (decide (1 ≤ p_qno p ≤ 4)) as [Hq|Hq].
      - destruct (age_level_spec i p k) as (k1 & ? & ? & ? & (qs & -> & _)); try done.
        eexists. split_and!; try done. cbn. apply list_alter_ext; [|done].
        intros p' Hp'. simplify_eq. by rewrite decide_True.
      - exists k. split_and!; try done.
        + unfold age_level. assert (p_qno p = 0) as -> by lia. done.
        + symmetry. apply list_alter_id_at. intros p' Hp'. simplify_eq. by rewrite decide_False. }
    cbn [mbind outcome_bind]. eexists. split; [done|]. split_and!; try done.
    + apply (kinv_keep k1); [|done]. apply kkeep_updp. intros. solve_pkeep.
    + unfold updp. cbn. rewrite Ht1.
      apply list_eq. intros j. destruct (decide (i = j)) as [<-|].
      * rewrite !list_lookup_alter_eq, Hp. cbn. f_equal. unfold aged.
        rewrite (decide_True _ _ Hold). by case_decide.
      * by rewrite !list_lookup_alter_ne.
    + rewrite levels_updp. case_decide as Hq.
      * rewrite decide_True by tauto. done.
      * rewrite decide_False by tauto. done.
  - exists k. split_and!; try done.
    + symmetry. apply list_alter_id_at. intros p' Hp'. simplify_eq. unfold aged.
      by rewrite decide_False.
    + rewrite decide_False by tauto. done.
Qed.

(** A move to level 0 that returns found room there. *)
Lemma age_move_room dst src i k k' d :
  kinv k → levels k !! 0%nat = Some d → decides dst (λ x, bool_decide (x = i)) d →
  age_move src dst 1 i k = Ok k' → (length d < QSIZE ∨ i ∈ d)%nat.
Proof.
  intros Hk Hd Hdst Ha. destruct (decide (i ∈ d)) as [|Hni]; [by right|left].
  destruct (getq_levels k 0 d Hk Hd) as (q0 & Hq0 & Hrep).
  unfold age_move in Ha. apply bind_Ok in Ha as (r & _ & Ha).
  apply bind_Ok in Ha as (ind & _ & Ha). apply bind_Ok in Ha as (r' & _ & Ha).
  apply bind_Ok in Ha as (d0 & Hd0 & Ha). apply bind_Ok in Ha as (d' & Hd' & _).
  assert (d0 = q0) as ->.
  { unfold getq in Hd0, Hq0. rewrite aget_Ok in Hd0, Hq0. cbn in Hd0.
    rewrite list_lookup_insert_ne in Hd0 by done.
    change (Z.to_nat (1 - 1)) with 0%nat in Hd0. change (Z.to_nat (Z.of_nat 0)) with 0%nat in Hq0.
    naive_solver. }
  unfold qpush_unless in Hd'. rewrite (qfind_spec _ _ _ _ Hrep Hdst) in Hd'.
  destruct (list_find _ d) as [[n x]|] eqn:Hf.
  - apply list_find_Some in Hf as (Hn & Hx%bool_decide_unpack & _). subst.
    by apply list_elem_of_lookup_2 in Hn.
  - pose proof (q_rep_length _ _ Hrep). apply Nat.nle_gt. intros Hge.
    cbn in Hd'. rewrite (qpush_overflow _ _ _ Hrep) in Hd'; [done|lia].
Qed.

Lemma kinv_age_proc i k k' : kinv k → age_proc i k = Ok k' → kinv k'.
Proof.
  intros Hk Ha. pose proof Ha as Ha'. unfold age_proc in Ha.
  apply bind_Ok in Ha as (p & Hp%getp_Ok & Ha). case_decide as Hold; [|by injection Ha as <-].
  assert (live p) as Hl by (unfold live; destruct Hold; congruence).
  destruct (age_proc_spec i p k Hk Hp) as (k1 & Ha1 & Hk1 & _).
  - intros H1 l0 Hl0. apply bind_Ok in Ha as (k2 & Ha & _).
    unfold age_level in Ha. rewrite H1 in Ha.
    eapply age_move_room; [done|done| |exact Ha]. apply by_ptr_decides.
  - rewrite Ha1 in Ha'. by injection Ha' as <-.
Qed.

Lemma kinv_age_slots slots k k' : kinv k → age_slots slots k = Ok k' → kinv k'.
Proof.
  revert k. induction slots as [|i slots IH]; intros k Hk Ha; [by injection Ha as <-|].
  apply bind_Ok in Ha as (k1 & Ha1 & Ha). eapply IH; [|done]. by eapply kinv_age_proc.
Qed.

Lemma age_slots_spec slots k l0 :
  kinv k → NoDup slots → Forall (λ i, i < NPROC)%nat slots →
  levels k !! 0%nat = Some l0 → (length l0 + length slots ≤ QSIZE)%nat →
  ∃ k', age_slots slots k = Ok k' ∧ kinv k' ∧ k_ticks k' = k_ticks k ∧
    ∀ i, k_ptable k' !! i =
      if decide (i ∈ slots) then aged (k_ticks k) <$> k_ptable k !! i
      else k_ptable k !! i.
Proof.
  revert k l0. induction slots as [|i slots IH]; intros k l0 Hk Hnd HF Hl0 Hlen.
  { exists k. split_and!; try done. }
  apply NoDup_cons in Hnd as [Hni Hnd]. apply Forall_cons in HF as [Hi HF].
  cbn [length] in Hlen.
  destruct (lookup_lt_is_Some_2 (k_ptable k) i) as [p Hp]; [by rewrite (inv_table _ Hk)|].
  destruct (age_proc_spec i p k Hk Hp) as (k1 & Ha & Hk1 & Ht1 & Hlv1 & Htk1).
  { intros _ l' Hl'. simplify_eq. left. lia. }
  destruct (levels_lt k1 0 Hk1) as [l1 Hl1]; [lia|].
  assert (length l1 ≤ S (length l0))%nat as Hgrow.
  { unfold aged_levels in Hlv1. case_decide.
    - by eapply moved_length0.
    - rewrite Hlv1 in Hl1. simplify_eq. lia. }
  destruct (IH k1 l1 Hk1 Hnd HF Hl1) as (k' & Ha' & Hk' & Htk' & Ht'); [lia|].
  exists k'. split_and!; [cbn; by rewrite Ha|done|congruence|].
  intros j. rewrite Ht', Htk1, Ht1. destruct (decide (j = i)) as [->|Hne].
  - rewrite decide_False by done. rewrite decide_True by set_solver.
    by rewrite list_lookup_alter_eq.
  - rewrite list_lookup_alter_ne by done. destruct (decide (j ∈ slots)).
    + by rewrite decide_True by set_solver.
    + by rewrite decide_False by set_solver.
Qed.

(** The whole pass: every slot is treated by [aged], whatever the order of
    the moves did to the queues. *)
Lemma aging_spec k l0 :
  kinv k → levels k !! 0%nat = Some l0 → (length l0 + NPROC ≤ QSIZE)%nat →
  ∃ k', aging k = Ok k' ∧ kinv k' ∧ k_ticks k' = k_ticks k ∧
    k_ptable k' = aged (k_ticks k) <$> k_ptable k.
Proof.
  intros Hk Hl0 Hlen.
  destruct (age_slots_spec (seq 0 NPROC) k l0) as (k' & Ha & Hk' & Htk & Ht); try done.
  - apply NoDup_seq.
  - apply Forall_seq. lia.
  - exists k'. split_and!; try done. apply list_eq. intros i.
    rewrite Ht, list_lookup_fmap. case_decide as Hi; [done|].
    rewrite !lookup_ge_None_2; try done; rewrite (inv_table _ Hk);
      rewrite elem_of_seq in Hi; lia.
Qed.
End aging.
