(* ===== verification/SchedSpec.v ===== *)
(** * What the four schedulers choose *)

From S2P Require Import Prelude.
From S2P Require Import RunQueue.
From S2P Require Import ProcTable.
From S2P Require Import Proc.
From S2P Require Import Mlfq.
From S2P Require Import Sched.
From S2P Require Import ProcInv.
From S2P Require Import MlfqSpec.

Local Open Scope Z_scope.

Lemma is_runnable_true p : is_runnable p = true ↔ p_state p = RUNNABLE.
Proof. unfold is_runnable. apply bool_decide_eq_true. Qed.
Lemma is_runnable_false p : is_runnable p = false ↔ p_state p ≠ RUNNABLE.
Proof. unfold is_runnable. apply bool_decide_eq_false. Qed.

(** ** FCFS *)

(** [i] is the earliest runnable slot of [t] by creation time, the lowest one
    among equals. *)
Definition earliest (t : list proc) (i : nat) : Prop :=
  ∃ p, t !! i = Some p ∧ p_state p = RUNNABLE ∧
    ∀ j q, t !! j = Some q → p_state q = RUNNABLE →
      p_ctime p < p_ctime q ∨ (p_ctime p = p_ctime q ∧ i ≤ j)%nat.

Lemma fcfs_scan_spec (n : nat) t q :
  match fcfs_scan n t q with
  | None => q = None ∧ ∀ p, p ∈ t → p_state p ≠ RUNNABLE
  | Some (i, m) =>
      (q = Some (i, m) ∧ ∀ p, p ∈ t → p_state p = RUNNABLE → m ≤ p_ctime p) ∨
      (∃ j p, i = (n + j)%nat ∧ t !! j = Some p ∧ p_state p = RUNNABLE ∧ m = p_ctime p ∧
         (∀ i0 m0, q = Some (i0, m0) → m < m0) ∧
         ∀ j' p', t !! j' = Some p' → p_state p' = RUNNABLE →
           m < p_ctime p' ∨ (m = p_ctime p' ∧ j ≤ j')%nat)
  end.
Proof.
  revert n q. induction t as [|p t IH]; intros n q; cbn [fcfs_scan].
  { destruct q as [[i m]|]; [left|]; split; try done; set_solver. }
  set (q' := if is_runnable p then _ else _). specialize (IH (S n) q').
  destruct (fcfs_scan (S n) t q') as [[i m]|].
  - destruct IH as [[Hq' Hall]|(j & p1 & -> & Hp1 & Hr1 & -> & Hlt & Hall)].
    + unfold q' in Hq'. destruct (is_runnable p) eqn:Hr.
      * apply is_runnable_true in Hr. destruct q as [[i0 m0]|].
        -- destruct (Z.ltb_spec (p_ctime p) m0) as [Hc|Hc].
           ++ injection Hq' as <- <-. right. exists 0%nat, p.
              split_and!; [lia|done|done|done|intros ?? [= <- <-]; lia|].
              intros [|j'] p' Hp' Hr'; [injection Hp' as <-; lia|].
              assert (p_ctime p ≤ p_ctime p') by (apply Hall; [by eapply list_elem_of_lookup_2|done]).
              lia.
           ++ injection Hq' as <- <-. left. split; [done|].
              intros x [->|Hx]%elem_of_cons Hrx; [done|auto].
        -- injection Hq' as <- <-. right. exists 0%nat, p.
           split_and!; [lia|done|done|done|done|].
           intros [|j'] p' Hp' Hr'; [injection Hp' as <-; lia|].
           assert (p_ctime p ≤ p_ctime p') by (apply Hall; [by eapply list_elem_of_lookup_2|done]).
           lia.
      * apply is_runnable_false in Hr. left. split; [done|].
        intros x [->|Hx]%elem_of_cons Hrx; [done|auto].
    + right. exists (S j), p1. split_and!; [lia|done|done|done| |].
      * intros i0 m0 ->. unfold q' in Hlt. destruct (is_runnable p); [|by eapply Hlt].
        destruct (Z.ltb_spec (p_ctime p) m0); [|by eapply Hlt].
        specialize (Hlt _ _ eq_refl). lia.
      * intros [|j'] p' Hp' Hr'; [|destruct (Hall j' p' Hp' Hr'); [by left|right; lia]].
        injection Hp' as <-. left. unfold q' in Hlt.
        rewrite (proj2 (is_runnable_true p) Hr') in Hlt. destruct q as [[i0 m0]|].
        -- destruct (Z.ltb_spec (p_ctime p) m0); specialize (Hlt _ _ eq_refl); lia.
        -- specialize (Hlt _ _ eq_refl). lia.
  - destruct IH as [Hq' Hall]. unfold q' in Hq'. destruct (is_runnable p) eqn:Hr.
    + destruct q as [[i0 m0]|]; [|done]. by destruct (p_ctime p <? m0).
    + apply is_runnable_false in Hr. split; [done|].
      intros x [->|Hx]%elem_of_cons; [done|auto].
Qed.

Lemma fcfs_pick_spec t :
  match fcfs_pick t with
  | Some i => earliest t i
  | None => ∀ j q, t !! j = Some q → p_state q ≠ RUNNABLE
  end.
Proof.
  unfold fcfs_pick. pose proof (fcfs_scan_spec 0 t None) as Hs.
  destruct (fcfs_scan 0 t None) as [[i m]|]; cbn.
  - destruct Hs as [[? _]|(j & p & -> & Hp & Hr & -> & _ & Hall)]; [done|].
    exists p. split_and!; try done.
  - destruct Hs as [_ Hall]. intros j q Hq. by eapply Hall, list_elem_of_lookup_2.
Qed.

(** ** PBS *)

(** [min_priority init t] is the least of [init] and the priorities of the
    runnable processes. *)
Lemma min_priority_spec init t :
  let m := min_priority init t in
  m ≤ init ∧ (∀ p, p ∈ t → p_state p = RUNNABLE → m ≤ p_priority p) ∧
  (m = init ∨ ∃ p, p ∈ t ∧ p_state p = RUNNABLE ∧ p_priority p = m).
Proof.
  unfold min_priority. revert init. induction t as [|p t IH]; intros init; cbn.
  { split_and!; [lia|set_solver|by left]. }
  set (init' := if is_runnable p && _ then _ else _).
  destruct (IH init') as (Hle & Hall & Hex). cbn in *.
  assert (init' ≤ init ∧ (p_state p = RUNNABLE → init' ≤ p_priority p) ∧
          (init' = init ∨ p_state p = RUNNABLE ∧ p_priority p = init')) as (H1 & H2 & H3).
  { unfold init'. destruct (is_runnable p) eqn:Hr; cbn.
    - apply is_runnable_true in Hr. destruct (Z.ltb_spec (p_priority p) init); lia || auto with lia.
    - apply is_runnable_false in Hr. split_and!; [lia|done|by left]. }
  split_and!; [lia| |].
  - intros x [->|Hx]%elem_of_cons Hr; [specialize (H2 Hr); lia|auto].
  - destruct Hex as [->|(x & ? & ? & ?)].
    + destruct H3 as [->|[? ?]]; [by left|right]. exists p. split_and!; [left|..]; done.
    + right. exists x. split_and!; [right|..]; done.
Qed.

(** ** MLFQ *)

Section mlfq_pick.
Context {E : Type} `{KEnv E} (swtch : nat → kst E → outcome (kst E)).
Implicit Types (k : kst E) (ls : list (list nat)).

(** Abstract selection: the first runnable entry, levels in order. *)
Definition picks k (j n i : nat) : Prop :=
  ∃ l, levels k !! j = Some l ∧ l !! n = Some i ∧ runnable_at k i = true ∧
    (∀ n' x, (n' < n)%nat → l !! n' = Some x → runnable_at k x = false) ∧
    (∀ j' l' x, (j' < j)%nat → levels k !! j' = Some l' → x ∈ l' → runnable_at k x = false).

Definition idle k : Prop := ∀ i p, k_ptable k !! i = Some p → p_state p ≠ RUNNABLE.

(** The bookkeeping of a chosen process before the switch. *)
Definition count_run (p : proc) : proc :=
  p <| p_stat ::= λ s, s <| st_num_run ::= λ n, i32 (n + 1) |> |>.

Definition mlfq_choice cpu (j n i : nat) k : outcome (list nat * kst E) :=
  r ← getq k (Z.of_nat j);
  k1 ← dispatch swtch cpu count_run i (setq (Z.of_nat j) (r <| q_beg := Z.of_nat n |>) k);
  Ok ([i], set_cpu cpu None k1).

Lemma mlfq_levels_spec cpu k (j : nat) :
  kinv k → (j ≤ 5)%nat →
  (∀ j' l' x, (j' < j)%nat → levels k !! j' = Some l' → x ∈ l' → runnable_at k x = false) →
  (∃ j1 n i, picks k j1 n i ∧
     mlfq_levels swtch cpu (Z.of_nat <$> seq j (5 - j)) k = mlfq_choice cpu j1 n i k) ∨
  ((∀ j' l' x, levels k !! j' = Some l' → x ∈ l' → runnable_at k x = false) ∧
   mlfq_levels swtch cpu (Z.of_nat <$> seq j (5 - j)) k = Ok ([], k)).
Proof.
  intros Hk Hj. remember (5 - j)%nat as m eqn:Hm. revert j Hj Hm.
  assert (length (levels k) = 5%nat) as Hlen
    by (unfold levels; rewrite length_fmap; apply Hk).
  induction m as [|m IH]; intros j Hj Hm Hlow; cbn [seq fmap list_fmap].
  { right. split; [|done]. intros j' l' x Hl'. apply (Hlow j'); [|done].
    apply lookup_lt_Some in Hl'. lia. }
  destruct (lookup_lt_is_Some_2 (levels k) j) as [l Hl]; [lia|].
  destruct (getq_levels _ _ _ Hk Hl) as (r & Hr & Hrep).
  cbn [mlfq_levels]. rewrite Hr. cbn [mbind outcome_bind].
  pose proof (qfind_spec _ _ _ _ Hrep (runnable_decides _ _ _ Hk Hl)) as Hf.
  change (deref k is_runnable) with (deref k (λ p, bool_decide (p_state p = RUNNABLE))).
  rewrite Hf. cbn [mbind outcome_bind].
  destruct (list_find (λ x, runnable_at k x) l) as [[n i]|] eqn:Hfind; cbn [fmap option_fmap option_map fst].
  - apply list_find_Some in Hfind as (Hn & Hi & Hbef). left. exists j, n, i. split.
    + exists l. split_and!; [done|done|by apply Is_true_true|..|done].
      intros n' x Hn' Hx. apply Is_true_false. by eapply Hbef.
    + unfold mlfq_run, mlfq_choice. rewrite Hr. cbn [mbind outcome_bind].
      assert (q_arr r !! n = Some (Some i)) as Ha.
      { rewrite (q_rep_lookup _ _ _ Hrep) by (by eapply lookup_lt_Some). by rewrite Hn. }
      by rewrite (aget_nat _ _ _ Ha).
  - apply list_find_None in Hfind. apply IH; [lia|lia|].
    intros j' l' x Hj' Hl' Hx. destruct (decide (j' = j)) as [->|]; [|apply (Hlow j' l'); [lia|done..]].
    rewrite Hl in Hl'. injection Hl' as <-. apply Is_true_false.
    rewrite Forall_forall in Hfind. auto.
Qed.

Lemma mlfq_turn_cases cpu k :
  kinv k →
  (∃ j n i, picks k j n i ∧ mlfq_turn swtch cpu k = mlfq_choice cpu j n i k) ∨
  (idle k ∧ mlfq_turn swtch cpu k = Ok ([], k)).
Proof.
  intros Hk. destruct (mlfq_levels_spec cpu k 0 Hk) as [?|[Hno Heq]]; [lia|lia|by left|right].
  split; [|done]. intros i p Hp Hr.
  destruct (inv_queued _ Hk i p Hp) as (_ & l & Hl & Hi); [unfold live; congruence|].
  specialize (Hno _ _ _ Hl Hi). apply not_true_iff_false in Hno. apply Hno, runnable_at_true. eauto.
Qed.
End mlfq_pick.

(** ** Turns of the table schedulers *)

Section turns.
Context {E : Type} `{KEnv E} (swtch : nat → kst E → outcome (kst E)).
Implicit Types (k : kst E) (i cpu : nat).

(** A process that, while it runs, changes no other slot of the table. *)
Definition isolated : Prop :=
  ∀ i k k', swtch i k = Ok k' → ∀ j, j ≠ i → k_ptable k' !! j = k_ptable k !! j.

Definition slot_is (f : proc → bool) k i : bool :=
  match k_ptable k !! i with Some p => f p | None => false end.

Lemma dispatch_isolated cpu f i k k' :
  isolated → dispatch swtch cpu f i k = Ok k' →
  ∀ j, j ≠ i → k_ptable k' !! j = k_ptable k !! j.
Proof.
  unfold dispatch. intros Hiso Hd j Hj. ok_inv.
  rewrite (Hiso _ _ _ Hd j Hj), lookup_updp. by rewrite decide_False.
Qed.

Lemma filter_slots_ext f k k' (slots : list nat) :
  (∀ j, j ∈ slots → k_ptable k' !! j = k_ptable k !! j) →
  filter (λ i, slot_is f k' i) slots = filter (λ i, slot_is f k i) slots.
Proof.
  intros Heq. induction slots as [|i slots IH]; [done|].
  assert (slot_is f k' i = slot_is f k i) as Hi
    by (unfold slot_is; rewrite Heq; [done|left]).
  rewrite !filter_cons, Hi, IH; [done|]. intros j Hj. apply Heq. by right.
Qed.

Lemma slot_is_getp f k i p : getp k i = Ok p → slot_is f k i = f p.
Proof. intros Hp%getp_Ok. unfold slot_is. by rewrite Hp. Qed.

Lemma rr_slots_trace cpu slots k tr k' :
  isolated → NoDup slots → rr_slots swtch cpu slots k = Ok (tr, k') →
  tr = filter (λ i, slot_is is_runnable k i) slots.
Proof.
  intros Hiso. revert k tr k'. induction slots as [|i slots IH]; intros k tr k' Hnd Heq.
  { by injection Heq as <- <-. }
  apply NoDup_cons in Hnd as [Hi Hnd]. cbn [rr_slots] in Heq.
  apply bind_Ok in Heq as (p & Hp & Heq). rewrite filter_cons, (slot_is_getp _ _ _ _ Hp).
  destruct (is_runnable p).
  - apply bind_Ok in Heq as (k1 & Hd & Heq). apply bind_Ok in Heq as ([tr' k2] & Hrr & Heq).
    injection Heq as <- <-. rewrite decide_True by done. f_equal.
    rewrite (IH _ _ _ Hnd Hrr). apply filter_slots_ext. intros j Hj.
    apply (dispatch_isolated _ _ _ _ _ Hiso Hd). set_solver.
  - rewrite decide_False by (intros []). by eapply IH.
Qed.

(** *** PBS *)

(** A process that, while it runs, does not lower its own priority value. *)
Definition keeps_priority : Prop :=
  ∀ i k k' p p', swtch i k = Ok k' → k_ptable k !! i = Some p → k_ptable k' !! i = Some p' →
    p_priority p ≤ p_priority p'.

Definition at_least (m : Z) k : Prop :=
  ∀ i p, k_ptable k !! i = Some p → p_state p = RUNNABLE → m ≤ p_priority p.

Lemma at_least_min m k : at_least m k → m ≤ 101 → m ≤ min_priority 101 (k_ptable k).
Proof.
  intros Ha Hm. destruct (min_priority_spec 101 (k_ptable k)) as (_ & _ & Hex).
  destruct Hex as [->|(p & [i Hp]%list_elem_of_lookup & Hr & <-)]; [done|by eapply Ha].
Qed.

Lemma at_least_dispatch m cpu i p k k' :
  isolated → keeps_priority → k_ptable k !! i = Some p → p_priority p = m →
  dispatch swtch cpu id i k = Ok k' → at_least m k → at_least m k'.
Proof.
  intros Hiso Hkp Hp Hm Hd Ha j q Hq Hr. destruct (decide (j = i)) as [->|Hj].
  - unfold dispatch in Hd. ok_inv. rewrite <-Hm.
    change (p_priority p) with (p_priority (p <| p_state := RUNNING |>)). apply (Hkp i _ _ (p <| p_state := RUNNING |>) q Hd); [|exact Hq].
    rewrite lookup_updp, decide_True by done. cbn. by rewrite Hp.
  - rewrite (dispatch_isolated _ _ _ _ _ Hiso Hd j Hj) in Hq. by eapply Ha.
Qed.

Lemma pbs_slots_trace cpu m slots k tr k' :
  isolated → keeps_priority → m ≤ 101 → at_least m k → NoDup slots →
  pbs_slots swtch cpu m slots k = Ok (tr, k') →
  tr = filter (λ i, slot_is (λ p, is_runnable p && (m =? p_priority p)) k i) slots.
Proof.
  intros Hiso Hkp Hm. revert k tr k'.
  induction slots as [|i slots IH]; intros k tr k' Ha Hnd Heq.
  { by injection Heq as <- <-. }
  apply NoDup_cons in Hnd as [Hi Hnd]. cbn [pbs_slots] in Heq.
  apply bind_Ok in Heq as (p & Hp & Heq). rewrite filter_cons, (slot_is_getp _ _ _ _ Hp).
  destruct (is_runnable p && (m =? p_priority p)) eqn:Hb.
  - apply andb_true_iff in Hb as [_ Hpm%Z.eqb_eq].
    apply bind_Ok in Heq as (k1 & Hd & Heq).
    assert (at_least m k1) as Ha1.
    { eapply at_least_dispatch; [done|done|by apply getp_Ok|done|exact Hd|done]. }
    assert (min_priority 101 (k_ptable k1) <? m = false) as Hmin.
    { apply Z.ltb_ge. by apply at_least_min. }
    rewrite Hmin in Heq. apply bind_Ok in Heq as ([tr' k2] & Hrr & Heq).
    injection Heq as <- <-. rewrite decide_True by done. f_equal.
    rewrite (IH (set_cpu cpu None k1) _ _ Ha1 Hnd Hrr). apply filter_slots_ext. intros j Hj.
    apply (dispatch_isolated _ _ _ _ _ Hiso Hd). set_solver.
  - rewrite decide_False by (intros []). by eapply IH.
Qed.

Lemma pbs_slots_first cpu m slots k tr k' :
  101 < m → pbs_slots swtch cpu m slots k = Ok (tr, k') →
  tr = [] ∨ ∃ i, tr = [i] ∧
    head (filter (λ i, slot_is (λ p, is_runnable p && (m =? p_priority p)) k i) slots) = Some i.
Proof.
  intros Hm. induction slots as [|i slots IH]; intros Heq; [injection Heq as <- <-; by left|].
  cbn [pbs_slots] in Heq. apply bind_Ok in Heq as (p & Hp & Heq).
  rewrite filter_cons, (slot_is_getp _ _ _ _ Hp). destruct (is_runnable p && (m =? p_priority p)).
  - rewrite decide_True by done. apply bind_Ok in Heq as (k1 & Hd & Heq).
    destruct (min_priority_spec 101 (k_ptable k1)) as (Hle & _ & _).
    assert (min_priority 101 (k_ptable k1) <? m = true) as Hlt by (apply Z.ltb_lt; lia).
    rewrite Hlt in Heq. injection Heq as <- <-. right. by exists i.
  - rewrite decide_False by (intros []). auto.
Qed.

(** The slots a PBS turn visits, by their priorities. *)
Lemma least_priority_slots (slots : list nat) k (i : nat) :
  i ∈ filter (λ i, slot_is (λ p, is_runnable p && (min_priority 200 (k_ptable k) =? p_priority p)) k i)
        slots ↔
  i ∈ slots ∧ ∃ p, k_ptable k !! i = Some p ∧ p_state p = RUNNABLE ∧ p_priority p ≤ 200 ∧
    ∀ j q, k_ptable k !! j = Some q → p_state q = RUNNABLE → p_priority p ≤ p_priority q.
Proof.
  rewrite list_elem_of_filter. unfold slot_is.
  destruct (min_priority_spec 200 (k_ptable k)) as (Hle & Hmin & Hex). split.
  - intros [Hb Hi]. split; [done|]. destruct (k_ptable k !! i) as [p|] eqn:Hp; [|done].
    apply Is_true_true, andb_true_iff in Hb as [Hr%is_runnable_true Hm%Z.eqb_eq].
    exists p. split_and!; [done|done|lia|]. intros j q Hq Hrq.
    rewrite <-Hm. apply Hmin; [by eapply list_elem_of_lookup_2|done].
  - intros (Hi & p & Hp & Hr & Hp200 & Hall). split; [|done]. rewrite Hp.
    apply Is_true_true, andb_true_iff. split; [by apply is_runnable_true|].
    apply Z.eqb_eq. apply Z.le_antisymm.
    + apply Hmin; [by eapply list_elem_of_lookup_2|done].
    + destruct Hex as [->|(q & [j Hq]%list_elem_of_lookup & Hrq & <-)]; [done|by eapply Hall].
Qed.

Lemma pbs_slots_none cpu m slots k :
  (∀ i, i ∈ slots → is_Some (k_ptable k !! i)) →
  (∀ i p, k_ptable k !! i = Some p → p_state p = RUNNABLE → p_priority p ≠ m) →
  pbs_slots swtch cpu m slots k = Ok ([], k).
Proof.
  intros Hin Hno. induction slots as [|i slots IH]; [done|]. cbn [pbs_slots].
  destruct (Hin i) as [p Hp]; [left|]. rewrite (proj2 (getp_Ok _ _ _) Hp). cbn [mbind outcome_bind].
  assert (is_runnable p && (m =? p_priority p) = false) as ->.
  { destruct (is_runnable p) eqn:Hr; [|done]. apply is_runnable_true in Hr.
    apply Z.eqb_neq. intros ->. by eapply Hno. }
  apply IH. intros j Hj. apply Hin. by right.
Qed.
End turns.
