(* ===== verification/ProcSpec.v ===== *)
(** * Process creation, exit and reaping: what they do and what they keep *)

From S2P Require Import Prelude.
From S2P Require Import RunQueue.
From S2P Require Import ProcTable.
From S2P Require Import Proc.
From S2P Require Import Mlfq.
From S2P Require Import ProcInv.
From S2P Require Import MlfqSpec.

Local Open Scope Z_scope.

Lemma first_slot_Some P t i :
  first_slot P t = Some i →
  ∃ p, t !! i = Some p ∧ P p = true ∧ (∀ j q, (j < i)%nat → t !! j = Some q → P q = false).
Proof.
  unfold first_slot. intros Hf. destruct (list_find _ t) as [[i' p]|] eqn:Hl; [|done].
  injection Hf as <-. apply list_find_Some in Hl as (Hp & HP & Hlt).
  exists p. split_and!; [done|by apply Is_true_eq_true|].
  intros j q Hj Hq. specialize (Hlt j q Hq Hj). by apply Is_true_false in Hlt.
Qed.

Lemma first_slot_None P t i p : first_slot P t = None → t !! i = Some p → P p = false.
Proof.
  unfold first_slot. intros Hf Hp. destruct (list_find _ t) as [[i' q]|] eqn:Hl; [done|].
  apply list_find_None in Hl. rewrite Forall_lookup in Hl.
  specialize (Hl i p Hp). by apply Is_true_false in Hl.
Qed.

Section alloc.
Context {E : Type} `{KEnv E}.
Implicit Types (k : kst E) (c i : nat).

(** The state after the part of [allocproc] that holds [ptable.lock]. *)
Definition alloc_state i (r : runq) k : kst E :=
  setq 0 r (updp (alloc_fields (k_nextpid k)) i
              (k <| k_nextpid := i32 (k_nextpid k + 1) |>)).

Lemma kinv_alloc_state i p r l0 k :
  kinv k → k_nextpid k < INT_MAX → k_ptable k !! i = Some p → p_state p = UNUSED →
  levels k !! 0%nat = Some l0 → q_rep r (l0 ++ [i]) → kinv (alloc_state i r k).
Proof.
  intros Hk Hn Hp Hst Hl0 Hr. pose proof (inv_nextpid _ Hk) as Hnp.
  assert (i32 (k_nextpid k + 1) = k_nextpid k + 1) as Hi32.
  { apply i32_small. unfold INT_MAX in *. lia. }
  assert (levels (alloc_state i r k) = <[0%nat := l0 ++ [i]]> (levels k)) as Hlv.
  { unfold alloc_state. rewrite (levels_setq _ 0 r : levels (setq 0 r _) = _).
    by rewrite (q_rep_list _ _ Hr). }
  assert (0 < length (levels k))%nat as H0 by (by eapply lookup_lt_Some).
  assert (∀ j q, k_ptable (alloc_state i r k) !! j = Some q →
    (j ≠ i ∧ k_ptable k !! j = Some q) ∨
    (j = i ∧ q = alloc_fields (k_nextpid k) p)) as Hlk.
  { intros j q Hq. cbn in Hq. destruct (decide (j = i)) as [->|Hne].
    - rewrite list_lookup_alter_eq, Hp in Hq. injection Hq as <-. by right.
    - rewrite list_lookup_alter_ne in Hq by done. by left. }
  split; rewrite ?Hlv.
  - cbn. rewrite length_alter. apply Hk.
  - cbn. rewrite length_insert. apply Hk.
  - cbn. eapply Forall_rep_insert; [apply Hk|done].
  - intros j l x Hl Hx. destruct j as [|j].
    + rewrite list_lookup_insert_eq in Hl by done. injection Hl as <-.
      apply elem_of_app in Hx as [Hx|Hx]; [by apply (inv_ptrs _ Hk 0 l0)|].
      apply list_elem_of_singleton in Hx as ->. by eapply table_lt.
    + rewrite list_lookup_insert_ne in Hl by done. by apply (inv_ptrs _ Hk (S j) l).
  - intros j l Hl. rewrite list_lookup_insert_ne in Hl by done. by apply (inv_nodup _ Hk j).
  - cbn. rewrite Hi32. lia.
  - cbn. rewrite Hi32. intros j q [[? Hq]|[-> ->]]%Hlk; [|cbn; lia].
    pose proof (inv_pid _ Hk j q Hq). lia.
  - intros j q [[? Hq]|[-> ->]]%Hlk Hl; [by apply (inv_pid_live _ Hk j)|cbn; lia].
  - intros j1 j2 q1 q2 [[? Hq1]|[-> ->]]%Hlk [[? Hq2]|[-> ->]]%Hlk Heq Hne; try done.
    + by apply (inv_pid_inj _ Hk j1 j2 q1 q2).
    + cbn in Heq. pose proof (inv_pid _ Hk j1 q1 Hq1). lia.
    + cbn in Heq. pose proof (inv_pid _ Hk j2 q2 Hq2). lia.
  - intros j q [[Hne Hq]|[-> ->]]%Hlk Hl.
    + destruct (inv_queued _ Hk j q Hq Hl) as (Hr5 & l & Hlq & Hj). split; [done|].
      destruct (Z.to_nat (p_qno q)) as [|n].
      * exists (l0 ++ [i]). rewrite list_lookup_insert_eq by done. simplify_eq.
        split; [done|set_solver].
      * exists l. by rewrite list_lookup_insert_ne.
    + cbn. split; [lia|]. exists (l0 ++ [i]). rewrite list_lookup_insert_eq by done.
      split; [done|set_solver].
  - intros j q [[? Hq]|[-> ->]]%Hlk; [by apply (inv_arrays _ Hk j)|].
    done.
Qed.

(** [allocproc], case by case. *)
Lemma allocproc_inv k r k' :
  allocproc k = Ok (r, k') →
  (r = None ∧ k' = k ∧ ∀ i p, k_ptable k !! i = Some p → live p) ∨
  ∃ i p q0 rq, k_ptable k !! i = Some p ∧ p_state p = UNUSED ∧
    getq k 0 = Ok q0 ∧ qpush q0 i = Ok rq ∧
    ((r = None ∧ ∃ e, e_kalloc (k_env k) = Ok (None, e) ∧
       k' = updp (λ p, p <| p_kstack := 0 |> <| p_state := UNUSED |>) i
              ((alloc_state i rq k) <| k_env := e |>)) ∨
     (r = Some i ∧ ∃ a e, e_kalloc (k_env k) = Ok (Some a, e) ∧
       k' = updp (alloc_stack a (k_ticks k) (e_tf_junk e)) i
              ((alloc_state i rq k) <| k_env := e |>))).
Proof.
  intros Ha. unfold allocproc in Ha. destruct (first_slot _ _) as [i|] eqn:Hf.
  - right. apply first_slot_Some in Hf as (p & Hp & HP & _).
    apply bool_decide_eq_true_1 in HP.
    apply bind_Ok in Ha as (q0 & Hq0 & Ha). apply bind_Ok in Ha as (rq & Hrq & Ha).
    exists i, p, q0, rq. split_and!; try done.
    change (k_env (setq 0 rq _)) with (k_env k) in Ha.
    apply bind_Ok in Ha as ([[a|] e] & Hka & Ha); injection Ha as <- <-; [right|left]; eauto.
  - left. injection Ha as <- <-. split_and!; try done. intros i p Hp.
    pose proof (first_slot_None _ _ _ _ Hf Hp) as HP.
    by apply bool_decide_eq_false_1 in HP.
Qed.

Lemma kinv_allocproc k r k' :
  kinv k → k_nextpid k < INT_MAX → allocproc k = Ok (r, k') → kinv k'.
Proof.
  intros Hk Hn Ha. destruct (allocproc_inv _ _ _ Ha) as
    [(-> & -> & _)|(i & p & q0 & rq & Hp & Hst & Hq0 & Hrq & Hcase)]; [done|].
  destruct (levels_lt k 0 Hk) as [l0 Hl0]; [lia|].
  destruct (getq_levels k 0 l0 Hk Hl0) as (q0' & Hq0' & Hrep).
  rewrite (Hq0 : getq k (Z.of_nat 0) = Ok q0) in Hq0'. injection Hq0' as <-.
  assert (q_rep rq (l0 ++ [i])) as Hrq'.
  { destruct (decide (length l0 < QSIZE)%nat) as [Hlt|Hge].
    - destruct (qpush_spec q0 l0 i Hrep Hlt) as (r' & Hr' & ? & _). congruence.
    - pose proof (q_rep_length _ _ Hrep).
      rewrite (qpush_overflow q0 l0 i Hrep) in Hrq by lia. done. }
  assert (kinv (alloc_state i rq k)) as Hk1 by (by eapply kinv_alloc_state).
  destruct Hcase as [(-> & e & _ & ->)|(-> & a & e & _ & ->)].
  - apply (kinv_frame (alloc_state i rq k)); [|done].
    match goal with |- kframe _ (updp ?f _ ?k1) => change (kframe k1 (updp f i k1)) end.
    apply kframe_updp. intros q _. unfold pfree, live. cbn. naive_solver.
  - apply (kinv_keep (alloc_state i rq k)); [|done].
    match goal with |- kkeep _ (updp ?f _ ?k1) => change (kkeep k1 (updp f i k1)) end.
    apply kkeep_updp. intros q _. solve_pkeep.
Qed.
End alloc.

Section fork.
Context {E : Type} `{KEnv E} (pol : policy).
Implicit Types (k : kst E) (c i np : nat).

(** The descriptors of the child: the open ones of the parent, and the
    slot's own elsewhere. *)
Fixpoint merge_files (src dst : list (option nat)) : list (option nat) :=
  match src, dst with
  | Some f :: src', _ :: dst' => Some f :: merge_files src' dst'
  | None :: src', d :: dst' => d :: merge_files src' dst'
  | _, _ => dst
  end.

Lemma dup_files_merge src dst (e : E) files e' :
  dup_files src dst e = Ok (files, e') → files = merge_files src dst.
Proof.
  revert dst e files e'. induction src as [|[f|] src IH]; intros [|d dst] e files e' Hd;
    cbn in Hd |- *; try (by injection Hd as <- <-).
  - ok_inv. destruct x0 as [rest e2]. ok_inv. f_equal. by eapply IH.
  - ok_inv. destruct x as [rest e2]. ok_inv. f_equal. by eapply IH.
Qed.

(** The fields of a freshly forked child. *)
Definition is_child_of (pid pg : Z) c (cur : proc) (files : list (option nat)) (p : proc) : Prop :=
  p_state p = RUNNABLE ∧ p_pid p = pid ∧ p_parent p = Some c ∧
  p_pgdir p = pg ∧ p_sz p = p_sz cur ∧
  p_tf p = (p_tf cur) <| tf_eax := 0 |> ∧ p_ofile p = files ∧ p_cwd p = p_cwd cur ∧
  p_qno p = 0 ∧ p_priority p = (if decide (pol = PBS) then Z.quot pid 2 else 60) ∧
  p_rtime p = 0 ∧ p_iotime p = 0 ∧ p_rrtime p = replicate 5 0 ∧
  p_stat p = mkstat pid 0 0 0 (replicate 5 0).

Lemma fork_inv c k r k' :
  fork pol c k = Ok (r, k') →
  (∃ k1, allocproc k = Ok (None, k1) ∧ r = -1 ∧ k' = k1) ∨
  (∃ np k1 e, allocproc k = Ok (Some np, k1) ∧ r = -1 ∧
     k' = updp (λ p, p <| p_pgdir := 0 |> <| p_kstack := 0 |> <| p_state := UNUSED |>) np
            (k1 <| k_env := e |>)) ∨
  (∃ np k1 cur n pg files e1 e2 e3 ip,
     allocproc k = Ok (Some np, k1) ∧ k_ptable k1 !! c = Some cur ∧
     k_ptable k1 !! np = Some n ∧
     e_copyuvm (p_pgdir cur) (p_sz cur) (k_env k1) = Ok (Some pg, e1) ∧
     dup_files (p_ofile cur) (p_ofile n) e1 = Ok (files, e2) ∧
     p_cwd cur = Some ip ∧ e_idup ip e2 = Ok e3 ∧ r = p_pid n ∧
     ∃ f, k' = updp f np (k1 <| k_env := e3 |>) ∧ ∀ p, p_qno (f p) = 0 ∧
       p_pid (f p) = p_pid p ∧ live (f p) ∧
       length (p_rrtime (f p)) = length (p_rrtime p) ∧ p_stat (f p) = p_stat p ∧
       (p_priority p = 60 → p_rtime p = 0 → p_iotime p = 0 → p_rrtime p = replicate 5 0 →
        p_stat p = mkstat (p_pid n) 0 0 0 (replicate 5 0) → p_pid p = p_pid n →
        is_child_of (p_pid n) pg c cur files (f p))).
Proof.
  intros Hf. unfold fork in Hf. apply bind_Ok in Hf as ([onp k1] & Ha & Hf).
  destruct onp as [np|]; [|injection Hf as <- <-; eauto].
  apply bind_Ok in Hf as (cur & Hcur & Hf). apply getp_Ok in Hcur.
  apply bind_Ok in Hf as ([opg e1] & Hcp & Hf).
  apply bind_Ok in Hf as (n & Hn & Hf). apply getp_Ok in Hn.
  destruct opg as [pg|].
  - apply bind_Ok in Hf as ([files e2] & Hd & Hf).
    destruct (p_cwd cur) as [ip|] eqn:Hcwd; [|done].
    apply bind_Ok in Hf as (e3 & Hid & Hf). injection Hf as <- <-.
    right. right. exists np, k1, cur, n, pg, files, e1, e2, e3, ip.
    split_and!; try done. eexists. split; [done|]. intros p. unfold is_child_of, live.
    destruct (decide (pol = PBS)); cbn; split_and!; try done; intros; split_and!; congruence.
  - apply bind_Ok in Hf as (e2 & Hkf & Hf). injection Hf as <- <-.
    right. left. exists np, k1, e2. done.
Qed.

(** The slot [allocproc] returns. *)
Lemma allocproc_Some k np k1 :
  allocproc k = Ok (Some np, k1) →
  ∃ p n, k_ptable k !! np = Some p ∧ p_state p = UNUSED ∧ k_ptable k1 !! np = Some n ∧
    p_state n = EMBRYO ∧ p_pid n = k_nextpid k ∧ p_qno n = 0 ∧ p_priority n = 60 ∧
    p_rtime n = 0 ∧ p_iotime n = 0 ∧ p_rrtime n = replicate 5 0 ∧
    p_stat n = mkstat (k_nextpid k) 0 0 0 (replicate 5 0) ∧ p_ofile n = p_ofile p ∧
    (∀ j, j ≠ np → k_ptable k1 !! j = k_ptable k !! j) ∧
    k_ticks k1 = k_ticks k ∧ k_nextpid k1 = i32 (k_nextpid k + 1) ∧
    k_initproc k1 = k_initproc k ∧ p_parent n = p_parent p.
Proof.
  intros Ha. destruct (allocproc_inv _ _ _ Ha) as
    [(? & _)|(i & p & q0 & rq & Hp & Hst & _ & _ & [(? & _)|([= ->] & a & e & _ & ->)])];
    [done|done|].
  eexists p, _. split; [done|]. split; [done|]. split.
  { rewrite lookup_updp, decide_True by done. cbn. by rewrite list_lookup_alter_eq, Hp. }
  cbn. split_and!; try done. intros j Hj.
  by rewrite !list_lookup_alter_ne by done.
Qed.

Lemma kinv_fork c k r k' :
  kinv k → k_nextpid k < INT_MAX → fork pol c k = Ok (r, k') → kinv k'.
Proof.
  intros Hk Hn Hf. destruct (fork_inv _ _ _ _ Hf) as
    [(k1 & Ha & _ & ->)|[(np & k1 & e & Ha & _ & ->)|
     (np & k1 & cur & n & pg & files & e1 & e2 & e3 & ip & Ha & Hcur & Hnp & Hcp & Hd & _ & _ & _ &
      f & -> & Hff)]].
  - by eapply kinv_allocproc.
  - apply (kinv_frame k1); [|by eapply kinv_allocproc].
    match goal with |- kframe _ (updp ?g _ ?k2) => change (kframe k2 (updp g np k2)) end.
    apply kframe_updp. intros q _. unfold pfree, live. cbn. naive_solver.
  - apply (kinv_keep k1); [|by eapply kinv_allocproc].
    match goal with |- kkeep _ (updp ?g _ ?k2) => change (kkeep k2 (updp g np k2)) end.
    apply kkeep_updp. intros q Hq.
    destruct (allocproc_Some _ _ _ Ha) as (p0 & n' & _ & _ & Hn' & Hst & _ & Hqno & _).
    cbn in Hq. rewrite Hn' in Hq. injection Hq as <-. destruct (Hff n') as (? & ? & Hl & ? & Hs & _).
    unfold pkeep. rewrite Hs. split_and!; try congruence.
    split; [|done]. intros _. unfold live. congruence.
Qed.

(** On success the child is a copy of the caller in a slot that was free, and
    no other slot changes; on failure nothing a live process owns changes. *)
Lemma fork_spec c cur k r k' :
  kinv k → k_nextpid k < INT_MAX → k_ptable k !! c = Some cur → live cur →
  fork pol c k = Ok (r, k') →
  (r = -1 ∧ ∀ i p, k_ptable k' !! i = Some p → live p → k_ptable k !! i = Some p) ∨
  (r = k_nextpid k ∧ ∃ np p0 pg e1 e2 child,
     k_ptable k !! np = Some p0 ∧ p_state p0 = UNUSED ∧
     e_copyuvm (p_pgdir cur) (p_sz cur) e1 = Ok (Some pg, e2) ∧
     k_ptable k' !! np = Some child ∧
     is_child_of (k_nextpid k) pg c cur (merge_files (p_ofile cur) (p_ofile p0)) child ∧
     (∀ j, j ≠ np → k_ptable k' !! j = k_ptable k !! j)).
Proof.
  intros Hk Hn Hc Hlc Hf. destruct (fork_inv _ _ _ _ Hf) as
    [(k1 & Ha & -> & ->)|[(np & k1 & e & Ha & -> & ->)|
     (np & k1 & cur' & n & pg & files & e1 & e2 & e3 & ip & Ha & Hcur & Hnp & Hcp & Hd & _ & _ & -> &
      f & -> & Hff)]].
  - left. split; [done|]. intros i p Hp Hl.
    destruct (allocproc_inv _ _ _ Ha) as
      [(_ & -> & _)|(i' & p' & q0 & rq & Hp' & Hst & _ & _ & [(_ & e & _ & ->)|(? & _)])];
      [done| |done].
    cbn in Hp. destruct (decide (i = i')) as [->|Hne].
    + rewrite !list_lookup_alter_eq, Hp' in Hp. by injection Hp as <-.
    + by rewrite !list_lookup_alter_ne in Hp.
  - left. split; [done|]. intros i p Hp Hl.
    destruct (allocproc_Some _ _ _ Ha) as
      (p0 & n & _ & _ & Hn1 & _ & _ & _ & _ & _ & _ & _ & _ & _ & Hoth & _).
    cbn in Hp. destruct (decide (i = np)) as [->|Hne].
    + rewrite list_lookup_alter_eq, Hn1 in Hp. by injection Hp as <-.
    + rewrite list_lookup_alter_ne in Hp by done. by rewrite <-Hoth.
  - right. destruct (allocproc_Some _ _ _ Ha) as (p0 & n' & Hp0 & Hst0 & Hn1 & Hst & Hpid &
      Hqno & Hpr & Hrt & Hio & Hrr & Hstat & Hof & Hoth & _).
    rewrite Hnp in Hn1. injection Hn1 as <-. split; [done|]. rewrite <-Hpid in *.
    assert (c ≠ np) as Hcn by (intros ->; unfold live in Hlc; congruence).
    assert (cur' = cur) as -> by (rewrite Hoth in Hcur by done; congruence).
    apply dup_files_merge in Hd as ->. rewrite Hof in Hff.
    exists np, p0, pg, (k_env k1), e1, (f n). split_and!; try done.
    + cbn. by rewrite list_lookup_alter_eq, Hnp.
    + by apply Hff.
    + intros j Hj. cbn. by rewrite list_lookup_alter_ne, Hoth.
Qed.
End fork.

Section exit.
Context {E : Type} `{KEnv E}.
Implicit Types (k : kst E) (c i : nat).

(** No process sleeps on [ch]. *)
Definition awake (ch : channel) k : Prop :=
  ∀ i p, k_ptable k !! i = Some p → p_state p = SLEEPING → p_chan p ≠ ch.

(** [p'] is [p] up to a wakeup. *)
Definition woken (p p' : proc) : Prop :=
  p' = p ∨ (p_state p = SLEEPING ∧ p' = p <| p_state := RUNNABLE |>).

Lemma wakeup1_lookup ch k i :
  k_ptable (wakeup1 ch k) !! i = wake_proc ch <$> k_ptable k !! i.
Proof. unfold wakeup1. cbn. by rewrite list_lookup_fmap. Qed.

Lemma wakeup1_awake ch k : awake ch (wakeup1 ch k).
Proof.
  intros i p Hp Hs Hch. rewrite wakeup1_lookup in Hp.
  destruct (k_ptable k !! i) as [q|]; [|done]. injection Hp as <-.
  unfold wake_proc in *. case_decide as Hd; [done|]. tauto.
Qed.

Lemma wake_proc_woken ch p : woken p (wake_proc ch p).
Proof. unfold wake_proc. case_decide; [right; tauto|by left]. Qed.

Lemma wake_proc_parent ch p : p_parent (wake_proc ch p) = p_parent p.
Proof. unfold wake_proc. by case_decide. Qed.

(** A wakeup wakes exactly the sleepers of its channel. *)
Lemma awake_mono ch k k' :
  awake ch k →
  (∀ i p', k_ptable k' !! i = Some p' → ∃ p, k_ptable k !! i = Some p ∧
    p_chan p' = p_chan p ∧ (p_state p' = SLEEPING → p_state p = SLEEPING)) →
  awake ch k'.
Proof.
  intros Ha Hrel i p' Hp' Hs. destruct (Hrel _ _ Hp') as (p & Hp & -> & Hst).
  eapply Ha; [done|auto].
Qed.

Lemma woken_trans p q r : woken p q → woken q r → woken p r.
Proof. intros [->|[? ->]] [->|[? ->]]; unfold woken; auto. Qed.

(** A slot the loop does not visit can only be woken. *)
Lemma reparent_other c slots k i p :
  i ∉ slots → k_ptable k !! i = Some p →
  ∃ p', k_ptable (reparent c slots k) !! i = Some p' ∧ woken p p'.
Proof.
  revert k p. induction slots as [|s slots IH]; intros k p Hi Hp.
  { exists p. split; [done|by left]. }
  apply not_elem_of_cons in Hi as [Hne Hi]. cbn [reparent].
  destruct (k_ptable k !! s) as [ps|]; [|by apply IH].
  case_decide; [|by apply IH]. set (k1 := updp _ s k).
  assert (k_ptable k1 !! i = Some p) as Hp1.
  { unfold k1. by rewrite lookup_updp, decide_False. }
  case_decide; [|by apply IH].
  destruct (IH (wakeup1 (chan_of_proc (k_initproc k)) k1)
    (wake_proc (chan_of_proc (k_initproc k)) p)) as (p' & Hp' & Hw); [done| |].
  { by rewrite wakeup1_lookup, Hp1. }
  exists p'. split; [done|]. eapply woken_trans; [apply wake_proc_woken|done].
Qed.

(** A visited slot changes parent if the exiting process was its parent. *)
Definition adopted c (init : option nat) (p p' : proc) : Prop :=
  ∃ q, woken p q ∧ p' = if decide (p_parent p = Some c) then q <| p_parent := init |> else q.

Lemma woken_adopted c init p p1 p' : adopted c init p p1 → woken p1 p' → adopted c init p p'.
Proof.
  intros (q & Hw & ->) Hw'. case_decide as Hp.
  - destruct Hw' as [->|[Hs ->]].
    + exists q. by rewrite decide_True.
    + exists (q <| p_state := RUNNABLE |>). rewrite decide_True by done.
      split; [|done]. eapply woken_trans; [done|]. by right.
  - exists p'. rewrite decide_False by done. split; [by eapply woken_trans|done].
Qed.

Lemma reparent_lookup c slots k i p :
  NoDup slots → i ∈ slots → k_ptable k !! i = Some p →
  ∃ p', k_ptable (reparent c slots k) !! i = Some p' ∧ adopted c (k_initproc k) p p'.
Proof.
  revert k p. induction slots as [|s slots IH]; intros k p Hnd Hi Hp; [set_solver|].
  apply NoDup_cons in Hnd as [Hs Hnd]. cbn [reparent].
  destruct (decide (i = s)) as [->|Hne].
  - rewrite Hp. case_decide as Hpar.
    + set (k1 := if decide (p_state p = ZOMBIE) then _ else _).
      assert (k_ptable k1 !! s = Some (p <| p_parent := k_initproc k |>)) as Hp1.
      { unfold k1. case_decide as Hz.
        - rewrite wakeup1_lookup, lookup_updp, decide_True, Hp by done. cbn.
          unfold wake_proc. rewrite decide_False; [done|]. cbn. intros [? _]. congruence.
        - by rewrite lookup_updp, decide_True, Hp. }
      destruct (reparent_other c slots k1 s _ Hs Hp1) as (p' & Hp' & Hw).
      exists p'. split; [done|]. eapply woken_adopted; [|done].
      exists p. split; [by left|]. by rewrite decide_True.
    + destruct (reparent_other c slots k s _ Hs Hp) as (p' & Hp' & Hw).
      exists p'. split; [done|]. exists p'. split; [done|]. by rewrite decide_False.
  - assert (i ∈ slots) as Hin by set_solver.
    destruct (k_ptable k !! s) as [ps|] eqn:Hps; [|by apply IH].
    case_decide as Hpar; [|by apply IH].
    set (k1 := updp (λ p0, p0 <| p_parent := k_initproc k |>) s k).
    assert (k_ptable k1 !! i = Some p) as Hp1.
    { unfold k1. by rewrite lookup_updp, decide_False. }
    case_decide as Hz; [|by apply (IH k1)].
    set (ch := chan_of_proc (k_initproc k)).
    destruct (IH (wakeup1 ch k1) (wake_proc ch p)) as (p' & Hp' & (q & Hw & Hq)); [done|done| |].
    { by rewrite wakeup1_lookup, Hp1. }
    exists p'. split; [done|]. exists q. split.
    { eapply woken_trans; [apply wake_proc_woken|done]. }
    by rewrite Hq, wake_proc_parent.
Qed.

(** If a zombie child was passed on, [initproc] has been woken. *)
Lemma reparent_awake_mono ch c slots k :
  awake ch k → awake ch (reparent c slots k).
Proof.
  revert k. induction slots as [|s slots IH]; intros k Ha; [done|]. cbn [reparent].
  destruct (k_ptable k !! s) as [ps|]; [|by apply IH]. case_decide; [|by apply IH].
  apply IH. set (k1 := updp _ s k).
  assert (awake ch k1) as Ha1.
  { eapply awake_mono; [done|]. intros i p' (p & Hp & ->)%lookup_updp_Some.
    exists p. split; [done|]. by case_decide. }
  case_decide; [|done]. eapply awake_mono; [done|]. intros i p'. rewrite wakeup1_lookup.
  intros (p & Hp & ->)%fmap_Some. exists p. split; [done|].
  unfold wake_proc. by case_decide.
Qed.

Lemma reparent_awake c slots k i p :
  i ∈ slots → k_ptable k !! i = Some p → p_parent p = Some c → p_state p = ZOMBIE →
  k_initproc k ≠ Some c → awake (chan_of_proc (k_initproc k)) (reparent c slots k).
Proof.
  revert k p. induction slots as [|s slots IH]; intros k p Hi Hp Hpar Hz Hinit; [set_solver|].
  cbn [reparent]. destruct (decide (i = s)) as [->|Hne].
  - rewrite Hp, decide_True by done. rewrite decide_True by done.
    apply reparent_awake_mono, wakeup1_awake.
  - assert (i ∈ slots) as Hin by set_solver.
    destruct (k_ptable k !! s) as [ps|] eqn:Hps; [|by eapply IH].
    case_decide; [|by eapply IH].
    assert (k_ptable (updp (λ p0, p0 <| p_parent := k_initproc k |>) s k) !! i = Some p) as Hp1.
    { by rewrite lookup_updp, decide_False. }
    case_decide; [|by eapply (IH (updp _ s k))].
    apply reparent_awake_mono, wakeup1_awake.
Qed.

Lemma reparent_frame c slots k :
  k_ticks (reparent c slots k) = k_ticks k ∧ k_initproc (reparent c slots k) = k_initproc k.
Proof.
  revert k. induction slots as [|s slots IH]; intros k; [done|]. cbn [reparent].
  destruct (k_ptable k !! s); [|done]. case_decide; [|done].
  destruct (IH (if decide (p_state p = ZOMBIE) then wakeup1 (chan_of_proc (k_initproc k))
    (updp (λ p0, p0 <| p_parent := k_initproc k |>) s k)
    else updp (λ p0, p0 <| p_parent := k_initproc k |>) s k)) as [-> ->]. by case_decide.
Qed.

(** [exit]: the caller becomes a zombie without open files; its parent is
    awake; its children belong to [initproc], which is awake if one of them
    is a zombie; no other field of another process changes. *)
Record exited c (cur : proc) k k' : Prop := {
  ex_not_init : k_initproc k ≠ Some c;
  ex_init : k_initproc k' = k_initproc k;
  ex_zombie : ∃ z, k_ptable k' !! c = Some z ∧ p_state z = ZOMBIE ∧ p_pid z = p_pid cur ∧
    p_parent z = (if decide (p_parent cur = Some c) then k_initproc k else p_parent cur) ∧
    p_etime z = i32 (k_ticks k) ∧ p_ofile z = replicate NOFILE None ∧ p_cwd z = None;
  ex_others : ∀ i p, i ≠ c → k_ptable k !! i = Some p →
    ∃ p', k_ptable k' !! i = Some p' ∧ adopted c (k_initproc k) p p';
  ex_parent : ∀ i p, i ≠ c → k_ptable k' !! i = Some p → p_state p = SLEEPING →
    p_chan p ≠ chan_of_proc (p_parent cur);
  ex_orphans : ∀ i p, i ≠ c → k_ptable k !! i = Some p → p_parent p = Some c →
    p_state p = ZOMBIE → ∀ j q, j ≠ c → k_ptable k' !! j = Some q → p_state q = SLEEPING →
    p_chan q ≠ chan_of_proc (k_initproc k)
}.

(** The state [exit] builds, over any list of slots that covers the table. *)
Definition exit_state c (cur : proc) slots (e : E) k : kst E :=
  let k1 := updp (λ p, p <| p_ofile := replicate NOFILE None |> <| p_cwd := None |>) c
              (k <| k_env := e |>) in
  let k3 := reparent c slots (wakeup1 (chan_of_proc (p_parent cur)) k1) in
  updp (λ p, p <| p_state := ZOMBIE |> <| p_etime := i32 (k_ticks k3) |>) c k3.

Lemma exit_inv c k k' :
  exit c k = Ok k' →
  k_initproc k ≠ Some c ∧ ∃ cur e, k_ptable k !! c = Some cur ∧
    k' = exit_state c cur (seq 0 NPROC) e k.
Proof.
  unfold exit, exit_state. generalize (seq 0 NPROC). intros slots Hex.
  case_decide as Hinit; [done|]. apply bind_Ok in Hex as (cur & Hcur%getp_Ok & Hex).
  apply bind_Ok in Hex as (e1 & _ & Hex). destruct (p_cwd cur) as [ip|]; [|done].
  apply bind_Ok in Hex as (e2 & _ & Hex). injection Hex as <-.
  split; [done|]. by exists cur, e2.
Qed.

Section exit_state.
Context (c : nat) (cur : proc) (slots : list nat) (e : E) (k : kst E).
Context (Hc : k_ptable k !! c = Some cur) (Hnd : NoDup slots).
Context (Hslots : ∀ i p, k_ptable k !! i = Some p → i ∈ slots).
Let k1 : kst E := updp (λ p, p <| p_ofile := replicate NOFILE None |> <| p_cwd := None |>) c
            (k <| k_env := e |>).
Let k2 : kst E := wakeup1 (chan_of_proc (p_parent cur)) k1.
Let k3 : kst E := reparent c slots k2.

Lemma exit_state_before i p :
  i ≠ c → k_ptable k !! i = Some p →
  k_ptable k2 !! i = Some (wake_proc (chan_of_proc (p_parent cur)) p).
Proof.
  intros Hi Hp. unfold k2, k1. rewrite wakeup1_lookup, lookup_updp, decide_False by done.
  cbn. by rewrite Hp.
Qed.

Lemma exit_state_other i : i ≠ c → k_ptable (exit_state c cur slots e k) !! i = k_ptable k3 !! i.
Proof. intros Hi. unfold exit_state. by rewrite lookup_updp, decide_False. Qed.

Lemma exit_state_self :
  ∃ z, k_ptable (exit_state c cur slots e k) !! c = Some z ∧ p_state z = ZOMBIE ∧
    p_pid z = p_pid cur ∧
    p_parent z = (if decide (p_parent cur = Some c) then k_initproc k else p_parent cur) ∧
    p_etime z = i32 (k_ticks k) ∧ p_ofile z = replicate NOFILE None ∧ p_cwd z = None.
Proof.
  assert (∃ p2, k_ptable k2 !! c = Some p2 ∧ p_pid p2 = p_pid cur ∧ p_parent p2 = p_parent cur ∧
    p_ofile p2 = replicate NOFILE None ∧ p_cwd p2 = None) as (p2 & Hp2 & Hpid & Hpar & Hof & Hcw).
  { unfold k2, k1. rewrite wakeup1_lookup, lookup_updp, decide_True by done. cbn.
    rewrite Hc. cbn. eexists. split; [done|]. unfold wake_proc. by case_decide. }
  destruct (reparent_lookup c slots k2 c p2 Hnd) as (p3 & Hp3 & (q & Hw & Hq));
    [by eapply Hslots|done|].
  unfold exit_state. fold k1 k2 k3. rewrite lookup_updp, decide_True by done.
  change (reparent c slots k2) with k3 in Hp3. rewrite Hp3. eexists. split; [done|].
  rewrite Hpar in Hq. rewrite Hq. unfold k3. destruct (reparent_frame c slots k2) as [-> _].
  destruct (decide (p_parent cur = Some c)), Hw as [->|[_ ->]]; cbn; rewrite ?Hpar; done.
Qed.

Lemma exit_state_exited : k_initproc k ≠ Some c → exited c cur k (exit_state c cur slots e k).
Proof.
  intros Hinit. split; [done| |apply exit_state_self|..].
  - exact (proj2 (reparent_frame c slots k2)).
  - intros i p Hi Hp. rewrite exit_state_other by done.
    destruct (reparent_lookup c slots k2 i _ Hnd (Hslots _ _ Hp) (exit_state_before i p Hi Hp))
      as (p' & Hp' & (q & Hw & Hq)).
    exists p'. split; [done|]. exists q. split.
    { eapply woken_trans; [apply wake_proc_woken|done]. }
    by rewrite Hq, wake_proc_parent.
  - intros i p Hi Hp Hs. rewrite exit_state_other in Hp by done.
    eapply (reparent_awake_mono _ c slots k2); [|done|done]. apply wakeup1_awake.
  - intros i p Hi Hp Hpar Hz j q Hj Hq Hs. rewrite exit_state_other in Hq by done.
    eapply (reparent_awake c slots k2 i);
      [by eapply Hslots|by apply exit_state_before| | |done|done|done].
    + by rewrite wake_proc_parent.
    + unfold wake_proc. rewrite decide_False; [done|]. intros [? _]. congruence.
Qed.
End exit_state.

Lemma exit_spec c cur k k' :
  kinv k → k_ptable k !! c = Some cur → exit c k = Ok k' → exited c cur k k'.
Proof.
  intros Hk Hc (Hinit & cur' & e & Hc' & ->)%exit_inv.
  rewrite Hc in Hc'. injection Hc' as <-.
  apply exit_state_exited; [done|apply NoDup_seq| |done].
  intros i p Hp. apply elem_of_seq. pose proof (table_lt _ _ _ Hk Hp). lia.
Qed.
End exit.
