(* ===== verification/System.v ===== *)
(** * The system: steps of the process layer, reachable states, invariants

    A step is one piece of kernel code that runs with [ptable.lock] held (or
    with interrupts off on one CPU): a system call up to the point where it
    returns or enters [sched], an interrupt, or a decision of the scheduler.
    Two invariants hold of every reachable state: [kinv] (pids, queues), and,
    unless the kernel is built with PBS, [cpu_inv] (a process runs on one CPU
    at a time). *)

From S2P Require Import Prelude.
From S2P Require Import RunQueue.
From S2P Require Import ProcTable.
From S2P Require Import Proc.
From S2P Require Import Mlfq.
From S2P Require Import Sched.
From S2P Require Import Trap.
From S2P Require Import ProcInv.
From S2P Require Import MlfqSpec.
From S2P Require Import SchedSpec.
From S2P Require Import ProcSpec.

Local Open Scope Z_scope.

Section steps.
Context {E : Type} `{KEnv E} (pol : policy).
Implicit Types (k : kst E) (c i cpu : nat).

Definition running k i : Prop :=
  ∃ p, k_ptable k !! i = Some p ∧ p_state p = RUNNING.

(** CPU [cpu] executes process [c]: [myproc()] in the code of a running process. *)
Definition on_cpu k cpu c : Prop := myproc k cpu = Some c ∧ running k c.

(** The process the scheduler of the build may choose in state [k], and the
    state in which it dispatches it. *)
Definition may_choose k i k1 : Prop :=
  match pol with
  | DEFAULT | PBS => slot_is is_runnable k i = true ∧ k1 = k
  | FCFS => fcfs_pick (k_ptable k) = Some i ∧ k1 = k
  | MLFQ => ∃ j n r, picks k j n i ∧ getq k (Z.of_nat j) = Ok r ∧
      k1 = setq (Z.of_nat j) (r <| q_beg := Z.of_nat n |>) k
  end.
Definition run_note : proc → proc := if decide (pol = MLFQ) then count_run else id.

(** The scheduler side of [sched]: [c->proc = 0], which the [break] of the
    PBS loop skips. *)
Definition back_in_scheduler cpu k k' : Prop :=
  k' = set_cpu cpu None k ∨ (pol = PBS ∧ k' = k).

Inductive kstep k : kst E → Prop :=
| step_fork cpu c r k' :
    on_cpu k cpu c → k_nextpid k < INT_MAX →
    fork pol c k = Ok (r, k') → kstep k k'
| step_growproc cpu c n r k' :
    on_cpu k cpu c → growproc c n k = Ok (r, k') → kstep k k'
| step_wait cpu c r k' :
    on_cpu k cpu c → wait_scan c k = Ok (r, k') → r ≠ WSleep → kstep k k'
| step_wait_sleep cpu c k1 k' :
    on_cpu k cpu c → wait_scan c k = Ok (WSleep, k1) →
    back_in_scheduler cpu k1 k' → kstep k k'
| step_exit cpu c k1 k' :
    on_cpu k cpu c → exit c k = Ok k1 → back_in_scheduler cpu k1 k' → kstep k k'
| step_sleep cpu c ch k' :
    on_cpu k cpu c → (∀ i, ch ≠ ChProc i) → back_in_scheduler cpu (sleep_enter c ch k) k' → kstep k k'
| step_sleep_exit cpu c :
    on_cpu k cpu c → kstep k (sleep_exit c k)
| step_yield cpu c k' :
    on_cpu k cpu c → back_in_scheduler cpu (yield_enter c k) k' → kstep k k'
| step_wakeup ch : kstep k (wakeup ch k)
| step_kill pid : kstep k (kill pid k).2
| step_set_priority pid prio : kstep k (set_priority pid prio k).2
| step_tick k' : timer_tick pol (myproc k 0) k = Ok k' → kstep k k'
| step_mlfq cpu c k' :
    pol = MLFQ → on_cpu k cpu c → mlfq_timer c k = Ok (false, k') → kstep k k'
| step_mlfq_yield cpu c k1 k' :
    pol = MLFQ → on_cpu k cpu c → mlfq_timer c k = Ok (true, k1) →
    back_in_scheduler cpu (yield_enter c k1) k' → kstep k k'
| step_choose cpu i k1 k' :
    is_Some (k_cpu k !! cpu) → (pol ≠ PBS → myproc k cpu = None) →
    may_choose k i k1 → dispatch (λ _, Ok) cpu run_note i k1 = Ok k' → kstep k k'.

(** States of a machine with [ncpu] CPUs after [userinit]. *)
Definition reachable (ncpu : nat) (e : E) k : Prop :=
  ∃ k0, userinit (kst_init ncpu e) = Ok k0 ∧ rtc kstep k0 k.

(** ** One process per CPU *)

Record cpu_inv k : Prop := {
  cpu_running : ∀ cpu i, k_cpu k !! cpu = Some (Some i) → running k i;
  running_cpu : ∀ i, running k i → ∃ cpu, k_cpu k !! cpu = Some (Some i);
  cpu_inj : ∀ cpu1 cpu2 i,
    k_cpu k !! cpu1 = Some (Some i) → k_cpu k !! cpu2 = Some (Some i) → cpu1 = cpu2
}.

(** Same CPUs, same running processes. *)
Definition rkeep k k' : Prop :=
  k_cpu k' = k_cpu k ∧ ∀ i, running k' i ↔ running k i.

#[export] Instance rkeep_refl : Reflexive rkeep.
Proof. done. Qed.
#[export] Instance rkeep_trans : Transitive rkeep.
Proof. intros k1 k2 k3 [? H1] [? H2]. split; [congruence|]. intros i. by rewrite H2, H1. Qed.

Lemma cpu_inv_rkeep k k' : rkeep k k' → cpu_inv k → cpu_inv k'.
Proof.
  intros [Hc Hr] [H1 H2 H3]. split; rewrite Hc.
  - intros cpu i Hi. apply Hr. eauto.
  - intros i Hi%Hr. eauto.
  - done.
Qed.

Lemma rkeep_updp f i k :
  (∀ p, k_ptable k !! i = Some p → p_state (f p) = RUNNING ↔ p_state p = RUNNING) →
  rkeep k (updp f i k).
Proof.
  intros Hf. split; [done|]. intros j. unfold running. rewrite lookup_updp.
  case_decide as Hij; [subst|done]. destruct (k_ptable k !! j) as [p|]; cbn; [|naive_solver].
  specialize (Hf p eq_refl). naive_solver.
Qed.

Lemma rkeep_same k k' : k_cpu k' = k_cpu k → k_ptable k' = k_ptable k → rkeep k k'.
Proof. intros Hc Ht. split; [done|]. intros i. unfold running. by rewrite Ht. Qed.

(** Same CPUs, and in every slot the same state, parent and channel. *)
Definition same_slot (p p' : proc) : Prop :=
  p_state p' = p_state p ∧ p_parent p' = p_parent p ∧ p_chan p' = p_chan p.
Definition skeep k k' : Prop :=
  k_cpu k' = k_cpu k ∧ k_initproc k' = k_initproc k ∧
  Forall2 same_slot (k_ptable k) (k_ptable k').

#[export] Instance same_slot_trans : Transitive same_slot.
Proof. intros p q r (?&?&?) (?&?&?). split_and!; congruence. Qed.

#[export] Instance skeep_refl : Reflexive skeep.
Proof. intros k. split_and!; try done. apply Forall2_same_length_lookup. unfold same_slot. naive_solver. Qed.
#[export] Instance skeep_trans : Transitive skeep.
Proof.
  intros k1 k2 k3 (Hc1 & Hi1 & HF1) (Hc2 & Hi2 & HF2). split_and!; [congruence..|].
  by etrans.
Qed.

Lemma skeep_updp f i k :
  (∀ p, k_ptable k !! i = Some p → same_slot p (f p)) → skeep k (updp f i k).
Proof.
  intros Hf. split_and!; [done..|]. apply Forall2_same_length_lookup.
  split; [by rewrite length_updp|]. intros j p p' Hp (p0 & Hp0 & ->)%lookup_updp_Some.
  rewrite Hp in Hp0. injection Hp0 as <-. case_decide; [subst; auto|done].
Qed.

Lemma skeep_same k k' :
  k_cpu k' = k_cpu k → k_initproc k' = k_initproc k → k_ptable k' = k_ptable k → skeep k k'.
Proof.
  intros Hc Hi Ht. split_and!; [done..|]. rewrite Ht. apply Forall2_same_length_lookup.
  unfold same_slot. naive_solver.
Qed.

Lemma skeep_rkeep k k' : skeep k k' → rkeep k k'.
Proof.
  intros (Hc & _ & HF). split; [done|]. intros i. unfold running. split.
  - intros (p' & Hp' & Hr). destruct (Forall2_lookup_r _ _ _ _ _ HF Hp') as (p & Hp & Hs & _).
    exists p. split; [done|congruence].
  - intros (p & Hp & Hr). destruct (Forall2_lookup_l _ _ _ _ _ HF Hp) as (p' & Hp' & Hs & _).
    exists p'. split; [done|congruence].
Qed.

(** A running process leaves its CPU. *)
Lemma cpu_inv_leave k k' cpu c :
  cpu_inv k → on_cpu k cpu c → k_cpu k' = k_cpu k →
  (∀ i, running k' i ↔ running k i ∧ i ≠ c) → cpu_inv (set_cpu cpu None k').
Proof.
  intros [H1 H2 H3] [Hc _] Hcpu Hr.
  assert (k_cpu k !! cpu = Some (Some c)) as Hcc.
  { unfold myproc in Hc. destruct (k_cpu k !! cpu) as [[?|]|]; cbn in Hc; congruence. }
  split; unfold set_cpu; cbn; rewrite ?Hcpu.
  - intros cpu1 i [[-> [? _]]|[Hne Hi]]%list_lookup_insert_Some; [done|].
    apply (Hr i). split; [eauto|]. intros ->. naive_solver.
  - intros i Hi. apply (Hr i) in Hi as [Hi Hne]. destruct (H2 i Hi) as [cpu1 Hc1]. exists cpu1.
    rewrite list_lookup_insert_ne; [done|]. intros ->. congruence.
  - intros cpu1 cpu2 i [[-> [? _]]|[_ Hi1]]%list_lookup_insert_Some
      [[-> [? _]]|[_ Hi2]]%list_lookup_insert_Some; naive_solver.
Qed.

(** A waiting process is put on an idle CPU. *)
Lemma cpu_inv_enter k k' cpu i :
  cpu_inv k → is_Some (k_cpu k !! cpu) → myproc k cpu = None → ¬ running k i →
  k_cpu k' = <[cpu := Some i]> (k_cpu k) →
  (∀ j, running k' j ↔ running k j ∨ j = i) → cpu_inv k'.
Proof.
  intros [H1 H2 H3] [o Ho] Hidle Hni Hcpu Hr.
  assert (k_cpu k !! cpu = Some None) as Hcc.
  { unfold myproc in Hidle. rewrite Ho in Hidle. cbn in Hidle. congruence. }
  assert (cpu < length (k_cpu k))%nat by (by eapply lookup_lt_Some).
  split; rewrite Hcpu.
  - intros cpu1 j [[-> [[= ->] ?]]|[_ Hj]]%list_lookup_insert_Some; apply Hr; eauto.
  - intros j [Hj| ->]%Hr.
    + destruct (H2 j Hj) as [cpu1 Hc1]. exists cpu1.
      rewrite list_lookup_insert_ne; [done|]. intros ->. congruence.
    + exists cpu. by rewrite list_lookup_insert_eq.
  - intros cpu1 cpu2 j [[-> [[= ->] ?]]|[_ Hj1]]%list_lookup_insert_Some
      [[-> [? ?]]|[_ Hj2]]%list_lookup_insert_Some; try done.
    + destruct Hni. eauto.
    + simplify_eq. destruct Hni. eauto.
    + eauto.
Qed.

(** ** What leaves states, parents and channels alone *)

Lemma skeep_setq j r k : skeep k (setq j r k).
Proof. by apply skeep_same. Qed.

Lemma skeep_level f (a b : Z) r r' c k :
  (∀ p, same_slot p (f p)) → skeep k (setq b r' (setq a r (updp f c k))).
Proof.
  intros Hf. etrans; [apply (skeep_updp f c); intros; apply Hf|].
  etrans; apply skeep_setq.
Qed.

Lemma skeep_demote_to f a r pid to c k k' :
  (∀ p, same_slot p (f p)) →
  demote_to pid to c (setq a r (updp f c k)) = Ok k' → skeep k k'.
Proof. intros Hf Hd. unfold demote_to in Hd. ok_inv. by apply skeep_level. Qed.

Lemma skeep_mlfq_timer c k y k' : mlfq_timer c k = Ok (y, k') → skeep k k'.
Proof.
  unfold mlfq_timer. intros Hm. apply bind_Ok in Hm as (p & _ & Hm).
  case_decide; [by injection Hm as _ <-|]. apply bind_Ok in Hm as (t & _ & Hm).
  case_decide; [by injection Hm as _ <-|].
  repeat match type of Hm with (if ?b then _ else _) = _ => destruct b end;
    apply bind_Ok in Hm as (k1 & Hm & Heq); injection Heq as _ <-; try done.
  5: { unfold rotate4 in Hm. ok_inv. etrans; [|apply skeep_setq].
       by apply skeep_updp. }
  all: unfold demote0, demote in Hm; ok_inv;
    match goal with H : demote_to _ _ _ _ = _ |- _ => by eapply skeep_demote_to in H end.
Qed.

Lemma skeep_age_slots slots k k' : age_slots slots k = Ok k' → skeep k k'.
Proof.
  revert k. induction slots as [|i slots IH]; intros k Ha; [by injection Ha as <-|].
  apply bind_Ok in Ha as (k1 & Ha1 & Ha). etrans; [|by apply IH].
  unfold age_proc in Ha1. apply bind_Ok in Ha1 as (p & _ & Ha1).
  case_decide; [|by injection Ha1 as <-]. apply bind_Ok in Ha1 as (k2 & Ha2 & Ha1).
  injection Ha1 as <-. etrans; [|by apply skeep_updp].
  unfold age_level in Ha2.
  repeat match type of Ha2 with (if ?b then _ else _) = _ => destruct b end;
    [..|by injection Ha2 as <-]; unfold age_move in Ha2; ok_inv; by apply skeep_level.
Qed.

Lemma rkeep_wakeup1 ch k : rkeep k (wakeup1 ch k).
Proof.
  split; [done|]. intros i. unfold running. rewrite wakeup1_lookup.
  destruct (k_ptable k !! i) as [p|]; cbn; [|naive_solver].
  assert (p_state (wake_proc ch p) = RUNNING ↔ p_state p = RUNNING) as Hw.
  { unfold wake_proc. case_decide as Hd; [|done]. cbn. destruct Hd; split; congruence. }
  naive_solver.
Qed.

Lemma charge_tick_state p p' :
  charge_tick p = Ok p' → same_slot p p'.
Proof. unfold charge_tick. destruct (p_state p) eqn:Hs; intros Hc; ok_inv; done. Qed.

(** The tick wakes the sleepers of [&ticks]; the rest changes no state. *)
Lemma timer_tick_skeep cur k k' :
  timer_tick pol cur k = Ok k' →
  skeep (wakeup ChTicks (k <| k_ticks := u32 (k_ticks k + 1) |>)) k'.
Proof.
  unfold timer_tick. intros Ht. apply bind_Ok in Ht as (k2 & Hk2 & Ht).
  set (k1 := wakeup ChTicks _) in *.
  assert (skeep k1 k2) as Hr2.
  { case_decide; [|by injection Hk2 as <-]. etrans; [|by eapply skeep_age_slots].
    unfold graph. case_decide; [done|by apply skeep_same]. }
  etrans; [exact Hr2|]. destruct cur as [c|]; [|by injection Ht as <-].
  apply bind_Ok in Ht as (p & Hp%getp_Ok & Ht). apply bind_Ok in Ht as (p' & Hp' & Ht).
  injection Ht as <-. apply skeep_updp. intros q Hq. rewrite Hp in Hq. injection Hq as <-.
  by apply charge_tick_state.
Qed.

Lemma rkeep_timer_tick cur k k' : timer_tick pol cur k = Ok k' → rkeep k k'.
Proof.
  intros Ht%timer_tick_skeep%skeep_rkeep. etrans; [|exact Ht].
  etrans; [|apply rkeep_wakeup1]. by apply rkeep_same.
Qed.

Lemma rkeep_reparent c slots k : rkeep k (reparent c slots k).
Proof.
  revert k. induction slots as [|i slots IH]; intros k; cbn; [done|].
  destruct (k_ptable k !! i) as [p|]; [|done]. case_decide; [|done].
  etrans; [|apply IH]. etrans; [by apply (rkeep_updp (λ p, p <| p_parent := k_initproc k |>) i)|].
  case_decide; [apply rkeep_wakeup1|done].
Qed.

(** ** Every step keeps [kinv] *)

Lemma running_live k c : running k c → ∃ p, k_ptable k !! c = Some p ∧ live p.
Proof. intros (p & Hp & Hr). exists p. split; [done|]. unfold live. congruence. Qed.

Lemma kinv_set_cpu cpu o k : kinv k → kinv (set_cpu cpu o k).
Proof. apply kinv_keep. by apply kkeep_same. Qed.

Lemma kinv_back cpu k k' : back_in_scheduler cpu k k' → kinv k → kinv k'.
Proof. intros [->|[_ ->]] Hk; [by apply kinv_set_cpu|done]. Qed.

Lemma kinv_timer_tick cur k k' : timer_tick pol cur k = Ok k' → kinv k → kinv k'.
Proof.
  intros Ht Hk. unfold timer_tick in Ht. apply bind_Ok in Ht as (k2 & Hk2 & Ht).
  set (k1 := wakeup ChTicks _) in Hk2.
  assert (kinv k1) as Hk1.
  { eapply kinv_keep; [|exact Hk]. etrans; [|apply wakeup1_keep]. by apply kkeep_same. }
  assert (kinv k2) as Hi2.
  { case_decide; [|by injection Hk2 as <-]. eapply kinv_age_slots; [|exact Hk2].
    eapply kinv_keep; [apply graph_keep|done]. }
  destruct cur as [c|]; [|by injection Ht as <-].
  apply bind_Ok in Ht as (p & Hp%getp_Ok & Ht). apply bind_Ok in Ht as (p' & Hp' & Ht).
  injection Ht as <-. apply (kinv_keep k2); [|done]. apply kkeep_updp.
  intros q Hq. simplify_eq. by apply charge_tick_keep.
Qed.

Lemma kinv_mlfq_timer c k y k' : mlfq_timer c k = Ok (y, k') → kinv k → kinv k'.
Proof.
  intros Hm Hk. pose proof Hm as Hm'. unfold mlfq_timer in Hm.
  apply bind_Ok in Hm as (p & Hp%getp_Ok & Hm). case_decide as Hrun; [by injection Hm as _ <-|].
  destruct (inv_queued _ Hk c p Hp) as (Hq & _); [unfold live; congruence|].
  destruct (inv_arrays _ Hk c p Hp) as [Hlen _].
  destruct (lookup_lt_is_Some_2 (p_rrtime p) (Z.to_nat (p_qno p))) as [t Ht]; [lia|].
  destruct (lookup_lt_is_Some_2 clkpr (Z.to_nat (p_qno p))) as [s Hs]; [cbn; lia|].
  destruct (mlfq_timer_spec c p k (Z.to_nat (p_qno p)) t s) as (y' & k1 & Heq & Hk1 & _); try done; [lia|].
  rewrite Heq in Hm'. by injection Hm' as _ <-.
Qed.

Lemma run_note_keep p : pkeep p (run_note p).
Proof. unfold run_note. case_decide; unfold count_run, id; [solve_pkeep|done]. Qed.

Lemma kinv_setq_beg (j : nat) r b k :
  getq k (Z.of_nat j) = Ok r → kinv k → kinv (setq (Z.of_nat j) (r <| q_beg := b |>) k).
Proof.
  intros Hr%aget_Ok Hk. rewrite Nat2Z.id in Hr. destruct Hr as [_ Hr].
  set (k' := setq _ _ k).
  assert (levels k' = levels k) as Hlv.
  { unfold k'. rewrite levels_setq. apply list_insert_id.
    unfold levels. by rewrite list_lookup_fmap, Hr. }
  split; rewrite ?Hlv; try apply Hk.
  - cbn. rewrite length_insert. apply Hk.
  - cbn. rewrite Nat2Z.id. apply Forall_insert; [apply Hk|].
    pose proof (Forall_lookup_1 _ _ _ _ (inv_rep _ Hk) Hr) as [? ? ?]. by split.
Qed.

Lemma may_choose_kinv k i k1 : may_choose k i k1 → kinv k → kinv k1 ∧ k_ptable k1 = k_ptable k.
Proof.
  unfold may_choose. intros Hm Hk. destruct pol.
  1-3: destruct Hm as [_ ->]; done.
  destruct Hm as (j & n & r & _ & Hr & ->). split; [by apply kinv_setq_beg|done].
Qed.

Lemma may_choose_runnable k i k1 :
  may_choose k i k1 → ∃ p, k_ptable k !! i = Some p ∧ p_state p = RUNNABLE.
Proof.
  unfold may_choose. destruct pol; intros Hm.
  1,3: destruct Hm as [Hs _]; unfold slot_is in Hs; destruct (k_ptable k !! i) as [p|] eqn:Hp;
       [|done]; apply is_runnable_true in Hs; eauto.
  - destruct Hm as [Hf _]. pose proof (fcfs_pick_spec (k_ptable k)) as Hs. rewrite Hf in Hs.
    destruct Hs as (p & ? & ? & _). eauto.
  - destruct Hm as (j & n & r & (l & _ & _ & Hr & _) & _). by apply runnable_at_true in Hr.
Qed.

Lemma kinv_step k k' : kstep k k' → kinv k → kinv k'.
Proof.
  intros Hs Hk. destruct Hs as
    [cpu c r k' [_ (p & Hp & Hl)%running_live] Hn Hf
    |cpu c n r k' _ Hg|cpu c r k' [_ (p & Hp & Hl)%running_live] Hw _
    |cpu c k1 k' [_ (p & Hp & Hl)%running_live] Hw Hb
    |cpu c k1 k' [_ (p & Hp & Hl)%running_live] Hx Hb
    |cpu c ch k' [_ (p & Hp & Hl)%running_live] _ Hb|cpu c _
    |cpu c k' [_ (p & Hp & Hl)%running_live] Hb|ch|pid|pid prio|k' Ht
    |cpu c k' _ _ Hm|cpu c k1 k' _ [_ (p & Hp & Hr)] Hm Hb
    |cpu i k1 k' _ _ Hc Hd].
  - by eapply kinv_fork.
  - eapply kinv_keep; [by eapply growproc_keep|done].
  - eapply kinv_frame; [by eapply wait_scan_frame|done].
  - eapply kinv_back, kinv_frame; [done|by eapply wait_scan_frame|done].
  - eapply kinv_back, kinv_keep; [done|by eapply exit_keep|done].
  - eapply kinv_back, kinv_keep; [done|by eapply sleep_enter_keep|done].
  - eapply kinv_keep; [apply sleep_exit_keep|done].
  - eapply kinv_back, kinv_keep; [done|by eapply yield_enter_keep|done].
  - eapply kinv_keep; [apply wakeup1_keep|done].
  - eapply kinv_keep; [apply kill_keep|done].
  - eapply kinv_keep; [apply set_priority_keep|done].
  - by eapply kinv_timer_tick.
  - by eapply kinv_mlfq_timer.
  - assert (kinv k1) as Hk1 by (by eapply kinv_mlfq_timer).
    destruct (skeep_rkeep _ _ (skeep_mlfq_timer _ _ _ _ Hm)) as [_ Hrk].
    destruct (running_live k1 c) as (p1 & Hp1 & Hl1); [apply Hrk; by exists p|].
    eapply kinv_back, kinv_keep; [done|by eapply yield_enter_keep|done].
  - destruct (may_choose_kinv _ _ _ Hc Hk) as [Hk1 Ht1].
    destruct (may_choose_runnable _ _ _ Hc) as (p & Hp & Hr).
    unfold dispatch in Hd. apply bind_Ok in Hd as (p' & Hp'%getp_Ok & Hd).
    apply bind_Ok in Hd as (_ & _ & Hd). injection Hd as <-.
    eapply kinv_keep; [apply kkeep_updp|by apply (kinv_set_cpu cpu (Some i) k1)].
    intros q Hq. cbn in Hq. rewrite Ht1, Hp in Hq. injection Hq as <-.
    etrans; [apply run_note_keep|].
    assert (p_state (run_note p) = RUNNABLE) as Hrn
      by (rewrite <-Hr; unfold run_note; by case_decide).
    solve_pkeep.
Qed.

(** ** ... and, without PBS, [cpu_inv] *)

Lemma rkeep_fresh f i p k :
  k_ptable k !! i = Some p → p_state p ≠ RUNNING → p_state (f p) ≠ RUNNING →
  rkeep k (updp f i k).
Proof. intros Hp Hn Hf. apply rkeep_updp. intros q Hq. simplify_eq. done. Qed.

Lemma rkeep_allocproc k r k' : allocproc k = Ok (r, k') → rkeep k k'.
Proof.
  intros Ha. destruct (allocproc_inv _ _ _ Ha) as
    [(_ & -> & _)|(i & p & q0 & rq & Hp & Hst & _ & _ & Hc)]; [done|].
  assert (rkeep k (alloc_state i rq k)) as Hr1.
  { unfold alloc_state. etrans; [|apply skeep_rkeep, skeep_setq].
    match goal with |- rkeep _ (updp ?f _ ?k1) => transitivity k1 end; [by apply rkeep_same|].
    eapply rkeep_fresh; [exact Hp|congruence|done]. }
  assert (∃ q, k_ptable (alloc_state i rq k) !! i = Some q ∧ p_state q = EMBRYO) as (q & Hq & Hqs).
  { cbn. rewrite list_lookup_alter_eq, Hp. cbn. eauto. }
  destruct Hc as [(_ & e & _ & ->)|(_ & a & e & _ & ->)].
  all: etrans; [exact Hr1|].
  all: match goal with |- rkeep _ (updp ?f _ ?k1) => change (rkeep k1 (updp f i k1)) end.
  all: eapply rkeep_fresh; [exact Hq|congruence|cbn; congruence].
Qed.

Lemma rkeep_fork c k r k' : fork pol c k = Ok (r, k') → rkeep k k'.
Proof.
  unfold fork. intros Hf. apply bind_Ok in Hf as ([onp k1] & Ha & Hf).
  etrans; [by eapply rkeep_allocproc|].
  destruct onp as [np|]; [|by injection Hf as _ <-].
  destruct (allocproc_Some _ _ _ Ha) as (_ & n & _ & _ & Hn & Hst & _).
  apply bind_Ok in Hf as (cur & _ & Hf). apply bind_Ok in Hf as ([[pg|] e1] & _ & Hf);
    apply bind_Ok in Hf as (n' & _ & Hf).
  - apply bind_Ok in Hf as ([files e2] & _ & Hf). destruct (p_cwd cur); [|done].
    apply bind_Ok in Hf as (e3 & _ & Hf). injection Hf as _ <-.
    match goal with |- rkeep _ (updp ?f _ ?k1) => change (rkeep k1 (updp f np k1)) end.
    eapply rkeep_fresh; [exact Hn|congruence|]. by case_decide.
  - apply bind_Ok in Hf as (e2 & _ & Hf). injection Hf as _ <-.
    match goal with |- rkeep _ (updp ?f _ ?k1) => change (rkeep k1 (updp f np k1)) end.
    eapply rkeep_fresh; [exact Hn|congruence|done].
Qed.

Lemma skeep_growproc c n k r k' : growproc c n k = Ok (r, k') → skeep k k'.
Proof.
  unfold growproc. intros Hg. ok_inv. destruct x0 as [[[] sz'] e]; ok_inv; [|by apply skeep_same].
  match goal with |- skeep _ (updp ?f _ ?k1) => change (skeep k1 (updp f c k1)) end.
  by apply skeep_updp.
Qed.

Lemma rkeep_kill pid k : rkeep k (kill pid k).2.
Proof.
  unfold kill. destruct (first_slot _ _) as [i|]; [|done]. apply rkeep_updp. intros p _.
  unfold kill_fields. case_decide as Hs; cbn; [|done]. rewrite Hs. split; congruence.
Qed.

Lemma skeep_set_priority pid prio k : skeep k (set_priority pid prio k).2.
Proof.
  unfold set_priority. destruct (first_slot _ _) as [i|]; [|done].
  destruct (k_ptable k !! i); [|done]. by apply skeep_updp.
Qed.

(** A process that stops running on its own CPU. *)
Lemma running_stop f c k i :
  (∀ p, p_state (f p) ≠ RUNNING) → running (updp f c k) i ↔ running k i ∧ i ≠ c.
Proof.
  intros Hf. unfold running. rewrite lookup_updp. case_decide as Hic.
  - subst. destruct (k_ptable k !! i); cbn; naive_solver.
  - naive_solver.
Qed.

Lemma wait_scan_running c k r k' :
  wait_scan c k = Ok (r, k') →
  (r = WSleep ∧ k' = sleep_enter c (ChProc c) k) ∨ (r ≠ WSleep ∧ rkeep k k').
Proof.
  unfold wait_scan. intros Hw. destruct (first_slot _ _) as [i|] eqn:Hf.
  - ok_inv. destruct (first_slot_Some _ _ _ Hf) as (q & Hq & HP & _).
    apply andb_true_iff in HP as [_ Hz%bool_decide_eq_true].
    right. split; [done|].
    match goal with |- rkeep _ (updp _ _ ?k1) => change (rkeep k1 (updp reap_fields i k1)) end.
    eapply rkeep_fresh; [exact Hq|congruence|done].
  - ok_inv. case_decide; ok_inv; [by right|by left].
Qed.

Lemma exit_running c k k' :
  exit c k = Ok k' → k_cpu k' = k_cpu k ∧ ∀ i, running k' i ↔ running k i ∧ i ≠ c.
Proof.
  unfold exit. generalize (seq 0 NPROC). intros slots Hx. case_decide; [done|].
  apply bind_Ok in Hx as (cur & _ & Hx). apply bind_Ok in Hx as (e1 & _ & Hx).
  destruct (p_cwd cur); [|done]. apply bind_Ok in Hx as (e2 & _ & Hx). injection Hx as <-.
  match goal with |- context [updp _ c ?k3] => assert (rkeep k k3) as [Hcpu Hr] end.
  { etrans; [|apply rkeep_reparent]. etrans; [|apply rkeep_wakeup1].
    etrans; [|by apply rkeep_updp]. by apply rkeep_same. }
  split; [exact Hcpu|]. intros i. rewrite running_stop by done. by rewrite Hr.
Qed.

Lemma cpu_inv_off f cpu c k k' :
  back_in_scheduler cpu (updp f c k) k' → pol ≠ PBS → on_cpu k cpu c →
  (∀ p, p_state (f p) ≠ RUNNING) → cpu_inv k → cpu_inv k'.
Proof.
  intros [->|[? _]] Hpol Hc Hf Hi; [|done]. eapply cpu_inv_leave; [done..|].
  intros i. by apply running_stop.
Qed.

Lemma on_cpu_rkeep k k' cpu c : rkeep k k' → on_cpu k cpu c → on_cpu k' cpu c.
Proof. intros [Hc Hr] [Hm Hrun]. split; [unfold myproc in *; by rewrite Hc|by apply Hr]. Qed.

Lemma cpu_inv_choose cpu i k k1 k' :
  is_Some (k_cpu k !! cpu) → myproc k cpu = None → may_choose k i k1 →
  dispatch (λ _, Ok) cpu run_note i k1 = Ok k' → cpu_inv k → cpu_inv k'.
Proof.
  intros Hs Hidle Hc Hd Hi. destruct (may_choose_runnable _ _ _ Hc) as (p & Hp & Hst).
  assert (k_cpu k1 = k_cpu k ∧ k_ptable k1 = k_ptable k) as [Hcpu Htab].
  { unfold may_choose in Hc. destruct pol; naive_solver. }
  unfold dispatch in Hd. apply bind_Ok in Hd as (p' & _ & Hd).
  apply bind_Ok in Hd as (_ & _ & Hd). injection Hd as <-.
  eapply (cpu_inv_enter k _ cpu i); try done.
  - intros (q & Hq & ?). congruence.
  - cbn. by rewrite Hcpu.
  - intros j. unfold running at 1. rewrite lookup_updp. cbn. rewrite Htab.
    case_decide as Hij; [subst; rewrite Hp; cbn; naive_solver|].
    unfold running. naive_solver.
Qed.

Lemma cpu_inv_step k k' : pol ≠ PBS → kstep k k' → cpu_inv k → cpu_inv k'.
Proof.
  intros Hpol Hs Hi. destruct Hs as
    [cpu c r k' _ _ Hf|cpu c n r k' _ Hg|cpu c r k' _ Hw Hne
    |cpu c k1 k' Hc Hw Hb|cpu c k1 k' Hc Hx Hb|cpu c ch k' Hc _ Hb|cpu c _
    |cpu c k' Hc Hb|ch|pid|pid prio|k' Ht
    |cpu c k' _ _ Hm|cpu c k1 k' _ Hc Hm Hb|cpu i k1 k' Hcpu Hidle Hc Hd].
  - eapply cpu_inv_rkeep; [by eapply rkeep_fork|done].
  - eapply cpu_inv_rkeep; [by eapply skeep_rkeep, skeep_growproc|done].
  - destruct (wait_scan_running _ _ _ _ Hw) as [[? _]|[_ Hr]]; [done|].
    by eapply cpu_inv_rkeep.
  - destruct (wait_scan_running _ _ _ _ Hw) as [[_ ->]|[? _]]; [|done].
    unfold sleep_enter in Hb. by eapply cpu_inv_off.
  - destruct (exit_running _ _ _ Hx) as [Hcpu Hr]. destruct Hb as [->|[? _]]; [|done].
    by eapply cpu_inv_leave.
  - unfold sleep_enter in Hb. by eapply cpu_inv_off.
  - eapply cpu_inv_rkeep; [by apply rkeep_updp|done].
  - unfold yield_enter in Hb. by eapply cpu_inv_off.
  - eapply cpu_inv_rkeep; [apply rkeep_wakeup1|done].
  - eapply cpu_inv_rkeep; [apply rkeep_kill|done].
  - eapply cpu_inv_rkeep; [apply skeep_rkeep, skeep_set_priority|done].
  - eapply cpu_inv_rkeep; [by eapply rkeep_timer_tick|done].
  - eapply cpu_inv_rkeep; [by eapply skeep_rkeep, skeep_mlfq_timer|done].
  - pose proof (skeep_rkeep _ _ (skeep_mlfq_timer _ _ _ _ Hm)) as Hrk.
    unfold yield_enter in Hb.
    eapply cpu_inv_off; [exact Hb|done|by eapply on_cpu_rkeep|done|by eapply cpu_inv_rkeep].
  - eapply cpu_inv_choose; [exact Hcpu|by apply Hidle|done..].
Qed.

(** ** The initial state *)

Lemma levels_init ncpu (e : E) : levels (kst_init ncpu e) = replicate 5 [].
Proof. done. Qed.

Lemma kinv_init ncpu (e : E) : kinv (kst_init ncpu e).
Proof.
  split; rewrite ?levels_init; try done.
  - apply Forall_replicate. change (q_list runq_init) with (@nil nat). apply q_rep_init.
  - intros j l x [-> _]%lookup_replicate Hx. by apply elem_of_nil in Hx.
  - intros j l [-> _]%lookup_replicate. constructor.
  - intros i p [-> _]%lookup_replicate. cbn. lia.
  - intros i p [-> _]%lookup_replicate. done.
  - intros i j p q [-> _]%lookup_replicate [-> _]%lookup_replicate. done.
  - intros i p [-> _]%lookup_replicate. done.
  - intros i p [-> _]%lookup_replicate. done.
Qed.

Lemma cpu_inv_init ncpu (e : E) : cpu_inv (kst_init ncpu e).
Proof.
  split.
  - intros cpu i [? _]%lookup_replicate. done.
  - intros i (p & [-> _]%lookup_replicate & ?). done.
  - intros cpu1 cpu2 i [? _]%lookup_replicate. done.
Qed.

Lemma userinit_keep k k' :
  userinit k = Ok k' →
  ∃ np k1, allocproc k = Ok (Some np, k1) ∧ kkeep k1 k' ∧ rkeep k1 k'.
Proof.
  unfold userinit. intros Hu. apply bind_Ok in Hu as ([[np|] k1] & Ha & Hu); [|done].
  exists np, k1. split; [done|]. apply bind_Ok in Hu as ([[pg|] e] & _ & Hu); [|done].
  apply bind_Ok in Hu as (e1 & _ & Hu). apply bind_Ok in Hu as ([oip e2] & _ & Hu).
  injection Hu as <-. destruct (allocproc_Some _ _ _ Ha) as (_ & n & _ & _ & Hn & Hst & _).
  split.
  - etrans; [|apply kkeep_updp]; [by apply kkeep_same|]. intros p Hp. cbn in Hp.
    rewrite Hn in Hp. injection Hp as <-. solve_pkeep.
  - etrans; [|eapply rkeep_fresh]; [by apply rkeep_same|exact Hn|congruence|done].
Qed.

Lemma reachable_inv ncpu e k :
  reachable ncpu e k → kinv k ∧ (pol ≠ PBS → cpu_inv k).
Proof.
  intros (k0 & Hu & Hsteps). destruct (userinit_keep _ _ Hu) as (np & k1 & Ha & Hkk & Hrk).
  assert (kinv k1) as Hk1 by (eapply kinv_allocproc; [apply kinv_init|done|exact Ha]).
  split.
  - eapply rtc_preserve; [apply kinv_step|exact Hsteps|]. by eapply kinv_keep.
  - intros Hpol. eapply rtc_preserve; [intros; by eapply cpu_inv_step|exact Hsteps|].
    eapply cpu_inv_rkeep; [|apply (cpu_inv_init ncpu e)].
    etrans; [by eapply rkeep_allocproc|done].
Qed.
End steps.
