(* ===== verification/SystemSpec.v ===== *)
(** * Reachable states: [wait] misses no exit, and level 0 only grows *)

From S2P Require Import Prelude.
From S2P Require Import RunQueue.
From S2P Require Import ProcTable.
From S2P Require Import Proc.
From S2P Require Import Mlfq.
From S2P Require Import Sched.
From S2P Require Import Trap.
From S2P Require Import ProcInv.
From S2P Require Import MlfqSpec.
From S2P Require Import SchedSpec.
From S2P Require Import ProcSpec.
From S2P Require Import System.

Local Open Scope Z_scope.

Section leak.
Context {E : Type} `{KEnv E} (pol : policy).
Implicit Types (k : kst E).

(** Entries of level 0 and pids handed out. *)
Definition leaked k : Prop :=
  ∃ l0, levels k !! 0%nat = Some l0 ∧ Z.of_nat (length l0) = k_nextpid k - 1.

Lemma leaked_frame k k' : k_queues k' = k_queues k → k_nextpid k' = k_nextpid k → leaked k → leaked k'.
Proof. intros Hq Hn. unfold leaked, levels. by rewrite Hq, Hn. Qed.

Lemma leaked_kframe k k' : kframe k k' → leaked k → leaked k'.
Proof. intros (_ & Hq & Hn). by apply leaked_frame. Qed.

Lemma leaked_kkeep k k' : kkeep k k' → leaked k → leaked k'.
Proof. intros ?%kkeep_kframe. by apply leaked_kframe. Qed.

Lemma leaked_allocproc k r k' :
  kinv k → k_nextpid k < INT_MAX → allocproc k = Ok (r, k') → leaked k → leaked k'.
Proof.
  intros Hk Hn Ha (l0 & Hl0 & Hlen). destruct (allocproc_inv _ _ _ Ha) as
    [(_ & -> & _)|(i & p & q0 & rq & _ & _ & Hq0 & Hrq & Hc)]; [by exists l0|].
  destruct (getq_levels k 0 l0 Hk Hl0) as (q0' & Hq0' & Hrep).
  rewrite (Hq0 : getq k (Z.of_nat 0) = Ok q0) in Hq0'. injection Hq0' as <-.
  pose proof (q_rep_length _ _ Hrep) as Hle.
  assert (length l0 < QSIZE)%nat as Hlt.
  { apply Nat.nle_gt. intros ?. rewrite (qpush_overflow _ _ _ Hrep) in Hrq; [done|lia]. }
  destruct (qpush_spec q0 l0 i Hrep Hlt) as (r' & Hr' & Hrep' & _).
  rewrite Hrq in Hr'. injection Hr' as <-.
  assert (leaked (alloc_state i rq k)) as Hl.
  { exists (l0 ++ [i]). unfold alloc_state.
    rewrite (levels_setq _ 0 rq : levels (setq 0 rq _) = _), (q_rep_list _ _ Hrep'), levels_updp.
    rewrite list_lookup_insert_eq by (by eapply lookup_lt_Some). split; [done|].
    pose proof (inv_nextpid _ Hk). cbn. rewrite i32_small by (unfold INT_MAX in *; lia).
    rewrite length_app. cbn. lia. }
  destruct Hc as [(_ & e & _ & ->)|(_ & a & e & _ & ->)]; exact Hl.
Qed.

Lemma leaked_fork c k r k' :
  kinv k → k_nextpid k < INT_MAX → fork pol c k = Ok (r, k') → leaked k → leaked k'.
Proof.
  intros Hk Hn Hf Hl. destruct (fork_inv _ _ _ _ _ Hf) as
    [(k1 & Ha & _ & ->)|[(np & k1 & e & Ha & _ & ->)|
     (np & k1 & cur & n & pg & files & e1 & e2 & e3 & ip & Ha & _ & _ & _ & _ & _ & _ & _ &
      f & -> & _)]].
  all: exact (leaked_allocproc _ _ _ Hk Hn Ha Hl).
Qed.

Lemma leaked_step k k' : pol ≠ MLFQ → kstep pol k k' → kinv k → leaked k → leaked k'.
Proof.
  intros Hpol Hs Hk. destruct Hs as
    [cpu c r k' _ Hn Hf|cpu c n r k' _ Hg|cpu c r k' [_ (p & Hp & Hl)%running_live] Hw _
    |cpu c k1 k' [_ (p & Hp & Hl)%running_live] Hw Hb
    |cpu c k1 k' [_ (p & Hp & Hl)%running_live] Hx Hb|cpu c ch k' _ _ Hb|cpu c _
    |cpu c k' _ Hb|ch|pid|pid prio|k' Ht|cpu c k' ? _ _|cpu c k1 k' ? _ _ _
    |cpu i k1 k' _ _ Hc Hd]; try done.
  - by eapply leaked_fork.
  - apply leaked_kkeep. by eapply growproc_keep.
  - apply leaked_kframe. by eapply wait_scan_frame.
  - intros Hlk. eapply leaked_kframe in Hlk; [|by eapply wait_scan_frame].
    by destruct Hb as [->|[_ ->]].
  - intros Hlk. eapply leaked_kkeep in Hlk; [|by eapply exit_keep].
    by destruct Hb as [->|[_ ->]].
  - by destruct Hb as [->|[_ ->]].
  - by destruct Hb as [->|[_ ->]].
  - apply leaked_kkeep, kill_keep.
  - apply leaked_kkeep, set_priority_keep.
  - unfold timer_tick in Ht. rewrite decide_False in Ht by done.
    destruct (myproc k 0); ok_inv; done.
  - unfold dispatch in Hd. ok_inv. unfold may_choose in Hc. destruct pol; try done.
    all: destruct Hc as [_ ->]; done.
Qed.

Lemma leaked_reachable ncpu e k : pol ≠ MLFQ → reachable pol ncpu e k → leaked k.
Proof.
  intros Hpol (k0 & Hu & Hsteps). destruct (userinit_keep _ _ Hu) as (np & k1 & Ha & Hkk & _).
  assert (kinv k1) as Hk1 by (eapply kinv_allocproc; [apply kinv_init|done|exact Ha]).
  assert (leaked k1) as Hl1.
  { eapply leaked_allocproc; [apply (kinv_init ncpu e)|done|exact Ha|]. by exists []. }
  enough (kinv k ∧ leaked k) as [_ ?] by done.
  eapply (rtc_preserve (kstep pol) (λ k, kinv k ∧ leaked k)); [|exact Hsteps|].
  - intros s s' Hs [Hks Hls]. split; [by eapply kinv_step|by eapply leaked_step].
  - split; [by eapply kinv_keep|by eapply leaked_kkeep].
Qed.

(** With level 0 full, taking a free slot writes past [q0]. *)
Lemma allocproc_full k l0 i p :
  kinv k → levels k !! 0%nat = Some l0 → length l0 = QSIZE →
  k_ptable k !! i = Some p → p_state p = UNUSED →
  allocproc k = Fault "array write out of bounds".
Proof.
  intros Hk Hl0 Hlen Hp Hst. unfold allocproc.
  destruct (first_slot _ _) as [j|] eqn:Hf.
  - destruct (getq_levels k 0 l0 Hk Hl0) as (q0 & Hq0 & Hrep).
    change (getq (updp _ _ _) 0) with (getq k (Z.of_nat 0)). rewrite Hq0. cbn [mbind outcome_bind].
    by rewrite (qpush_overflow _ _ _ Hrep Hlen).
  - pose proof (first_slot_None _ _ _ _ Hf Hp) as HP.
    by apply bool_decide_eq_false in HP.
Qed.
End leak.
