(* ===== verification/ProcTree.v ===== *)
(** * The process tree: parents are alive, and [wait] misses no exit

    Every process that has a parent is the child of a live process that has
    not exited, [initproc] never exits, and a process that sleeps in [wait] has
    no zombie child: the wakeup of [exit] cannot be lost. *)

From S2P Require Import Prelude.
From S2P Require Import RunQueue.
From S2P Require Import ProcTable.
From S2P Require Import Proc.
From S2P Require Import Mlfq.
From S2P Require Import Sched.
From S2P Require Import Trap.
From S2P Require Import ProcInv.
From S2P Require Import MlfqSpec.
From S2P Require Import SchedSpec.
From S2P Require Import ProcSpec.
From S2P Require Import System.

Local Open Scope Z_scope.

(** Started and not exited. *)
Definition alive (p : proc) : Prop :=
  p_state p = SLEEPING ∨ p_state p = RUNNABLE ∨ p_state p = RUNNING.

Lemma alive_live p : alive p → live p.
Proof. unfold alive, live. intros [H|[H|H]]; congruence. Qed.

Section tree.
Context {E : Type} `{KEnv E} (pol : policy).
Implicit Types (k : kst E) (c i j : nat).

Definition no_zombie_child k c : Prop :=
  ∀ j q, k_ptable k !! j = Some q → p_parent q = Some c → p_state q ≠ ZOMBIE.

Record tree_inv k : Prop := {
  tr_init : ∃ n p, k_initproc k = Some n ∧ k_ptable k !! n = Some p ∧ alive p ∧
    p_parent p = None;
  tr_parent : ∀ i p c, k_ptable k !! i = Some p → p_parent p = Some c →
    live p ∧ c ≠ i ∧ ∃ q, k_ptable k !! c = Some q ∧ alive q;
  tr_wait : ∀ i p c, k_ptable k !! i = Some p → p_state p = SLEEPING →
    p_chan p = ChProc c → c = i ∧ no_zombie_child k i
}.

(** ** Slots that keep their place in the tree *)

Definition tslot (p p' : proc) : Prop :=
  p_parent p' = p_parent p ∧ (live p → live p') ∧ (alive p → alive p') ∧
  (p_state p' = ZOMBIE → p_state p = ZOMBIE) ∧
  (∀ c, p_state p' = SLEEPING → p_chan p' = ChProc c →
     p_state p = SLEEPING ∧ p_chan p = ChProc c).

#[export] Instance tslot_refl : Reflexive tslot.
Proof. intros p. unfold tslot. naive_solver. Qed.

Definition tkeep k k' : Prop :=
  k_initproc k' = k_initproc k ∧ Forall2 tslot (k_ptable k) (k_ptable k').

Lemma tkeep_updp f i k :
  (∀ p, k_ptable k !! i = Some p → tslot p (f p)) → tkeep k (updp f i k).
Proof.
  intros Hf. split; [done|]. apply Forall2_same_length_lookup.
  split; [by rewrite length_updp|]. intros j p p' Hp (p0 & Hp0 & ->)%lookup_updp_Some.
  rewrite Hp in Hp0. injection Hp0 as <-. case_decide; [subst; auto|done].
Qed.

Lemma skeep_tkeep k k' : skeep k k' → tkeep k k'.
Proof.
  intros (_ & Hi & HF). split; [done|]. eapply Forall2_impl; [exact HF|].
  intros p p' (Hs & Hp & Hc). unfold tslot, live, alive. rewrite Hs, Hp, Hc. naive_solver.
Qed.

Lemma tree_keep k k' : tkeep k k' → tree_inv k → tree_inv k'.
Proof.
  intros [Hi HF] [H1 H2 H3].
  assert (∀ i p', k_ptable k' !! i = Some p' → ∃ p, k_ptable k !! i = Some p ∧ tslot p p') as Hlk.
  { intros i p' Hp'. destruct (Forall2_lookup_r _ _ _ _ _ HF Hp') as (p & ? & ?). eauto. }
  assert (∀ i p, k_ptable k !! i = Some p → ∃ p', k_ptable k' !! i = Some p' ∧ tslot p p') as Hlk'.
  { intros i p Hp. destruct (Forall2_lookup_l _ _ _ _ _ HF Hp) as (p' & ? & ?). eauto. }
  split.
  - destruct H1 as (n & p & Hn & Hp & Ha & Hpar). rewrite Hi.
    destruct (Hlk' _ _ Hp) as (p' & Hp' & (Hpa & _ & Hal & _)). exists n, p'.
    split_and!; [done|done|auto|congruence].
  - intros i p' c (p & Hp & (Hpa & Hl & _))%Hlk Hc. rewrite Hpa in Hc.
    destruct (H2 _ _ _ Hp Hc) as (? & ? & q & Hq & Hqa). split_and!; [auto|done|].
    destruct (Hlk' _ _ Hq) as (q' & Hq' & (_ & _ & Hqa' & _)). eauto.
  - intros i p' c (p & Hp & (_ & _ & _ & _ & Hs))%Hlk Hsl Hch.
    destruct (Hs c Hsl Hch) as [Hs1 Hch1]. destruct (H3 _ _ _ Hp Hs1 Hch1) as [-> Hnz].
    split; [done|]. intros j q' (q & Hq & (Hpa & _ & _ & Hz & _))%Hlk Hpar Hzq.
    eapply Hnz; [exact Hq|congruence|auto].
Qed.

Lemma tree_skeep k k' : skeep k k' → tree_inv k → tree_inv k'.
Proof. intros ?%skeep_tkeep. by apply tree_keep. Qed.

Lemma wake_proc_tslot ch p : tslot p (wake_proc ch p).
Proof.
  unfold wake_proc. case_decide as Hd; [|done]. destruct Hd as [Hs _].
  unfold tslot, live, alive. cbn. rewrite Hs. naive_solver.
Qed.

Lemma tree_wakeup ch k : tree_inv k → tree_inv (wakeup1 ch k).
Proof.
  apply tree_keep. split; [done|]. cbn.
  apply Forall2_fmap_r, Forall_Forall2_diag, Forall_true. intros p. apply wake_proc_tslot.
Qed.

Lemma tree_set_cpu cpu o k : tree_inv k → tree_inv (set_cpu cpu o k).
Proof. intros [? ? ?]. by split. Qed.

Lemma tree_back cpu k k' : back_in_scheduler pol cpu k k' → tree_inv k → tree_inv k'.
Proof. intros [->|[_ ->]]; [apply tree_set_cpu|done]. Qed.

(** ** fork *)

(** What [fork] does to the table: nothing, or one free slot changes. *)
Definition one_slot_changed (np : nat) (p0 p' : proc) k k' : Prop :=
  k_ptable k !! np = Some p0 ∧ k_ptable k' !! np = Some p' ∧
  ∀ j, j ≠ np → k_ptable k' !! j = k_ptable k !! j.

Lemma fork_table c k r k' :
  fork pol c k = Ok (r, k') → k_initproc k' = k_initproc k ∧
  (k_ptable k' = k_ptable k ∨
   ∃ np p0 p', one_slot_changed np p0 p' k k' ∧ p_state p0 = UNUSED ∧
     ((p_state p' = UNUSED ∧ p_parent p' = p_parent p0) ∨
      (p_state p' = RUNNABLE ∧ p_parent p' = Some c))).
Proof.
  intros Hf. destruct (fork_inv _ _ _ _ _ Hf) as
    [(k1 & Ha & -> & ->)|[(np & k1 & e & Ha & -> & ->)|
     (np & k1 & cur' & n & pg & files & e1 & e2 & e3 & ip & Ha & Hcur & Hnp & Hcp & Hd & _ & _ & -> &
      f & -> & Hff)]].
  - destruct (allocproc_inv _ _ _ Ha) as
      [(_ & -> & _)|(i & p & q0 & rq & Hp & Hst & _ & _ & [(_ & e & _ & ->)|(? & _)])];
      [by auto| |done].
    split; [done|]. right. eexists i, p, _. split_and!; [refine (conj Hp (conj _ _))|done|left].
    + cbn. by rewrite !list_lookup_alter_eq, Hp.
    + intros j Hj. cbn. by rewrite !list_lookup_alter_ne.
    + done.
  - destruct (allocproc_Some _ _ _ Ha) as
      (p0 & n & Hp0 & Hst & Hn1 & _ & _ & _ & _ & _ & _ & _ & _ & _ & Hoth & _ & _ & Hi & Hpar).
    split; [done|]. right. eexists np, p0, _. split_and!; [refine (conj Hp0 (conj _ _))|done|left].
    + cbn. by rewrite list_lookup_alter_eq, Hn1.
    + intros j Hj. cbn. by rewrite list_lookup_alter_ne, Hoth.
    + done.
  - destruct (allocproc_Some _ _ _ Ha) as (p0 & n' & Hp0 & Hst & Hn1 & _ & Hpid &
      _ & Hpr & Hrt & Hio & Hrr & Hstat & _ & Hoth & _ & _ & Hi & _).
    rewrite Hnp in Hn1. injection Hn1 as <-. rewrite <-Hpid in *.
    split; [done|]. right. exists np, p0, (f n). split_and!; [refine (conj Hp0 (conj _ _))|done|right].
    + cbn. by rewrite list_lookup_alter_eq, Hnp.
    + intros j Hj. cbn. by rewrite list_lookup_alter_ne, Hoth.
    + destruct (Hff n) as (_ & _ & _ & _ & _ & Hch). destruct Hch as (? & ? & ? & _); done.
Qed.

(** A slot nobody's parent lies in changes to something that neither sleeps
    in [wait] nor is a zombie, with no parent or a live one. *)
Lemma tree_one_slot np p0 p' k k' :
  one_slot_changed np p0 p' k k' → k_initproc k' = k_initproc k →
  ¬ alive p0 → p_state p' ≠ ZOMBIE → (∀ c, p_state p' = SLEEPING → p_chan p' ≠ ChProc c) →
  (∀ c, p_parent p' = Some c → live p' ∧ c ≠ np ∧ ∃ q, k_ptable k !! c = Some q ∧ alive q) →
  tree_inv k → tree_inv k'.
Proof.
  intros (Hnp & Hnp' & Hoth) Hi Hdead Hnz Hns Hpar [H1 H2 H3].
  assert (∀ c q, k_ptable k !! c = Some q → alive q → c ≠ np) as Hne by (intros c q ?? ->; congruence).
  split.
  - destruct H1 as (n & p & Hn & Hp & Ha & Hpa). exists n, p. rewrite Hi, Hoth by eauto. done.
  - intros i p c Hp Hc.
    assert (live p ∧ c ≠ i ∧ ∃ q, k_ptable k !! c = Some q ∧ alive q) as (? & ? & q & Hq & Ha).
    { destruct (decide (i = np)) as [->|Hi']; [|rewrite Hoth in Hp by done; eauto].
      rewrite Hnp' in Hp. injection Hp as <-. eauto. }
    split_and!; [done|done|]. exists q. rewrite Hoth by eauto. done.
  - intros i p c Hp Hs Hch. destruct (decide (i = np)) as [->|Hi'].
    { rewrite Hnp' in Hp. injection Hp as <-. by destruct (Hns c). }
    rewrite Hoth in Hp by done. destruct (H3 _ _ _ Hp Hs Hch) as [-> Hz]. split; [done|].
    intros j q Hq Hjp. destruct (decide (j = np)) as [->|Hj].
    { rewrite Hnp' in Hq. by injection Hq as <-. }
    rewrite Hoth in Hq by done. by eapply Hz.
Qed.

Lemma tree_fork c k r k' :
  running k c → fork pol c k = Ok (r, k') → tree_inv k → tree_inv k'.
Proof.
  intros (cur & Hcur & Hrun) Hf Ht.
  destruct (fork_table _ _ _ _ Hf) as [Hi [Heq|(np & p0 & p' & Hone & Hst & Hcase)]].
  { apply (tree_skeep k); [|done].
    destruct (rkeep_fork _ _ _ _ _ Hf) as [? _]. by apply skeep_same. }
  pose proof Hone as (Hnp & _). eapply tree_one_slot; [exact Hone|done|..|done].
  - unfold alive. intros [?|[?|?]]; congruence.
  - destruct Hcase as [[-> _]|[-> _]]; done.
  - destruct Hcase as [[-> _]|[-> _]]; done.
  - intros c' Hc'. destruct Hcase as [[_ Hpar]|[Hs Hpar]].
    + rewrite Hpar in Hc'. destruct (tr_parent _ Ht np p0 c' Hnp Hc') as [Hl _]. done.
    + rewrite Hpar in Hc'. injection Hc' as <-. split_and!.
      * unfold live. congruence.
      * intros ->. congruence.
      * exists cur. split; [done|]. unfold alive. auto.
Qed.

(** ** wait *)

Lemma tree_sleep_wait c cur k :
  k_ptable k !! c = Some cur → alive cur → no_zombie_child k c → tree_inv k →
  tree_inv (sleep_enter c (ChProc c) k).
Proof.
  intros Hc Ha Hnz [H1 H2 H3]. set (k' := sleep_enter c (ChProc c) k).
  assert (∀ i p', k_ptable k' !! i = Some p' → ∃ p, k_ptable k !! i = Some p ∧
    p_parent p' = p_parent p ∧ (live p → live p') ∧ (p_state p' = ZOMBIE → p_state p = ZOMBIE) ∧
    (i ≠ c → p' = p) ∧ (i = c → p_chan p' = ChProc c)) as Hlk.
  { intros i p' (p & Hp & ->)%lookup_updp_Some. exists p. unfold live. case_decide; naive_solver. }
  assert (∀ i p, k_ptable k !! i = Some p → alive p → ∃ p', k_ptable k' !! i = Some p' ∧ alive p' ∧
    p_parent p' = p_parent p) as Hlk'.
  { intros i p Hp Hal. unfold k', sleep_enter. rewrite lookup_updp, Hp.
    case_decide; cbn; eexists; (split; [done|]); split; try done. by left. }
  assert (∀ i, no_zombie_child k i → no_zombie_child k' i) as Hnz'.
  { intros i Hz j q' (q & Hq & Hpa & _ & Hzq & _)%Hlk Hpar Hz'. eapply Hz; [exact Hq|congruence|auto]. }
  split.
  - destruct H1 as (n & p & Hn & Hp & Hal & Hpar). destruct (Hlk' _ _ Hp Hal) as (p' & ? & ? & ?).
    exists n, p'. split_and!; [done..|congruence].
  - intros i p' x (p & Hp & Hpa & Hl & _)%Hlk Hx. rewrite Hpa in Hx.
    destruct (H2 _ _ _ Hp Hx) as (? & ? & q & Hq & Hqa).
    destruct (Hlk' _ _ Hq Hqa) as (q' & ? & ? & _). split_and!; eauto.
  - intros i p' x (p & Hp & _ & _ & _ & Hne & Heq)%Hlk Hs Hx.
    destruct (decide (i = c)) as [->|Hi]; [rewrite Heq in Hx by done; injection Hx as <-; auto|].
    rewrite Hne in Hs, Hx by done. destruct (H3 _ _ _ Hp Hs Hx). auto.
Qed.

Lemma tree_wait_scan c k r k' :
  running k c → wait_scan c k = Ok (r, k') → tree_inv k → tree_inv k'.
Proof.
  intros (cur & Hcur & Hrun) Hw Ht. unfold wait_scan in Hw.
  destruct (first_slot _ _) as [i|] eqn:Hf.
  - apply bind_Ok in Hw as (p & Hp%getp_Ok & Hw). apply bind_Ok in Hw as (e1 & _ & Hw).
    apply bind_Ok in Hw as (e2 & _ & Hw). injection Hw as <- <-.
    destruct (first_slot_Some _ _ _ Hf) as (p' & Hp' & Hz & _). rewrite Hp in Hp'. injection Hp' as <-.
    apply andb_true_iff in Hz as [_ Hz%bool_decide_eq_true].
    eapply (tree_one_slot i p (reap_fields p) k); [|done|..|done]; try done.
    + refine (conj Hp (conj _ _)); [rewrite lookup_updp, decide_True by done; cbn; by rewrite Hp|].
      intros j Hj. by rewrite lookup_updp, decide_False.
    + unfold alive. intros [?|[?|?]]; congruence.
  - apply bind_Ok in Hw as (cur' & Hcur'%getp_Ok & Hw). case_decide; injection Hw as <- <-; [done|].
    apply (tree_sleep_wait c cur k); [done|unfold alive; auto| |done].
    intros j q Hq Hpar Hz. pose proof (first_slot_None _ _ _ _ Hf Hq) as HP.
    unfold is_zombie_child, is_child in HP. by rewrite !bool_decide_eq_true_2 in HP.
Qed.

(** ** exit *)

Lemma adopted_facts c init p p' :
  adopted c init p p' →
  (alive p → alive p') ∧ (live p → live p') ∧ (p_state p' = ZOMBIE → p_state p = ZOMBIE) ∧
  (p_state p' = SLEEPING → p_state p = SLEEPING ∧ p_chan p' = p_chan p) ∧
  p_parent p' = (if decide (p_parent p = Some c) then init else p_parent p).
Proof.
  intros (q & [->|[Hs ->]] & ->); unfold alive, live.
  - case_decide; cbn; naive_solver.
  - case_decide; cbn; rewrite Hs; naive_solver.
Qed.

Lemma tree_exit c k k' :
  kinv k → running k c → exit c k = Ok k' → tree_inv k → tree_inv k'.
Proof.
  intros Hk (cur & Hc & Hrun) Hx [(n & pn & Hn & Hpn & Han & Hparn) H2 H3].
  assert (kkeep k k') as [HF _] by (eapply exit_keep; [exact Hc|unfold live; congruence|done]).
  destruct (exit_spec c cur k k' Hk Hc Hx) as [Hni Hi (z & Hz & Hzs & _ & Hzp & _) Hoth Hpw Horp].
  assert (n ≠ c) as Hnc by (intros ->; congruence).
  assert (p_parent cur ≠ Some c) as Hself.
  { intros Hp. destruct (H2 _ _ _ Hc Hp) as (_ & ? & _). done. }
  rewrite decide_False in Hzp by done.
  assert (∀ i p', i ≠ c → k_ptable k' !! i = Some p' →
    ∃ p, k_ptable k !! i = Some p ∧ adopted c (k_initproc k) p p') as Hback.
  { intros i p' Hic Hp'. destruct (Forall2_lookup_r _ _ _ _ _ HF Hp') as (p & Hp & _).
    destruct (Hoth i p Hic Hp) as (p'' & Hp'' & Had). exists p. split; [done|congruence]. }
  assert (∀ i p, i ≠ c → k_ptable k !! i = Some p → alive p →
    ∃ p', k_ptable k' !! i = Some p' ∧ alive p') as Halive.
  { intros i p Hic Hp Ha. destruct (Hoth i p Hic Hp) as (p' & Hp' & Had%adopted_facts). naive_solver. }
  split.
  - destruct (Hoth n pn Hnc Hpn) as (p' & Hp' & (Ha & _ & _ & _ & Hpar)%adopted_facts).
    exists n, p'. rewrite Hi. rewrite decide_False in Hpar by congruence.
    split_and!; [done|done|auto|congruence].
  - intros i p' x Hp' Hx'. destruct (decide (i = c)) as [->|Hic].
    + rewrite Hz in Hp'. injection Hp' as <-. rewrite Hzp in Hx'.
      destruct (H2 _ _ _ Hc Hx') as (_ & ? & q & Hq & Hqa). split_and!; [unfold live; congruence|done|].
      by eapply Halive.
    + destruct (Hback i p' Hic Hp') as (p & Hp & (_ & Hl & _ & _ & Hpar)%adopted_facts).
      rewrite Hx' in Hpar. case_decide as Hpc.
      * rewrite Hn in Hpar. injection Hpar as ->. destruct (H2 _ _ _ Hp Hpc) as (? & _ & _).
        split_and!; [auto|intros ->; congruence|by eapply Halive].
      * destruct (H2 _ _ _ Hp (eq_sym Hpar)) as (? & ? & q & Hq & Hqa).
        split_and!; [auto|done|]. eapply Halive; [congruence|done..].
  - intros i p' x Hp' Hs Hch. assert (i ≠ c) as Hic by (intros ->; congruence).
    destruct (Hback i p' Hic Hp') as (p & Hp & Had).
    destruct (adopted_facts _ _ _ _ Had) as (_ & _ & _ & Hsl & _). destruct (Hsl Hs) as [Hps Hpch].
    destruct (H3 i p x Hp Hps) as [-> Hnz]; [congruence|]. split; [done|].
    intros j q' Hq' Hpar Hzq. destruct (decide (j = c)) as [->|Hjc].
    + rewrite Hz in Hq'. injection Hq' as <-. rewrite Hzp in Hpar.
      apply (Hpw i p' Hic Hp' Hs). by rewrite Hpar.
    + destruct (Hback j q' Hjc Hq') as (q & Hq & (_ & _ & Hqz & _ & Hqp)%adopted_facts).
      rewrite Hpar in Hqp. case_decide as Hqc; [|by eapply Hnz; [exact Hq| |auto]].
      apply (Horp j q Hjc Hq Hqc (Hqz Hzq) i p' Hic Hp' Hs). by rewrite <-Hqp.
Qed.

(** ** All steps *)

Lemma running_tslot c k p p' :
  running k c → k_ptable k !! c = Some p → p_parent p' = p_parent p → alive p' →
  (∀ x, p_state p' = SLEEPING → p_chan p' ≠ ChProc x) → tslot p p'.
Proof.
  intros (p1 & Hp1 & Hr) Hp Hpar Ha Hs. rewrite Hp in Hp1. injection Hp1 as <-.
  split_and!; [done|intros _; by apply alive_live|done| |naive_solver].
  intros Hz. unfold alive in Ha. destruct Ha as [?|[?|?]]; congruence.
Qed.

Lemma tree_step k k' : kstep pol k k' → kinv k → tree_inv k → tree_inv k'.
Proof.
  intros Hs Hk Ht. destruct Hs as
    [cpu c r k' [_ Hc] _ Hf|cpu c n r k' _ Hg|cpu c r k' [_ Hc] Hw Hne
    |cpu c k1 k' [_ Hc] Hw Hb|cpu c k1 k' [_ Hc] Hx Hb|cpu c ch k' [_ Hc] Hch Hb|cpu c [_ Hc]
    |cpu c k' [_ Hc] Hb|ch|pid|pid prio|k' Ht'
    |cpu c k' _ _ Hm|cpu c k1 k' _ [_ Hc] Hm Hb|cpu i k1 k' _ _ Hc Hd].
  - by eapply tree_fork.
  - eapply tree_skeep; [by eapply skeep_growproc|done].
  - by eapply tree_wait_scan.
  - eapply tree_back; [done|by eapply tree_wait_scan].
  - eapply tree_back; [done|by eapply tree_exit].
  - eapply tree_back; [done|]. eapply tree_keep; [|done]. apply tkeep_updp. intros p Hp.
    eapply running_tslot; [done|done|done|by left|done].
  - eapply tree_keep; [|done]. apply tkeep_updp. intros p Hp. destruct Hc as (p1 & Hp1 & Hr).
    eapply running_tslot; [by exists p1|done|done| |done]. right; right. cbn. congruence.
  - eapply tree_back; [done|]. eapply tree_keep; [|done]. apply tkeep_updp. intros p Hp.
    eapply running_tslot; [done|done|done|unfold alive; auto|done].
  - by apply tree_wakeup.
  - unfold kill. destruct (first_slot _ _) as [i|]; [|done]. eapply tree_keep; [|done].
    apply tkeep_updp. intros p _. unfold kill_fields. case_decide as Hs; cbn.
    + unfold tslot, live, alive; cbn; rewrite Hs; naive_solver.
    + unfold tslot, live, alive; cbn; naive_solver.
  - eapply tree_skeep; [apply skeep_set_priority|done].
  - eapply tree_skeep; [by eapply timer_tick_skeep|]. apply tree_wakeup.
    eapply tree_skeep; [|done]. by apply skeep_same.
  - eapply tree_skeep; [by eapply skeep_mlfq_timer|done].
  - pose proof (skeep_mlfq_timer _ _ _ _ Hm) as Hsk.
    eapply tree_back; [done|]. eapply tree_keep; [|by eapply tree_skeep]. apply tkeep_updp.
    intros p Hp. eapply running_tslot; [by apply (skeep_rkeep _ _ Hsk)|done|done|unfold alive; auto|done].
  - destruct (may_choose_runnable _ _ _ _ Hc) as (p & Hp & Hr).
    assert (skeep k k1) as Hsk.
    { unfold may_choose in Hc. destruct pol; [destruct Hc as [_ ->]; done..|].
      destruct Hc as (j & n & r & _ & _ & ->). by apply skeep_same. }
    destruct (may_choose_kinv _ _ _ _ Hc Hk) as [_ Htab].
    unfold dispatch in Hd. ok_inv. eapply tree_keep; [apply tkeep_updp|].
    2: { apply tree_set_cpu. by eapply tree_skeep. }
    intros q Hq. cbn in Hq. rewrite Htab, Hp in Hq. injection Hq as <-.
    assert (same_slot p (run_note pol p)) as (_ & Hpar & _) by (unfold run_note; by case_decide).
    unfold tslot, live, alive. cbn. rewrite Hr, Hpar. naive_solver.
Qed.

Lemma userinit_table k k' :
  userinit k = Ok k' →
  ∃ np p0 p', one_slot_changed np p0 p' k k' ∧ p_state p0 = UNUSED ∧
    k_initproc k' = Some np ∧ p_state p' = RUNNABLE ∧ p_parent p' = p_parent p0.
Proof.
  unfold userinit. intros Hu. apply bind_Ok in Hu as ([[np|] k1] & Ha & Hu); [|done].
  apply bind_Ok in Hu as ([[pg|] e] & _ & Hu); [|done].
  apply bind_Ok in Hu as (e1 & _ & Hu). apply bind_Ok in Hu as ([oip e2] & _ & Hu).
  injection Hu as <-. destruct (allocproc_Some _ _ _ Ha) as
    (p0 & n & Hp0 & Hst & Hn1 & _ & _ & _ & _ & _ & _ & _ & _ & _ & Hoth & _ & _ & _ & Hpar).
  eexists np, p0, _. split_and!; [refine (conj Hp0 (conj _ _))|done..| |].
  - cbn. by rewrite list_lookup_alter_eq, Hn1.
  - intros j Hj. cbn. by rewrite list_lookup_alter_ne, Hoth.
  - done.
  - done.
Qed.

Lemma tree_init ncpu e k : userinit (kst_init ncpu e) = Ok k → tree_inv k.
Proof.
  intros (np & p0 & p' & (Hp0 & Hp' & Hoth) & Hst & Hi & Hr & Hpar)%userinit_table.
  assert (∀ j p, k_ptable k !! j = Some p → p_parent p = None ∧ p_state p ≠ SLEEPING) as Hall.
  { intros j p Hp. destruct (decide (j = np)) as [->|Hj].
    - rewrite Hp' in Hp. injection Hp as <-. apply lookup_replicate in Hp0 as [-> _].
      split; [done|congruence].
    - rewrite Hoth in Hp by done. by apply lookup_replicate in Hp as [-> _]. }
  split.
  - exists np, p'. destruct (Hall _ _ Hp') as [? _]. unfold alive. split_and!; auto.
  - intros i p c [Hn _]%Hall Hc. congruence.
  - intros i p c [_ Hn]%Hall Hs. congruence.
Qed.

Lemma tree_reachable ncpu e k : reachable pol ncpu e k → tree_inv k.
Proof.
  intros (k0 & Hu & Hsteps).
  assert (kinv k0) as Hk0 by (apply (reachable_inv pol ncpu e); exists k0; by split).
  enough (kinv k ∧ tree_inv k) as [_ ?] by done.
  eapply (rtc_preserve (kstep pol) (λ k, kinv k ∧ tree_inv k)); [|exact Hsteps|].
  - intros s s' Hs [? ?]. split; [by eapply kinv_step|by eapply tree_step].
  - split; [done|by eapply tree_init].
Qed.
End tree.
