(* ===== verification/TrapSpec.v ===== *)
(** * The timer interrupt end to end *)

From S2P Require Import Prelude.
From S2P Require Import RunQueue.
From S2P Require Import ProcTable.
From S2P Require Import Proc.
From S2P Require Import Mlfq.
From S2P Require Import Sched.
From S2P Require Import Trap.
From S2P Require Import ProcInv.
From S2P Require Import MlfqSpec.
From S2P Require Import ProcSpec.
From S2P Require Import System.

Local Open Scope Z_scope.

(** A process whose waiting time is reset has waited no time. *)
Lemma waited_reset ticks p :
  waited ticks (p <| p_aging_time := i32 (ticks - (p_ctime p + p_rtime p)) |>) = 0.
Proof.
  unfold waited. cbn. unfold i32 at 1 2.
  replace (ticks - p_ctime p - p_rtime p) with (ticks - (p_ctime p + p_rtime p)) by lia.
  set (x := ticks - _).
  replace (x - ((x + 2 ^ 31) mod 2 ^ 32 - 2 ^ 31) + 2 ^ 31)
    with ((x + 2 ^ 31) - (x + 2 ^ 31) mod 2 ^ 32 + 2 ^ 31) by lia.
  pose proof (Z.div_mod (x + 2 ^ 31) (2 ^ 32)) as Hdm.
  replace (x + 2 ^ 31 - (x + 2 ^ 31) mod 2 ^ 32 + 2 ^ 31)
    with (2 ^ 31 + (x + 2 ^ 31) / 2 ^ 32 * 2 ^ 32) by lia.
  rewrite Z_mod_plus_full. done.
Qed.

Section timer.
Context {E : Type} `{KEnv E}.
Implicit Types (k : kst E) (c cpu : nat) (tf : trapframe).

(** The accounting of one tick for the running process. *)
Definition ticked (no : nat) (t : Z) (p p' : proc) : Prop :=
  p_state p' = p_state p ∧ p_qno p' = p_qno p ∧ p_killed p' = p_killed p ∧
  p_rrtime p' = <[no := i32 (t + 1)]> (p_rrtime p) ∧
  p_rtime p' = i32 (p_rtime p + 1).

Lemma charge_tick_running (no : nat) t p :
  p_state p = RUNNING → p_qno p = Z.of_nat no → p_rrtime p !! no = Some t →
  (no < length (st_ticks (p_stat p)))%nat →
  ∃ p', charge_tick p = Ok p' ∧ ticked no t p p'.
Proof.
  intros Hr Hq Ht Hs. unfold charge_tick. rewrite Hr, Hq, (aget_nat _ _ _ Ht). cbn [mbind outcome_bind].
  rewrite aset_nat by (by eapply lookup_lt_Some). cbn [mbind outcome_bind].
  destruct (lookup_lt_is_Some_2 _ _ Hs) as [s Hs']. rewrite (aget_nat _ _ _ Hs').
  cbn [mbind outcome_bind]. rewrite aset_nat by done. cbn [mbind outcome_bind].
  eexists. split; [done|]. unfold ticked. cbn. by rewrite Hr, Hq.
Qed.

(** One tick of CPU 0 while [c] runs at level [no] of the MLFQ build. *)
Lemma timer_tick_running c p (no : nat) t k l0 :
  kinv k → k_ptable k !! c = Some p → p_state p = RUNNING → p_qno p = Z.of_nat no →
  p_rrtime p !! no = Some t →
  levels k !! 0%nat = Some l0 → (length l0 + NPROC ≤ QSIZE)%nat →
  ∃ p' k', timer_tick MLFQ (Some c) k = Ok k' ∧ kinv k' ∧ k_cpu k' = k_cpu k ∧
    k_ptable k' !! c = Some p' ∧ ticked no t p p'.
Proof.
  intros Hk Hp Hr Hq Ht Hl0 Hroom.
  set (k1 := wakeup ChTicks (k <| k_ticks := u32 (k_ticks k + 1) |>)).
  assert (kkeep k (graph k1)) as Hkk.
  { etrans; [|apply graph_keep]. etrans; [|apply wakeup1_keep]. by apply kkeep_same. }
  assert (k_ptable (graph k1) !! c = Some p ∧ k_cpu (graph k1) = k_cpu k) as [Hp1 Hcpu1].
  { assert (k_ptable k1 !! c = Some p) as Hp1.
    { unfold k1, wakeup. rewrite wakeup1_lookup. cbn. rewrite Hp. cbn. unfold wake_proc.
      rewrite decide_False; [done|]. intros [? _]. congruence. }
    unfold graph. by case_decide. }
  destruct (aging_spec (graph k1) l0) as (k2 & Ha & Hk2 & Htk & Htab).
  { by eapply kinv_keep. }
  { unfold levels in *. destruct Hkk as (_ & -> & _). done. }
  { done. }
  assert (k_ptable k2 !! c = Some p) as Hp2.
  { rewrite Htab, list_lookup_fmap, Hp1. cbn. unfold aged. rewrite decide_False; [done|].
    intros [? _]. congruence. }
  destruct (inv_arrays _ Hk c p Hp) as [_ Hlen].
  destruct (charge_tick_running no t p) as (p' & Hch & Htick); try done.
  { rewrite Hlen. pose proof (inv_queued _ Hk c p Hp) as Hin. unfold live in Hin.
    destruct Hin as (? & _); [congruence|]. lia. }
  exists p', (updp (λ _, p') c k2). split_and!; [| | | |done].
  - unfold timer_tick. fold k1. rewrite decide_True by done. rewrite Ha. cbn [mbind outcome_bind].
    rewrite (proj2 (getp_Ok _ _ _) Hp2). cbn [mbind outcome_bind]. by rewrite Hch.
  - eapply kinv_keep; [apply kkeep_updp|done]. intros q Hq'. rewrite Hp2 in Hq'. injection Hq' as <-.
    by apply charge_tick_keep.
  - cbn. destruct (skeep_age_slots _ _ _ Ha) as [-> _]. done.
  - by rewrite lookup_updp, decide_True, Hp2.
Qed.

(** ** From the interrupt to the decision *)

Lemma mlfq_timer_false c k k' : mlfq_timer c k = Ok (false, k') → k' = k.
Proof.
  unfold mlfq_timer. intros Hm. apply bind_Ok in Hm as (p & _ & Hm).
  case_decide; [by injection Hm as <-|]. apply bind_Ok in Hm as (t & _ & Hm).
  case_decide; [by injection Hm as <-|].
  repeat match type of Hm with (if ?b then _ else _) = _ => destruct b end;
    apply bind_Ok in Hm as (k1 & _ & Heq); by simplify_eq.
Qed.

Context (intr : device → kst E → outcome (kst E)).

Lemma trap_irq_timer cpu c p tf k k1 y k2 :
  is_timer tf = true → trap_dispatch MLFQ intr cpu tf k = Ok k1 →
  myproc k1 cpu = Some c → k_ptable k1 !! c = Some p → p_state p = RUNNING → p_killed p = 0 →
  mlfq_timer c k1 = Ok (y, k2) →
  trap_irq MLFQ intr cpu tf k =
    Ok (if y then (TYield, yield_enter c k2) else (TReturn, k2)).
Proof.
  intros Htf Hd Hc Hp Hr Hkl Hm. unfold trap_irq. rewrite Hd. cbn [mbind outcome_bind].
  assert (killed_at k1 (Some c) = Ok false) as Hk1.
  { unfold killed_at. rewrite (proj2 (getp_Ok _ _ _) Hp). cbn. by rewrite Hkl. }
  rewrite Hc, Hk1. cbn [mbind outcome_bind andb].
  unfold trap_policy. rewrite (proj2 (getp_Ok _ _ _) Hp). cbn [mbind outcome_bind].
  rewrite Htf, (bool_decide_eq_true_2 _ Hr). cbn [andb]. rewrite Hm. cbn [mbind outcome_bind].
  destruct y.
  - destruct (skeep_mlfq_timer _ _ _ _ Hm) as [Hcpu _].
    unfold myproc in *. by rewrite Hcpu, Hc.
  - apply mlfq_timer_false in Hm as ->. unfold trap_resume. rewrite Hc, Hk1. done.
Qed.

Lemma trap_dispatch_timer cpu tf k :
  is_timer tf = true →
  trap_dispatch MLFQ intr cpu tf k =
    if decide (cpu = 0%nat) then timer_tick MLFQ (myproc k cpu) k else Ok k.
Proof. unfold is_timer, trap_dispatch. by intros ->. Qed.
End timer.
