(* ===== verification/Exec.v ===== *)
(** * Running the system: an executable scheduler of steps

    [kexec] performs one step of [System.kstep] when it is enabled; a script
    is a list of steps.  [ample] is an environment in which memory, files and
    inodes never run out.  Together they compute concrete reachable states. *)

From S2P Require Import Prelude.
From S2P Require Import RunQueue.
From S2P Require Import ProcTable.
From S2P Require Import Proc.
From S2P Require Import Mlfq.
From S2P Require Import Sched.
From S2P Require Import Trap.
From S2P Require Import ProcInv.
From S2P Require Import MlfqSpec.
From S2P Require Import SchedSpec.
From S2P Require Import ProcSpec.
From S2P Require Import System.

Local Open Scope Z_scope.

(** Pages are handed out upwards from the end of the kernel. *)
Definition ample : KEnv Z := {|
  e_kalloc := λ e, Ok (Some e, e + PGSIZE);
  e_kfree := λ _ e, Ok e;
  e_setupkvm := λ e, Ok (Some e, e + PGSIZE);
  e_inituvm := λ _ e, Ok e;
  e_copyuvm := λ _ _ e, Ok (Some e, e + PGSIZE);
  e_allocuvm := λ _ _ n e, Ok (n, e);
  e_deallocuvm := λ _ _ n e, Ok (n, e);
  e_freevm := λ _ e, Ok e;
  e_filedup := λ _ e, Ok e;
  e_fileclose := λ _ e, Ok e;
  e_idup := λ _ e, Ok e;
  e_iput := λ _ e, Ok e;
  e_namei_root := λ e, Ok (Some 1%nat, e);
  e_tf_junk := λ _, tf_zero;
  e_forkret := 2148532224
|}.
Definition ample_start : Z := 2148532224 + PGSIZE.

Section exec.
Context {E : Type} `{KEnv E} (pol : policy).
Implicit Types (k : kst E).

Inductive op :=
| OFork (cpu : nat)
| OWait (cpu : nat)
| OExit (cpu : nat)
| OYield (cpu : nat)
| OSleep (cpu : nat) (ch : channel)
| OWoken (cpu : nat)
| OTick
| OMlfq (cpu : nat)
| OChoose (cpu i : nat).

(** The process that executes on [cpu]. *)
Definition on_cpu_dec k (cpu : nat) : option nat :=
  c ← myproc k cpu;
  if slot_is (λ p, bool_decide (p_state p = RUNNING)) k c then Some c else None.

Definition back (cpu : nat) k : kst E := set_cpu cpu None k.

Definition of_outcome {A} (m : outcome A) : option A :=
  match m with Ok a => Some a | _ => None end.

(** The first runnable entry of the levels [ls], the first of which is [j]. *)
Fixpoint pick_levels k (j : nat) (ls : list (list nat)) : option (nat * nat * nat) :=
  match ls with
  | [] => None
  | l :: ls' =>
      match list_find (λ x, runnable_at k x) l with
      | Some (n, i) => Some (j, n, i)
      | None => pick_levels k (S j) ls'
      end
  end.

Definition choose_dec k i : option (kst E) :=
  match pol with
  | DEFAULT | PBS => if slot_is is_runnable k i then Some k else None
  | FCFS => if decide (fcfs_pick (k_ptable k) = Some i) then Some k else None
  | MLFQ =>
      '(j, n, i') ← pick_levels k 0 (levels k);
      r ← of_outcome (getq k (Z.of_nat j));
      if decide (i' = i) then Some (setq (Z.of_nat j) (r <| q_beg := Z.of_nat n |>) k) else None
  end.

Definition kexec (o : op) k : option (kst E) :=
  match o with
  | OFork cpu =>
      c ← on_cpu_dec k cpu;
      if decide (k_nextpid k < INT_MAX) then snd <$> of_outcome (fork pol c k) else None
  | OWait cpu =>
      c ← on_cpu_dec k cpu;
      '(r, k1) ← of_outcome (wait_scan c k);
      Some (match r with WSleep => back cpu k1 | _ => k1 end)
  | OExit cpu => c ← on_cpu_dec k cpu; back cpu <$> of_outcome (exit c k)
  | OYield cpu => c ← on_cpu_dec k cpu; Some (back cpu (yield_enter c k))
  | OSleep cpu ch =>
      c ← on_cpu_dec k cpu;
      match ch with ChProc _ => None | _ => Some (back cpu (sleep_enter c ch k)) end
  | OWoken cpu => c ← on_cpu_dec k cpu; Some (sleep_exit c k)
  | OTick => of_outcome (timer_tick pol (myproc k 0) k)
  | OMlfq cpu =>
      c ← on_cpu_dec k cpu;
      if decide (pol = MLFQ) then
        '(y, k1) ← of_outcome (mlfq_timer c k);
        Some (if y : bool then back cpu (yield_enter c k1) else k1)
      else None
  | OChoose cpu i =>
      match k_cpu k !! cpu with
      | Some None =>
          k1 ← choose_dec k i; of_outcome (dispatch (λ _, Ok) cpu (run_note pol) i k1)
      | _ => None
      end
  end.

Fixpoint kexecs (os : list op) k : option (kst E) :=
  match os with
  | [] => Some k
  | o :: os' => k1 ← kexec o k; kexecs os' k1
  end.

Lemma on_cpu_dec_spec k cpu c : on_cpu_dec k cpu = Some c → on_cpu k cpu c.
Proof.
  unfold on_cpu_dec, on_cpu, running, slot_is. intros Hc.
  destruct (myproc k cpu) as [c'|]; [|done]. cbn in Hc.
  destruct (k_ptable k !! c') as [p|] eqn:Hp; [|done].
  destruct (bool_decide (p_state p = RUNNING)) eqn:Hb; [|done]. injection Hc as <-.
  apply bool_decide_eq_true in Hb. eauto.
Qed.

Lemma of_outcome_Some {A} (m : outcome A) a : of_outcome m = Some a → m = Ok a.
Proof. by destruct m; cbn; intros [= ->]. Qed.

Lemma pick_levels_spec k (l1 ls : list (list nat)) j n i :
  levels k = l1 ++ ls → (∀ l x, l ∈ l1 → x ∈ l → runnable_at k x = false) →
  pick_levels k (length l1) ls = Some (j, n, i) → picks k j n i.
Proof.
  revert l1. induction ls as [|l ls IH]; intros l1 Hlv Hno Hp; [done|]. cbn in Hp.
  destruct (list_find _ l) as [[n' i']|] eqn:Hf.
  - injection Hp as <- <- <-. apply list_find_Some in Hf as (Hn & Hi & Hbef).
    exists l. split_and!; [by rewrite Hlv, list_lookup_middle|done|by apply Is_true_true|..].
    + intros m x Hm Hx. apply Is_true_false. by eapply Hbef.
    + intros j' l' x Hj Hl' Hx. eapply Hno; [|exact Hx]. rewrite Hlv, lookup_app_l in Hl' by done.
      by eapply list_elem_of_lookup_2.
  - apply (IH (l1 ++ [l])).
    + by rewrite <-app_assoc.
    + intros l' x [Hl'| ->%list_elem_of_singleton]%elem_of_app Hx; [by eapply Hno|].
      apply list_find_None in Hf. rewrite Forall_forall in Hf. apply Is_true_false. auto.
    + by rewrite length_app, Nat.add_1_r.
Qed.

Lemma choose_dec_spec k i k1 : choose_dec k i = Some k1 → may_choose pol k i k1.
Proof.
  unfold choose_dec, may_choose. destruct pol; intros Hc.
  1,3: by destruct (slot_is is_runnable k i); simplify_eq.
  - by case_decide; simplify_eq.
  - apply bind_Some in Hc as ([[j n] i'] & Hp & Hc).
    apply bind_Some in Hc as (r & Hr%of_outcome_Some & Hc). case_decide; [subst|done].
    injection Hc as <-. exists j, n, r. split_and!; [|done|done].
    apply (pick_levels_spec k [] (levels k)); [done|set_solver|done].
Qed.

Lemma kexec_sound o k k' : kexec o k = Some k' → kstep pol k k'.
Proof.
  intros Hx. destruct o as [cpu|cpu|cpu|cpu|cpu ch|cpu| |cpu|cpu i]; cbn [kexec] in Hx.
  7: { apply of_outcome_Some in Hx. by apply step_tick. }
  8: { destruct (k_cpu k !! cpu) as [[?|]|] eqn:Hcpu; try done.
       apply bind_Some in Hx as (k1 & Hc%choose_dec_spec & Hx%of_outcome_Some).
       eapply step_choose; [by rewrite Hcpu|intros _; unfold myproc; by rewrite Hcpu|done|done]. }
  all: apply bind_Some in Hx as (c & Hc%on_cpu_dec_spec & Hx).
  - case_decide; [|done]. apply fmap_Some in Hx as ([r k1] & Hf%of_outcome_Some & ->).
    by eapply step_fork.
  - apply bind_Some in Hx as ([r k1] & Hw%of_outcome_Some & Hx).
    destruct r; injection Hx as <-; [by eapply step_wait..|].
    eapply step_wait_sleep; [done|done|by left].
  - apply fmap_Some in Hx as (k1 & Hw%of_outcome_Some & ->).
    eapply step_exit; [done|done|by left].
  - injection Hx as <-. eapply step_yield; [done|by left].
  - assert (∀ i, ch ≠ ChProc i) as Hch by (intros i ->; done).
    eapply (step_sleep _ _ cpu c ch); [done|done|]. left. by destruct ch; simplify_eq.
  - injection Hx as <-. by eapply step_sleep_exit.
  - case_decide; [|done]. apply bind_Some in Hx as ([[] k1] & Hm%of_outcome_Some & Hx);
      injection Hx as <-; [|by eapply step_mlfq].
    eapply step_mlfq_yield; [done|done|done|by left].
Qed.

Lemma kexecs_sound os k k' : kexecs os k = Some k' → rtc (kstep pol) k k'.
Proof.
  revert k. induction os as [|o os IH]; intros k Hx; [by injection Hx as <-|].
  apply bind_Some in Hx as (k1 & Hk1%kexec_sound & Hx). eapply rtc_l; [done|by apply IH].
Qed.

Definition run (ncpu : nat) (e : E) (os : list op) : option (kst E) :=
  k0 ← of_outcome (userinit (kst_init ncpu e)); kexecs os k0.

Lemma run_reachable ncpu e os k : run ncpu e os = Some k → reachable pol ncpu e k.
Proof.
  intros Hr. apply bind_Some in Hr as (k0 & Hk0%of_outcome_Some & Hx%kexecs_sound).
  by exists k0.
Qed.
End exec.

(** [initproc] creates a child that exits at once, and collects it. *)
Definition spawn_and_reap : list op :=
  [OFork 0; OWait 0; OChoose 0 1; OExit 0; OChoose 0 0; OWoken 0; OWait 0].
