(* ===== verification/ProcTheorems.v ===== *)
(** * The process layer: correctness theorems

    The statements that make the scheduler and the life cycle of processes
    correct, each with a concrete instance.  The instances run the system on
    the environment [ample] of [Exec]. *)

From S2P Require Import Prelude.
From S2P Require Import RunQueue.
From S2P Require Import ProcTable.
From S2P Require Import Proc.
From S2P Require Import Mlfq.
From S2P Require Import Sched.
From S2P Require Import Trap.
From S2P Require Import ProcInv.
From S2P Require Import MlfqSpec.
From S2P Require Import SchedSpec.
From S2P Require Import ProcSpec.
From S2P Require Import System.
From S2P Require Import SystemSpec.
From S2P Require Import ProcTree.
From S2P Require Import TrapSpec.
From S2P Require Import Exec.

Local Open Scope Z_scope.

(** ** Concrete states *)

#[local] Existing Instance ample.

Definition state_after (pol : policy) (ncpu : nat) (os : list op) : kst Z :=
  match run pol ncpu ample_start os with Some k => k | None => kst_init ncpu 0 end.

Lemma state_after_reachable pol ncpu os :
  (if run pol ncpu ample_start os is Some _ then true else false) = true →
  reachable pol ncpu ample_start (state_after pol ncpu os).
Proof.
  unfold state_after. destruct (run pol ncpu ample_start os) as [k|] eqn:Hr; [|done].
  intros _. by eapply run_reachable.
Qed.

(** Two CPUs; [initproc] and two children, one of them running beside it. *)
Definition two_children : list op := [OChoose 0 0; OFork 0; OFork 0; OChoose 1 1].

Section reachable.
Context {E : Type} `{KEnv E} (pol : policy).


(** C2. In every reachable state a process that has a parent is live and its
    parent has been started and has not exited, [initproc] never exits, and a
    process that sleeps in [wait] has no zombie child, so the wakeup that
    [exit] sends is never lost. *)
Theorem wait_misses_no_exit ncpu e (k : kst E) :
  reachable pol ncpu e k → tree_inv k.
Proof. apply tree_reachable. Qed.

(** C3. Without MLFQ nothing ever leaves level 0: after 1000 pids have been
    handed out, any [fork] that finds a free slot writes one cell past the
    array [q0], on a machine that may have a single live process. *)
Theorem level0_overflows ncpu e (k : kst E) c i p :
  reachable pol ncpu e k → pol ≠ MLFQ → k_nextpid k = 1001 →
  k_ptable k !! i = Some p → p_state p = UNUSED →
  fork pol c k = Fault "array write out of bounds".
Proof.
  intros Hr Hpol Hn Hp Hs. destruct (reachable_inv _ _ _ _ Hr) as [Hk _].
  destruct (leaked_reachable _ _ _ _ Hpol Hr) as (l0 & Hl0 & Hlen).
  unfold fork. erewrite allocproc_full; [done|done|exact Hl0|unfold QSIZE; lia|exact Hp|done].
Qed.
End reachable.


(** [initproc] waits for a child that has not exited. *)
Lemma wait_misses_no_exit_witness :
  tree_inv (state_after MLFQ 1 [OChoose 0 0; OFork 0; OWait 0; OChoose 0 1]).
Proof.
  apply (wait_misses_no_exit MLFQ 1 ample_start).
  apply state_after_reachable. vm_compute. reflexivity.
Defined.

Definition thousand_pids : list op := OChoose 0 0 :: concat (replicate 999 spawn_and_reap).

Lemma level0_overflows_witness :
  fork DEFAULT 0 (state_after DEFAULT 1 thousand_pids) =
  Fault "array write out of bounds".
Proof.
  apply (level0_overflows DEFAULT 1 ample_start _ 0 1
    (default proc_zero (k_ptable (state_after DEFAULT 1 thousand_pids) !! 1%nat))).
  - apply state_after_reachable. vm_compute. reflexivity.
  - discriminate.
  - vm_compute. reflexivity.
  - vm_compute. reflexivity.
  - vm_compute. reflexivity.
Defined.

(** ** The MLFQ timer *)

Section mlfq.
Context {E : Type} `{KEnv E}.
Context (intr : device → kst E → outcome (kst E)).
Implicit Types (k : kst E) (c cpu : nat) (tf : trapframe).

(** [c] is on the queue of level [q], in state [st], with [t] ticks there. *)
Definition queued_at k c (q : nat) (t : Z) (st : procstate) : Prop :=
  ∃ p l, k_ptable k !! c = Some p ∧ p_qno p = Z.of_nat q ∧ p_rrtime p !! q = Some t ∧
    p_state p = st ∧ levels k !! q = Some l ∧ c ∈ l.

Lemma queued_at_intro k c p (q : nat) t :
  kinv k → k_ptable k !! c = Some p → live p → p_qno p = Z.of_nat q → p_rrtime p !! q = Some t →
  queued_at k c q t (p_state p).
Proof.
  intros Hk Hp Hl Hq Ht. destruct (inv_queued _ Hk c p Hp Hl) as (_ & l & Hlv & Hc).
  rewrite Hq, Nat2Z.id in Hlv. exists p, l. done.
Qed.

Lemma queued_at_yield k c q t :
  kinv k → queued_at k c q t RUNNING →
  kinv (yield_enter c k) ∧ queued_at (yield_enter c k) c q t RUNNABLE.
Proof.
  intros Hk (p & l & Hp & Hq & Ht & Hs & Hl & Hc). split.
  - eapply kinv_keep; [|done]. eapply yield_enter_keep; [done|]. unfold live. congruence.
  - exists (p <| p_state := RUNNABLE |>), l. unfold yield_enter.
    rewrite lookup_updp, decide_True, Hp, levels_updp by done. done.
Qed.

Lemma requeued_queued f c p (q : nat) t k k' :
  kinv k' → k_ptable k !! c = Some p → requeued f c k k' →
  p_state (f p) = RUNNING → p_qno (f p) = Z.of_nat q → p_rrtime (f p) !! q = Some t →
  queued_at k' c q t RUNNING.
Proof.
  intros Hk' Hp (qs & -> & _) Hr Hq Ht. rewrite <-Hr.
  apply queued_at_intro; [done| |unfold live; congruence|done|done].
  cbn. by rewrite list_lookup_alter_eq, Hp.
Qed.

End mlfq.

Definition timer_frame : trapframe := tf_zero <| tf_trapno := T_IRQ0 + IRQ_TIMER |>.
Definition no_device : device → kst Z → outcome (kst Z) := λ _, Ok.
Definition slot (k : kst Z) (i : nat) : proc := default proc_zero (k_ptable k !! i).
Definition level (k : kst Z) (j : nat) : list nat := default [] (levels k !! j).


Section mlfq_limits.
Context {E : Type} `{KEnv E}.
Context (intr : device → kst E → outcome (kst E)).
Implicit Types (k : kst E) (c cpu : nat) (tf : trapframe).

(** C5. Ticks are charged on CPU 0 only, and a process is demoted or
    preempted only once it has been charged: on any other CPU the timer
    interrupt changes nothing for a process that entered its level there, so
    it keeps the CPU for as long as it likes. *)
Theorem mlfq_other_cpu_never_preempts cpu c p (no : nat) tf k :
  is_timer tf = true → cpu ≠ 0%nat → myproc k cpu = Some c → k_ptable k !! c = Some p →
  p_state p = RUNNING → p_killed p = 0 → p_qno p = Z.of_nat no →
  p_rrtime p !! no = Some 0 →
  trap_irq MLFQ intr cpu tf k = Ok (TReturn, k).
Proof.
  intros Htf Hcpu Hc Hp Hr Hkl Hq Ht.
  rewrite (trap_irq_timer intr cpu c p tf k k false k); try done.
  - by rewrite trap_dispatch_timer, decide_False.
  - unfold mlfq_timer. rewrite (proj2 (getp_Ok _ _ _) Hp). cbn [mbind outcome_bind].
    rewrite decide_False by auto. rewrite Hq, (aget_nat _ _ _ Ht). done.
Qed.

End mlfq_limits.

(** A child that CPU 1 has just picked up. *)
Lemma mlfq_other_cpu_never_preempts_witness :
  let k := state_after MLFQ 2 [OChoose 0 0; OFork 0; OChoose 1 1] in
  trap_irq MLFQ no_device 1 timer_frame k = Ok (TReturn, k).
Proof.
  set (k := state_after MLFQ 2 [OChoose 0 0; OFork 0; OChoose 1 1]).
  apply (mlfq_other_cpu_never_preempts no_device 1 1 (slot k 1) 0 timer_frame k).
  all: vm_compute; first [reflexivity | discriminate].
Defined.

Lemma kinv_at_ticks n (k : kst Z) : kinv k → kinv (k <| k_ticks := n |>).
Proof. apply kinv_keep. by apply kkeep_same. Qed.

(** [initproc], demoted to level 1 at tick 1, still waits there at tick 60. *)
Definition starved_init : kst Z :=
  (state_after MLFQ 1 [OChoose 0 0; OTick; OMlfq 0]) <| k_ticks := 60 |>.


(** ** Which process runs next *)

Section schedulers.
Context {E : Type} `{KEnv E} (swtch : nat → kst E → outcome (kst E)).
Implicit Types (k : kst E) (cpu i : nat).

(** C7. If a process is runnable, an MLFQ turn dispatches one: the first
    runnable entry of the first level that has one.  No runnable process is
    at a higher level than the one it was found on. *)
Theorem mlfq_turn_highest cpu i0 p0 k :
  kinv k → k_ptable k !! i0 = Some p0 → p_state p0 = RUNNABLE →
  ∃ j n i, picks k j n i ∧ mlfq_turn swtch cpu k = mlfq_choice swtch cpu j n i k ∧
    ∀ i' p, k_ptable k !! i' = Some p → p_state p = RUNNABLE → Z.of_nat j ≤ p_qno p.
Proof.
  intros Hk Hp0 Hr0. destruct (mlfq_turn_cases swtch cpu k Hk) as [(j & n & i & Hpk & Ht)|[Hidle _]].
  - exists j, n, i. split_and!; [done|done|]. intros i' p Hp Hr.
    destruct (inv_queued _ Hk i' p Hp) as (Hq & l & Hl & Hi); [unfold live; congruence|].
    destruct Hpk as (_ & _ & _ & _ & _ & Hlow). apply Z.nlt_ge. intros Hlt.
    assert (runnable_at k i' = true) as Hrun by (apply runnable_at_true; eauto).
    rewrite (Hlow (Z.to_nat (p_qno p)) l i') in Hrun; [done|lia|done|done].
  - by destruct (Hidle i0 p0).
Qed.

(** C8. An FCFS turn dispatches the runnable process with the least creation
    time, the first of the table among equals, and does nothing exactly when
    no process is runnable. *)
Theorem fcfs_turn_earliest cpu k :
  (∃ i, earliest (k_ptable k) i ∧
     fcfs_turn swtch cpu k =
       k1 ← dispatch swtch cpu id i k; Ok ([i], set_cpu cpu None k1)) ∨
  (idle k ∧ fcfs_turn swtch cpu k = Ok ([], k)).
Proof.
  unfold fcfs_turn. pose proof (fcfs_pick_spec (k_ptable k)) as Hs.
  destruct (fcfs_pick (k_ptable k)) as [i|]; [left; by exists i|by right].
Qed.



(** C11. Priorities above 101 break the round robin: the second search of the
    loop starts at 101, so a turn whose least priority value is larger gives
    the CPU to the first such process of the table only and stops; and above
    200, where the first search starts, it dispatches nothing at all. *)
Theorem pbs_turn_starves cpu k tr k' :
  length (k_ptable k) = NPROC → pbs_turn swtch cpu k = Ok (tr, k') →
  (101 < min_priority 200 (k_ptable k) → (length tr ≤ 1)%nat) ∧
  ((∀ i p, k_ptable k !! i = Some p → p_state p = RUNNABLE → 200 < p_priority p) →
   tr = [] ∧ k' = k).
Proof.
  intros Hlen Ht. split.
  - intros Hm. destruct (pbs_slots_first _ _ _ _ _ _ _ Hm Ht) as [->|(i & -> & _)]; cbn; lia.
  - intros Hall. destruct (min_priority_spec 200 (k_ptable k)) as (Hle & _ & _).
    assert (pbs_turn swtch cpu k = Ok ([], k)) as Hn; [|rewrite Hn in Ht; by injection Ht as <- <-].
    apply pbs_slots_none.
    + intros i Hi. apply lookup_lt_is_Some_2. rewrite Hlen. apply elem_of_seq in Hi. lia.
    + intros i p Hp Hr. specialize (Hall i p Hp Hr). lia.
Qed.
End schedulers.

(** A process that yields as soon as it runs. *)
Definition yields_at_once (i : nat) (k : kst Z) : outcome (kst Z) := Ok (yield_enter i k).

Lemma yields_isolated : isolated yields_at_once.
Proof.
  intros i k k' [= <-] j Hj. unfold yield_enter. rewrite lookup_updp. by rewrite decide_False.
Qed.

Lemma yields_keeps_priority : keeps_priority yields_at_once.
Proof.
  intros i k k' p p' [= <-] Hp Hp'. unfold yield_enter in Hp'.
  rewrite lookup_updp, decide_True, Hp in Hp' by done. injection Hp' as <-. cbn. lia.
Qed.

Lemma mlfq_turn_highest_witness :
  let k := state_after MLFQ 2 [OChoose 0 0; OFork 0; OFork 0] in
  ∃ j n i, picks k j n i ∧ mlfq_turn yields_at_once 1 k = mlfq_choice yields_at_once 1 j n i k.
Proof.
  set (k := state_after MLFQ 2 [OChoose 0 0; OFork 0; OFork 0]).
  destruct (mlfq_turn_highest yields_at_once 1 1 (slot k 1) k) as (j & n & i & Hp & Ht & _).
  - apply (reachable_inv MLFQ 2 ample_start), state_after_reachable. vm_compute. reflexivity.
  - vm_compute. reflexivity.
  - vm_compute. reflexivity.
  - exact (ex_intro _ j (ex_intro _ n (ex_intro _ i (conj Hp Ht)))).
Defined.

(** The turn of an executable switch, as its trace. *)
Definition trace (m : outcome (list nat * kst Z)) : list nat :=
  match m with Ok (tr, _) => tr | _ => [] end.
Definition final (m : outcome (list nat * kst Z)) : kst Z :=
  match m with Ok (_, k) => k | _ => kst_init 0 0 end.
Lemma trace_final m :
  (if m is Ok _ then true else false) = true → m = Ok (trace m, final m).
Proof. by destruct m as [[tr k]| |]. Qed.



(** The child with pid 402 gets priority 201 and never runs, on an idle CPU. *)
Definition pids_401 : list op :=
  OChoose 0 0 :: concat (replicate 400 spawn_and_reap) ++ [OFork 0; OWait 0].

Lemma pbs_turn_starves_witness :
  let k := state_after PBS 1 pids_401 in
  p_state (slot k 1) = RUNNABLE ∧ p_pid (slot k 1) = 402 ∧ trace (pbs_turn yields_at_once 0 k) = [].
Proof.
  set (k := state_after PBS 1 pids_401).
  assert (pbs_turn yields_at_once 0 k = Ok (trace (pbs_turn yields_at_once 0 k), final (pbs_turn yields_at_once 0 k))) as Ht.
  { apply trace_final. vm_compute. reflexivity. }
  split; [vm_compute; reflexivity|]. split; [vm_compute; reflexivity|].
  apply (pbs_turn_starves yields_at_once 0 k _ _ ltac:(vm_compute; reflexivity) Ht).
  intros i p Hp Hr.
  assert (forallb (λ q, negb (is_runnable q) || (200 <? p_priority q)) (k_ptable k) = true)
    as Hfb by (vm_compute; reflexivity).
  rewrite forallb_forall in Hfb. apply Z.ltb_lt.
  pose proof (Hfb p (proj1 (list_elem_of_In _ _) (list_elem_of_lookup_2 _ _ _ Hp))) as Hb.
  rewrite (proj2 (is_runnable_true p) Hr) in Hb. exact Hb.
Defined.

(** ** The life of a process *)

Section life.
Context {E : Type} `{KEnv E} (pol : policy).
Implicit Types (k : kst E) (c i : nat).

(** C12. [fork] either fails and changes no live process, or fills one free
    slot with a runnable child that has a fresh pid, the caller's memory
    size, descriptors, directory and trap frame with [eax] cleared, and
    level 0; no other slot changes, and the invariant is kept. *)
Theorem fork_makes_child c cur k r k' :
  kinv k → k_nextpid k < INT_MAX → k_ptable k !! c = Some cur → live cur →
  fork pol c k = Ok (r, k') →
  kinv k' ∧
  ((r = -1 ∧ ∀ i p, k_ptable k' !! i = Some p → live p → k_ptable k !! i = Some p) ∨
   (r = k_nextpid k ∧ ∃ np p0 pg e1 e2 child,
      k_ptable k !! np = Some p0 ∧ p_state p0 = UNUSED ∧
      e_copyuvm (p_pgdir cur) (p_sz cur) e1 = Ok (Some pg, e2) ∧
      k_ptable k' !! np = Some child ∧
      is_child_of pol (k_nextpid k) pg c cur (merge_files (p_ofile cur) (p_ofile p0)) child ∧
      (∀ j, j ≠ np → k_ptable k' !! j = k_ptable k !! j) ∧
      ∀ i p, k_ptable k !! i = Some p → p_pid p ≠ r)).
Proof.
  intros Hk Hn Hc Hl Hf. split; [by eapply kinv_fork|].
  destruct (fork_spec _ _ _ _ _ _ Hk Hn Hc Hl Hf) as [Hfail|(-> & np & p0 & pg & e1 & e2 & child & Hok)];
    [by left|right].
  split; [done|]. exists np, p0, pg, e1, e2, child.
  destruct Hok as (? & ? & ? & ? & ? & ?). split_and!; try done.
  intros i p Hp ?. pose proof (inv_pid _ Hk i p Hp). lia.
Qed.

(** C13. [exit] turns the caller into a zombie without open files that
    records the current time, leaves nobody asleep on the parent, passes its
    children to [initproc] (awake if one of them is a zombie) and changes
    nothing else of other processes; the invariant is kept. *)
Theorem exit_hands_over c cur k k' :
  kinv k → k_ptable k !! c = Some cur → live cur → exit c k = Ok k' →
  kinv k' ∧ exited c cur k k'.
Proof.
  intros Hk Hc Hl Hx. split; [|by apply exit_spec].
  eapply kinv_keep; [by eapply exit_keep|done].
Qed.

End life.

Lemma fork_makes_child_witness :
  let k := state_after DEFAULT 1 [OChoose 0 0] in
  ∃ r k', fork DEFAULT 0 k = Ok (r, k') ∧ kinv k'.
Proof.
  set (k := state_after DEFAULT 1 [OChoose 0 0]).
  destruct (fork DEFAULT 0 k) as [[r k']| |] eqn:Hf.
  - exists r, k'. split; [exact Hf|].
    apply (fork_makes_child DEFAULT 0 (slot k 0) k r k').
    + apply (reachable_inv DEFAULT 1 ample_start), state_after_reachable. vm_compute. reflexivity.
    + vm_compute. reflexivity.
    + vm_compute. reflexivity.
    + unfold live. vm_compute. discriminate.
    + exact Hf.
  - vm_compute in Hf. discriminate Hf.
  - vm_compute in Hf. discriminate Hf.
Defined.

Lemma exit_hands_over_witness :
  let k := state_after DEFAULT 1 [OChoose 0 0; OFork 0; OWait 0; OChoose 0 1] in
  ∃ k', exit 1 k = Ok k' ∧ exited 1 (slot k 1) k k'.
Proof.
  set (k := state_after DEFAULT 1 [OChoose 0 0; OFork 0; OWait 0; OChoose 0 1]).
  destruct (exit 1 k) as [k'| |] eqn:Hx.
  - exists k'. split; [exact Hx|].
    apply (exit_hands_over 1 (slot k 1) k k').
    + apply (reachable_inv DEFAULT 1 ample_start), state_after_reachable. vm_compute. reflexivity.
    + vm_compute. reflexivity.
    + unfold live. vm_compute. discriminate.
    + exact Hx.
  - vm_compute in Hx. discriminate Hx.
  - vm_compute in Hx. discriminate Hx.
Defined.

