(* ===== verification/Bytes.v ===== *)
(** * Bytes in memory and on disk

    A block, a page or a buffer is a list of bytes (integers below 256).
    Integers of [w] bytes are stored little-endian, as x86 does; a C access
    through a cast pointer ([(struct dinode* )bp->data], [(uint* )bp->data]) is
    an access to the bytes at its offset, and faults outside the array. *)

From S2P Require Import Prelude.

Local Open Scope Z_scope.

Definition byte_range (z : Z) : Prop := 0 ≤ z < 256.
#[export] Instance byte_range_dec z : Decision (byte_range z).
Proof. unfold byte_range. apply _. Defined.

(** ** Little-endian integers *)

Fixpoint le_bytes (w : nat) (v : Z) : list Z :=
  match w with
  | O => []
  | S w' => v mod 256 :: le_bytes w' (v / 256)
  end.

Fixpoint le_val (l : list Z) : Z :=
  match l with
  | [] => 0
  | b :: l' => b + 256 * le_val l'
  end.

Lemma le_bytes_length w v : length (le_bytes w v) = w.
Proof. revert v. induction w as [|w IH]; intros v; cbn; [done|]. by rewrite IH. Qed.

Lemma le_bytes_range w v : Forall byte_range (le_bytes w v).
Proof.
  revert v. induction w as [|w IH]; intros v; cbn; constructor; [|apply IH].
  unfold byte_range. pose proof (Z.mod_pos_bound v 256). lia.
Qed.

Lemma pow256_S (w : nat) : 256 ^ Z.of_nat (S w) = 256 * 256 ^ Z.of_nat w.
Proof. rewrite Nat2Z.inj_succ, Z.pow_succ_r by lia. done. Qed.

Lemma le_val_bytes w v : 0 ≤ v < 256 ^ Z.of_nat w → le_val (le_bytes w v) = v.
Proof.
  revert v. induction w as [|w IH]; intros v Hv; cbn [le_bytes le_val].
  - change (256 ^ Z.of_nat 0) with 1 in Hv. lia.
  - rewrite pow256_S in Hv. rewrite IH.
    + pose proof (Z.div_mod v 256). lia.
    + split; [apply Z.div_pos; lia|]. apply Z.div_lt_upper_bound; lia.
Qed.

Lemma le_bytes_val l : Forall byte_range l → le_bytes (length l) (le_val l) = l.
Proof.
  induction 1 as [|b l Hb Hl IH]; [done|]. cbn [length le_bytes le_val].
  unfold byte_range in Hb. f_equal.
  - rewrite Z.mul_comm, Z_mod_plus_full. apply Z.mod_small. lia.
  - rewrite Z.mul_comm, Z.div_add by lia. rewrite Z.div_small by lia. done.
Qed.

Lemma le_val_range l : Forall byte_range l → 0 ≤ le_val l < 256 ^ Z.of_nat (length l).
Proof.
  induction 1 as [|b l Hb Hl IH]; [done|]. cbn [length le_val]. rewrite pow256_S.
  unfold byte_range in Hb. lia.
Qed.

(** ** Accesses inside a byte array *)

(** [memmove(dst + off, src, n)] for a source in another object. *)
Definition bstore (dst : list Z) (off : Z) (src : list Z) : outcome (list Z) :=
  if decide (0 ≤ off ∧ off + Z.of_nat (length src) ≤ Z.of_nat (length dst))
  then Ok (list_inserts (Z.to_nat off) src dst)
  else Fault "byte write out of bounds".

(** The [n] bytes at [src + off]. *)
Definition bload (src : list Z) (off : Z) (n : nat) : outcome (list Z) :=
  if decide (0 ≤ off ∧ off + Z.of_nat n ≤ Z.of_nat (length src))
  then Ok (take n (drop (Z.to_nat off) src))
  else Fault "byte read out of bounds".

(** Integer fields at a byte offset. *)
Definition get_le (w : nat) (d : list Z) (off : Z) : outcome Z :=
  l ← bload d off w; Ok (le_val l).
Definition put_le (w : nat) (d : list Z) (off v : Z) : outcome (list Z) :=
  bstore d off (le_bytes w v).

(** Slices of a list, for specifications. *)
Definition slice {A} (off n : nat) (l : list A) : list A := take n (drop off l).

Section slices.
Context {A : Type}.
Implicit Types (l k : list A).

Lemma slice_length off n l : (off + n ≤ length l)%nat → length (slice off n l) = n.
Proof. intros. unfold slice. rewrite length_take, length_drop. lia. Qed.

Lemma slice_lookup off n l i : (i < n)%nat → slice off n l !! i = l !! (off + i)%nat.
Proof. intros. unfold slice. by rewrite lookup_take_lt, lookup_drop. Qed.

Lemma slice_inserts_eq off k l :
  (off + length k ≤ length l)%nat → slice off (length k) (list_inserts off k l) = k.
Proof.
  intros Hlen. apply list_eq. intros i. destruct (decide (i < length k)%nat) as [Hi|Hi].
  - rewrite slice_lookup by done. rewrite list_lookup_inserts by lia. f_equal. lia.
  - rewrite !lookup_ge_None_2; [done|lia|].
    rewrite slice_length; [lia|]. rewrite length_inserts. lia.
Qed.

Lemma slice_inserts_ne off1 n off2 k l :
  (off1 + n ≤ off2 ∨ off2 + length k ≤ off1)%nat →
  slice off1 n (list_inserts off2 k l) = slice off1 n l.
Proof.
  intros Hd. apply list_eq. intros i. unfold slice. destruct (decide (i < n)%nat) as [Hi|Hi].
  - rewrite !lookup_take_lt, !lookup_drop by done. destruct Hd.
    + apply list_lookup_inserts_lt. lia.
    + apply list_lookup_inserts_ge. lia.
  - rewrite !lookup_take_ge by lia. done.
Qed.

Lemma slice_all l : slice 0 (length l) l = l.
Proof. unfold slice. by rewrite drop_0, firstn_all. Qed.

Lemma inserts_all k l : length k = length l → list_inserts 0 k l = k.
Proof.
  intros Hk. rewrite <-(slice_all (list_inserts 0 k l)), length_inserts, <-Hk.
  apply slice_inserts_eq. lia.
Qed.
End slices.

(** Slices of a concatenation. *)
Lemma slice_app_l {A} off n (l k : list A) : (off + n ≤ length l)%nat → slice off n (l ++ k) = slice off n l.
Proof.
  intros H. unfold slice. rewrite drop_app_le by lia. rewrite take_app_le; [done|]. rewrite length_drop. lia.
Qed.

Lemma slice_app_r {A} off n (l k : list A) :
  (length l ≤ off)%nat → slice off n (l ++ k) = slice (off - length l) n k.
Proof. intros H. unfold slice. by rewrite drop_app_ge. Qed.

Lemma slice_split {A} o n m (l : list A) : slice o (n + m) l = slice o n l ++ slice (o + n) m l.
Proof.
  unfold slice. rewrite <-drop_drop. set (k := drop o l). rewrite <-(take_drop n (take (n + m) k)).
  rewrite take_take_le by lia. by rewrite <-take_drop_commute.
Qed.

Lemma inserts_app {A} (i : nat) (k1 k2 l : list A) : list_inserts i (k1 ++ k2) l = list_inserts (i + length k1) k2 (list_inserts i k1 l).
Proof.
  apply list_eq. intros j. destruct (decide (j < length l)%nat) as [Hj|Hj].
  2: { rewrite !lookup_ge_None_2; [done|rewrite !length_inserts; lia|rewrite length_inserts; lia]. }
  destruct (decide (j < i)%nat); [by rewrite !list_lookup_inserts_lt by lia|].
  destruct (decide (j < i + length k1)%nat).
  - rewrite list_lookup_inserts by (rewrite ?length_app; lia). rewrite lookup_app_l by lia.
    rewrite list_lookup_inserts_lt by lia. by rewrite list_lookup_inserts by lia.
  - destruct (decide (j < i + length k1 + length k2)%nat).
    + rewrite list_lookup_inserts by (rewrite ?length_app; lia). rewrite lookup_app_r by lia.
      rewrite list_lookup_inserts by (rewrite ?length_inserts; lia). f_equal. lia.
    + rewrite !list_lookup_inserts_ge by (rewrite ?length_app; lia). done.
Qed.

Lemma bstore_Ok dst off src :
  (off + length src ≤ length dst)%nat →
  bstore dst (Z.of_nat off) src = Ok (list_inserts off src dst).
Proof. intros. unfold bstore. rewrite decide_True by lia. by rewrite Nat2Z.id. Qed.

Lemma bload_Ok src off n :
  (off + n ≤ length src)%nat → bload src (Z.of_nat off) n = Ok (slice off n src).
Proof. intros. unfold bload. rewrite decide_True by lia. by rewrite Nat2Z.id. Qed.

Lemma bstore_inv dst off src d :
  bstore dst off src = Ok d →
  ∃ o : nat, off = Z.of_nat o ∧ (o + length src ≤ length dst)%nat ∧ d = list_inserts o src dst.
Proof.
  unfold bstore. case_decide; [|done]. intros [= <-]. exists (Z.to_nat off). split_and!; [lia|lia|done].
Qed.

Lemma bstore_length dst off src d : bstore dst off src = Ok d → length d = length dst.
Proof. intros (o & _ & _ & ->)%bstore_inv. apply length_inserts. Qed.

Lemma put_le_Ok w d off v :
  (off + w ≤ length d)%nat →
  put_le w d (Z.of_nat off) v = Ok (list_inserts off (le_bytes w v) d).
Proof. intros. apply bstore_Ok. by rewrite le_bytes_length. Qed.

Lemma get_le_Ok w d off :
  (off + w ≤ length d)%nat → get_le w d (Z.of_nat off) = Ok (le_val (slice off w d)).
Proof. intros. unfold get_le. by rewrite bload_Ok. Qed.

Lemma put_le_length w d off v d' : put_le w d off v = Ok d' → length d' = length d.
Proof. apply bstore_length. Qed.

(** Reading back what was written. *)
Lemma get_put_le_eq w d off v :
  (off + w ≤ length d)%nat → 0 ≤ v < 256 ^ Z.of_nat w →
  le_val (slice off w (list_inserts off (le_bytes w v) d)) = v.
Proof.
  intros Hlen Hv. pose proof (slice_inserts_eq off (le_bytes w v) d) as Hs.
  rewrite le_bytes_length in Hs. rewrite Hs by done. by apply le_val_bytes.
Qed.

Lemma get_put_le_ne w1 w2 d off1 off2 v :
  (off1 + w1 ≤ off2 ∨ off2 + w2 ≤ off1)%nat →
  slice off1 w1 (list_inserts off2 (le_bytes w2 v) d) = slice off1 w1 d.
Proof. intros. apply slice_inserts_ne. by rewrite le_bytes_length. Qed.

Lemma Forall_inserts {A} (P : A → Prop) off k l :
  Forall P k → Forall P l → Forall P (list_inserts off k l).
Proof.
  intros Hk Hl. apply Forall_lookup. intros i x Hx.
  destruct (decide (i < off)%nat).
  - rewrite list_lookup_inserts_lt in Hx by done. exact (Forall_lookup_1 _ _ _ _ Hl Hx).
  - destruct (decide (off + length k ≤ i)%nat).
    + rewrite list_lookup_inserts_ge in Hx by lia. exact (Forall_lookup_1 _ _ _ _ Hl Hx).
    + apply lookup_lt_Some in Hx as Hlt. rewrite length_inserts in Hlt.
      rewrite list_lookup_inserts in Hx by lia. exact (Forall_lookup_1 _ _ _ _ Hk Hx).
Qed.

Lemma Forall_slice {A} (P : A → Prop) off n l : Forall P l → Forall P (slice off n l).
Proof. intros. unfold slice. by apply Forall_take, Forall_drop. Qed.

(** ** Disk blocks *)

Definition BSIZE : nat := 512.
Notation block := (list Z).
Definition zero_block : block := replicate BSIZE 0.
#[export] Instance block_inhabited : Inhabited block | 0 := populate zero_block.

Definition wf_block (d : block) : Prop := length d = BSIZE ∧ Forall byte_range d.
#[export] Instance wf_block_dec d : Decision (wf_block d).
Proof. unfold wf_block. apply _. Defined.

Lemma wf_zero_block : wf_block zero_block.
Proof. split; [done|]. apply Forall_replicate. done. Qed.

Lemma wf_block_inserts d off k :
  wf_block d → Forall byte_range k → wf_block (list_inserts off k d).
Proof. intros [Hl Hf] Hk. split; [by rewrite length_inserts|by apply Forall_inserts]. Qed.

#[export] Hint Resolve wf_zero_block wf_block_inserts le_bytes_range : xv6.
