(* ===== verification/CString.v ===== *)
(** * Memory and string functions: [string.c]

    Memory is a list of bytes and an address an index into it.  A string
    argument that is only read is the list of the bytes from its address to
    the end of the object that holds it; reading past that end is a fault. *)

From S2P Require Import Prelude.
From S2P Require Import Bytes.

Local Open Scope Z_scope.

(** ** memset, memcmp, memmove *)

(** [rep stosb]: [n] bytes at [dst]. *)
Fixpoint stosb (mem : list Z) (dst c : Z) (n : nat) : outcome (list Z) :=
  match n with
  | O => Ok mem
  | S n' => mem' ← aset mem dst (u8 c); stosb mem' (dst + 1) c n'
  end.

(** [rep stosl]: [n] words at [dst]. *)
Fixpoint stosl (mem : list Z) (dst w : Z) (n : nat) : outcome (list Z) :=
  match n with
  | O => Ok mem
  | S n' => mem' ← put_le 4 mem dst w; stosl mem' (dst + 4) w n'
  end.

Definition memset (mem : list Z) (dst c : Z) (n : nat) : outcome (list Z) :=
  if decide (dst mod 4 = 0 ∧ Z.of_nat n mod 4 = 0) then
    let c := Z.land c 255 in
    let w := Z.lor (Z.lor (Z.lor (Z.shiftl c 24) (Z.shiftl c 16)) (Z.shiftl c 8)) c in
    stosl mem dst w (n / 4)
  else stosb mem dst c n.

Fixpoint memcmp (s1 s2 : list Z) (n : nat) : outcome Z :=
  match n with
  | O => Ok 0
  | S n' =>
      a ← aget s1 0; b ← aget s2 0;
      if decide (a ≠ b) then Ok (a - b) else memcmp (drop 1 s1) (drop 1 s2) n'
  end.

(** [while(n-- > 0) *d++ = *s++;] *)
Fixpoint copy_up (mem : list Z) (d s : Z) (n : nat) : outcome (list Z) :=
  match n with
  | O => Ok mem
  | S n' => c ← aget mem s; mem' ← aset mem d c; copy_up mem' (d + 1) (s + 1) n'
  end.

(** [while(n-- > 0) *--d = *--s;] *)
Fixpoint copy_down (mem : list Z) (d s : Z) (n : nat) : outcome (list Z) :=
  match n with
  | O => Ok mem
  | S n' => c ← aget mem (s - 1); mem' ← aset mem (d - 1) c; copy_down mem' (d - 1) (s - 1) n'
  end.

Definition memmove (mem : list Z) (dst src : Z) (n : nat) : outcome (list Z) :=
  if decide (src < dst ∧ dst < src + Z.of_nat n)
  then copy_down mem (dst + Z.of_nat n) (src + Z.of_nat n) n
  else copy_up mem dst src n.

(** ** Strings *)

Fixpoint strncmp (p q : list Z) (n : nat) : outcome Z :=
  match n with
  | O => Ok 0
  | S n' =>
      a ← aget p 0; b ← aget q 0;
      if decide (a ≠ 0 ∧ a = b) then strncmp (drop 1 p) (drop 1 q) n' else Ok (a - b)
  end.

(** The [n] bytes that [strncpy] stores at its destination. *)
Fixpoint strncpy (t : list Z) (n : nat) : outcome (list Z) :=
  match n with
  | O => Ok []
  | S n' =>
      c ← aget t 0;
      if decide (c = 0) then Ok (replicate n 0)
      else r ← strncpy (drop 1 t) n'; Ok (c :: r)
  end.

(** The bytes that the loop of [safestrcpy] and the final [*s = 0] store. *)
Fixpoint safestrcpy_loop (t : list Z) (n : nat) : outcome (list Z) :=
  match n with
  | O => Ok [0]
  | S n' =>
      c ← aget t 0;
      if decide (c = 0) then Ok [0; 0]
      else r ← safestrcpy_loop (drop 1 t) n'; Ok (c :: r)
  end.
Definition safestrcpy (t : list Z) (n : Z) : outcome (list Z) :=
  if decide (n ≤ 0) then Ok [] else safestrcpy_loop t (Z.to_nat (n - 1)).

Fixpoint strlen (s : list Z) : outcome Z :=
  match s with
  | [] => Fault "array read out of bounds"
  | c :: s' => if decide (c = 0) then Ok 0 else n ← strlen s'; Ok (n + 1)
  end.

(** ** What strings mean *)

(** The characters before the terminating NUL. *)
Fixpoint cstr (l : list Z) : list Z :=
  match l with
  | [] => []
  | c :: l' => if decide (c = 0) then [] else c :: cstr l'
  end.

Lemma cstr_nonzero l : Forall (λ c, c ≠ 0) (cstr l).
Proof. induction l as [|c l IH]; cbn; [constructor|]. case_decide; by constructor. Qed.

Lemma Forall_cstr (P : Z → Prop) l : Forall P l → Forall P (cstr l).
Proof. induction 1 as [|c l Hc Hl IH]; cbn; [constructor|]. case_decide; by constructor. Qed.

Lemma cstr_app l k : Forall (λ c, c ≠ 0) l → cstr (l ++ k) = l ++ cstr k.
Proof. induction 1 as [|c l Hc Hl IH]; cbn; [done|]. rewrite decide_False by done. by rewrite IH. Qed.

Lemma cstr_zeros n : cstr (replicate n 0) = [].
Proof. by destruct n. Qed.

Lemma strlen_cstr s : 0 ∈ s → strlen s = Ok (Z.of_nat (length (cstr s))).
Proof.
  induction s as [|c s IH]; intros H0; [by apply not_elem_of_nil in H0|]. cbn [strlen cstr]. case_decide as Hc; [done|].
  apply elem_of_cons in H0 as [?|H0]; [done|]. rewrite (IH H0). cbn [mbind outcome_bind length]. f_equal. lia.
Qed.
(** The string with its terminating NUL. *)
Lemma cstr_take s : 0 ∈ s → take (S (length (cstr s))) s = cstr s ++ [0].
Proof.
  induction s as [|c s IH]; intros H0; [by apply not_elem_of_nil in H0|]. cbn [cstr]. case_decide as Hc; [by subst|].
  apply elem_of_cons in H0 as [?|H0]; [done|]. cbn [length app]. by rewrite <- (IH H0).
Qed.

Lemma aget_0_cons c (l : list Z) : aget (c :: l) 0 = Ok c.
Proof. done. Qed.

Lemma strncmp_eq n p q :
  0 ∈ p ∨ (n ≤ length p)%nat → 0 ∈ q ∨ (n ≤ length q)%nat →
  ∃ r, strncmp p q n = Ok r ∧ (r = 0 ↔ take n (cstr p) = take n (cstr q)).
Proof.
  revert p q. induction n as [|n IH]; intros p q Hp Hq; [by exists 0|].
  destruct p as [|a p]. { destruct Hp as [?%not_elem_of_nil|?]; [done|cbn in *; lia]. }
  destruct q as [|b q]. { destruct Hq as [?%not_elem_of_nil|?]; [done|cbn in *; lia]. }
  cbn [strncmp]. rewrite !aget_0_cons. cbn [mbind outcome_bind cstr].
  case_decide as Hab.
  - destruct Hab as [Ha <-]. destruct (IH p q) as (r & Hr & Heq).
    { destruct Hp as [[<-|?]%elem_of_cons|?]; [done|by left|right; cbn in *; lia]. }
    { destruct Hq as [[<-|?]%elem_of_cons|?]; [done|by left|right; cbn in *; lia]. }
    exists r. split; [exact Hr|]. rewrite !decide_False by done. cbn. rewrite Heq.
    split; [by intros ->|by intros [= ->]].
  - exists (a - b). split; [done|]. destruct (decide (a = 0)), (decide (b = 0)); cbn; split; intros; try lia;
      try done; simplify_eq; exfalso; apply Hab; lia.
Qed.

Lemma strncpy_spec n t :
  0 ∈ t ∨ (n ≤ length t)%nat →
  ∃ r, strncpy t n = Ok r ∧ r = take n (cstr t) ++ replicate (n - length (cstr t)) 0.
Proof.
  revert t. induction n as [|n IH]; intros t Ht; [by exists []|].
  destruct t as [|c t]. { destruct Ht as [?%not_elem_of_nil|?]; [done|cbn in *; lia]. }
  cbn [strncpy]. rewrite aget_0_cons. cbn [mbind outcome_bind cstr]. case_decide as Hc.
  - by eexists.
  - change (drop 1 (c :: t)) with t. destruct (IH t) as (r & -> & ->).
    { destruct Ht as [[<-|?]%elem_of_cons|?]; [done|by left|right; cbn in *; lia]. }
    cbn. by eexists.
Qed.

(** ** What the memory functions do *)

Lemma inserts_cons d (c : Z) k mem :
  (d < length mem)%nat → list_inserts d (c :: k) mem = list_inserts (S d) k (<[d := c]> mem).
Proof.
  intros Hd. apply list_eq. intros i.
  destruct (decide (i < d)%nat).
  { rewrite !list_lookup_inserts_lt, list_lookup_insert_ne by lia. done. }
  destruct (decide (i = d)) as [->|Hne].
  { transitivity (Some c).
    - rewrite list_lookup_inserts by (cbn; lia). by rewrite Nat.sub_diag.
    - by rewrite list_lookup_inserts_lt, list_lookup_insert_eq by lia. }
  destruct (decide (i < d + S (length k) ∧ i < length mem)%nat) as [[Hi Hl]|Hi].
  - rewrite !list_lookup_inserts by (rewrite ?length_insert; cbn; lia).
    by replace (i - d)%nat with (S (i - S d)) by lia.
  - destruct (decide (i < length mem)%nat).
    + rewrite !list_lookup_inserts_ge by (cbn; lia). by rewrite list_lookup_insert_ne by lia.
    + rewrite !lookup_ge_None_2 by (rewrite ?length_inserts, ?length_insert; lia). done.
Qed.

Lemma stosb_spec n mem d c :
  (d + n ≤ length mem)%nat →
  stosb mem (Z.of_nat d) c n = Ok (list_inserts d (replicate n (u8 c)) mem).
Proof.
  revert mem d. induction n as [|n IH]; intros mem d Hn; [done|].
  cbn [stosb]. rewrite aset_nat by lia. cbn [mbind outcome_bind].
  replace (Z.of_nat d + 1) with (Z.of_nat (S d)) by lia.
  rewrite IH by (rewrite length_insert; lia). cbn [replicate]. by rewrite inserts_cons by lia.
Qed.

Lemma stosl_spec n mem d w :
  (d + 4 * n ≤ length mem)%nat →
  stosl mem (Z.of_nat d) w n = Ok (list_inserts d (concat (replicate n (le_bytes 4 w))) mem).
Proof.
  revert mem d. induction n as [|n IH]; intros mem d Hn; [done|].
  cbn [stosl]. rewrite put_le_Ok by lia. cbn [mbind outcome_bind].
  replace (Z.of_nat d + 4) with (Z.of_nat (d + 4)) by lia.
  rewrite IH by (rewrite length_inserts; lia). cbn [replicate concat].
  f_equal. cbn [le_bytes app]. rewrite !inserts_cons by (rewrite ?length_insert; lia).
  cbn [list_inserts]. by replace (d + 4)%nat with (S (S (S (S d)))) by lia.
Qed.

(** The word [stosl] gets holds the byte four times. *)
Lemma memset_word c :
  le_bytes 4 (Z.lor (Z.lor (Z.lor (Z.shiftl (Z.land c 255) 24) (Z.shiftl (Z.land c 255) 16))
    (Z.shiftl (Z.land c 255) 8)) (Z.land c 255)) = replicate 4 (u8 c).
Proof.
  change 255 with (Z.ones 8). rewrite Z.land_ones by lia. fold (u8 c).
  pose proof (u8_range c) as Hc. set (x := u8 c) in *. clearbody x.
  assert (Hall : forallb (λ y, bool_decide (le_bytes 4 (Z.lor (Z.lor (Z.lor (Z.shiftl y 24) (Z.shiftl y 16))
    (Z.shiftl y 8)) y) = replicate 4 y)) (Z.of_nat <$> seq 0 256) = true) by (by vm_compute).
  rewrite forallb_forall in Hall. specialize (Hall x). rewrite bool_decide_eq_true in Hall. apply Hall.
  apply list_elem_of_In, list_elem_of_fmap. exists (Z.to_nat x). rewrite elem_of_seq. lia.
Qed.

Lemma concat_replicate_same {A} n m (x : A) : concat (replicate n (replicate m x)) = replicate (n * m) x.
Proof. induction n as [|n IH]; cbn; [done|]. by rewrite IH, <-replicate_add. Qed.

Lemma memset_spec mem d c n :
  (d + n ≤ length mem)%nat →
  memset mem (Z.of_nat d) c n = Ok (list_inserts d (replicate n (u8 c)) mem).
Proof.
  intros Hn. unfold memset. case_decide as Ha; [|by apply stosb_spec]. destruct Ha as [_ H4].
  assert (n = n / 4 * 4)%nat as Heq.
  { pose proof (Nat.div_mod_eq n 4). change 4 with (Z.of_nat 4) in H4. rewrite <-Nat2Z.inj_mod in H4. lia. }
  rewrite stosl_spec by lia. rewrite memset_word, concat_replicate_same. by rewrite <-Heq.
Qed.

(** Copying upwards reads each byte before it is overwritten when the
    destination is not above the source. *)
Lemma copy_up_spec n mem d s :
  (d ≤ s ∨ s + n ≤ d)%nat → (s + n ≤ length mem)%nat → (d + n ≤ length mem)%nat →
  copy_up mem (Z.of_nat d) (Z.of_nat s) n = Ok (list_inserts d (slice s n mem) mem).
Proof.
  revert mem d s. induction n as [|n IH]; intros mem d s Hds Hs Hd; [done|].
  cbn [copy_up]. destruct (lookup_lt_is_Some_2 mem s) as [c Hc]; [lia|].
  rewrite (aget_nat _ _ _ Hc). cbn [mbind outcome_bind]. rewrite aset_nat by lia. cbn [mbind outcome_bind].
  replace (Z.of_nat d + 1) with (Z.of_nat (S d)) by lia.
  replace (Z.of_nat s + 1) with (Z.of_nat (S s)) by lia.
  rewrite IH by (rewrite ?length_insert; lia). f_equal. unfold slice.
  rewrite (drop_S _ _ _ Hc). cbn [take]. rewrite inserts_cons by lia. f_equal.
  apply list_eq. intros i. destruct (decide (i < n)%nat); [|rewrite !lookup_take_ge by lia; done].
  rewrite !lookup_take_lt, !lookup_drop by done. by rewrite list_lookup_insert_ne by lia.
Qed.

(** Writing the last byte first. *)
Lemma inserts_snoc d (c : Z) k mem :
  (d + S (length k) ≤ length mem)%nat →
  list_inserts d (k ++ [c]) mem = list_inserts d k (<[(d + length k)%nat := c]> mem).
Proof.
  revert d mem. induction k as [|x k IH]; intros d mem Hd; cbn in Hd.
  - by rewrite Nat.add_0_r.
  - rewrite <-app_comm_cons, !inserts_cons by (rewrite ?length_insert; lia).
    rewrite IH by (rewrite length_insert; lia). cbn [length].
    rewrite list_insert_insert_ne by lia. by replace (S d + length k)%nat with (d + S (length k))%nat by lia.
Qed.

Lemma copy_down_spec n mem d s :
  (s ≤ d)%nat → (d + n ≤ length mem)%nat →
  copy_down mem (Z.of_nat (d + n)) (Z.of_nat (s + n)) n = Ok (list_inserts d (slice s n mem) mem).
Proof.
  revert mem. induction n as [|n IH]; intros mem Hds Hd; [done|].
  cbn [copy_down]. replace (Z.of_nat (s + S n) - 1) with (Z.of_nat (s + n)) by lia.
  replace (Z.of_nat (d + S n) - 1) with (Z.of_nat (d + n)) by lia.
  destruct (lookup_lt_is_Some_2 mem (s + n)) as [c Hc]; [lia|].
  rewrite (aget_nat _ _ _ Hc). cbn [mbind outcome_bind]. rewrite aset_nat by lia. cbn [mbind outcome_bind].
  rewrite IH by (rewrite ?length_insert; lia). f_equal.
  assert (slice s (S n) mem = slice s n mem ++ [c]) as ->.
  { unfold slice. apply take_S_r. by rewrite lookup_drop. }
  rewrite inserts_snoc by (rewrite slice_length; lia). rewrite slice_length by lia. f_equal.
  apply list_eq. intros i. unfold slice. destruct (decide (i < n)%nat); [|rewrite !lookup_take_ge by lia; done].
  rewrite !lookup_take_lt, !lookup_drop by done. by rewrite list_lookup_insert_ne by lia.
Qed.

(** [memmove] copies correctly also when the ranges overlap: the
    destination receives the [n] bytes the source held before the call, every
    other byte is unchanged and no access leaves the object that contains
    both ranges; [memset] fills the range with the low byte of [c] on both of
    its paths (words when aligned, bytes otherwise). *)
Theorem memmove_overlap mem dst src c n :
  (dst + n ≤ length mem)%nat → (src + n ≤ length mem)%nat →
  memmove mem (Z.of_nat dst) (Z.of_nat src) n = Ok (list_inserts dst (slice src n mem) mem) ∧
  memset mem (Z.of_nat dst) c n = Ok (list_inserts dst (replicate n (u8 c)) mem).
Proof.
  intros Hd Hs. split; [|by apply memset_spec]. unfold memmove. case_decide as Ho.
  - rewrite <-!Nat2Z.inj_add. apply copy_down_spec; lia.
  - apply copy_up_spec; lia.
Qed.

Lemma memmove_overlap_witness :
  memmove [1; 2; 3; 4; 5; 6] 2 1 4 = Ok [1; 2; 2; 3; 4; 5] ∧
  memset [1; 2; 3; 4; 5; 6] 0 263 4 = Ok [7; 7; 7; 7; 5; 6].
Proof.
  split; [apply (memmove_overlap [1; 2; 3; 4; 5; 6] 2 1 0 4); cbn; lia|].
  apply (memmove_overlap [1; 2; 3; 4; 5; 6] 0 0 263 4); cbn; lia.
Defined.

(** [safestrcpy] always terminates the copy within its [n] bytes. *)
Lemma safestrcpy_loop_spec n t :
  0 ∈ t ∨ (n ≤ length t)%nat →
  ∃ r, safestrcpy_loop t n = Ok r ∧ cstr r = take n (cstr t) ∧ 0 ∈ r ∧ (length r ≤ S n)%nat.
Proof.
  revert t. induction n as [|n IH]; intros t Ht; [exists [0]; split_and!; [done|done|by left|done]|].
  destruct t as [|c t]. { destruct Ht as [?%not_elem_of_nil|?]; [done|cbn in *; lia]. }
  cbn [safestrcpy_loop]. rewrite aget_0_cons. cbn [mbind outcome_bind cstr]. case_decide as Hc.
  - exists [0; 0]. split_and!; [done|done|by left|cbn; lia].
  - change (drop 1 (c :: t)) with t. destruct (IH t) as (r & -> & Hr & Hin & Hlen).
    { destruct Ht as [[<-|?]%elem_of_cons|?]; [done|by left|right; cbn in *; lia]. }
    exists (c :: r). cbn. rewrite decide_False by done. split_and!; [done|by rewrite Hr|by right|cbn; lia].
Qed.
