(* ===== verification/Log.v ===== *)
(** * The write-ahead log: [log.c]

    The state of the log, of the blocks it pins in the buffer cache and of the
    disk.  A block that is not pinned reads as the disk has it: that is what
    the buffer cache ([Bio]) guarantees.  [lg_trace] records the writes in the
    order in which they reach the disk; a crash keeps a prefix of them and
    loses everything else. *)

From stdpp Require Import gmap.
From S2P Require Import Prelude.
From S2P Require Import Bytes.

Local Open Scope Z_scope.

(** [param.h] *)
Definition MAXOPBLOCKS : Z := 10.
Definition LOGSIZE : nat := 30.

Notation disk := (gmap Z block).

Record lstate := mklog {
  lg_start : Z;
  lg_size : Z;
  lg_outstanding : Z;
  lg_committing : Z;
  lg_n : Z;               (* log.lh.n *)
  lg_block : list Z;      (* log.lh.block[LOGSIZE] *)
  lg_cache : disk;        (* buffers with B_DIRTY set by log_write *)
  lg_disk : disk;
  lg_trace : list (Z * block)
}.
#[export] Instance lstate_fields : Fields lstate := λ s,
  mklog (lg_start s) (lg_size s) (lg_outstanding s) (lg_committing s) (lg_n s)
    (lg_block s) (lg_cache s) (lg_disk s) (lg_trace s).

(** ** Buffers as the log sees them *)

(** [bread(log.dev, b)->data] *)
Definition bread (s : lstate) (b : Z) : block := default (lg_disk s !!! b) (lg_cache s !! b).

(** [bwrite] of a buffer for block [b] that holds [d]: on disk and clean. *)
Definition bwrite (b : Z) (d : block) (s : lstate) : lstate :=
  s <| lg_disk ::= <[b := d]> |> <| lg_cache ::= delete b |>
    <| lg_trace ::= λ t, t ++ [(b, d)] |>.

(** ** The header block *)

(** [for (i = 0; i < log.lh.n; i++) log.lh.block[i] = lh->block[i];] *)
Fixpoint read_head_loop (d : block) (n i : nat) (blks : list Z) : outcome (list Z) :=
  match n with
  | O => Ok blks
  | S n' =>
      v ← get_le 4 d (4 + 4 * Z.of_nat i);
      blks' ← aset blks (Z.of_nat i) (i32 v);
      read_head_loop d n' (S i) blks'
  end.

Definition read_head (s : lstate) : outcome lstate :=
  let d := bread s (lg_start s) in
  v ← get_le 4 d 0;
  let n := i32 v in
  blks ← read_head_loop d (Z.to_nat n) 0 (lg_block s);
  Ok (s <| lg_n := n |> <| lg_block := blks |>).

Fixpoint write_head_loop (blks : list Z) (n i : nat) (d : block) : outcome block :=
  match n with
  | O => Ok d
  | S n' =>
      v ← aget blks (Z.of_nat i);
      d' ← put_le 4 d (4 + 4 * Z.of_nat i) (u32 v);
      write_head_loop blks n' (S i) d'
  end.

Definition write_head (s : lstate) : outcome lstate :=
  d0 ← put_le 4 (bread s (lg_start s)) 0 (u32 (lg_n s));
  d ← write_head_loop (lg_block s) (Z.to_nat (lg_n s)) 0 d0;
  Ok (bwrite (lg_start s) d s).

(** ** Copying between the log and the home locations *)

Fixpoint install_loop (n : nat) (tail : Z) (s : lstate) : outcome lstate :=
  match n with
  | O => Ok s
  | S n' =>
      let lbuf := bread s (lg_start s + tail + 1) in
      b ← aget (lg_block s) tail;
      install_loop n' (tail + 1) (bwrite b lbuf s)
  end.
Definition install_trans (s : lstate) : outcome lstate := install_loop (Z.to_nat (lg_n s)) 0 s.

Fixpoint write_log_loop (n : nat) (tail : Z) (s : lstate) : outcome lstate :=
  match n with
  | O => Ok s
  | S n' =>
      b ← aget (lg_block s) tail;
      let from := bread s b in
      write_log_loop n' (tail + 1) (bwrite (lg_start s + tail + 1) from s)
  end.
Definition write_log (s : lstate) : outcome lstate := write_log_loop (Z.to_nat (lg_n s)) 0 s.

(** ** Commit and recovery *)

Definition commit (s : lstate) : outcome lstate :=
  if decide (0 < lg_n s) then
    s1 ← write_log s;
    s2 ← write_head s1;
    s3 ← install_trans s2;
    write_head (s3 <| lg_n := 0 |>)
  else Ok s.

Definition recover_from_log (s : lstate) : outcome lstate :=
  s1 ← read_head s;
  s2 ← install_trans s1;
  write_head (s2 <| lg_n := 0 |>).

(** [struct superblock]: the fields [initlog] reads from block 1. *)
Record superblock := mksb {
  sb_size : Z; sb_nblocks : Z; sb_ninodes : Z; sb_nlog : Z;
  sb_logstart : Z; sb_inodestart : Z; sb_bmapstart : Z
}.

Definition readsb (d : block) : outcome superblock :=
  size ← get_le 4 d 0; nblocks ← get_le 4 d 4; ninodes ← get_le 4 d 8;
  nlog ← get_le 4 d 12; logstart ← get_le 4 d 16; inodestart ← get_le 4 d 20;
  bmapstart ← get_le 4 d 24;
  Ok (mksb size nblocks ninodes nlog logstart inodestart bmapstart).

(** The memory of a machine that has just booted from disk [d]. *)
Definition boot (d : disk) : lstate := mklog 0 0 0 0 0 (replicate LOGSIZE 0) ∅ d [].

(** [sizeof(struct logheader) >= BSIZE] is false: 4 + 4 * LOGSIZE = 124. *)
Definition initlog (s : lstate) : outcome lstate :=
  sb ← readsb (bread s 1);
  recover_from_log (s <| lg_start := i32 (sb_logstart sb) |> <| lg_size := i32 (sb_nlog sb) |>).

(** ** Transactions *)

(** One turn of the loop of [begin_op]; [false] when the caller sleeps on [&log]. *)
Definition begin_op (s : lstate) : bool * lstate :=
  if decide (lg_committing s ≠ 0) then (false, s)
  else if decide (Z.of_nat LOGSIZE < lg_n s + (lg_outstanding s + 1) * MAXOPBLOCKS) then (false, s)
  else (true, s <| lg_outstanding ::= λ o, o + 1 |>).

(** The part of [end_op] under [log.lock]; [true] when the caller must commit. *)
Definition end_op_enter (s : lstate) : outcome (bool * lstate) :=
  let s1 := s <| lg_outstanding ::= λ o, o - 1 |> in
  if decide (lg_committing s1 ≠ 0) then Panic "log.committing"
  else if decide (lg_outstanding s1 = 0) then Ok (true, s1 <| lg_committing := 1 |>)
  else Ok (false, s1).

Definition end_op (s : lstate) : outcome lstate :=
  '(do_commit, s1) ← end_op_enter s;
  if do_commit : bool then
    s2 ← commit s1;
    Ok (s2 <| lg_committing := 0 |>)
  else Ok s1.

(** [for (i = 0; i < log.lh.n; i++) if (log.lh.block[i] == b->blockno) break;] *)
Fixpoint absorb (blks : list Z) (b : Z) (n : nat) (i : Z) : outcome Z :=
  match n with
  | O => Ok i
  | S n' => x ← aget blks i; if decide (x = b) then Ok i else absorb blks b n' (i + 1)
  end.

(** [log_write] of a buffer for block [b] that now holds [d]. *)
Definition log_write (b : Z) (d : block) (s : lstate) : outcome lstate :=
  if decide (Z.of_nat LOGSIZE ≤ lg_n s ∨ lg_size s - 1 ≤ lg_n s) then
    Panic "too big a transaction"
  else if decide (lg_outstanding s < 1) then Panic "log_write outside of trans"
  else
    i ← absorb (lg_block s) b (Z.to_nat (lg_n s)) 0;
    blks ← aset (lg_block s) i b;
    Ok (s <| lg_block := blks |>
          <| lg_n ::= λ n, if decide (i = n) then n + 1 else n |>
          <| lg_cache ::= <[b := d]> |>).
