(* ===== verification/LogSpec.v ===== *)
(** * Crash safety of the log

    [view start d b] is the content that recovery will give to block [b] of
    the disk [d]: the copy in the log if the header lists [b], the block itself
    otherwise.  Every write of [commit] but one keeps the view; the header
    write changes it from the old to the new content of all blocks at once.
    Recovery keeps it, wherever it is interrupted. *)

From stdpp Require Import gmap.
From S2P Require Import Prelude.
From S2P Require Import Bytes.
From S2P Require Import Log.

Local Open Scope Z_scope.

(** ** The header as a list of block numbers *)

Definition hdr_n (h : block) : Z := i32 (le_val (slice 0 4 h)).
Definition hdr_block (h : block) (i : nat) : Z := i32 (le_val (slice (4 + 4 * i) 4 h)).
Definition hdr_blocks (h : block) : list Z := hdr_block h <$> seq 0 (Z.to_nat (hdr_n h)).

Lemma hdr_blocks_lookup h i :
  (i < Z.to_nat (hdr_n h))%nat → hdr_blocks h !! i = Some (hdr_block h i).
Proof. intros. unfold hdr_blocks. by rewrite list_lookup_fmap, lookup_seq_lt. Qed.

Lemma hdr_blocks_length h : length (hdr_blocks h) = Z.to_nat (hdr_n h).
Proof. unfold hdr_blocks. by rewrite length_fmap, length_seq. Qed.

(** Block numbers are small enough for [int] and [uint] to agree. *)
Definition blockno_ok (b : Z) : Prop := 0 ≤ b < 2 ^ 31.
#[export] Instance blockno_ok_dec b : Decision (blockno_ok b).
Proof. unfold blockno_ok. apply _. Defined.

Lemma blockno_u32 b : blockno_ok b → 0 ≤ u32 b < 256 ^ Z.of_nat 4 ∧ i32 (u32 b) = b.
Proof.
  intros Hb. unfold blockno_ok in Hb. change (256 ^ Z.of_nat 4) with (2 ^ 32).
  split; [apply u32_range|]. rewrite i32_u32. apply i32_small. lia.
Qed.

Lemma read_head_loop_spec h n i blks :
  length h = BSIZE → length blks = LOGSIZE → (i + n ≤ LOGSIZE)%nat →
  ∃ blks', read_head_loop h n i blks = Ok blks' ∧ length blks' = LOGSIZE ∧
    take i blks' = take i blks ∧
    (∀ j, (i ≤ j < i + n)%nat → blks' !! j = Some (hdr_block h j)).
Proof.
  intros Hh. revert i blks. induction n as [|n IH]; intros i blks Hl Hin.
  { exists blks. split_and!; [done..|]. intros. lia. }
  cbn [read_head_loop].
  replace (4 + 4 * Z.of_nat i) with (Z.of_nat (4 + 4 * i)) by lia.
  rewrite get_le_Ok by (unfold BSIZE, LOGSIZE in *; lia). cbn [mbind outcome_bind].
  rewrite aset_nat by (unfold LOGSIZE in *; lia). cbn [mbind outcome_bind].
  destruct (IH (S i) (<[i := hdr_block h i]> blks)) as (blks' & Hr & Hlen & Htk & Hall).
  { by rewrite length_insert. } { lia. }
  exists blks'. split_and!; [exact Hr|done| |].
  - rewrite <-(take_take_le i (S i) blks') by lia. rewrite Htk.
    rewrite take_take_le by lia. by rewrite take_insert_ge.
  - intros j Hj. destruct (decide (j = i)) as [->|Hji]; [|apply Hall; lia].
    rewrite <-(lookup_take_lt blks' (S i)), Htk, lookup_take_lt by lia.
    rewrite list_lookup_insert_eq by (unfold LOGSIZE in *; lia). done.
Qed.

Lemma write_head_loop_spec blks n i h :
  wf_block h → length blks = LOGSIZE → (i + n ≤ LOGSIZE)%nat →
  (∀ j b, (i ≤ j < i + n)%nat → blks !! j = Some b → blockno_ok b) →
  ∃ h', write_head_loop blks n i h = Ok h' ∧ wf_block h' ∧
    slice 0 (4 + 4 * i) h' = slice 0 (4 + 4 * i) h ∧
    (∀ j, (i ≤ j < i + n)%nat → blks !! j = Some (hdr_block h' j)).
Proof.
  intros Hh Hl. revert i h Hh. induction n as [|n IH]; intros i h Hh Hin Hok.
  { exists h. split_and!; [done..|]. intros. lia. }
  cbn [write_head_loop]. destruct (lookup_lt_is_Some_2 blks i) as [b Hb]; [lia|].
  rewrite (aget_nat _ _ _ Hb). cbn [mbind outcome_bind].
  replace (4 + 4 * Z.of_nat i) with (Z.of_nat (4 + 4 * i)) by lia.
  destruct Hh as [Hlen Hr].
  assert (4 + 4 * i + 4 ≤ length h)%nat as Hoff by (unfold BSIZE, LOGSIZE in *; lia).
  rewrite put_le_Ok by done. cbn [mbind outcome_bind].
  set (h1 := list_inserts (4 + 4 * i) (le_bytes 4 (u32 b)) h).
  destruct (IH (S i) h1) as (h' & Hw & Hwf & Hsl & Hall).
  { apply wf_block_inserts; [by split|apply le_bytes_range]. } { lia. }
  { intros j b' Hj. apply Hok. lia. }
  exists h'. split_and!; [exact Hw|done| |].
  - assert (∀ x : block, slice 0 (4 + 4 * i) x = take (4 + 4 * i) (slice 0 (4 + 4 * S i) x)) as Htake.
    { intros x. unfold slice. rewrite !drop_0, take_take_le by lia. done. }
    rewrite !Htake, Hsl, <-!Htake. unfold h1. apply get_put_le_ne. lia.
  - intros j Hj. destruct (decide (j = i)) as [->|Hji]; [|apply Hall; lia].
    rewrite Hb. f_equal. unfold hdr_block.
    assert (slice (4 + 4 * i) 4 h' = slice (4 + 4 * i) 4 h1) as ->.
    { assert (∀ x : block, slice (4 + 4 * i) 4 x = drop (4 + 4 * i) (slice 0 (4 + 4 * S i) x)) as Hd.
      { intros x. unfold slice. rewrite drop_0, take_drop_commute.
        do 2 f_equal. lia. }
      by rewrite !Hd, Hsl. }
    destruct (blockno_u32 b) as [Hu Hi]; [eapply Hok; [|exact Hb]; lia|].
    unfold h1. by rewrite get_put_le_eq.
Qed.

(** ** Sequences of disk writes *)

Definition crash_disk (d : disk) (ws : list (Z * block)) : disk :=
  foldl (λ d w, <[w.1 := w.2]> d) d ws.

Lemma crash_disk_app d ws1 ws2 : crash_disk d (ws1 ++ ws2) = crash_disk (crash_disk d ws1) ws2.
Proof. unfold crash_disk. by rewrite foldl_app. Qed.

Lemma crash_disk_ne d ws b : b ∉ ws.*1 → crash_disk d ws !!! b = d !!! b.
Proof.
  revert d. induction ws as [|[x v] ws IH]; intros d Hb; [done|].
  cbn in Hb. apply not_elem_of_cons in Hb as [Hne Hb]. cbn.
  change (crash_disk (<[x := v]> d) ws !!! b = d !!! b). rewrite IH by done.
  by rewrite lookup_total_insert_ne.
Qed.

(** The write of block [x i] for the indices [i] of a range; the targets are distinct. *)
Definition range_writes (x : nat → Z) (v : nat → block) (t n : nat) : list (Z * block) :=
  (λ i, (x i, v i)) <$> seq t n.

Lemma range_writes_fst x v t n : (range_writes x v t n).*1 = x <$> seq t n.
Proof. unfold range_writes. by rewrite <-list_fmap_compose. Qed.

Lemma crash_range d x v t n i :
  (t ≤ i < t + n)%nat → (∀ j, (t ≤ j < t + n)%nat → x j = x i → j = i) →
  crash_disk d (range_writes x v t n) !!! x i = v i.
Proof.
  revert d t. induction n as [|n IH]; intros d t Hi Hinj; [lia|].
  cbn. change (crash_disk (<[x t := v t]> d) (range_writes x v (S t) n) !!! x i = v i).
  destruct (decide (i = t)) as [->|Hit].
  - rewrite crash_disk_ne; [apply lookup_total_insert_eq|]. rewrite range_writes_fst.
    intros (j & Hx & Hj)%list_elem_of_fmap. apply elem_of_seq in Hj.
    specialize (Hinj j ltac:(lia) (eq_sym Hx)). lia.
  - apply IH; [lia|]. intros j Hj. apply Hinj. lia.
Qed.

(** ** The loops as sequences of writes *)

Section log.
Context (start size : Z).
Implicit Types (s : lstate) (d : disk) (b : Z).

(** Outside the log. *)
Definition home b : Prop := ¬ (start ≤ b < start + size).
#[export] Instance home_dec b : Decision (home b).
Proof. unfold home. apply _. Defined.

Definition logged s : list Z := take (Z.to_nat (lg_n s)) (lg_block s).
Definition blk s (i : nat) : Z := lg_block s !!! i.
Definition log_at (i : nat) : Z := start + Z.of_nat i + 1.

Record log_shape s : Prop := {
  ls_start : lg_start s = start;
  ls_size : lg_size s = size;
  ls_len : length (lg_block s) = LOGSIZE;
  ls_n : 0 ≤ lg_n s ≤ Z.of_nat LOGSIZE;
  ls_room : lg_n s < size;
  ls_nodup : NoDup (logged s);
  ls_home : Forall (λ b, home b ∧ blockno_ok b) (logged s);
  ls_cache : ∀ b x, lg_cache s !! b = Some x → b ∈ logged s
}.

Lemma blk_lookup s i :
  log_shape s → (i < Z.to_nat (lg_n s))%nat → logged s !! i = Some (blk s i) ∧ lg_block s !! i = Some (blk s i).
Proof.
  intros Hs Hi. pose proof (ls_n _ Hs). pose proof (ls_len _ Hs).
  assert (lg_block s !! i = Some (blk s i)) as Hb.
  { apply list_lookup_lookup_total_lt. lia. }
  split; [|done]. unfold logged. by rewrite lookup_take_lt.
Qed.

Lemma blk_home s i : log_shape s → (i < Z.to_nat (lg_n s))%nat → home (blk s i).
Proof.
  intros Hs Hi. destruct (blk_lookup s i Hs Hi) as [Hl _].
  apply (Forall_lookup_1 _ _ _ _ (ls_home _ Hs) Hl).
Qed.

Lemma blk_inj s i j :
  log_shape s → (i < Z.to_nat (lg_n s))%nat → (j < Z.to_nat (lg_n s))%nat → blk s i = blk s j → i = j.
Proof.
  intros Hs Hi Hj Heq. destruct (blk_lookup s i Hs Hi) as [Hli _], (blk_lookup s j Hs Hj) as [Hlj _].
  rewrite Heq in Hli. eapply NoDup_lookup; [apply Hs|done|done].
Qed.

Lemma log_at_not_home s i : log_shape s → (i < Z.to_nat (lg_n s))%nat → ¬ home (log_at i).
Proof. intros Hs Hi Hh. pose proof (ls_room _ Hs). unfold home, log_at in Hh. lia. Qed.

Lemma bread_log s i : log_shape s → (i < Z.to_nat (lg_n s))%nat → bread s (log_at i) = lg_disk s !!! log_at i.
Proof.
  intros Hs Hi. unfold bread. destruct (lg_cache s !! log_at i) as [x|] eqn:Hc; [|done].
  apply (ls_cache _ Hs) in Hc. apply list_elem_of_lookup in Hc as [j Hj].
  destruct (log_at_not_home s i Hs Hi). apply (Forall_lookup_1 _ _ _ _ (ls_home _ Hs) Hj).
Qed.

(** Writes to the log area change nothing a later step of the loop reads. *)
Lemma bwrite_log_shape i x s :
  log_shape s → (i < Z.to_nat (lg_n s))%nat → log_shape (bwrite (log_at i) x s).
Proof.
  intros Hs Hi. split; try apply Hs. cbn. intros b y. rewrite lookup_delete_Some.
  intros [_ Hy]. exact (ls_cache _ Hs _ _ Hy).
Qed.

Lemma bwrite_log_cache i x s :
  log_shape s → (i < Z.to_nat (lg_n s))%nat → lg_cache (bwrite (log_at i) x s) = lg_cache s.
Proof.
  intros Hs Hi. cbn. apply delete_id. destruct (lg_cache s !! log_at i) eqn:Hc; [|done].
  apply (ls_cache _ Hs), list_elem_of_lookup in Hc as [j Hj].
  destruct (log_at_not_home s i Hs Hi). apply (Forall_lookup_1 _ _ _ _ (ls_home _ Hs) Hj).
Qed.

(** [s] after the writes [ws], none of which changes the header in memory. *)
Definition after (ws : list (Z * block)) (cache : disk) s : lstate :=
  s <| lg_disk := crash_disk (lg_disk s) ws |> <| lg_cache := cache |>
    <| lg_trace ::= λ t, t ++ ws |>.

Lemma after_bwrite ws cache b x s :
  after ws cache (bwrite b x s) = after ((b, x) :: ws) cache s.
Proof. unfold after, bwrite, set_with. cbn. by rewrite <-app_assoc. Qed.

Lemma write_log_loop_spec n t s :
  log_shape s → (t + n = Z.to_nat (lg_n s))%nat →
  write_log_loop n (Z.of_nat t) s =
    Ok (after (range_writes log_at (λ i, bread s (blk s i)) t n) (lg_cache s) s).
Proof.
  intros Hs Ht. revert t s Hs Ht. induction n as [|n IH]; intros t s Hs Ht.
  { cbn. unfold after, set_with. destruct s. cbn. by rewrite app_nil_r. }
  cbn [write_log_loop]. destruct (blk_lookup s t Hs) as [_ Hb]; [lia|].
  rewrite (aget_nat _ _ _ Hb). cbn [mbind outcome_bind].
  rewrite (ls_start _ Hs). fold (log_at t).
  replace (Z.of_nat t + 1) with (Z.of_nat (S t)) by lia.
  rewrite IH; [|by apply bwrite_log_shape; [|lia]|cbn; lia].
  rewrite bwrite_log_cache by (done || lia). rewrite after_bwrite. f_equal. f_equal.
  change (range_writes log_at (λ i, bread s (blk s i)) t (S n)) with
    ((log_at t, bread s (blk s t)) :: range_writes log_at (λ i, bread s (blk s i)) (S t) n).
  f_equal. apply list_fmap_ext. intros j x Hx. apply lookup_seq in Hx as [-> Hj]. f_equal.
  change (blk (bwrite (log_at t) (bread s (blk s t)) s)) with (blk s).
  assert (blk s (S t + j) ≠ log_at t) as Hne.
  { intros Heq. apply (log_at_not_home s t Hs); [lia|]. rewrite <-Heq. apply blk_home; [done|lia]. }
  unfold bread. cbn. by rewrite lookup_delete_ne, lookup_total_insert_ne.
Qed.

(** Installing: the writes go to home blocks, the reads come from the log. *)
Lemma install_loop_spec n t s :
  log_shape s → (t + n = Z.to_nat (lg_n s))%nat →
  ∃ cache, install_loop n (Z.of_nat t) s =
    Ok (after (range_writes (blk s) (λ i, lg_disk s !!! log_at i) t n) cache s) ∧
    (∀ b, cache !! b = if decide (b ∈ (blk s <$> seq t n)) then None else lg_cache s !! b).
Proof.
  intros Hs Ht. revert t s Hs Ht. induction n as [|n IH]; intros t s Hs Ht.
  { exists (lg_cache s). split; [|done]. cbn. unfold after, set_with. destruct s. cbn. by rewrite app_nil_r. }
  cbn [install_loop]. destruct (blk_lookup s t Hs) as [_ Hb]; [lia|].
  rewrite (aget_nat _ _ _ Hb). cbn [mbind outcome_bind].
  rewrite (ls_start _ Hs). fold (log_at t).
  replace (Z.of_nat t + 1) with (Z.of_nat (S t)) by lia.
  set (s1 := bwrite (blk s t) (bread s (log_at t)) s).
  assert (log_shape s1) as Hs1.
  { split; try apply Hs. cbn. intros b y. rewrite lookup_delete_Some. intros [_ Hy]. exact (ls_cache _ Hs _ _ Hy). }
  destruct (IH (S t) s1 Hs1) as (cache & Hi & Hc); [cbn; lia|].
  exists cache. split.
  - rewrite Hi. unfold s1. rewrite after_bwrite. f_equal. f_equal.
    change (range_writes (blk s) (λ i, lg_disk s !!! log_at i) t (S n)) with
      ((blk s t, lg_disk s !!! log_at t) :: range_writes (blk s) (λ i, lg_disk s !!! log_at i) (S t) n).
    rewrite (bread_log s t Hs) by lia. f_equal. apply list_fmap_ext. intros j x Hx.
    apply lookup_seq in Hx as [-> Hj]. f_equal. cbn. rewrite lookup_total_insert_ne; [done|].
    intros Heq. pose proof (blk_home s t Hs) as Hh. rewrite Heq in Hh.
    apply (log_at_not_home s (S (t + j)) Hs); [lia|apply Hh; lia].
  - intros b. rewrite Hc. change (blk s1) with (blk s). cbn [seq fmap list_fmap]. cbn [lg_cache s1].
    destruct (decide (b ∈ blk s <$> seq (S t) n)) as [Hin|Hin].
    + by rewrite decide_True by (by right).
    + destruct (decide (b = blk s t)) as [->|Hne].
      * rewrite decide_True by left. unfold s1. cbn. apply lookup_delete_eq.
      * rewrite decide_False by (intros [?|?]%elem_of_cons; done).
        unfold s1. cbn. by rewrite lookup_delete_ne.
Qed.

(** ** Header writes *)

Lemma write_head_spec s :
  lg_start s = start → lg_cache s !! start = None → wf_block (lg_disk s !!! start) →
  length (lg_block s) = LOGSIZE → 0 ≤ lg_n s ≤ Z.of_nat LOGSIZE →
  Forall blockno_ok (logged s) →
  ∃ h, write_head s = Ok (bwrite start h s) ∧ wf_block h ∧
    hdr_n h = lg_n s ∧ hdr_blocks h = logged s.
Proof.
  intros Hst Hc Hwf Hlen Hn Hok. unfold write_head, bread. rewrite Hst, Hc. cbn [default].
  destruct Hwf as [Hl Hr].
  rewrite (put_le_Ok 4 _ 0 _ : _ → put_le 4 _ 0 _ = _) by (unfold BSIZE in Hl; lia).
  cbn [mbind outcome_bind]. set (h0 := list_inserts 0 _ _).
  assert (wf_block h0) as Hwf0 by (apply wf_block_inserts; [by split|apply le_bytes_range]).
  destruct (write_head_loop_spec (lg_block s) (Z.to_nat (lg_n s)) 0 h0 Hwf0 Hlen)
    as (h & -> & Hwfh & Hsl & Hall).
  { lia. }
  { intros j b Hj Hb. eapply (Forall_lookup_1 _ _ j); [exact Hok|].
    unfold logged. rewrite lookup_take_lt by lia. done. }
  exists h. split; [done|]. split; [done|].
  assert (hdr_n h = lg_n s) as Hhn.
  { change (4 + 4 * 0)%nat with 4%nat in Hsl. unfold hdr_n. rewrite Hsl. unfold h0.
    rewrite (get_put_le_eq 4 _ 0); [|unfold BSIZE in Hl; lia|].
    - rewrite i32_u32. apply i32_small. unfold LOGSIZE in Hn. lia.
    - apply u32_range. }
  split; [done|]. apply list_eq. intros i. unfold logged.
  destruct (decide (i < Z.to_nat (lg_n s))%nat) as [Hi|Hi].
  - rewrite hdr_blocks_lookup by (by rewrite Hhn). rewrite lookup_take_lt by done.
    symmetry. apply Hall. lia.
  - rewrite !lookup_ge_None_2; [done|rewrite length_take; lia|].
    rewrite hdr_blocks_length, Hhn. lia.
Qed.

(** ** The view of a disk *)

Definition hdr d : block := d !!! start.

Definition view d b : block :=
  match list_find (λ x, x = b) (hdr_blocks (hdr d)) with
  | Some (i, _) => d !!! log_at i
  | None => d !!! b
  end.

Record disk_ok d : Prop := {
  dk_wf : wf_block (hdr d);
  dk_n : 0 ≤ hdr_n (hdr d) ≤ Z.of_nat LOGSIZE;
  dk_room : hdr_n (hdr d) < size;
  dk_nodup : NoDup (hdr_blocks (hdr d));
  dk_home : Forall (λ b, home b ∧ blockno_ok b) (hdr_blocks (hdr d))
}.

Lemma view_listed d i b :
  NoDup (hdr_blocks (hdr d)) → hdr_blocks (hdr d) !! i = Some b → view d b = d !!! log_at i.
Proof.
  intros Hnd Hb. unfold view.
  destruct (list_find _ _) as [[j x]|] eqn:Hf.
  - apply list_find_Some in Hf as (Hj & -> & _). by rewrite (NoDup_lookup _ _ _ _ Hnd Hj Hb).
  - apply list_find_None in Hf. rewrite Forall_lookup in Hf. by destruct (Hf i b Hb).
Qed.

Lemma view_unlisted d b : b ∉ hdr_blocks (hdr d) → view d b = d !!! b.
Proof.
  intros Hb. unfold view. destruct (list_find _ _) as [[j x]|] eqn:Hf; [|done].
  apply list_find_Some in Hf as (Hj & -> & _). destruct Hb. by eapply list_elem_of_lookup_2.
Qed.

Lemma disk_ok_hdr d d' : hdr d' = hdr d → disk_ok d → disk_ok d'.
Proof. intros Hh [? ? ? ? ?]. split; by rewrite Hh. Qed.

Lemma hdr_listed_ne d b : disk_ok d → b ∈ hdr_blocks (hdr d) → b ≠ start.
Proof.
  intros Hd [i Hi]%list_elem_of_lookup ->. pose proof (dk_room _ Hd). pose proof (dk_n _ Hd).
  destruct (Forall_lookup_1 _ _ _ _ (dk_home _ Hd) Hi) as [Hh _]. apply Hh. lia.
Qed.

(** Writes to listed home blocks keep the view. *)
Lemma view_install d ws :
  disk_ok d → Forall (λ w, w.1 ∈ hdr_blocks (hdr d)) ws →
  disk_ok (crash_disk d ws) ∧ ∀ b, view (crash_disk d ws) b = view d b.
Proof.
  intros Hd Hws.
  assert (∀ x, x ∉ hdr_blocks (hdr d) → crash_disk d ws !!! x = d !!! x) as Hne.
  { intros x Hx. apply crash_disk_ne. intros (w & -> & Hw)%list_elem_of_fmap.
    rewrite Forall_forall in Hws. apply Hx. auto. }
  assert (hdr (crash_disk d ws) = hdr d) as Hh.
  { apply Hne. intros Hs. by apply (hdr_listed_ne d start Hd). }
  split; [by eapply disk_ok_hdr|]. intros b. destruct (decide (b ∈ hdr_blocks (hdr d))) as [Hb|Hb].
  - apply list_elem_of_lookup in Hb as [i Hi]. pose proof (dk_nodup _ Hd) as Hnd.
    rewrite (view_listed d i b), (view_listed _ i b) by (by rewrite ?Hh).
    apply Hne. intros [j Hj]%list_elem_of_lookup.
    destruct (Forall_lookup_1 _ _ _ _ (dk_home _ Hd) Hj) as [Hhome _]. apply Hhome.
    apply lookup_lt_Some in Hi. rewrite hdr_blocks_length in Hi. pose proof (dk_room _ Hd).
    unfold log_at. lia.
  - rewrite !view_unlisted by (by rewrite ?Hh). by apply Hne.
Qed.

Lemma hdr_blocks_empty h : hdr_n h = 0 → hdr_blocks h = [].
Proof. intros Hn. unfold hdr_blocks. by rewrite Hn. Qed.

(** With an empty header, writes to the body of the log keep the view. *)
Lemma view_log_body d ws :
  disk_ok d → hdr_n (hdr d) = 0 → Forall (λ w, start < w.1 < start + size) ws →
  disk_ok (crash_disk d ws) ∧ hdr (crash_disk d ws) = hdr d ∧
  ∀ b, home b → view (crash_disk d ws) b = d !!! b.
Proof.
  intros Hd Hn Hws.
  assert (∀ x, ¬ (start < x < start + size) → crash_disk d ws !!! x = d !!! x) as Hne.
  { intros x Hx. apply crash_disk_ne. intros (w & -> & Hw)%list_elem_of_fmap.
    rewrite Forall_forall in Hws. apply Hx. auto. }
  assert (hdr (crash_disk d ws) = hdr d) as Hh by (apply Hne; lia).
  split_and!; [by eapply disk_ok_hdr|done|]. intros b Hb. rewrite view_unlisted.
  - apply Hne. unfold home in Hb. lia.
  - rewrite Hh, hdr_blocks_empty by done. apply not_elem_of_nil.
Qed.

(** ** Commit as a sequence of writes *)

Record log_ready s : Prop := {
  lr_shape : log_shape s;
  lr_disk : disk_ok (lg_disk s);
  lr_empty : hdr_n (hdr (lg_disk s)) = 0
}.

Definition copy_writes s : list (Z * block) :=
  range_writes log_at (λ i, bread s (blk s i)) 0 (Z.to_nat (lg_n s)).
Definition home_writes s : list (Z * block) :=
  range_writes (blk s) (λ i, bread s (blk s i)) 0 (Z.to_nat (lg_n s)).

Lemma start_not_cached s : log_shape s → 0 < lg_n s → lg_cache s !! start = None.
Proof.
  intros Hs Hn. destruct (lg_cache s !! start) as [x|] eqn:Hc; [|done].
  apply (ls_cache _ Hs), list_elem_of_lookup in Hc as [j Hj].
  destruct (Forall_lookup_1 _ _ _ _ (ls_home _ Hs) Hj) as [Hh _].
  destruct Hh. pose proof (ls_room _ Hs). lia.
Qed.

Lemma range_body s w : log_shape s → w ∈ copy_writes s → start < w.1 < start + size.
Proof.
  intros Hs (i & -> & Hi)%list_elem_of_fmap. apply elem_of_seq in Hi. cbn.
  pose proof (ls_room _ Hs). unfold log_at. lia.
Qed.

Lemma home_writes_logged s w : log_shape s → w ∈ home_writes s → w.1 ∈ logged s.
Proof.
  intros Hs (i & -> & Hi)%list_elem_of_fmap. apply elem_of_seq in Hi. cbn.
  destruct (blk_lookup s i Hs) as [Hl _]; [lia|]. by eapply list_elem_of_lookup_2.
Qed.

Lemma copied s d i :
  log_shape s → (i < Z.to_nat (lg_n s))%nat →
  crash_disk d (copy_writes s) !!! log_at i = bread s (blk s i).
Proof.
  intros Hs Hi. unfold copy_writes.
  apply (crash_range d log_at (λ i, bread s (blk s i)) 0 _ i); [lia|].
  intros j _ Hj. unfold log_at in Hj. lia.
Qed.

Lemma after_after ws1 c1 ws2 c2 s : after ws2 c2 (after ws1 c1 s) = after (ws1 ++ ws2) c2 s.
Proof. unfold after, set_with. cbn. by rewrite crash_disk_app, app_assoc. Qed.

Lemma bwrite_after b x ws c s : bwrite b x (after ws c s) = after (ws ++ [(b, x)]) (delete b c) s.
Proof. unfold after, bwrite, set_with. cbn. by rewrite crash_disk_app, app_assoc. Qed.

Lemma after_n ws c n s : (after ws c s) <| lg_n := n |> = after ws c (s <| lg_n := n |>).
Proof. reflexivity. Qed.

Lemma bwrite_n b x n s : (bwrite b x s) <| lg_n := n |> = bwrite b x (s <| lg_n := n |>).
Proof. reflexivity. Qed.

(** The four phases: copy to the log, commit point, install, erase. *)
Lemma commit_run s :
  log_ready s → 0 < lg_n s →
  ∃ h1 h2 cache,
    let ws := copy_writes s ++ [(start, h1)] ++ home_writes s ++ [(start, h2)] in
    commit s = Ok (after ws cache (s <| lg_n := 0 |>)) ∧
    (∀ b, cache !! b = None) ∧
    wf_block h1 ∧ hdr_n h1 = lg_n s ∧ hdr_blocks h1 = logged s ∧ wf_block h2 ∧ hdr_n h2 = 0.
Proof.
  intros [Hs Hd He] Hn. pose proof (start_not_cached s Hs Hn) as Hsc.
  unfold commit. rewrite decide_True by done. unfold write_log.
  rewrite (write_log_loop_spec _ 0 s Hs : _ → write_log_loop _ 0 s = _) by lia.
  fold (copy_writes s). set (s1 := after (copy_writes s) (lg_cache s) s). cbn [mbind outcome_bind].
  assert (hdr (lg_disk s1) = hdr (lg_disk s)) as Hh1.
  { apply (view_log_body (lg_disk s) (copy_writes s)); [done|done|].
    apply Forall_forall. intros w. by apply range_body. }
  destruct (write_head_spec s1) as (h1 & -> & Hwf1 & Hn1 & Hb1).
  { apply Hs. } { done. } { unfold hdr in Hh1. rewrite Hh1. apply Hd. } { apply Hs. } { apply Hs. }
  { eapply Forall_impl; [apply (ls_home _ Hs)|]. by intros b [_ ?]. }
  cbn [mbind outcome_bind]. set (s2 := bwrite start h1 s1).
  assert (log_shape s2) as Hs2.
  { split; try apply Hs. cbn. intros b x. rewrite lookup_delete_Some. intros [_ Hx].
    exact (ls_cache _ Hs _ _ Hx). }
  unfold install_trans.
  destruct (install_loop_spec (Z.to_nat (lg_n s2)) 0 s2 Hs2) as (cache & Hi & Hc); [done|].
  change (Z.of_nat 0) with 0 in Hi. rewrite Hi. cbn [mbind outcome_bind].
  assert (range_writes (blk s2) (λ i, lg_disk s2 !!! log_at i) 0 (Z.to_nat (lg_n s2)) = home_writes s) as Hw.
  { apply list_fmap_ext. intros j x [-> Hj]%lookup_seq. cbn. f_equal.
    rewrite lookup_total_insert_ne by (unfold log_at; lia). apply copied; [done|exact Hj]. }
  rewrite Hw. set (s3 := after (home_writes s) cache s2).
  assert (∀ b, cache !! b = None) as Hempty.
  { intros b. rewrite Hc. case_decide as Hb; [done|]. apply eq_None_not_Some. intros [x Hx].
    apply Hb. apply (ls_cache _ Hs2), list_elem_of_lookup in Hx as [i Hi'].
    apply lookup_take_Some in Hi' as [Hi1 Hi2].
    apply list_elem_of_fmap. exists i. split; [|apply elem_of_seq; cbn in *; lia].
    unfold blk. symmetry. by apply list_lookup_total_correct. }
  destruct (write_head_spec (s3 <| lg_n := 0 |>)) as (h2 & -> & Hwf2 & Hn2 & _).
  { apply Hs. } { apply Hempty. }
  { cbn. rewrite crash_disk_ne, lookup_total_insert_eq; [done|].
    intros (w & Heq & Hw')%list_elem_of_fmap. apply home_writes_logged in Hw'; [|done].
    rewrite <-Heq in Hw'. apply list_elem_of_lookup in Hw' as [j Hj].
    destruct (Forall_lookup_1 _ _ _ _ (ls_home _ Hs) Hj) as [Hh _]. destruct Hh.
    pose proof (ls_room _ Hs). lia. }
  { apply Hs. } { cbn. lia. } { constructor. }
  exists h1, h2, (delete start cache). split_and!; [|intros b|done..].
  - f_equal. unfold s3, s2, s1.
    rewrite after_n, bwrite_n, after_n, bwrite_after, after_bwrite, after_after.
    reflexivity.
  - destruct (decide (b = start)) as [->|]; [apply lookup_delete_eq|]. by rewrite lookup_delete_ne.
Qed.

(** ** What a crash can leave *)

(** All home blocks as before the transaction, or all as after it. *)
Definition old_view s d : Prop := ∀ b, home b → view d b = lg_disk s !!! b.
Definition new_view s d : Prop := ∀ b, home b → view d b = bread s b.

(** A crash touches nothing but the log and the blocks of the transaction. *)
Definition confined s d : Prop :=
  (∀ b, home b → b ∉ logged s → d !!! b = lg_disk s !!! b) ∧
  (∀ b, b ∈ hdr_blocks (hdr d) → b ∈ logged s).

Lemma bread_unlogged s b : log_shape s → b ∉ logged s → bread s b = lg_disk s !!! b.
Proof.
  intros Hs Hb. unfold bread. destruct (lg_cache s !! b) as [x|] eqn:Hc; [|done].
  destruct Hb. by eapply ls_cache.
Qed.

Lemma crash_in_copy s ws1 ws2 :
  log_ready s → copy_writes s = ws1 ++ ws2 →
  disk_ok (crash_disk (lg_disk s) ws1) ∧ confined s (crash_disk (lg_disk s) ws1) ∧
  old_view s (crash_disk (lg_disk s) ws1).
Proof.
  intros [Hs Hd He] Hw.
  assert (Forall (λ w, start < w.1 < start + size) ws1) as Hb.
  { apply Forall_forall. intros w Hin. apply (range_body s); [done|]. rewrite Hw.
    apply elem_of_app. by left. }
  destruct (view_log_body (lg_disk s) ws1 Hd He Hb) as (? & Hh & ?).
  split_and!; [done| |done]. split.
  - intros b Hhome _. apply crash_disk_ne. intros (w & -> & Hin)%list_elem_of_fmap.
    rewrite Forall_forall in Hb. apply Hb in Hin. unfold home in Hhome. lia.
  - intros b. rewrite Hh, hdr_blocks_empty by done. by intros ?%not_elem_of_nil.
Qed.

(** The disk right after the header write. *)
Definition commit_point s (h1 : block) : disk :=
  crash_disk (lg_disk s) (copy_writes s ++ [(start, h1)]).

Section committed.
Context (s : lstate) (h1 : block).
Context (Hs : log_shape s) (Hwf : wf_block h1).
Context (Hn1 : hdr_n h1 = lg_n s) (Hb1 : hdr_blocks h1 = logged s).

Lemma commit_point_hdr : hdr (commit_point s h1) = h1.
Proof. unfold hdr, commit_point. rewrite crash_disk_app. apply lookup_total_insert_eq. Qed.

Lemma commit_point_ok : disk_ok (commit_point s h1).
Proof. split; rewrite commit_point_hdr, ?Hn1, ?Hb1; try apply Hs. done. Qed.

Lemma commit_point_home b : home b → b ≠ start → commit_point s h1 !!! b = lg_disk s !!! b.
Proof.
  intros Hb Hne. unfold commit_point. rewrite crash_disk_app. cbn.
  rewrite lookup_total_insert_ne by done. apply crash_disk_ne.
  intros (w & -> & Hw)%list_elem_of_fmap. apply range_body in Hw; [|done].
  unfold home in Hb. lia.
Qed.

Lemma commit_point_new : 0 < lg_n s → new_view s (commit_point s h1).
Proof.
  intros Hpos b Hb. pose proof (ls_room _ Hs) as Hroom.
  assert (b ≠ start) as Hne by (unfold home in Hb; lia).
  destruct (decide (b ∈ logged s)) as [Hin|Hin].
  - apply list_elem_of_lookup in Hin as [i Hi].
    assert (i < Z.to_nat (lg_n s))%nat as Hilt.
    { apply lookup_lt_Some in Hi. unfold logged in Hi. rewrite length_take in Hi. lia. }
    rewrite (view_listed _ i b).
    + unfold commit_point. rewrite crash_disk_app. cbn.
      rewrite lookup_total_insert_ne by (unfold log_at; lia). rewrite copied by done.
      destruct (blk_lookup s i Hs Hilt) as [Hi' _]. congruence.
    + apply commit_point_ok.
    + by rewrite commit_point_hdr, Hb1.
  - rewrite view_unlisted by (by rewrite commit_point_hdr, Hb1).
    rewrite commit_point_home by done. by rewrite bread_unlogged.
Qed.

Lemma crash_in_install ws1 ws2 :
  0 < lg_n s → home_writes s = ws1 ++ ws2 →
  disk_ok (crash_disk (commit_point s h1) ws1) ∧ confined s (crash_disk (commit_point s h1) ws1) ∧
  new_view s (crash_disk (commit_point s h1) ws1).
Proof.
  intros Hpos Hw. pose proof (ls_room _ Hs) as Hroom.
  assert (∀ w, w ∈ ws1 → w.1 ∈ logged s) as Hin.
  { intros w Hin. apply home_writes_logged; [done|]. rewrite Hw. apply elem_of_app. by left. }
  destruct (view_install (commit_point s h1) ws1 commit_point_ok) as [Hok Hv].
  { apply Forall_forall. intros w. rewrite commit_point_hdr, Hb1. apply Hin. }
  assert (∀ b, b ∉ logged s → crash_disk (commit_point s h1) ws1 !!! b = commit_point s h1 !!! b) as Hne.
  { intros b Hb. apply crash_disk_ne. intros (w & -> & Hw')%list_elem_of_fmap. auto. }
  split_and!; [done| |intros b Hb; rewrite Hv; by apply commit_point_new]. split.
  - intros b Hb Hnl. rewrite Hne by done. apply commit_point_home; [done|]. unfold home in Hb. lia.
  - intros b. unfold hdr. rewrite Hne.
    + fold (hdr (commit_point s h1)). by rewrite commit_point_hdr, Hb1.
    + intros [j Hj]%list_elem_of_lookup. destruct (Forall_lookup_1 _ _ _ _ (ls_home _ Hs) Hj) as [Hh _].
      destruct Hh. lia.
Qed.

(** The disk after the transaction has been erased from the log. *)
Lemma commit_end h2 :
  0 < lg_n s → wf_block h2 → hdr_n h2 = 0 →
  let d := crash_disk (commit_point s h1) (home_writes s ++ [(start, h2)]) in
  disk_ok d ∧ hdr_n (hdr d) = 0 ∧ (∀ b, home b → d !!! b = bread s b) ∧ confined s d ∧ new_view s d.
Proof.
  intros Hpos Hwf2 Hn2 d. pose proof (ls_room _ Hs) as Hroom.
  assert (hdr d = h2) as Hh.
  { unfold hdr, d. rewrite crash_disk_app. apply lookup_total_insert_eq. }
  assert (∀ b, home b → d !!! b = bread s b) as Hd.
  { intros b Hb. assert (b ≠ start) as Hne by (unfold home in Hb; lia).
    unfold d. rewrite crash_disk_app. cbn. rewrite lookup_total_insert_ne by done.
    destruct (decide (b ∈ logged s)) as [Hin|Hin].
    - apply list_elem_of_lookup in Hin as [i Hi].
      assert (i < Z.to_nat (lg_n s))%nat as Hilt.
      { apply lookup_lt_Some in Hi. unfold logged in Hi. rewrite length_take in Hi. lia. }
      destruct (blk_lookup s i Hs Hilt) as [Hi' _]. rewrite Hi in Hi'. injection Hi' as ->.
      apply (crash_range _ (blk s) (λ i, bread s (blk s i)) 0 _ i); [lia|].
      intros j Hj Heq. apply (blk_inj s); [done|lia|lia|done].
    - rewrite crash_disk_ne, commit_point_home by done || (intros (w & -> & Hw)%list_elem_of_fmap;
        apply Hin; by apply home_writes_logged). by rewrite bread_unlogged. }
  assert (hdr_blocks (hdr d) = []) as Hnil by (rewrite Hh; by apply hdr_blocks_empty).
  split_and!.
  - split; rewrite ?Hnil, ?Hh, ?Hn2; first [done | lia | constructor].
  - by rewrite Hh.
  - done.
  - split; [intros b Hb Hnl; rewrite Hd by done; by apply bread_unlogged|].
    intros b. rewrite Hnil. by intros ?%not_elem_of_nil.
  - intros b Hb. rewrite view_unlisted; [auto|]. rewrite Hnil. apply not_elem_of_nil.
Qed.
End committed.

Lemma empty_view d : hdr_n (hdr d) = 0 → ∀ b, view d b = d !!! b.
Proof.
  intros Hn b. apply view_unlisted. rewrite hdr_blocks_empty by done. apply not_elem_of_nil.
Qed.

(** [commit] returns; it ends with every home block on disk as the transaction
    left it; and whatever prefix of its writes reaches the disk, the view is
    the old or the new one. *)
Lemma commit_spec s :
  log_ready s →
  ∃ s' ws, commit s = Ok s' ∧ log_ready s' ∧ lg_n s' = 0 ∧ lg_trace s' = lg_trace s ++ ws ∧
    lg_outstanding s' = lg_outstanding s ∧ lg_committing s' = lg_committing s ∧
    (∀ b, home b → lg_disk s' !!! b = bread s b) ∧
    ∀ ws1 ws2, ws = ws1 ++ ws2 →
      let d := crash_disk (lg_disk s) ws1 in
      disk_ok d ∧ confined s d ∧ (old_view s d ∨ new_view s d).
Proof.
  intros Hr. pose proof Hr as [Hs Hd He]. destruct (decide (0 < lg_n s)) as [Hpos|Hz].
  - destruct (commit_run s Hr Hpos) as (h1 & h2 & cache & Hc & Hcache & Hwf1 & Hn1 & Hb1 & Hwf2 & Hn2).
    destruct (commit_end s h1 Hs h2 Hpos Hwf2 Hn2) as (Hok & Hn0 & Hdisk & Hconf & Hnew).
    assert (∀ ws, crash_disk (commit_point s h1) ws =
      crash_disk (lg_disk s) (copy_writes s ++ [(start, h1)] ++ ws)) as Hcp.
    { intros ws. unfold commit_point. by rewrite <-crash_disk_app, <-app_assoc. }
    rewrite Hcp in Hok, Hn0, Hdisk, Hconf, Hnew. eexists _, _. split; [exact Hc|].
    split_and!; [|done|done|done|done|exact Hdisk|].
    + split; [|exact Hok|exact Hn0]. split; cbn; try apply Hs.
      * unfold LOGSIZE. lia.
      * pose proof (ls_room _ Hs). lia.
      * constructor.
      * constructor.
      * intros b x Hx. by rewrite Hcache in Hx.
    + intros ws1 ws2 Hw d. apply app_eq_app in Hw as (l & [[Hw1 Hw2]|[Hw1 Hw2]]).
      * destruct (crash_in_copy s ws1 l Hr Hw1) as (? & ? & ?). auto.
      * destruct l as [|w l].
        { rewrite app_nil_r in Hw1. destruct (crash_in_copy s ws1 [] Hr) as (? & ? & ?); [by rewrite app_nil_r|auto]. }
        injection Hw2 as <- Hw2. unfold d. rewrite Hw1. change ((start, h1) :: l) with ([(start, h1)] ++ l).
        rewrite <-Hcp. apply app_eq_app in Hw2 as (l' & [[Hw2 _]|[-> Hw3]]).
        -- destruct (crash_in_install s h1 Hs Hwf1 Hn1 Hb1 l l' Hpos Hw2) as (? & ? & ?). auto.
        -- destruct l' as [|w' l'].
           { rewrite app_nil_r. destruct (crash_in_install s h1 Hs Hwf1 Hn1 Hb1 (home_writes s) [] Hpos) as (? & ? & ?);
               [by rewrite app_nil_r|auto]. }
           injection Hw3 as <- Hw3. symmetry in Hw3. apply app_nil in Hw3 as [-> _].
           rewrite Hcp. auto.
  - assert (logged s = []) as Hnil.
    { unfold logged. replace (Z.to_nat (lg_n s)) with 0%nat by lia. done. }
    assert (∀ b, bread s b = lg_disk s !!! b) as Hb.
    { intros b. apply bread_unlogged; [done|]. rewrite Hnil. apply not_elem_of_nil. }
    exists s, []. unfold commit. rewrite decide_False by done. pose proof (ls_n _ Hs).
    split_and!; [done|done|lia|by rewrite app_nil_r|done|done|intros b _; by rewrite Hb|].
    intros ws1 ws2 Hw. symmetry in Hw. apply app_nil in Hw as [-> _]. split_and!; [done| |].
    + split; [done|]. intros b. cbn. rewrite hdr_blocks_empty by done. by intros ?%not_elem_of_nil.
    + left. intros b _. by apply empty_view.
Qed.

(** ** Recovery *)

(** The superblock of [d] describes this log, and recovery does not touch it. *)
Record sb_ok d : Prop := {
  so_sb : ∃ sb, readsb (d !!! 1) = Ok sb ∧ i32 (sb_logstart sb) = start ∧ i32 (sb_nlog sb) = size;
  so_home : home 1;
  so_unlisted : 1 ∉ hdr_blocks (hdr d)
}.

Lemma read_head_spec d :
  disk_ok d →
  ∃ blks, length blks = LOGSIZE ∧
    let s := (boot d) <| lg_start := start |> <| lg_size := size |> in
    read_head s = Ok (s <| lg_n := hdr_n (hdr d) |> <| lg_block := blks |>) ∧
    take (Z.to_nat (hdr_n (hdr d))) blks = hdr_blocks (hdr d).
Proof.
  intros Hd. pose proof (dk_n _ Hd) as Hn. destruct (dk_wf _ Hd) as [Hl _].
  destruct (read_head_loop_spec (hdr d) (Z.to_nat (hdr_n (hdr d))) 0 (replicate LOGSIZE 0) Hl)
    as (blks & Hr & Hlen & _ & Hall); [done|lia|].
  exists blks. split; [done|]. cbv zeta. split.
  - unfold read_head. change (bread _ _) with (hdr d).
    rewrite (get_le_Ok 4 (hdr d) 0 : _ → get_le 4 _ 0 = _) by (unfold BSIZE in Hl; lia).
    cbn [mbind outcome_bind]. fold (hdr_n (hdr d)).
    match goal with |- context [read_head_loop _ _ _ ?x] => change x with (replicate LOGSIZE 0) end.
    by rewrite Hr.
  - apply list_eq. intros i. destruct (decide (i < Z.to_nat (hdr_n (hdr d)))%nat) as [Hi|Hi].
    + rewrite hdr_blocks_lookup, lookup_take_lt by done. apply Hall. lia.
    + rewrite !lookup_ge_None_2; [done|rewrite hdr_blocks_length; lia|rewrite length_take; lia].
Qed.

Lemma boot_shape d blks :
  disk_ok d → length blks = LOGSIZE → take (Z.to_nat (hdr_n (hdr d))) blks = hdr_blocks (hdr d) →
  log_shape ((boot d) <| lg_start := start |> <| lg_size := size |>
    <| lg_n := hdr_n (hdr d) |> <| lg_block := blks |>).
Proof.
  intros Hd Hlen Ht. split; try done; try apply Hd.
  - unfold logged. cbn. rewrite Ht. apply Hd.
  - unfold logged. cbn. rewrite Ht. apply Hd.
Qed.

Lemma recover_run d :
  disk_ok d →
  ∃ s blks h2, recover_from_log ((boot d) <| lg_start := start |> <| lg_size := size |>) = Ok s ∧
    lg_trace s = range_writes (λ i, blks !!! i) (λ i, d !!! log_at i) 0 (Z.to_nat (hdr_n (hdr d))) ++ [(start, h2)] ∧
    lg_disk s = crash_disk d (lg_trace s) ∧
    take (Z.to_nat (hdr_n (hdr d))) blks = hdr_blocks (hdr d) ∧ length blks = LOGSIZE ∧
    wf_block h2 ∧ hdr_n h2 = 0 ∧
    (lg_start s = start ∧ lg_size s = size ∧ lg_n s = 0 ∧ lg_outstanding s = 0 ∧ lg_committing s = 0 ∧
     lg_block s = blks ∧ ∀ b, lg_cache s !! b = None).
Proof.
  intros Hd. destruct (read_head_spec d Hd) as (blks & Hlen & Hrd & Ht).
  pose proof (boot_shape d blks Hd Hlen Ht) as Hs.
  unfold recover_from_log. rewrite Hrd. cbn [mbind outcome_bind]. unfold install_trans.
  set (s1 := _ <| lg_block := blks |>) in Hs |- *.
  destruct (install_loop_spec (Z.to_nat (lg_n s1)) 0 s1 Hs) as (cache & Hi & Hc); [done|].
  change (Z.of_nat 0) with 0 in Hi. rewrite Hi. cbn [mbind outcome_bind].
  assert (∀ b, cache !! b = None) as Hempty by (intros b; rewrite Hc; by case_decide).
  set (ws := range_writes _ _ _ _). set (s2 := after ws cache s1).
  assert (Forall (λ w, w.1 ∈ hdr_blocks (hdr d)) ws) as Hws.
  { apply Forall_forall. intros w (i & -> & Hin)%list_elem_of_fmap. apply elem_of_seq in Hin.
    rewrite <-Ht. destruct (blk_lookup s1 i Hs) as [Hl _]; [cbn in *; lia|].
    exact (list_elem_of_lookup_2 _ _ _ Hl). }
  destruct (view_install d ws Hd Hws) as [Hok _].
  destruct (write_head_spec (s2 <| lg_n := 0 |>)) as (h2 & Hw & Hwf2 & Hn2 & _).
  { done. } { apply Hempty. } { exact (dk_wf _ Hok). } { exact Hlen. } { cbn. lia. } { constructor. }
  exists (bwrite start h2 (s2 <| lg_n := 0 |>)), blks, h2.
  split; [exact Hw|]. split; [done|]. split; [cbn; by rewrite crash_disk_app|].
  split_and!; try done. intros b. cbn.
  destruct (decide (b = start)) as [->|]; [apply lookup_delete_eq|by rewrite lookup_delete_ne].
Qed.

(** Every interruption of recovery leaves a disk with the same view. *)
Definition recovers d d' : Prop :=
  disk_ok d' ∧ sb_ok d' ∧ ∀ b, home b → view d' b = view d b.

Lemma recovers_install d ws :
  disk_ok d → sb_ok d → Forall (λ w, w.1 ∈ hdr_blocks (hdr d)) ws → recovers d (crash_disk d ws).
Proof.
  intros Hd [Hsb H1 Hu] Hws. destruct (view_install d ws Hd Hws) as [Hok Hv].
  assert (∀ x, x ∉ hdr_blocks (hdr d) → crash_disk d ws !!! x = d !!! x) as Hne.
  { intros x Hx. apply crash_disk_ne. intros (w & -> & Hw)%list_elem_of_fmap.
    rewrite Forall_forall in Hws. apply Hx. auto. }
  split_and!; [done| |by intros]. split; [by rewrite Hne|done|].
  unfold hdr. rewrite Hne; [done|]. intros Hs. by apply (hdr_listed_ne d start Hd).
Qed.

Lemma recover_spec d :
  disk_ok d → sb_ok d →
  ∃ s, initlog (boot d) = Ok s ∧ log_ready s ∧ lg_outstanding s = 0 ∧ lg_committing s = 0 ∧ lg_n s = 0 ∧
    lg_disk s = crash_disk d (lg_trace s) ∧ sb_ok (lg_disk s) ∧
    (∀ b, home b → lg_disk s !!! b = view d b) ∧
    ∀ ws1 ws2, lg_trace s = ws1 ++ ws2 → recovers d (crash_disk d ws1).
Proof.
  intros Hd Hsb. pose proof Hsb as [(sb & Hrd & Hst & Hsz) H1 Hu].
  destruct (recover_run d Hd) as (s & blks & h2 & Hrec & Htr & Hdisk & Ht & Hlen & Hwf2 & Hn2 &
    (Hs1 & Hs2 & Hs3 & Hs4 & Hs5 & Hs6 & Hs7)).
  set (n := Z.to_nat (hdr_n (hdr d))) in *.
  set (W := range_writes _ _ _ _) in Htr. pose proof (dk_n _ Hd) as Hn. pose proof (dk_room _ Hd) as Hroom.
  assert (∀ i, (i < n)%nat → hdr_blocks (hdr d) !! i = Some (blks !!! i)) as Hlk.
  { intros i Hi. rewrite <-Ht, lookup_take_lt by done. apply list_lookup_lookup_total_lt. lia. }
  assert (Forall (λ w, w.1 ∈ hdr_blocks (hdr d)) W) as HW.
  { apply Forall_forall. intros w (i & -> & Hi)%list_elem_of_fmap. apply elem_of_seq in Hi.
    apply (list_elem_of_lookup_2 _ i), Hlk. lia. }
  assert (hdr (lg_disk s) = h2) as Hh.
  { unfold hdr. rewrite Hdisk, Htr, crash_disk_app. apply lookup_total_insert_eq. }
  assert (∀ b, b ≠ start → b ∉ hdr_blocks (hdr d) → lg_disk s !!! b = d !!! b) as Hother.
  { intros b Hb Hnb. rewrite Hdisk, Htr, crash_disk_app. cbn. rewrite lookup_total_insert_ne by done.
    apply crash_disk_ne. intros (w & -> & Hw)%list_elem_of_fmap. rewrite Forall_forall in HW. auto. }
  assert (∀ b, home b → lg_disk s !!! b = view d b) as Hfinal.
  { intros b Hb. assert (b ≠ start) as Hne by (unfold home in Hb; lia).
    destruct (decide (b ∈ hdr_blocks (hdr d))) as [Hin|Hin]; [|rewrite Hother by done; by rewrite view_unlisted].
    apply list_elem_of_lookup in Hin as [i Hi]. rewrite (view_listed d i b (dk_nodup _ Hd) Hi).
    assert (i < n)%nat as Hin by (apply lookup_lt_Some in Hi; by rewrite hdr_blocks_length in Hi).
    pose proof (Hlk i Hin) as Hi2. rewrite Hi in Hi2. injection Hi2 as ->.
    rewrite Hdisk, Htr, crash_disk_app. cbn. rewrite lookup_total_insert_ne by done.
    apply (crash_range d (λ i, blks !!! i) (λ i, d !!! log_at i) 0 n i); [lia|].
    intros j Hj Heq. eapply NoDup_lookup; [apply (dk_nodup _ Hd)|apply Hlk; lia|]. rewrite Heq. by apply Hlk. }
  assert (disk_ok (lg_disk s)) as Hok'.
  { split; rewrite ?Hh, ?hdr_blocks_empty, ?Hn2 by done; first [done | lia | constructor]. }
  assert (sb_ok (lg_disk s)) as Hsb'.
  { split; [|done|rewrite Hh, hdr_blocks_empty by done; apply not_elem_of_nil].
    rewrite Hother; [eauto|unfold home in H1; lia|done]. }
  exists s. split.
  { unfold initlog. change (bread (boot d) 1) with (d !!! 1). rewrite Hrd. cbn [mbind outcome_bind].
    by rewrite Hst, Hsz. }
  split.
  { split; [|done|by rewrite Hh]. split; rewrite ?Hs1, ?Hs2, ?Hs3, ?Hs6; try done.
    - lia.
    - unfold logged. rewrite Hs3. constructor.
    - unfold logged. rewrite Hs3. constructor.
    - intros b x Hx. by rewrite Hs7 in Hx. }
  split_and!; try done. intros ws1 ws2 Hw. rewrite Htr in Hw.
  apply app_eq_app in Hw as (l & [[Hw _]|[-> Hw]]).
  - apply recovers_install; [done|done|]. rewrite Hw in HW. by apply Forall_app in HW as [? _].
  - destruct l as [|w l]; [rewrite app_nil_r; by apply recovers_install|].
    injection Hw as <- Hw. symmetry in Hw. apply app_nil in Hw as [-> _].
    rewrite <-Htr, <-Hdisk. split_and!; [done|done|]. intros b Hb. rewrite empty_view by (by rewrite Hh). auto.
Qed.

(** Booting, possibly crashing during recovery any number of times. *)
Inductive boots : disk → lstate → Prop :=
| boots_done d s : initlog (boot d) = Ok s → boots d s
| boots_crash d s0 ws1 ws2 s :
    initlog (boot d) = Ok s0 → lg_trace s0 = ws1 ++ ws2 →
    boots (crash_disk d ws1) s → boots d s.

Lemma boots_view d s :
  boots d s → disk_ok d → sb_ok d →
  log_ready s ∧ ∀ b, home b → lg_disk s !!! b = view d b.
Proof.
  induction 1 as [d s Hi|d s0 ws1 ws2 s Hi Ht Hb IH]; intros Hd Hsb;
    destruct (recover_spec d Hd Hsb) as (s1 & Hs1 & Hr & _ & _ & _ & _ & _ & Hv & Hcr);
    rewrite Hi in Hs1; injection Hs1 as <-; [done|].
  destruct (Hcr ws1 ws2 Ht) as (Hok & Hsb' & Hview). destruct (IH Hok Hsb') as [? Hall].
  split; [done|]. intros b Hbh. rewrite Hall by done. auto.
Qed.
End log.
