(* ===== verification/LogTheorems.v ===== *)
(** * Transactions: absorption, reservation of log space, atomicity *)

From stdpp Require Import gmap.
From S2P Require Import Prelude.
From S2P Require Import Bytes.
From S2P Require Import Log.
From S2P Require Import LogSpec.

Local Open Scope Z_scope.

(** ** log_write *)

Lemma absorb_spec (blks : list Z) b n i :
  (i + n ≤ length blks)%nat →
  ∃ j, absorb blks b n (Z.of_nat i) = Ok (Z.of_nat j) ∧ (i ≤ j ≤ i + n)%nat ∧
    ((j < i + n)%nat → blks !! j = Some b) ∧
    (∀ j', (i ≤ j' < j)%nat → blks !! j' ≠ Some b).
Proof.
  revert i. induction n as [|n IH]; intros i Hlen.
  { exists i. split_and!; [done|lia|lia|lia|]. intros. lia. }
  cbn [absorb]. destruct (lookup_lt_is_Some_2 blks i) as [x Hx]; [lia|].
  rewrite (aget_nat _ _ _ Hx). cbn [mbind outcome_bind]. case_decide as Hb.
  - subst. exists i. split_and!; [done|lia|lia|done|]. intros. lia.
  - replace (Z.of_nat i + 1) with (Z.of_nat (S i)) by lia.
    destruct (IH (S i)) as (j & Hj & Hr & Hlt & Hno); [lia|].
    exists j. split_and!; [done|lia|lia|intros; apply Hlt; lia|].
    intros j' Hj'. destruct (decide (j' = i)) as [->|]; [congruence|apply Hno; lia].
Qed.

Section transactions.
Context (start size : Z).
Implicit Types (s : lstate) (b : Z).

(** The transaction after [b] has been logged. *)
Definition log_add (b : Z) (l : list Z) : list Z := if decide (b ∈ l) then l else l ++ [b].

Lemma log_write_spec b d s :
  log_ready start size s → home start size b → blockno_ok b →
  lg_n s < Z.of_nat LOGSIZE → lg_n s < size - 1 → 1 ≤ lg_outstanding s →
  ∃ s', log_write b d s = Ok s' ∧ log_ready start size s' ∧
    logged s' = log_add b (logged s) ∧ lg_disk s' = lg_disk s ∧
    lg_outstanding s' = lg_outstanding s ∧ lg_committing s' = lg_committing s ∧
    bread s' b = d ∧ ∀ x, x ≠ b → bread s' x = bread s x.
Proof.
  intros [Hs Hd He] Hh Hok Hn1 Hn2 Hout. unfold log_write.
  rewrite (ls_size _ _ _ Hs), decide_False by lia. rewrite decide_False by lia.
  pose proof (ls_n _ _ _ Hs) as Hn. pose proof (ls_len _ _ _ Hs) as Hlen.
  destruct (absorb_spec (lg_block s) b (Z.to_nat (lg_n s)) 0) as (j & Hj & Hr & Hlt & Hno); [lia|].
  change (Z.of_nat 0) with 0 in Hj. rewrite Hj. cbn [mbind outcome_bind].
  rewrite aset_nat by (unfold LOGSIZE in *; lia). cbn [mbind outcome_bind].
  eexists. split; [done|]. set (s' := _ <| lg_cache ::= _ |>).
  assert (logged s' = log_add b (logged s)) as Hlg.
  { unfold s', logged, log_add. cbn. destruct (decide (Z.of_nat j = lg_n s)) as [Hjn|Hjn].
    - assert (j = Z.to_nat (lg_n s)) as -> by lia. rewrite decide_False.
      + replace (Z.to_nat (lg_n s + 1)) with (S (Z.to_nat (lg_n s))) by lia.
        rewrite (take_S_r _ _ b) by (apply list_lookup_insert_eq; unfold LOGSIZE in *; lia).
        by rewrite take_insert_ge.
      + intros [i Hi]%list_elem_of_lookup. apply lookup_take_Some in Hi as [Hi Hi'].
        by apply (Hno i); [lia|].
    - assert (j < Z.to_nat (lg_n s))%nat as Hjl by lia.
      pose proof (Hlt ltac:(lia)) as Hb. rewrite decide_True.
      + by rewrite list_insert_id.
      + apply list_elem_of_lookup. exists j. by rewrite lookup_take_lt. }
  assert (∀ x, x ∈ log_add b (logged s) ↔ x ∈ logged s ∨ x = b) as Hin.
  { intros x. unfold log_add. case_decide; [split; [auto|intros [?| ->]; done]|].
    by rewrite elem_of_app, list_elem_of_singleton. }
  split_and!; [|done|done|done|done|..].
  - split; [|done|done]. split; rewrite ?Hlg; try apply Hs.
    + cbn. by rewrite length_insert.
    + cbn. case_decide; lia.
    + cbn. case_decide; lia.
    + unfold log_add. case_decide; [apply Hs|]. apply NoDup_app. split_and!; [apply Hs| |apply NoDup_singleton].
      intros x Hx ->%list_elem_of_singleton. done.
    + apply Forall_forall. intros x [Hx| ->]%Hin; [|done].
      pose proof (ls_home _ _ _ Hs) as Hfh. rewrite Forall_forall in Hfh. auto.
    + cbn. intros x y [[<- _]|[_ Hx]]%lookup_insert_Some; apply Hin; [by right|left].
      exact (ls_cache _ _ _ Hs _ _ Hx).
  - unfold bread. cbn. by rewrite lookup_insert_eq.
  - intros x Hx. unfold bread. cbn. by rewrite lookup_insert_ne.
Qed.

(** ** Concurrent system calls

    [ops] lists, for each system call between [begin_op] and [end_op], how
    many blocks it may still add; each may add [MAXOPBLOCKS]. *)

Inductive tstep : lstate * list Z → lstate * list Z → Prop :=
| t_begin s s' ops : begin_op s = (true, s') → tstep (s, ops) (s', ops ++ [MAXOPBLOCKS])
| t_write s s' ops i r b d :
    ops !! i = Some r → home start size b → blockno_ok b →
    (b ∈ logged s ∨ 0 < r) → log_write b d s = Ok s' →
    tstep (s, ops) (s', <[i := if decide (b ∈ logged s) then r else r - 1]> ops)
| t_end s s' ops i r :
    ops !! i = Some r → end_op s = Ok s' → tstep (s, ops) (s', list_remove_at i ops).

Definition budget (ops : list Z) : Z := foldr Z.add 0 ops.
#[local] Arguments budget : simpl never.

Record tinv (st : lstate * list Z) : Prop := {
  ti_ready : log_ready start size st.1;
  ti_committing : lg_committing st.1 = 0;
  ti_out : lg_outstanding st.1 = Z.of_nat (length st.2);
  ti_ops : Forall (λ r, 0 ≤ r ≤ MAXOPBLOCKS) st.2;
  ti_room : lg_n st.1 + budget st.2 ≤ Z.of_nat LOGSIZE
}.

Lemma budget_cons r l : budget (r :: l) = r + budget l.
Proof. done. Qed.

Lemma budget_app l1 l2 : budget (l1 ++ l2) = budget l1 + budget l2.
Proof. induction l1 as [|x l1 IH]; [done|]. rewrite <-app_comm_cons, !budget_cons, IH. lia. Qed.

Lemma budget_at ops i r : ops !! i = Some r → budget ops = r + budget (list_remove_at i ops).
Proof.
  intros Hi. unfold list_remove_at. rewrite <-(take_drop_middle ops i r Hi) at 1.
  rewrite !budget_app, budget_cons. lia.
Qed.

Lemma budget_insert ops i r r' : ops !! i = Some r → budget (<[i := r']> ops) = budget ops - r + r'.
Proof.
  intros Hi. assert (i < length ops)%nat by (by eapply lookup_lt_Some).
  rewrite (budget_at ops i r Hi).
  rewrite (budget_at (<[i := r']> ops) i r') by (by apply list_lookup_insert_eq).
  unfold list_remove_at. rewrite take_insert_ge by lia. rewrite drop_insert_lt by lia. lia.
Qed.

Lemma budget_bounds ops :
  Forall (λ r, 0 ≤ r ≤ MAXOPBLOCKS) ops → 0 ≤ budget ops ≤ MAXOPBLOCKS * Z.of_nat (length ops).
Proof. unfold budget. induction 1; cbn [foldr length]; unfold MAXOPBLOCKS in *; lia. Qed.

Lemma logged_length s : log_ready start size s → Z.of_nat (length (logged s)) = lg_n s.
Proof.
  intros [Hs _ _]. unfold logged. rewrite length_take. pose proof (ls_n _ _ _ Hs).
  pose proof (ls_len _ _ _ Hs). lia.
Qed.

Lemma log_write_n b s s' :
  log_ready start size s → log_ready start size s' → logged s' = log_add b (logged s) →
  lg_n s' = if decide (b ∈ logged s) then lg_n s else lg_n s + 1.
Proof.
  intros Hr Hr' Hl. rewrite <-(logged_length s), <-(logged_length s'), Hl by done.
  unfold log_add. case_decide; [done|]. rewrite length_app. cbn. lia.
Qed.

Lemma tinv_begin s s' ops : begin_op s = (true, s') → tinv (s, ops) → tinv (s', ops ++ [MAXOPBLOCKS]).
Proof.
  unfold begin_op. intros Hb [Hr Hc Ho Hf Hroom]. cbn in *.
  case_decide; [done|]. case_decide as Hfull; [done|]. injection Hb as <-.
  pose proof (budget_bounds ops Hf) as Hbd.
  split; cbn.
  - destruct Hr as [[? ? ? ? ? ? ? ?] ? ?]. split; [|done|done]. by split.
  - done.
  - rewrite length_app. cbn. lia.
  - apply Forall_app. split; [done|]. repeat constructor; unfold MAXOPBLOCKS; lia.
  - rewrite budget_app, budget_cons. change (budget []) with 0. unfold MAXOPBLOCKS in *. lia.
Qed.

Lemma tinv_write s s' ops i r b d :
  ops !! i = Some r → home start size b → blockno_ok b → (b ∈ logged s ∨ 0 < r) →
  log_write b d s = Ok s' → tinv (s, ops) →
  tinv (s', <[i := if decide (b ∈ logged s) then r else r - 1]> ops).
Proof.
  intros Hi Hh Hok Hr Hw [Hrd Hc Ho Hf Hroom]. cbn in *. pose proof Hw as Hw'.
  unfold log_write in Hw'. case_decide as Hfull; [done|]. case_decide as Hout; [done|].
  pose proof (lr_shape _ _ _ Hrd) as Hs. rewrite (ls_size _ _ _ Hs) in Hfull.
  destruct (log_write_spec b d s Hrd Hh Hok) as (s1 & Heq & Hrd' & Hl & _ & Ho' & Hc' & _); [lia..|].
  rewrite Hw in Heq. injection Heq as <-.
  pose proof (log_write_n b s s' Hrd Hrd' Hl) as Hn.
  pose proof (Forall_lookup_1 _ _ _ _ Hf Hi) as Hri. cbn in Hri.
  split; cbn; [done|congruence|rewrite length_insert; congruence| |].
  - apply Forall_insert; [done|]. case_decide; [lia|]. destruct Hr; [done|lia].
  - rewrite (budget_insert _ _ _ _ Hi), Hn. case_decide; lia.
Qed.

Lemma tinv_end s s' ops i r :
  ops !! i = Some r → end_op s = Ok s' → tinv (s, ops) → tinv (s', list_remove_at i ops).
Proof.
  intros Hi He [Hr Hc Ho Hf Hroom]. cbn in *. pose proof (lookup_lt_Some _ _ _ Hi) as Hlt.
  pose proof (budget_at ops i r Hi) as Hba.
  pose proof (Forall_lookup_1 _ _ _ _ Hf Hi) as Hri. cbn in Hri.
  assert (Forall (λ r, 0 ≤ r ≤ MAXOPBLOCKS) (list_remove_at i ops)) as Hf'.
  { rewrite Forall_forall in *. intros x Hx. apply Hf. by eapply list_remove_at_subset. }
  assert (∀ o c, log_ready start size (s <| lg_outstanding := o |> <| lg_committing := c |>)) as Hany.
  { intros o c. destruct Hr as [[? ? ? ? ? ? ? ?] ? ?]. split; [|done|done]. by split. }
  unfold end_op in He. apply bind_Ok in He as ([dc s1] & Hen & He). unfold end_op_enter in Hen.
  case_decide as Hcm; [done|]. case_decide as Ho0; injection Hen as <- <-.
  - destruct (commit_spec start size (s <| lg_outstanding ::= λ o, o - 1 |> <| lg_committing := 1 |>))
      as (s2 & ws & Hcom & Hrd2 & Hn2 & _ & Hout2 & _); [exact (Hany _ _)|].
    rewrite Hcom in He. injection He as <-. cbn in Ho0, Hout2.
    split; cbn; [|done|rewrite list_remove_at_length by done; lia|done|].
    + destruct Hrd2 as [[? ? ? ? ? ? ? ?] ? ?]. split; [|done|done]. by split.
    + assert (list_remove_at i ops = []) as ->.
      { apply nil_length_inv. rewrite list_remove_at_length by done. lia. }
      rewrite Hn2. change (budget []) with 0. unfold LOGSIZE. lia.
  - injection He as <-. split; cbn; [|done|rewrite list_remove_at_length by done; lia|done|].
    + exact (Hany _ (lg_committing s)).
    + pose proof (budget_bounds _ Hf'). lia.
Qed.

Lemma tinv_end_op s ops i r : tinv (s, ops) → ops !! i = Some r → is_Ok (end_op s).
Proof.
  intros [Hr Hc _ _ _] _. cbn in *. unfold end_op, end_op_enter. cbn.
  rewrite decide_False by (rewrite Hc; lia). case_decide; cbn [mbind outcome_bind]; [|by eexists].
  destruct (commit_spec start size (s <| lg_outstanding ::= λ o, o - 1 |> <| lg_committing := 1 |>))
    as (s2 & ws & -> & _); [|by eexists].
  destruct Hr as [[? ? ? ? ? ? ? ?] ? ?]. split; [|done|done]. by split.
Qed.

Lemma tinv_step st st' : tstep st st' → tinv st → tinv st'.
Proof.
  intros [s s' ops Hb|s s' ops i r b d Hi Hh Hok Hr Hw|s s' ops i r Hi He].
  - by apply tinv_begin.
  - by eapply tinv_write.
  - by eapply tinv_end.
Qed.

Lemma tinv_steps st st' : rtc tstep st st' → tinv st → tinv st'.
Proof. apply rtc_preserve, tinv_step. Qed.

(** No room left means that no system call may add a block. *)
Lemma tinv_log_write s ops i r b d :
  tinv (s, ops) → ops !! i = Some r → home start size b → blockno_ok b →
  lg_n s < size - 1 → 0 < r → ∃ s', log_write b d s = Ok s'.
Proof.
  intros [Hr Hc Ho Hf Hroom] Hi Hh Hok Hn Hr0. cbn in *.
  pose proof (lookup_lt_Some _ _ _ Hi). pose proof (budget_at ops i r Hi) as Hba.
  assert (Forall (λ r, 0 ≤ r ≤ MAXOPBLOCKS) (list_remove_at i ops)) as Hf'.
  { rewrite Forall_forall in *. intros x Hx. apply Hf. by eapply list_remove_at_subset. }
  pose proof (budget_bounds _ Hf').
  destruct (log_write_spec b d s Hr Hh Hok) as (s' & ? & _); [lia|lia|lia|]. by exists s'.
Qed.
End transactions.
#[local] Arguments budget : simpl never.

(** ** Commit and crashes *)

Section crashes.
Context (start size : Z).
Implicit Types (s : lstate) (d : disk).

(** A crash inside a transaction that does not write the superblock. *)
Lemma sb_ok_confined s d :
  sb_ok start size (lg_disk s) → 1 ∉ logged s → confined start size s d → sb_ok start size d.
Proof.
  intros [Hsb H1 _] Hn [Hsame Hsub]. split; [by rewrite Hsame|done|]. intros Hin. by apply Hn, Hsub.
Qed.

(** C15. [commit] is atomic: it returns with every home block on disk as the
    transaction left it, and whatever prefix of its disk writes survives a
    crash, [initlog] recovers; after any number of further crashes during
    recovery, a boot finds either all home blocks as before the transaction or
    all as after it, which of the two being decided by the first crash. *)
Theorem commit_atomic s :
  log_ready start size s → sb_ok start size (lg_disk s) → 1 ∉ logged s →
  ∃ s' ws, commit s = Ok s' ∧ lg_trace s' = lg_trace s ++ ws ∧
    (∀ b, home start size b → lg_disk s' !!! b = bread s b) ∧
    ∀ ws1 ws2, ws = ws1 ++ ws2 →
      let d := crash_disk (lg_disk s) ws1 in
      (∃ s1, initlog (boot d) = Ok s1) ∧
      ((∀ s1 b, boots d s1 → home start size b → lg_disk s1 !!! b = lg_disk s !!! b) ∨
       (∀ s1 b, boots d s1 → home start size b → lg_disk s1 !!! b = bread s b)).
Proof.
  intros Hr Hsb H1. destruct (commit_spec _ _ s Hr) as (s' & ws & Hc & _ & _ & Ht & _ & _ & Hnew & Hcr).
  exists s', ws. split_and!; [done..|]. intros ws1 ws2 Hw d. destruct (Hcr ws1 ws2 Hw) as (Hd & Hconf & Hv).
  pose proof (sb_ok_confined s d Hsb H1 Hconf) as Hsb'. split.
  { destruct (recover_spec _ _ d Hd Hsb') as (s1 & ? & _). by exists s1. }
  destruct Hv as [Hv|Hv]; [left|right]; intros s1 b Hb Hh;
    destruct (boots_view _ _ d s1 Hb Hd Hsb') as [_ ->]; auto.
Qed.
End crashes.

(** ** Reservation of log space *)


(** *** A log as [mkfs] lays it out *)

(** [mkfs.c] writes [nlog = LOGSIZE] and [logstart = 2]; the rest of the disk is empty. *)
Definition sb_block (nlog : Z) : block :=
  concat (le_bytes 4 <$> [1000; 941; 200; nlog; 2; 32; 58]) ++ replicate (BSIZE - 28) 0.
Definition fresh_disk (nlog : Z) : disk := {[ 1 := sb_block nlog; 2 := zero_block ]}.

Lemma fresh_disk_ok nlog : nlog ∈ [30; 32] → disk_ok 2 nlog (fresh_disk nlog) ∧ sb_ok 2 nlog (fresh_disk nlog).
Proof.
  intros Hn. assert (0 < nlog) by (rewrite !elem_of_cons, elem_of_nil in Hn; lia).
  assert (hdr 2 (fresh_disk nlog) = zero_block) as Hh by done.
  assert (hdr_n zero_block = 0) as H0 by (by vm_compute).
  split; split; rewrite ?Hh, ?(hdr_blocks_empty _ H0), ?H0; try by (auto with xv6 || constructor || unfold LOGSIZE; lia).
  - apply list_elem_of_In in Hn. destruct Hn as [<-|[<-|[]]];
      (eexists; split; [by vm_compute|split; by vm_compute]).
  - unfold home. lia.
  - apply not_elem_of_nil.
Qed.

(** System calls that run [begin_op] and log fresh blocks, [None] when stuck. *)
Inductive laction := LBegin | LWrite (i : nat) (b : Z) (x : block).

Definition lexec (start size : Z) (a : laction) (st : lstate * list Z) : option (lstate * list Z) :=
  match a with
  | LBegin => match begin_op st.1 with (true, s') => Some (s', st.2 ++ [MAXOPBLOCKS]) | _ => None end
  | LWrite i b x =>
      r ← st.2 !! i;
      guard (home start size b ∧ blockno_ok b ∧ (b ∈ logged st.1 ∨ 0 < r));;
      match log_write b x st.1 with
      | Ok s' => Some (s', <[i := if decide (b ∈ logged st.1) then r else r - 1]> st.2)
      | _ => None
      end
  end.

Fixpoint lexecs (start size : Z) (l : list laction) (st : lstate * list Z) : option (lstate * list Z) :=
  match l with
  | [] => Some st
  | a :: l' => st' ← lexec start size a st; lexecs start size l' st'
  end.

Lemma lexec_step start size a st st' : lexec start size a st = Some st' → tstep start size st st'.
Proof.
  destruct st as [s ops], a as [|i b x]; cbn.
  - destruct (begin_op s) as [[] s'] eqn:Hb; [|done]. intros [= <-]. by apply t_begin.
  - intros (r & Hr & H)%bind_Some. case_guard as Hg; cbn in H; [|done]. destruct Hg as (? & ? & ?).
    destruct (log_write b x s) eqn:Hw; [|done..]. injection H as <-. by eapply t_write.
Qed.

Lemma lexecs_steps start size l st st' : lexecs start size l st = Some st' → rtc (tstep start size) st st'.
Proof.
  revert st. induction l as [|a l IH]; intros st; cbn; [by intros [= <-]|].
  intros (st1 & H1 & H2)%bind_Some. eapply rtc_l; [by eapply lexec_step|auto].
Qed.

(** Three system calls that together log the blocks 100, 101, ... 128. *)
Definition three_calls : list laction :=
  replicate 3 LBegin ++ ((λ i, LWrite (i / 10) (100 + Z.of_nat i) zero_block) <$> seq 0 29).

(** C17. The log [mkfs] makes is one block too small for the reservation: with
    [nlog = LOGSIZE = 30], [begin_op] admits three system calls of
    [MAXOPBLOCKS] blocks each, but [log_write] panics at the thirtieth block
    ([n >= log.size - 1]) although its system call has logged nine. *)
Theorem log_too_small :
  ∃ s0 s, initlog (boot (fresh_disk (Z.of_nat LOGSIZE))) = Ok s0 ∧
    rtc (tstep 2 (Z.of_nat LOGSIZE)) (s0, []) (s, [0; 0; 1]) ∧
    ∀ x, log_write 129 x s = Panic "too big a transaction".
Proof.
  destruct (initlog (boot (fresh_disk (Z.of_nat LOGSIZE)))) as [s0| |] eqn:Hi; [|by vm_compute in Hi..].
  destruct (lexecs 2 (Z.of_nat LOGSIZE) three_calls (s0, [])) as [[s ops]|] eqn:Hl.
  2: { vm_compute in Hi. injection Hi as <-. by vm_compute in Hl. }
  exists s0, s. split; [done|].
  assert (ops = [0; 0; 1] ∧ lg_n s = 29 ∧ lg_size s = 30) as (-> & Hn & Hs).
  { vm_compute in Hi. injection Hi as <-. vm_compute in Hl. by injection Hl as <- <-. }
  split; [by eapply lexecs_steps|]. intros x. unfold log_write. by rewrite Hn, Hs.
Qed.


(** A transaction that wrote blocks 129 and 40. *)
Lemma commit_atomic_witness :
  ∃ s s' ws, lg_disk s = fresh_disk 32 ∧ logged s = [129; 40] ∧ commit s = Ok s' ∧
    lg_trace s' = lg_trace s ++ ws ∧ length ws = 6%nat ∧
    lg_disk s' !!! 129 = replicate BSIZE 7 ∧ lg_disk s' !!! 40 = replicate BSIZE 9.
Proof.
  destruct (fresh_disk_ok 32 ltac:(by right; left)) as [Hd Hsb].
  set (s := mklog 2 32 1 0 2 ([129; 40] ++ replicate 28 0)
    {[ 129 := replicate BSIZE 7; 40 := replicate BSIZE 9 ]} (fresh_disk 32) []).
  destruct (commit_atomic 2 32 s) as (s' & ws & Hc & Ht & Hh & _).
  - split; [|exact Hd|by vm_compute]. split; try done.
    + apply (bool_decide_eq_true_1 _). by vm_compute.
    + change (logged s) with [129; 40]. rewrite !Forall_cons, Forall_nil. unfold home, blockno_ok. split_and!; done || lia.
    + intros b x Hx. change (lg_cache s) with ({[ 129 := replicate BSIZE 7; 40 := replicate BSIZE 9 ]} : disk) in Hx.
      apply lookup_insert_Some in Hx as [[<- _]|[_ [<- _]%lookup_singleton_Some]]; [by left|by right; left].
  - exact Hsb.
  - apply (bool_decide_eq_true_1 _). by vm_compute.
  - exists s, s', ws. split_and!; try done.
    + vm_compute in Hc. injection Hc as <-. vm_compute in Ht. by rewrite <-Ht.
    + rewrite Hh by (unfold home; lia). done.
    + rewrite Hh by (unfold home; lia). done.
Defined.
