(* ===== verification/Fs.v ===== *)
(** * Blocks and inodes: [fs.c]

    The functions of [fs.c] up to [writei], over the blocks as the buffer
    cache and the log present them: [f_blk] is what [bread] finds in a block,
    [f_logged] the distinct blocks logged since the transaction began, in
    order ([Log.log_write] adds exactly those, see [Log.absorb]).  The kernel
    has one disk, so a block is named by its number alone.

    An inode pointer is an index into [icache.inode].  The sleep lock of an
    inode is held by the running process or free: [acquiresleep] on a lock
    that this process already holds would sleep for ever and is a fault. *)

From stdpp Require Import gmap.
From S2P Require Import Prelude.
From S2P Require Import Bytes.
From S2P Require Import CString.
From S2P Require Import Log.

Local Open Scope Z_scope.

(** [param.h], [fs.h] and [stat.h] *)
Definition NINODE : nat := 50.
Definition NDEV : Z := 10.
Definition ROOTDEV : Z := 1.
Definition FSSIZE : Z := 1000.
Definition ROOTINO : Z := 1.
Definition NDIRECT : nat := 12.
Definition NINDIRECT : nat := 128.     (* BSIZE / sizeof(uint) *)
Definition MAXFILE : nat := 140.       (* NDIRECT + NINDIRECT *)
Definition IPB : Z := 8.               (* BSIZE / sizeof(struct dinode) *)
Definition BPB : nat := 4096.          (* BSIZE * 8 *)
Definition T_DIR : Z := 1.
Definition T_FILE : Z := 2.
Definition T_DEV : Z := 3.

(** ** State *)

(** [struct inode] of [file.h]; [i_locked] is [lock.locked]. *)
Record inode := mkinode {
  i_dev : Z; i_inum : Z; i_ref : Z; i_locked : bool; i_valid : bool;
  i_type : Z; i_major : Z; i_minor : Z; i_nlink : Z; i_size : Z;
  i_addrs : list Z
}.
#[export] Instance inode_fields : Fields inode := λ i,
  mkinode (i_dev i) (i_inum i) (i_ref i) (i_locked i) (i_valid i)
    (i_type i) (i_major i) (i_minor i) (i_nlink i) (i_size i) (i_addrs i).

Record fstate := mkfs {
  f_sb : superblock;          (* sb *)
  f_blk : gmap Z block;       (* the content of each block *)
  f_logged : list Z;          (* the blocks of the current transaction *)
  f_icache : list inode       (* icache.inode *)
}.
#[export] Instance fstate_fields : Fields fstate := λ s,
  mkfs (f_sb s) (f_blk s) (f_logged s) (f_icache s).

(** [bread]; the disk driver panics on a block outside the disk ([ide.c]). *)
Definition rd (s : fstate) (b : Z) : outcome block :=
  if decide (0 ≤ b < FSSIZE) then Ok (f_blk s !!! b) else Panic "incorrect blockno".

(** [log_write] of a buffer for block [b] that now holds [d]. *)
Definition lw (b : Z) (d : block) (s : fstate) : fstate :=
  s <| f_blk ::= <[b := d]> |>
    <| f_logged ::= λ l, if decide (b ∈ l) then l else l ++ [b] |>.

Definition geti (s : fstate) (ip : nat) : outcome inode := aget (f_icache s) (Z.of_nat ip).
Definition updi (f : inode → inode) (ip : nat) (s : fstate) : fstate :=
  s <| f_icache ::= alter f ip |>.

(** ** Blocks *)

Definition IBLOCK (i : Z) (sb : superblock) : Z := u32 (i / IPB + sb_inodestart sb).
Definition BBLOCK (b : Z) (sb : superblock) : Z := u32 (b / Z.of_nat BPB + sb_bmapstart sb).

Definition bzero (bno : Z) (s : fstate) : outcome fstate :=
  d ← rd s bno;
  d' ← memset d 0 0 BSIZE;
  Ok (lw bno d' s).

(** [1 << (bi % 8)] *)
Definition bit_mask (bi : Z) : Z := Z.shiftl 1 (bi mod 8).

(** The inner loop of [balloc], [n] iterations before [BPB]: the first clear bit. *)
Fixpoint balloc_bits (size b : Z) (d : block) (n : nat) (bi : Z) : outcome (option Z) :=
  match n with
  | O => Ok None
  | S n' =>
      if decide (b + bi < size) then
        c ← aget d (bi / 8);
        if decide (Z.land c (bit_mask bi) = 0) then Ok (Some bi)
        else balloc_bits size b d n' (bi + 1)
      else Ok None
  end.

(** The outer loop, [n] bitmap blocks from the one of block [b] on. *)
Fixpoint balloc_loop (n : nat) (b : Z) (s : fstate) : outcome (Z * fstate) :=
  match n with
  | O => Panic "balloc: out of blocks"
  | S n' =>
      if decide (b < sb_size (f_sb s)) then
        d ← rd s (BBLOCK b (f_sb s));
        r ← balloc_bits (sb_size (f_sb s)) b d BPB 0;
        match r with
        | Some bi =>
            c ← aget d (bi / 8);
            d' ← aset d (bi / 8) (u8 (Z.lor c (bit_mask bi)));
            s' ← bzero (b + bi) (lw (BBLOCK b (f_sb s)) d' s);
            Ok (b + bi, s')
        | None => balloc_loop n' (b + Z.of_nat BPB) s
        end
      else Panic "balloc: out of blocks"
  end.

(** [sb.size / BPB + 1] bitmap blocks are enough to reach [sb.size]. *)
Definition balloc (s : fstate) : outcome (Z * fstate) :=
  balloc_loop (Z.to_nat (sb_size (f_sb s) / Z.of_nat BPB + 1)) 0 s.

Definition bfree (b : Z) (s : fstate) : outcome fstate :=
  let bb := BBLOCK b (f_sb s) in
  d ← rd s bb;
  let bi := b mod Z.of_nat BPB in
  c ← aget d (bi / 8);
  if decide (Z.land c (bit_mask bi) = 0) then Panic "freeing free block"
  else
    d' ← aset d (bi / 8) (u8 (Z.land c (Z.lnot (bit_mask bi))));
    Ok (lw bb d' s).

(** ** Inodes on disk *)

(** [struct dinode]: 64 bytes, [IPB] of them in a block. *)
Record dinode := mkdinode {
  di_type : Z; di_major : Z; di_minor : Z; di_nlink : Z; di_size : Z; di_addrs : list Z
}.

(** The [n] words of an array of [uint] at offset [off]. *)
Fixpoint get_words (d : list Z) (off : Z) (n : nat) : outcome (list Z) :=
  match n with
  | O => Ok []
  | S n' => w ← get_le 4 d off; r ← get_words d (off + 4) n'; Ok (w :: r)
  end.

Definition dinode_off (inum : Z) : Z := 64 * (inum mod IPB).

Definition get_dinode (d : block) (inum : Z) : outcome dinode :=
  let o := dinode_off inum in
  ty ← get_le 2 d o; ma ← get_le 2 d (o + 2); mi ← get_le 2 d (o + 4);
  nl ← get_le 2 d (o + 6); sz ← get_le 4 d (o + 8);
  ad ← get_words d (o + 12) (S NDIRECT);
  Ok (mkdinode (i16 ty) (i16 ma) (i16 mi) (i16 nl) sz ad).

Definition put_dinode (d : block) (inum : Z) (di : dinode) : outcome block :=
  let o := dinode_off inum in
  d ← put_le 2 d o (u16 (di_type di));
  d ← put_le 2 d (o + 2) (u16 (di_major di));
  d ← put_le 2 d (o + 4) (u16 (di_minor di));
  d ← put_le 2 d (o + 6) (u16 (di_nlink di));
  d ← put_le 4 d (o + 8) (di_size di);
  bstore d (o + 12) (concat (le_bytes 4 <$> di_addrs di)).

(** ** The inode cache *)

(** The scan of [iget]: an entry for the inode, or the first empty slot. *)
Fixpoint iget_scan (l : list inode) (dev inum : Z) (i : nat) (empty : option nat) : nat + option nat :=
  match l with
  | [] => inr empty
  | ip :: l' =>
      if decide (0 < i_ref ip ∧ i_dev ip = dev ∧ i_inum ip = inum) then inl i
      else iget_scan l' dev inum (S i)
             (match empty with None => if decide (i_ref ip = 0) then Some i else None | e => e end)
  end.

Definition iget (dev inum : Z) (s : fstate) : outcome (nat * fstate) :=
  match iget_scan (f_icache s) dev inum 0 None with
  | inl ip => Ok (ip, updi (λ i, i <| i_ref ::= λ r, r + 1 |>) ip s)
  | inr (Some ip) =>
      Ok (ip, updi (λ i, i <| i_dev := dev |> <| i_inum := inum |> <| i_ref := 1 |> <| i_valid := false |>) ip s)
  | inr None => Panic "iget: no inodes"
  end.

Definition idup (ip : nat) (s : fstate) : nat * fstate :=
  (ip, updi (λ i, i <| i_ref ::= λ r, r + 1 |>) ip s).

(** The loop of [ialloc], [n] inodes from number [inum] on. *)
Fixpoint ialloc_loop (n : nat) (inum dev type : Z) (s : fstate) : outcome (nat * fstate) :=
  match n with
  | O => Panic "ialloc: no inodes"
  | S n' =>
      d ← rd s (IBLOCK inum (f_sb s));
      ty ← get_le 2 d (dinode_off inum);
      if decide (ty = 0) then
        d1 ← memset d (dinode_off inum) 0 64;
        d2 ← put_le 2 d1 (dinode_off inum) (u16 type);
        iget dev inum (lw (IBLOCK inum (f_sb s)) d2 s)
      else ialloc_loop n' (inum + 1) dev type s
  end.
Definition ialloc (dev type : Z) (s : fstate) : outcome (nat * fstate) :=
  ialloc_loop (Z.to_nat (sb_ninodes (f_sb s) - 1)) 1 dev type s.

Definition to_dinode (i : inode) : dinode :=
  mkdinode (i_type i) (i_major i) (i_minor i) (i_nlink i) (i_size i) (i_addrs i).
Definition from_dinode (di : dinode) (i : inode) : inode :=
  i <| i_type := di_type di |> <| i_major := di_major di |> <| i_minor := di_minor di |>
    <| i_nlink := di_nlink di |> <| i_size := di_size di |> <| i_addrs := di_addrs di |>.

Definition iupdate (ip : nat) (s : fstate) : outcome fstate :=
  i ← geti s ip;
  let bb := IBLOCK (i_inum i) (f_sb s) in
  d ← rd s bb;
  d' ← put_dinode d (i_inum i) (to_dinode i);
  Ok (lw bb d' s).

Definition acquiresleep (ip : nat) (s : fstate) : outcome fstate :=
  i ← geti s ip;
  if i_locked i then Fault "acquiresleep: deadlock"
  else Ok (updi (λ i, i <| i_locked := true |>) ip s).
Definition releasesleep (ip : nat) (s : fstate) : fstate :=
  updi (λ i, i <| i_locked := false |>) ip s.

Definition ilock (ip : nat) (s : fstate) : outcome fstate :=
  i ← geti s ip;
  if decide (i_ref i < 1) then Panic "ilock"
  else
    s1 ← acquiresleep ip s;
    i1 ← geti s1 ip;
    if i_valid i1 then Ok s1
    else
      d ← rd s1 (IBLOCK (i_inum i1) (f_sb s1));
      di ← get_dinode d (i_inum i1);
      let s2 := updi (λ i, from_dinode di i <| i_valid := true |>) ip s1 in
      if decide (di_type di = 0) then Panic "ilock: no type" else Ok s2.

Definition iunlock (ip : nat) (s : fstate) : outcome fstate :=
  i ← geti s ip;
  if decide (i_locked i = false ∨ i_ref i < 1) then Panic "iunlock"
  else Ok (releasesleep ip s).

(** ** Inode content *)

(** [a[bn]] of the indirect block [addr]. *)
Definition get_indirect (s : fstate) (addr : Z) (bn : Z) : outcome Z :=
  d ← rd s addr; get_le 4 d (4 * bn).

Definition bmap (ip : nat) (bn : Z) (s : fstate) : outcome (Z * fstate) :=
  i ← geti s ip;
  if decide (bn < Z.of_nat NDIRECT) then
    addr ← aget (i_addrs i) bn;
    if decide (addr = 0) then
      '(a, s1) ← balloc s;
      Ok (a, updi (λ i, i <| i_addrs ::= <[Z.to_nat bn := a]> |>) ip s1)
    else Ok (addr, s)
  else
    let bn := bn - Z.of_nat NDIRECT in
    if decide (bn < Z.of_nat NINDIRECT) then
      addr0 ← aget (i_addrs i) (Z.of_nat NDIRECT);
      '(ind, s1) ← (if decide (addr0 = 0) then
                      '(a, s1) ← balloc s;
                      Ok (a, updi (λ i, i <| i_addrs ::= <[NDIRECT := a]> |>) ip s1)
                    else Ok (addr0, s));
      addr ← get_indirect s1 ind bn;
      if decide (addr = 0) then
        '(a, s2) ← balloc s1;
        d ← rd s2 ind;
        d' ← put_le 4 d (4 * bn) a;
        Ok (a, lw ind d' s2)
      else Ok (addr, s1)
    else Panic "bmap: out of range".

(** [for(i = 0; i < NDIRECT; i++) if(ip->addrs[i]) ...], [n] iterations left. *)
Fixpoint itrunc_direct (n i : nat) (ip : nat) (s : fstate) : outcome fstate :=
  match n with
  | O => Ok s
  | S n' =>
      ino ← geti s ip;
      a ← aget (i_addrs ino) (Z.of_nat i);
      if decide (a ≠ 0) then
        s1 ← bfree a s;
        itrunc_direct n' (S i) ip (updi (λ x, x <| i_addrs ::= <[i := 0]> |>) ip s1)
      else itrunc_direct n' (S i) ip s
  end.

(** [for(j = 0; j < NINDIRECT; j++) if(a[j]) bfree(ip->dev, a[j]);] *)
Fixpoint itrunc_indirect (n j : nat) (ind : Z) (s : fstate) : outcome fstate :=
  match n with
  | O => Ok s
  | S n' =>
      a ← get_indirect s ind (Z.of_nat j);
      s1 ← (if decide (a ≠ 0) then bfree a s else Ok s);
      itrunc_indirect n' (S j) ind s1
  end.

Definition itrunc (ip : nat) (s : fstate) : outcome fstate :=
  s1 ← itrunc_direct NDIRECT 0 ip s;
  i ← geti s1 ip;
  ind ← aget (i_addrs i) (Z.of_nat NDIRECT);
  s2 ← (if decide (ind ≠ 0) then
          s2 ← itrunc_indirect NINDIRECT 0 ind s1;
          s3 ← bfree ind s2;
          Ok (updi (λ x, x <| i_addrs ::= <[NDIRECT := 0]> |>) ip s3)
        else Ok s1);
  iupdate ip (updi (λ x, x <| i_size := 0 |>) ip s2).

Definition iput (ip : nat) (s : fstate) : outcome fstate :=
  s1 ← acquiresleep ip s;
  i ← geti s1 ip;
  s2 ← (if decide (i_valid i = true ∧ i_nlink i = 0 ∧ i_ref i = 1) then
          s2 ← itrunc ip s1;
          s3 ← iupdate ip (updi (λ x, x <| i_type := 0 |>) ip s2);
          Ok (updi (λ x, x <| i_valid := false |>) ip s3)
        else Ok s1);
  Ok (updi (λ x, x <| i_ref ::= λ r, r - 1 |>) ip (releasesleep ip s2)).

Definition iunlockput (ip : nat) (s : fstate) : outcome fstate :=
  s1 ← iunlock ip s; iput ip s1.

Record stat := mkstat { st_type : Z; st_dev : Z; st_ino : Z; st_nlink : Z; st_size : Z }.
Definition stati (i : inode) : stat :=
  mkstat (i_type i) (i_dev i) (i_inum i) (i_nlink i) (i_size i).

(** ** Reading and writing *)

(** [struct devsw]: what a driver does with a request for [n] bytes, and what
    it returns.  [devsw[major]] is empty where no driver registered. *)
Record devsw := mkdevsw {
  dev_read : option (nat → Z → fstate → outcome (Z * list Z * fstate));
  dev_write : option (nat → list Z → Z → fstate → outcome (Z * fstate))
}.

Section content.
Context (devs : list devsw).

(** [devsw[ip->major]], when the major number is in range. *)
Definition device_of (major : Z) : option devsw :=
  if decide (major < 0 ∨ NDEV ≤ major) then None else devs !! Z.to_nat major.

(** The loop of [readi]: [tot] bytes copied so far, [n] in all. *)
Fixpoint readi_loop (fuel : nat) (ip : nat) (off n tot : Z) (dst : list Z) (s : fstate)
    : outcome (list Z * fstate) :=
  if decide (tot < n) then
    match fuel with
    | O => Fault "fuel"
    | S fuel' =>
        '(b, s1) ← bmap ip (off / Z.of_nat BSIZE) s;
        d ← rd s1 b;
        let m := Z.min (n - tot) (Z.of_nat BSIZE - off mod Z.of_nat BSIZE) in
        bytes ← bload d (off mod Z.of_nat BSIZE) (Z.to_nat m);
        readi_loop fuel' ip (u32 (off + m)) n (tot + m) (dst ++ bytes) s1
    end
  else Ok (dst, s).

(** A request touches at most [n / BSIZE + 2] blocks. *)
Definition blocks_touched (n : Z) : nat := Z.to_nat (n / Z.of_nat BSIZE + 2).

(** The result, the bytes stored at [dst], and the new state. *)
Definition readi (ip : nat) (off n : Z) (s : fstate) : outcome (Z * list Z * fstate) :=
  i ← geti s ip;
  if decide (i_type i = T_DEV) then
    match device_of (i_major i) with
    | Some (mkdevsw (Some r) _) => r ip (i32 n) s
    | _ => Ok (-1, [], s)
    end
  else if decide (i_size i < off ∨ u32 (off + n) < off) then Ok (-1, [], s)
  else
    let n' := if decide (i_size i < u32 (off + n)) then i_size i - off else n in
    '(dst, s1) ← readi_loop (blocks_touched n') ip off n' 0 [] s;
    Ok (i32 n', dst, s1).

Fixpoint writei_loop (fuel : nat) (ip : nat) (src : list Z) (off n tot : Z) (s : fstate)
    : outcome (Z * fstate) :=
  if decide (tot < n) then
    match fuel with
    | O => Fault "fuel"
    | S fuel' =>
        '(b, s1) ← bmap ip (off / Z.of_nat BSIZE) s;
        d ← rd s1 b;
        let m := Z.min (n - tot) (Z.of_nat BSIZE - off mod Z.of_nat BSIZE) in
        bytes ← bload src tot (Z.to_nat m);
        d' ← bstore d (off mod Z.of_nat BSIZE) bytes;
        writei_loop fuel' ip src (u32 (off + m)) n (tot + m) (lw b d' s1)
    end
  else Ok (off, s).

Definition writei (ip : nat) (src : list Z) (off n : Z) (s : fstate) : outcome (Z * fstate) :=
  i ← geti s ip;
  if decide (i_type i = T_DEV) then
    match device_of (i_major i) with
    | Some (mkdevsw _ (Some w)) => w ip src (i32 n) s
    | _ => Ok (-1, s)
    end
  else if decide (i_size i < off ∨ u32 (off + n) < off) then Ok (-1, s)
  else if decide (Z.of_nat (MAXFILE * BSIZE) < u32 (off + n)) then Ok (-1, s)
  else
    '(off', s1) ← writei_loop (blocks_touched n) ip src off n 0 s;
    i1 ← geti s1 ip;
    s2 ← (if decide (0 < n ∧ i_size i1 < off')
          then iupdate ip (updi (λ x, x <| i_size := off' |>) ip s1) else Ok s1);
    Ok (i32 n, s2).
End content.
