(* ===== verification/FsSpec.v ===== *)
(** * The block allocator and the block map of an inode

    What [balloc], [bfree], [bmap] and [itrunc] do, in terms of the free map
    ([bit]), of the blocks a file owns ([owns]) and of their content ([blk]).
    [iframe] is what every operation on one file leaves to the others. *)

From stdpp Require Import gmap.
From S2P Require Import Prelude.
From S2P Require Import Bytes.
From S2P Require Import CString.
From S2P Require Import Log.
From S2P Require Import Fs.

Local Open Scope Z_scope.

(** ** Blocks *)

Definition blk (s : fstate) (b : Z) : block := f_blk s !!! b.

Lemma blk_lw_eq b d s : blk (lw b d s) b = d.
Proof. apply lookup_total_insert_eq. Qed.
Lemma blk_lw_ne b d s x : x ≠ b → blk (lw b d s) x = blk s x.
Proof. intros. unfold blk, lw. cbn. by apply lookup_total_insert_ne. Qed.
Lemma blk_updi f ip s b : blk (updi f ip s) b = blk s b.
Proof. done. Qed.

Lemma rd_Ok s b : 0 ≤ b < FSSIZE → rd s b = Ok (blk s b).
Proof. intros. unfold rd. by rewrite decide_True. Qed.

(** ** The inode cache *)

Lemma geti_Ok s ip i : geti s ip = Ok i ↔ f_icache s !! ip = Some i.
Proof.
  unfold geti. rewrite aget_Ok, Nat2Z.id. split; [by intros [_ ?]|by split; [lia|]].
Qed.

Lemma updi_icache f g ip s i :
  f_icache s !! ip = Some i → f i = g i → f_icache (updi f ip s) = alter g ip (f_icache s).
Proof. intros Hi Hfg. unfold updi. cbn. apply list_alter_ext; [|done]. intros x Hx. congruence. Qed.

Lemma updi_lookup f ip s i : f_icache s !! ip = Some i → f_icache (updi f ip s) !! ip = Some (f i).
Proof. intros Hi. unfold updi. cbn. by rewrite list_lookup_alter_eq, Hi. Qed.

Lemma updi_lookup_ne f ip jp s : ip ≠ jp → f_icache (updi f ip s) !! jp = f_icache s !! jp.
Proof. intros Hi. unfold updi. cbn. by rewrite list_lookup_alter_ne. Qed.

Lemma updi_updi f g ip s : updi f ip (updi g ip s) = updi (f ∘ g) ip s.
Proof. unfold updi. destruct s. cbn. unfold set_with. cbn. f_equal. apply list_alter_alter_eq. Qed.

Lemma updi_ext f g ip s : (∀ i, f_icache s !! ip = Some i → f i = g i) → updi f ip s = updi g ip s.
Proof. intros H. unfold updi. destruct s. unfold set_with. cbn in *. f_equal. by apply list_alter_ext. Qed.

(** Every block has [BSIZE] bytes. *)
Definition blocks_ok (s : fstate) : Prop := ∀ b, wf_block (blk s b).

Lemma blocks_ok_lw s b d : blocks_ok s → wf_block d → blocks_ok (lw b d s).
Proof.
  intros Hs Hd x. destruct (decide (x = b)) as [->|?]; [by rewrite blk_lw_eq|by rewrite blk_lw_ne].
Qed.

Lemma blocks_ok_updi f ip s : blocks_ok s → blocks_ok (updi f ip s).
Proof. done. Qed.
#[export] Hint Resolve blocks_ok_lw blocks_ok_updi : xv6.

(** Where things are on disk: inodes, free map, data blocks from [ds] on. *)
Record layout (sb : superblock) (ds : Z) : Prop := {
  ly_size : 0 ≤ ds ≤ sb_size sb ∧ sb_size sb ≤ FSSIZE;
  ly_ninodes : 1 < sb_ninodes sb;
  ly_istart : 2 ≤ sb_inodestart sb;
  ly_bmap : sb_inodestart sb + sb_ninodes sb / IPB < sb_bmapstart sb;
  ly_data : sb_bmapstart sb + sb_size sb / Z.of_nat BPB < ds
}.

(** ** Bits *)

Lemma mask_testbit c k : 0 ≤ k → Z.land c (bit_mask k) = 0 ↔ Z.testbit c (k mod 8) = false.
Proof.
  intros Hk. unfold bit_mask. pose proof (Z.mod_pos_bound k 8). split.
  - intros H0. assert (Z.testbit (Z.land c (Z.shiftl 1 (k mod 8))) (k mod 8) = false) as Ht.
    { rewrite H0. apply Z.bits_0. }
    rewrite Z.land_spec, Z.shiftl_spec, Z.sub_diag in Ht by lia. cbn in Ht. by rewrite andb_true_r in Ht.
  - intros Ht. apply Z.bits_inj'. intros n Hn. rewrite Z.land_spec, Z.bits_0, Z.shiftl_spec by done.
    destruct (decide (n = k mod 8)) as [->|Hne]; [by rewrite Ht|].
    replace (Z.testbit 1 (n - k mod 8)) with false; [apply andb_false_r|].
    symmetry. change 1 with (Z.ones 1). destruct (decide (n < k mod 8)).
    + apply Z.testbit_neg_r. lia.
    + apply Z.ones_spec_high. lia.
Qed.

(** Bit [k] of a bitmap block, and the bit of the free map for block [b]. *)
Definition tb (d : block) (k : Z) : bool := Z.testbit (d !!! Z.to_nat (k / 8)) (k mod 8).
Definition bit (s : fstate) (b : Z) : bool := tb (blk s (BBLOCK b (f_sb s))) (b mod Z.of_nat BPB).

Lemma byte_index_lt k : 0 ≤ k < Z.of_nat BPB → (Z.to_nat (k / 8) < BSIZE)%nat.
Proof.
  change (Z.of_nat BPB) with 4096. unfold BSIZE. intros Hk.
  assert (k / 8 < 512) by (apply Z.div_lt_upper_bound; lia). lia.
Qed.

Lemma wf_block_aget d i : wf_block d → (i < BSIZE)%nat → aget d (Z.of_nat i) = Ok (d !!! i).
Proof.
  intros [Hl _] Hi. apply aget_nat. apply list_lookup_lookup_total_lt. by rewrite Hl.
Qed.

Lemma wf_block_byte d i : wf_block d → (i < BSIZE)%nat → byte_range (d !!! i).
Proof.
  intros [Hl Hf] Hi. eapply Forall_lookup_1; [exact Hf|]. apply list_lookup_lookup_total_lt. by rewrite Hl.
Qed.

Lemma wf_block_insert (d : list Z) (i : nat) x : wf_block d → byte_range x → wf_block (<[i := x]> d).
Proof. intros [Hl Hf] Hx. split; [by rewrite length_insert|]. by apply Forall_insert. Qed.

Lemma testbit_1 n : 0 ≤ n → Z.testbit 1 n = bool_decide (n = 0).
Proof.
  intros Hn. case_bool_decide as H0; [by subst|]. change 1 with (Z.ones 1). apply Z.ones_spec_high. lia.
Qed.

Lemma u8_testbit z k : 0 ≤ k < 8 → Z.testbit (u8 z) k = Z.testbit z k.
Proof. intros. unfold u8. apply Z.mod_pow2_bits_low. lia. Qed.

Lemma set_bit c k j :
  0 ≤ j < 8 → 0 ≤ k → Z.testbit (u8 (Z.lor c (bit_mask k))) j = bool_decide (j = k mod 8) || Z.testbit c j.
Proof.
  intros Hj Hk. rewrite u8_testbit by done. unfold bit_mask. rewrite Z.lor_spec, Z.shiftl_spec by lia.
  pose proof (Z.mod_pos_bound k 8). destruct (decide (j < k mod 8)).
  - rewrite (Z.testbit_neg_r 1) by lia. rewrite bool_decide_false by lia. apply orb_false_r.
  - rewrite testbit_1 by lia. rewrite orb_comm. f_equal. apply bool_decide_ext. lia.
Qed.

Lemma clear_bit c k j :
  0 ≤ j < 8 → 0 ≤ k →
  Z.testbit (u8 (Z.land c (Z.lnot (bit_mask k)))) j = negb (bool_decide (j = k mod 8)) && Z.testbit c j.
Proof.
  intros Hj Hk. rewrite u8_testbit by done. unfold bit_mask.
  rewrite Z.land_spec, Z.lnot_spec, Z.shiftl_spec by lia.
  pose proof (Z.mod_pos_bound k 8). rewrite andb_comm. f_equal. f_equal. destruct (decide (j < k mod 8)).
  - rewrite (Z.testbit_neg_r 1) by lia. by rewrite bool_decide_false by lia.
  - rewrite testbit_1 by lia. apply bool_decide_ext. lia.
Qed.

(** Setting or clearing bit [k] changes no other bit. *)
Lemma tb_update d k x j :
  wf_block d → 0 ≤ k < Z.of_nat BPB → 0 ≤ j < Z.of_nat BPB →
  tb (<[Z.to_nat (k / 8) := x]> d) j =
  if decide (k / 8 = j / 8) then Z.testbit x (j mod 8) else tb d j.
Proof.
  intros [Hl _] Hk Hj. unfold tb. case_decide as Heq.
  - rewrite <-Heq. rewrite list_lookup_total_insert_eq; [done|]. rewrite Hl. by apply byte_index_lt.
  - rewrite list_lookup_total_insert_ne; [done|]. pose proof (Z.div_pos k 8). pose proof (Z.div_pos j 8). lia.
Qed.

Lemma same_bit k j : 0 ≤ k → 0 ≤ j → k / 8 = j / 8 → j mod 8 = k mod 8 ↔ j = k.
Proof. intros Hk Hj Hd. pose proof (Z.div_mod k 8). pose proof (Z.div_mod j 8). lia. Qed.

Lemma tb_set d k j :
  wf_block d → 0 ≤ k < Z.of_nat BPB → 0 ≤ j < Z.of_nat BPB →
  tb (<[Z.to_nat (k / 8) := u8 (Z.lor (d !!! Z.to_nat (k / 8)) (bit_mask k))]> d) j =
  bool_decide (j = k) || tb d j.
Proof.
  intros Hd Hk Hj. rewrite tb_update by done. case_decide as Heq.
  - rewrite set_bit by (try apply Z.mod_pos_bound; lia). unfold tb. rewrite Heq. f_equal.
    apply bool_decide_ext. apply same_bit; lia.
  - rewrite bool_decide_false; [done|]. intros ->. done.
Qed.

Lemma tb_clear d k j :
  wf_block d → 0 ≤ k < Z.of_nat BPB → 0 ≤ j < Z.of_nat BPB →
  tb (<[Z.to_nat (k / 8) := u8 (Z.land (d !!! Z.to_nat (k / 8)) (Z.lnot (bit_mask k)))]> d) j =
  negb (bool_decide (j = k)) && tb d j.
Proof.
  intros Hd Hk Hj. rewrite tb_update by done. case_decide as Heq.
  - rewrite clear_bit by (try apply Z.mod_pos_bound; lia). unfold tb. rewrite Heq. f_equal. f_equal.
    apply bool_decide_ext. apply same_bit; lia.
  - rewrite bool_decide_false; [done|]. intros ->. done.
Qed.

(** The byte [balloc] and [bfree] test. *)
Lemma aget_bit d k :
  wf_block d → 0 ≤ k < Z.of_nat BPB → aget d (k / 8) = Ok (d !!! Z.to_nat (k / 8)).
Proof.
  intros Hd Hk. pose proof (Z.div_pos k 8). replace (k / 8) with (Z.of_nat (Z.to_nat (k / 8))) at 1 by lia.
  apply wf_block_aget; [done|]. by apply byte_index_lt.
Qed.

Lemma aset_bit d k x :
  wf_block d → 0 ≤ k < Z.of_nat BPB → aset d (k / 8) x = Ok (<[Z.to_nat (k / 8) := x]> d).
Proof.
  intros [Hl _] Hk. pose proof (Z.div_pos k 8). pose proof (byte_index_lt k Hk).
  replace (k / 8) with (Z.of_nat (Z.to_nat (k / 8))) at 1 by lia. apply aset_nat. by rewrite Hl.
Qed.

Lemma mask_tb d k : 0 ≤ k → Z.land (d !!! Z.to_nat (k / 8)) (bit_mask k) = 0 ↔ tb d k = false.
Proof. apply mask_testbit. Qed.

(** ** The scan of [balloc] *)

Lemma balloc_bits_spec size b d n bi :
  wf_block d → 0 ≤ bi → bi + Z.of_nat n ≤ Z.of_nat BPB →
  (∃ k, balloc_bits size b d n bi = Ok (Some k) ∧ bi ≤ k < bi + Z.of_nat n ∧ b + k < size ∧
     tb d k = false ∧ ∀ j, bi ≤ j < k → tb d j = true) ∨
  (balloc_bits size b d n bi = Ok None ∧
     ∀ j, bi ≤ j < bi + Z.of_nat n → b + j < size → tb d j = true).
Proof.
  intros Hd. revert bi. induction n as [|n IH]; intros bi Hb Hn.
  { right. split; [done|]. lia. }
  cbn [balloc_bits]. case_decide as Hsz; [|right; split; [done|lia]].
  rewrite aget_bit by (done || lia). cbn [mbind outcome_bind].
  case_decide as Hm; rewrite mask_tb in Hm by done.
  { left. exists bi. split_and!; [done|lia|lia|done|done|]. lia. }
  apply not_false_is_true in Hm.
  destruct (IH (bi + 1)) as [(k & -> & ? & ? & ? & Hj)|[-> Hj]]; [lia|lia|left|right].
  - exists k. split_and!; [done|lia|lia|done|done|]. intros j Hjk.
    destruct (decide (j = bi)) as [->|]; [done|]. apply Hj. lia.
  - split; [done|]. intros j Hjk Hs. destruct (decide (j = bi)) as [->|]; [done|]. apply Hj; lia.
Qed.

(** ** The allocator *)

(** The state as every operation of the file system finds it: blocks of the
    right size, the blocks before the data area in use. *)
Record fs_base (sb : superblock) (ds : Z) (s : fstate) : Prop := {
  fb_layout : layout sb ds;
  fb_sb : f_sb s = sb;
  fb_blocks : blocks_ok s;
  fb_meta : ∀ b, 0 ≤ b < ds → bit s b = true
}.

(** How many blocks are free. *)
Definition nfree (s : fstate) : nat :=
  length (filter (λ b, bit s b = false) (seqZ 0 (sb_size (f_sb s)))).

Lemma nfree_ext s s' :
  f_sb s' = f_sb s → (∀ x, 0 ≤ x < sb_size (f_sb s) → bit s' x = bit s x) → nfree s' = nfree s.
Proof.
  intros Hsb Hbit. unfold nfree. rewrite Hsb. f_equal.
  assert (Forall (λ x, bit s' x = bit s x) (seqZ 0 (sb_size (f_sb s)))) as Hall.
  { apply Forall_forall. intros x Hx%elem_of_seqZ. apply Hbit. lia. }
  induction Hall as [|x l Hx Hl IH]; [done|]. rewrite !filter_cons, IH.
  destruct (decide (bit s' x = false)), (decide (bit s x = false)); congruence.
Qed.

Section allocator.
Context (sb : superblock) (ds : Z).
Notation bm := (sb_bmapstart sb).
Notation base := (fs_base sb ds).
Implicit Types (s : fstate) (b : Z).

Definition is_data b : Prop := ds ≤ b < sb_size sb.

Lemma layout_bounds : layout sb ds → 2 ≤ bm < ds ∧ 0 ≤ bm < FSSIZE ∧ sb_size sb ≤ 1000.
Proof.
  intros []. unfold FSSIZE, IPB in *. pose proof (Z.div_pos (sb_ninodes sb) 8).
  pose proof (Z.div_pos (sb_size sb) (Z.of_nat BPB)). change (Z.of_nat BPB) with 4096 in *. lia.
Qed.

(** The free map is one block. *)
Lemma BBLOCK_bm b : layout sb ds → 0 ≤ b < sb_size sb → BBLOCK b sb = bm ∧ b mod Z.of_nat BPB = b.
Proof.
  intros Hly Hb. destruct (layout_bounds Hly) as (? & ? & ?). unfold FSSIZE, BBLOCK in *.
  change (Z.of_nat BPB) with 4096. rewrite Z.div_small, Z.mod_small by lia.
  split; [|done]. rewrite Z.add_0_l. apply u32_small. lia.
Qed.

Lemma bit_tb s b : layout sb ds → f_sb s = sb → 0 ≤ b < sb_size sb → bit s b = tb (blk s bm) b.
Proof. intros Hly Hsb Hb. unfold bit. rewrite Hsb. by destruct (BBLOCK_bm b Hly Hb) as [-> ->]. Qed.

(** What a state has after [b] has been allocated. *)
Definition alloc_map s b : block :=
  <[Z.to_nat (b / 8) := u8 (Z.lor (blk s bm !!! Z.to_nat (b / 8)) (bit_mask b))]> (blk s bm).
Definition allocated s b : fstate := lw b zero_block (lw bm (alloc_map s b) s).

Definition free_map s b : block :=
  <[Z.to_nat (b / 8) := u8 (Z.land (blk s bm !!! Z.to_nat (b / 8)) (Z.lnot (bit_mask b)))]> (blk s bm).
Definition freed s b : fstate := lw bm (free_map s b) s.

Lemma bzero_Ok s b : blocks_ok s → 0 ≤ b < FSSIZE → bzero b s = Ok (lw b zero_block s).
Proof.
  intros Hs Hb. unfold bzero. rewrite rd_Ok by done. cbn [mbind outcome_bind].
  change 0 with (Z.of_nat 0) at 1. rewrite memset_spec by (rewrite (proj1 (Hs b)); lia).
  cbn [mbind outcome_bind]. do 2 f_equal. change (u8 0) with 0.
  unfold zero_block. apply inserts_all. by rewrite length_replicate, (proj1 (Hs b)).
Qed.

Lemma balloc_loop_S n b s :
  balloc_loop (S n) b s =
  if decide (b < sb_size (f_sb s)) then
    d ← rd s (BBLOCK b (f_sb s));
    r ← balloc_bits (sb_size (f_sb s)) b d BPB 0;
    match r with
    | Some bi =>
        c ← aget d (bi / 8);
        d' ← aset d (bi / 8) (u8 (Z.lor c (bit_mask bi)));
        s' ← bzero (b + bi) (lw (BBLOCK b (f_sb s)) d' s);
        Ok (b + bi, s')
    | None => balloc_loop n (b + Z.of_nat BPB) s
    end
  else Panic "balloc: out of blocks".
Proof. done. Qed.

Lemma balloc_unfold s :
  base s →
  balloc s = (
    r ← balloc_bits (sb_size sb) 0 (blk s bm) BPB 0;
    match r with
    | Some bi =>
        c ← aget (blk s bm) (bi / 8);
        d' ← aset (blk s bm) (bi / 8) (u8 (Z.lor c (bit_mask bi)));
        s' ← bzero (0 + bi) (lw bm d' s);
        Ok (0 + bi, s')
    | None => Panic "balloc: out of blocks"
    end).
Proof.
  intros [Hly Hsb Hb Hm]. destruct (layout_bounds Hly) as (? & ? & ?). pose proof (ly_size _ _ Hly).
  assert (sb_size sb / Z.of_nat BPB = 0) as Hd by (apply Z.div_small; change (Z.of_nat BPB) with 4096; lia).
  unfold balloc. rewrite Hsb, Hd. change (Z.to_nat (0 + 1)) with 1%nat. rewrite balloc_loop_S, Hsb.
  rewrite decide_True by lia. destruct (BBLOCK_bm 0 Hly) as [-> _]; [lia|].
  rewrite rd_Ok by done. rewrite bind_ret. generalize (balloc_bits (sb_size sb) 0 (blk s bm) BPB 0).
  by intros [[k|]| |].
Qed.

Lemma balloc_spec s :
  base s → (0 < nfree s)%nat →
  ∃ b, balloc s = Ok (b, allocated s b) ∧ is_data b ∧ bit s b = false ∧
    ∀ x, 0 ≤ x < b → bit s x = true.
Proof.
  intros Hs Hfree. pose proof Hs as [Hly Hsb Hb Hm]. destruct (layout_bounds Hly) as (? & ? & ?).
  rewrite (balloc_unfold s Hs).
  destruct (balloc_bits_spec (sb_size sb) 0 (blk s bm) BPB 0 (Hb bm)) as [(k & -> & Hk & Hks & Ht & Hj)|[-> Hj]];
    [lia|lia|..].
  - cbn [mbind outcome_bind]. rewrite aget_bit by (apply Hb || lia). cbn [mbind outcome_bind].
    rewrite aset_bit by (apply Hb || lia). cbn [mbind outcome_bind].
    assert (bit s k = false) as Hbk by (rewrite bit_tb by (done || lia); done).
    assert (ds ≤ k) as Hds.
    { destruct (decide (k < ds)); [|lia]. rewrite Hm in Hbk by lia. done. }
    rewrite bzero_Ok.
    + exists k. split_and!; [done|split; lia|done|]. intros x Hx. rewrite bit_tb by (done || lia). apply Hj. lia.
    + apply blocks_ok_lw; [done|]. apply wf_block_insert; [apply Hb|apply u8_range].
    + unfold FSSIZE. lia.
  - exfalso. unfold nfree in Hfree. rewrite Hsb in Hfree.
    destruct (filter _ _) as [|x l] eqn:Hf; [cbn in Hfree; lia|].
    assert (x ∈ filter (λ b, bit s b = false) (seqZ 0 (sb_size sb))) as Hx by (rewrite Hf; by left).
    apply list_elem_of_filter in Hx as [Hx1 Hx2]. apply elem_of_seqZ in Hx2.
    rewrite bit_tb in Hx1 by (done || lia). rewrite Hj in Hx1; [done| |lia].
    change (Z.of_nat BPB) with 4096. lia.
Qed.

(** Without a free block the kernel panics. *)
Lemma balloc_full s : base s → nfree s = 0%nat → balloc s = Panic "balloc: out of blocks".
Proof.
  intros Hs Hfree. pose proof Hs as [Hly Hsb Hb Hm]. destruct (layout_bounds Hly) as (? & ? & ?).
  rewrite (balloc_unfold s Hs).
  destruct (balloc_bits_spec (sb_size sb) 0 (blk s bm) BPB 0 (Hb bm)) as [(k & -> & Hk & Hks & Ht & Hj)|[-> _]];
    [lia|lia|..|done].
  exfalso. unfold nfree in Hfree. rewrite Hsb in Hfree. apply nil_length_inv in Hfree.
  assert (k ∈ filter (λ b, bit s b = false) (seqZ 0 (sb_size sb))) as Hx.
  { apply list_elem_of_filter. split; [rewrite bit_tb by (done || lia); done|]. apply elem_of_seqZ. lia. }
  rewrite Hfree in Hx. by apply not_elem_of_nil in Hx.
Qed.

Lemma bfree_spec s b :
  base s → is_data b → bit s b = true → bfree b s = Ok (freed s b).
Proof.
  intros [Hly Hsb Hb Hm] Hd Hbit. destruct (layout_bounds Hly) as (? & ? & ?). unfold is_data in Hd.
  assert (0 ≤ b < Z.of_nat BPB) as Hr by (change (Z.of_nat BPB) with 4096; lia).
  unfold bfree. rewrite Hsb. destruct (BBLOCK_bm b Hly) as [-> ->]; [lia|].
  rewrite rd_Ok by done. rewrite bind_ret. rewrite aget_bit by (apply Hb || lia). rewrite bind_ret.
  rewrite decide_False.
  - rewrite aset_bit by (apply Hb || lia). by rewrite bind_ret.
  - rewrite mask_tb by lia. rewrite bit_tb in Hbit by (done || lia). by rewrite Hbit.
Qed.

Lemma bfree_free s b :
  base s → is_data b → bit s b = false → bfree b s = Panic "freeing free block".
Proof.
  intros [Hly Hsb Hb Hm] Hd Hbit. destruct (layout_bounds Hly) as (? & ? & ?). unfold is_data in Hd.
  assert (0 ≤ b < Z.of_nat BPB) as Hr by (change (Z.of_nat BPB) with 4096; lia).
  unfold bfree. rewrite Hsb. destruct (BBLOCK_bm b Hly) as [-> ->]; [lia|].
  rewrite rd_Ok by done. rewrite bind_ret. rewrite aget_bit by (apply Hb || lia). rewrite bind_ret.
  rewrite decide_True; [done|]. rewrite mask_tb by lia. by rewrite bit_tb in Hbit by (done || lia).
Qed.

(** The free map after an allocation and after a release. *)
Lemma bit_lw_bm s d b : layout sb ds → f_sb s = sb → 0 ≤ b < sb_size sb → bit (lw bm d s) b = tb d b.
Proof. intros Hly Hsb Hb. rewrite bit_tb by done. by rewrite blk_lw_eq. Qed.

Lemma bit_lw_ne s b d x :
  layout sb ds → f_sb s = sb → b ≠ bm → 0 ≤ x < sb_size sb → bit (lw b d s) x = bit s x.
Proof. intros Hly Hsb Hb Hx. rewrite !bit_tb by done. by rewrite blk_lw_ne by done. Qed.

Lemma allocated_bit s b x :
  base s → is_data b → 0 ≤ x < sb_size sb → bit (allocated s b) x = bool_decide (x = b) || bit s x.
Proof.
  intros [Hly Hsb Hb Hm] Hd Hx. destruct (layout_bounds Hly) as (? & ? & ?). unfold is_data in Hd.
  unfold allocated. rewrite bit_lw_ne by (done || lia). rewrite bit_lw_bm by done.
  rewrite (bit_tb s) by done. apply tb_set; [apply Hb|..]; change (Z.of_nat BPB) with 4096; lia.
Qed.

Lemma freed_bit s b x :
  base s → is_data b → 0 ≤ x < sb_size sb → bit (freed s b) x = negb (bool_decide (x = b)) && bit s x.
Proof.
  intros [Hly Hsb Hb Hm] Hd Hx. destruct (layout_bounds Hly) as (? & ? & ?). unfold is_data in Hd.
  unfold freed. rewrite bit_lw_bm by done.
  rewrite (bit_tb s) by done. apply tb_clear; [apply Hb|..]; change (Z.of_nat BPB) with 4096; lia.
Qed.

Lemma allocated_blk s b x : x ≠ b → x ≠ bm → blk (allocated s b) x = blk s x.
Proof. intros. unfold allocated. by rewrite !blk_lw_ne. Qed.
Lemma allocated_zero s b : blk (allocated s b) b = zero_block.
Proof. apply blk_lw_eq. Qed.
Lemma freed_blk s b x : x ≠ bm → blk (freed s b) x = blk s x.
Proof. intros. unfold freed. by rewrite blk_lw_ne. Qed.

Lemma allocated_base s b : base s → is_data b → base (allocated s b).
Proof.
  intros Hs Hd. pose proof Hs as [Hly Hsb Hb Hm]. split; [done|done|..].
  - apply blocks_ok_lw; [|apply wf_zero_block]. apply blocks_ok_lw; [done|].
    apply wf_block_insert; [apply Hb|apply u8_range].
  - intros x Hx. pose proof (ly_size _ _ Hly). rewrite allocated_bit by (done || lia).
    rewrite Hm by done. apply orb_true_r.
Qed.

Lemma freed_base s b : base s → is_data b → base (freed s b).
Proof.
  intros Hs Hd. pose proof Hs as [Hly Hsb Hb Hm]. split; [done|done|..].
  - apply blocks_ok_lw; [done|]. apply wf_block_insert; [apply Hb|apply u8_range].
  - intros x Hx. pose proof (ly_size _ _ Hly). rewrite freed_bit by (done || lia). unfold is_data in Hd.
    rewrite Hm by done. rewrite bool_decide_false by lia. done.
Qed.

Lemma filter_remove_one (P Q : Z → Prop) `{∀ x, Decision (P x), ∀ x, Decision (Q x)} (l : list Z) b :
  NoDup l → b ∈ l → P b → (∀ x, x ∈ l → Q x ↔ P x ∧ x ≠ b) →
  length (filter P l) = S (length (filter Q l)).
Proof.
  intros Hnd Hin Hb HQ. assert (filter P l ≡ₚ b :: filter Q l) as ->; [|done]. apply NoDup_Permutation.
  - by apply NoDup_filter.
  - apply NoDup_cons. split; [|by apply NoDup_filter]. rewrite list_elem_of_filter.
    intros [HQb _]. by apply (HQ b Hin) in HQb as [_ ?].
  - intros x. rewrite elem_of_cons, !list_elem_of_filter. destruct (decide (x = b)) as [->|Hne]; [naive_solver|].
    split; [intros [? Hx]|intros [?|[? Hx]]]; [|done|]; rewrite ?(HQ x Hx) in *; naive_solver.
Qed.

Lemma allocated_nfree s b : base s → is_data b → bit s b = false → nfree s = S (nfree (allocated s b)).
Proof.
  intros Hs Hd Hb. pose proof Hs as [Hly Hsb _ _]. unfold is_data in Hd.
  pose proof (ly_size _ _ Hly). unfold nfree. change (f_sb (allocated s b)) with (f_sb s). rewrite Hsb.
  apply (filter_remove_one _ _ _ b); [apply NoDup_seqZ|apply elem_of_seqZ; lia|done|].
  intros x Hx%elem_of_seqZ. rewrite allocated_bit by (done || unfold is_data; lia).
  rewrite orb_false_iff, bool_decide_eq_false. tauto.
Qed.

Lemma freed_nfree s b : base s → is_data b → bit s b = true → nfree (freed s b) = S (nfree s).
Proof.
  intros Hs Hd Hb. pose proof Hs as [Hly Hsb _ _]. unfold is_data in Hd.
  pose proof (ly_size _ _ Hly). unfold nfree. change (f_sb (freed s b)) with (f_sb s). rewrite Hsb.
  apply (filter_remove_one _ _ _ b); [apply NoDup_seqZ|apply elem_of_seqZ; lia|..].
  - rewrite freed_bit by (done || unfold is_data; lia). by rewrite bool_decide_true.
  - intros x Hx%elem_of_seqZ. rewrite freed_bit by (done || unfold is_data; lia).
    rewrite andb_false_iff, negb_false_iff, bool_decide_eq_true. split; [|naive_solver].
    intros Hx0. split; [by right|]. intros ->. congruence.
Qed.
End allocator.
