(* ===== verification/FileSpec.v ===== *)
(** * The blocks of a file

    [slot s addrs n] is the block that holds the [n]th block of the file whose
    [ip->addrs] is [addrs]; slot [MAXFILE] stands for its indirect block.  A file
    [owns] the blocks in its slots; [bmap] fills empty slots with blocks that
    nobody owns. *)

From stdpp Require Import gmap.
From S2P Require Import Prelude.
From S2P Require Import Bytes.
From S2P Require Import Log.
From S2P Require Import Fs.
From S2P Require Import FsSpec.

Local Open Scope Z_scope.

Definition word (d : block) (k : nat) : Z := le_val (slice (4 * k) 4 d).

Definition slot (s : fstate) (addrs : list Z) (n : nat) : Z :=
  if decide (n < NDIRECT)%nat then addrs !!! n
  else if decide (n = MAXFILE) then addrs !!! NDIRECT
  else if decide (addrs !!! NDIRECT = 0) then 0
  else word (blk s (addrs !!! NDIRECT)) (n - NDIRECT).

Definition owns (s : fstate) (addrs : list Z) (b : Z) : Prop :=
  b ≠ 0 ∧ ∃ n, (n ≤ MAXFILE)%nat ∧ slot s addrs n = b.

Lemma le_val_zeros n : le_val (replicate n 0) = 0.
Proof. induction n as [|n IH]; cbn [replicate le_val]; lia. Qed.

Lemma word_zero k : (k < NINDIRECT)%nat → word zero_block k = 0.
Proof.
  intros Hk. unfold word, slice, zero_block. rewrite drop_replicate, take_replicate. apply le_val_zeros.
Qed.

Lemma word_put d k v j :
  wf_block d → (k < NINDIRECT)%nat → (j < NINDIRECT)%nat → 0 ≤ v < 2 ^ 32 →
  word (list_inserts (4 * k) (le_bytes 4 v) d) j = if decide (j = k) then v else word d j.
Proof.
  intros [Hl _] Hk Hj Hv. unfold word, NINDIRECT, BSIZE in *. case_decide as Hjk.
  - subst. apply get_put_le_eq; [lia|exact Hv].
  - f_equal. apply get_put_le_ne. lia.
Qed.

#[export] Instance owns_dec s addrs b : Decision (owns s addrs b).
Proof.
  destruct (decide (b ≠ 0 ∧ Exists (λ n, slot s addrs n = b) (seq 0 (S MAXFILE)))) as [[Hb He]|He].
  - left. split; [done|]. apply Exists_exists in He as (n & Hn & Heq). apply elem_of_seq in Hn.
    exists n. split; [lia|done].
  - right. intros [Hb (n & Hn & Heq)]. apply He. split; [done|]. apply Exists_exists. exists n.
    split; [|done]. apply elem_of_seq. lia.
Defined.

Section file.
Context (sb : superblock) (ds : Z).
Notation bm := (sb_bmapstart sb).
Notation base := (fs_base sb ds).
Notation is_data := (is_data sb ds).
Implicit Types (s : fstate) (addrs : list Z) (b : Z).

(** A file owns data blocks that are in use, each in one slot. *)
Record iwf s addrs : Prop := {
  iw_len : length addrs = S NDIRECT;
  iw_data : ∀ n, (n ≤ MAXFILE)%nat → slot s addrs n ≠ 0 →
    is_data (slot s addrs n) ∧ bit s (slot s addrs n) = true;
  iw_inj : ∀ n m, (n ≤ MAXFILE)%nat → (m ≤ MAXFILE)%nat → slot s addrs n ≠ 0 →
    slot s addrs n = slot s addrs m → n = m
}.

(** What an operation on one file leaves alone: blocks in use that the file
    does not own keep their content and their owner, and no block is lost. *)
Record iframe s s' addrs addrs' : Prop := {
  if_base : base s';
  if_bits : ∀ b, is_data b →
    bit s' b = true ↔ (bit s b = true ∧ ¬ owns s addrs b) ∨ owns s' addrs' b;
  if_disj : ∀ b, is_data b → bit s b = true → ¬ owns s addrs b → ¬ owns s' addrs' b;
  if_blk : ∀ b, is_data b → bit s b = true → ¬ owns s addrs b → blk s' b = blk s b;
  if_meta : ∀ b, b < ds → b ≠ bm → blk s' b = blk s b
}.

Lemma owns_slot s addrs n : (n ≤ MAXFILE)%nat → slot s addrs n ≠ 0 → owns s addrs (slot s addrs n).
Proof. intros. split; [done|]. by exists n. Qed.

Lemma owns_data s addrs b : iwf s addrs → owns s addrs b → is_data b ∧ bit s b = true.
Proof. intros Hw [Hb (n & Hn & <-)]. by apply Hw. Qed.

Lemma iframe_refl s addrs : base s → iwf s addrs → iframe s s addrs addrs.
Proof.
  intros Hs Hw. split; [done| |done..]. intros b Hb. split.
  - intros Hbit. destruct (decide (owns s addrs b)); [by right|by left].
  - intros [[? _]|Ho]; [done|]. by apply (owns_data s addrs).
Qed.

Lemma iframe_trans s1 s2 s3 a1 a2 a3 : iframe s1 s2 a1 a2 → iframe s2 s3 a2 a3 → iframe s1 s3 a1 a3.
Proof.
  intros [Hb1 Hbits1 Hd1 Hk1 Hm1] [Hb2 Hbits2 Hd2 Hk2 Hm2]. split; [done|..].
  - intros b Hb. rewrite (Hbits2 b Hb), (Hbits1 b Hb). specialize (Hd1 b Hb). tauto.
  - intros b Hb Hbit Hno. apply Hd2; [done|apply Hbits1; [done|by left]|by apply Hd1].
  - intros b Hb Hbit Hno. rewrite Hk2; [by apply Hk1|done|apply Hbits1; [done|by left]|by apply Hd1].
  - intros b Hb Hne. rewrite Hm2 by done. by apply Hm1.
Qed.

(** The slots depend on the indirect block alone. *)
Lemma slot_ext s s' addrs n :
  (addrs !!! NDIRECT ≠ 0 → blk s' (addrs !!! NDIRECT) = blk s (addrs !!! NDIRECT)) →
  slot s' addrs n = slot s addrs n.
Proof.
  intros H. unfold slot. repeat case_decide; try done. by rewrite H.
Qed.

Lemma slot_indirect s addrs : slot s addrs MAXFILE = addrs !!! NDIRECT.
Proof. done. Qed.

(** ** Filling an empty slot with a free block *)

Lemma fill_slot s s' addrs addrs' n b :
  base s → base s' → iwf s addrs → length addrs' = S NDIRECT →
  (n ≤ MAXFILE)%nat → slot s addrs n = 0 → is_data b → bit s b = false →
  (∀ m, (m ≤ MAXFILE)%nat → slot s' addrs' m = if decide (m = n) then b else slot s addrs m) →
  (∀ x, is_data x → bit s' x = bool_decide (x = b) || bit s x) →
  (∀ x, is_data x → bit s x = true → ¬ owns s addrs x → blk s' x = blk s x) →
  (∀ x, x < ds → x ≠ bm → blk s' x = blk s x) →
  iwf s' addrs' ∧ iframe s s' addrs addrs'.
Proof.
  intros Hs Hs' Hw Hlen Hn H0 Hb Hfree Hslot Hbit Hblk Hmeta. pose proof Hw as [_ Hdata Hinj].
  assert (b ≠ 0) as Hb0.
  { unfold FsSpec.is_data in Hb. pose proof (layout_bounds _ _ (fb_layout _ _ _ Hs)). lia. }
  assert (∀ x, owns s' addrs' x ↔ owns s addrs x ∨ x = b) as Hown.
  { intros x. unfold owns. split.
    - intros (Hx & m & Hm & Heq). rewrite (Hslot m Hm) in Heq. case_decide; [by right|left]. eauto.
    - intros [(Hx & m & Hm & Heq)| ->].
      + split; [done|]. exists m. split; [done|]. rewrite (Hslot m Hm). rewrite decide_False; [done|].
        intros ->. congruence.
      + split; [done|]. exists n. split; [done|]. rewrite (Hslot n Hn). by rewrite decide_True. }
  split.
  - split; [done|..].
    + intros m Hm. rewrite (Hslot m Hm). case_decide; intros Hne.
      * split; [done|]. rewrite Hbit by done. by rewrite bool_decide_true.
      * destruct (Hdata m Hm Hne) as [? Hbm]. split; [done|]. rewrite Hbit by done. rewrite Hbm. apply orb_true_r.
    + assert (∀ m, (m ≤ MAXFILE)%nat → slot s addrs m ≠ b) as Hnb.
      { intros m Hm Heq. destruct (Hdata m Hm) as [_ ?]; congruence. }
      intros m1 m2 Hm1 Hm2. rewrite (Hslot m1 Hm1), (Hslot m2 Hm2).
      repeat case_decide; intros Hne Heq; subst; try done; [by destruct (Hnb m2)|by destruct (Hnb m1)|].
      by apply Hinj.
  - split; [done| |..]; [|intros x Hx Hbx Hno; rewrite Hown; intros [?| ->]; [done|congruence]|done|done].
    intros x Hx. rewrite Hbit, Hown by done. rewrite orb_true_iff, bool_decide_eq_true.
    destruct (iframe_refl s addrs) as [_ Hbits _ _ _]; [done..|].
    specialize (Hbits x Hx). tauto.
Qed.

Lemma base_updi f ip s : base s → base (updi f ip s).
Proof. by intros [? ? ? ?]. Qed.

Lemma base_lw_data s b d : base s → is_data b → wf_block d → base (lw b d s).
Proof.
  intros [Hly Hsb Hb Hm] Hd Hwf. pose proof (layout_bounds _ _ Hly). unfold FsSpec.is_data in Hd.
  split; [done|done|by apply blocks_ok_lw|]. intros x Hx.
  rewrite (bit_lw_ne sb ds) by (done || lia). by apply Hm.
Qed.

Lemma data_nonzero s b : base s → is_data b → b ≠ 0 ∧ b ≠ bm ∧ 0 ≤ b < FSSIZE ∧ 0 ≤ b < sb_size sb.
Proof.
  intros Hs Hb. pose proof (layout_bounds _ _ (fb_layout _ _ _ Hs)). unfold FsSpec.is_data in Hb. unfold FSSIZE. lia.
Qed.

(** The indirect block is in use, hence untouched by an allocation. *)
Lemma allocated_indirect s addrs b :
  base s → iwf s addrs → is_data b → bit s b = false → addrs !!! NDIRECT ≠ 0 →
  blk (allocated sb s b) (addrs !!! NDIRECT) = blk s (addrs !!! NDIRECT) ∧ addrs !!! NDIRECT ≠ b.
Proof.
  intros Hs Hw Hb Hfree Hne. destruct (iw_data _ _ Hw MAXFILE) as [Hd Hbit]; [done..|].
  rewrite slot_indirect in Hd, Hbit. destruct (data_nonzero s _ Hs Hd) as (_ & ? & _).
  assert (addrs !!! NDIRECT ≠ b) by congruence. split; [|done]. by apply allocated_blk.
Qed.

Lemma allocated_blk_used s b x :
  base s → is_data x → bit s x = true → bit s b = false → blk (allocated sb s b) x = blk s x.
Proof.
  intros Hs Hx Hbx Hb. destruct (data_nonzero s _ Hs Hx) as (_ & ? & _). apply allocated_blk; congruence.
Qed.

Lemma allocated_data_bit s b x :
  base s → is_data b → is_data x → bit (allocated sb s b) x = bool_decide (x = b) || bit s x.
Proof.
  intros Hs Hb Hx. destruct (data_nonzero s _ Hs Hx) as (_ & _ & _ & ?). by apply (allocated_bit sb ds).
Qed.

(** A direct block, or the (still empty) indirect block. *)
Lemma fill_addrs s addrs i n b :
  base s → iwf s addrs → (i ≤ NDIRECT)%nat → n = (if decide (i = NDIRECT) then MAXFILE else i) →
  slot s addrs n = 0 → is_data b → bit s b = false →
  iwf (allocated sb s b) (<[i := b]> addrs) ∧
  iframe s (allocated sb s b) addrs (<[i := b]> addrs) ∧
  ∀ m, (m ≤ MAXFILE)%nat →
    slot (allocated sb s b) (<[i := b]> addrs) m = if decide (m = n) then b else slot s addrs m.
Proof.
  intros Hs Hw Hi Hn H0 Hb Hfree. pose proof (iw_len _ _ Hw) as Hlen.
  destruct (data_nonzero s b Hs Hb) as (Hb0 & Hbm & _).
  assert (∀ m, (m ≤ MAXFILE)%nat →
    slot (allocated sb s b) (<[i := b]> addrs) m = if decide (m = n) then b else slot s addrs m) as Hslot.
  { intros m Hm. subst n. unfold slot in *. unfold NDIRECT, MAXFILE in *.
    destruct (decide (i = 12%nat)) as [->|Hi12].
    - rewrite !list_lookup_total_insert_eq by lia. repeat case_decide; try lia; try done.
      + by rewrite list_lookup_total_insert_ne by lia.
      + rewrite allocated_zero. apply word_zero. unfold NINDIRECT. lia.
    - clear H0. rewrite (list_lookup_total_insert_ne _ i 12) by lia.
      destruct (decide (m = i)) as [->|Hmi].
      + rewrite !decide_True by lia. by rewrite list_lookup_total_insert_eq by lia.
      + repeat case_decide; try done; [by rewrite list_lookup_total_insert_ne by lia|].
        f_equal. by apply allocated_indirect. }
  split; [|split; [|done]];
    apply (fill_slot s (allocated sb s b) addrs (<[i := b]> addrs) n b); try done;
    try (by apply allocated_base); try (by rewrite length_insert);
    try (subst n; by case_decide; unfold MAXFILE, NDIRECT in *; lia);
    try (intros x Hx; by apply allocated_data_bit);
    try (intros x Hx Hbx _; by apply allocated_blk_used).
  all: intros x Hx Hne; apply allocated_blk; [unfold FsSpec.is_data in Hb; lia|done].
Qed.

(** An entry of the indirect block. *)
Definition entered s (ind : Z) (k : nat) b : fstate :=
  lw ind (list_inserts (4 * k) (le_bytes 4 b) (blk s ind)) (allocated sb s b).

Lemma fill_entry s addrs n b :
  base s → iwf s addrs → (NDIRECT ≤ n < MAXFILE)%nat → addrs !!! NDIRECT ≠ 0 →
  slot s addrs n = 0 → is_data b → bit s b = false →
  let s' := entered s (addrs !!! NDIRECT) (n - NDIRECT) b in
  iwf s' addrs ∧ iframe s s' addrs addrs ∧
  (∀ m, (m ≤ MAXFILE)%nat → slot s' addrs m = if decide (m = n) then b else slot s addrs m).
Proof.
  intros Hs Hw Hn Hind H0 Hb Hfree s'. set (ind := addrs !!! NDIRECT) in *.
  destruct (data_nonzero s b Hs Hb) as (Hb0 & Hbm & Hbr & _).
  destruct (iw_data _ _ Hw MAXFILE) as [Hid Hibit]; [done..|]. rewrite slot_indirect in Hid, Hibit. fold ind in Hid, Hibit.
  destruct (data_nonzero s ind Hs Hid) as (_ & Hibm & _).
  pose proof (fb_blocks _ _ _ Hs ind) as Hwf.
  assert (wf_block (list_inserts (4 * (n - NDIRECT)) (le_bytes 4 b) (blk s ind))) as Hwf'
    by (apply wf_block_inserts; [done|apply le_bytes_range]).
  pose proof (allocated_base _ _ s b Hs Hb) as Hbase.
  assert (∀ m, (m ≤ MAXFILE)%nat → slot s' addrs m = if decide (m = n) then b else slot s addrs m) as Hslot.
  { intros m Hm. clear H0. unfold slot. fold ind. repeat case_decide; subst; try lia; try done;
      unfold s', entered; rewrite blk_lw_eq, word_put by (done || unfold FSSIZE, NDIRECT, MAXFILE, NINDIRECT in *; lia).
    - by rewrite decide_True.
    - by rewrite decide_False by lia. }
  assert (∀ x, x ≠ ind → blk s' x = blk (allocated sb s b) x) as Hne by (intros; by apply blk_lw_ne).
  split; [|split; [|done]]; apply (fill_slot s s' addrs addrs n b); try done; try (by apply base_lw_data);
    try apply Hw; try lia.
  all: try (intros x Hx; unfold s', entered; destruct (data_nonzero s x Hs Hx) as (_ & _ & _ & ?);
    rewrite (bit_lw_ne sb ds) by (done || apply Hs); by apply allocated_data_bit).
  all: try (intros x Hx Hbx Hno; rewrite Hne;
    [by apply allocated_blk_used|intros ->; apply Hno; by apply (owns_slot s addrs MAXFILE)]).
  all: intros x Hx Hxm; unfold FsSpec.is_data in Hid, Hb; rewrite Hne by lia; apply allocated_blk; [lia|done].
Qed.

(** ** [bmap] *)

Definition set_addrs (addrs : list Z) (i : inode) : inode := i <| i_addrs := addrs |>.

(** Whether the indirect block is still to be allocated. *)
Definition ind_need s addrs : nat := if decide (slot s addrs MAXFILE = 0) then 1 else 0.

(** The state [s'] and [ip->addrs] after [bmap] of block [n] of the file. *)
Record bmapped s s' addrs addrs' (n : nat) (a : Z) : Prop := {
  bd_wf : iwf s' addrs';
  bd_frame : iframe s s' addrs addrs';
  bd_slot : slot s' addrs' n = a ∧ a ≠ 0;
  bd_others : ∀ m, (m < MAXFILE)%nat → m ≠ n → slot s' addrs' m = slot s addrs m;
  bd_blk : ∀ m, (m < MAXFILE)%nat → slot s addrs m ≠ 0 → blk s' (slot s addrs m) = blk s (slot s addrs m);
  bd_new : slot s addrs n = 0 → blk s' a = zero_block;
  bd_free : (nfree s + ind_need s' addrs' ≤ nfree s' + 1 + ind_need s addrs)%nat;
  bd_keep : slot s addrs n ≠ 0 → a = slot s addrs n;
  bd_ind : slot s addrs MAXFILE ≠ 0 → slot s' addrs' MAXFILE = slot s addrs MAXFILE;
  bd_logged : ∀ x, x ∈ f_logged s' →
    x ∈ f_logged s ∨ x = bm ∨ x = a ∨ (x = slot s' addrs' MAXFILE ∧ x ≠ 0)
}.

Lemma bmapped_refl s addrs n :
  base s → iwf s addrs → slot s addrs n ≠ 0 → bmapped s s addrs addrs n (slot s addrs n).
Proof.
  intros Hs Hw Hn. split; try done; [by apply iframe_refl|by auto with lia..].
Qed.

Lemma logged_lw b d s x : x ∈ f_logged (lw b d s) → x ∈ f_logged s ∨ x = b.
Proof.
  unfold lw. cbn. case_decide; [by left|]. intros [?|Hx]%elem_of_app; [by left|right].
  by apply list_elem_of_singleton in Hx.
Qed.

Lemma logged_allocated s b x : x ∈ f_logged (allocated sb s b) → x ∈ f_logged s ∨ x = bm ∨ x = b.
Proof. intros [[?| ->]%logged_lw| ->]%logged_lw; auto. Qed.

Lemma bmapped_updi s s' addrs addrs' n a f ip :
  bmapped s s' addrs addrs' n a → bmapped s (updi f ip s') addrs addrs' n a.
Proof.
  intros [[? ? ?] [? ? ? ? ?] ? ? ? ? ? ? ? ?]. split; try done; split; try done. by apply base_updi.
Qed.

Lemma bmapped_updi_l s s' addrs addrs' n a f ip :
  bmapped (updi f ip s) s' addrs addrs' n a → bmapped s s' addrs addrs' n a.
Proof. intros [? [? ? ? ? ?] ? ? ? ? ? ? ? ?]. split; try done; split; done. Qed.

Lemma bmap_direct s addrs n b :
  base s → iwf s addrs → (n < NDIRECT)%nat → slot s addrs n = 0 → is_data b → bit s b = false →
  bmapped s (allocated sb s b) addrs (<[n := b]> addrs) n b.
Proof.
  intros Hs Hw Hn H0 Hb Hfree. destruct (data_nonzero s b Hs Hb) as (Hb0 & _).
  destruct (fill_addrs s addrs n n b) as (Hw' & Hf & Hslot); try done; [lia|by rewrite decide_False by lia|].
  assert (∀ m, (m ≤ MAXFILE)%nat → m ≠ n → slot (allocated sb s b) (<[n := b]> addrs) m = slot s addrs m) as Hne.
  { intros m Hm Hmn. rewrite Hslot by done. by rewrite decide_False. }
  split; try done.
  - rewrite Hslot by (unfold MAXFILE, NDIRECT in *; lia). by rewrite decide_True.
  - intros m Hm Hmn. apply Hne; [lia|done].
  - intros m Hm Hm0. destruct (iw_data _ _ Hw m) as [Hd Hbit]; [lia|done|]. by apply allocated_blk_used.
  - intros _. apply allocated_zero.
  - unfold ind_need. rewrite Hne by (unfold MAXFILE, NDIRECT in *; lia).
    rewrite (allocated_nfree sb ds s b) by done. lia.
  - intros _. apply Hne; [done|]. unfold MAXFILE, NDIRECT in *. lia.
  - intros x [?|[?|?]]%logged_allocated; auto.
Qed.

(** Allocating the indirect block itself. *)
Lemma bmap_ind s addrs b :
  base s → iwf s addrs → slot s addrs MAXFILE = 0 → is_data b → bit s b = false →
  iwf (allocated sb s b) (<[NDIRECT := b]> addrs) ∧
  iframe s (allocated sb s b) addrs (<[NDIRECT := b]> addrs) ∧
  ∀ m, (m < MAXFILE)%nat → slot (allocated sb s b) (<[NDIRECT := b]> addrs) m = slot s addrs m.
Proof.
  intros Hs Hw H0 Hb Hfree.
  destruct (fill_addrs s addrs NDIRECT MAXFILE b) as (Hw' & Hf & Hslot); try done.
  split_and!; try done. intros m Hm. rewrite Hslot by lia. by rewrite decide_False by lia.
Qed.

Lemma bmap_entry s addrs n b :
  base s → iwf s addrs → (NDIRECT ≤ n < MAXFILE)%nat → addrs !!! NDIRECT ≠ 0 →
  slot s addrs n = 0 → is_data b → bit s b = false →
  bmapped s (entered s (addrs !!! NDIRECT) (n - NDIRECT) b) addrs addrs n b.
Proof.
  intros Hs Hw Hn Hind H0 Hb Hfree. destruct (data_nonzero s b Hs Hb) as (Hb0 & _).
  destruct (fill_entry s addrs n b) as (Hw' & Hf & Hslot); try done.
  set (s' := entered _ _ _ _) in *.
  assert (∀ x, x ≠ addrs !!! NDIRECT → blk s' x = blk (allocated sb s b) x) as Hne by (intros; by apply blk_lw_ne).
  destruct (allocated_indirect s addrs b) as [_ Hib]; try done.
  split; try done.
  - rewrite Hslot by lia. by rewrite decide_True.
  - intros m Hm Hmn. rewrite Hslot by lia. by rewrite decide_False.
  - intros m Hm Hm0. destruct (iw_data _ _ Hw m) as [Hd Hbit]; [lia|done|]. rewrite Hne; [by apply allocated_blk_used|].
    intros Heq. apply (iw_inj _ _ Hw m MAXFILE) in Heq; [lia|lia|done|done].
  - intros _. rewrite Hne by done. apply allocated_zero.
  - unfold ind_need. rewrite !slot_indirect. rewrite (allocated_nfree sb ds s b) by done.
    assert (nfree s' = nfree (allocated sb s b)) as ->; [|lia].
    apply nfree_ext; [done|]. change (f_sb (allocated sb s b)) with (f_sb s). rewrite (fb_sb _ _ _ Hs). intros x Hx.
    unfold s', entered. destruct (iw_data _ _ Hw MAXFILE) as [Hd _]; [done..|].
    destruct (data_nonzero s _ Hs Hd) as (_ & ? & _). by rewrite (bit_lw_ne sb ds) by (done || lia || apply Hs).
  - intros x [[?|[?|?]]%logged_allocated| ->]%logged_lw; rewrite ?slot_indirect; auto.
Qed.

Lemma bmapped_ind s s2 addrs n a b :
  base s → iwf s addrs → (n < MAXFILE)%nat → slot s addrs MAXFILE = 0 → is_data b → bit s b = false →
  bmapped (allocated sb s b) s2 (<[NDIRECT := b]> addrs) (<[NDIRECT := b]> addrs) n a →
  bmapped s s2 addrs (<[NDIRECT := b]> addrs) n a.
Proof.
  intros Hs Hw Hn H0 Hb Hfree. destruct (bmap_ind s addrs b) as (Hw1 & Hf1 & Hslot); try done.
  intros [? Hf2 ? Ho Hk Hnew Hfr Hkp Hid Hlg]. set (s1 := allocated sb s b) in *. set (addrs1 := <[NDIRECT := b]> addrs) in *.
  assert (slot s1 addrs1 MAXFILE = b) as Hsi.
  { rewrite slot_indirect. apply list_lookup_total_insert_eq. rewrite (iw_len _ _ Hw). unfold NDIRECT. lia. }
  destruct (data_nonzero s b Hs Hb) as (Hb0 & _).
  split; try done.
  - by eapply iframe_trans.
  - intros m Hm Hmn. rewrite Ho by done. by apply Hslot.
  - intros m Hm Hm0. rewrite <-Hslot by done. rewrite Hk; [|done|by rewrite Hslot by done].
    rewrite Hslot by done. destruct (iw_data _ _ Hw m) as [Hd Hbit]; [lia|done|]. by apply allocated_blk_used.
  - intros Hz. apply Hnew. by rewrite Hslot by done.
  - assert (ind_need s1 addrs1 = 0%nat) as Hz1 by (unfold ind_need; rewrite Hsi; by rewrite decide_False).
    assert (ind_need s addrs = 1%nat) as Hz by (unfold ind_need; rewrite H0; by rewrite decide_True).
    rewrite (allocated_nfree sb ds s b) by done. fold s1. lia.
  - rewrite <-Hslot by done. done.
  - intros x [Hx|?]%Hlg; [|by auto]. apply logged_allocated in Hx as [?|[?|Hxb]]; [by auto..|].
    right; right; right. subst x. split; [|done]. rewrite Hid by (by rewrite Hsi). done.
Qed.

Lemma get_indirect_word s addrs n :
  base s → iwf s addrs → (NDIRECT ≤ n < MAXFILE)%nat → addrs !!! NDIRECT ≠ 0 →
  get_indirect s (addrs !!! NDIRECT) (Z.of_nat n - Z.of_nat NDIRECT) = Ok (slot s addrs n).
Proof.
  intros Hs Hw Hn Hind. destruct (iw_data _ _ Hw MAXFILE) as [Hd _]; [done..|]. rewrite slot_indirect in Hd.
  destruct (data_nonzero s _ Hs Hd) as (_ & _ & Hr & _). unfold get_indirect. rewrite rd_Ok by done. rewrite bind_ret.
  replace (4 * (Z.of_nat n - Z.of_nat NDIRECT)) with (Z.of_nat (4 * (n - NDIRECT))) by lia.
  rewrite get_le_Ok.
  - unfold slot. by rewrite !decide_False by (done || lia).
  - rewrite (proj1 (fb_blocks _ _ _ Hs _)). unfold NDIRECT, MAXFILE, BSIZE in *. lia.
Qed.

(** The second half of [bmap]: the indirect block [addrs !!! NDIRECT] exists. *)
Definition bmap_tail (ind : Z) (bn : Z) s : outcome (Z * fstate) :=
  addr ← get_indirect s ind bn;
  if decide (addr = 0) then
    '(a, s2) ← balloc s;
    d ← rd s2 ind;
    d' ← put_le 4 d (4 * bn) a;
    Ok (a, lw ind d' s2)
  else Ok (addr, s).

Lemma bmap_tail_spec s addrs n :
  base s → iwf s addrs → (NDIRECT ≤ n < MAXFILE)%nat → addrs !!! NDIRECT ≠ 0 → (0 < nfree s)%nat →
  ∃ a s', bmap_tail (addrs !!! NDIRECT) (Z.of_nat n - Z.of_nat NDIRECT) s = Ok (a, s') ∧
    bmapped s s' addrs addrs n a ∧ f_icache s' = f_icache s ∧ (slot s addrs n ≠ 0 → s' = s).
Proof.
  intros Hs Hw Hn Hind Hfree. unfold bmap_tail. rewrite (get_indirect_word s addrs n) by done. rewrite bind_ret.
  case_decide as H0.
  - destruct (balloc_spec sb ds s Hs Hfree) as (b & -> & Hb & Hbit & _). rewrite bind_ret.
    destruct (iw_data _ _ Hw MAXFILE) as [Hd _]; [done..|]. rewrite slot_indirect in Hd.
    destruct (data_nonzero s _ Hs Hd) as (_ & _ & Hr & _). rewrite rd_Ok by done. rewrite bind_ret.
    replace (4 * (Z.of_nat n - Z.of_nat NDIRECT)) with (Z.of_nat (4 * (n - NDIRECT))) by lia.
    destruct (allocated_indirect s addrs b) as [-> _]; try done. rewrite put_le_Ok.
    + rewrite bind_ret. eexists _, _. split; [done|]. split_and!; [by apply bmap_entry|done|done].
    + rewrite (proj1 (fb_blocks _ _ _ Hs _)). unfold NDIRECT, MAXFILE, BSIZE in *. lia.
  - exists (slot s addrs n), s. split_and!; [done|by apply bmapped_refl|done|done].
Qed.

Lemma bmap_spec s ip i n :
  base s → f_icache s !! ip = Some i → iwf s (i_addrs i) → (n < MAXFILE)%nat →
  (1 + ind_need s (i_addrs i) ≤ nfree s)%nat →
  ∃ a s' addrs', bmap ip (Z.of_nat n) s = Ok (a, s') ∧
    bmapped s s' (i_addrs i) addrs' n a ∧
    f_icache s' = alter (set_addrs addrs') ip (f_icache s) ∧
    (slot s (i_addrs i) n ≠ 0 → s' = s ∧ addrs' = i_addrs i).
Proof.
  intros Hs Hi Hw Hn Hfree. set (addrs := i_addrs i) in *. unfold bmap. rewrite (proj2 (geti_Ok s ip i) Hi), bind_ret.
  pose proof (iw_len _ _ Hw) as Hlen.
  assert (f_icache s = alter (set_addrs addrs) ip (f_icache s)) as Hsame.
  { symmetry. apply list_alter_id_at. intros x Hx. rewrite Hi in Hx. injection Hx as <-. by destruct i. }
  destruct (decide (n < NDIRECT)%nat) as [Hd|Hd].
  - rewrite decide_True by lia. rewrite (aget_nat _ _ (addrs !!! n)) by (apply list_lookup_lookup_total_lt; lia).
    rewrite bind_ret. assert (slot s addrs n = addrs !!! n) as Hsl by (unfold slot; by rewrite decide_True).
    rewrite <-Hsl. case_decide as H0.
    + destruct (balloc_spec sb ds s Hs) as (b & -> & Hb & Hbit & _); [lia|]. rewrite bind_ret, Nat2Z.id.
      eexists _, _, _. split; [done|]. split_and!; [by apply bmapped_updi, bmap_direct| |done].
      by apply (updi_icache (λ i, i <| i_addrs ::= <[n := b]> |>) (set_addrs (<[n := b]> addrs)) ip (allocated sb s b) i Hi).
    + exists (slot s addrs n), s, addrs. split_and!; [done|by apply bmapped_refl|done|done].
  - rewrite !decide_False by lia. rewrite decide_True by (unfold NDIRECT, MAXFILE, NINDIRECT in *; lia).
    rewrite (aget_nat _ _ (addrs !!! NDIRECT)) by (apply list_lookup_lookup_total_lt; unfold NDIRECT in *; lia).
    rewrite bind_ret. case_decide as H0.
    + destruct (balloc_spec sb ds s Hs) as (b & Hba & Hb & Hbit & _); [lia|]. rewrite Hba, !bind_ret.
      destruct (bmap_ind s addrs b) as (Hw1 & Hf1 & Hslot); try done.
      set (addrs1 := <[NDIRECT := b]> addrs) in *.
      set (s1 := updi (λ i, i <| i_addrs ::= <[NDIRECT := b]> |>) ip (allocated sb s b)).
      assert (addrs1 !!! NDIRECT = b) as Hind by (apply list_lookup_total_insert_eq; unfold NDIRECT in *; lia).
      destruct (data_nonzero s b Hs Hb) as (Hb0 & _).
      destruct (bmap_tail_spec s1 addrs1 n) as (a & s' & Ht & Hbm & Hic & _).
      * apply base_updi, allocated_base; done.
      * destruct Hw1. by split.
      * lia.
      * by rewrite Hind.
      * change (nfree s1) with (nfree (allocated sb s b)). unfold ind_need in Hfree.
        rewrite slot_indirect, decide_True in Hfree by done. rewrite (allocated_nfree sb ds s b) in Hfree by done. lia.
      * rewrite Hind in Ht. exists a, s', addrs1. split; [exact Ht|]. split_and!.
        -- apply (bmapped_ind s s' addrs n a b); try done. by apply (bmapped_updi_l _ _ _ _ _ _ _ _ Hbm).
        -- rewrite Hic. by apply (updi_icache (λ i, i <| i_addrs ::= <[NDIRECT := b]> |>) (set_addrs addrs1) ip (allocated sb s b) i Hi).
        -- intros Hne. exfalso. apply Hne. unfold slot. by rewrite !decide_False, decide_True by (done || lia).
    + destruct (bmap_tail_spec s addrs n) as (a & s' & Ht & Hbm & Hic & Hs'); [done|done|lia|done|lia|].
      exists a, s', addrs. split; [exact Ht|]. split_and!; [done|by rewrite Hic|]. intros Hne. split; [auto|done].
Qed.

(** A block that exists is found without touching anything. *)
Lemma bmap_present s ip i n :
  base s → f_icache s !! ip = Some i → iwf s (i_addrs i) → (n < MAXFILE)%nat →
  slot s (i_addrs i) n ≠ 0 → bmap ip (Z.of_nat n) s = Ok (slot s (i_addrs i) n, s).
Proof.
  intros Hs Hi Hw Hn Hne. set (addrs := i_addrs i) in *. unfold bmap. rewrite (proj2 (geti_Ok s ip i) Hi), bind_ret.
  pose proof (iw_len _ _ Hw) as Hlen. destruct (decide (n < NDIRECT)%nat) as [Hd|Hd].
  - rewrite decide_True by lia. rewrite (aget_nat _ _ (addrs !!! n)) by (apply list_lookup_lookup_total_lt; lia).
    rewrite bind_ret. assert (slot s addrs n = addrs !!! n) as Hsl by (unfold slot; by rewrite decide_True).
    rewrite <-Hsl. by rewrite decide_False.
  - rewrite !decide_False by lia. rewrite decide_True by (unfold NDIRECT, MAXFILE, NINDIRECT in *; lia).
    rewrite (aget_nat _ _ (addrs !!! NDIRECT)) by (apply list_lookup_lookup_total_lt; unfold NDIRECT in *; lia).
    rewrite bind_ret. assert (addrs !!! NDIRECT ≠ 0) as Hind.
    { intros H0. apply Hne. unfold slot. by rewrite !decide_False, decide_True by (done || lia). }
    rewrite decide_False, bind_ret by done. rewrite get_indirect_word by (done || lia).
    by rewrite bind_ret, decide_False.
Qed.
End file.
