(* ===== verification/FileRw.v ===== *)
(** * Reading and writing files

    [byte_at s addrs o] is the byte at offset [o] of a file.  [readi] returns
    those bytes and changes nothing; [writei] changes exactly the bytes it was
    asked to, allocates the blocks it needs and nothing else. *)

From stdpp Require Import gmap.
From S2P Require Import Prelude.
From S2P Require Import Bytes.
From S2P Require Import Log.
From S2P Require Import Fs.
From S2P Require Import FsSpec.
From S2P Require Import FileSpec.

Local Open Scope Z_scope.

Definition MAXBYTES : nat := MAXFILE * BSIZE.

Definition byte_at (s : fstate) (addrs : list Z) (o : nat) : Z :=
  blk s (slot s addrs (o / BSIZE)%nat) !!! (o mod BSIZE)%nat.

(** The bytes of a file, and of a range of it. *)
Definition range (s : fstate) (addrs : list Z) (off n : nat) : list Z := byte_at s addrs <$> seq off n.

(** Every block of the first [size] bytes exists. *)
Definition covers (s : fstate) (addrs : list Z) (size : nat) : Prop :=
  ∀ n, (n < MAXFILE)%nat → (n * BSIZE < size)%nat → slot s addrs n ≠ 0.

Lemma range_length s addrs off n : length (range s addrs off n) = n.
Proof. unfold range. by rewrite length_fmap, length_seq. Qed.

Lemma range_app s addrs off n m : range s addrs off (n + m) = range s addrs off n ++ range s addrs (off + n) m.
Proof. unfold range. by rewrite seq_app, fmap_app. Qed.

Lemma range_lookup s addrs off n j : (j < n)%nat → range s addrs off n !! j = Some (byte_at s addrs (off + j)).
Proof. intros. unfold range. rewrite list_lookup_fmap, lookup_seq_lt by done. done. Qed.

(** *** Offsets *)

Lemma same_block off j m :
  (j < m)%nat → (off mod BSIZE + m ≤ BSIZE)%nat →
  ((off + j) / BSIZE = off / BSIZE)%nat ∧ ((off + j) mod BSIZE = off mod BSIZE + j)%nat.
Proof.
  intros Hj Hm. pose proof (Nat.div_mod_eq off BSIZE) as Hd.
  assert (off + j = BSIZE * (off / BSIZE) + (off mod BSIZE + j))%nat as He by lia.
  split; symmetry; [apply (Nat.div_unique _ _ _ (off mod BSIZE + j)); lia|].
  apply (Nat.mod_unique _ _ (off / BSIZE)); lia.
Qed.

Lemma div_BSIZE off : Z.of_nat off / Z.of_nat BSIZE = Z.of_nat (off / BSIZE).
Proof. symmetry. apply Nat2Z.inj_div. Qed.
Lemma mod_BSIZE off : Z.of_nat off mod Z.of_nat BSIZE = Z.of_nat (off mod BSIZE).
Proof. symmetry. apply Nat2Z.inj_mod. Qed.

Lemma block_range off : (off < MAXBYTES)%nat → (off / BSIZE < MAXFILE)%nat.
Proof. intros. apply Nat.Div0.div_lt_upper_bound. unfold MAXBYTES in *. lia. Qed.

(** [m], the bytes of one iteration, when [r] bytes are left. *)
Definition chunk (off r : nat) : nat := Nat.min r (BSIZE - off mod BSIZE).

Lemma chunk_Z off n tot :
  (tot ≤ n)%nat →
  Z.min (Z.of_nat n - Z.of_nat tot) (Z.of_nat BSIZE - Z.of_nat off mod Z.of_nat BSIZE) =
  Z.of_nat (chunk off (n - tot)).
Proof.
  intros. rewrite mod_BSIZE. unfold chunk. pose proof (Nat.mod_upper_bound off BSIZE). unfold BSIZE in *. lia.
Qed.

Lemma chunk_bounds off r :
  (0 < r)%nat → (0 < chunk off r ≤ r)%nat ∧ (off mod BSIZE + chunk off r ≤ BSIZE)%nat.
Proof. intros. unfold chunk. pose proof (Nat.mod_upper_bound off BSIZE). unfold BSIZE in *. lia. Qed.

(** The iterations left are enough for the bytes left. *)
Definition enough (fuel off r : nat) : Prop := (0 < r → off mod BSIZE + r ≤ BSIZE * fuel)%nat.

Lemma enough_next fuel off r :
  enough (S fuel) off r → enough fuel (off + chunk off r) (r - chunk off r).
Proof.
  unfold enough, chunk. intros He Hr. pose proof (Nat.mod_upper_bound off BSIZE).
  destruct (decide (r ≤ BSIZE - off mod BSIZE)%nat) as [Hle|Hgt]; [lia|].
  rewrite Nat.min_r by lia. replace (off + (BSIZE - off mod BSIZE))%nat with ((off / BSIZE + 1) * BSIZE)%nat.
  - rewrite Nat.Div0.mod_mul. unfold BSIZE in *. lia.
  - pose proof (Nat.div_mod_eq off BSIZE). unfold BSIZE in *. lia.
Qed.

Lemma blocks_touched_enough off n : enough (blocks_touched (Z.of_nat n)) off n.
Proof.
  unfold enough, blocks_touched. intros _. rewrite div_BSIZE.
  pose proof (Nat.mod_upper_bound off BSIZE). pose proof (Nat.div_mod_eq n BSIZE).
  pose proof (Nat.mod_upper_bound n BSIZE). replace (Z.to_nat (Z.of_nat (n / BSIZE) + 2)) with (n / BSIZE + 2)%nat by lia.
  unfold BSIZE in *. lia.
Qed.

(** ** Reading *)

Section rw.
Context (sb : superblock) (ds : Z).
Notation bm := (sb_bmapstart sb).
Notation base := (fs_base sb ds).
Notation is_data := (is_data sb ds).
Notation iwf := (iwf sb ds).
Notation iframe := (iframe sb ds).
Notation bmapped := (bmapped sb ds).
Implicit Types (s : fstate) (addrs : list Z) (b : Z).

Lemma slot_range s addrs n :
  base s → iwf s addrs → (n < MAXFILE)%nat → slot s addrs n ≠ 0 → 0 ≤ slot s addrs n < FSSIZE.
Proof.
  intros Hs Hw Hn H0. destruct (iw_data _ _ _ _ Hw n) as [Hd _]; [lia|done|].
  by destruct (data_nonzero sb ds s _ Hs Hd) as (_ & _ & ? & _).
Qed.

Lemma range_chunk s addrs off m :
  blocks_ok s → (off mod BSIZE + m ≤ BSIZE)%nat →
  slice (off mod BSIZE) m (blk s (slot s addrs (off / BSIZE))) = range s addrs off m.
Proof.
  intros Hs Hm. apply list_eq. intros j. destruct (decide (j < m)%nat) as [Hj|Hj].
  - rewrite slice_lookup, range_lookup by done. destruct (same_block off j m Hj Hm) as [Hq Hr].
    unfold byte_at. rewrite Hq, Hr. apply list_lookup_lookup_total_lt. rewrite (proj1 (Hs _)). lia.
  - rewrite !lookup_ge_None_2; [done|rewrite range_length; lia|].
    rewrite slice_length; [lia|]. by rewrite (proj1 (Hs _)).
Qed.

Lemma readi_loop_spec fuel s ip i off n tot dst :
  base s → f_icache s !! ip = Some i → iwf s (i_addrs i) → (tot ≤ n)%nat →
  (off + (n - tot) ≤ MAXBYTES)%nat → covers s (i_addrs i) (off + (n - tot)) →
  enough fuel off (n - tot) →
  readi_loop fuel ip (Z.of_nat off) (Z.of_nat n) (Z.of_nat tot) dst s =
  Ok (dst ++ range s (i_addrs i) off (n - tot), s).
Proof.
  intros Hs Hi Hw. revert off tot dst. induction fuel as [|fuel IH]; intros off tot dst Htot Hmax Hcov He.
  - assert (n - tot = 0)%nat as Hz by (unfold enough in He; lia). cbn. rewrite decide_False by lia.
    rewrite Hz. cbn. by rewrite app_nil_r.
  - cbn [readi_loop]. case_decide as Hlt; [|assert (n - tot = 0)%nat as -> by lia; by rewrite app_nil_r].
    set (r := (n - tot)%nat) in *. assert (0 < r)%nat as Hr by lia.
    destruct (chunk_bounds off r Hr) as [Hc1 Hc2]. rewrite div_BSIZE.
    assert (off / BSIZE < MAXFILE)%nat as Hq by (apply block_range; lia).
    assert (slot s (i_addrs i) (off / BSIZE) ≠ 0) as Hne.
    { apply Hcov; [done|]. pose proof (Nat.Div0.mul_div_le off BSIZE). lia. }
    rewrite (bmap_present sb ds s ip i) by done.
    rewrite bind_ret. rewrite rd_Ok by (by apply slot_range). rewrite bind_ret. rewrite chunk_Z by lia. fold r.
    rewrite mod_BSIZE, Nat2Z.id. rewrite bload_Ok by (rewrite (proj1 (fb_blocks _ _ _ Hs _)); done).
    rewrite bind_ret. rewrite range_chunk by (done || apply Hs).
    rewrite u32_small by (unfold MAXBYTES, MAXFILE, BSIZE in *; lia).
    rewrite <-!Nat2Z.inj_add. rewrite IH.
    + rewrite <-app_assoc. do 3 f_equal. replace (n - (tot + chunk off r))%nat with (r - chunk off r)%nat by lia.
      rewrite <-range_app. f_equal. lia.
    + lia.
    + lia.
    + replace (off + chunk off r + (n - (tot + chunk off r)))%nat with (off + r)%nat by lia. done.
    + replace (n - (tot + chunk off r))%nat with (r - chunk off r)%nat by lia. by apply enough_next.
Qed.

(** ** Writing *)

(** The state and [ip->addrs] after [data] has been written at [off], with
    [k] blocks mapped on the way. *)
Record wrote s s' addrs addrs' (off : nat) (data : list Z) (k : nat) : Prop := {
  wr_wf : iwf s' addrs';
  wr_frame : iframe s s' addrs addrs';
  wr_in : ∀ j x, data !! j = Some x → byte_at s' addrs' (off + j) = x;
  wr_out : ∀ o, (o < MAXBYTES)%nat → ¬ (off ≤ o < off + length data)%nat →
    slot s addrs (o / BSIZE) ≠ 0 → byte_at s' addrs' o = byte_at s addrs o;
  wr_kept : ∀ m, (m ≤ MAXFILE)%nat → slot s addrs m ≠ 0 → slot s' addrs' m = slot s addrs m;
  wr_new : ∀ o, (off ≤ o < off + length data)%nat → slot s' addrs' (o / BSIZE) ≠ 0;
  wr_free : (nfree s + ind_need s' addrs' ≤ nfree s' + k + ind_need s addrs)%nat;
  wr_logged : ∀ x, x ∈ f_logged s' → x ∈ f_logged s ∨ x = bm ∨ (x = slot s' addrs' MAXFILE ∧ x ≠ 0) ∨
    ∃ o, (off ≤ o < off + length data)%nat ∧ x = slot s' addrs' (o / BSIZE)
}.

(** Writing into a block the file owns. *)
Lemma lw_owned s s' addrs n d :
  base s → iwf s addrs → (n < MAXFILE)%nat → slot s addrs n ≠ 0 → wf_block d →
  s' = lw (slot s addrs n) d s →
  (∀ m, slot s' addrs m = slot s addrs m) ∧ iwf s' addrs ∧ iframe s s' addrs addrs ∧
  (∀ m, (m < MAXFILE)%nat → m ≠ n → slot s addrs m ≠ 0 → blk s' (slot s addrs m) = blk s (slot s addrs m)) ∧
  nfree s' = nfree s.
Proof.
  intros Hs Hw Hn H0 Hd ->. set (a := slot s addrs n) in *.
  destruct (iw_data _ _ _ _ Hw n) as [Had Habit]; [lia|done|]. fold a in Had, Habit.
  destruct (data_nonzero sb ds s a Hs Had) as (_ & Hbm & _ & Har). pose proof Hs as [Hly Hsb Hbk Hmt].
  assert (∀ m, (m ≤ MAXFILE)%nat → m ≠ n → slot s addrs m ≠ 0 → slot s addrs m ≠ a) as Hinj.
  { intros m Hm Hmn Hm0 Heq. apply Hmn. apply (iw_inj _ _ _ _ Hw); [done|lia|done|done]. }
  assert (∀ m, slot (lw a d s) addrs m = slot s addrs m) as Hslot.
  { intros m. apply slot_ext. intros Hi. apply blk_lw_ne. rewrite <-(slot_indirect s).
    apply Hinj; [lia|lia|done]. }
  assert (∀ x, 0 ≤ x < sb_size sb → bit (lw a d s) x = bit s x) as Hbit.
  { intros x Hx. by apply (bit_lw_ne sb ds). }
  assert (∀ x, owns (lw a d s) addrs x ↔ owns s addrs x) as Hown.
  { intros x. unfold owns. by setoid_rewrite Hslot. }
  assert (∀ x, is_data x → bit (lw a d s) x = bit s x) as Hbit'.
  { intros x Hx. apply Hbit. by destruct (data_nonzero sb ds s x Hs Hx) as (_ & _ & _ & ?). }
  split_and!; [done|..].
  - destruct Hw as [Hl Hda Hij]. split; [done|..].
    + intros m Hm. rewrite Hslot. intros Hm0. destruct (Hda m Hm Hm0). split; [done|]. by rewrite Hbit'.
    + intros m1 m2 Hm1 Hm2. rewrite !Hslot. auto.
  - destruct (iframe_refl sb ds s addrs Hs Hw) as [_ Hb1 _ _ _]. split.
    + by apply base_lw_data.
    + intros x Hx. rewrite Hbit', Hown by done. by apply Hb1.
    + intros x Hx Hbx Hno. by rewrite Hown.
    + intros x Hx Hbx Hno. apply blk_lw_ne. intros ->. apply Hno. apply owns_slot; [lia|done].
    + intros x Hx Hne. apply blk_lw_ne. unfold FsSpec.is_data in Had. lia.
  - intros m Hm Hmn Hm0. apply blk_lw_ne. apply Hinj; [lia|done|done].
  - apply nfree_ext; [done|]. rewrite Hsb. done.
Qed.

Lemma wrote_nil s addrs off : base s → iwf s addrs → wrote s s addrs addrs off [] 0.
Proof.
  intros Hs Hw. split; try done; [by apply iframe_refl|cbn; lia|lia|auto].
Qed.

Lemma wrote_trans s1 s2 s3 a1 a2 a3 off d1 d2 k1 k2 :
  (off + length d1 + length d2 ≤ MAXBYTES)%nat →
  wrote s1 s2 a1 a2 off d1 k1 → wrote s2 s3 a2 a3 (off + length d1) d2 k2 →
  wrote s1 s3 a1 a3 off (d1 ++ d2) (k1 + k2).
Proof.
  intros Hmax [? Hf1 Hi1 Ho1 Hk1 Hn1 Hfr1 Hl1] [? Hf2 Hi2 Ho2 Hk2 Hn2 Hfr2 Hl2].
  assert (∀ o, (o < MAXBYTES)%nat → (o / BSIZE < MAXFILE)%nat) as Hq by (intros; by apply block_range).
  split; try done.
  - by eapply iframe_trans.
  - intros j x Hx. apply lookup_app_Some in Hx as [Hx|[Hlen Hx]].
    + pose proof (lookup_lt_Some _ _ _ Hx). rewrite Ho2; [by apply Hi1|lia|lia|apply Hn1; lia].
    + rewrite <-(Hi2 _ _ Hx). f_equal. lia.
  - rewrite length_app. intros o Ho Hr Hs0. rewrite Ho2; [apply Ho1; [done|lia|done]|done|lia|].
    rewrite Hk1; [done|by apply Nat.lt_le_incl, Hq|done].
  - intros m Hm Hm0. rewrite Hk2; [by apply Hk1|done|by rewrite Hk1].
  - rewrite length_app. intros o Ho. destruct (decide (o < off + length d1)%nat).
    + rewrite Hk2; [apply Hn1; lia|apply Nat.lt_le_incl, Hq; lia|apply Hn1; lia].
    + apply Hn2. lia.
  - lia.
  - rewrite length_app. intros x [Hx|[?|[?|(o & Ho & ->)]]]%Hl2; [|by auto|by auto|].
    + apply Hl1 in Hx as [?|[?|[[-> Hx]|(o & Ho & ->)]]]; [by auto|by auto|..].
      * right; right; left. split; [|done]. by rewrite Hk2.
      * do 3 right. exists o. split; [lia|]. rewrite Hk2; [done|apply Nat.lt_le_incl, Hq; lia|apply Hn1; lia].
    + do 3 right. exists o. split; [lia|done].
Qed.

(** One iteration of the loop of [writei]. *)
Lemma wrote_chunk s s1 addrs addrs' off d1 a :
  base s → iwf s addrs → (0 < length d1)%nat → (off mod BSIZE + length d1 ≤ BSIZE)%nat → (off < MAXBYTES)%nat →
  Forall byte_range d1 → bmapped s s1 addrs addrs' (off / BSIZE) a →
  let s2 := lw a (list_inserts (off mod BSIZE) d1 (blk s1 a)) s1 in
  wrote s s2 addrs addrs' off d1 1.
Proof.
  intros Hs Hw Hl0 Hlen Hoff Hby [Hw1 Hf1 [Ha Ha0] Hoth Hblk Hnew Hfr Hkp Hid Hlg] s2.
  set (q := (off / BSIZE)%nat) in *. assert (q < MAXFILE)%nat as Hq by (by apply block_range).
  pose proof (if_base _ _ _ _ _ _ Hf1) as Hb1.
  assert (wf_block (list_inserts (off mod BSIZE) d1 (blk s1 a))) as Hwf.
  { apply wf_block_inserts; [apply Hb1|done]. }
  destruct (lw_owned s1 s2 addrs' q (list_inserts (off mod BSIZE) d1 (blk s1 a)))
    as (Hslot & Hw2 & Hf2 & Hsame & Hfree); [done|done|done|by rewrite Ha|done|by rewrite Ha|].
  assert (∀ j, (j < length d1)%nat → (off + j) / BSIZE = q ∧ (off + j) mod BSIZE = off mod BSIZE + j)%nat as Hblkj.
  { intros j Hj. by apply (same_block off j (length d1)). }
  assert (length (blk s1 a) = BSIZE) as Hla by apply Hb1.
  split.
  - done.
  - by eapply iframe_trans.
  - intros j x Hx. pose proof (lookup_lt_Some _ _ _ Hx) as Hj. destruct (Hblkj j Hj) as [H1 H2].
    unfold byte_at. rewrite H1, H2, Hslot, Ha. unfold s2. rewrite blk_lw_eq.
    apply list_lookup_total_correct. rewrite list_lookup_inserts by lia. by replace (off mod BSIZE + j - off mod BSIZE)%nat with j by lia.
  - intros o Ho Hr H0. assert (o / BSIZE < MAXFILE)%nat as Hqo by (by apply block_range).
    unfold byte_at. rewrite Hslot. destruct (decide ((o / BSIZE)%nat = q)) as [Heq|Hne].
    + rewrite Heq in H0 |- *. rewrite Ha. unfold s2. rewrite blk_lw_eq. rewrite (Hkp H0), Hblk by done.
      rewrite !list_lookup_total_alt. f_equal. pose proof (Nat.div_mod_eq o BSIZE). pose proof (Nat.div_mod_eq off BSIZE).
      destruct (decide (o < off)%nat); [apply list_lookup_inserts_lt|apply list_lookup_inserts_ge]; unfold q in *; lia.
    + rewrite Hoth by done. rewrite <-(Hblk (o / BSIZE)%nat) by done.
      rewrite <-(Hoth (o / BSIZE)%nat) by done. by rewrite Hsame by (done || by rewrite Hoth).
  - intros m Hm Hm0. rewrite Hslot. destruct (decide (m = MAXFILE)) as [->|]; [by apply Hid|].
    destruct (decide (m = q)) as [->|]; [by rewrite Ha, Hkp|]. apply Hoth; [lia|done].
  - intros o Ho. rewrite Hslot. destruct (Hblkj (o - off)%nat) as [H1 _]; [lia|].
    replace (off + (o - off))%nat with o in H1 by lia. by rewrite H1, Ha.
  - rewrite Hfree. unfold ind_need in *. rewrite Hslot. lia.
  - intros x [Hx| ->]%logged_lw.
    + apply Hlg in Hx as [?|[?|[->|[-> ?]]]]; [by auto|by auto|..]; rewrite !Hslot; [|by auto].
      do 3 right. exists off. split; [lia|]. by rewrite Hslot.
    + do 3 right. exists off. split; [lia|]. by rewrite Hslot.
Qed.

Lemma icache_addrs s s' ip i addrs' :
  f_icache s !! ip = Some i → f_icache s' = alter (set_addrs addrs') ip (f_icache s) →
  f_icache s' !! ip = Some (set_addrs addrs' i).
Proof. intros Hi ->. by rewrite list_lookup_alter_eq, Hi. Qed.

Lemma writei_loop_spec fuel s ip i src off n tot :
  base s → f_icache s !! ip = Some i → iwf s (i_addrs i) →
  Forall byte_range src → (tot ≤ n ≤ length src)%nat →
  (off + (n - tot) ≤ MAXBYTES)%nat → enough fuel off (n - tot) →
  (fuel + ind_need s (i_addrs i) ≤ nfree s)%nat →
  ∃ s' addrs' k, writei_loop fuel ip src (Z.of_nat off) (Z.of_nat n) (Z.of_nat tot) s =
      Ok (Z.of_nat (off + (n - tot)), s') ∧
    wrote s s' (i_addrs i) addrs' off (slice tot (n - tot) src) k ∧ (k ≤ fuel)%nat ∧
    f_icache s' = alter (set_addrs addrs') ip (f_icache s) ∧
    (covers s (i_addrs i) (off + (n - tot)) → addrs' = i_addrs i).
Proof.
  intros Hs Hi Hw Hsrc. revert s i off tot Hs Hi Hw.
  assert (∀ s i off tot, base s → f_icache s !! ip = Some i → iwf s (i_addrs i) → (n - tot = 0)%nat →
    ∃ s' addrs' k, Ok (Z.of_nat off, s) = Ok (Z.of_nat (off + (n - tot)), s') ∧
      wrote s s' (i_addrs i) addrs' off (slice tot (n - tot) src) k ∧ (k ≤ 0)%nat ∧
      f_icache s' = alter (set_addrs addrs') ip (f_icache s) ∧
      (covers s (i_addrs i) (off + (n - tot)) → addrs' = i_addrs i)) as Hend.
  { intros s i off tot Hs Hi Hw ->. exists s, (i_addrs i), 0%nat. rewrite Nat.add_0_r.
    split_and!; [done|by apply wrote_nil|done| |done]. symmetry. apply list_alter_id_at. intros x Hx.
    rewrite Hi in Hx. injection Hx as <-. by destruct i. }
  induction fuel as [|fuel IH]; intros s i off tot Hs Hi Hw Htot Hmax He Hfree.
  - cbn. rewrite decide_False by (unfold enough in He; lia). apply Hend; try done. unfold enough in He. lia.
  - cbn [writei_loop]. case_decide as Hlt.
    2: { destruct (Hend s i off tot) as (s' & addrs' & k & ? & ? & ? & ? & ?); [done..|lia|].
         exists s', addrs', k. split_and!; try done. lia. }
    set (r := (n - tot)%nat) in *. assert (0 < r)%nat as Hr by lia.
    destruct (chunk_bounds off r Hr) as [Hc1 Hc2]. set (m := chunk off r) in *. rewrite div_BSIZE.
    assert (off / BSIZE < MAXFILE)%nat as Hq by (apply block_range; lia).
    destruct (bmap_spec sb ds s ip i (off / BSIZE)) as (a & s1 & addrs1 & -> & Hbd & Hic & Hpres); [done..|lia|].
    rewrite bind_ret. pose proof (if_base _ _ _ _ _ _ (bd_frame _ _ _ _ _ _ _ _ Hbd)) as Hb1.
    destruct (bd_slot _ _ _ _ _ _ _ _ Hbd) as [Ha Ha0].
    assert (0 ≤ a < FSSIZE) as Har by (rewrite <-Ha; apply slot_range; [done|apply Hbd|done|by rewrite Ha]).
    rewrite rd_Ok by done. rewrite bind_ret. rewrite chunk_Z by lia. fold r m.
    rewrite mod_BSIZE, Nat2Z.id. rewrite bload_Ok by lia. rewrite bind_ret.
    rewrite bstore_Ok by (rewrite slice_length by lia; by rewrite (proj1 (fb_blocks _ _ _ Hb1 _))). rewrite bind_ret.
    rewrite u32_small by (unfold MAXBYTES, MAXFILE, BSIZE in *; lia). rewrite <-!Nat2Z.inj_add.
    pose proof (wrote_chunk s s1 (i_addrs i) addrs1 off (slice tot m src) a) as Hch. cbv zeta in Hch.
    rewrite slice_length in Hch by lia.
    specialize (Hch Hs Hw ltac:(lia) Hc2 ltac:(lia)).
    specialize (Hch (Forall_slice byte_range tot m src Hsrc) Hbd).
    set (s2 := lw a _ s1) in *.
    assert (f_icache s2 !! ip = Some (set_addrs addrs1 i)) as Hi2.
    { by apply (icache_addrs s). }
    destruct (IH s2 (set_addrs addrs1 i) (off + m)%nat (tot + m)%nat) as (s3 & addrs3 & k & Hl & Hwr & Hk & Hic3 & Hcov3).
    + apply (if_base _ _ _ _ _ _ (wr_frame _ _ _ _ _ _ _ Hch)).
    + done.
    + apply (wr_wf _ _ _ _ _ _ _ Hch).
    + lia.
    + lia.
    + replace (n - (tot + m))%nat with (r - m)%nat by lia. by apply enough_next.
    + change (i_addrs (set_addrs addrs1 i)) with addrs1. pose proof (wr_free _ _ _ _ _ _ _ Hch). lia.
    + exists s3, addrs3, (1 + k)%nat. replace (n - (tot + m))%nat with (r - m)%nat in * by lia.
      split_and!; [| |lia|..].
      * rewrite Hl. do 2 f_equal. lia.
      * replace r with (m + (r - m))%nat at 1 by lia. rewrite slice_split.
        eapply wrote_trans; [|exact Hch|]; rewrite !slice_length by lia; [lia|]. exact Hwr.
      * rewrite Hic3. change (f_icache s2) with (f_icache s1). rewrite Hic.
        rewrite list_alter_alter_eq. by apply list_alter_ext.
      * intros Hcov. destruct Hpres as [_ Ha1].
        { apply Hcov; [done|]. pose proof (Nat.Div0.mul_div_le off BSIZE). lia. }
        rewrite Hcov3; [done|]. intros q' Hq' Hlt'. change (i_addrs (set_addrs addrs1 i)) with addrs1.
        assert (slot s (i_addrs i) q' ≠ 0) as Hne by (apply Hcov; [done|lia]).
        rewrite (wr_kept _ _ _ _ _ _ _ Hch) by (done || lia). done.
Qed.
End rw.
