(* ===== verification/InodeSpec.v ===== *)
(** * Inodes on disk and in the cache

    The 64 bytes of a [struct dinode], encoded by [iupdate] and decoded by
    [ilock]; [dino s inum] is inode [inum] as the disk has it. *)

From stdpp Require Import gmap.
From S2P Require Import Prelude.
From S2P Require Import Bytes.
From S2P Require Import CString.
From S2P Require Import Log.
From S2P Require Import Fs.
From S2P Require Import FsSpec.

Local Open Scope Z_scope.

(** ** Encoding *)

Definition encode (di : dinode) : list Z :=
  le_bytes 2 (u16 (di_type di)) ++ le_bytes 2 (u16 (di_major di)) ++ le_bytes 2 (u16 (di_minor di)) ++
  le_bytes 2 (u16 (di_nlink di)) ++ le_bytes 4 (di_size di) ++ concat (le_bytes 4 <$> di_addrs di).

Definition word_at (l : list Z) (off w : nat) : Z := le_val (slice off w l).

Definition decode (l : list Z) : dinode :=
  mkdinode (i16 (word_at l 0 2)) (i16 (word_at l 2 2)) (i16 (word_at l 4 2)) (i16 (word_at l 6 2))
    (word_at l 8 4) ((λ k, word_at l (12 + 4 * k) 4) <$> seq 0 (S NDIRECT)).

Definition short (z : Z) : Prop := - 2 ^ 15 ≤ z < 2 ^ 15.
Definition uint (z : Z) : Prop := 0 ≤ z < 2 ^ 32.

Record wf_dinode (di : dinode) : Prop := {
  wd_type : short (di_type di);
  wd_major : short (di_major di);
  wd_minor : short (di_minor di);
  wd_nlink : short (di_nlink di);
  wd_size : uint (di_size di);
  wd_len : length (di_addrs di) = S NDIRECT;
  wd_addrs : Forall uint (di_addrs di)
}.

Lemma i16_u16 z : short z → i16 (u16 z) = z.
Proof.
  intros Hz. unfold short in Hz. unfold i16, u16. rewrite Zplus_mod_idemp_l. rewrite Z.mod_small; lia.
Qed.

Lemma u16_range z : 0 ≤ u16 z < 2 ^ 16.
Proof. apply Z.mod_pos_bound. lia. Qed.

Lemma words_length l : length (concat (le_bytes 4 <$> l)) = (4 * length l)%nat.
Proof. induction l as [|x l IH]; cbn [fmap list_fmap concat length]; [done|]. rewrite length_app, le_bytes_length, IH. lia. Qed.

Lemma encode_length di : wf_dinode di → length (encode di) = 64%nat.
Proof.
  intros Hwf. unfold encode. rewrite !length_app, !le_bytes_length, words_length, (wd_len _ Hwf). done.
Qed.

Lemma encode_bytes di : Forall byte_range (encode di).
Proof.
  unfold encode. rewrite !Forall_app. split_and!; try apply le_bytes_range.
  apply Forall_concat. apply Forall_fmap. apply Forall_true. intros x. apply le_bytes_range.
Qed.

Lemma slice_words l k : (k < length l)%nat → slice (4 * k) 4 (concat (le_bytes 4 <$> l)) = le_bytes 4 (l !!! k).
Proof.
  revert k. induction l as [|x l IH]; intros k Hk; cbn [length] in Hk; [lia|].
  cbn [fmap list_fmap concat]. destruct k as [|k].
  - rewrite slice_app_l by (rewrite le_bytes_length; lia). done.
  - rewrite slice_app_r by (rewrite le_bytes_length; lia). rewrite le_bytes_length.
    replace (4 * S k - 4)%nat with (4 * k)%nat by lia. apply IH. lia.
Qed.

Lemma decode_encode di : wf_dinode di → decode (encode di) = di.
Proof.
  intros Hwf. pose proof Hwf as [Ht Hma Hmi Hn Hs Hl Ha]. unfold decode, word_at, encode.
  repeat first [rewrite slice_app_l by (rewrite ?length_app, ?le_bytes_length; lia)
               |rewrite slice_app_r by (rewrite ?length_app, ?le_bytes_length; lia)].
  rewrite !le_bytes_length. cbn [Nat.sub].
  assert (∀ w v, slice 0 w (le_bytes w v) = le_bytes w v) as Hall.
  { intros w v. rewrite <-(slice_all (le_bytes w v)) at 2. by rewrite le_bytes_length. }
  rewrite !Hall. rewrite !le_val_bytes by (apply u16_range || exact Hs). rewrite !i16_u16 by done.
  destruct di as [ty ma mi nl sz ad]. cbn [di_type di_major di_minor di_nlink di_size di_addrs] in *. f_equal.
  apply list_eq. intros k. destruct (decide (k < S NDIRECT)%nat) as [Hk|Hk].
  - rewrite list_lookup_fmap, lookup_seq_lt by done. cbn [fmap option_fmap option_map].
    rewrite !slice_app_r by (rewrite ?le_bytes_length; lia). rewrite !le_bytes_length.
    replace (0 + k)%nat with k by lia. replace (12 + 4 * k - 2 - 2 - 2 - 2 - 4)%nat with (4 * k)%nat by lia.
    rewrite slice_words by lia. rewrite list_lookup_lookup_total_lt by lia. f_equal. apply le_val_bytes.
    apply (Forall_lookup_1 _ _ k _ Ha). apply list_lookup_lookup_total_lt. lia.
  - rewrite !lookup_ge_None_2; [done|lia|]. rewrite length_fmap, length_seq. lia.
Qed.

(** ** Decoding and encoding in place *)

Lemma put_le_next w d o k v :
  (o + length k + w ≤ length d)%nat →
  put_le w (list_inserts o k d) (Z.of_nat o + Z.of_nat (length k)) v = Ok (list_inserts o (k ++ le_bytes w v) d).
Proof.
  intros H. rewrite <-Nat2Z.inj_add. rewrite put_le_Ok by (rewrite length_inserts; lia).
  f_equal. symmetry. apply inserts_app.
Qed.

Definition dino_off (inum : Z) : nat := Z.to_nat (64 * (inum mod IPB)).

Lemma dino_off_Z inum : dinode_off inum = Z.of_nat (dino_off inum).
Proof. unfold dinode_off, dino_off, IPB. pose proof (Z.mod_pos_bound inum 8). lia. Qed.

Lemma dino_off_bound inum : (dino_off inum + 64 ≤ BSIZE)%nat.
Proof. unfold dino_off, IPB, BSIZE. pose proof (Z.mod_pos_bound inum 8). lia. Qed.

Lemma put_dinode_Ok d inum di :
  wf_block d → wf_dinode di →
  put_dinode d inum di = Ok (list_inserts (dino_off inum) (encode di) d).
Proof.
  intros [Hl _] Hwf. pose proof (dino_off_bound inum) as Hb. pose proof (wd_len _ Hwf) as Hlen.
  unfold put_dinode. rewrite dino_off_Z. set (o := dino_off inum) in *. clearbody o.
  rewrite put_le_Ok by (rewrite Hl; lia). rewrite bind_ret.
  set (k1 := le_bytes 2 (u16 (di_type di))).
  change 2 with (Z.of_nat (length k1)) at 1. rewrite put_le_next by (rewrite Hl; cbn; lia). rewrite bind_ret.
  set (k2 := k1 ++ _). change 4 with (Z.of_nat (length k2)) at 1.
  rewrite put_le_next by (rewrite Hl; cbn; lia). rewrite bind_ret.
  set (k3 := k2 ++ _). change 6 with (Z.of_nat (length k3)) at 1.
  rewrite put_le_next by (rewrite Hl; cbn; lia). rewrite bind_ret.
  set (k4 := k3 ++ _). change 8 with (Z.of_nat (length k4)) at 1.
  rewrite put_le_next by (rewrite Hl; cbn; lia). rewrite bind_ret.
  set (k5 := k4 ++ _). change 12 with (Z.of_nat (length k5)) at 1. rewrite <-Nat2Z.inj_add.
  assert (length k5 = 12%nat) as H5 by done.
  rewrite bstore_Ok by (rewrite length_inserts, words_length, Hlen, Hl, H5; unfold NDIRECT; lia).
  rewrite <- inserts_app.
  done.
Qed.

Lemma get_words_Ok d off n :
  (off + 4 * n ≤ length d)%nat →
  get_words d (Z.of_nat off) n = Ok ((λ k, word_at d (off + 4 * k) 4) <$> seq 0 n).
Proof.
  revert off. induction n as [|n IH]; intros off H; [done|]. cbn [get_words].
  rewrite get_le_Ok by lia. rewrite bind_ret. replace (Z.of_nat off + 4) with (Z.of_nat (off + 4)) by lia.
  rewrite IH by lia. rewrite bind_ret. f_equal. change (seq 0 (S n)) with (0%nat :: seq 1 n).
  rewrite fmap_cons. f_equal.
  - unfold word_at. by rewrite Nat.mul_0_r, Nat.add_0_r.
  - rewrite <-(fmap_S_seq 0 n), <-list_fmap_compose. apply list_fmap_ext. intros i x _. cbn. unfold word_at. do 2 f_equal. lia.
Qed.

Lemma word_at_slice d off n o w : (o + w ≤ n)%nat → word_at (slice off n d) o w = word_at d (off + o) w.
Proof.
  intros H. unfold word_at, slice. f_equal. rewrite <-drop_drop.
  rewrite skipn_firstn_comm. rewrite take_take_le by lia. done.
Qed.

Lemma get_dinode_Ok d inum :
  wf_block d → get_dinode d inum = Ok (decode (slice (dino_off inum) 64 d)).
Proof.
  intros [Hl _]. pose proof (dino_off_bound inum) as Hb. unfold get_dinode. rewrite dino_off_Z.
  set (o := dino_off inum) in *. clearbody o.
  change 2 with (Z.of_nat 2). change 4 with (Z.of_nat 4). change 6 with (Z.of_nat 6).
  change 8 with (Z.of_nat 8). change 12 with (Z.of_nat 12). rewrite <-!Nat2Z.inj_add.
  rewrite !get_le_Ok, get_words_Ok by (rewrite Hl; unfold NDIRECT; lia). rewrite !bind_ret.
  unfold decode. rewrite !word_at_slice by lia. rewrite Nat.add_0_r. unfold word_at at 1 2 3 4 5. do 2 f_equal.
  apply list_fmap_ext. intros i k Hk. apply lookup_seq in Hk as [-> Hk]. rewrite word_at_slice by (unfold NDIRECT in Hk; lia).
  unfold word_at. do 2 f_equal. lia.
Qed.

(** ** Inodes on disk *)

Section dinodes.
Context (sb : superblock) (ds : Z).
Notation bm := (sb_bmapstart sb).
Notation base := (fs_base sb ds).
Implicit Types (s : fstate) (inum : Z).

Definition inode_no inum : Prop := 1 ≤ inum < sb_ninodes sb.

Definition dino s inum : dinode := decode (slice (dino_off inum) 64 (blk s (IBLOCK inum sb))).

Lemma IBLOCK_range inum :
  layout sb ds → inode_no inum →
  IBLOCK inum sb = inum / IPB + sb_inodestart sb ∧ 2 ≤ IBLOCK inum sb < bm ∧ IBLOCK inum sb < FSSIZE.
Proof.
  intros Hly Hi. destruct (layout_bounds sb ds Hly) as (? & ? & ?). pose proof (ly_bmap _ _ Hly).
  pose proof (ly_istart _ _ Hly). unfold inode_no, IPB, FSSIZE in *.
  assert (0 ≤ inum / 8 ≤ sb_ninodes sb / 8) by (split; [apply Z.div_pos; lia|apply Z.div_le_mono; lia]).
  assert (IBLOCK inum sb = inum / 8 + sb_inodestart sb) as -> by (unfold IBLOCK, IPB; apply u32_small; lia). lia.
Qed.

Lemma dino_same_block i j :
  layout sb ds → inode_no i → inode_no j → IBLOCK i sb = IBLOCK j sb → i ≠ j →
  (dino_off i + 64 ≤ dino_off j ∨ dino_off j + 64 ≤ dino_off i)%nat.
Proof.
  intros Hly Hi Hj Heq Hne. destruct (IBLOCK_range i Hly Hi) as [Hbi _]. destruct (IBLOCK_range j Hly Hj) as [Hbj _].
  unfold dino_off, IPB in *. pose proof (Z.div_mod i 8). pose proof (Z.div_mod j 8).
  pose proof (Z.mod_pos_bound i 8). pose proof (Z.mod_pos_bound j 8). lia.
Qed.

(** Writing inode [inum] changes this inode and no other. *)
Definition put s inum (di : dinode) : fstate :=
  lw (IBLOCK inum sb) (list_inserts (dino_off inum) (encode di) (blk s (IBLOCK inum sb))) s.

Lemma dino_put_eq s inum di : blocks_ok s → wf_dinode di → dino (put s inum di) inum = di.
Proof.
  intros Hs Hwf. unfold dino, put. rewrite blk_lw_eq. rewrite <-(encode_length di Hwf).
  rewrite slice_inserts_eq; [by apply decode_encode|]. rewrite encode_length, (proj1 (Hs _)) by done. apply dino_off_bound.
Qed.

Lemma dino_put_ne s i j di :
  layout sb ds → inode_no i → inode_no j → i ≠ j → wf_dinode di → dino (put s i di) j = dino s j.
Proof.
  intros Hly Hi Hj Hne Hwf. unfold dino, put. destruct (decide (IBLOCK j sb = IBLOCK i sb)) as [Heq|Hb].
  - rewrite Heq, blk_lw_eq. f_equal. apply slice_inserts_ne. rewrite encode_length by done.
    apply dino_same_block; [done|done|done|done|congruence].
  - by rewrite blk_lw_ne.
Qed.

Lemma put_base s inum di : base s → inode_no inum → wf_dinode di → base (put s inum di).
Proof.
  intros [Hly Hsb Hb Hm] Hi Hwf. destruct (IBLOCK_range inum Hly Hi) as (_ & ? & _).
  split; [done|done|..].
  - apply blocks_ok_lw; [done|]. apply wf_block_inserts; [apply Hb|apply encode_bytes].
  - intros b Hbr. pose proof (ly_size _ _ Hly). unfold put. rewrite (bit_lw_ne sb ds) by (done || lia). by apply Hm.
Qed.

Lemma iupdate_Ok s ip i :
  base s → f_icache s !! ip = Some i → inode_no (i_inum i) → wf_dinode (to_dinode i) →
  iupdate ip s = Ok (put s (i_inum i) (to_dinode i)).
Proof.
  intros Hs Hi Hn Hwf. unfold iupdate. rewrite (proj2 (geti_Ok s ip i) Hi), bind_ret.
  rewrite (fb_sb _ _ _ Hs). destruct (IBLOCK_range _ (fb_layout _ _ _ Hs) Hn) as (_ & ? & ?).
  rewrite rd_Ok by lia. rewrite bind_ret. rewrite put_dinode_Ok by (done || apply Hs). by rewrite bind_ret.
Qed.

(** [ilock] of an unlocked inode in use: it holds the inode as the disk has
    it when it was not valid, and is otherwise unchanged. *)
Lemma ilock_Ok s ip i :
  base s → f_icache s !! ip = Some i → i_locked i = false → 1 ≤ i_ref i → inode_no (i_inum i) →
  (i_valid i = false → di_type (dino s (i_inum i)) ≠ 0) →
  ilock ip s = Ok (updi (λ i, (if i_valid i then i else from_dinode (dino s (i_inum i)) i <| i_valid := true |>)
                              <| i_locked := true |>) ip s).
Proof.
  intros Hs Hi Hl Hr Hn Hty. unfold ilock. rewrite (proj2 (geti_Ok s ip i) Hi), bind_ret, decide_False by lia.
  unfold acquiresleep. rewrite (proj2 (geti_Ok s ip i) Hi), bind_ret, Hl, bind_ret.
  set (s1 := updi _ ip s). assert (f_icache s1 !! ip = Some (i <| i_locked := true |>)) as Hi1.
  { by apply updi_lookup. }
  rewrite (proj2 (geti_Ok _ _ _) Hi1), bind_ret. change (i_valid (i <| i_locked := true |>)) with (i_valid i).
  destruct (i_valid i) eqn:Hv.
  { f_equal. apply updi_ext. intros j Hj. rewrite Hi in Hj. injection Hj as <-. by rewrite Hv. }
  change (i_inum (i <| i_locked := true |>)) with (i_inum i). change (f_sb s1) with (f_sb s).
  rewrite (fb_sb _ _ _ Hs). destruct (IBLOCK_range _ (fb_layout _ _ _ Hs) Hn) as (_ & ? & ?).
  rewrite rd_Ok by lia. rewrite bind_ret. rewrite get_dinode_Ok by apply (fb_blocks _ _ _ Hs). rewrite bind_ret.
  fold (dino s1 (i_inum i)). change (dino s1 (i_inum i)) with (dino s (i_inum i)).
  rewrite decide_False by auto. f_equal. unfold s1. rewrite updi_updi. apply updi_ext.
  intros j Hj. rewrite Hi in Hj. injection Hj as <-. cbn. by rewrite Hv.
Qed.
End dinodes.
