(* ===== verification/TruncSpec.v ===== *)
(** * Truncating a file

    [itrunc] returns exactly the blocks the file owns to the free map. *)

From stdpp Require Import gmap.
From S2P Require Import Prelude.
From S2P Require Import Bytes.
From S2P Require Import Log.
From S2P Require Import Fs.
From S2P Require Import FsSpec.
From S2P Require Import FileSpec.
From S2P Require Import InodeSpec.

Local Open Scope Z_scope.

Section trunc.
Context (sb : superblock) (ds : Z).
Notation bm := (sb_bmapstart sb).
Notation base := (fs_base sb ds).
Notation is_data := (is_data sb ds).
Notation iwf := (iwf sb ds).
Notation iframe := (iframe sb ds).
Implicit Types (s : fstate) (addrs : list Z) (b : Z) (F : Z → Prop).

(** [s'] is [s] with the blocks of [F] returned to the free map. *)
Record unmarked s s' F : Prop := {
  um_base : base s';
  um_blk : ∀ x, x ≠ bm → blk s' x = blk s x;
  um_bit : ∀ x, is_data x → bit s' x = true ↔ bit s x = true ∧ ¬ F x;
  um_logged : ∀ x, x ∈ f_logged s' → x ∈ f_logged s ∨ x = bm
}.

Lemma unmarked_refl s : base s → unmarked s s (λ _, False).
Proof. intros Hs. split; [done|done| |by left]. intros x Hx. naive_solver. Qed.

Lemma unmarked_ext s s' F G : (∀ x, F x ↔ G x) → unmarked s s' F → unmarked s s' G.
Proof. intros HFG [? ? Hb ?]. split; [done|done| |done]. intros x Hx. by rewrite Hb, HFG. Qed.

Lemma unmarked_updi s s' F f ip : unmarked s s' F → unmarked s (updi f ip s') F.
Proof. intros [? ? ? ?]. split; [by apply base_updi|done..]. Qed.

Lemma unmarked_bfree s s' F a :
  base s → unmarked s s' F → is_data a → bit s a = true → ¬ F a →
  ∃ s'', bfree a s' = Ok s'' ∧ unmarked s s'' (λ x, F x ∨ x = a) ∧ f_icache s'' = f_icache s'.
Proof.
  intros Hs [Hb Hk Hbit Hlg] Ha Hba Hna. exists (freed sb s' a). split_and!; [|split|done].
  - apply (bfree_spec sb ds); [done|done|]. by apply Hbit.
  - by apply (freed_base sb ds).
  - intros x Hx. rewrite freed_blk by done. by apply Hk.
  - intros x Hx. destruct (data_nonzero sb ds s x Hs Hx) as (_ & _ & _ & ?). rewrite (freed_bit sb ds) by done.
    rewrite andb_true_iff, negb_true_iff, bool_decide_eq_false, Hbit by done. tauto.
  - intros x [Hx| ->]%logged_lw; [by apply Hlg|by right].
Qed.

(** The blocks named by the first [i] direct addresses. *)
Definition direct_upto addrs (i : nat) (x : Z) : Prop := x ≠ 0 ∧ ∃ k, (k < i)%nat ∧ x = addrs !!! k.

Definition zero_upto (i : nat) addrs : list Z := replicate i 0 ++ drop i addrs.

Lemma zero_upto_insert i addrs :
  (i < length addrs)%nat → <[i := 0]> (zero_upto i addrs) = zero_upto (S i) addrs.
Proof.
  intros Hi. unfold zero_upto. rewrite insert_app_r_alt by (rewrite length_replicate; lia).
  rewrite length_replicate, Nat.sub_diag. destruct (lookup_lt_is_Some_2 addrs i Hi) as [x Hx].
  rewrite (drop_S _ _ _ Hx). cbn [insert list_insert]. by rewrite replicate_S_end, <-app_assoc.
Qed.

Lemma zero_upto_lookup i j addrs : (i ≤ j)%nat → zero_upto i addrs !!! j = addrs !!! j.
Proof.
  intros Hij. unfold zero_upto. rewrite lookup_total_app_r by (rewrite length_replicate; lia).
  rewrite length_replicate, !list_lookup_total_alt, lookup_drop. by replace (i + (j - i))%nat with j by lia.
Qed.

Lemma zero_upto_zero i addrs : (i < length addrs)%nat → addrs !!! i = 0 → zero_upto i addrs = zero_upto (S i) addrs.
Proof.
  intros Hi H0. rewrite <-zero_upto_insert by done. symmetry. apply list_insert_id.
  rewrite <-H0, <-(zero_upto_lookup i i addrs) by done. apply list_lookup_lookup_total_lt.
  unfold zero_upto. rewrite length_app, length_replicate, length_drop. lia.
Qed.

Lemma slot_direct s addrs k : (k < NDIRECT)%nat → slot s addrs k = addrs !!! k.
Proof. intros. unfold slot. by rewrite decide_True. Qed.

Lemma itrunc_direct_spec s n i ip s1 ino :
  base s → iwf s (i_addrs ino) → (i + n = NDIRECT)%nat →
  unmarked s s1 (direct_upto (i_addrs ino) i) →
  f_icache s1 !! ip = Some (set_addrs (zero_upto i (i_addrs ino)) ino) →
  ∃ s2, itrunc_direct n i ip s1 = Ok s2 ∧ unmarked s s2 (direct_upto (i_addrs ino) NDIRECT) ∧
    f_icache s2 = alter (set_addrs (zero_upto NDIRECT (i_addrs ino))) ip (f_icache s1).
Proof.
  intros Hs Hw. set (addrs := i_addrs ino) in *. pose proof (iw_len _ _ _ _ Hw) as Hlen.
  revert i s1. induction n as [|n IH]; intros i s1 Hi Hum Hic.
  { assert (i = NDIRECT) as -> by lia. exists s1. split_and!; [done|done|]. symmetry. apply list_alter_id_at.
    intros x Hx. rewrite Hic in Hx. by injection Hx as <-. }
  cbn [itrunc_direct]. rewrite (proj2 (geti_Ok _ _ _) Hic), bind_ret. cbn [i_addrs set_addrs set_with].
  assert (i < NDIRECT)%nat as Hlt by lia.
  rewrite (aget_nat _ _ (addrs !!! i)).
  2: { cbn. rewrite <-(zero_upto_lookup i i addrs) by done. apply list_lookup_lookup_total_lt.
       unfold zero_upto. rewrite length_app, length_replicate, length_drop. lia. }
  rewrite bind_ret. case_decide as Ha.
  - destruct (iw_data _ _ _ _ Hw i) as [Hd Hbit]; [unfold MAXFILE, NDIRECT in *; lia|by rewrite slot_direct|].
    rewrite slot_direct in Hd, Hbit by done.
    destruct (unmarked_bfree s s1 _ (addrs !!! i) Hs Hum Hd Hbit) as (s2 & -> & Hum2 & Hic2).
    { intros (_ & k & Hk & Heq). assert (i = k) as ->; [|lia].
      apply (iw_inj _ _ _ _ Hw); [unfold MAXFILE, NDIRECT in *; lia..|by rewrite slot_direct|].
      by rewrite !slot_direct by lia. }
    rewrite bind_ret.
    destruct (IH (S i) (updi (λ x, x <| i_addrs ::= <[i := 0]> |>) ip s2)) as (s3 & -> & Hum3 & Hic3).
    + lia.
    + apply unmarked_updi. eapply unmarked_ext; [|exact Hum2]. intros x. unfold direct_upto. split.
      * intros [(? & k & ? & ?)| ->]; [split; [done|]; exists k; split; [lia|done]|].
        split; [done|]. exists i. split; [lia|done].
      * intros (Hx & k & Hk & ->). destruct (decide (k = i)) as [->|]; [by right|left].
        split; [done|]. exists k. split; [lia|done].
    + rewrite (updi_lookup _ _ _ (set_addrs (zero_upto i addrs) ino)) by (by rewrite Hic2). f_equal.
      by rewrite <-(zero_upto_insert i addrs) by lia.
    + exists s3. split_and!; [done|done|]. rewrite Hic3. unfold updi. cbn. rewrite Hic2, list_alter_alter_eq.
      by apply list_alter_ext.
  - assert (addrs !!! i = 0) as Ha0 by (destruct (decide (addrs !!! i = 0)); done).
    destruct (IH (S i) s1) as (s2 & -> & ? & ?); [lia|..].
    + eapply unmarked_ext; [|exact Hum]. intros x. unfold direct_upto. split.
      * intros (Hx & k & Hk & ->). split; [done|]. exists k. split; [lia|done].
      * intros (Hx & k & Hk & ->). split; [done|]. exists k. split; [|done].
        destruct (decide (k = i)) as [->|]; [done|lia].
    + rewrite <-zero_upto_zero; [done|lia|done].
    + by exists s2.
Qed.

(** The blocks freed once the direct ones and [j] indirect ones are. *)
Definition indirect_upto s addrs (j : nat) (x : Z) : Prop :=
  x ≠ 0 ∧ ∃ k, (k < NDIRECT + j)%nat ∧ x = slot s addrs k.

Lemma direct_indirect s addrs x : direct_upto addrs NDIRECT x ↔ indirect_upto s addrs 0 x.
Proof.
  unfold direct_upto, indirect_upto. rewrite Nat.add_0_r. split; intros (Hx & k & Hk & Heq);
    (split; [done|]; exists k; split; [done|]); rewrite slot_direct in * by done; done.
Qed.

Lemma unmarked_indirect s s1 F addrs k :
  base s → iwf s addrs → unmarked s s1 F → addrs !!! NDIRECT ≠ 0 → (k < NINDIRECT)%nat →
  get_indirect s1 (addrs !!! NDIRECT) (Z.of_nat k) = Ok (slot s addrs (NDIRECT + k)).
Proof.
  intros Hs Hw Hum Hind Hk.
  rewrite <-(get_indirect_word sb ds s addrs (NDIRECT + k)) by (done || unfold NDIRECT, MAXFILE, NINDIRECT in *; lia).
  replace (Z.of_nat (NDIRECT + k) - Z.of_nat NDIRECT) with (Z.of_nat k) by lia.
  destruct (iw_data _ _ _ _ Hw MAXFILE) as [Hd _]; [done..|]. rewrite slot_indirect in Hd.
  destruct (data_nonzero sb ds s _ Hs Hd) as (_ & ? & Hr & _). unfold get_indirect. rewrite !rd_Ok by done.
  by rewrite (um_blk _ _ _ Hum) by done.
Qed.

Lemma itrunc_indirect_spec s n j s1 addrs :
  base s → iwf s addrs → addrs !!! NDIRECT ≠ 0 → (j + n = NINDIRECT)%nat →
  unmarked s s1 (indirect_upto s addrs j) →
  ∃ s2, itrunc_indirect n j (addrs !!! NDIRECT) s1 = Ok s2 ∧ unmarked s s2 (indirect_upto s addrs NINDIRECT) ∧
    f_icache s2 = f_icache s1.
Proof.
  intros Hs Hw Hind. revert j s1. induction n as [|n IH]; intros j s1 Hj Hum.
  { assert (j = NINDIRECT) as -> by lia. by exists s1. }
  cbn [itrunc_indirect]. rewrite (unmarked_indirect s s1 _ addrs j) by (done || lia). rewrite bind_ret.
  set (a := slot s addrs (NDIRECT + j)).
  assert (∃ s2, (if decide (a ≠ 0) then bfree a s1 else Ok s1) = Ok s2 ∧
    unmarked s s2 (indirect_upto s addrs (S j)) ∧ f_icache s2 = f_icache s1) as (s2 & -> & Hum2 & Hic2).
  { case_decide as Ha.
    - destruct (iw_data _ _ _ _ Hw (NDIRECT + j)) as [Hd Hbit];
        [unfold MAXFILE, NDIRECT, NINDIRECT in *; lia|done|].
      destruct (unmarked_bfree s s1 _ a Hs Hum Hd Hbit) as (s2 & -> & Hum2 & Hic2).
      { intros (_ & k & Hk & Heq). assert (NDIRECT + j = k)%nat as <-; [|lia].
        apply (iw_inj _ _ _ _ Hw); try done; unfold MAXFILE, NDIRECT, NINDIRECT in *; lia. }
      exists s2. split_and!; [done| |done]. eapply unmarked_ext; [|exact Hum2]. intros x. unfold indirect_upto. split.
      + intros [(? & k & ? & ?)| ->]; (split; [done|]); [exists k|exists (NDIRECT + j)%nat]; (split; [lia|done]).
      + intros (Hx & k & Hk & ->). destruct (decide (k = NDIRECT + j)%nat) as [->|]; [by right|left].
        split; [done|]. exists k. split; [lia|done].
    - assert (a = 0) as Ha0 by (destruct (decide (a = 0)); done).
      exists s1. split_and!; [done| |done]. eapply unmarked_ext; [|exact Hum]. intros x. unfold indirect_upto. split.
      + intros (Hx & k & Hk & ->). split; [done|]. exists k. split; [lia|done].
      + intros (Hx & k & Hk & ->). split; [done|]. exists k. split; [|done].
        destruct (decide (k = NDIRECT + j)%nat) as [->|]; [done|lia]. }
  rewrite bind_ret. destruct (IH (S j) s2) as (s3 & -> & ? & Hic3); [lia|done|].
  exists s3. split_and!; [done|done|]. by rewrite Hic3.
Qed.

Definition zero_addrs : list Z := replicate (S NDIRECT) 0.

Lemma slot_zero s n : (n ≤ MAXFILE)%nat → slot s zero_addrs n = 0.
Proof.
  intros Hn. unfold slot, zero_addrs. repeat case_decide; try done.
  apply lookup_total_replicate_2. lia.
Qed.

Lemma owns_upto s addrs x : iwf s addrs →
  owns s addrs x ↔ indirect_upto s addrs NINDIRECT x ∨ (x = addrs !!! NDIRECT ∧ x ≠ 0).
Proof.
  intros Hw. unfold owns, indirect_upto. split.
  - intros (Hx & n & Hn & <-). destruct (decide (n = MAXFILE)) as [->|Hne]; [by right|left].
    split; [done|]. exists n. split; [unfold MAXFILE, NDIRECT, NINDIRECT in *; lia|done].
  - intros [(Hx & k & Hk & ->)|[-> Hx]]; (split; [done|]).
    + exists k. split; [unfold MAXFILE, NDIRECT, NINDIRECT in *; lia|done].
    + by exists MAXFILE.
Qed.

(** Without an indirect block there are no indirect entries. *)
Lemma indirect_none s addrs x :
  addrs !!! NDIRECT = 0 → indirect_upto s addrs 0 x ↔ indirect_upto s addrs NINDIRECT x.
Proof.
  intros H0. unfold indirect_upto. split; intros (Hx & k & Hk & ->); (split; [done|]); exists k; (split; [|done]).
  - lia.
  - destruct (decide (k < NDIRECT)%nat); [lia|]. exfalso. apply Hx. unfold slot. rewrite decide_False by done.
    case_decide; [done|]. by rewrite decide_True.
Qed.

Definition truncated (i : inode) : inode := i <| i_addrs := zero_addrs |> <| i_size := 0 |>.

(** The state after the blocks of [itrunc] have been freed, before [iupdate]. *)
Lemma itrunc_spec s ip i :
  base s → f_icache s !! ip = Some i → iwf s (i_addrs i) → inode_no sb (i_inum i) → wf_dinode (to_dinode i) →
  ∃ s1, unmarked s s1 (owns s (i_addrs i)) ∧ f_icache s1 = alter truncated ip (f_icache s) ∧
    itrunc ip s = Ok (put sb s1 (i_inum i) (to_dinode (truncated i))).
Proof.
  intros Hs Hi Hw Hn Hwf. set (addrs := i_addrs i) in *. pose proof (iw_len _ _ _ _ Hw) as Hlen.
  unfold itrunc. destruct (itrunc_direct_spec s NDIRECT 0 ip s i) as (s1 & -> & Hum1 & Hic1); try done.
  { eapply unmarked_ext; [|by apply unmarked_refl]. intros x. unfold direct_upto. split; [done|].
    intros (_ & k & Hk & _). lia. }
  { rewrite Hi. by destruct i. }
  rewrite bind_ret. fold addrs in Hum1, Hic1.
  assert (f_icache s1 !! ip = Some (set_addrs (zero_upto NDIRECT addrs) i)) as Hi1.
  { by rewrite Hic1, list_lookup_alter_eq, Hi. }
  rewrite (proj2 (geti_Ok _ _ _) Hi1), bind_ret.
  change (i_addrs (set_addrs (zero_upto NDIRECT addrs) i)) with (zero_upto NDIRECT addrs).
  rewrite (aget_nat _ _ (addrs !!! NDIRECT)).
  2: { rewrite <-(zero_upto_lookup NDIRECT NDIRECT addrs) by done. apply list_lookup_lookup_total_lt.
       unfold zero_upto. rewrite length_app, length_replicate, length_drop. lia. }
  rewrite bind_ret.
  assert (zero_upto NDIRECT addrs = replicate NDIRECT 0 ++ [addrs !!! NDIRECT]) as Hz.
  { unfold zero_upto. rewrite (drop_S _ (addrs !!! NDIRECT)) by (apply list_lookup_lookup_total_lt; lia).
    rewrite drop_ge by lia. done. }
  assert (∃ s2, (if decide (addrs !!! NDIRECT ≠ 0) then
      s2 ← itrunc_indirect NINDIRECT 0 (addrs !!! NDIRECT) s1; s3 ← bfree (addrs !!! NDIRECT) s2;
      Ok (updi (λ x, x <| i_addrs ::= <[NDIRECT := 0]> |>) ip s3) else Ok s1) = Ok s2 ∧
      unmarked s s2 (owns s addrs) ∧ f_icache s2 = alter (set_addrs zero_addrs) ip (f_icache s))
    as (s2 & -> & Hum2 & Hic2).
  { apply (unmarked_ext _ _ _ _ (direct_indirect s addrs)) in Hum1. case_decide as Hind.
    - destruct (itrunc_indirect_spec s NINDIRECT 0 s1 addrs) as (s2 & -> & Hum2 & Hic2); try done. rewrite bind_ret.
      destruct (iw_data _ _ _ _ Hw MAXFILE) as [Hd Hbit]; [done..|]. rewrite slot_indirect in Hd, Hbit.
      destruct (unmarked_bfree s s2 _ (addrs !!! NDIRECT) Hs Hum2 Hd Hbit) as (s3 & -> & Hum3 & Hic3).
      { intros (_ & k & Hk & Heq). assert (MAXFILE = k) as <-; [|unfold MAXFILE, NDIRECT, NINDIRECT in *; lia].
        apply (iw_inj _ _ _ _ Hw); [done|unfold MAXFILE, NDIRECT, NINDIRECT in *; lia|done|done]. }
      rewrite bind_ret. eexists. split; [done|]. split.
      + apply unmarked_updi. eapply unmarked_ext; [|exact Hum3]. intros x. cbn. rewrite owns_upto by done.
        naive_solver.
      + unfold updi. cbn. rewrite Hic3, Hic2, Hic1, Hz, list_alter_alter_eq. by apply list_alter_ext.
    - assert (addrs !!! NDIRECT = 0) as H0 by (destruct (decide (addrs !!! NDIRECT = 0)); done).
      exists s1. split_and!; [done| |].
      + eapply unmarked_ext; [|exact Hum1]. intros x. rewrite owns_upto, <-indirect_none by done. naive_solver.
      + by rewrite Hic1, Hz, H0. }
  rewrite bind_ret. exists (updi (λ x, x <| i_size := 0 |>) ip s2). split_and!.
  - by apply unmarked_updi.
  - unfold updi. cbn. rewrite Hic2, list_alter_alter_eq. by apply list_alter_ext.
  - apply (iupdate_Ok sb ds _ ip (truncated i)).
    + apply base_updi, Hum2.
    + rewrite (updi_lookup _ _ _ (set_addrs zero_addrs i)); [done|]. by rewrite Hic2, list_lookup_alter_eq, Hi.
    + done.
    + destruct Hwf. split; try done. apply Forall_replicate. done.
Qed.
End trunc.
