(* ===== verification/FsInv.v ===== *)
(** * Consistency of the file system

    [disk_inv]: every block in use beyond the metadata belongs to exactly one
    file, and every file has the blocks its size needs.  [cache_inv]: the inode
    cache has one entry per inode and a valid entry is what the disk has.
    [afile] is the abstract file system: a map from inode numbers to files
    with their content as a list of bytes. *)

From stdpp Require Import gmap.
From S2P Require Import Prelude.
From S2P Require Import Bytes.
From S2P Require Import Log.
From S2P Require Import Fs.
From S2P Require Import FsSpec.
From S2P Require Import FileSpec.
From S2P Require Import FileRw.
From S2P Require Import InodeSpec.
From S2P Require Import TruncSpec.

Local Open Scope Z_scope.

(** ** Abstract files *)

Record afile := mkafile {
  af_type : Z; af_major : Z; af_minor : Z; af_nlink : Z; af_data : list Z
}.

Section inv.
Context (sb : superblock) (ds : Z).
Notation bm := (sb_bmapstart sb).
Notation base := (fs_base sb ds).
Notation is_data := (is_data sb ds).
Notation iwf := (iwf sb ds).
Notation iframe := (iframe sb ds).
Notation inode_no := (inode_no sb).
Notation dino := (dino sb).
Notation put := (put sb).
Implicit Types (s : fstate) (addrs : list Z) (b inum : Z).

Definition dsize (di : dinode) : nat := Z.to_nat (di_size di).

(** The file with inode number [inum], if there is one. *)
Definition file s inum : option afile :=
  let di := dino s inum in
  if decide (di_type di = 0) then None
  else Some (mkafile (di_type di) (di_major di) (di_minor di) (di_nlink di)
               (range s (di_addrs di) 0 (dsize di))).

(** The addresses of an inode; a free inode has none. *)
Definition addrs_of s inum : list Z :=
  if decide (di_type (dino s inum) = 0) then zero_addrs else di_addrs (dino s inum).

Record disk_inv s : Prop := {
  di_base : base s;
  di_wf : ∀ inum, inode_no inum → iwf s (addrs_of s inum);
  di_disj : ∀ i j b, inode_no i → inode_no j → i ≠ j → owns s (addrs_of s i) b → ¬ owns s (addrs_of s j) b;
  di_leak : ∀ b, is_data b → bit s b = true → ∃ inum, inode_no inum ∧ owns s (addrs_of s inum) b;
  di_sizes : ∀ inum, inode_no inum → di_type (dino s inum) ≠ 0 →
    (dsize (dino s inum) ≤ MAXBYTES)%nat ∧ covers s (di_addrs (dino s inum)) (dsize (dino s inum))
}.

Lemma iwf_zero s : iwf s zero_addrs.
Proof.
  split; [done|..].
  - intros n Hn Hne. by rewrite slot_zero in Hne.
  - intros n m Hn _ Hne. by rewrite slot_zero in Hne.
Qed.

Lemma owns_zero s b : ¬ owns s zero_addrs b.
Proof. intros (Hb & n & Hn & Heq). by rewrite slot_zero in Heq. Qed.

(** ** Every inode on disk is well formed *)

Lemma i16_short z : short (i16 z).
Proof. unfold short, i16. pose proof (Z.mod_pos_bound (z + 2 ^ 15) (2 ^ 16)). lia. Qed.

Lemma word_at_uint l off : Forall byte_range l → (off + 4 ≤ length l)%nat → uint (word_at l off 4).
Proof.
  intros Hl Hlen. unfold uint, word_at. pose proof (le_val_range (slice off 4 l)) as Hr.
  rewrite slice_length in Hr by done. apply Hr. by apply Forall_slice.
Qed.

Lemma decode_wf l : Forall byte_range l → length l = 64%nat → wf_dinode (decode l).
Proof.
  intros Hl Hlen. split; cbn [decode di_type di_major di_minor di_nlink di_size di_addrs]; try apply i16_short.
  - apply word_at_uint; [done|lia].
  - by rewrite length_fmap, length_seq.
  - apply Forall_fmap, Forall_forall. intros k Hk%elem_of_seq. apply word_at_uint; [done|].
    unfold NDIRECT in Hk. lia.
Qed.

Lemma dino_wf s inum : blocks_ok s → wf_dinode (dino s inum).
Proof.
  intros Hs. apply decode_wf; [apply Forall_slice, Hs|]. apply slice_length.
  rewrite (proj1 (Hs _)). apply dino_off_bound.
Qed.

(** ** Inode blocks and data blocks do not interfere *)

Lemma put_blk s inum di b : b ≠ IBLOCK inum sb → blk (put s inum di) b = blk s b.
Proof. apply blk_lw_ne. Qed.

Lemma put_blk_data s inum di b :
  layout sb ds → inode_no inum → is_data b → blk (put s inum di) b = blk s b.
Proof.
  intros Hly Hi Hb. apply put_blk. destruct (IBLOCK_range sb ds inum Hly Hi) as (_ & ? & _).
  pose proof (layout_bounds sb ds Hly). unfold FsSpec.is_data in Hb. lia.
Qed.

Lemma put_bit s inum di b :
  base s → inode_no inum → 0 ≤ b < sb_size sb → bit (put s inum di) b = bit s b.
Proof.
  intros Hs Hi Hb. destruct (IBLOCK_range sb ds inum (fb_layout _ _ _ Hs) Hi) as (_ & ? & _).
  apply (bit_lw_ne sb ds); [apply Hs|apply Hs|lia|done].
Qed.

(** Slots are the same wherever the indirect block is. *)
Lemma slot_same s s' addrs n :
  iwf s addrs → (∀ b, is_data b → bit s b = true → owns s addrs b → blk s' b = blk s b) →
  slot s' addrs n = slot s addrs n.
Proof.
  intros Hw Hb. apply slot_ext. intros Hne. destruct (iw_data _ _ _ _ Hw MAXFILE) as [? ?]; [done..|].
  apply Hb; [done|done|]. by apply (owns_slot s addrs MAXFILE).
Qed.

(** [s'] has the data blocks and the free map of [s]. *)
Record same_data s s' : Prop := {
  sd_base : base s';
  sd_blk : ∀ b, is_data b → blk s' b = blk s b;
  sd_bit : ∀ b, is_data b → bit s' b = bit s b
}.

Section same_data.
Context (s s' : fstate) (Hsd : same_data s s').

Lemma same_slot addrs n : iwf s addrs → slot s' addrs n = slot s addrs n.
Proof using Hsd. intros Hw. apply slot_same; [done|]. intros b Hb _ _. by apply Hsd. Qed.

Lemma same_owns addrs b : iwf s addrs → owns s' addrs b ↔ owns s addrs b.
Proof using Hsd. intros Hw. unfold owns. by setoid_rewrite (same_slot addrs). Qed.

Lemma same_iwf addrs : iwf s addrs → iwf s' addrs.
Proof using Hsd.
  intros Hw. pose proof Hw as [Hlen Hd Hinj]. split; [done|..].
  - intros n Hn. rewrite same_slot by done. intros Hne. destruct (Hd n Hn Hne) as [? ?]. split; [done|].
    by rewrite (sd_bit _ _ Hsd).
  - intros n m Hn Hm. rewrite !same_slot by done. by apply Hinj.
Qed.

Lemma same_covers addrs n : iwf s addrs → covers s addrs n → covers s' addrs n.
Proof using Hsd. intros Hw Hc m Hm Hlt. rewrite same_slot by done. by apply Hc. Qed.
End same_data.

Lemma put_same s inum di : base s → inode_no inum → wf_dinode di → same_data s (put s inum di).
Proof.
  intros Hs Hi Hdi. split; [by apply put_base|..]; intros b Hb.
  - by apply put_blk_data; [apply Hs|..].
  - apply put_bit; [done|done|]. by destruct (data_nonzero sb ds s b Hs Hb) as (_ & _ & _ & ?).
Qed.

(** A file that another operation leaves alone keeps its bytes. *)
Lemma range_same s s' addrs size :
  iwf s addrs → covers s addrs size → (size ≤ MAXBYTES)%nat →
  (∀ b, is_data b → bit s b = true → owns s addrs b → blk s' b = blk s b) →
  range s' addrs 0 size = range s addrs 0 size.
Proof.
  intros Hw Hc Hsz Hb. apply list_fmap_ext. intros x o Ho. apply lookup_seq in Ho as [-> Ho]. rewrite Nat.add_0_l.
  unfold byte_at. rewrite (slot_same s s') by done. f_equal.
  assert (x < MAXBYTES)%nat by lia. assert (x / BSIZE < MAXFILE)%nat as Hq by (by apply block_range).
  assert (slot s addrs (x / BSIZE) ≠ 0) as Hne.
  { apply Hc; [done|]. pose proof (Nat.Div0.mul_div_le x BSIZE). lia. }
  destruct (iw_data _ _ _ _ Hw (x / BSIZE)) as [? ?]; [lia|done|]. apply Hb; [done|done|]. apply owns_slot; [lia|done].
Qed.

(** ** One inode changes *)

(** [s1] is [s] after an operation on the blocks of file [inum], whose
    addresses are now [addrs']; then [iupdate] stores [di']. *)
Record update s s1 inum addrs' (di' : dinode) : Prop := {
  up_no : inode_no inum;
  up_frame : iframe s s1 (addrs_of s inum) addrs';
  up_wf : iwf s1 addrs';
  up_di : wf_dinode di';
  up_addrs : addrs' = if decide (di_type di' = 0) then zero_addrs else di_addrs di';
  up_size : di_type di' ≠ 0 → (dsize di' ≤ MAXBYTES)%nat ∧ covers s1 addrs' (dsize di')
}.

(** [s'] is [s1] with inode [inum] written. *)
Record written s1 s' inum (di' : dinode) : Prop := {
  wn_data : same_data s1 s';
  wn_self : dino s' inum = di';
  wn_other : ∀ j, inode_no j → j ≠ inum → dino s' j = dino s1 j
}.

Lemma written_put s1 inum di' :
  base s1 → inode_no inum → wf_dinode di' → written s1 (put s1 inum di') inum di'.
Proof.
  intros Hs Hi Hdi. split; [by apply put_same|apply dino_put_eq; [apply Hs|done]|].
  intros j Hj Hne. by apply (dino_put_ne sb ds); [apply Hs|..].
Qed.

Lemma same_data_refl s : base s → same_data s s.
Proof. by split. Qed.

Lemma written_same s1 inum : base s1 → written s1 s1 inum (dino s1 inum).
Proof. intros Hs. split; [by apply same_data_refl|done|done]. Qed.

Section update.
Context (s s1 s' : fstate) (inum : Z) (addrs' : list Z) (di' : dinode).
Hypothesis (Hinv : disk_inv s) (Hup : update s s1 inum addrs' di') (Hwn : written s1 s' inum di').

Lemma update_layout : layout sb ds.
Proof using Hinv. apply (di_base _ Hinv). Qed.

Lemma update_other j : inode_no j → j ≠ inum → dino s' j = dino s j.
Proof using Hinv Hup Hwn.
  intros Hj Hne. rewrite (wn_other _ _ _ _ Hwn) by done. unfold InodeSpec.dino.
  destruct (IBLOCK_range sb ds j update_layout Hj) as (_ & ? & _). pose proof (layout_bounds sb ds update_layout).
  rewrite (if_meta _ _ _ _ _ _ (up_frame _ _ _ _ _ Hup)) by lia. done.
Qed.

Lemma update_addrs j : inode_no j → addrs_of s' j = if decide (j = inum) then addrs' else addrs_of s j.
Proof using Hinv Hup Hwn.
  intros Hj. unfold addrs_of. destruct (decide (j = inum)) as [->|Hji].
  - rewrite (wn_self _ _ _ _ Hwn). by rewrite (up_addrs _ _ _ _ _ Hup).
  - by rewrite update_other.
Qed.

(** The blocks of another file. *)
Lemma update_blk j b :
  inode_no j → j ≠ inum → owns s (addrs_of s j) b → blk s1 b = blk s b ∧ bit s1 b = true ∧ ¬ owns s1 addrs' b.
Proof using Hinv Hup.
  intros Hj Hne Ho. pose proof Hup as [Hi Hf _ _ _ _].
  destruct (owns_data sb ds s _ b (di_wf _ Hinv j Hj) Ho) as [Hd Hb].
  pose proof (di_disj _ Hinv j inum b Hj Hi Hne Ho) as Hno.
  split_and!; [by apply (if_blk _ _ _ _ _ _ Hf)| |by apply (if_disj _ _ _ _ _ _ Hf)].
  apply (if_bits _ _ _ _ _ _ Hf); [done|by left].
Qed.

Lemma update_iwf_other j : inode_no j → j ≠ inum → iwf s1 (addrs_of s j) ∧
  ∀ n, slot s1 (addrs_of s j) n = slot s (addrs_of s j) n.
Proof using Hinv Hup.
  intros Hj Hne. pose proof (di_wf _ Hinv j Hj) as Hw.
  assert (∀ n, slot s1 (addrs_of s j) n = slot s (addrs_of s j) n) as Hsl.
  { intros n. apply slot_same; [done|]. intros b _ _ Ho. by apply (update_blk j). }
  split; [|done]. destruct Hw as [Hlen Hd Hinj]. split; [done|..].
  - intros n Hn. rewrite Hsl. intros Hnz. destruct (Hd n Hn Hnz) as [? ?]. split; [done|].
    apply (update_blk j); [done|done|]. by apply owns_slot.
  - intros n m Hn Hm. rewrite !Hsl. by apply Hinj.
Qed.

Lemma update_owns j b :
  inode_no j → owns s' (addrs_of s' j) b ↔
  if decide (j = inum) then owns s1 addrs' b else owns s (addrs_of s j) b.
Proof using Hinv Hup Hwn.
  intros Hj. pose proof Hup as [Hi _ Hw _ _ _]. rewrite update_addrs by done. destruct (decide (j = inum)) as [->|Hji].
  - by rewrite (same_owns s1) by (done || apply Hwn).
  - destruct (update_iwf_other j) as [Hwj Hsl]; [done..|].
    rewrite (same_owns s1) by (done || apply Hwn). unfold owns. by setoid_rewrite Hsl.
Qed.

Lemma update_file j : inode_no j → j ≠ inum → file s' j = file s j.
Proof using Hinv Hup Hwn.
  intros Hj Hne. unfold file. rewrite update_other by done. cbn zeta. case_decide as Ht; [done|].
  destruct (di_sizes _ Hinv j Hj Ht) as [Hsz Hc].
  assert (addrs_of s j = di_addrs (dino s j)) as Ha by (unfold addrs_of; by rewrite decide_False).
  do 2 f_equal. rewrite <-Ha in Hc |- *. pose proof (di_wf _ Hinv j Hj) as Hw. apply range_same; try done.
  intros b Hb _ Ho. rewrite (sd_blk _ _ (wn_data _ _ _ _ Hwn)) by done. by apply (update_blk j).
Qed.

Lemma update_inv : disk_inv s'.
Proof using Hinv Hup Hwn.
  pose proof Hup as [Hi Hf Hw Hdi Ha Hsz]. pose proof (wn_data _ _ _ _ Hwn) as Hsd. split.
  - apply Hsd.
  - intros j Hj. rewrite update_addrs by done. destruct (decide (j = inum)) as [->|Hji].
    + by apply (same_iwf s1).
    + apply (same_iwf s1); [done|]. by apply update_iwf_other.
  - intros j k b Hj Hk Hne. rewrite !update_owns by done.
    destruct (decide (j = inum)) as [->|Hji], (decide (k = inum)) as [->|Hki]; [done| | |by apply (di_disj _ Hinv)].
    + intros Ho Hok. by destruct (update_blk k b) as (_ & _ & ?).
    + intros Ho Hok. by destruct (update_blk j b) as (_ & _ & ?).
  - intros b Hb. rewrite (sd_bit _ _ Hsd) by done. intros Hbit.
    apply (if_bits _ _ _ _ _ _ Hf) in Hbit as [[Hbit Hno]|Ho]; [|exists inum|done].
    + destruct (di_leak _ Hinv b Hb Hbit) as (j & Hj & Hoj). exists j. split; [done|].
      rewrite update_owns by done. destruct (decide (j = inum)) as [->|]; done.
    + split; [done|]. rewrite update_owns by done. by rewrite decide_True.
  - intros j Hj. destruct (decide (j = inum)) as [->|Hne].
    + rewrite (wn_self _ _ _ _ Hwn). intros Ht. destruct (Hsz Ht) as [? Hc]. split; [done|].
      rewrite decide_False in Ha by done. rewrite Ha in Hc, Hw. by apply (same_covers s1).
    + rewrite update_other by done. intros Ht. destruct (di_sizes _ Hinv j Hj Ht) as [? Hc]. split; [done|].
      destruct (update_iwf_other j) as [Hwj Hsl]; [done..|].
      assert (addrs_of s j = di_addrs (dino s j)) as Haj by (unfold addrs_of; by rewrite decide_False).
      rewrite Haj in *. apply (same_covers s1); [done|done|]. intros m Hm Hlt. rewrite Hsl. by apply Hc.
Qed.

(** The file itself. *)
Lemma update_file_self :
  file s' inum =
  if decide (di_type di' = 0) then None
  else Some (mkafile (di_type di') (di_major di') (di_minor di') (di_nlink di') (range s1 addrs' 0 (dsize di'))).
Proof using Hinv Hup Hwn.
  unfold file. rewrite (wn_self _ _ _ _ Hwn). cbn zeta. pose proof Hup as [_ _ Hw _ Ha Hsz].
  case_decide as Ht; [done|]. rewrite <-Ha. destruct (Hsz Ht) as [? ?]. do 2 f_equal. apply range_same; try done.
  intros b Hb _ _. by apply Hwn.
Qed.
End update.
End inv.
