(* ===== verification/FsOps.v ===== *)
(** * What the inode operations do to the abstract file system

    [readi], [writei], [ilock], [iget], [iput] and [ialloc] against the map
    [file] from inode numbers to files, with [fs_inv] kept by each. *)

From stdpp Require Import gmap.
From S2P Require Import Prelude.
From S2P Require Import Bytes.
From S2P Require Import CString.
From S2P Require Import Log.
From S2P Require Import Fs.
From S2P Require Import FsSpec.
From S2P Require Import FileSpec.
From S2P Require Import FileRw.
From S2P Require Import InodeSpec.
From S2P Require Import TruncSpec.
From S2P Require Import FsInv.

Local Open Scope Z_scope.

(** [data] written over [c] at offset [off], [off <= length c]. *)
Definition overwrite (off : nat) (data c : list Z) : list Z :=
  take off c ++ data ++ drop (off + length data) c.

Definition set_data (d : list Z) (f : afile) : afile :=
  mkafile (af_type f) (af_major f) (af_minor f) (af_nlink f) d.

Lemma overwrite_length off data c :
  (off ≤ length c)%nat → length (overwrite off data c) = Nat.max (length c) (off + length data).
Proof. intros. unfold overwrite. rewrite !length_app, length_take, length_drop. lia. Qed.

Lemma overwrite_lookup off data c j :
  (off ≤ length c)%nat → (j < Nat.max (length c) (off + length data))%nat →
  overwrite off data c !! j =
  if decide (off ≤ j < off + length data)%nat then data !! (j - off)%nat else c !! j.
Proof.
  intros Ho Hj. unfold overwrite. case_decide as Hr.
  - rewrite lookup_app_r by (rewrite length_take; lia). rewrite length_take.
    replace (j - off `min` length c)%nat with (j - off)%nat by lia. rewrite lookup_app_l by lia. done.
  - destruct (decide (j < off)%nat).
    + rewrite lookup_app_l by (rewrite length_take; lia). by rewrite lookup_take_lt.
    + rewrite lookup_app_r by (rewrite length_take; lia). rewrite length_take.
      rewrite lookup_app_r by lia. rewrite lookup_drop. f_equal. lia.
Qed.

Lemma alter_insert_at {A} (f : A → A) (l : list A) i x : alter f i (<[i := x]> l) = <[i := f x]> l.
Proof. revert i. induction l as [|y l IH]; intros [|i]; cbn; [done..|]. f_equal. apply IH. Qed.

Section ops.
Context (sb : superblock) (ds : Z) (devs : list devsw).
Notation bm := (sb_bmapstart sb).
Notation base := (fs_base sb ds).
Notation is_data := (is_data sb ds).
Notation iwf := (iwf sb ds).
Notation iframe := (iframe sb ds).
Notation inode_no := (inode_no sb).
Notation dino := (dino sb).
Notation put := (put sb).
Notation file := (file sb).
Notation disk_inv := (disk_inv sb ds).
Implicit Types (s : fstate) (addrs : list Z) (b inum : Z) (ip jp : nat).

Record cache_inv s : Prop := {
  ci_len : length (f_icache s) = NINODE;
  ci_ref : ∀ ip i, f_icache s !! ip = Some i → 0 ≤ i_ref i;
  ci_used : ∀ ip i, f_icache s !! ip = Some i → 0 < i_ref i → inode_no (i_inum i) ∧ i_dev i = ROOTDEV;
  ci_valid : ∀ ip i, f_icache s !! ip = Some i → 0 < i_ref i → i_valid i = true →
    i_type i ≠ 0 ∧ to_dinode i = dino s (i_inum i);
  ci_uniq : ∀ ip jp i j, f_icache s !! ip = Some i → f_icache s !! jp = Some j → 0 < i_ref i → 0 < i_ref j →
    i_inum i = i_inum j → ip = jp
}.

Definition fs_inv s : Prop := disk_inv s ∧ cache_inv s.

(** Entry [ip] changes from [i] to [i'] and no other does. *)
Definition entry_set s s' ip (i i' : inode) : Prop :=
  f_icache s !! ip = Some i ∧ f_icache s' = <[ip := i']> (f_icache s).

Lemma entry_alter s s' ip i f :
  f_icache s !! ip = Some i → f_icache s' = alter f ip (f_icache s) → entry_set s s' ip i (f i).
Proof.
  intros Hi Hc. split; [done|]. rewrite Hc. apply list_eq. intros jp. destruct (decide (jp = ip)) as [->|].
  - rewrite list_lookup_alter_eq, Hi, list_lookup_insert_eq; [done|]. by eapply lookup_lt_Some.
  - by rewrite list_lookup_alter_ne, list_lookup_insert_ne by done.
Qed.

Lemma cache_update s s' ip i i' :
  cache_inv s → entry_set s s' ip i i' → 0 < i_ref i → i_inum i' = i_inum i → i_dev i' = i_dev i → 0 ≤ i_ref i' →
  (∀ j, inode_no j → j ≠ i_inum i → dino s' j = dino s j) →
  (0 < i_ref i' → i_valid i' = true → i_type i' ≠ 0 ∧ to_dinode i' = dino s' (i_inum i)) →
  cache_inv s'.
Proof.
  intros [Hl Hr Hu Hv Hq] [Hi Hc] Hri Hin Hdv Hri' Hoth Hval. pose proof (lookup_lt_Some _ _ _ Hi) as Hlt.
  assert (∀ jp j, f_icache s' !! jp = Some j → (jp = ip ∧ j = i') ∨ (jp ≠ ip ∧ f_icache s !! jp = Some j)) as Hcase.
  { intros jp j Hj. rewrite Hc in Hj. apply list_lookup_insert_Some in Hj as [(<- & -> & _)|[? ?]]; [by left|by right]. }
  split.
  - by rewrite Hc, length_insert.
  - intros jp j [[-> ->]|[_ Hj]]%Hcase; [done|by eapply Hr].
  - intros jp j [[-> ->]|[_ Hj]]%Hcase Hrj; [rewrite Hin, Hdv; by eapply Hu|by eapply Hu].
  - intros jp j [[-> ->]|[Hne Hj]]%Hcase Hrj Hvj; [rewrite Hin; auto|].
    destruct (Hv jp j Hj Hrj Hvj) as [? Heq]. destruct (Hu jp j Hj Hrj) as [? _]. split; [done|]. rewrite Heq.
    symmetry. apply Hoth; [done|]. intros Hej. apply Hne. by apply (Hq jp ip j i).
  - intros jp kp j k Hj Hk Hrj Hrk Heq. apply Hcase in Hj as [[-> ->]|[Hnej Hj]], Hk as [[-> ->]|[Hnek Hk]]; [done|..].
    + rewrite Hin in Heq. by apply (Hq ip kp i k).
    + rewrite Hin in Heq. by apply (Hq jp ip j i).
    + by apply (Hq jp kp j k).
Qed.


(** A valid entry in use shows an allocated inode. *)
Record cached s ip (i : inode) : Prop := {
  ca_entry : f_icache s !! ip = Some i;
  ca_ref : 0 < i_ref i;
  ca_valid : i_valid i = true
}.

Lemma cached_facts s ip i :
  fs_inv s → cached s ip i →
  inode_no (i_inum i) ∧ i_type i ≠ 0 ∧ to_dinode i = dino s (i_inum i) ∧ addrs_of sb s (i_inum i) = i_addrs i ∧
  wf_dinode (to_dinode i) ∧ iwf s (i_addrs i) ∧ (Z.to_nat (i_size i) ≤ MAXBYTES)%nat ∧
  covers s (i_addrs i) (Z.to_nat (i_size i)) ∧ 0 ≤ i_size i.
Proof.
  intros [Hd Hc] [He Hr Hv]. destruct (ci_used _ Hc ip i He Hr) as [Hn _].
  destruct (ci_valid _ Hc ip i He Hr Hv) as [Ht Hdi].
  assert (addrs_of sb s (i_inum i) = i_addrs i) as Ha.
  { unfold addrs_of. rewrite <-Hdi. by rewrite decide_False. }
  destruct (di_sizes _ _ _ Hd (i_inum i) Hn) as [Hsz Hcv]; [by rewrite <-Hdi|]. rewrite <-Hdi in Hsz, Hcv.
  assert (wf_dinode (to_dinode i)) as Hwf by (rewrite Hdi; apply dino_wf, (di_base _ _ _ Hd)).
  split_and!; try done.
  - rewrite <-Ha. by apply Hd.
  - apply (wd_size _ Hwf).
Qed.

Lemma cached_file s ip i :
  fs_inv s → cached s ip i →
  file s (i_inum i) = Some (mkafile (i_type i) (i_major i) (i_minor i) (i_nlink i)
                              (range s (i_addrs i) 0 (Z.to_nat (i_size i)))).
Proof.
  intros Hinv Hca. destruct (cached_facts s ip i Hinv Hca) as (_ & Ht & Hdi & _).
  unfold FsInv.file. rewrite <-Hdi. by rewrite decide_False.
Qed.

(** ** [readi] *)

Lemma range_slice s addrs off n size :
  (off + n ≤ size)%nat → range s addrs off n = slice off n (range s addrs 0 size).
Proof.
  intros Hn. apply list_eq. intros j. destruct (decide (j < n)%nat).
  - rewrite slice_lookup, !range_lookup by lia. done.
  - rewrite !lookup_ge_None_2; [done|rewrite slice_length; rewrite ?range_length; lia|rewrite range_length; lia].
Qed.

Lemma readi_spec s ip i off n f m :
  fs_inv s → cached s ip i → i_type i ≠ T_DEV → file s (i_inum i) = Some f →
  (off ≤ length (af_data f))%nat → Z.of_nat off + Z.of_nat n < 2 ^ 32 →
  m = Nat.min n (length (af_data f) - off) →
  readi devs ip (Z.of_nat off) (Z.of_nat n) s = Ok (Z.of_nat m, slice off m (af_data f), s).
Proof.
  intros Hinv Hca Ht Hf Hoff Hn Hm. destruct (cached_facts s ip i Hinv Hca) as (_ & _ & _ & _ & _ & Hw & Hsz & Hcv & Hs0).
  rewrite (cached_file s ip i Hinv Hca) in Hf. injection Hf as <-. cbn [af_data] in *. rewrite range_length in *.
  set (size := Z.to_nat (i_size i)) in *. unfold readi.
  rewrite (proj2 (geti_Ok _ _ _) (ca_entry _ _ _ Hca)), bind_ret, decide_False by done.
  rewrite u32_small by lia. rewrite decide_False by lia.
  assert ((if decide (i_size i < Z.of_nat off + Z.of_nat n) then i_size i - Z.of_nat off else Z.of_nat n) = Z.of_nat m) as ->.
  { case_decide; lia. }
  destruct Hinv as [Hd Hc]. pose proof (readi_loop_spec sb ds (blocks_touched (Z.of_nat m)) s ip i off m 0 []) as Hrd.
  rewrite Nat.sub_0_r in Hrd. change (Z.of_nat 0) with 0 in Hrd. rewrite Hrd.
  - rewrite bind_ret. rewrite app_nil_l. rewrite i32_small by (unfold MAXBYTES, MAXFILE, BSIZE in *; lia).
    rewrite (range_slice s _ off m size) by lia. done.
  - apply Hd.
  - apply Hca.
  - done.
  - lia.
  - lia.
  - intros k Hk Hlt. apply Hcv; [done|lia].
  - apply blocks_touched_enough.
Qed.

(** ** [writei] *)

Lemma overwrite_range s s' addrs addrs' off data size k :
  wrote sb ds s s' addrs addrs' off data k → covers s addrs size → (off ≤ size)%nat →
  (size ≤ MAXBYTES)%nat → (off + length data ≤ MAXBYTES)%nat →
  range s' addrs' 0 (Nat.max size (off + length data)) = overwrite off data (range s addrs 0 size).
Proof.
  intros Hwr Hcv Ho Hsz Hmax. apply list_eq. intros j.
  destruct (decide (j < Nat.max size (off + length data))%nat) as [Hj|Hj].
  - rewrite range_lookup by done. rewrite overwrite_lookup by (rewrite range_length; lia).
    rewrite Nat.add_0_l. case_decide as Hr.
    + destruct (lookup_lt_is_Some_2 data (j - off)) as [x Hx]; [lia|]. rewrite Hx. f_equal.
      rewrite <-(wr_in _ _ _ _ _ _ _ _ _ Hwr _ _ Hx). f_equal. lia.
    + rewrite range_lookup by lia. f_equal. rewrite Nat.add_0_l. apply (wr_out _ _ _ _ _ _ _ _ _ Hwr); [lia|lia|].
      apply Hcv; [apply block_range; lia|]. pose proof (Nat.Div0.mul_div_le j BSIZE). lia.
  - rewrite !lookup_ge_None_2; [done|rewrite overwrite_length by (rewrite range_length; lia); rewrite range_length; lia|].
    rewrite range_length. lia.
Qed.

Lemma covers_wrote s s' addrs addrs' off data size k :
  wrote sb ds s s' addrs addrs' off data k → covers s addrs size → (off ≤ size)%nat →
  (size ≤ MAXBYTES)%nat → covers s' addrs' (Nat.max size (off + length data)).
Proof.
  intros Hwr Hcv Ho Hsz m Hm Hlt. destruct (decide (m * BSIZE < size)%nat).
  - rewrite (wr_kept _ _ _ _ _ _ _ _ _ Hwr); [by apply Hcv|lia|by apply Hcv].
  - pose proof (wr_new _ _ _ _ _ _ _ _ _ Hwr (m * BSIZE)%nat) as Hnew.
    rewrite Nat.div_mul in Hnew by done. apply Hnew. lia.
Qed.

Lemma iframe_updi s s1 a1 a2 f ip : iframe s s1 a1 a2 → iframe s (updi f ip s1) a1 a2.
Proof. intros [? ? ? ? ?]. split; try done. by apply base_updi. Qed.

Lemma iwf_updi s addrs f ip : iwf s addrs → iwf (updi f ip s) addrs.
Proof. intros [? ? ?]. by split. Qed.

Lemma dino_meta s s1 a1 a2 j : base s → iframe s s1 a1 a2 → inode_no j → dino s1 j = dino s j.
Proof.
  intros Hs Hf Hj. unfold InodeSpec.dino. pose proof (fb_layout _ _ _ Hs) as Hly.
  destruct (IBLOCK_range sb ds j Hly Hj) as (_ & ? & _). pose proof (layout_bounds sb ds Hly).
  by rewrite (if_meta _ _ _ _ _ _ Hf) by lia.
Qed.

Lemma put_nfree s inum di : base s → inode_no inum → nfree (put s inum di) = nfree s.
Proof.
  intros Hs Hi. apply nfree_ext; [done|]. rewrite (fb_sb _ _ _ Hs). intros x Hx. by apply (put_bit sb ds).
Qed.

(** The blocks [writei] may add to the transaction. *)
Definition write_logged s s' (inum : Z) (off n : nat) (x : Z) : Prop :=
  x ∈ f_logged s ∨ x = bm ∨ x = IBLOCK inum sb ∨
  (∃ m, (m = MAXFILE ∨ ∃ o, (off ≤ o < off + n)%nat ∧ m = (o / BSIZE)%nat) ∧
        x = slot s' (addrs_of sb s' inum) m).

Lemma uint_size n : (n ≤ MAXBYTES)%nat → uint (Z.of_nat n).
Proof. intros. unfold uint, MAXBYTES, MAXFILE, BSIZE in *. lia. Qed.

(** Storing the addresses and size of a cached inode after its blocks changed. *)
Lemma store_spec s s1 ip i i' :
  fs_inv s → cached s ip i → f_icache s1 = <[ip := i']> (f_icache s) →
  i_inum i' = i_inum i → i_dev i' = i_dev i → i_ref i' = i_ref i → i_valid i' = true →
  update sb ds s s1 (i_inum i) (i_addrs i') (to_dinode i') → i_type i' ≠ 0 →
  ∃ s', iupdate ip s1 = Ok s' ∧ s' = put s1 (i_inum i) (to_dinode i') ∧ fs_inv s' ∧ cached s' ip i' ∧
    file s' (i_inum i) = Some (mkafile (i_type i') (i_major i') (i_minor i') (i_nlink i')
                                 (range s1 (i_addrs i') 0 (Z.to_nat (i_size i')))) ∧
    ∀ j, inode_no j → j ≠ i_inum i → file s' j = file s j.
Proof.
  intros Hinv Hca Hic Hin Hdv Hrf Hval Hup Hty. pose proof Hinv as [Hd Hc]. pose proof Hca as [He Hr Hv].
  pose proof (if_base _ _ _ _ _ _ (up_frame _ _ _ _ _ _ _ Hup)) as Hb1.
  assert (f_icache s1 !! ip = Some i') as Hi'.
  { rewrite Hic. apply list_lookup_insert_eq. by eapply lookup_lt_Some. }
  pose proof (up_no _ _ _ _ _ _ _ Hup) as Hn. pose proof (up_di _ _ _ _ _ _ _ Hup) as Hwf.
  pose proof (written_put sb ds s1 (i_inum i) (to_dinode i') Hb1 Hn Hwf) as Hwn.
  exists (put s1 (i_inum i) (to_dinode i')). split_and!; [|done|split|..].
  - rewrite <-Hin. apply (iupdate_Ok sb ds); [done|done|by rewrite Hin|done].
  - by apply (update_inv sb ds s s1 _ (i_inum i) (i_addrs i') (to_dinode i')).
  - apply (cache_update s _ ip i i'); try done; [lia|..].
    + intros j Hj Hne. by apply (update_other sb ds s s1 _ (i_inum i) (i_addrs i') (to_dinode i')).
    + intros _ _. split; [done|]. by rewrite (wn_self _ _ _ _ _ _ Hwn).
  - split; [done|lia|done].
  - rewrite (update_file_self sb ds s s1 _ (i_inum i) (i_addrs i') (to_dinode i')) by done.
    by rewrite decide_False.
  - intros j Hj Hne. by apply (update_file sb ds s s1 _ (i_inum i) (i_addrs i') (to_dinode i')).
Qed.

Lemma iwf_uint s addrs : base s → iwf s addrs → Forall uint addrs.
Proof.
  intros Hs Hw. pose proof (iw_len _ _ _ _ Hw) as Hlen. apply Forall_lookup. intros k a Hk.
  destruct (decide (a = 0)) as [->|Ha]; [done|]. apply list_lookup_total_correct in Hk as Hk'.
  apply lookup_lt_Some in Hk. rewrite Hlen in Hk.
  assert (∃ n, (n ≤ MAXFILE)%nat ∧ slot s addrs n = a) as (n & Hn & Hsl).
  { destruct (decide (k = NDIRECT)) as [->|Hne]; [by exists MAXFILE|]. exists k.
    split; [unfold MAXFILE, NDIRECT in *; lia|]. rewrite slot_direct by lia. done. }
  destruct (iw_data _ _ _ _ Hw n Hn) as [Hd _]; [by rewrite Hsl|]. rewrite Hsl in Hd.
  destruct (data_nonzero sb ds s a Hs Hd) as (_ & _ & Hr & _). unfold uint, FSSIZE in *. lia.
Qed.

(** The file grew: its blocks, then its size and addresses are stored. *)
Lemma write_grow s s1 ip i addrs' off data k size' :
  fs_inv s → cached s ip i → f_icache s1 = <[ip := set_addrs addrs' i]> (f_icache s) →
  wrote sb ds s s1 (i_addrs i) addrs' off data k → covers s1 addrs' size' → (size' ≤ MAXBYTES)%nat →
  update sb ds s (updi (λ x, x <| i_size := Z.of_nat size' |>) ip s1) (i_inum i) addrs'
    (to_dinode (set_addrs addrs' i <| i_size := Z.of_nat size' |>)).
Proof.
  intros Hinv Hca Hic Hwr Hcv Hsz.
  destruct (cached_facts s ip i Hinv Hca) as (Hno & Hty & Hdi & Hadr & Hwf & _).
  pose proof (wr_frame _ _ _ _ _ _ _ _ _ Hwr) as Hfr. pose proof (wr_wf _ _ _ _ _ _ _ _ _ Hwr) as Hw1.
  pose proof (if_base _ _ _ _ _ _ Hfr) as Hb1. split.
  - done.
  - rewrite Hadr. by apply iframe_updi.
  - by apply iwf_updi.
  - destruct Hwf as [H1 H2 H3 H4 _ _ _].
    split; [exact H1|exact H2|exact H3|exact H4|exact (uint_size size' Hsz)|exact (iw_len _ _ _ _ Hw1)|].
    exact (iwf_uint s1 addrs' Hb1 Hw1).
  - rewrite decide_False by exact Hty. reflexivity.
  - intros _. assert (dsize (to_dinode (set_addrs addrs' i <| i_size := Z.of_nat size' |>)) = size') as ->.
    { exact (Nat2Z.id size'). }
    exact (conj Hsz Hcv).
Qed.

(** The file did not grow: nothing but its bytes changed. *)
Lemma write_same s s1 ip i off data k :
  fs_inv s → cached s ip i → f_icache s1 = f_icache s →
  wrote sb ds s s1 (i_addrs i) (i_addrs i) off data k → (off + length data ≤ Z.to_nat (i_size i))%nat →
  fs_inv s1 ∧ cached s1 ip i ∧ (∀ j, inode_no j → j ≠ i_inum i → file s1 j = file s j).
Proof.
  intros Hinv Hca Hic Hwr Hle. pose proof Hinv as [Hd Hc]. pose proof (di_base _ _ _ Hd) as Hb.
  destruct (cached_facts s ip i Hinv Hca) as (Hno & Hty & Hdi & Hadr & Hwf & Hw & Hsz & Hcv & Hs0).
  pose proof (wr_frame _ _ _ _ _ _ _ _ _ Hwr) as Hfr. pose proof (wr_wf _ _ _ _ _ _ _ _ _ Hwr) as Hw1.
  pose proof (if_base _ _ _ _ _ _ Hfr) as Hb1.
  assert (update sb ds s s1 (i_inum i) (i_addrs i) (to_dinode i)) as Hup.
  { split; [done|by rewrite Hadr|done|done|by rewrite decide_False|]. intros _. split; [done|].
    pose proof (covers_wrote s s1 _ _ off data _ k Hwr Hcv) as Hcw. rewrite Nat.max_l in Hcw by done. apply Hcw; [lia|done]. }
  assert (written sb ds s1 s1 (i_inum i) (to_dinode i)) as Hwn.
  { rewrite Hdi, <-(dino_meta s s1 _ _ _ Hb Hfr Hno). by apply written_same. }
  assert (cached s1 ip i) as Hca1 by (destruct Hca; split; [by rewrite Hic|done|done]).
  split_and!; [split|done|].
  - by apply (update_inv sb ds s s1 s1 (i_inum i) (i_addrs i) (to_dinode i)).
  - destruct Hc as [Hl Hr Hu Hv Hq]. split; rewrite ?Hic; try done.
    intros jp j Hj Hrj Hvj. destruct (Hv jp j Hj Hrj Hvj) as [? ->]. split; [done|]. symmetry.
    destruct (Hu jp j Hj Hrj) as [? _]. by apply (dino_meta s s1 (i_addrs i) (i_addrs i)).
  - intros j Hj Hne. by apply (update_file sb ds s s1 s1 (i_inum i) (i_addrs i) (to_dinode i)).
Qed.

Lemma writei_spec s ip i src off n f :
  fs_inv s → cached s ip i → i_type i ≠ T_DEV → file s (i_inum i) = Some f →
  Forall byte_range src → (n ≤ length src)%nat →
  (off ≤ length (af_data f))%nat → (off + n ≤ MAXBYTES)%nat →
  (blocks_touched (Z.of_nat n) + 1 ≤ nfree s)%nat →
  ∃ s', writei devs ip src (Z.of_nat off) (Z.of_nat n) s = Ok (Z.of_nat n, s') ∧ fs_inv s' ∧
    file s' (i_inum i) = Some (set_data (overwrite off (take n src) (af_data f)) f) ∧
    (∀ j, inode_no j → j ≠ i_inum i → file s' j = file s j) ∧
    (∃ i', cached s' ip i' ∧ i_inum i' = i_inum i ∧ i_locked i' = i_locked i ∧ i_ref i' = i_ref i ∧
       f_icache s' = <[ip := i']> (f_icache s)) ∧
    (∀ x, x ∈ f_logged s' → write_logged s s' (i_inum i) off n x) ∧
    (nfree s ≤ nfree s' + blocks_touched (Z.of_nat n) + 1)%nat.
Proof.
  intros Hinv Hca Ht Hf Hby Hlen Hoff Hmax Hfree.
  destruct (cached_facts s ip i Hinv Hca) as (Hno & Hty & Hdi & Hadr & Hwf & Hw & Hsz & Hcv & Hs0).
  pose proof (cached_file s ip i Hinv Hca) as Hf'. rewrite Hf' in Hf. injection Hf as <-.
  cbn [af_data] in *. rewrite range_length in Hoff. set (size := Z.to_nat (i_size i)) in *.
  pose proof Hinv as [Hd Hc]. pose proof Hca as [He Hr Hv]. pose proof (di_base _ _ _ Hd) as Hb.
  assert (Z.of_nat (MAXFILE * BSIZE) < 2 ^ 31) by (unfold MAXFILE, BSIZE; lia). unfold MAXBYTES in Hsz, Hmax.
  unfold writei. rewrite (proj2 (geti_Ok _ _ _) He), bind_ret, decide_False by done.
  rewrite u32_small by lia. rewrite !decide_False by lia.
  destruct (writei_loop_spec sb ds (blocks_touched (Z.of_nat n)) s ip i src off n 0)
    as (s1 & addrs' & k & Hloop & Hwr & Hk & Hic & Hsame); try done.
  { lia. } { unfold MAXBYTES. lia. } { rewrite Nat.sub_0_r. apply blocks_touched_enough. }
  { unfold ind_need. case_decide; lia. }
  rewrite Nat.sub_0_r in *. change (Z.of_nat 0) with 0 in Hloop. rewrite Hloop, bind_ret.
  unfold slice in Hwr. rewrite drop_0 in Hwr. set (data := take n src) in *.
  assert (length data = n) as Hdl by (unfold data; rewrite length_take; lia).
  pose proof (icache_addrs s s1 ip i addrs' He Hic) as Hi1. rewrite (proj2 (geti_Ok _ _ _) Hi1), bind_ret.
  pose proof (entry_alter s s1 ip i _ He Hic) as [_ Hset].
  change (i_size (set_addrs addrs' i)) with (i_size i).
  pose proof (wr_frame _ _ _ _ _ _ _ _ _ Hwr) as Hfr. pose proof (wr_wf _ _ _ _ _ _ _ _ _ Hwr) as Hw1.
  pose proof (overwrite_range s s1 _ _ off data size k Hwr Hcv Hoff) as Hor. rewrite Hdl in Hor.
  pose proof (covers_wrote s s1 _ _ off data size k Hwr Hcv Hoff) as Hcw. rewrite Hdl in Hcw.
  specialize (Hor ltac:(done) ltac:(done)). specialize (Hcw ltac:(done)).
  assert (nfree s ≤ nfree s1 + blocks_touched (Z.of_nat n) + 1)%nat as Hnf.
  { pose proof (wr_free _ _ _ _ _ _ _ _ _ Hwr) as Hwf'. unfold ind_need in Hwf'. revert Hwf'. repeat case_decide; lia. }
  rewrite i32_small by lia. case_decide as Hg.
  - rewrite Nat.max_r in Hor, Hcw by lia.
    pose proof (write_grow s s1 ip i addrs' off data k (off + n) Hinv Hca Hset Hwr Hcw Hmax) as Hup.
    set (i' := set_addrs addrs' i <| i_size := Z.of_nat (off + n) |>) in *.
    set (s2 := updi _ ip s1) in *.
    destruct (store_spec s s2 ip i i') as (s' & -> & Hs' & Hinv' & Hca' & Hfile & Hoth); try done.
    { unfold s2, updi. cbn. by rewrite Hset, alter_insert_at. }
    rewrite bind_ret. exists s'. split_and!; try done.
    + rewrite Hfile. unfold set_data. cbn. do 2 f_equal. rewrite Nat2Z.id. by rewrite <-Hor.
    + exists i'. split_and!; try done. rewrite Hs'. unfold s2, updi, InodeSpec.put, lw. cbn. by rewrite Hset, alter_insert_at.
    + intros x Hx. rewrite Hs' in Hx. apply logged_lw in Hx as [Hx| ->]; [|by right; right; left].
      destruct (cached_facts s' ip i' Hinv' Hca') as (_ & _ & _ & Ha' & _).
      change (i_inum i') with (i_inum i) in Ha'. change (i_addrs i') with addrs' in Ha'.
      apply (wr_logged _ _ _ _ _ _ _ _ _ Hwr) in Hx as [Hx|[Hx|Hx]]; [by left|by right; left|].
      right; right; right. rewrite Ha'.
      assert (∀ m, slot s' addrs' m = slot s1 addrs' m) as Hsl.
      { intros m. rewrite Hs'. apply (same_slot sb ds s2); [|by apply iwf_updi].
        apply put_same; [apply base_updi; apply Hfr|done|apply (up_di _ _ _ _ _ _ _ Hup)]. }
      destruct Hx as [[-> _]|(o & Ho & ->)].
      * exists MAXFILE. rewrite Hsl. split; [by left|done].
      * exists (o / BSIZE)%nat. rewrite Hsl. split; [right; exists o; split; [lia|done]|done].
    + rewrite Hs', put_nfree; [exact Hnf|apply base_updi, Hfr|exact Hno].
  - assert (off + n ≤ size)%nat as Hle by lia. rewrite Nat.max_l in Hor by lia.
    assert (addrs' = i_addrs i) as ->.
    { apply Hsame. intros m Hm Hlt. apply Hcv; [done|lia]. }
    assert (f_icache s1 = f_icache s) as Hics.
    { rewrite Hset. apply list_insert_id. rewrite He. by destruct i. }
    destruct (write_same s s1 ip i off data k Hinv Hca Hics Hwr) as (Hinv1 & Hca1 & Hoth); [lia|].
    rewrite bind_ret. exists s1. split_and!; try done.
    + rewrite (cached_file s1 ip i Hinv1 Hca1). unfold set_data. cbn. do 2 f_equal. by rewrite <-Hor.
    + exists i. split_and!; try done. by rewrite Hics, list_insert_id.
    + intros x [Hx|[Hx|Hx]]%(wr_logged _ _ _ _ _ _ _ _ _ Hwr); [by left|by right; left|].
      right; right; right. destruct (cached_facts s1 ip i Hinv1 Hca1) as (_ & _ & _ & -> & _).
      destruct Hx as [[-> _]|(o & Ho & ->)]; [exists MAXFILE; split; [by left|done]|].
      exists (o / BSIZE)%nat. split; [right; exists o; split; [lia|done]|done].
Qed.
End ops.
