(* ===== verification/CacheSpec.v ===== *)
(** * The inode cache: references, locking, allocation and release *)

From stdpp Require Import gmap.
From S2P Require Import Prelude.
From S2P Require Import Bytes.
From S2P Require Import CString.
From S2P Require Import Log.
From S2P Require Import Fs.
From S2P Require Import FsSpec.
From S2P Require Import FileSpec.
From S2P Require Import FileRw.
From S2P Require Import InodeSpec.
From S2P Require Import TruncSpec.
From S2P Require Import FsInv.
From S2P Require Import FsOps.

Local Open Scope Z_scope.

(** ** The scan of [iget] *)

Definition matches (dev inum : Z) (i : inode) : Prop := 0 < i_ref i ∧ i_dev i = dev ∧ i_inum i = inum.

Lemma iget_scan_spec l dev inum k empty :
  match iget_scan l dev inum k empty with
  | inl ip => ∃ j i, ip = (k + j)%nat ∧ l !! j = Some i ∧ matches dev inum i
  | inr r => Forall (λ i, ¬ matches dev inum i) l ∧
      match empty with
      | Some e => r = Some e
      | None => match r with
                | Some ip => ∃ j i, ip = (k + j)%nat ∧ l !! j = Some i ∧ i_ref i = 0
                | None => Forall (λ i, i_ref i ≠ 0) l
                end
      end
  end.
Proof.
  revert k empty. induction l as [|x l IH]; intros k empty; cbn [iget_scan].
  - destruct empty; split; constructor.
  - case_decide as Hm.
    { exists 0%nat, x. split_and!; [lia|done|exact Hm]. }
    specialize (IH (S k) (match empty with None => if decide (i_ref x = 0) then Some k else None | e => e end)).
    destruct (iget_scan _ _ _ _ _) as [ip|r].
    { destruct IH as (j & i & -> & ? & ?). exists (S j), i. split_and!; [lia|done|done]. }
    destruct IH as [Hall Hr]. split; [by constructor|].
    destruct empty as [e|]; [done|]. destruct (decide (i_ref x = 0)) as [H0|H0].
    + subst r. exists 0%nat, x. split_and!; [lia|done|done].
    + destruct r as [ip|]; [|by constructor]. destruct Hr as (j & i & -> & ? & ?).
      exists (S j), i. split_and!; [lia|done|done].
Qed.

Section cache.
Context (sb : superblock) (ds : Z) (devs : list devsw).
Notation base := (fs_base sb ds).
Notation inode_no := (inode_no sb).
Notation dino := (dino sb).
Notation put := (put sb).
Notation file := (file sb).
Notation disk_inv := (disk_inv sb ds).
Notation cache_inv := (cache_inv sb).
Notation fs_inv := (fs_inv sb ds).
Implicit Types (s : fstate) (inum : Z) (ip jp : nat).

(** The disk and the logged blocks are as they were. *)
Definition same_disk s s' : Prop := f_sb s' = f_sb s ∧ f_blk s' = f_blk s ∧ f_logged s' = f_logged s.

Lemma same_disk_refl s : same_disk s s.
Proof. done. Qed.
Lemma same_disk_trans s1 s2 s3 : same_disk s1 s2 → same_disk s2 s3 → same_disk s1 s3.
Proof. intros (? & ? & ?) (? & ? & ?). unfold same_disk. split_and!; congruence. Qed.
Lemma same_disk_updi f ip s : same_disk s (updi f ip s).
Proof. done. Qed.

Lemma same_disk_blk s s' : same_disk s s' → ∀ b, blk s' b = blk s b.
Proof. intros (_ & Hb & _) b. unfold blk. by rewrite Hb. Qed.

Lemma same_disk_nfree s s' : same_disk s s' → nfree s' = nfree s.
Proof. intros (Hsb & Hb & _). unfold nfree, bit, blk. by rewrite Hsb, Hb. Qed.

Lemma same_disk_inv s s' : same_disk s s' → disk_inv s → disk_inv s'.
Proof.
  intros Hsd. assert (∃ c, s' = s <| f_icache := c |>) as [c ->].
  { destruct s, s', Hsd as (? & ? & ?). cbn in *. subst. by eexists. }
  intros [[? ? ? ?] Hw ? ? ?]. split; try done. intros inum Hi. destruct (Hw inum Hi). by split.
Qed.

Lemma same_disk_file s s' inum : same_disk s s' → file s' inum = file s inum ∧ dino s' inum = dino s inum.
Proof.
  intros Hsd. assert (∃ c, s' = s <| f_icache := c |>) as [c ->].
  { destruct s, s', Hsd as (? & ? & ?). cbn in *. subst. by eexists. }
  done.
Qed.

(** A change of entry [ip] that touches neither disk nor cached fields. *)
Lemma cache_touch s ip i f :
  fs_inv s → f_icache s !! ip = Some i → 0 < i_ref i →
  i_inum (f i) = i_inum i → i_dev (f i) = i_dev i → 0 ≤ i_ref (f i) →
  (i_valid (f i) = true → i_type (f i) ≠ 0 ∧ to_dinode (f i) = dino s (i_inum i)) →
  fs_inv (updi f ip s) ∧ f_icache (updi f ip s) !! ip = Some (f i).
Proof.
  intros [Hd Hc] Hi Hr Hin Hdv Hrf Hval. split; [split|by apply updi_lookup].
  - exact (same_disk_inv _ _ (same_disk_updi f ip s) Hd).
  - apply (cache_update sb s _ ip i (f i)); try done.
    by apply entry_alter.
Qed.

Lemma ilock_spec s ip i :
  fs_inv s → f_icache s !! ip = Some i → 0 < i_ref i → i_locked i = false →
  di_type (dino s (i_inum i)) ≠ 0 →
  ∃ s' i', ilock ip s = Ok s' ∧ fs_inv s' ∧ same_disk s s' ∧ cached s' ip i' ∧ i_locked i' = true ∧
    i_inum i' = i_inum i ∧ i_ref i' = i_ref i ∧ i_type i' = di_type (dino s (i_inum i)) ∧
    f_icache s' = <[ip := i']> (f_icache s).
Proof.
  intros Hinv Hi Hr Hl Ht. pose proof Hinv as [Hd Hc]. destruct (ci_used _ _ Hc ip i Hi Hr) as [Hn Hdev].
  set (di := dino s (i_inum i)) in *.
  assert (ilock ip s = Ok (updi (λ j, (if i_valid j then j else from_dinode (dino s (i_inum j)) j <| i_valid := true |>)
                              <| i_locked := true |>) ip s)) as ->.
  { apply (ilock_Ok sb ds s ip i); [apply Hd|exact Hi|exact Hl|lia|exact Hn|intros _; exact Ht]. }
  set (i' := (if i_valid i then i else from_dinode di i <| i_valid := true |>) <| i_locked := true |>).
  set (f := λ j : inode, _). assert (f i = i') as Hf by reflexivity. clearbody f.
  assert (i_inum i' = i_inum i ∧ i_dev i' = i_dev i ∧ i_ref i' = i_ref i ∧ i_valid i' = true ∧ i_locked i' = true)
    as (H1 & H2 & H3 & H4 & H5).
  { unfold i'. destruct (i_valid i) eqn:Hv; split_and!; try reflexivity. exact Hv. }
  assert (to_dinode i' = di) as Hdi.
  { unfold i'. destruct (i_valid i) eqn:Hv.
    - destruct (ci_valid _ _ Hc ip i Hi Hr Hv) as [_ Heq]. exact Heq.
    - clearbody di. by destruct di. }
  assert (i_type i' = di_type di) as Hty by (rewrite <-Hdi; reflexivity). clearbody i'.
  destruct (cache_touch s ip i f Hinv Hi Hr) as [Hinv' Hi']; rewrite ?Hf; [done|done|lia| |].
  - intros _. rewrite Hty. split; [exact Ht|exact Hdi].
  - rewrite Hf in Hi'. exists (updi f ip s), i'. split; [reflexivity|]. split; [exact Hinv'|]. split; [done|].
    split; [split; [exact Hi'|lia|exact H4]|]. split_and!; try assumption.
    rewrite <-Hf. by apply entry_alter.
Qed.

Lemma iunlock_spec s ip i :
  fs_inv s → f_icache s !! ip = Some i → 0 < i_ref i → i_locked i = true →
  ∃ s', iunlock ip s = Ok s' ∧ fs_inv s' ∧ same_disk s s' ∧
    f_icache s' = <[ip := i <| i_locked := false |>]> (f_icache s).
Proof.
  intros Hinv Hi Hr Hl. pose proof Hinv as [Hd Hc]. unfold iunlock.
  rewrite (proj2 (geti_Ok _ _ _) Hi), bind_ret, decide_False by (rewrite Hl; intros [?|?]; [done|lia]).
  eexists. split; [done|]. destruct (cache_touch s ip i (λ i, i <| i_locked := false |>)) as [Hinv' Hi']; try done.
  - cbn. lia.
  - cbn. intros Hv. by apply (ci_valid _ _ Hc ip i).
  - split_and!; [exact Hinv'|done|]. by apply entry_alter.
Qed.

(** ** [iget] *)

(** [ip] refers to inode [inum], and it is the only entry that changed. *)
Record gotten s s' ip inum : Prop := {
  gt_disk : same_disk s s';
  gt_inv : fs_inv s';
  gt_entry : ∃ i, f_icache s' !! ip = Some i ∧ i_inum i = inum ∧ 0 < i_ref i ∧
    f_icache s' = <[ip := i]> (f_icache s) ∧
    (∀ j, f_icache s !! ip = Some j → 0 < i_ref j → i_inum j = inum ∧ i = j <| i_ref ::= λ r, r + 1 |>) ∧
    (∀ j, f_icache s !! ip = Some j → i_ref j = 0 → i_valid i = false ∧ i_ref i = 1 ∧ i_locked i = i_locked j)
}.

Lemma gotten_unlocked s s' ip inum :
  gotten s s' ip inum →
  (∀ k i, f_icache s !! k = Some i → 0 ≤ i_ref i ∧ i_locked i = false) →
  ∀ k i, f_icache s' !! k = Some i → i_locked i = false.
Proof.
  intros [_ _ (i0 & Hi0 & _ & _ & Hic & Hused & Hempty)] Hall k i Hi. rewrite Hic in Hi.
  apply list_lookup_insert_Some in Hi as [(-> & <- & Hlt)|[_ Hi]]; [|by apply (Hall k)].
  destruct (lookup_lt_is_Some_2 _ _ Hlt) as [j Hj]. destruct (Hall _ j Hj) as [Hr Hl].
  destruct (decide (i_ref j = 0)) as [Hz|].
  - by destruct (Hempty j Hj Hz) as (_ & _ & ->).
  - destruct (Hused j Hj) as [_ ->]; [lia|]. exact Hl.
Qed.

Lemma iget_spec s inum :
  fs_inv s → inode_no inum →
  (∃ ip i, f_icache s !! ip = Some i ∧ (i_ref i = 0 ∨ (0 < i_ref i ∧ i_inum i = inum))) →
  ∃ ip s', iget ROOTDEV inum s = Ok (ip, s') ∧ gotten s s' ip inum.
Proof.
  intros Hinv Hn Hroom. pose proof Hinv as [Hd Hc]. unfold iget.
  pose proof (iget_scan_spec (f_icache s) ROOTDEV inum 0 None) as Hscan.
  destruct (iget_scan _ _ _ _ _) as [ip|[ip|]].
  - destruct Hscan as (j & i & -> & Hi & Hr & Hdv & Hin). rewrite Nat.add_0_l. eexists _, _. split; [reflexivity|].
    destruct (cache_touch s j i (λ i, i <| i_ref ::= λ r, r + 1 |>)) as [Hinv' Hi']; [done|done|done|done|done|cbn; lia|..].
    { cbn. intros Hv. by apply (ci_valid _ _ Hc j i). }
    split; [done|done|]. eexists. split; [exact Hi'|]. split_and!; [done|cbn; lia|by apply entry_alter|..].
    + intros k Hk _. rewrite Hi in Hk. by injection Hk as <-.
    + intros k Hk H0. rewrite Hi in Hk. injection Hk as <-. lia.
  - destruct Hscan as (Hall & j & i & -> & Hi & H0). rewrite Nat.add_0_l. eexists _, _. split; [reflexivity|].
    set (f := λ i : inode, _).
    assert (entry_set s (updi f j s) j i (f i)) as He by (by apply entry_alter).
    assert (f_icache (updi f j s) !! j = Some (f i)) as Hi' by (by apply updi_lookup).
    assert (∀ k x, f_icache s !! k = Some x → 0 < i_ref x → i_inum x ≠ inum) as Hno.
    { intros k x Hk Hx Heq. apply (Forall_lookup_1 _ _ _ _ Hall Hk). split_and!; [done| |done].
      by apply (ci_used _ _ Hc k x). }
    split; [done|split|].
    + exact (same_disk_inv _ _ (same_disk_updi f j s) Hd).
    + destruct Hc as [Hl Hr Hu Hv Hq]. destruct He as [_ He].
      assert (∀ k x, f_icache (updi f j s) !! k = Some x → (k = j ∧ x = f i) ∨ (k ≠ j ∧ f_icache s !! k = Some x)) as Hcase.
      { intros k x Hk. rewrite He in Hk. apply list_lookup_insert_Some in Hk as [(<- & -> & _)|[? ?]]; [by left|by right]. }
      split.
      * by rewrite He, length_insert.
      * intros k x [[-> ->]|[_ Hk]]%Hcase; [cbn; lia|by eapply Hr].
      * intros k x [[-> ->]|[_ Hk]]%Hcase Hrx; [done|by eapply Hu].
      * intros k x [[-> ->]|[_ Hk]]%Hcase Hrx Hvx; [done|by eapply Hv].
      * intros k m x y Hk Hm Hrx Hry Heq. apply Hcase in Hk as [[-> ->]|[Hnk Hk]], Hm as [[-> ->]|[Hnm Hm]]; [done|..].
        -- destruct (Hno m y Hm Hry). by rewrite <-Heq.
        -- destruct (Hno k x Hk Hrx). by rewrite Heq.
        -- by apply (Hq k m x y).
    + exists (f i). split_and!; [done|done|cbn; lia|apply He|..].
      * intros k Hk Hrk. rewrite Hi in Hk. injection Hk as <-. lia.
      * intros k Hk _. rewrite Hi in Hk. by injection Hk as <-.
  - exfalso. destruct Hscan as [Hno Hall], Hroom as (ip & i & Hi & [H0|[Hr Hin]]).
    + by apply (Forall_lookup_1 _ _ _ _ Hall Hi).
    + apply (Forall_lookup_1 _ _ _ _ Hno Hi). split_and!; [done| |done]. by apply (ci_used _ _ Hc ip i).
Qed.

(** ** [iput] *)

(** Dropping a reference that is not the last one to an unlinked inode. *)
Lemma iput_keep s ip i :
  fs_inv s → f_icache s !! ip = Some i → 0 < i_ref i → i_locked i = false →
  ¬ (i_valid i = true ∧ i_nlink i = 0 ∧ i_ref i = 1) →
  ∃ s', iput ip s = Ok s' ∧ fs_inv s' ∧ same_disk s s' ∧
    f_icache s' = <[ip := i <| i_ref ::= λ r, r - 1 |>]> (f_icache s).
Proof.
  intros Hinv Hi Hr Hl Hk. pose proof Hinv as [Hd Hc]. unfold iput, acquiresleep.
  rewrite (proj2 (geti_Ok _ _ _) Hi), bind_ret, Hl, bind_ret.
  rewrite (proj2 (geti_Ok _ _ (i <| i_locked := true |>))) by (by apply updi_lookup). rewrite bind_ret.
  rewrite decide_False by exact Hk. rewrite bind_ret. unfold releasesleep. rewrite !updi_updi.
  set (f := compose _ _). assert (f i = i <| i_ref ::= λ r, r - 1 |>) as Hf.
  { unfold f. cbn. destruct i; cbn in *. by rewrite Hl. }
  destruct (cache_touch s ip i f) as [Hinv' Hi']; try (rewrite Hf; first [done | cbn; lia]); [done..| |].
  { rewrite Hf. cbn. intros Hv. by apply (ci_valid _ _ Hc ip i). }
  eexists. split; [done|]. split_and!; [exact Hinv'|done|]. rewrite <-Hf. by apply entry_alter.
Qed.

Lemma iframe_unmarked s s1 addrs : unmarked sb ds s s1 (owns s addrs) → iframe sb ds s s1 addrs zero_addrs.
Proof.
  intros [Hb Hk Hbit Hlg]. split; [done|..].
  - intros b Hd. rewrite Hbit by done. split; [by left|]. intros [?|[]%owns_zero]; done.
  - intros b _ _ _. apply owns_zero.
  - intros b Hd _ _. apply Hk. unfold is_data in Hd. pose proof (layout_bounds _ _ (fb_layout _ _ _ Hb)). lia.
  - intros b _ Hne. by apply Hk.
Qed.

Lemma itrunc_inv s ip i :
  fs_inv s → cached s ip i →
  ∃ s', itrunc ip s = Ok s' ∧ fs_inv s' ∧ cached s' ip (truncated i) ∧
    f_icache s' = <[ip := truncated i]> (f_icache s) ∧
    (∀ j, inode_no j → j ≠ i_inum i → file s' j = file s j) ∧
    (∀ x, x ∈ f_logged s' → x ∈ f_logged s ∨ x = sb_bmapstart sb ∨ x = IBLOCK (i_inum i) sb).
Proof.
  intros Hinv Hca. pose proof Hinv as [Hd Hc]. pose proof Hca as [He Hr Hv].
  destruct (cached_facts sb ds s ip i Hinv Hca) as (Hno & Hty & Hdi & Hadr & Hwf & Hw & _).
  destruct (itrunc_spec sb ds s ip i) as (s1 & Hum & Hic & Htr); [apply Hd|exact He|exact Hw|exact Hno|exact Hwf|].
  destruct (entry_alter s s1 ip i truncated He Hic) as [_ Hset].
  assert (wf_dinode (to_dinode (truncated i))) as Hwft.
  { destruct Hwf as [H1 H2 H3 H4 H5 H6 H7]. split; [exact H1|exact H2|exact H3|exact H4|done|done|].
    apply Forall_replicate. done. }
  destruct (store_spec sb ds s s1 ip i (truncated i)) as (s' & Hup & Hs' & Hinv' & Hca' & _ & Hoth);
    [done|done|done|done|done|done|done| |done|].
  - split; [done|rewrite Hadr; by apply iframe_unmarked|apply iwf_zero|done|by rewrite decide_False|].
    intros _. split; [apply Nat.le_0_l|]. intros n _ Hn. exfalso. apply (Nat.nlt_0_r _ Hn).
  - exists s'. rewrite Htr, <-Hs'. split_and!; try done.
    + rewrite Hs'. exact Hset.
    + intros x Hx. rewrite Hs' in Hx. apply logged_lw in Hx as [Hx| ->]; [|auto].
      destruct (um_logged _ _ _ _ _ Hum x Hx); auto.
Qed.

(** Marking an empty inode free. *)
Lemma free_inode s ip i :
  fs_inv s → cached s ip i → i_addrs i = zero_addrs → i_size i = 0 →
  ∃ s', iupdate ip (updi (λ x, x <| i_type := 0 |>) ip s) = Ok s' ∧ disk_inv s' ∧
    f_icache s' = <[ip := i <| i_type := 0 |>]> (f_icache s) ∧ file s' (i_inum i) = None ∧
    (∀ j, inode_no j → j ≠ i_inum i → file s' j = file s j ∧ dino s' j = dino s j) ∧
    (∀ x, x ∈ f_logged s' → x ∈ f_logged s ∨ x = IBLOCK (i_inum i) sb).
Proof.
  intros Hinv Hca Ha Hsz. pose proof Hinv as [Hd Hc]. pose proof Hca as [He Hr Hv].
  destruct (cached_facts sb ds s ip i Hinv Hca) as (Hno & Hty & Hdi & Hadr & Hwf & _).
  set (s1 := updi _ ip s). assert (disk_inv s1) as Hd1 by exact (same_disk_inv _ _ (same_disk_updi _ ip s) Hd).
  set (i' := i <| i_type := 0 |>). assert (f_icache s1 !! ip = Some i') as Hi' by (by apply updi_lookup).
  assert (wf_dinode (to_dinode i')) as Hwf'.
  { destruct Hwf as [H1 H2 H3 H4 H5 H6 H7]. split; [done|exact H2|exact H3|exact H4|exact H5|exact H6|exact H7]. }
  assert (addrs_of sb s1 (i_inum i) = zero_addrs) as Hz by (rewrite <-Ha; exact Hadr).
  assert (update sb ds s1 s1 (i_inum i) zero_addrs (to_dinode i')) as Hup.
  { split; [done| |apply iwf_zero|done|done|done]. rewrite Hz. apply iframe_refl; [apply Hd1|apply iwf_zero]. }
  pose proof (written_put sb ds s1 (i_inum i) (to_dinode i') (di_base _ _ _ Hd1) Hno Hwf') as Hwn.
  exists (put s1 (i_inum i) (to_dinode i')). split_and!.
  - apply (iupdate_Ok sb ds s1 ip i'); [apply Hd1|done..].
  - by apply (update_inv sb ds s1 s1 _ (i_inum i) zero_addrs (to_dinode i')).
  - exact (proj2 (entry_alter s s1 ip i _ He eq_refl)).
  - by rewrite (update_file_self sb ds s1 s1 _ (i_inum i) zero_addrs (to_dinode i')).
  - intros j Hj Hne. split.
    + by rewrite (update_file sb ds s1 s1 _ (i_inum i) zero_addrs (to_dinode i')).
    + by rewrite (update_other sb ds s1 s1 _ (i_inum i) zero_addrs (to_dinode i')).
  - intros x [Hx| ->]%logged_lw; auto.
Qed.

(** Dropping the last reference to an inode without links frees it. *)
Lemma iput_free s ip i :
  fs_inv s → cached s ip i → i_locked i = false → i_nlink i = 0 → i_ref i = 1 →
  ∃ s' i', iput ip s = Ok s' ∧ fs_inv s' ∧ file s' (i_inum i) = None ∧
    (∀ j, inode_no j → j ≠ i_inum i → file s' j = file s j) ∧
    f_icache s' = <[ip := i']> (f_icache s) ∧ i_ref i' = 0 ∧ i_locked i' = false ∧
    (∀ x, x ∈ f_logged s' → x ∈ f_logged s ∨ x = sb_bmapstart sb ∨ x = IBLOCK (i_inum i) sb).
Proof.
  intros Hinv Hca Hl Hnl Hrf. pose proof Hinv as [Hd Hc]. pose proof Hca as [He Hr Hv].
  unfold iput, acquiresleep. rewrite (proj2 (geti_Ok _ _ _) He), bind_ret, Hl, bind_ret.
  set (il := i <| i_locked := true |>). set (s1 := updi _ ip s).
  destruct (cache_touch s ip i (λ i, i <| i_locked := true |>)) as [Hinv1 Hi1]; [done|done|done|done|done|cbn; lia|..].
  { cbn. intros _. by apply (ci_valid _ _ Hc ip i). }
  fold s1 il in Hinv1, Hi1. rewrite (proj2 (geti_Ok _ _ _) Hi1), bind_ret, decide_True by done.
  destruct (itrunc_inv s1 ip il) as (s2 & -> & Hinv2 & Hca2 & Hic2 & Hoth2 & Hlg2); [done|by split|].
  rewrite bind_ret.
  destruct (free_inode s2 ip (truncated il)) as (s3 & -> & Hd3 & Hic3 & Hf3 & Hoth3 & Hlg3); [done..|].
  rewrite !bind_ret. unfold releasesleep. rewrite !updi_updi. set (f := compose _ _).
  set (i3 := truncated il <| i_type := 0 |>) in *.
  assert (f_icache (updi f ip s3) = <[ip := f i3]> (f_icache s2)) as Hic4.
  { unfold updi. cbn. by rewrite Hic3, alter_insert_at. }
  assert (cache_inv (updi f ip s3)) as Hc4.
  { apply (cache_update sb s2 _ ip (truncated il) (f i3)); [apply Hinv2|split; [apply Hca2|done]|done|done|done| | |].
    - cbn. lia.
    - intros j Hj Hne. by apply Hoth3.
    - cbn. lia. }
  exists (updi f ip s3), (f i3). split_and!; [done|split; [|done]|..].
  - exact (same_disk_inv _ _ (same_disk_updi f ip s3) Hd3).
  - exact Hf3.
  - intros j Hj Hne. change (file (updi f ip s3) j) with (file s3 j). rewrite (proj1 (Hoth3 j Hj Hne)).
    rewrite Hoth2 by done. done.
  - rewrite Hic4, Hic2. unfold s1, updi. cbn. rewrite list_insert_insert_eq.
    apply list_eq. intros k. destruct (decide (k = ip)) as [->|Hne].
    + rewrite !list_lookup_insert_eq; [done|..]; rewrite ?length_alter; by eapply lookup_lt_Some.
    + by rewrite !list_lookup_insert_ne, list_lookup_alter_ne by done.
  - cbn. lia.
  - done.
  - intros x Hx. destruct (Hlg3 x Hx) as [Hx2|?]; [|auto]. by apply Hlg2 in Hx2.
Qed.

(** ** [ialloc] *)

Definition new_dinode (type : Z) : dinode := mkdinode type 0 0 0 0 zero_addrs.

Lemma new_dinode_wf type : short type → wf_dinode (new_dinode type).
Proof. intros Ht. split; try done. apply Forall_replicate. done. Qed.

Lemma i16_zero x : 0 ≤ x < 2 ^ 16 → i16 x = 0 ↔ x = 0.
Proof.
  intros Hx. unfold i16. split; [|by intros ->]. intros Hm.
  destruct (decide (x < 2 ^ 15)); [rewrite Z.mod_small in Hm; lia|].
  rewrite (Z.mod_eq _ (2 ^ 16)) in Hm by lia. replace ((x + 2 ^ 15) / 2 ^ 16) with 1 in Hm; [lia|].
  apply Z.div_unique with (x + 2 ^ 15 - 2 ^ 16); lia.
Qed.

(** What [ialloc] reads to see whether inode [inum] is free. *)
Lemma dino_type_word s inum :
  blocks_ok s →
  get_le 2 (blk s (IBLOCK inum sb)) (dinode_off inum) = Ok (word_at (blk s (IBLOCK inum sb)) (dino_off inum) 2) ∧
  (word_at (blk s (IBLOCK inum sb)) (dino_off inum) 2 = 0 ↔ di_type (dino s inum) = 0).
Proof.
  intros Hs. set (d := blk s (IBLOCK inum sb)). pose proof (dino_off_bound inum) as Hb.
  pose proof (Hs (IBLOCK inum sb)) as [Hl Hf]. fold d in Hl, Hf. rewrite dino_off_Z. split.
  - apply get_le_Ok. rewrite Hl. lia.
  - unfold InodeSpec.dino, decode. fold d. cbn [di_type]. rewrite word_at_slice by lia. rewrite Nat.add_0_r.
    symmetry. apply i16_zero. unfold word_at. pose proof (le_val_range (slice (dino_off inum) 2 d)) as Hr.
    rewrite slice_length in Hr by lia. apply Hr. by apply Forall_slice.
Qed.

(** Clearing an inode and setting its type writes a fresh inode. *)
Lemma fresh_inode_bytes d inum type :
  wf_block d → short type →
  (d1 ← memset d (dinode_off inum) 0 64; put_le 2 d1 (dinode_off inum) (u16 type)) =
  Ok (list_inserts (dino_off inum) (encode (new_dinode type)) d).
Proof.
  intros [Hl _] Ht. pose proof (dino_off_bound inum) as Hb. rewrite dino_off_Z.
  rewrite memset_spec by (rewrite Hl; lia). rewrite bind_ret. change (u8 0) with 0.
  rewrite put_le_Ok by (rewrite length_inserts, Hl; lia). f_equal.
  assert (encode (new_dinode type) = le_bytes 2 (u16 type) ++ replicate 62 0) as -> by reflexivity.
  set (o := dino_off inum) in *. clearbody o.
  apply list_eq. intros k. pose proof (le_bytes_length 2 (u16 type)) as H2.
  destruct (decide (k < o)%nat). { by rewrite !list_lookup_inserts_lt by lia. }
  destruct (decide (k < o + 2)%nat).
  { rewrite !list_lookup_inserts by (rewrite ?length_app, ?length_inserts, ?H2, ?length_replicate, ?Hl; lia).
    by rewrite lookup_app_l by (rewrite H2; lia). }
  rewrite list_lookup_inserts_ge by (rewrite H2; lia).
  destruct (decide (k < o + 64)%nat).
  - rewrite !list_lookup_inserts by (rewrite ?length_app, ?H2, ?length_replicate, ?Hl; lia).
    rewrite lookup_app_r by (rewrite H2; lia). rewrite H2, !lookup_replicate_2 by lia. done.
  - by rewrite !list_lookup_inserts_ge by (rewrite ?length_app, ?H2, ?length_replicate; lia).
Qed.

Lemma ialloc_loop_spec n inum0 type s :
  base s → short type → 1 ≤ inum0 → inum0 + Z.of_nat n = sb_ninodes sb →
  (∃ inum, inum0 ≤ inum ∧ inode_no inum ∧ di_type (dino s inum) = 0) →
  ∃ inum, inode_no inum ∧ inum0 ≤ inum ∧ di_type (dino s inum) = 0 ∧
    (∀ j, inum0 ≤ j < inum → di_type (dino s j) ≠ 0) ∧
    ialloc_loop n inum0 ROOTDEV type s = iget ROOTDEV inum (put s inum (new_dinode type)).
Proof.
  intros Hs Ht. revert inum0. induction n as [|n IH]; intros inum0 H1 Hn (inum & Hge & Hno & Hfree).
  { unfold InodeSpec.inode_no in Hno. lia. }
  cbn [ialloc_loop]. rewrite (fb_sb _ _ _ Hs).
  assert (inode_no inum0) as Hno0 by (unfold InodeSpec.inode_no in *; lia).
  destruct (IBLOCK_range sb ds inum0 (fb_layout _ _ _ Hs) Hno0) as (_ & ? & ?).
  rewrite rd_Ok by lia. rewrite bind_ret.
  destruct (dino_type_word s inum0 (fb_blocks _ _ _ Hs)) as [-> Hz]. rewrite bind_ret. case_decide as Hty.
  - exists inum0. split_and!; [done|lia|by apply Hz|lia|].
    pose proof (fresh_inode_bytes (blk s (IBLOCK inum0 sb)) inum0 type (fb_blocks _ _ _ Hs _) Ht) as Hfb.
    apply bind_Ok in Hfb as (d1 & -> & Hd2). rewrite bind_ret, Hd2, bind_ret. done.
  - destruct (IH (inum0 + 1)) as (k & Hk & Hge' & Hf & Hall & ->); [lia|lia| |].
    + exists inum. split_and!; [|done|done]. destruct (decide (inum = inum0)) as [->|]; [|lia].
      by destruct Hty; apply Hz.
    + exists k. split_and!; [done|lia|done| |done]. intros j Hj.
      destruct (decide (j = inum0)) as [->|]; [intros Hj0; by apply Hty, Hz|apply Hall; lia].
Qed.

Lemma ialloc_spec s type :
  fs_inv s → short type → type ≠ 0 → (∃ inum, inode_no inum ∧ file s inum = None) →
  (∃ ip i, f_icache s !! ip = Some i ∧ i_ref i = 0) →
  ∃ ip inum s1 s', ialloc ROOTDEV type s = Ok (ip, s') ∧ inode_no inum ∧ file s inum = None ∧
    (∀ j, 1 ≤ j < inum → file s j ≠ None) ∧
    file s' inum = Some (mkafile type 0 0 0 []) ∧
    (∀ j, inode_no j → j ≠ inum → file s' j = file s j) ∧
    s1 = put s inum (new_dinode type) ∧ fs_inv s1 ∧ gotten s1 s' ip inum.
Proof.
  intros Hinv Ht Hnz (inum0 & Hno0 & Hfree) Hroom. pose proof Hinv as [Hd Hc]. pose proof (di_base _ _ _ Hd) as Hb.
  assert (∀ j, file s j = None ↔ di_type (dino s j) = 0) as Hnone.
  { intros j. unfold FsInv.file. by case_decide. }
  pose proof (ly_ninodes _ _ (fb_layout _ _ _ Hb)) as Hni.
  destruct (ialloc_loop_spec (Z.to_nat (sb_ninodes sb - 1)) 1 type s) as (inum & Hno & _ & Hz & Hall & Heq); try done.
  { lia. } { exists inum0. rewrite <-Hnone. split_and!; [|done|done]. unfold InodeSpec.inode_no in Hno0. lia. }
  pose proof (new_dinode_wf type Ht) as Hwf.
  assert (addrs_of sb s inum = zero_addrs) as Hza by (unfold addrs_of; by rewrite decide_True).
  assert (update sb ds s s inum zero_addrs (new_dinode type)) as Hup.
  { split; [done| |apply iwf_zero|done|by rewrite decide_False|].
    - rewrite Hza. apply iframe_refl; [done|apply iwf_zero].
    - intros _. split; [apply Nat.le_0_l|]. intros n _ Hn. exfalso. apply (Nat.nlt_0_r _ Hn). }
  pose proof (written_put sb ds s inum (new_dinode type) Hb Hno Hwf) as Hwn.
  set (s1 := put s inum (new_dinode type)) in *.
  assert (fs_inv s1) as Hinv1.
  { split; [by apply (update_inv sb ds s s s1 inum zero_addrs (new_dinode type))|].
    destruct Hc as [Hl Hr Hu Hv Hq]. split; try done. intros ip i Hi Hri Hvi.
    destruct (Hv ip i Hi Hri Hvi) as [Hty Heqd]. split; [done|]. rewrite Heqd. symmetry.
    apply (wn_other _ _ _ _ _ _ Hwn); [by apply (Hu ip i)|]. intros Hei.
    apply Hty. change (i_type i) with (di_type (to_dinode i)). by rewrite Heqd, Hei. }
  destruct (iget_spec s1 inum Hinv1 Hno) as (ip & s' & Hg & Hgot).
  { destruct Hroom as (ip & i & Hi & H0). exists ip, i. split; [exact Hi|by left]. }
  exists ip, inum, s1, s'. split_and!; try done.
  - unfold ialloc. rewrite (fb_sb _ _ _ Hb), Heq. exact Hg.
  - by apply Hnone.
  - intros j Hj. rewrite Hnone. by apply Hall.
  - rewrite (proj1 (same_disk_file s1 s' inum (gt_disk _ _ _ _ Hgot))).
    rewrite (update_file_self sb ds s s s1 inum zero_addrs (new_dinode type)) by done. by rewrite decide_False.
  - intros j Hj Hne. rewrite (proj1 (same_disk_file s1 s' j (gt_disk _ _ _ _ Hgot))).
    by apply (update_file sb ds s s s1 inum zero_addrs (new_dinode type)).
Qed.
End cache.
