(* ===== verification/FsDir.v ===== *)
(** * Directories and path names: [fs.c]

    A directory is a file of 16-byte entries (a 2-byte inode number and
    [DIRSIZ] bytes of name).  A path is the list of the bytes from its address
    on, terminated by a NUL. *)

From stdpp Require Import gmap.
From S2P Require Import Prelude.
From S2P Require Import Bytes.
From S2P Require Import CString.
From S2P Require Import Log.
From S2P Require Import Fs.

Local Open Scope Z_scope.

Definition DIRSIZ : nat := 14.
Definition DIRENT : nat := 16.          (* sizeof(struct dirent) *)

Definition namecmp (s t : list Z) : outcome Z := strncmp s t DIRSIZ.

Section dirs.
Context (devs : list devsw).

(** [readi(dp, &de, off, sizeof(de))] that must return the whole entry. *)
Definition read_dirent (msg : string) (dp : nat) (off : Z) (s : fstate) : outcome (list Z * fstate) :=
  '(r, de, s1) ← readi devs dp off (Z.of_nat DIRENT) s;
  if decide (r ≠ Z.of_nat DIRENT) then Panic msg else Ok (de, s1).

(** The loop of [dirlookup]: the offset and inode number of the entry. *)
Fixpoint dirlookup_loop (fuel : nat) (dp : nat) (name : list Z) (off : Z) (s : fstate)
    : outcome (option (Z * Z) * fstate) :=
  dino ← geti s dp;
  if decide (off < i_size dino) then
    match fuel with
    | O => Fault "fuel"
    | S fuel' =>
        '(de, s1) ← read_dirent "dirlookup read" dp off s;
        inum ← get_le 2 de 0;
        if decide (inum = 0) then dirlookup_loop fuel' dp name (u32 (off + Z.of_nat DIRENT)) s1
        else
          c ← namecmp name (drop 2 de);
          if decide (c = 0) then Ok (Some (off, inum), s1)
          else dirlookup_loop fuel' dp name (u32 (off + Z.of_nat DIRENT)) s1
    end
  else Ok (None, s).

(** At most [MAXFILE * BSIZE / 16] entries fit into a directory. *)
Definition MAXDIRENT : nat := 4480.

(** The inode found and the offset stored to [*poff]. *)
Definition dirlookup (dp : nat) (name : list Z) (s : fstate) : outcome (option (nat * Z) * fstate) :=
  di ← geti s dp;
  if decide (i_type di ≠ T_DIR) then Panic "dirlookup not DIR"
  else
    '(r, s1) ← dirlookup_loop MAXDIRENT dp name 0 s;
    match r with
    | Some (off, inum) =>
        '(ip, s2) ← iget (i_dev di) inum s1;
        Ok (Some (ip, off), s2)
    | None => Ok (None, s1)
    end.

(** The search of [dirlink] for an empty entry: the offset to write at. *)
Fixpoint dirlink_loop (fuel : nat) (dp : nat) (off : Z) (s : fstate) : outcome (Z * fstate) :=
  dino ← geti s dp;
  if decide (off < i_size dino) then
    match fuel with
    | O => Fault "fuel"
    | S fuel' =>
        '(de, s1) ← read_dirent "dirlink read" dp off s;
        inum ← get_le 2 de 0;
        if decide (inum = 0) then Ok (off, s1)
        else dirlink_loop fuel' dp (off + Z.of_nat DIRENT) s1
    end
  else Ok (off, s).

Definition dirlink (dp : nat) (name : list Z) (inum : Z) (s : fstate) : outcome (Z * fstate) :=
  '(r, s1) ← dirlookup dp name s;
  match r with
  | Some (ip, _) => s2 ← iput ip s1; Ok (-1, s2)
  | None =>
      '(off, s2) ← dirlink_loop MAXDIRENT dp 0 s1;
      nm ← strncpy name DIRSIZ;
      '(r, s3) ← writei devs dp (le_bytes 2 (u16 inum) ++ nm) off (Z.of_nat DIRENT) s2;
      if decide (r ≠ Z.of_nat DIRENT) then Panic "dirlink" else Ok (0, s3)
  end.

(** ** Paths *)

(** The loops that skip slashes. *)
Fixpoint skip_slashes (path : list Z) : list Z :=
  match path with
  | c :: path' => if decide (c = 47) then skip_slashes path' else path
  | [] => []
  end.

(** The loop that skips to the next slash or NUL: the element and what follows. *)
Fixpoint skip_name (path : list Z) : list Z * list Z :=
  match path with
  | c :: path' =>
      if decide (c = 47 ∨ c = 0) then ([], path)
      else let '(e, rest) := skip_name path' in (c :: e, rest)
  | [] => ([], [])
  end.

(** What [skipelem] stores to [name] when it holds [old]. *)
Definition store_name (e old : list Z) : outcome (list Z) :=
  if decide (DIRSIZ ≤ length e)%nat then bstore old 0 (take DIRSIZ e)
  else n1 ← bstore old 0 e; bstore n1 (Z.of_nat (length e)) [0].

(** [None] when no name is left, else the rest of the path and [name]. *)
Definition skipelem (path name : list Z) : outcome (option (list Z * list Z)) :=
  let p1 := skip_slashes path in
  c ← aget p1 0;
  if decide (c = 0) then Ok None
  else
    let '(e, p2) := skip_name p1 in
    _ ← aget p2 0;
    name' ← store_name e name;
    let p3 := skip_slashes p2 in
    _ ← aget p3 0;
    Ok (Some (p3, name')).

(** The loop of [namex]; the result is the inode or a null pointer, and [name]. *)
Fixpoint namex_loop (fuel : nat) (ip : nat) (path : list Z) (nameiparent : bool) (name : list Z) (s : fstate)
    : outcome (option nat * list Z * fstate) :=
  match fuel with
  | O => Fault "fuel"
  | S fuel' =>
      r ← skipelem path name;
      match r with
      | None =>
          if nameiparent then s1 ← iput ip s; Ok (None, name, s1) else Ok (Some ip, name, s)
      | Some (path', name') =>
          s1 ← ilock ip s;
          i ← geti s1 ip;
          if decide (i_type i ≠ T_DIR) then s2 ← iunlockput ip s1; Ok (None, name', s2)
          else
            c ← aget path' 0;
            if decide (nameiparent = true ∧ c = 0) then s2 ← iunlock ip s1; Ok (Some ip, name', s2)
            else
              '(r, s2) ← dirlookup ip name' s1;
              match r with
              | None => s3 ← iunlockput ip s2; Ok (None, name', s3)
              | Some (next, _) =>
                  s3 ← iunlockput ip s2;
                  namex_loop fuel' next path' nameiparent name' s3
              end
      end
  end.

(** [cwd] is [myproc()->cwd]; every iteration consumes a character of the path. *)
Definition namex (cwd : nat) (path : list Z) (nameiparent : bool) (name : list Z) (s : fstate)
    : outcome (option nat * list Z * fstate) :=
  c ← aget path 0;
  '(ip, s1) ← (if decide (c = 47) then iget ROOTDEV ROOTINO s else Ok (idup cwd s));
  namex_loop (S (length path)) ip path nameiparent name s1.

(** [char name[DIRSIZ];] on the stack of [namei]; its content is never read. *)
Definition namei (cwd : nat) (path : list Z) (s : fstate) : outcome (option nat * fstate) :=
  '(r, _, s1) ← namex cwd path false (replicate DIRSIZ 0) s; Ok (r, s1).
Definition nameiparent (cwd : nat) (path name : list Z) (s : fstate) : outcome (option nat * list Z * fstate) :=
  namex cwd path true name s.
End dirs.
