(* ===== verification/DirSpec.v ===== *)
(** * What directories and path names mean

    A directory is a finite map from names (at most [DIRSIZ] characters) to
    inode numbers: [dlookup].  [dirlookup] reads it, [dirlink] extends it, and
    [skipelem] splits a path into such names. *)

From stdpp Require Import gmap.
From S2P Require Import Prelude.
From S2P Require Import Bytes.
From S2P Require Import CString.
From S2P Require Import Log.
From S2P Require Import Fs.
From S2P Require Import FsDir.
From S2P Require Import FsSpec.
From S2P Require Import FileSpec.
From S2P Require Import FileRw.
From S2P Require Import InodeSpec.
From S2P Require Import TruncSpec.
From S2P Require Import FsInv.
From S2P Require Import FsOps.
From S2P Require Import CacheSpec.

Local Open Scope Z_scope.

(** ** Directory entries *)

Definition dent_inum (e : list Z) : Z := le_val (slice 0 2 e).
(** The name that is significant: at most [DIRSIZ] characters. *)
Definition dname (name : list Z) : list Z := take DIRSIZ (cstr name).
Definition dent_name (e : list Z) : list Z := dname (drop 2 e).

Definition entry (data : list Z) (k : nat) : list Z := slice (DIRENT * k) DIRENT data.
Definition nentries (data : list Z) : nat := (length data / DIRENT)%nat.

#[global] Arguments entry : simpl never.
#[global] Arguments dent_inum : simpl never.
#[global] Arguments dent_name : simpl never.

Definition is_entry (nm : list Z) (e : list Z) : Prop := dent_inum e ≠ 0 ∧ dent_name e = nm.
#[export] Instance is_entry_dec nm e : Decision (is_entry nm e).
Proof. unfold is_entry. apply _. Defined.

Lemma dent_get e : length e = DIRENT → get_le 2 e 0 = Ok (dent_inum e).
Proof. intros He. apply (get_le_Ok 2 e 0). rewrite He. unfold DIRENT. lia. Qed.

(** The first entry with name [nm] among the [n] from index [k] on. *)
Fixpoint dfind (data : list Z) (nm : list Z) (n k : nat) : option nat :=
  match n with
  | O => None
  | S n' => if decide (is_entry nm (entry data k)) then Some k else dfind data nm n' (S k)
  end.

(** The directory as a map. *)
Definition dlookup (data : list Z) (nm : list Z) : option Z :=
  (λ k, dent_inum (entry data k)) <$> dfind data nm (nentries data) 0.

(** The first unused entry among the [n] from index [k] on, or the end. *)
Fixpoint dfree (data : list Z) (n k : nat) : nat :=
  match n with
  | O => k
  | S n' => if decide (dent_inum (entry data k) = 0) then k else dfree data n' (S k)
  end.

Lemma dfind_Some data nm n k j :
  dfind data nm n k = Some j →
  (k ≤ j < k + n)%nat ∧ is_entry nm (entry data j) ∧ ∀ m, (k ≤ m < j)%nat → ¬ is_entry nm (entry data m).
Proof.
  revert k. induction n as [|n IH]; intros k; cbn; [done|]. case_decide as He.
  - intros [= <-]. split_and!; [lia|lia|done|]. intros m Hm. lia.
  - intros Hf. destruct (IH _ Hf) as (? & ? & Hno). split_and!; [lia|lia|done|]. intros m Hm.
    destruct (decide (m = k)) as [->|]; [done|]. apply Hno. lia.
Qed.

Lemma dfind_None data nm n k :
  dfind data nm n k = None ↔ ∀ m, (k ≤ m < k + n)%nat → ¬ is_entry nm (entry data m).
Proof.
  revert k. induction n as [|n IH]; intros k; cbn; [split; [intros _ m; lia|done]|].
  case_decide as He.
  - split; [done|]. intros Hno. destruct (Hno k); [lia|done].
  - rewrite IH. split; intros Hno m Hm; [|apply Hno; lia].
    destruct (decide (m = k)) as [->|]; [done|]. apply Hno. lia.
Qed.

Lemma dfind_first data nm n k j :
  (k ≤ j < k + n)%nat → is_entry nm (entry data j) → (∀ m, (k ≤ m < j)%nat → ¬ is_entry nm (entry data m)) →
  dfind data nm n k = Some j.
Proof.
  revert k. induction n as [|n IH]; intros k Hj He Hno; [lia|]. cbn. case_decide as Hk.
  - destruct (decide (k = j)) as [->|]; [done|]. destruct (Hno k); [lia|done].
  - apply IH; [|done|intros m Hm; apply Hno; lia]. destruct (decide (k = j)) as [->|]; [done|lia].
Qed.

Lemma dfree_spec data n k :
  (k ≤ dfree data n k ≤ k + n)%nat ∧
  ((dfree data n k < k + n)%nat → dent_inum (entry data (dfree data n k)) = 0) ∧
  ∀ m, (k ≤ m < dfree data n k)%nat → dent_inum (entry data m) ≠ 0.
Proof.
  revert k. induction n as [|n IH]; intros k; cbn [dfree]; [split; [lia|split; intros; lia]|].
  case_decide as H0; [split; [lia|split; [done|intros; lia]]|].
  destruct (IH (S k)) as (? & Hz & Hnz). split; [lia|]. split; [intros; apply Hz; lia|].
  intros m Hm. destruct (decide (m = k)) as [->|]; [done|]. apply Hnz. lia.
Qed.

(** ** Writing an entry *)

Lemma entry_overwrite data e k m :
  length e = DIRENT → length data = (DIRENT * nentries data)%nat → (k ≤ nentries data)%nat →
  (m < Nat.max (nentries data) (S k))%nat →
  entry (overwrite (DIRENT * k) e data) m = if decide (m = k) then e else entry data m.
Proof.
  intros He Hl Hk Hm. unfold entry. apply list_eq. intros i.
  assert (length (overwrite (DIRENT * k) e data) = Nat.max (length data) (DIRENT * k + DIRENT)) as Hlo.
  { rewrite overwrite_length by (unfold DIRENT in *; lia). by rewrite He. }
  destruct (decide (i < DIRENT)%nat) as [Hi|Hi].
  - rewrite slice_lookup by done. rewrite overwrite_lookup by (rewrite ?He; unfold DIRENT in *; lia). rewrite He.
    destruct (decide (m = k)) as [->|Hne].
    + rewrite decide_True by lia. f_equal. lia.
    + rewrite decide_False by (unfold DIRENT in *; lia). by rewrite slice_lookup.
  - rewrite lookup_ge_None_2; [|rewrite slice_length; unfold DIRENT in *; lia].
    case_decide; [rewrite lookup_ge_None_2 by lia; done|].
    rewrite lookup_ge_None_2; [done|]. rewrite slice_length; unfold DIRENT in *; lia.
Qed.

Lemma nentries_overwrite data e k :
  length e = DIRENT → length data = (DIRENT * nentries data)%nat → (k ≤ nentries data)%nat →
  nentries (overwrite (DIRENT * k) e data) = Nat.max (nentries data) (S k) ∧
  length (overwrite (DIRENT * k) e data) = (DIRENT * Nat.max (nentries data) (S k))%nat.
Proof.
  intros He Hl Hk.
  assert (length (overwrite (DIRENT * k) e data) = (DIRENT * Nat.max (nentries data) (S k))%nat) as Hlen.
  { rewrite overwrite_length by (unfold DIRENT in *; lia). rewrite He. unfold DIRENT in *. lia. }
  split; [|done]. unfold nentries at 1. rewrite Hlen. rewrite Nat.mul_comm. by apply Nat.div_mul.
Qed.

(** The 16 bytes [dirlink] writes. *)
Definition dirent (inum : Z) (nm : list Z) : list Z := le_bytes 2 (u16 inum) ++ nm.

Lemma dirent_fields inum name nm :
  nm = take DIRSIZ (cstr name) ++ replicate (DIRSIZ - length (cstr name)) 0 →
  length (dirent inum nm) = DIRENT ∧ dent_inum (dirent inum nm) = u16 inum ∧ dent_name (dirent inum nm) = dname name.
Proof.
  intros ->. unfold dirent, dent_inum, dent_name. split_and!.
  - rewrite !length_app, le_bytes_length, length_take, length_replicate. unfold DIRENT, DIRSIZ. lia.
  - rewrite slice_app_l by (rewrite le_bytes_length; lia).
    rewrite <-(le_bytes_length 2 (u16 inum)) at 1. rewrite slice_all. apply le_val_bytes. apply u16_range.
  - rewrite drop_app_ge by (rewrite le_bytes_length; lia). rewrite le_bytes_length, Nat.sub_diag, drop_0.
    unfold dname. rewrite cstr_app by (apply Forall_take, cstr_nonzero). rewrite cstr_zeros, app_nil_r.
    by rewrite take_take_le.
Qed.

(** [dirlink] extends the map by one name. *)
Lemma dlookup_link data e nm :
  length data = (DIRENT * nentries data)%nat → length e = DIRENT → dent_inum e ≠ 0 → dent_name e = nm →
  dlookup data nm = None →
  ∀ nm', dlookup (overwrite (DIRENT * dfree data (nentries data) 0) e data) nm' =
    if decide (nm' = nm) then Some (dent_inum e) else dlookup data nm'.
Proof.
  intros Hl He Hi Hn Hnone nm'. set (n := nentries data) in *. set (k := dfree data n 0).
  destruct (dfree_spec data n 0) as (Hk & Hk0 & Hkn). fold k in Hk, Hk0, Hkn. clearbody k.
  set (data' := overwrite (DIRENT * k) e data).
  destruct (nentries_overwrite data e k He Hl) as [Hn' _]; [lia|]. fold data' n in Hn'.
  assert (∀ m, (m < Nat.max n (S k))%nat → entry data' m = if decide (m = k) then e else entry data m) as Hent.
  { intros m Hm. apply entry_overwrite; [done|done|lia|done]. }
  assert (∀ x m, (m < n)%nat → m = k → ¬ is_entry x (entry data m)) as Hfree.
  { intros x m Hm -> [H0 _]. apply H0. apply Hk0. lia. }
  unfold dlookup in Hnone |- *. fold n in Hnone |- *. rewrite Hn'. apply fmap_None in Hnone.
  rewrite dfind_None in Hnone. case_decide as Hnm.
  - subst nm'. rewrite (dfind_first data' nm _ 0 k).
    + change (Some (dent_inum (entry data' k)) = Some (dent_inum e)). rewrite Hent by lia. by rewrite decide_True.
    + lia.
    + rewrite Hent by lia. rewrite decide_True by done. by split.
    + intros m Hm. rewrite Hent by lia. rewrite decide_False by lia. apply Hnone. lia.
  - assert (∀ m, (m < Nat.max n (S k))%nat → is_entry nm' (entry data' m) ↔ (m < n)%nat ∧ is_entry nm' (entry data m)) as Hiff.
    { intros m Hm. rewrite Hent by done. case_decide as Hmk.
      - split; [intros [_ ?]; congruence|]. intros [Hmn Hx]. by destruct (Hfree nm' m Hmn Hmk).
      - split; [split; [lia|done]|by intros [_ ?]]. }
    destruct (dfind data nm' n 0) as [j|] eqn:Hf.
    + destruct (dfind_Some _ _ _ _ _ Hf) as (Hj & Hej & Hno). rewrite (dfind_first data' nm' _ 0 j).
      * change (Some (dent_inum (entry data' j)) = Some (dent_inum (entry data j))).
        rewrite Hent by lia. case_decide as Hjk; [|done]. by destruct (Hfree nm' j ltac:(lia) Hjk).
      * lia.
      * apply Hiff; [lia|]. split; [lia|done].
      * intros m Hm [_ Hx]%Hiff; [by apply (Hno m)|lia].
    + rewrite dfind_None in Hf. assert (dfind data' nm' (Nat.max n (S k)) 0 = None) as ->; [|done].
      apply dfind_None. intros m Hm [Hmn Hx]%Hiff; [|lia]. apply (Hf m); [lia|done].
Qed.

(** ** The operations *)

Section dirs.
Context (sb : superblock) (ds : Z) (devs : list devsw).
Notation base := (fs_base sb ds).
Notation inode_no := (inode_no sb).
Notation dino := (dino sb).
Notation file := (file sb).
Notation fs_inv := (fs_inv sb ds).
Implicit Types (s : fstate) (inum : Z) (ip dp : nat).

(** A locked directory and its entries. *)
Record dir s dp (i : inode) (data : list Z) : Prop := {
  dr_cached : cached s dp i;
  dr_type : i_type i = T_DIR;
  dr_file : af_data <$> file s (i_inum i) = Some data;
  dr_whole : length data = (DIRENT * nentries data)%nat
}.

Lemma dir_size s dp i data :
  fs_inv s → dir s dp i data → Z.to_nat (i_size i) = length data ∧ 0 ≤ i_size i ∧ (length data ≤ MAXBYTES)%nat.
Proof.
  intros Hinv [Hca Ht Hf _]. rewrite (cached_file sb ds s dp i Hinv Hca) in Hf. injection Hf as <-.
  destruct (cached_facts sb ds s dp i Hinv Hca) as (_ & _ & _ & _ & _ & _ & ? & _ & ?).
  by rewrite range_length.
Qed.

Lemma MAXBYTES_Z : Z.of_nat MAXBYTES = 71680.
Proof. unfold MAXBYTES, MAXFILE, BSIZE. lia. Qed.

Lemma read_dirent_spec s dp i data k msg :
  fs_inv s → dir s dp i data → (k < nentries data)%nat →
  read_dirent devs msg dp (Z.of_nat (DIRENT * k)) s = Ok (entry data k, s).
Proof.
  intros Hinv Hdir Hk. destruct (dir_size s dp i data Hinv Hdir) as (_ & _ & Hmax).
  pose proof MAXBYTES_Z as Hmz. destruct Hdir as [Hca Ht Hf Hw].
  destruct (file s (i_inum i)) as [f|] eqn:Hfile; [|done]. injection Hf as Hf. subst data.
  unfold read_dirent. rewrite (readi_spec sb ds devs s dp i (DIRENT * k) DIRENT f DIRENT); try done.
  - rewrite Ht. done.
  - unfold DIRENT in *. lia.
  - unfold DIRENT in *. lia.
  - unfold DIRENT in *. lia.
Qed.

Lemma dirlookup_loop_spec fuel s dp i data name k :
  fs_inv s → dir s dp i data → 0 ∈ name ∨ (DIRSIZ ≤ length name)%nat →
  (k ≤ nentries data)%nat → (nentries data - k ≤ fuel)%nat →
  dirlookup_loop devs fuel dp name (Z.of_nat (DIRENT * k)) s =
  Ok ((λ j, (Z.of_nat (DIRENT * j), dent_inum (entry data j))) <$> dfind data (dname name) (nentries data - k) k, s).
Proof.
  intros Hinv Hdir Hname. pose proof (dir_size s dp i data Hinv Hdir) as (Hsz & Hs0 & Hmax).
  pose proof MAXBYTES_Z as Hmz. pose proof (dr_whole _ _ _ _ Hdir) as Hw.
  pose proof (proj2 (geti_Ok _ _ _) (ca_entry _ _ _ (dr_cached _ _ _ _ Hdir))) as Hgi.
  revert k. induction fuel as [|fuel IH]; intros k Hk Hfuel.
  - assert (k = nentries data) as -> by lia. cbn [dirlookup_loop]. rewrite Hgi, bind_ret, decide_False by lia.
    by rewrite Nat.sub_diag.
  - cbn [dirlookup_loop]. rewrite Hgi, bind_ret. destruct (decide (k = nentries data)) as [->|Hne].
    { rewrite decide_False by lia. by rewrite Nat.sub_diag. }
    rewrite decide_True by (unfold DIRENT in *; lia).
    rewrite (read_dirent_spec s dp i data k) by (done || lia). rewrite bind_ret.
    assert (length (entry data k) = DIRENT) as Hel by (apply slice_length; unfold DIRENT in *; lia).
    rewrite dent_get by done. rewrite bind_ret.
    replace (nentries data - k)%nat with (S (nentries data - S k)) by lia. cbn [dfind].
    rewrite u32_small by (unfold DIRENT in *; lia).
    replace (Z.of_nat (DIRENT * k) + Z.of_nat DIRENT) with (Z.of_nat (DIRENT * S k)) by (unfold DIRENT; lia).
    destruct (decide (dent_inum (entry data k) = 0)) as [H0|H0].
    + rewrite decide_False by (intros [? _]; done). apply IH; lia.
    + destruct (strncmp_eq DIRSIZ name (drop 2 (entry data k)) Hname) as (r & Hr & Heq).
      { right. rewrite length_drop, Hel. unfold DIRENT, DIRSIZ. lia. }
      unfold namecmp. rewrite Hr, bind_ret. destruct (decide (r = 0)) as [Hr0|Hr0].
      * rewrite decide_True; [done|]. split; [done|]. symmetry. by apply Heq.
      * rewrite decide_False; [apply IH; lia|]. intros [_ Hn]. apply Hr0, Heq. symmetry. exact Hn.
Qed.

Lemma nentries_max data : (length data ≤ MAXBYTES)%nat → (nentries data ≤ MAXDIRENT)%nat.
Proof.
  intros H. pose proof MAXBYTES_Z. unfold nentries, MAXDIRENT, DIRENT.
  assert (length data / 16 < 4481)%nat; [|lia]. apply Nat.Div0.div_lt_upper_bound. lia.
Qed.

(** [dirlookup] finds the first entry with the name. *)
Lemma dirlookup_at s dp i data name :
  fs_inv s → dir s dp i data → 0 ∈ name ∨ (DIRSIZ ≤ length name)%nat →
  dirlookup devs dp name s =
  match dfind data (dname name) (nentries data) 0 with
  | None => Ok (None, s)
  | Some k => '(ip, s') ← iget (i_dev i) (dent_inum (entry data k)) s; Ok (Some (ip, Z.of_nat (DIRENT * k)), s')
  end.
Proof.
  intros Hinv Hdir Hname. pose proof (dir_size s dp i data Hinv Hdir) as (_ & _ & Hmax).
  pose proof (proj2 (geti_Ok _ _ _) (ca_entry _ _ _ (dr_cached _ _ _ _ Hdir))) as Hgi.
  pose proof (dirlookup_loop_spec MAXDIRENT s dp i data name 0 Hinv Hdir Hname) as Hl.
  rewrite Nat.mul_0_r, Nat.sub_0_r in Hl. change (Z.of_nat 0) with 0 in Hl.
  specialize (Hl (Nat.le_0_l _) (nentries_max data Hmax)).
  unfold dirlookup. rewrite Hgi, bind_ret. rewrite decide_False by (rewrite (dr_type _ _ _ _ Hdir); auto).
  rewrite Hl, bind_ret. by destruct (dfind data (dname name) (nentries data) 0) as [j|].
Qed.

(** [dirlookup] looks the name up in the map and takes a reference. *)
Lemma dirlookup_spec s dp i data name :
  fs_inv s → dir s dp i data → 0 ∈ name ∨ (DIRSIZ ≤ length name)%nat →
  match dlookup data (dname name) with
  | None => dirlookup devs dp name s = Ok (None, s)
  | Some inum =>
      ∃ off, dirlookup devs dp name s =
        ('(ip, s') ← iget (i_dev i) inum s; Ok (Some (ip, off), s'))
  end.
Proof.
  intros Hinv Hdir Hname. pose proof (dirlookup_at s dp i data name Hinv Hdir Hname) as Hl. unfold dlookup.
  destruct (dfind data (dname name) (nentries data) 0) as [j|]; [|done]. by exists (Z.of_nat (DIRENT * j)).
Qed.

Lemma dirlink_loop_spec fuel s dp i data k :
  fs_inv s → dir s dp i data → (k ≤ nentries data)%nat → (nentries data - k ≤ fuel)%nat →
  dirlink_loop devs fuel dp (Z.of_nat (DIRENT * k)) s =
  Ok (Z.of_nat (DIRENT * dfree data (nentries data - k) k), s).
Proof.
  intros Hinv Hdir. pose proof (dir_size s dp i data Hinv Hdir) as (Hsz & Hs0 & Hmax).
  pose proof MAXBYTES_Z as Hmz. pose proof (dr_whole _ _ _ _ Hdir) as Hw.
  pose proof (proj2 (geti_Ok _ _ _) (ca_entry _ _ _ (dr_cached _ _ _ _ Hdir))) as Hgi.
  revert k. induction fuel as [|fuel IH]; intros k Hk Hfuel.
  - assert (k = nentries data) as -> by lia. cbn [dirlink_loop]. rewrite Hgi, bind_ret, decide_False by lia.
    by rewrite Nat.sub_diag.
  - cbn [dirlink_loop]. rewrite Hgi, bind_ret. destruct (decide (k = nentries data)) as [->|Hne].
    { rewrite decide_False by lia. by rewrite Nat.sub_diag. }
    rewrite decide_True by (unfold DIRENT in *; lia).
    rewrite (read_dirent_spec s dp i data k) by (done || lia). rewrite bind_ret.
    assert (length (entry data k) = DIRENT) as Hel by (apply slice_length; unfold DIRENT in *; lia).
    rewrite dent_get by done. rewrite bind_ret.
    replace (nentries data - k)%nat with (S (nentries data - S k)) by lia. cbn [dfree].
    case_decide as H0; [done|].
    replace (Z.of_nat (DIRENT * k) + Z.of_nat DIRENT) with (Z.of_nat (DIRENT * S k)) by (unfold DIRENT; lia).
    apply IH; lia.
Qed.

(** [dirlink] of a new name extends the map by that name and nothing else. *)
Lemma dirlink_spec s dp i data name inum :
  fs_inv s → dir s dp i data → 0 ∈ name ∨ (DIRSIZ ≤ length name)%nat → Forall byte_range (dname name) →
  1 ≤ inum < 2 ^ 16 → dlookup data (dname name) = None → (length data < MAXBYTES)%nat → (3 ≤ nfree s)%nat →
  ∃ s' i' data', dirlink devs dp name inum s = Ok (0, s') ∧ fs_inv s' ∧ dir s' dp i' data' ∧
    i_inum i' = i_inum i ∧ i_locked i' = i_locked i ∧ i_ref i' = i_ref i ∧ f_icache s' = <[dp := i']> (f_icache s) ∧
    (∀ nm, dlookup data' nm = if decide (nm = dname name) then Some inum else dlookup data nm) ∧
    (∀ j, inode_no j → j ≠ i_inum i → file s' j = file s j) ∧
    file s' (i_inum i) = set_data data' <$> file s (i_inum i) ∧
    (∃ e, length e = DIRENT ∧ dent_inum e = inum ∧ dent_name e = dname name ∧
       data' = overwrite (DIRENT * dfree data (nentries data) 0) e data) ∧
    (nfree s ≤ nfree s' + 3)%nat.
Proof.
  intros Hinv Hdir Hname Hby Hi Hnone Hfull Hfree. pose proof MAXBYTES_Z as Hmz.
  pose proof (dir_size s dp i data Hinv Hdir) as (_ & _ & Hmax).
  pose proof (dirlookup_spec s dp i data name Hinv Hdir Hname) as Hlk. rewrite Hnone in Hlk.
  unfold dirlink. rewrite Hlk, bind_ret.
  pose proof (dirlink_loop_spec MAXDIRENT s dp i data 0 Hinv Hdir (Nat.le_0_l _)) as Hl.
  rewrite Nat.mul_0_r, Nat.sub_0_r in Hl. change (Z.of_nat 0) with 0 in Hl. rewrite (Hl (nentries_max data Hmax)), bind_ret.
  destruct (strncpy_spec DIRSIZ name Hname) as (nm & Hcp & Hnm). rewrite Hcp, bind_ret.
  destruct (dirent_fields inum name nm Hnm) as (Hdl & Hdi & Hdn). fold (dirent inum nm).
  assert (u16 inum = inum) as Hu by (unfold u16; apply Z.mod_small; lia). rewrite Hu in Hdi.
  assert (Forall byte_range (dirent inum nm)) as Hdb.
  { apply Forall_app. split; [apply le_bytes_range|]. rewrite Hnm. apply Forall_app.
    split; [done|by apply Forall_replicate]. }
  pose proof Hdir as [Hca Ht Hf Hw]. destruct (file s (i_inum i)) as [f|] eqn:Hfile; [|done]. injection Hf as Hf.
  destruct (dfree_spec data (nentries data) 0) as (Hk & _ & _). set (k := dfree data (nentries data) 0) in *.
  destruct (writei_spec sb ds devs s dp i (dirent inum nm) (DIRENT * k) DIRENT f)
    as (s' & Hwr & Hinv' & Hfile' & Hoth & (i' & Hca' & Hin & Hlo & Hrf & Hic) & _ & Hnf); try done.
  - rewrite Ht. done.
  - by rewrite Hdl.
  - rewrite Hf. unfold DIRENT in *. lia.
  - unfold DIRENT in *. lia.
  - rewrite Hwr, bind_ret, decide_False by lia. rewrite take_ge in Hfile' by lia. rewrite Hf in Hfile'.
    exists s', i', (overwrite (DIRENT * k) (dirent inum nm) data).
    destruct (nentries_overwrite data (dirent inum nm) k Hdl Hw) as [Hne Hle]; [lia|].
    split_and!; try done.
    + split; [done| |by rewrite Hin, Hfile'|by rewrite Hle, Hne].
      pose proof (cached_file sb ds s' dp i' Hinv' Hca') as Hf2. rewrite Hin, Hfile' in Hf2.
      pose proof (cached_file sb ds s dp i Hinv Hca) as Hf1. rewrite Hfile in Hf1. injection Hf1 as Hf1.
      injection Hf2 as Hty _ _ _ _. rewrite <-Hty, Hf1. exact Ht.
    + intros x. unfold k. rewrite (dlookup_link data (dirent inum nm) (dname name)) by (done || (rewrite Hdi; lia)).
      by rewrite Hdi.
    + by exists (dirent inum nm).
    + change (blocks_touched (Z.of_nat DIRENT)) with 2%nat in Hnf. lia.
Qed.
End dirs.
