(* ===== verification/PathSpec.v ===== *)
(** * Path names: [skipelem] and [namex]

    [elems] splits a path at its slashes; [walk] follows the elements through
    the directories of the abstract file system.  [namex] returns a reference
    to the inode [walk] finds and leaves every other reference count as it was. *)

From stdpp Require Import gmap.
From S2P Require Import Prelude.
From S2P Require Import Bytes.
From S2P Require Import CString.
From S2P Require Import Log.
From S2P Require Import Fs.
From S2P Require Import FsDir.
From S2P Require Import FsSpec.
From S2P Require Import FileSpec.
From S2P Require Import FileRw.
From S2P Require Import InodeSpec.
From S2P Require Import TruncSpec.
From S2P Require Import FsInv.
From S2P Require Import FsOps.
From S2P Require Import CacheSpec.
From S2P Require Import DirSpec.

Local Open Scope Z_scope.

(** ** Splitting a path *)

Definition SLASH : Z := 47.

(** The pieces between slashes, the empty ones included. *)
Fixpoint pieces (l : list Z) : list (list Z) :=
  match l with
  | [] => [[]]
  | c :: l' =>
      match pieces l' with
      | p :: ps => if decide (c = SLASH) then [] :: p :: ps else (c :: p) :: ps
      | [] => [[c]]
      end
  end.

(** The elements of a path. *)
Definition elems (l : list Z) : list (list Z) := filter (λ p, p ≠ []) (pieces l).

Lemma pieces_nonempty l : pieces l ≠ [].
Proof. destruct l as [|c l]; cbn; [done|]. destruct (pieces l); [done|]. by case_decide. Qed.

Lemma elems_slash l : elems (SLASH :: l) = elems l.
Proof.
  unfold elems. cbn [pieces]. pose proof (pieces_nonempty l) as Hne. destruct (pieces l) as [|p ps]; [done|].
  rewrite decide_True by done. by rewrite filter_cons_False by auto.
Qed.

(** A name up to the next slash or the end. *)
Lemma pieces_name e l :
  Forall (λ c, c ≠ SLASH) e → pieces (e ++ SLASH :: l) = e :: pieces l.
Proof.
  induction 1 as [|c e Hc He IH]; cbn [app pieces].
  - pose proof (pieces_nonempty l) as Hne. destruct (pieces l) as [|p ps]; [done|]. by rewrite decide_True.
  - rewrite IH. by rewrite decide_False.
Qed.

Lemma pieces_last e : Forall (λ c, c ≠ SLASH) e → pieces e = [e].
Proof. induction 1 as [|c e Hc He IH]; cbn [pieces]; [done|]. rewrite IH. by rewrite decide_False. Qed.

Lemma elems_name e l : e ≠ [] → Forall (λ c, c ≠ SLASH) e → elems (e ++ SLASH :: l) = e :: elems l.
Proof. intros He Hf. unfold elems. rewrite pieces_name by done. by rewrite filter_cons_True. Qed.

Lemma elems_last e : e ≠ [] → Forall (λ c, c ≠ SLASH) e → elems e = [e].
Proof. intros He Hf. unfold elems. rewrite pieces_last by done. by rewrite filter_cons_True. Qed.

(** ** [skipelem] *)

Lemma skip_slashes_spec path :
  0 ∈ path →
  ∃ c rest, skip_slashes path = c :: rest ∧ c ≠ SLASH ∧ 0 ∈ c :: rest ∧
    elems (cstr (c :: rest)) = elems (cstr path) ∧ (length (c :: rest) ≤ length path)%nat ∧
    (cstr path = [] → cstr (c :: rest) = []).
Proof.
  induction path as [|c path IH]; intros H0; [by apply not_elem_of_nil in H0|]. cbn [skip_slashes].
  case_decide as Hc.
  - subst c. apply elem_of_cons in H0 as [?|H0]; [done|]. destruct (IH H0) as (c & rest & -> & ? & ? & He & ? & ?).
    exists c, rest. split_and!; try done; [|cbn in *; lia].
    rewrite He. cbn [cstr]. rewrite (decide_False (P := 47 = 0)) by done. symmetry. apply elems_slash.
  - exists c, path. split_and!; done.
Qed.

Lemma skip_name_spec path e rest :
  0 ∈ path → skip_name path = (e, rest) →
  path = e ++ rest ∧ Forall (λ c, c ≠ SLASH ∧ c ≠ 0) e ∧
  ∃ c r, rest = c :: r ∧ (c = SLASH ∨ c = 0) ∧ 0 ∈ rest.
Proof.
  revert e rest. induction path as [|c path IH]; intros e rest H0; [by apply not_elem_of_nil in H0|].
  cbn [skip_name]. case_decide as Hc.
  - intros [= <- <-]. split_and!; [done|constructor|]. exists c, path. done.
  - destruct (skip_name path) as [e' rest'] eqn:Hs. intros [= <- <-].
    apply elem_of_cons in H0 as [<-|H0]; [exfalso; apply Hc; by right|].
    destruct (IH e' rest' H0 eq_refl) as (-> & Hf & Hr). split_and!; [done| |done]. constructor; [|done].
    split; intros ->; apply Hc; auto.
Qed.

(** The name that [skipelem] stores, in a buffer of [DIRSIZ] bytes. *)
Lemma store_name_spec e old :
  length old = DIRSIZ → Forall (λ c, c ≠ 0) e →
  ∃ n, store_name e old = Ok n ∧ length n = DIRSIZ ∧ dname n = take DIRSIZ e.
Proof.
  intros Hl Hf. unfold store_name, dname. case_decide as Hlen.
  - assert (length (take DIRSIZ e) = length old) as Ht by (rewrite length_take; lia).
    rewrite (bstore_Ok old 0) by lia. eexists. split; [done|].
    rewrite inserts_all by done. split; [lia|].
    rewrite <-(app_nil_r (take DIRSIZ e)), cstr_app by (by apply Forall_take). cbn. rewrite app_nil_r. by apply take_take_le.
  - rewrite (bstore_Ok old 0) by lia. rewrite bind_ret.
    rewrite bstore_Ok by (rewrite length_inserts; cbn; lia). eexists. split; [done|].
    rewrite !length_inserts. split; [done|].
    assert (list_inserts (length e) [0] (list_inserts 0 e old) = e ++ 0 :: drop (S (length e)) old) as ->.
    { pose proof (inserts_app 0 e [0] old) as Hia. rewrite Nat.add_0_l in Hia. rewrite <- Hia.
      apply list_eq. intros i. destruct (decide (i < S (length e))%nat).
      - rewrite list_lookup_inserts by (rewrite ?length_app; cbn; lia). rewrite Nat.sub_0_r.
        destruct (decide (i < length e)%nat); [by rewrite !lookup_app_l|].
        assert (i = length e) as -> by lia. by rewrite !lookup_app_r, Nat.sub_diag.
      - rewrite list_lookup_inserts_ge by (rewrite length_app; cbn; lia). rewrite lookup_app_r by lia.
        replace (i - length e)%nat with (S (i - S (length e))) by lia.
        change (old !! i = drop (S (length e)) old !! (i - S (length e))%nat). rewrite lookup_drop. f_equal. lia. }
    rewrite cstr_app by done. cbn [cstr]. rewrite decide_True by done. by rewrite app_nil_r.
Qed.

(** [skipelem] returns the first element and a path with the others. *)
Lemma skipelem_spec path name :
  0 ∈ path → length name = DIRSIZ →
  match elems (cstr path) with
  | [] => skipelem path name = Ok None
  | e :: es =>
      ∃ path' name', skipelem path name = Ok (Some (path', name')) ∧ length name' = DIRSIZ ∧
        dname name' = take DIRSIZ e ∧ elems (cstr path') = es ∧ 0 ∈ path' ∧ (length path' < length path)%nat ∧
        (aget path' 0 = Ok 0 ↔ es = []) ∧ is_Ok (aget path' 0)
  end.
Proof.
  intros H0 Hn. unfold skipelem. destruct (skip_slashes_spec path H0) as (c & rest & -> & Hc & Hin & <- & Hlen & _).
  rewrite aget_0_cons, bind_ret. destruct (decide (c = 0)) as [->|Hc0]; [done|].
  destruct (skip_name (c :: rest)) as [e p2] eqn:Hsk.
  destruct (skip_name_spec (c :: rest) e p2 Hin Hsk) as (Hp & Hf & d & r & -> & Hd & Hin2).
  assert (e ≠ []) as He.
  { intros ->. cbn in Hp. injection Hp as -> _. destruct Hd; done. }
  assert (Forall (λ c, c ≠ 0) e ∧ Forall (λ c, c ≠ SLASH) e) as [Hf0 Hfs].
  { rewrite !Forall_forall in *. naive_solver. }
  rewrite Hp, cstr_app by done. rewrite aget_0_cons, bind_ret.
  destruct (store_name_spec e name Hn Hf0) as (n & -> & Hnl & Hnd). rewrite bind_ret.
  destruct (skip_slashes_spec (d :: r) Hin2) as (c' & r' & Hs & Hc' & Hin' & Hel & Hlen' & Hnil). rewrite Hs, aget_0_cons, bind_ret.
  assert (elems (e ++ cstr (d :: r)) = e :: elems (cstr (d :: r))) as ->.
  { destruct Hd as [->| ->].
    - cbn [cstr]. rewrite (decide_False (P := SLASH = 0)) by done. rewrite elems_slash. by apply elems_name.
    - cbn [cstr]. rewrite decide_True by done. rewrite app_nil_r. by apply elems_last. }
  exists (c' :: r'), n. split_and!; try done.
  - assert (length e > 0)%nat by (destruct e; [done|cbn; lia]).
    assert (length (c :: rest) = length e + length (d :: r))%nat by (rewrite Hp, length_app; done). lia.
  - rewrite aget_0_cons, <-Hel. split.
    + intros [= ->]. done.
    + intros Hes. destruct (decide (c' = 0)) as [->|Hne]; [done|]. exfalso.
      destruct (skip_name (c' :: r')) as [e2 p3] eqn:Hsk2.
      destruct (skip_name_spec (c' :: r') e2 p3 Hin' Hsk2) as (Hp2 & Hf2 & d2 & r2 & -> & Hd2 & _).
      assert (e2 ≠ []) as He2. { intros ->. cbn in Hp2. injection Hp2 as -> _. destruct Hd2; done. }
      rewrite Hp2, cstr_app in Hes by (eapply Forall_impl; [exact Hf2|naive_solver]).
      assert (Forall (λ c, c ≠ SLASH) e2) by (eapply Forall_impl; [exact Hf2|naive_solver]).
      destruct Hd2 as [->| ->]; cbn [cstr] in Hes.
      * rewrite (decide_False (P := SLASH = 0)) in Hes by done. by rewrite elems_name in Hes.
      * rewrite decide_True, app_nil_r, elems_last in Hes by done. done.
  - by eexists.
Qed.

(** ** Walking the tree *)

Section walk.
Context (sb : superblock) (ds : Z) (devs : list devsw).
Notation inode_no := (inode_no sb).
Notation dino := (dino sb).
Notation file := (file sb).
Notation fs_inv := (fs_inv sb ds).
Implicit Types (s : fstate) (inum : Z) (ip jp : nat).

(** The entries of directory [inum], [None] when it is not a directory. *)
Definition dir_data s inum : option (list Z) :=
  f ← file s inum; if decide (af_type f = T_DIR) then Some (af_data f) else None.

Fixpoint walk s inum (es : list (list Z)) : option Z :=
  match es with
  | [] => Some inum
  | e :: es' => data ← dir_data s inum; j ← dlookup data (take DIRSIZ e); walk s j es'
  end.

(** The directory that holds the last element, and that element. *)
Fixpoint walk_parent s inum (es : list (list Z)) : option (Z * list Z) :=
  match es with
  | [] => None
  | [e] => _ ← dir_data s inum; Some (inum, take DIRSIZ e)
  | e :: es' => data ← dir_data s inum; j ← dlookup data (take DIRSIZ e); walk_parent s j es'
  end.

(** Directory entries name linked inodes. *)
Definition linked s inum : Prop := inode_no inum ∧ ∃ f, file s inum = Some f ∧ af_nlink f ≠ 0.
Definition tree_ok s : Prop :=
  ∀ inum data, linked s inum → dir_data s inum = Some data →
    length data = (DIRENT * nentries data)%nat ∧ ∀ nm j, dlookup data nm = Some j → linked s j.

(** The references of others, [r], and possibly one of ours. *)
Definition refs s (r : nat → Z) (ours : option nat) : Prop :=
  ∀ k i, f_icache s !! k = Some i → i_ref i = r k + (if decide (ours = Some k) then 1 else 0).
Definition unlocked s : Prop := ∀ k i, f_icache s !! k = Some i → i_locked i = false.

(** Between two steps of [namex]: we hold a reference to [inum] and no lock. *)
Record at_inode s (r : nat → Z) ip inum : Prop := {
  at_inv : fs_inv s;
  at_refs : refs s r (Some ip);
  at_unlocked : unlocked s;
  at_entry : ∃ i, f_icache s !! ip = Some i ∧ i_inum i = inum ∧ 0 < i_ref i;
  at_linked : linked s inum
}.

(** Entries that others refer to keep their inode. *)
Definition kept (r : nat → Z) s s' : Prop :=
  ∀ k i, 0 < r k → f_icache s !! k = Some i → ∃ i', f_icache s' !! k = Some i' ∧ i_inum i' = i_inum i.

Lemma kept_refl r s : kept r s s.
Proof. intros k i _ Hi. by exists i. Qed.
Lemma kept_compose r s1 s2 s3 : kept r s1 s2 → kept r s2 s3 → kept r s1 s3.
Proof.
  intros H12 H23 k i Hr Hi. destruct (H12 k i Hr Hi) as (i2 & Hi2 & <-). destruct (H23 k i2 Hr Hi2) as (i3 & Hi3 & <-). by exists i3.
Qed.
Lemma kept_insert r s s' k0 i' :
  f_icache s' = <[k0 := i']> (f_icache s) → (∀ i, f_icache s !! k0 = Some i → 0 < r k0 → i_inum i' = i_inum i) → kept r s s'.
Proof.
  intros Hic Hn k i Hr Hi. rewrite Hic. destruct (decide (k = k0)) as [->|Hne].
  - exists i'. rewrite list_lookup_insert_eq by (by eapply lookup_lt_Some). split; [done|by apply Hn].
  - exists i. by rewrite list_lookup_insert_ne.
Qed.
Lemma kept_gotten r s s' ip inum :
  gotten sb ds s s' ip inum → (∀ i, f_icache s !! ip = Some i → r ip ≤ i_ref i) → kept r s s'.
Proof.
  intros [_ _ (i & Hi & Hin & Hri & Hic & Hused & _)] Hr. eapply kept_insert; [exact Hic|]. intros j Hj Hpos.
  destruct (Hused j Hj) as [Hn _]; [specialize (Hr j Hj); lia|]. congruence.
Qed.

Lemma same_disk_dir_data s s' inum : same_disk s s' → dir_data s' inum = dir_data s inum.
Proof. intros Hsd. unfold dir_data. by destruct (same_disk_file sb s s' inum Hsd) as [-> _]. Qed.

Lemma same_disk_linked s s' inum : same_disk s s' → linked s' inum ↔ linked s inum.
Proof. intros Hsd. unfold linked. by destruct (same_disk_file sb s s' inum Hsd) as [-> _]. Qed.

Lemma same_disk_tree s s' : same_disk s s' → tree_ok s → tree_ok s'.
Proof.
  intros Hsd Ht inum data. rewrite (same_disk_linked s s'), (same_disk_dir_data s s') by done.
  intros Hl Hd. destruct (Ht inum data Hl Hd) as [? Hj]. split; [done|]. intros nm j Hn.
  rewrite (same_disk_linked s s') by done. eauto.
Qed.

Lemma same_disk_walk s s' inum es : same_disk s s' → walk s' inum es = walk s inum es.
Proof.
  intros Hsd. revert inum. induction es as [|e es IH]; intros inum; [done|]. cbn [walk].
  rewrite (same_disk_dir_data s s') by done. destruct (dir_data s inum) as [data|]; [|done]. cbn [mbind option_bind].
  destruct (dlookup data (take DIRSIZ e)); [|done]. cbn [mbind option_bind]. apply IH.
Qed.

Lemma same_disk_walk_parent s s' inum es : same_disk s s' → walk_parent s' inum es = walk_parent s inum es.
Proof.
  intros Hsd. revert inum. induction es as [|e es IH]; intros inum; [done|]. cbn [walk_parent].
  rewrite (same_disk_dir_data s s') by done. destruct es as [|e2 es]; [done|].
  destruct (dir_data s inum) as [data|]; [|done]. cbn [mbind option_bind].
  destruct (dlookup data (take DIRSIZ e)); [|done]. cbn [mbind option_bind]. apply IH.
Qed.

(** Unlocking and dropping a linked inode touches neither disk nor other entries. *)
Lemma iunlockput_spec s ip i :
  fs_inv s → cached s ip i → i_locked i = true → i_nlink i ≠ 0 →
  ∃ s', iunlockput ip s = Ok s' ∧ fs_inv s' ∧ same_disk s s' ∧
    f_icache s' = <[ip := i <| i_locked := false |> <| i_ref ::= λ r, r - 1 |>]> (f_icache s).
Proof.
  intros Hinv [He Hr Hv] Hl Hn. unfold iunlockput.
  destruct (iunlock_spec sb ds s ip i Hinv He Hr Hl) as (s1 & -> & Hinv1 & Hsd1 & Hic1). rewrite bind_ret.
  assert (f_icache s1 !! ip = Some (i <| i_locked := false |>)) as Hi1.
  { rewrite Hic1. apply list_lookup_insert_eq. by eapply lookup_lt_Some. }
  destruct (iput_keep sb ds s1 ip (i <| i_locked := false |>)) as (s2 & -> & Hinv2 & Hsd2 & Hic2);
    [done|done|done|done|by intros (_ & ? & _)|].
  exists s2. split_and!; [done|done|by eapply same_disk_trans|]. by rewrite Hic2, Hic1, list_insert_insert_eq.
Qed.

(** Locking the inode we hold. *)
Lemma at_ilock s r ip inum f :
  at_inode s r ip inum → file s inum = Some f →
  ∃ s1 i1, ilock ip s = Ok s1 ∧ fs_inv s1 ∧ same_disk s s1 ∧ cached s1 ip i1 ∧ i_locked i1 = true ∧
    i_inum i1 = inum ∧ i_type i1 = af_type f ∧ i_nlink i1 ≠ 0 ∧ i_ref i1 = r ip + 1 ∧
    f_icache s1 = <[ip := i1]> (f_icache s).
Proof.
  intros [Hinv Hrefs Hun (i & Hi & Hin & Hr) [Hno (f' & Hf' & Hnl)]] Hf. rewrite Hf in Hf'. injection Hf' as <-.
  assert (di_type (dino s (i_inum i)) = af_type f ∧ af_type f ≠ 0) as [Hty Hnz].
  { rewrite Hin. unfold FsInv.file in Hf. cbn zeta in Hf. case_decide; [done|]. by injection Hf as <-. }
  destruct (ilock_spec sb ds s ip i) as (s1 & i1 & Hlk & Hinv1 & Hsd & Hca & Hl & Hin1 & Hr1 & Hty1 & Hic);
    [done|done|done|by apply (Hun ip)|by rewrite Hty|].
  exists s1, i1. split_and!; try done; try congruence.
  - pose proof (cached_file sb ds s1 ip i1 Hinv1 Hca) as Hfc. rewrite Hin1, Hin in Hfc.
    rewrite (proj1 (same_disk_file sb s s1 inum Hsd)), Hf in Hfc. injection Hfc as ->. exact Hnl.
  - rewrite Hr1, (Hrefs ip i Hi). by rewrite decide_True.
Qed.

(** Two cache slots that nobody else uses. *)
Definition two_free (r : nat → Z) : Prop :=
  ∃ k1 k2, k1 ≠ k2 ∧ (k1 < NINODE)%nat ∧ (k2 < NINODE)%nat ∧ r k1 = 0 ∧ r k2 = 0.

Lemma insert_lookup_Some {A} (l : list A) k x m y :
  <[k := x]> l !! m = Some y → (m = k ∧ y = x) ∨ (m ≠ k ∧ l !! m = Some y).
Proof. intros [(<- & -> & _)|[? ?]]%list_lookup_insert_Some; [by left|by right]. Qed.

(** From the locked directory [ip] to its entry [j]: [iget] of [j] in [s1],
    then [iunlockput] of [ip]. *)
Lemma at_next s r ip inum s1 i1 s2 jp j :
  at_inode s r ip inum → cached s1 ip i1 → i_locked i1 = true → i_nlink i1 ≠ 0 → i_ref i1 = r ip + 1 → i_inum i1 = inum →
  f_icache s1 = <[ip := i1]> (f_icache s) → same_disk s s1 →
  gotten sb ds s1 s2 jp j → linked s j →
  ∃ s3, iunlockput ip s2 = Ok s3 ∧ at_inode s3 r jp j ∧ same_disk s s3 ∧ kept r s s3.
Proof.
  intros [Hinv Hrefs Hun (i0 & Hi0 & Hin0 & _) _] [Hi1 Hr1 Hv1] Hl1 Hnl1 Hri1 Hin1 Hic1 Hsd1 Hgot Hlk.
  assert (kept r s s1) as Hk1.
  { eapply kept_insert; [exact Hic1|]. intros i Hi _. congruence. }
  assert (kept r s1 s2) as Hk2.
  { eapply kept_gotten; [exact Hgot|]. intros i Hi. rewrite Hic1 in Hi. apply list_lookup_insert_Some in Hi as [(<- & <- & _)|[Hne Hi]]; [lia|].
    rewrite (Hrefs _ _ Hi). case_decide; lia. }
  destruct Hgot as [Hsd2 Hinv2 Hent].
  destruct Hent as (i & Hij & Hinj & Hri & Hic2 & Hused & Hfree).
  assert (∀ k x, f_icache s !! k = Some x → k ≠ ip → i_locked x = false ∧ i_ref x = r k) as Hother.
  { intros k x Hk Hne. split; [by apply (Hun k)|]. rewrite (Hrefs k x Hk). rewrite decide_False by congruence. lia. }
  (* the entry of [ip] in [s2] *)
  assert (∃ i2, cached s2 ip i2 ∧ i_locked i2 = true ∧ i_nlink i2 ≠ 0 ∧
    i_ref i2 = r ip + 1 + (if decide (jp = ip) then 1 else 0)) as (i2 & Hca2 & Hl2 & Hnl2 & Hri2).
  { destruct (decide (jp = ip)) as [->|Hne].
    - destruct (Hused i1 Hi1 Hr1) as [_ Hi]. exists i. rewrite Hi in *. split; [split; [done|done|done]|].
      split_and!; [done|done|]. cbn. lia.
    - exists i1. split; [split; [|done|done]|split_and!; [done|done|lia]].
      by rewrite Hic2, list_lookup_insert_ne by done. }
  destruct (iunlockput_spec s2 ip i2) as (s3 & Hup & Hinv3 & Hsd3 & Hic3); try done.
  assert (same_disk s s3) as Hsd by (eapply same_disk_trans; [exact Hsd1|by eapply same_disk_trans]).
  set (i3 := i2 <| i_locked := false |> <| i_ref ::= λ r, r - 1 |>) in *.
  assert (∀ k x, f_icache s3 !! k = Some x → i_locked x = false ∧ i_ref x = r k + if decide (Some jp = Some k) then 1 else 0) as Hall.
  { intros k x Hk. rewrite Hic3 in Hk. apply insert_lookup_Some in Hk as [[-> ->]|[Hkip Hk]].
    - split; [done|]. change (i_ref i3) with (i_ref i2 - 1). rewrite Hri2.
      destruct (decide (jp = ip)) as [->|]; [rewrite decide_True by done|rewrite decide_False by congruence]; lia.
    - rewrite Hic2 in Hk. apply insert_lookup_Some in Hk as [[-> ->]|[Hkj Hk]].
      + rewrite (decide_True (P := Some jp = Some jp)) by done.
        destruct (lookup_lt_is_Some_2 (f_icache s1) jp) as [y Hy].
        { apply lookup_lt_Some in Hij. rewrite Hic2, length_insert in Hij. done. }
        pose proof Hy as Hy0. rewrite Hic1, list_lookup_insert_ne in Hy0 by done.
        destruct (Hother jp y Hy0 Hkip) as [Hly Hry]. pose proof (ci_ref _ _ (proj2 Hinv) jp y Hy0) as Hpos.
        destruct (decide (i_ref y = 0)) as [Hz|Hz].
        * destruct (Hfree y Hy Hz) as (_ & -> & ->). split; [done|lia].
        * destruct (Hused y Hy ltac:(lia)) as [_ ->]. split; [done|cbn; lia].
      + rewrite Hic1, list_lookup_insert_ne in Hk by done. destruct (Hother k x Hk Hkip) as [? ->].
        split; [done|]. rewrite decide_False by congruence. lia. }
  assert (kept r s s3) as Hk3.
  { eapply kept_compose; [exact Hk1|]. eapply kept_compose; [exact Hk2|]. eapply kept_insert; [exact Hic3|]. intros y Hy _.
    rewrite (ca_entry _ _ _ Hca2) in Hy. by injection Hy as <-. }
  exists s3. split_and!; [done|split|done|exact Hk3].
  - done.
  - intros k x Hk. by apply Hall.
  - intros k x Hk. by apply (Hall k).
  - destruct (decide (jp = ip)) as [->|Hne].
    + exists i3. rewrite Hic3, list_lookup_insert_eq by (by eapply lookup_lt_Some).
      assert (i_inum i2 = j ∧ 0 < i_ref i3) as [??]; [|by split_and!].
      destruct Hca2 as [Hi2 _ _]. rewrite Hij in Hi2. injection Hi2 as <-. split; [done|].
      change (i_ref i3) with (i_ref i - 1). rewrite Hri2. lia.
    + exists i. rewrite Hic3, list_lookup_insert_ne by done. by split_and!.
  - by apply (same_disk_linked s s3).
Qed.

(** Back to the references of others. *)
Record at_none s (r : nat → Z) : Prop := {
  an_inv : fs_inv s;
  an_refs : refs s r None;
  an_unlocked : unlocked s
}.

Lemma at_drop_entry s r ip inum s1 i' :
  at_inode s r ip inum → fs_inv s1 → i_locked i' = false → i_ref i' = r ip →
  f_icache s1 = <[ip := i']> (f_icache s) → at_none s1 r.
Proof.
  intros [Hinv Hrefs Hun _ _] Hinv1 Hl Hr Hic. split; [done|..]; intros k x Hk; rewrite Hic in Hk;
    apply insert_lookup_Some in Hk as [[-> ->]|[Hne Hk]].
  - rewrite decide_False by done. lia.
  - rewrite (Hrefs k x Hk), !decide_False by congruence. done.
  - done.
  - by apply (Hun k).
Qed.

(** Giving the locked inode back. *)
Lemma at_drop s r ip inum s1 i1 :
  at_inode s r ip inum → fs_inv s1 → cached s1 ip i1 → i_locked i1 = true → i_nlink i1 ≠ 0 → i_ref i1 = r ip + 1 →
  i_inum i1 = inum → f_icache s1 = <[ip := i1]> (f_icache s) → same_disk s s1 →
  ∃ s2, iunlockput ip s1 = Ok s2 ∧ at_none s2 r ∧ same_disk s s2 ∧ kept r s s2.
Proof.
  intros Hat Hinv1 Hca Hl Hnl Hr Hin Hic Hsd.
  destruct (iunlockput_spec s1 ip i1) as (s2 & Hup & Hinv2 & Hsd2 & Hic2); try done.
  rewrite Hic, list_insert_insert_eq in Hic2. exists s2. split_and!; [done| |by eapply same_disk_trans|].
  - eapply at_drop_entry; [done|done| | |exact Hic2]; [done|cbn; lia].
  - eapply kept_insert; [exact Hic2|]. intros i Hi _. destruct Hat as [_ _ _ (i0 & Hi0 & Hin0 & _) _]. cbn. congruence.
Qed.

(** Giving the unlocked inode back ([nameiparent] of a path without elements). *)
Lemma at_iput s r ip inum :
  at_inode s r ip inum → ∃ s', iput ip s = Ok s' ∧ at_none s' r ∧ same_disk s s' ∧ kept r s s'.
Proof.
  intros Hat. pose proof Hat as [Hinv Hrefs Hun (i & Hi & Hin & Hr) [Hno (f & Hf & Hnl)]].
  destruct (iput_keep sb ds s ip i) as (s' & Hp & Hinv' & Hsd & Hic); [done|done|done|by apply (Hun ip)| |].
  { intros (Hv & H0 & _). apply Hnl. pose proof (cached_file sb ds s ip i Hinv) as Hfc.
    rewrite Hin, Hf in Hfc. specialize (Hfc ltac:(by split)). by injection Hfc as ->. }
  exists s'. split_and!; [done| |done|].
  - pose proof (Hrefs ip i Hi) as Hri. rewrite decide_True in Hri by done.
    eapply at_drop_entry; [done|done| | |exact Hic]; [cbn; by apply (Hun ip)|cbn; lia].
  - eapply kept_insert; [exact Hic|]. intros y Hy _. cbn. congruence.
Qed.

(** What [namex] returns: a reference to inode [inum]. *)
Definition refers s' (res : option nat) inum : Prop :=
  ∃ jp i, res = Some jp ∧ f_icache s' !! jp = Some i ∧ i_inum i = inum.

Record namex_post s s' (r : nat → Z) (res : option nat) : Prop := {
  np_disk : same_disk s s';
  np_inv : fs_inv s';
  np_refs : refs s' r res;
  np_unlocked : unlocked s';
  np_kept : kept r s s'
}.

Lemma namex_post_none s s' r : at_none s' r → same_disk s s' → kept r s s' → namex_post s s' r None.
Proof. by intros [? ? ?] ? ?. Qed.

Definition namex_result s inum (es : list (list Z)) (parent : bool) s' (res : option nat) (name : list Z) : Prop :=
  if parent then
    match walk_parent s inum es with
    | Some (d, nm) => refers s' res d ∧ dname name = nm ∧ length name = DIRSIZ
    | None => res = None
    end
  else
    match walk s inum es with
    | Some j => refers s' res j
    | None => res = None
    end.

Lemma namex_result_disk s1 s2 inum es parent s' res name :
  same_disk s1 s2 → namex_result s2 inum es parent s' res name → namex_result s1 inum es parent s' res name.
Proof.
  intros Hsd. unfold namex_result. by rewrite (same_disk_walk s1 s2), (same_disk_walk_parent s1 s2).
Qed.

Lemma dir_data_Some s inum data :
  dir_data s inum = Some data → ∃ f, file s inum = Some f ∧ af_type f = T_DIR ∧ af_data f = data.
Proof.
  unfold dir_data. destruct (file s inum) as [f|]; [|done]. cbn. case_decide; [|done]. intros [= <-]. by exists f.
Qed.

(** The step to the next inode: [dirlookup] in the locked directory. *)
Lemma at_lookup s r ip inum s1 i1 data name j :
  at_inode s r ip inum → tree_ok s → two_free r → dir_data s inum = Some data → length name = DIRSIZ →
  fs_inv s1 → cached s1 ip i1 → i_inum i1 = inum → i_type i1 = T_DIR →
  f_icache s1 = <[ip := i1]> (f_icache s) → same_disk s s1 → dlookup data (dname name) = Some j →
  ∃ jp off s2, dirlookup devs ip name s1 = Ok (Some (jp, off), s2) ∧ gotten sb ds s1 s2 jp j ∧ linked s j.
Proof.
  intros Hat Htree (k1 & k2 & Hk12 & Hk1 & Hk2 & Hr1 & Hr2) Hdd Hname Hinv1 Hca Hin Hty Hic Hsd Hlk.
  pose proof Hat as [Hinv Hrefs Hun _ Hlinked]. destruct (Htree inum data Hlinked Hdd) as [Hwhole Hent].
  pose proof (Hent _ _ Hlk) as Hj. destruct (dir_data_Some s inum data Hdd) as (f & Hf & _ & Hfd).
  assert (dir sb s1 ip i1 data) as Hdir.
  { split; [done|done| |done]. rewrite Hin, (proj1 (same_disk_file sb s s1 inum Hsd)), Hf. cbn. by rewrite Hfd. }
  pose proof (dirlookup_spec sb ds devs s1 ip i1 data name Hinv1 Hdir ltac:(right; lia)) as Hsp. rewrite Hlk in Hsp.
  destruct Hsp as [off Hsp]. destruct (ci_used _ _ (proj2 Hinv1) ip i1 (ca_entry _ _ _ Hca) (ca_ref _ _ _ Hca)) as [_ Hdev].
  destruct (iget_spec sb ds s1 j Hinv1 (proj1 Hj)) as (jp & s2 & Hg & Hgot).
  { assert (∃ k, (k < NINODE)%nat ∧ k ≠ ip ∧ r k = 0) as (k & Hk & Hkip & Hrk).
    { destruct (decide (k1 = ip)) as [->|]; [exists k2|exists k1]; by split_and!. }
    destruct (lookup_lt_is_Some_2 (f_icache s) k) as [x Hx]; [by rewrite (ci_len _ _ (proj2 Hinv))|].
    exists k, x. rewrite Hic, list_lookup_insert_ne by done. split; [done|left].
    rewrite (Hrefs k x Hx), Hrk, decide_False by congruence. done. }
  exists jp, off, s2. rewrite Hsp, Hdev, Hg. done.
Qed.

Lemma at_refers s r ip inum : at_inode s r ip inum → namex_post s s r (Some ip) ∧ refers s (Some ip) inum.
Proof. intros [? ? ? (i & ? & ? & ?) ?]. split; [split; try done; apply kept_refl|]. by exists ip, i. Qed.

Lemma namex_loop_spec fuel s r ip inum path parent name :
  at_inode s r ip inum → tree_ok s → two_free r → 0 ∈ path → length name = DIRSIZ → (length path < fuel)%nat →
  ∃ res name' s', namex_loop devs fuel ip path parent name s = Ok (res, name', s') ∧
    namex_post s s' r res ∧ namex_result s inum (elems (cstr path)) parent s' res name'.
Proof.
  intros Hat0 Ht0 Htf. revert s ip inum path name Hat0 Ht0.
  induction fuel as [|fuel IH]; intros s ip inum path name Hat Htree H0 Hn Hfuel; [lia|].
  cbn [namex_loop]. pose proof (skipelem_spec path name H0 Hn) as Hsk.
  destruct (elems (cstr path)) as [|e es] eqn:Hel.
  { rewrite Hsk, bind_ret. destruct parent.
    - destruct (at_iput s r ip inum Hat) as (s' & -> & Hnone & Hsd & Hkept). rewrite bind_ret.
      exists None, name, s'. split_and!; [done|by apply namex_post_none|done].
    - destruct (at_refers s r ip inum Hat). by exists (Some ip), name, s. }
  destruct Hsk as (path' & name' & -> & Hn' & Hdn & Hel' & H0' & Hlen & Hlast & [c Hc]). rewrite bind_ret. rewrite Hc in Hlast.
  pose proof (at_linked _ _ _ _ Hat) as [Hno (f & Hf & _)].
  destruct (at_ilock s r ip inum f Hat Hf)
    as (s1 & i1 & -> & Hinv1 & Hsd1 & Hca1 & Hl1 & Hin1 & Hty1 & Hnl1 & Hr1 & Hic1).
  rewrite bind_ret, (proj2 (geti_Ok _ _ _) (ca_entry _ _ _ Hca1)), bind_ret.
  destruct (at_drop s r ip inum s1 i1 Hat Hinv1 Hca1 Hl1 Hnl1 Hr1 Hin1 Hic1 Hsd1) as (sd & Hdrop & Hdnone & Hdsd & Hdk).
  destruct (decide (i_type i1 ≠ T_DIR)) as [Hnd|Hisd].
  { rewrite Hdrop, bind_ret. exists None, name', sd. split_and!; [done|by apply namex_post_none|].
    assert (dir_data s inum = None) as Hdd by (unfold dir_data; rewrite Hf; cbn; rewrite decide_False; congruence).
    unfold namex_result. cbn [walk walk_parent]. rewrite Hdd. by destruct parent, es. }
  apply dec_stable in Hisd. rewrite Hc, bind_ret.
  assert (dir_data s inum = Some (af_data f)) as Hdd by (unfold dir_data; rewrite Hf; cbn; rewrite decide_True; congruence).
  destruct (decide (parent = true ∧ c = 0)) as [[-> ->]|Hcont].
  { assert (es = []) as -> by (by apply Hlast).
    destruct (iunlock_spec sb ds s1 ip i1 Hinv1) as (s2 & -> & Hinv2 & Hsd2 & Hic2);
      [apply Hca1|apply Hca1|done|]. rewrite bind_ret. exists (Some ip), name', s2.
    rewrite Hic1, list_insert_insert_eq in Hic2.
    pose proof Hat as [_ Hrefs Hun (i & Hi & _) _]. split_and!; [done|split|].
    - exact (same_disk_trans _ _ _ Hsd1 Hsd2).
    - done.
    - intros k x Hk. rewrite Hic2 in Hk. apply insert_lookup_Some in Hk as [[-> ->]|[Hne Hk]]; [|by apply Hrefs].
      cbn. rewrite decide_True by done. exact Hr1.
    - intros k x Hk. rewrite Hic2 in Hk. apply insert_lookup_Some in Hk as [[-> ->]|[Hne Hk]]; [done|by apply (Hun k)].
    - eapply kept_insert; [exact Hic2|]. intros y Hy _. cbn. pose proof (at_entry _ _ _ _ Hat) as (z & Hz & Hzn & _). congruence.
    - unfold namex_result. cbn [walk_parent]. rewrite Hdd. cbn [mbind option_bind]. split; [|done].
      eexists ip, _. split_and!; [done| |]; [rewrite Hic2; apply list_lookup_insert_eq; by eapply lookup_lt_Some|done]. }
  assert (parent = true → es ≠ []) as Hes by (intros -> ?; apply Hcont; split; [done|]; assert (Ok c = Ok 0) as [= ->] by (by apply Hlast); done).
  destruct (dlookup (af_data f) (dname name')) as [j|] eqn:Hlk.
  - destruct (at_lookup s r ip inum s1 i1 (af_data f) name' j) as (jp & off & s2 & -> & Hgot & Hlj); try done.
    rewrite bind_ret.
    destruct (at_next s r ip inum s1 i1 s2 jp j) as (s3 & -> & Hat3 & Hsd3 & Hk3); try done. rewrite bind_ret.
    destruct (IH s3 jp j path' name') as (res & nm & s' & -> & [Hsd' ? ? ? Hk'] & Hres); try done; [by eapply same_disk_tree|lia|].
    exists res, nm, s'. split_and!; [done|split; [exact (same_disk_trans _ _ _ Hsd3 Hsd')|done..|exact (kept_compose _ _ _ _ Hk3 Hk')]|].
    apply (namex_result_disk s s3) in Hres; [|done]. rewrite Hel' in Hres.
    unfold namex_result in *. cbn [walk walk_parent]. rewrite Hdd. cbn [mbind option_bind]. rewrite <-Hdn, Hlk.
    cbn [mbind option_bind]. destruct parent; [|done]. by destruct es; [destruct Hes|].
  - destruct (dir_data_Some s inum _ Hdd) as (f' & Hf' & _ & _).
    assert (dir sb s1 ip i1 (af_data f)) as Hdir.
    { split; [done|done| |by apply (Htree inum _ (at_linked _ _ _ _ Hat) Hdd)].
      rewrite Hin1, (proj1 (same_disk_file sb s s1 inum Hsd1)), Hf. done. }
    pose proof (dirlookup_spec sb ds devs s1 ip i1 (af_data f) name' Hinv1 Hdir ltac:(right; lia)) as Hsp.
    rewrite Hlk in Hsp. rewrite Hsp, bind_ret, Hdrop, bind_ret. exists None, name', sd.
    split_and!; [done|by apply namex_post_none|].
    unfold namex_result. cbn [walk walk_parent]. rewrite Hdd. cbn [mbind option_bind]. rewrite <-Hdn, Hlk.
    destruct parent; [|done]. by destruct es; [destruct Hes|].
Qed.

(** ** The first inode *)

Lemma at_iget s r inum :
  at_none s r → two_free r → linked s inum →
  ∃ ip s', iget ROOTDEV inum s = Ok (ip, s') ∧ at_inode s' r ip inum ∧ same_disk s s' ∧ kept r s s'.
Proof.
  intros [Hinv Hrefs Hun] (k1 & k2 & _ & Hk1 & _ & Hr1 & _) Hl.
  assert (∀ k x, f_icache s !! k = Some x → i_ref x = r k) as Href.
  { intros k x Hk. rewrite (Hrefs k x Hk), decide_False by done. lia. }
  destruct (iget_spec sb ds s inum Hinv (proj1 Hl)) as (ip & s' & Hg & Hgot).
  { destruct (lookup_lt_is_Some_2 (f_icache s) k1) as [x Hx]; [by rewrite (ci_len _ _ (proj2 Hinv))|].
    exists k1, x. split; [done|left]. by rewrite (Href k1 x Hx). }
  assert (kept r s s') as Hkept by (eapply kept_gotten; [exact Hgot|]; intros y Hy; rewrite (Href _ _ Hy); lia).
  destruct Hgot as [Hsd Hinv' (i & Hi & Hin & Hri & Hic & Hused & Hfree)].
  destruct (lookup_lt_is_Some_2 (f_icache s) ip) as [y Hy].
  { apply lookup_lt_Some in Hi. by rewrite Hic, length_insert in Hi. }
  assert (i_ref i = r ip + 1 ∧ i_locked i = false) as [Hri' Hli].
  { pose proof (Href ip y Hy) as Hry. pose proof (ci_ref _ _ (proj2 Hinv) ip y Hy).
    destruct (decide (i_ref y = 0)) as [Hz|Hz].
    - destruct (Hfree y Hy Hz) as (_ & -> & ->). split; [lia|exact (Hun ip y Hy)].
    - destruct (Hused y Hy ltac:(lia)) as [_ ->]. split; [cbn; lia|exact (Hun ip y Hy)]. }
  exists ip, s'. split_and!; [done|split|done|exact Hkept]; [done|..].
  - intros k x Hk. rewrite Hic in Hk. apply insert_lookup_Some in Hk as [[-> ->]|[Hne Hk]].
    + by rewrite decide_True.
    + rewrite decide_False by congruence. rewrite (Href k x Hk). lia.
  - intros k x Hk. rewrite Hic in Hk. apply insert_lookup_Some in Hk as [[-> ->]|[Hne Hk]]; [done|by apply (Hun k)].
  - by exists i.
  - by apply (same_disk_linked s s').
Qed.

Lemma at_idup s r cwd i :
  at_none s r → f_icache s !! cwd = Some i → 0 < i_ref i → linked s (i_inum i) →
  at_inode (idup cwd s).2 r cwd (i_inum i) ∧ same_disk s (idup cwd s).2 ∧ kept r s (idup cwd s).2.
Proof.
  intros [Hinv Hrefs Hun] Hi Hr Hl. cbn. split; [|split; [done|]].
  2: { eapply kept_insert; [exact (proj2 (entry_alter s (idup cwd s).2 cwd i (λ i, i <| i_ref ::= λ r, r + 1 |>) Hi eq_refl))|]. intros y Hy _. cbn. congruence. }
  destruct (cache_touch sb ds s cwd i (λ i, i <| i_ref ::= λ r, r + 1 |>)) as [Hinv' Hi']; [done|done|done|done|done|cbn; lia|..].
  { cbn. intros Hv. by apply (ci_valid _ _ (proj2 Hinv) cwd i). }
  set (s' := updi _ cwd s) in *.
  assert (f_icache s' = <[cwd := i <| i_ref ::= λ r, r + 1 |>]> (f_icache s)) as Hic.
  { exact (proj2 (entry_alter s s' cwd i _ Hi eq_refl)). }
  split; [done|..].
  - intros k x Hk. rewrite Hic in Hk. apply insert_lookup_Some in Hk as [[-> ->]|[Hne Hk]].
    + rewrite decide_True by done. pose proof (Hrefs cwd i Hi) as Hri. rewrite decide_False in Hri by done. cbn. lia.
    + rewrite (Hrefs k x Hk), !decide_False by congruence. done.
  - intros k x Hk. rewrite Hic in Hk. apply insert_lookup_Some in Hk as [[-> ->]|[Hne Hk]]; by apply (Hun _ _ ltac:(eassumption)).
  - exists (i <| i_ref ::= λ r, r + 1 |>). split_and!; [done|done|cbn; lia].
  - by apply (same_disk_linked s s').
Qed.

(** The inode a path starts from. *)
Definition start_inum s (cwd : nat) (path : list Z) : Z :=
  if decide (head path = Some SLASH) then ROOTINO
  else match f_icache s !! cwd with Some i => i_inum i | None => 0 end.

Lemma namex_spec s r cwd i path parent name :
  at_none s r → tree_ok s → two_free r → linked s ROOTINO →
  f_icache s !! cwd = Some i → 0 < i_ref i → linked s (i_inum i) →
  0 ∈ path → length name = DIRSIZ →
  ∃ res name' s', namex devs cwd path parent name s = Ok (res, name', s') ∧
    namex_post s s' r res ∧ namex_result s (start_inum s cwd path) (elems (cstr path)) parent s' res name'.
Proof.
  intros Hnone Htree Htf Hroot Hi Hr Hl H0 Hn. destruct path as [|c path]; [by apply not_elem_of_nil in H0|].
  unfold namex, start_inum. rewrite aget_0_cons, bind_ret. cbn [head].
  assert (∃ ip s1, (if decide (c = 47) then iget ROOTDEV ROOTINO s else Ok (idup cwd s)) = Ok (ip, s1) ∧ same_disk s s1 ∧ kept r s s1 ∧
    at_inode s1 r ip (if decide (Some c = Some SLASH) then ROOTINO else i_inum i)) as (ip & s1 & -> & Hsd & Hk1 & Hat).
  { destruct (decide (c = 47)) as [->|Hc].
    - rewrite decide_True by done. destruct (at_iget s r ROOTINO Hnone Htf Hroot) as (ip & s1 & ? & ? & ? & ?). by exists ip, s1.
    - rewrite decide_False by (unfold SLASH; congruence). destruct (at_idup s r cwd i Hnone Hi Hr Hl) as (? & ? & ?). by exists cwd, (idup cwd s).2. }
  rewrite bind_ret, Hi.
  destruct (namex_loop_spec (S (length (c :: path))) s1 r ip _ (c :: path) parent name Hat)
    as (res & name' & s' & Hloop & [Hsd' ? ? ? Hk'] & Hres); [by eapply same_disk_tree|done|done|done|lia|].
  exists res, name', s'. split_and!; [done|split; [exact (same_disk_trans _ _ _ Hsd Hsd')|done..|exact (kept_compose _ _ _ _ Hk1 Hk')]|].
  by apply (namex_result_disk s s1).
Qed.
End walk.
