(* ===== verification/FsImage.v ===== *)
(** * A small file system image

    A disk with the layout [mkfs] chooses, a root directory with the entries
    [.], [..] and [f], and the file [f] with content [hello].  It satisfies
    the invariants, so the theorems about the file system apply to it. *)

From stdpp Require Import gmap.
From S2P Require Import Prelude.
From S2P Require Import Bytes.
From S2P Require Import Log.
From S2P Require Import Fs.
From S2P Require Import FsDir.
From S2P Require Import FsSpec.
From S2P Require Import FileSpec.
From S2P Require Import FileRw.
From S2P Require Import InodeSpec.
From S2P Require Import TruncSpec.
From S2P Require Import FsInv.
From S2P Require Import FsOps.
From S2P Require Import CacheSpec.
From S2P Require Import DirSpec.
From S2P Require Import PathSpec.

Local Open Scope Z_scope.

Definition img_sb : superblock := mksb 1000 941 200 30 2 32 58.
Definition img_ds : Z := 59.

Definition pad (l : list Z) : block := l ++ replicate (BSIZE - length l) 0.
Definition img_dent (inum : Z) (name : list Z) : list Z := le_bytes 2 inum ++ name ++ replicate (14 - length name) 0.

Definition img_root : dinode := mkdinode T_DIR 0 0 1 48 (59 :: replicate 12 0).
Definition img_file : dinode := mkdinode T_FILE 0 0 1 5 (60 :: replicate 12 0).
Definition hello : list Z := [104; 101; 108; 108; 111].

Definition img_blocks : gmap Z block := {[
  32 := pad (replicate 64 0 ++ encode img_root ++ encode img_file);
  58 := pad (replicate 7 255 ++ [31]);
  59 := pad (img_dent 1 [46] ++ img_dent 1 [46; 46] ++ img_dent 2 [102]);
  60 := pad hello ]}.

Definition free_inode_entry : inode := mkinode 0 0 0 false false 0 0 0 0 0 zero_addrs.
Definition image : fstate := mkfs img_sb img_blocks [] (replicate NINODE free_inode_entry).

Lemma image_layout : layout img_sb img_ds.
Proof. by split; vm_compute. Qed.

Lemma image_blocks_ok : blocks_ok image.
Proof.
  intros b. unfold blk. change (f_blk image) with img_blocks. unfold lookup_total, map_lookup_total.
  destruct (img_blocks !! b) as [d|] eqn:Hb; cbn; [|apply wf_zero_block].
  assert (map_Forall (λ _ d, wf_block d) img_blocks) as Hall.
  { apply (bool_decide_eq_true_1 _). by vm_compute. }
  by apply (Hall b d).
Qed.

(** A statement about all numbers in a range, by evaluation. *)
Lemma range_decide (P : Z → Prop) `{∀ x, Decision (P x)} a n :
  forallb (λ x, bool_decide (P x)) (seqZ a n) = true → ∀ x, a ≤ x < a + n → P x.
Proof.
  rewrite forallb_forall. intros Hall x Hx. apply (bool_decide_eq_true_1 _). apply Hall.
  apply list_elem_of_In, elem_of_seqZ. lia.
Qed.

Lemma image_base : fs_base img_sb img_ds image.
Proof.
  split; [apply image_layout|done|apply image_blocks_ok|].
  intros b Hb. apply (range_decide (λ b, bit image b = true) 0 59); [by vm_compute|]. unfold img_ds in Hb. lia.
Qed.

Lemma image_free b : is_data img_sb img_ds b → bit image b = true → b = 59 ∨ b = 60.
Proof.
  intros Hb Hbit. destruct (decide (b < 61)); [unfold is_data, img_ds in Hb; lia|]. exfalso.
  assert (bit image b = false); [|congruence].
  apply (range_decide (λ b, bit image b = false) 61 939); [by vm_compute|].
  unfold is_data in Hb. cbn in Hb. lia.
Qed.

Lemma image_dino : dino img_sb image 1 = img_root ∧ dino img_sb image 2 = img_file ∧
  ∀ inum, 3 ≤ inum < 200 → di_type (dino img_sb image inum) = 0.
Proof.
  split_and!; [by vm_compute|by vm_compute|]. intros inum Hi.
  apply (range_decide (λ i, di_type (dino img_sb image i) = 0) 3 197); [by vm_compute|lia].
Qed.

Lemma image_addrs inum :
  inode_no img_sb inum →
  addrs_of img_sb image inum =
  if decide (inum = 1) then di_addrs img_root else if decide (inum = 2) then di_addrs img_file else zero_addrs.
Proof.
  intros Hi. destruct image_dino as (H1 & H2 & H0). unfold addrs_of, inode_no in *. cbn in Hi.
  destruct (decide (inum = 1)) as [->|]; [by rewrite H1|].
  destruct (decide (inum = 2)) as [->|]; [by rewrite H2|].
  rewrite decide_True; [done|]. apply H0. lia.
Qed.

(** Each of the two files has one block. *)
Lemma image_slots inum n :
  inode_no img_sb inum → (n ≤ MAXFILE)%nat →
  slot image (addrs_of img_sb image inum) n = if decide (n = 0%nat ∧ inum ≤ 2) then 58 + inum else 0.
Proof.
  intros Hi Hn. rewrite image_addrs by done.
  assert (∀ a, slot image (a :: replicate 12 0) n = if decide (n = 0%nat) then a else 0) as Hone.
  { intros a. unfold slot. destruct n as [|n]; [done|].
    rewrite (decide_False (P := S n = 0%nat)) by lia. rewrite lookup_total_cons_ne_0 by lia.
    change ((a :: replicate 12 0) !!! NDIRECT) with 0. cbn [pred].
    case_decide; [apply lookup_total_replicate_2; unfold NDIRECT in *; lia|].
    case_decide; [done|]. by rewrite decide_True. }
  unfold inode_no in Hi. cbn in Hi.
  destruct (decide (inum = 1)) as [->|]; [cbn [di_addrs img_root]; rewrite Hone; repeat case_decide; lia|].
  destruct (decide (inum = 2)) as [->|]; [cbn [di_addrs img_file]; rewrite Hone; repeat case_decide; lia|].
  rewrite slot_zero by done. rewrite decide_False by lia. done.
Qed.

Lemma image_owns inum b :
  inode_no img_sb inum → owns image (addrs_of img_sb image inum) b ↔ inum ≤ 2 ∧ b = 58 + inum.
Proof.
  intros Hi. split.
  - intros (Hb & n & Hn & Hs). rewrite image_slots in Hs by done. case_decide; lia.
  - intros [Hle ->]. unfold inode_no in Hi. split; [lia|]. exists 0%nat. split; [lia|].
    rewrite image_slots by (done || lia). by rewrite decide_True.
Qed.

Lemma image_disk_inv : disk_inv img_sb img_ds image.
Proof.
  split; [apply image_base|..].
  - intros inum Hi. pose proof Hi as Hi'. unfold inode_no in Hi'. split.
    + rewrite image_addrs by done. by repeat case_decide.
    + intros n Hn. rewrite image_slots by done. case_decide; [|done]. intros _.
      assert (inum = 1 ∨ inum = 2) as [-> | ->] by lia; split; vm_compute; intuition congruence.
    + intros n m Hn Hm. rewrite !image_slots by done. repeat case_decide; lia.
  - intros i j b Hi Hj Hne. rewrite !image_owns by done. lia.
  - intros b Hb Hbit. destruct (image_free b Hb Hbit) as [-> | ->]; [exists 1|exists 2];
      (split; [done|]); by apply image_owns.
  - intros inum Hi Ht. destruct image_dino as (H1 & H2 & H0).
    assert (inum = 1 ∨ inum = 2) as Hc.
    { unfold inode_no in Hi. cbn in Hi. destruct (decide (3 ≤ inum)); [|lia]. destruct Ht. apply H0. lia. }
    assert (dsize (dino img_sb image inum) ≤ 48)%nat as Hsz.
    { apply Nat.leb_le. destruct Hc as [-> | ->]; rewrite ?H1, ?H2; reflexivity. }
    split; [pose proof MAXBYTES_Z; lia|].
    intros n Hn Hlt. assert (n = 0%nat) as -> by (unfold BSIZE in Hlt; lia).
    destruct Hc as [-> | ->]; rewrite ?H1, ?H2; by vm_compute.
Qed.

Lemma image_entry ip i : f_icache image !! ip = Some i → i = free_inode_entry.
Proof. intros Hi. by apply lookup_replicate in Hi as [? _]. Qed.

Lemma image_inv : fs_inv img_sb img_ds image.
Proof.
  split; [apply image_disk_inv|]. split; [by vm_compute|..].
  - by intros ip i ->%image_entry.
  - by intros ip i ->%image_entry.
  - by intros ip i ->%image_entry.
  - by intros ip jp i j ->%image_entry.
Qed.

Definition root_data : list Z := img_dent 1 [46] ++ img_dent 1 [46; 46] ++ img_dent 2 [102].

Lemma image_files :
  file img_sb image 1 = Some (mkafile T_DIR 0 0 1 root_data) ∧
  file img_sb image 2 = Some (mkafile T_FILE 0 0 1 hello) ∧
  ∀ inum, 3 ≤ inum < 200 → file img_sb image inum = None.
Proof.
  destruct image_dino as (H1 & H2 & H0). split_and!; [by vm_compute|by vm_compute|].
  intros inum Hi. unfold file. by rewrite H0.
Qed.

Lemma image_room : ∃ inum, inode_no img_sb inum ∧ file img_sb image inum = None.
Proof. exists 3. split; [unfold inode_no; cbn; lia|]. apply image_files. lia. Qed.
Lemma image_slot : ∃ ip i, f_icache image !! ip = Some i ∧ i_ref i = 0.
Proof. by exists 0%nat, free_inode_entry. Qed.
Lemma image_unlocked ip i : f_icache image !! ip = Some i → i_locked i = false.
Proof. by intros ->%image_entry. Qed.

Lemma image_first_free inum :
  inode_no img_sb inum → file img_sb image inum = None → (∀ j, 1 ≤ j < inum → file img_sb image j ≠ None) → inum = 3.
Proof.
  unfold inode_no. intros Hno Hf Hlow. destruct image_files as (H1 & H2 & H0).
  destruct (Z.lt_trichotomy inum 3) as [Hlt|[Heq|Hgt]]; [|exact Heq|].
  - assert (inum = 1 ∨ inum = 2) as [-> | ->] by lia; [rewrite H1 in Hf|rewrite H2 in Hf]; discriminate.
  - destruct (Hlow 3); [lia|]. apply H0. lia.
Qed.

(** The first free block is 61. *)
Lemma image_balloc : match balloc image with Ok (b, _) => b | _ => 0 end = 61.
Proof. by vm_compute. Qed.

(** The image with a reference to inode [inum] in the first cache entry. *)
Definition opened_entry (inum : Z) : inode := free_inode_entry <| i_dev := ROOTDEV |> <| i_inum := inum |> <| i_ref := 1 |>.
Definition opened (inum : Z) : fstate := image <| f_icache := <[0%nat := opened_entry inum]> (f_icache image) |>.

Lemma image_iget inum : iget ROOTDEV inum image = Ok (0%nat, opened inum).
Proof. reflexivity. Qed.

Lemma opened_inv inum : inode_no img_sb inum → fs_inv img_sb img_ds (opened inum).
Proof.
  intros Hi. destruct (iget_spec img_sb img_ds image inum image_inv Hi) as (ip & s' & Hg & Hgot).
  { exists 0%nat, free_inode_entry. split; [done|by left]. }
  rewrite image_iget in Hg. injection Hg as <- <-. by destruct Hgot.
Qed.

(** The image with the inode [inum] locked. *)
Lemma locked_image inum f :
  inode_no img_sb inum → file img_sb image inum = Some f →
  ∃ s i, ilock 0 (opened inum) = Ok s ∧ fs_inv img_sb img_ds s ∧ same_disk image s ∧ cached s 0 i ∧
    i_locked i = true ∧ i_inum i = inum ∧ i_ref i = 1 ∧ i_type i = af_type f.
Proof.
  intros Hno Hf. unfold file in Hf. case_decide as Ht; [done|]. injection Hf as <-.
  destruct (ilock_spec img_sb img_ds (opened inum) 0 (opened_entry inum))
    as (s & i & Hl & Hinv & Hsd & Hca & Hlk & Hin & Hr & Hty & _); [by apply opened_inv|done..|].
  exists s, i. by split_and!.
Qed.

Lemma image_nfree : nfree image = 939%nat.
Proof. by vm_compute. Qed.

Lemma image_dlookup nm j : dlookup root_data nm = Some j → j = 1 ∨ j = 2.
Proof.
  unfold dlookup. destruct (dfind root_data nm (nentries root_data) 0) as [k|] eqn:Hk; [|done].
  intros [= <-]. apply dfind_Some in Hk as (Hk & _). change (nentries root_data) with 3%nat in Hk.
  assert (k = 0 ∨ k = 1 ∨ k = 2)%nat as [-> | [-> | ->]] by lia; by vm_compute; auto.
Qed.

Lemma image_linked inum : linked img_sb image inum ↔ inum = 1 ∨ inum = 2.
Proof.
  destruct image_files as (H1 & H2 & H0). split.
  - intros (Hi & f & Hf & _). unfold inode_no in Hi. cbn in Hi. destruct (decide (3 ≤ inum)); [|lia].
    by rewrite H0 in Hf by lia.
  - intros [-> | ->]; (split; [unfold inode_no; cbn; lia|]).
    + eexists. split; [exact H1|discriminate].
    + eexists. split; [exact H2|discriminate].
Qed.

Lemma image_tree : tree_ok img_sb image.
Proof.
  destruct image_files as (H1 & H2 & H0). intros inum data Hl Hd. apply image_linked in Hl as [-> | ->].
  - unfold dir_data in Hd. rewrite H1 in Hd. injection Hd as <-. split; [by vm_compute|].
    intros nm j Hj. by apply image_linked, (image_dlookup nm).
  - unfold dir_data in Hd. by rewrite H2 in Hd.
Qed.

(** In [opened 1] nobody else holds references and nothing is locked. *)
Definition opened_refs (k : nat) : Z := if decide (k = 0%nat) then 1 else 0.

Lemma opened_none : at_none img_sb img_ds (opened 1) opened_refs.
Proof.
  assert (∀ k i, f_icache (opened 1) !! k = Some i →
    (k = 0%nat ∧ i = opened_entry 1) ∨ (k ≠ 0%nat ∧ i = free_inode_entry)) as Hall.
  { intros k i. change (f_icache (opened 1)) with (<[0%nat := opened_entry 1]> (f_icache image)).
    intros [(-> & <- & _)|[Hk Hi]]%list_lookup_insert_Some; [by left|]. right. split; [by intros ->|by apply (image_entry k)]. }
  split; [apply opened_inv; unfold inode_no; cbn; lia|..].
  - intros k i [[-> ->]|[Hk ->]]%Hall; unfold opened_refs; [done|]. rewrite (decide_False (P := k = 0%nat)) by done. done.
  - by intros k i [[-> ->]|[Hk ->]]%Hall.
Qed.

Lemma opened_tree : tree_ok img_sb (opened 1).
Proof. apply (same_disk_tree img_sb image); [done|apply image_tree]. Qed.

Lemma opened_linked inum : linked img_sb (opened 1) inum ↔ inum = 1 ∨ inum = 2.
Proof. rewrite (same_disk_linked img_sb image) by done. apply image_linked. Qed.
