(* ===== verification/FsTheorems.v ===== *)
(** * Theorems on the file system

    The properties of fs.c: block allocation, inodes on disk and in the cache,
    file content, directories and paths, each with an instance on the disk
    image of [FsImage]. *)

From stdpp Require Import gmap.
From S2P Require Import Prelude.
From S2P Require Import Bytes.
From S2P Require Import CString.
From S2P Require Import Log.
From S2P Require Import Fs.
From S2P Require Import FsDir.
From S2P Require Import FsSpec.
From S2P Require Import FileSpec.
From S2P Require Import FileRw.
From S2P Require Import InodeSpec.
From S2P Require Import TruncSpec.
From S2P Require Import FsInv.
From S2P Require Import FsOps.
From S2P Require Import CacheSpec.
From S2P Require Import DirSpec.
From S2P Require Import PathSpec.
From S2P Require Import FsImage.

Local Open Scope Z_scope.

Lemma slice_overwrite off n (data c : list Z) :
  (off ≤ length c)%nat → length data = n → slice off n (overwrite off data c) = data.
Proof.
  intros Ho Hl. pose proof (overwrite_length off data c Ho) as Hol.
  apply list_eq. intros k. destruct (decide (k < n)%nat).
  - rewrite slice_lookup, overwrite_lookup by lia. rewrite decide_True by lia. f_equal. lia.
  - rewrite !lookup_ge_None_2; [done|lia|]. rewrite slice_length; lia.
Qed.

Section theorems.
Context (sb : superblock) (ds : Z) (devs : list devsw).
Notation base := (fs_base sb ds).
Notation is_data := (is_data sb ds).
Notation inode_no := (inode_no sb).
Notation dino := (dino sb).
Notation file := (file sb).
Notation fs_inv := (fs_inv sb ds).
Implicit Types (s : fstate) (inum b : Z) (ip dp : nat).

(** [balloc] takes the lowest free block, marks it in the bitmap, zeroes it
    and touches no other block; [bfree] gives it back, so that the bitmap is what
    it was; freeing it once more, or allocating on a full disk, panics. *)
Theorem balloc_bfree s :
  base s →
  if decide (nfree s = 0%nat) then balloc s = Panic "balloc: out of blocks"
  else ∃ b s1 s2,
    balloc s = Ok (b, s1) ∧ is_data b ∧ bit s b = false ∧ (∀ x, 0 ≤ x < b → bit s x = true) ∧
    blk s1 b = zero_block ∧ bit s1 b = true ∧
    (∀ x, x ≠ b → x ≠ sb_bmapstart sb → blk s1 x = blk s x) ∧
    (∀ x, 0 ≤ x < sb_size sb → x ≠ b → bit s1 x = bit s x) ∧
    bfree b s1 = Ok s2 ∧ (∀ x, 0 ≤ x < sb_size sb → bit s2 x = bit s x) ∧
    bfree b s2 = Panic "freeing free block".
Proof.
  intros Hs. case_decide as Hf; [by apply (balloc_full sb ds)|].
  destruct (balloc_spec sb ds s Hs) as (b & Hal & Hd & Hbit & Hfirst); [lia|].
  pose proof (ly_size _ _ (fb_layout _ _ _ Hs)). assert (0 ≤ b < sb_size sb) by (unfold FsSpec.is_data in Hd; lia).
  pose proof (allocated_base sb ds s b Hs Hd) as Hs1. set (s1 := allocated sb s b) in *.
  assert (bit s1 b = true) as Hb1.
  { unfold s1. rewrite (allocated_bit sb ds) by done. by rewrite bool_decide_true. }
  assert (∀ x, 0 ≤ x < sb_size sb → x ≠ b → bit s1 x = bit s x) as Ho1.
  { intros x Hx Hne. unfold s1. rewrite (allocated_bit sb ds) by done. by rewrite bool_decide_false. }
  assert (∀ x, 0 ≤ x < sb_size sb → bit (freed sb s1 b) x = bit s x) as Ho2.
  { intros x Hx. rewrite (freed_bit sb ds) by done. destruct (decide (x = b)) as [->|].
    - rewrite bool_decide_true by done. by rewrite Hbit.
    - rewrite bool_decide_false by done. by apply Ho1. }
  exists b, s1, (freed sb s1 b). split_and!; try done.
  - apply allocated_zero.
  - intros x ? ?. by apply allocated_blk.
  - by apply (bfree_spec sb ds).
  - apply (bfree_free sb ds); [by apply freed_base|done|by rewrite Ho2].
Qed.

(** What [iupdate] writes to the disk is what [ilock] reads back: type, device
    numbers, link count, size and all thirteen block addresses of the inode
    survive, and no other inode on the disk changes. *)
Theorem inode_roundtrip s ip jp i j :
  base s → f_icache s !! ip = Some i → inode_no (i_inum i) → wf_dinode (to_dinode i) → i_type i ≠ 0 →
  f_icache s !! jp = Some j → i_inum j = i_inum i → i_valid j = false → i_locked j = false → 1 ≤ i_ref j →
  ∃ s1 s2 j', iupdate ip s = Ok s1 ∧ ilock jp s1 = Ok s2 ∧ f_icache s2 !! jp = Some j' ∧
    to_dinode j' = to_dinode i ∧ i_valid j' = true ∧ i_locked j' = true ∧
    ∀ k, inode_no k → k ≠ i_inum i → dino s2 k = dino s k.
Proof.
  intros Hs Hi Hn Hwf Ht Hj Hij Hv Hl Hr. pose proof (put_base sb ds s _ _ Hs Hn Hwf) as Hs1.
  pose proof (dino_put_eq sb s (i_inum i) (to_dinode i) (fb_blocks _ _ _ Hs) Hwf) as Hd.
  set (s1 := put sb s (i_inum i) (to_dinode i)) in *.
  assert (f_icache s1 !! jp = Some j) as Hj1 by exact Hj.
  exists s1. eexists _, _. split; [by apply (iupdate_Ok sb ds)|].
  split; [apply (ilock_Ok sb ds s1 jp j); [exact Hs1|exact Hj1|exact Hl|exact Hr|by rewrite Hij|]|].
  { intros _. rewrite Hij, Hd. exact Ht. }
  split; [by apply updi_lookup|]. rewrite Hv, Hij, Hd.
  split_and!; [by destruct i|reflexivity|reflexivity|].
  intros k Hk Hne. change (dino s1 k = dino s k). apply (dino_put_ne sb ds); [apply Hs|done..].
Qed.

(** [readi] at offset [off] of a file with content [c] returns the bytes of [c]
    from there, as many as were asked for and [c] has, and changes nothing;
    an offset past the end, or [off + n] that overflows, gives -1. *)
Theorem readi_content s ip i f off n :
  fs_inv s → cached s ip i → i_type i ≠ T_DEV → file s (i_inum i) = Some f → 0 ≤ off < 2 ^ 32 → 0 ≤ n < 2 ^ 32 →
  readi devs ip off n s =
    (let c := af_data f in
     if decide (off ≤ Z.of_nat (length c) ∧ off + n < 2 ^ 32) then
       let m := Nat.min (Z.to_nat n) (length c - Z.to_nat off) in
       Ok (Z.of_nat m, slice (Z.to_nat off) m c, s)
     else Ok (-1, [], s)).
Proof.
  intros Hinv Hca Ht Hf Hoff Hn. cbn zeta. case_decide as Hc.
  - pose proof (readi_spec sb ds devs s ip i (Z.to_nat off) (Z.to_nat n) f
      (Nat.min (Z.to_nat n) (length (af_data f) - Z.to_nat off)) Hinv Hca Ht Hf) as Hr.
    rewrite !Z2Nat.id in Hr by lia. apply Hr; [lia..|done].
  - destruct (cached_facts sb ds s ip i Hinv Hca) as (_ & _ & _ & _ & _ & _ & Hmax & _ & Hs0).
    rewrite (cached_file sb ds s ip i Hinv Hca) in Hf. injection Hf as <-. cbn [af_data] in Hc.
    rewrite range_length in Hc. unfold readi.
    rewrite (proj2 (geti_Ok _ _ _) (ca_entry _ _ _ Hca)), bind_ret, decide_False by done.
    rewrite decide_True; [done|]. unfold u32.
    destruct (decide (off + n < 2 ^ 32)); [left; lia|right].
    rewrite <-(Z_mod_plus_full _ (-1)), Z.mod_small; lia.
Qed.


(** [ialloc] gives the lowest free inode number to a new, empty, unlinked file of
    the type asked for and changes no other file; the cache entry it returns is
    the only one for that inode, and locking it shows the new inode. *)
Theorem ialloc_first s type :
  fs_inv s → short type → type ≠ 0 → (∃ inum, inode_no inum ∧ file s inum = None) →
  (∃ ip i, f_icache s !! ip = Some i ∧ i_ref i = 0) → (∀ ip i, f_icache s !! ip = Some i → i_locked i = false) →
  ∃ ip inum s1 s2 i, ialloc ROOTDEV type s = Ok (ip, s1) ∧ ilock ip s1 = Ok s2 ∧ fs_inv s2 ∧
    inode_no inum ∧ file s inum = None ∧ (∀ j, 1 ≤ j < inum → file s j ≠ None) ∧
    cached s2 ip i ∧ i_inum i = inum ∧ i_type i = type ∧
    file s2 inum = Some (mkafile type 0 0 0 []) ∧
    (∀ j, inode_no j → j ≠ inum → file s2 j = file s j).
Proof.
  intros Hinv Ht Hnz Hfree Hroom Hunl.
  destruct (ialloc_spec sb ds s type Hinv Ht Hnz Hfree Hroom)
    as (ip & inum & s0 & s1 & Hia & Hno & Hnone & Hfirst & Hnew & Hoth & Hs0 & _ & Hgot).
  pose proof (gotten_unlocked sb ds s0 s1 ip inum Hgot) as Hl.
  destruct Hgot as [Hsd1 Hinv1 (i & Hi & Hin & Hr & _)].
  assert (di_type (dino s1 inum) = type) as Hdt.
  { unfold FsInv.file in Hnew. case_decide; [done|]. by injection Hnew. }
  destruct (ilock_spec sb ds s1 ip i Hinv1 Hi Hr) as (s2 & i' & Hlk & Hinv2 & Hsd2 & Hca & _ & Hin' & _ & Hty & _).
  { apply (Hl ltac:(rewrite Hs0; intros k j Hj; split; [by apply (ci_ref _ _ (proj2 Hinv) k j)|by apply (Hunl k j)]) ip i Hi). } { by rewrite Hin, Hdt. }
  exists ip, inum, s1, s2, i'. rewrite Hin in *. split_and!; try done.
  - by rewrite Hty.
  - by rewrite (proj1 (same_disk_file sb s1 s2 inum Hsd2)).
  - intros j Hj Hne. rewrite (proj1 (same_disk_file sb s1 s2 j Hsd2)). by apply Hoth.
Qed.

(** [iput] drops one reference.  If it was the last one to an inode without
    links, the file is gone, every block in use still has an owner, all other
    files are untouched, and only the bitmap and the inode's block were
    logged; otherwise the disk is as it was. *)
Theorem iput_last s ip i :
  fs_inv s → cached s ip i → i_locked i = false →
  ∃ s' i', iput ip s = Ok s' ∧ fs_inv s' ∧ f_icache s' = <[ip := i']> (f_icache s) ∧ i_ref i' = i_ref i - 1 ∧
    i_locked i' = false ∧
    if decide (i_nlink i = 0 ∧ i_ref i = 1) then
      file s' (i_inum i) = None ∧ (∀ j, inode_no j → j ≠ i_inum i → file s' j = file s j) ∧
      (∀ x, x ∈ f_logged s' → x ∈ f_logged s ∨ x = sb_bmapstart sb ∨ x = IBLOCK (i_inum i) sb)
    else same_disk s s'.
Proof.
  intros Hinv Hca Hl. pose proof Hca as [He Hr Hv]. case_decide as Hlast.
  - destruct Hlast as [Hn H1]. destruct (iput_free sb ds s ip i Hinv Hca Hl Hn H1)
      as (s' & i' & Hp & Hinv' & Hgone & Hoth & Hic & Hr' & Hl' & Hlog).
    exists s', i'. split_and!; try done. lia.
  - destruct (iput_keep sb ds s ip i Hinv He Hr Hl) as (s' & Hp & Hinv' & Hsd & Hic); [naive_solver|].
    exists s', (i <| i_ref ::= λ r, r - 1 |>). by split_and!.
Qed.

(** A directory is a map from names to inode numbers: [dirlink] of a name that is not
    there adds it, cut to [DIRSIZ] bytes, and changes no other name and no other
    file; [dirlookup] of that name then finds the inode and of any name what the
    map has; the name can be neither linked twice nor found before. *)
Theorem dirlink_dirlookup s dp i data name inum :
  fs_inv s → dir sb s dp i data → 0 ∈ name ∨ (DIRSIZ ≤ length name)%nat → Forall byte_range name →
  1 ≤ inum < 2 ^ 16 → dlookup data (dname name) = None → (length data < MAXBYTES)%nat → (3 ≤ nfree s)%nat →
  dirlookup devs dp name s = Ok (None, s) ∧
  ∃ s' i' data', dirlink devs dp name inum s = Ok (0, s') ∧ fs_inv s' ∧ dir sb s' dp i' data' ∧ i_inum i' = i_inum i ∧
    (∀ nm, dlookup data' nm = if decide (nm = dname name) then Some inum else dlookup data nm) ∧
    (∀ j, inode_no j → j ≠ i_inum i → file s' j = file s j) ∧
    (∃ off, dirlookup devs dp name s' = ('(ip, s'') ← iget (i_dev i') inum s'; Ok (Some (ip, off), s''))) ∧
    dirlink devs dp name inum s' =
      ('(ip, s2) ← iget (i_dev i') inum s'; s3 ← iput ip s2; Ok (-1, s3)).
Proof.
  intros Hinv Hdir Hname Hby Hi Hnone Hfull Hfree.
  pose proof (dirlookup_spec sb ds devs s dp i data name Hinv Hdir Hname) as Hbefore. rewrite Hnone in Hbefore.
  split; [done|].
  destruct (dirlink_spec sb ds devs s dp i data name inum Hinv Hdir Hname ltac:(by apply Forall_take, Forall_cstr) Hi Hnone Hfull Hfree)
    as (s' & i' & data' & Hln & Hinv' & Hdir' & Hin & _ & _ & _ & Hmap & Hoth & _).
  pose proof (dirlookup_spec sb ds devs s' dp i' data' name Hinv' Hdir' Hname) as Hafter.
  rewrite Hmap, decide_True in Hafter by done. destruct Hafter as [off Hafter].
  exists s', i', data'. split_and!; try done; [by exists off|].
  unfold dirlink. rewrite Hafter. by destruct (iget (i_dev i') inum s') as [[ip s2]| |].
Qed.

(** C23. [namei] and [nameiparent] resolve a path the way the abstract walk does: from the root
    or the current directory, element by element through the directories'
    maps.  They return a reference to the inode the walk ends at (or, for the
    parent, to the last directory, with the last element in [name]) or 0 when there
    is none; the disk is untouched, nothing is left locked and every reference
    taken on the way is given back. *)
Theorem namex_resolves s r cwd i path parent name :
  at_none sb ds s r → tree_ok sb s → two_free r → linked sb s ROOTINO →
  f_icache s !! cwd = Some i → 0 < i_ref i → linked sb s (i_inum i) →
  0 ∈ path → length name = DIRSIZ →
  ∃ res name' s', namex devs cwd path parent name s = Ok (res, name', s') ∧
    namex_post sb ds s s' r res ∧ namex_result sb s (start_inum s cwd path) (elems (cstr path)) parent s' res name'.
Proof. apply namex_spec. Qed.
End theorems.

(** ** Instances on the image *)

Lemma balloc_bfree_witness : ∃ s1, balloc image = Ok (61, s1) ∧ bit image 61 = false ∧ bit s1 61 = true.
Proof.
  pose proof (balloc_bfree img_sb img_ds image image_base) as H. rewrite decide_False in H by (rewrite image_nfree; discriminate).
  destruct H as (b & s1 & _ & Ha & _ & Hb & Hfirst & _ & Hb1 & _). exists s1.
  assert (b = 61) as -> by (pose proof image_balloc as H; by rewrite Ha in H).
  split; [exact Ha|]. split; [exact Hb|exact Hb1].
Defined.

Lemma inode_roundtrip_witness :
  ∃ s1 s2, iupdate 0 ((opened 2) <| f_icache ::= alter (λ i, i <| i_type := T_FILE |> <| i_size := 7 |>) 0%nat |>) = Ok s1 ∧
    ilock 0 s1 = Ok s2.
Proof.
  set (s := (opened 2) <| f_icache ::= _ |>).
  set (i := free_inode_entry <| i_dev := ROOTDEV |> <| i_inum := 2 |> <| i_ref := 1 |> <| i_type := T_FILE |> <| i_size := 7 |>).
  destruct (inode_roundtrip img_sb img_ds s 0 0 i i) as (s1 & s2 & j & H1 & H2 & _); try done.
  - destruct image_base. by split.
  - split; [cbn; unfold short, uint, T_FILE; lia..|done|].
    change (Forall uint zero_addrs). apply Forall_replicate. unfold uint. lia.
  - by exists s1, s2.
Defined.

Lemma readi_content_witness : ∃ s, ilock 0 (opened 2) = Ok s ∧ readi [] 0 1 100 s = Ok (4, [101; 108; 108; 111], s).
Proof.
  destruct image_files as (_ & H2 & _).
  destruct (locked_image 2 _ ltac:(done) H2) as (s & i & Hl & Hinv & Hsd & Hca & _ & Hin & _ & Hty). exists s. split; [done|].
  apply (readi_content img_sb img_ds [] s 0 i (mkafile T_FILE 0 0 1 hello) 1 100 Hinv Hca); [by rewrite Hty|..|lia|lia].
  by rewrite Hin, (proj1 (same_disk_file img_sb _ _ 2 Hsd)).
Defined.


Lemma ialloc_first_witness : ∃ ip s1 s2, ialloc ROOTDEV T_DIR image = Ok (ip, s1) ∧ ilock ip s1 = Ok s2 ∧
  file img_sb s2 3 = Some (mkafile T_DIR 0 0 0 []).
Proof.
  destruct (ialloc_first img_sb img_ds image T_DIR image_inv ltac:(unfold short, T_DIR; lia) ltac:(discriminate)
    image_room image_slot image_unlocked) as (ip & inum & s1 & s2 & i & Ha & Hl & _ & Hno & Hf & Hlow & _ & _ & _ & Hnew & _).
  rewrite (image_first_free inum Hno Hf Hlow) in Hnew.
  exists ip, s1, s2. split; [exact Ha|]. split; [exact Hl|exact Hnew].
Defined.

(** The file [f] keeps its link, so the disk stays as it is. *)
Lemma iput_last_witness : ∃ s s1 s', ilock 0 (opened 2) = Ok s ∧ iunlock 0 s = Ok s1 ∧ iput 0 s1 = Ok s' ∧
  same_disk s1 s' ∧ i_ref <$> f_icache s' !! 0%nat = Some 0.
Proof.
  destruct image_files as (_ & H2 & _).
  destruct (locked_image 2 _ ltac:(done) H2) as (s & i & Hl & Hinv & Hsd & Hca & Hlk & Hin & Hr & Hty).
  destruct (iunlock_spec img_sb img_ds s 0 i Hinv (ca_entry _ _ _ Hca)) as (s1 & Hu & Hinv1 & Hsd1 & Hic1); [lia|done|].
  pose proof (lookup_lt_Some _ _ _ (ca_entry _ _ _ Hca)) as Hlt.
  assert (cached s1 0 (i <| i_locked := false |>)) as Hca1.
  { destruct Hca as [He ? ?]. split; [rewrite Hic1; by apply list_lookup_insert_eq|done..]. }
  pose proof (cached_file img_sb img_ds s1 0 _ Hinv1 Hca1) as Hf1.
  destruct (iput_last img_sb img_ds s1 0 _ Hinv1 Hca1 eq_refl) as (s' & i' & Hp & _ & Hic' & Hr' & _ & Hres).
  assert (i_nlink i = 1) as Hnl.
  { cbn [i_inum] in Hf1. change (i_inum (i <| i_locked := false |>)) with (i_inum i) in Hf1.
    rewrite Hin, (proj1 (same_disk_file img_sb _ _ 2 Hsd1)), (proj1 (same_disk_file img_sb _ _ 2 Hsd)), H2 in Hf1.
    injection Hf1 as _ _ _ Hnl _. symmetry. exact Hnl. }
  rewrite decide_False in Hres by (intros [Hz _]; change (i_nlink i = 0) in Hz; lia).
  exists s, s1, s'. split; [exact Hl|]. split; [exact Hu|]. split; [exact Hp|]. split; [exact Hres|].
  rewrite Hic', list_lookup_insert_eq by (rewrite Hic1, length_insert; exact Hlt). cbn [fmap option_fmap option_map].
  f_equal. rewrite Hr'. change (i_ref i - 1 = 0). lia.
Defined.

(** Linking the file [f] once more, as [g]. *)
Lemma dirlink_dirlookup_witness : ∃ s s', ilock 0 (opened 1) = Ok s ∧
  dirlookup [] 0 [103; 0] s = Ok (None, s) ∧ dirlink [] 0 [103; 0] 2 s = Ok (0, s').
Proof.
  destruct image_files as (H1 & _ & _).
  destruct (locked_image 1 _ ltac:(done) H1) as (s & i & Hl & Hinv & Hsd & Hca & Hlk & Hin & Hr & Hty).
  destruct (dirlink_dirlookup img_sb img_ds [] s 0 i root_data [103; 0] 2 Hinv) as (Hb & s' & _ & _ & Hln & _).
  - split; [exact Hca|rewrite Hty; reflexivity| |by vm_compute].
    rewrite Hin, (proj1 (same_disk_file img_sb _ _ 1 Hsd)), H1. reflexivity.
  - left. right. left.
  - apply (bool_decide_eq_true_1 _). by vm_compute.
  - lia.
  - by vm_compute.
  - pose proof MAXBYTES_Z. change (length root_data) with 48%nat. lia.
  - rewrite (same_disk_nfree _ _ Hsd), image_nfree. lia.
  - exists s, s'. split; [exact Hl|]. split; [exact Hb|exact Hln].
Defined.

(** [/.././f] is the file [f]. *)
Lemma namex_resolves_witness : ∃ res name' s1,
  namex [] 0 [47; 46; 46; 47; 46; 47; 102; 0] false (replicate 14 0) (opened 1) = Ok (Some res, name', s1) ∧
  i_inum <$> f_icache s1 !! res = Some 2 ∧ same_disk (opened 1) s1.
Proof.
  assert (linked img_sb (opened 1) ROOTINO) as Hroot by (by apply opened_linked; left).
  destruct (namex_resolves img_sb img_ds [] (opened 1) opened_refs 0 (opened_entry 1)
    [47; 46; 46; 47; 46; 47; 102; 0] false (replicate 14 0) opened_none opened_tree) as (res & name' & s1 & Hnx & [Hsd _ _ _] & Hres).
  - exists 1%nat, 2%nat. by split_and!; [|unfold NINODE; lia..| |].
  - exact Hroot.
  - reflexivity.
  - reflexivity.
  - exact Hroot.
  - apply (bool_decide_eq_true_1 _). by vm_compute.
  - reflexivity.
  - change (refers s1 res 2) in Hres. destruct Hres as (jp & i & -> & Hi & Hin).
    exists jp, name', s1. split; [exact Hnx|]. split; [rewrite Hi; cbn; by rewrite Hin|exact Hsd].
Defined.
