(* ===== verification/Ulib.v ===== *)
(** * The user library: [ulib.c] and [printf.c]

    Strings that are only read are the bytes from their address to the end of
    the object that holds them, as in [CString].  What [printf] writes is the
    list of bytes of its [write] system calls, one byte each. *)

From S2P Require Import Prelude.
From S2P Require Import Bytes.
From S2P Require Import CString.

Local Open Scope Z_scope.

(** ** ulib.c *)

(** The bytes [strcpy] stores, the NUL included. *)
Fixpoint strcpy (t : list Z) : outcome (list Z) :=
  match t with
  | [] => Fault "array read out of bounds"
  | c :: t' => if decide (c = 0) then Ok [0] else r ← strcpy t'; Ok (c :: r)
  end.

Fixpoint strcmp (p q : list Z) : outcome Z :=
  match p, q with
  | a :: p', b :: q' => if decide (a ≠ 0 ∧ a = b) then strcmp p' q' else Ok (a - b)
  | _, _ => Fault "array read out of bounds"
  end.

(** The offset of the character from [s], or a null pointer. *)
Fixpoint strchr (s : list Z) (c : Z) : outcome (option Z) :=
  match s with
  | [] => Fault "array read out of bounds"
  | x :: s' =>
      if decide (x = 0) then Ok None
      else if decide (x = c) then Ok (Some 0)
      else r ← strchr s' c; Ok (option_map (λ o, o + 1) r)
  end.

(** [n = n*10 + *s++ - '0'] while there are digits. *)
Fixpoint atoi_loop (s : list Z) (n : Z) : outcome Z :=
  match s with
  | [] => Fault "array read out of bounds"
  | c :: s' => if decide (48 ≤ c ≤ 57) then atoi_loop s' (i32 (n * 10 + c - 48)) else Ok n
  end.
Definition atoi (s : list Z) : outcome Z := atoi_loop s 0.

(** [gets] with the bytes that [read(0, &c, 1)] delivers: the bytes stored in
    [buf] before the NUL, and the bytes that are left. *)
Fixpoint gets_loop (n : nat) (input : list Z) : list Z * list Z :=
  match n, input with
  | S n', c :: input' =>
      if decide (c = 10 ∨ c = 13) then ([c], input')
      else let '(l, rest) := gets_loop n' input' in (c :: l, rest)
  | _, _ => ([], input)
  end.
Definition gets (max : Z) (input : list Z) : list Z * list Z :=
  let '(l, rest) := gets_loop (Z.to_nat (max - 1)) input in (l ++ [0], rest).

Definition umemset (mem : list Z) (dst c : Z) (n : nat) : outcome (list Z) := stosb mem dst c n.
(** [memmove] of the user library always copies upwards. *)
Definition umemmove (mem : list Z) (dst src n : Z) : outcome (list Z) := copy_up mem dst src (Z.to_nat n).

(** ** printf.c *)

(** [digits[x % base]] *)
Definition digit (d : Z) : Z := if decide (d < 10) then 48 + d else 55 + d.

(** The [do] loop: digits from the lowest, stored in [buf] from index [i]. *)
Fixpoint digits_loop (fuel : nat) (x base : Z) (buf : list Z) (i : Z) : outcome (list Z * Z) :=
  buf' ← aset buf i (digit (x mod base));
  if decide (x / base ≠ 0) then
    match fuel with
    | O => Fault "fuel"
    | S fuel' => digits_loop fuel' (x / base) base buf' (i + 1)
    end
  else Ok (buf', i + 1).

(** [while(--i >= 0) putc(fd, buf[i]);] *)
Fixpoint put_down (buf : list Z) (i : nat) : outcome (list Z) :=
  match i with
  | O => Ok []
  | S i' => c ← aget buf (Z.of_nat i'); r ← put_down buf i'; Ok (c :: r)
  end.

(** [stack] is what the uninitialised [buf] holds; 32 iterations exhaust a
    32-bit number. *)
Definition printint (stack : list Z) (xx base : Z) (sgn : bool) : outcome (list Z) :=
  let neg := bool_decide (sgn = true ∧ xx < 0) in
  let x := if neg then u32 (- xx) else u32 xx in
  '(buf, i) ← digits_loop 32 x base stack 0;
  '(buf, i) ← (if neg then buf' ← aset buf i 45; Ok (buf', i + 1) else Ok (buf, i));
  put_down buf (Z.to_nat i).

(** The bytes of a string up to its NUL. *)
Fixpoint put_str (s : list Z) : outcome (list Z) :=
  match s with
  | [] => Fault "array read out of bounds"
  | c :: s' => if decide (c = 0) then Ok [] else r ← put_str s'; Ok (c :: r)
  end.

Definition null_str : list Z := [40; 110; 117; 108; 108; 41; 0]. (* (null) *)

Section printf.
(** What the caller's memory holds from an address on, and the stack garbage. *)
Context (str : Z → list Z) (stack : list Z).

(** The loop over the format, [pct] being [state == '%']; [ap] are the words
    after [fmt] on the stack. *)
Fixpoint printf_loop (fmt : list Z) (ap : list Z) (pct : bool) : outcome (list Z) :=
  match fmt with
  | [] => Fault "array read out of bounds"
  | c :: fmt' =>
      if decide (c = 0) then Ok []
      else if pct then
        if decide (c = 100) then
          a ← aget ap 0; o ← printint stack (i32 a) 10 true; r ← printf_loop fmt' (drop 1 ap) false; Ok (o ++ r)
        else if decide (c = 120 ∨ c = 112) then
          a ← aget ap 0; o ← printint stack (i32 a) 16 false; r ← printf_loop fmt' (drop 1 ap) false; Ok (o ++ r)
        else if decide (c = 115) then
          a ← aget ap 0;
          o ← put_str (if decide (a = 0) then null_str else str a);
          r ← printf_loop fmt' (drop 1 ap) false; Ok (o ++ r)
        else if decide (c = 99) then
          a ← aget ap 0; r ← printf_loop fmt' (drop 1 ap) false; Ok (u8 a :: r)
        else if decide (c = 37) then r ← printf_loop fmt' ap false; Ok (c :: r)
        else r ← printf_loop fmt' ap false; Ok (37 :: c :: r)
      else if decide (c = 37) then printf_loop fmt' ap true
      else r ← printf_loop fmt' ap false; Ok (c :: r)
  end.
Definition printf (fmt ap : list Z) : outcome (list Z) := printf_loop fmt ap false.
End printf.

(** ** Numbers *)

(** The digits of a number, lowest first. *)
Fixpoint digs (fuel : nat) (x base : Z) : list Z :=
  x mod base :: (if decide (x / base ≠ 0) then match fuel with O => [] | S fuel' => digs fuel' (x / base) base end else []).

Fixpoint digs_val (base : Z) (l : list Z) : Z :=
  match l with [] => 0 | d :: l' => d + base * digs_val base l' end.

Lemma div_pow x base (k : nat) : 2 ≤ base → 0 ≤ x < base ^ Z.of_nat (S k) → 0 ≤ x / base < base ^ Z.of_nat k.
Proof.
  intros Hb Hx. rewrite Nat2Z.inj_succ, Z.pow_succ_r in Hx by lia.
  split; [apply Z.div_pos; lia|]. apply Z.div_lt_upper_bound; lia.
Qed.

Lemma digs_spec fuel x base (k : nat) :
  2 ≤ base → 0 ≤ x < base ^ Z.of_nat (S k) → (k ≤ fuel)%nat →
  digs_val base (digs fuel x base) = x ∧ Forall (λ d, 0 ≤ d < base) (digs fuel x base) ∧
  (length (digs fuel x base) ≤ S k)%nat ∧ (1 ≤ length (digs fuel x base))%nat.
Proof.
  intros Hb. revert x k. induction fuel as [|fuel IH]; intros x k Hx Hk.
  - assert (k = 0%nat) as -> by lia. change (Z.of_nat 1) with 1 in Hx. rewrite Z.pow_1_r in Hx.
    cbn [digs]. rewrite Z.div_small, Z.mod_small by lia. rewrite decide_False by lia. cbn [digs_val length].
    split_and!; [lia|constructor; [lia|constructor]|lia|lia].
  - cbn [digs]. pose proof (Z.div_mod x base). pose proof (Z.mod_pos_bound x base).
    case_decide as Hd.
    + destruct k as [|k]. { change (Z.of_nat 1) with 1 in Hx. rewrite Z.pow_1_r in Hx. rewrite Z.div_small in Hd; lia. }
      destruct (IH (x / base) k) as (Hv & Hf & Hl & _); [by apply div_pow|lia|].
      cbn [digs_val length]. rewrite Hv. split_and!; [lia|constructor; [lia|done]|lia|lia].
    + cbn [digs_val length]. split_and!; [lia|constructor; [lia|constructor]|lia|lia].
Qed.

Lemma inserts_cons_at {A} (i : nat) (x : A) k l : list_inserts i (x :: k) l = <[i := x]> (list_inserts (S i) k l).
Proof. done. Qed.

Lemma insert_inserts_lt {A} (i j : nat) (x : A) k l : (i < j)%nat → list_inserts j k (<[i := x]> l) = <[i := x]> (list_inserts j k l).
Proof.
  revert j. induction k as [|y k IH]; intros j Hj; cbn; [done|]. rewrite IH by lia.
  by rewrite list_insert_insert_ne by lia.
Qed.

Lemma digits_loop_spec fuel x base (k : nat) (buf : list Z) (i : nat) :
  2 ≤ base → 0 ≤ x < base ^ Z.of_nat (S k) → (k ≤ fuel)%nat → (i + S k ≤ length buf)%nat →
  digits_loop fuel x base buf (Z.of_nat i) =
  Ok (list_inserts i (digit <$> digs fuel x base) buf, Z.of_nat (i + length (digs fuel x base))).
Proof.
  intros Hb. revert x k buf i. induction fuel as [|fuel IH]; intros x k buf i Hx Hk Hlen.
  - assert (k = 0%nat) as -> by lia. change (Z.of_nat 1) with 1 in Hx. rewrite Z.pow_1_r in Hx.
    cbn [digits_loop digs]. rewrite aset_nat by lia. rewrite bind_ret, decide_False by (rewrite Z.div_small; lia).
    rewrite decide_False by (rewrite Z.div_small; lia). cbn [length fmap list_fmap list_inserts].
    do 2 f_equal. lia.
  - cbn [digits_loop digs]. rewrite aset_nat by lia. rewrite bind_ret. case_decide as Hd.
    + destruct k as [|k]. { change (Z.of_nat 1) with 1 in Hx. rewrite Z.pow_1_r in Hx. rewrite Z.div_small in Hd; lia. }
      replace (Z.of_nat i + 1) with (Z.of_nat (S i)) by lia.
      rewrite (IH (x / base) k); [|by apply div_pow|lia|rewrite length_insert; lia].
      rewrite insert_inserts_lt by lia. cbn [length fmap list_fmap]. rewrite inserts_cons_at. do 2 f_equal. lia.
    + cbn [length fmap list_fmap list_inserts]. do 2 f_equal. lia.
Qed.

Lemma put_down_spec buf i : (i ≤ length buf)%nat → put_down buf i = Ok (reverse (take i buf)).
Proof.
  intros Hi. induction i as [|i IH]; [done|]. cbn [put_down].
  destruct (lookup_lt_is_Some_2 buf i) as [c Hc]; [lia|]. rewrite (aget_nat _ _ _ Hc), bind_ret, IH, bind_ret by lia.
  by rewrite (take_S_r _ _ _ Hc), reverse_snoc.
Qed.

(** A number as [printf] shows it. *)
Definition show (base xx : Z) (sgn : bool) : list Z :=
  let neg := bool_decide (sgn = true ∧ xx < 0) in
  (if neg then [45] else []) ++ reverse (digit <$> digs 32 (if neg then u32 (- xx) else u32 xx) base).

Lemma base_bound base : base = 10 ∨ base = 16 → 2 ^ 32 ≤ base ^ Z.of_nat 10.
Proof. by intros [-> | ->]; vm_compute. Qed.

Lemma take_inserts_0 {A} (k l : list A) : (length k ≤ length l)%nat → take (length k) (list_inserts 0 k l) = k.
Proof.
  intros Hl. pose proof (slice_inserts_eq 0 k l Hl) as Hs. unfold slice in Hs. by rewrite drop_0 in Hs.
Qed.

Lemma printint_spec stack xx base sgn :
  length stack = 16%nat → base = 10 ∨ base = 16 →
  printint stack xx base sgn = Ok (show base xx sgn) ∧ (length (show base xx sgn) ≤ 11)%nat.
Proof.
  intros Hst Hb. unfold printint, show. set (neg := bool_decide _).
  set (x := if neg then u32 (- xx) else u32 xx).
  assert (0 ≤ x < 2 ^ 32) as Hx by (unfold x; destruct neg; apply u32_range).
  pose proof (base_bound base Hb) as Hbb. assert (0 ≤ x < base ^ Z.of_nat 10) as Hx' by lia.
  destruct (digs_spec 32 x base 9) as (_ & _ & Hl & _); [lia|exact Hx'|lia|].
  change 0 with (Z.of_nat 0) at 1. rewrite (digits_loop_spec 32 x base 9); [|lia|exact Hx'|lia|lia].
  rewrite bind_ret. cbn [Nat.add]. set (ds := digs 32 x base) in *.
  assert (length (digit <$> ds) = length ds) as Hlm by apply length_fmap.
  assert (take (length ds) (list_inserts 0 (digit <$> ds) stack) = digit <$> ds) as Htk.
  { rewrite <-Hlm. apply take_inserts_0. lia. }
  destruct neg.
  - rewrite aset_nat by (rewrite length_inserts; lia). rewrite !bind_ret.
    replace (Z.to_nat (Z.of_nat (length ds) + 1)) with (S (length ds)) by lia.
    rewrite put_down_spec by (rewrite length_insert, length_inserts; lia). split.
    + rewrite (take_S_r _ _ 45) by (apply list_lookup_insert_eq; rewrite length_inserts; lia).
      rewrite take_insert_ge by lia. rewrite Htk. by rewrite reverse_snoc.
    + rewrite length_app, length_reverse. cbn [length]. lia.
  - rewrite bind_ret, Nat2Z.id, put_down_spec by (rewrite length_inserts; lia).
    rewrite Htk, app_nil_l, length_reverse. split; [done|lia].
Qed.

(** [atoi] reads decimal digits, modulo the wrap of [int]. *)
Lemma i32_step a c : i32 (i32 a * 10 + c - 48) = i32 (a * 10 + (c - 48)).
Proof.
  unfold i32. f_equal. rewrite <-(Z.mod_add (((a + 2 ^ 31) mod 2 ^ 32 - 2 ^ 31) * 10 + c - 48 + 2 ^ 31) (10 * ((a + 2 ^ 31) / 2 ^ 32))) by lia.
  f_equal. pose proof (Z.div_mod (a + 2 ^ 31) (2 ^ 32)). lia.
Qed.

Lemma atoi_loop_digits ds a rest :
  Forall (λ d, 0 ≤ d < 10) ds → (∀ c, head rest = Some c → c < 48 ∨ 57 < c) → rest ≠ [] →
  atoi_loop ((digit <$> reverse ds) ++ rest) (i32 a) = Ok (i32 (a * 10 ^ Z.of_nat (length ds) + digs_val 10 ds)).
Proof.
  intros Hd Hrest Hne. induction ds as [|d ds IH] using rev_ind in a, Hd |- *.
  - cbn [reverse fmap list_fmap rev_append app length digs_val]. rewrite Z.add_0_r, Z.mul_1_r.
    destruct rest as [|c rest]; [done|]. cbn [atoi_loop]. rewrite decide_False; [done|].
    specialize (Hrest c eq_refl). lia.
  - apply Forall_app in Hd as [Hds Hd]. apply Forall_cons in Hd as [Hd _].
    rewrite reverse_snoc. cbn [fmap list_fmap app atoi_loop]. 
    assert (digit d = 48 + d) as -> by (unfold digit; rewrite decide_True; lia).
    rewrite decide_True by lia. rewrite i32_step. rewrite IH by done. f_equal. f_equal.
    rewrite length_app. cbn [length]. rewrite Nat2Z.inj_add, Z.pow_add_r by lia. change (10 ^ Z.of_nat 1) with 10.
    assert (digs_val 10 (ds ++ [d]) = digs_val 10 ds + 10 ^ Z.of_nat (length ds) * d) as ->; [|lia].
    clear. induction ds as [|x ds IH]; cbn [app digs_val length]; [cbn; lia|].
    rewrite IH, Nat2Z.inj_succ, Z.pow_succ_r by lia. lia.
Qed.


