(* ===== verification/Grep.v ===== *)
(** * grep: the regular expression matcher and the line buffer

    [match] is Kernighan and Pike's matcher; it is compared with the language
    of the parsed pattern.  [grep] collects lines from the pieces that [read]
    delivers in a buffer of 1024 bytes. *)

From S2P Require Import Prelude.
From S2P Require Import Bytes.
From S2P Require Import CString.
From S2P Require Import Ulib.

Local Open Scope Z_scope.

(** ** The matcher *)

(** [matchstar(c, re, text)], [mh] being [matchhere(re, _)]. *)
Fixpoint matchstar (mh : list Z → outcome bool) (c : Z) (text : list Z) : outcome bool :=
  r ← mh text;
  if r : bool then Ok true
  else match text with
       | [] => Fault "array read out of bounds"
       | t :: text' => if decide (t ≠ 0 ∧ (t = c ∨ c = 46)) then matchstar mh c text' else Ok false
       end.

Fixpoint matchhere (re text : list Z) : outcome bool :=
  match re with
  | [] => Fault "array read out of bounds"
  | r0 :: re1 =>
      if decide (r0 = 0) then Ok true
      else match re1 with
      | [] => Fault "array read out of bounds"
      | r1 :: re2 =>
          if decide (r1 = 42) then matchstar (matchhere re2) r0 text
          else if decide (r0 = 36 ∧ r1 = 0) then t ← aget text 0; Ok (bool_decide (t = 0))
          else
            t ← aget text 0;
            if decide (t ≠ 0 ∧ (r0 = 46 ∨ r0 = t)) then matchhere re1 (drop 1 text) else Ok false
      end
  end.

(** The [do] loop of [match]. *)
Fixpoint match_loop (re text : list Z) : outcome bool :=
  r ← matchhere re text;
  if r : bool then Ok true
  else match text with
       | [] => Fault "array read out of bounds"
       | t :: text' => if decide (t ≠ 0) then match_loop re text' else Ok false
       end.

Definition re_match (re text : list Z) : outcome bool :=
  r0 ← aget re 0;
  if decide (r0 = 94) then matchhere (drop 1 re) text else match_loop re text.

(** ** The language of a pattern *)

Inductive item := Single (c : Z) | Star (c : Z) | Eol.

(** A pattern without its NUL: [c*], a final [$], or one character. *)
Fixpoint items (re : list Z) : list item :=
  match re with
  | [] => []
  | c :: re1 =>
      match re1 with
      | [] => if decide (c = 36) then [Eol] else [Single c]
      | c1 :: re2 => if decide (c1 = 42) then Star c :: items re2 else Single c :: items re1
      end
  end.

Definition accepts (c x : Z) : Prop := c = 46 ∨ c = x.

(** [denotes its p rest]: the items match [p] when [rest] follows it. *)
Inductive denotes : list item → list Z → list Z → Prop :=
| denotes_nil rest : denotes [] [] rest
| denotes_single c x its p rest : accepts c x → denotes its p rest → denotes (Single c :: its) (x :: p) rest
| denotes_star c q its p rest : Forall (accepts c) q → denotes its p rest → denotes (Star c :: its) (q ++ p) rest
| denotes_eol its p : denotes its p [] → denotes (Eol :: its) p [].

(** The pattern matches the text from its start, or somewhere. *)
Definition here (re text : list Z) : Prop := ∃ p rest, text = p ++ rest ∧ denotes (items re) p rest.
Definition regex (re text : list Z) : Prop :=
  if decide (head re = Some 94) then here (tail re) text
  else ∃ pre text', text = pre ++ text' ∧ here re text'.

Definition nonul (l : list Z) : Prop := Forall (λ c, c ≠ 0) l.

Lemma here_star c its text :
  (∃ p rest, text = p ++ rest ∧ denotes (Star c :: its) p rest) ↔
  (∃ p rest, text = p ++ rest ∧ denotes its p rest) ∨
  (∃ x text', text = x :: text' ∧ accepts c x ∧ ∃ p rest, text' = p ++ rest ∧ denotes (Star c :: its) p rest).
Proof.
  split.
  - intros (p & rest & -> & Hd). inversion Hd as [| |? q ? p' ? Hq Hp|]; subst. destruct Hq as [|x q Hx Hq].
    + left. by exists p', rest.
    + right. exists x, ((q ++ p') ++ rest). split_and!; [done|done|]. exists (q ++ p'), rest. split; [done|by constructor].
  - intros [(p & rest & -> & Hd)|(x & text' & -> & Hx & p & rest & -> & Hd)].
    + exists p, rest. split; [done|]. by apply (denotes_star c []).
    + inversion Hd as [| |? q ? p' ? Hq Hp|]; subst. exists (x :: q ++ p'), rest. split; [done|].
      apply (denotes_star c (x :: q)); [by constructor|done].
Qed.

Lemma matchstar_spec mh c its text junk :
  nonul text → c ≠ 0 →
  (∀ t, nonul t → ∃ b, mh (t ++ 0 :: junk) = Ok b ∧ (b = true ↔ ∃ p rest, t = p ++ rest ∧ denotes its p rest)) →
  ∃ b, matchstar mh c (text ++ 0 :: junk) = Ok b ∧ (b = true ↔ ∃ p rest, text = p ++ rest ∧ denotes (Star c :: its) p rest).
Proof.
  intros Ht Hc Hmh. induction Ht as [|x text Hx Ht IH]; cbn [app matchstar].
  - destruct (Hmh [] ltac:(constructor)) as (b & Hb & Hspec). cbn [app] in Hb. rewrite Hb, bind_ret. exists b.
    rewrite decide_False by naive_solver. split; [by destruct b|]. rewrite here_star, Hspec. naive_solver.
  - destruct (Hmh (x :: text) ltac:(by constructor)) as (b & Hb & Hspec). cbn [app] in Hb. rewrite Hb, bind_ret.
    destruct b.
    { exists true. split; [done|]. rewrite here_star. naive_solver. }
    case_decide as Hd.
    + destruct IH as (b & -> & Hspec'). exists b. split; [done|]. rewrite here_star, Hspec'. split.
      * intros Hh. right. exists x, text. split_and!; [done|unfold accepts; naive_solver|done].
      * intros [Hh|(x' & t' & [= <- <-] & _ & Hh)]; [by apply Hspec in Hh|done].
    + exists false. split; [done|]. rewrite here_star. split; [done|].
      intros [Hh|(x' & t' & [= <- <-] & Hacc & Hh)]; [by apply Hspec in Hh|]. unfold accepts in Hacc. naive_solver.
Qed.

Lemma here_single c its text :
  (∃ p rest, text = p ++ rest ∧ denotes (Single c :: its) p rest) ↔
  (∃ x text', text = x :: text' ∧ accepts c x ∧ ∃ p rest, text' = p ++ rest ∧ denotes its p rest).
Proof.
  split.
  - intros (p & rest & -> & Hd). inversion Hd; subst. eexists _, _. split; [done|]. split; [done|]. by eexists _, _.
  - intros (x & text' & -> & Hx & p & rest & -> & Hd). exists (x :: p), rest. split; [done|by constructor].
Qed.

Lemma single_step (mh : list Z → outcome bool) c its text junk :
  nonul text → c ≠ 0 →
  (∀ t, nonul t → ∃ b, mh (t ++ 0 :: junk) = Ok b ∧ (b = true ↔ ∃ p rest, t = p ++ rest ∧ denotes its p rest)) →
  ∃ b, (t ← aget (text ++ 0 :: junk) 0;
        if decide (t ≠ 0 ∧ (c = 46 ∨ c = t)) then mh (drop 1 (text ++ 0 :: junk)) else Ok false) = Ok b ∧
    (b = true ↔ ∃ p rest, text = p ++ rest ∧ denotes (Single c :: its) p rest).
Proof.
  intros Ht Hc Hmh. destruct Ht as [|x text Hx Ht]; cbn [app]; rewrite aget_0_cons, bind_ret.
  - exists false. rewrite decide_False by naive_solver. split; [done|]. rewrite here_single. naive_solver.
  - case_decide as Hd; cbn [drop].
    + destruct (Hmh text Ht) as (b & Hb & Hspec). exists b. split; [by rewrite drop_0|]. rewrite here_single, Hspec.
      split; [|naive_solver]. intros Hh. exists x, text. split_and!; [done|exact (proj2 Hd)|done].
    + exists false. split; [done|]. rewrite here_single. split; [done|].
      intros (x' & t' & [= <- <-] & Hacc & _). unfold accepts in Hacc. naive_solver.
Qed.

Lemma matchhere_spec re text junk1 junk2 :
  nonul re → nonul text →
  ∃ b, matchhere (re ++ 0 :: junk1) (text ++ 0 :: junk2) = Ok b ∧ (b = true ↔ here re text).
Proof.
  unfold here. revert text. induction re as [re IH] using (induction_ltof1 _ length). unfold ltof in IH.
  intros text Hre Ht. destruct Hre as [|r0 re1 Hr0 Hre1].
  { exists true. split; [done|]. split; [|done]. intros _. exists [], text. split; [done|constructor]. }
  cbn [app matchhere]. rewrite decide_False by done.
  destruct re1 as [|r1 re2]; cbn [app items].
  - rewrite (decide_False (P := (0 = 42))) by done. case_decide as Hd.
    + destruct Hd as [-> _]. rewrite decide_True by done. destruct text as [|t text]; cbn [app].
      * exists true. split; [done|]. split; [|done]. intros _. exists [], []. split; [done|repeat constructor].
      * exists false. rewrite aget_0_cons, bind_ret. rewrite bool_decide_false by (by inversion Ht).
        split; [done|]. split; [done|]. intros (p & rest & He & Hden). inversion Hden as [| | |? ? Hn]; subst.
        inversion Hn; subst. done.
    + rewrite decide_False by naive_solver. apply single_step; [done|done|]. intros t Hnt.
      apply (IH []); [cbn; lia|constructor|done].
  - apply Forall_cons in Hre1 as [Hr1 Hre2]. destruct (decide (r1 = 42)) as [->|Hstar].
    + apply matchstar_spec; [done|done|]. intros t Hnt. apply IH; [cbn; lia|done|done].
    + rewrite decide_False by naive_solver. apply (single_step (matchhere (r1 :: re2 ++ 0 :: junk1))); [done|done|].
      intros t Hnt. apply (IH (r1 :: re2)); [cbn; lia|by constructor|done].
Qed.

(** The matcher finds a match exactly where the language of the pattern has one. *)
Lemma re_match_spec re text junk1 junk2 :
  nonul re → nonul text →
  ∃ b, re_match (re ++ 0 :: junk1) (text ++ 0 :: junk2) = Ok b ∧ (b = true ↔ regex re text).
Proof.
  intros Hre Ht.
  assert (∃ b, match_loop (re ++ 0 :: junk1) (text ++ 0 :: junk2) = Ok b ∧
    (b = true ↔ ∃ pre text', text = pre ++ text' ∧ here re text')) as Hloop.
  { induction Ht as [|x text Hx Ht IH]; cbn [app match_loop].
    - destruct (matchhere_spec re [] junk1 junk2 Hre) as (b & Hb & Hspec); [constructor|].
      cbn [app] in Hb. rewrite Hb, bind_ret. rewrite decide_False by naive_solver. exists b. split; [by destruct b|].
      rewrite Hspec. split; [intros; by exists [], []|]. intros (pre & text' & [-> ->]%eq_sym%app_eq_nil & Hh). done.
    - destruct (matchhere_spec re (x :: text) junk1 junk2 Hre) as (b & Hb & Hspec); [by constructor|].
      cbn [app] in Hb. rewrite Hb, bind_ret. destruct b.
      { exists true. split; [done|]. split; [|done]. intros _. exists [], (x :: text). split; [done|by apply Hspec]. }
      rewrite decide_True by done. destruct IH as (b & -> & Hspec'). exists b. split; [done|]. rewrite Hspec'. split.
      + intros (pre & text' & -> & Hh). by exists (x :: pre), text'.
      + intros (pre & text' & He & Hh). destruct pre as [|y pre]; cbn [app] in He.
        * subst. by apply Hspec in Hh.
        * injection He as <- ->. by exists pre, text'. }
  unfold re_match, regex. destruct Hre as [|r0 re Hr0 Hre]; [exact Hloop|]. cbn [app]. rewrite aget_0_cons, bind_ret.
  destruct (decide (r0 = 94)) as [->|Hne]; cbn [head tail].
  - rewrite decide_True by done. cbn [drop]. rewrite drop_0. by apply matchhere_spec.
  - rewrite decide_False by congruence. exact Hloop.
Qed.

(** ** The line buffer *)

Definition GBUF : nat := 1024.

(** [read(fd, _, n)] from a source that delivers its data in pieces. *)
Definition uread (input : list (list Z)) (n : nat) : list Z * list (list Z) :=
  match input with
  | [] => ([], [])
  | c :: input' => (take n c, if decide (n < length c)%nat then drop n c :: input' else input')
  end.

(** The inner [while]: the buffer, the index [p - buf] and the bytes written. *)
Fixpoint lines_loop (fuel : nat) (pattern buf : list Z) (p : nat) (out : list Z) : outcome (list Z * nat * list Z) :=
  q ← strchr (drop p buf) 10;
  match q with
  | None => Ok (buf, p, out)
  | Some o =>
      match fuel with
      | O => Fault "fuel"
      | S fuel' =>
          let q := Z.of_nat p + o in
          buf1 ← aset buf q 0;
          r ← re_match pattern (drop p buf1);
          if r : bool then
            buf2 ← aset buf1 q 10;
            line ← bload buf2 (Z.of_nat p) (Z.to_nat (o + 1));
            lines_loop fuel' pattern buf2 (Z.to_nat (q + 1)) (out ++ line)
          else lines_loop fuel' pattern buf1 (Z.to_nat (q + 1)) out
      end
  end.

Fixpoint grep_loop (fuel : nat) (pattern buf : list Z) (m : nat) (input : list (list Z)) (out : list Z) : outcome (list Z) :=
  let '(c, input') := uread input (GBUF - m - 1) in
  if decide (length c = 0%nat) then Ok out
  else match fuel with
  | O => Fault "fuel"
  | S fuel' =>
      buf1 ← bstore buf (Z.of_nat m) c;
      let m1 := (m + length c)%nat in
      buf2 ← aset buf1 (Z.of_nat m1) 0;
      '(buf3, p, out') ← lines_loop GBUF pattern buf2 0 out;
      let m2 := if decide (p = 0%nat) then 0%nat else m1 in
      if decide (0 < m2)%nat then
        let m3 := (m2 - p)%nat in
        buf4 ← umemmove buf3 0 (Z.of_nat p) (Z.of_nat m3);
        grep_loop fuel' pattern buf4 m3 input' out'
      else grep_loop fuel' pattern buf3 m2 input' out'
  end.

(** [buf] is a global, zero at first; every [read] delivers at least a byte. *)
Definition grep (pattern : list Z) (input : list (list Z)) : outcome (list Z) :=
  grep_loop (length (concat input)) pattern (replicate GBUF 0) 0 input [].

(** The complete lines of a text, and what follows the last newline. *)
Fixpoint lines (l : list Z) : list (list Z) * list Z :=
  match l with
  | [] => ([], [])
  | c :: l' =>
      let '(ls, r) := lines l' in
      if decide (c = 10) then ([] :: ls, r)
      else match ls with
           | [] => ([], c :: r)
           | x :: ls' => ((c :: x) :: ls', r)
           end
  end.

Definition regexb (re text : list Z) : bool :=
  match re_match (re ++ [0]) (text ++ [0]) with Ok b => b | _ => false end.

(** The output [grep] should have for a list of lines. *)
Definition selected (re : list Z) (ls : list (list Z)) : list Z :=
  concat ((λ l, l ++ [10]) <$> filter (λ l, regexb re l = true) ls).

(** Every piece ends a line and fits the buffer. *)
Fixpoint fits (carry : list Z) (input : list (list Z)) : Prop :=
  match input with
  | [] => True
  | c :: input' => 10 ∈ c ∧ nonul c ∧ (length (carry ++ c) < GBUF)%nat ∧ fits (lines (carry ++ c)).2 input'
  end.

Lemma lines_none l : 10 ∉ l → lines l = ([], l).
Proof.
  induction l as [|c l IH]; intros Hn; [done|]. cbn [lines]. apply not_elem_of_cons in Hn as [Hc Hn].
  rewrite IH by done. by rewrite decide_False by congruence.
Qed.

Lemma lines_cons x l : 10 ∉ x → lines (x ++ 10 :: l) = (x :: (lines l).1, (lines l).2).
Proof.
  induction x as [|c x IH]; intros Hn; cbn [app lines].
  - destruct (lines l) as [ls r]. by rewrite decide_True.
  - apply not_elem_of_cons in Hn as [Hc Hn]. rewrite IH by done. by rewrite decide_False by congruence.
Qed.

Lemma split_newline l : 10 ∈ l → ∃ x l', l = x ++ 10 :: l' ∧ 10 ∉ x.
Proof.
  induction l as [|c l IH]; intros Hin; [by apply not_elem_of_nil in Hin|].
  destruct (decide (c = 10)) as [->|Hne]; [exists [], l; split; [done|apply not_elem_of_nil]|].
  apply elem_of_cons in Hin as [?|Hin]; [congruence|]. destruct (IH Hin) as (x & l' & -> & Hx).
  exists (c :: x), l'. split; [done|]. apply not_elem_of_cons. split; [congruence|done].
Qed.

Lemma lines_app a b : lines (a ++ b) = ((lines a).1 ++ (lines ((lines a).2 ++ b)).1, (lines ((lines a).2 ++ b)).2).
Proof.
  induction a as [a IH] using (induction_ltof1 _ length). unfold ltof in IH.
  destruct (decide (10 ∈ a)) as [Hin|Hn]; [|rewrite (lines_none a Hn); cbn [fst snd]; by destruct (lines (a ++ b))].
  destruct (split_newline a Hin) as (x & l & -> & Hx). rewrite <-app_assoc. cbn [app].
  rewrite !lines_cons by done. cbn [fst snd]. rewrite (IH l); [done|]. rewrite length_app. cbn. lia.
Qed.

Lemma lines_rest l : 10 ∉ (lines l).2 ∧ (length (lines l).2 + (if decide (10%Z ∈ l) then 1 else 0) ≤ length l)%nat ∧
  (nonul l → Forall nonul (lines l).1 ∧ nonul (lines l).2).
Proof.
  induction l as [l IH] using (induction_ltof1 _ length). unfold ltof in IH.
  destruct (decide (10 ∈ l)) as [Hin|Hn].
  - destruct (split_newline l Hin) as (x & l' & -> & Hx). rewrite lines_cons by done. cbn [fst snd].
    assert (length l' < length (x ++ 10%Z :: l'))%nat as Hlt by (rewrite length_app; cbn; lia).
    destruct (IH l' Hlt) as (H1 & H2 & H3). split_and!; [done|destruct (decide (10 ∈ l')); lia|].
    intros [Hnx [_ Hnl]%Forall_cons]%Forall_app. destruct (H3 Hnl). split; [by constructor|done].
  - rewrite lines_none by done. cbn [fst snd]. split_and!; [done|lia|]. intros. by split; [constructor|].
Qed.

Lemma strchr_none l junk : nonul l → 10 ∉ l → strchr (l ++ 0 :: junk) 10 = Ok None.
Proof.
  intros Hl Hn. induction Hl as [|c l Hc Hl IH]; cbn [app strchr]; [done|]. apply not_elem_of_cons in Hn as [Hne Hn].
  rewrite !decide_False by congruence. by rewrite IH.
Qed.

Lemma strchr_found x l : nonul x → 10 ∉ x → strchr (x ++ 10 :: l) 10 = Ok (Some (Z.of_nat (length x))).
Proof.
  intros Hx Hn. induction Hx as [|c x Hc Hx IH]; cbn [app strchr]; [done|]. apply not_elem_of_cons in Hn as [Hne Hn].
  rewrite !decide_False by congruence. rewrite IH, bind_ret by done. cbn [option_map length]. do 2 f_equal. lia.
Qed.

Lemma regexb_spec re text junk1 junk2 :
  nonul re → nonul text →
  re_match (re ++ 0 :: junk1) (text ++ 0 :: junk2) = Ok (regexb re text) ∧ (regexb re text = true ↔ regex re text).
Proof.
  intros Hre Ht. destruct (re_match_spec re text junk1 junk2 Hre Ht) as (b & Hb & Hs).
  destruct (re_match_spec re text [] [] Hre Ht) as (b' & Hb' & Hs'). unfold regexb. rewrite Hb', Hb.
  split; [|done]. f_equal. destruct b, b'; naive_solver.
Qed.

Lemma insert_middle {A} (l1 l2 : list A) x y : <[length l1 := y]> (l1 ++ x :: l2) = l1 ++ y :: l2.
Proof. rewrite insert_app_r_alt by lia. by rewrite Nat.sub_diag. Qed.

Lemma lines_loop_spec fuel pat junk0 pre l junk out :
  nonul pat → nonul l → (length l ≤ fuel)%nat →
  ∃ pre', lines_loop fuel (pat ++ 0 :: junk0) (pre ++ l ++ 0 :: junk) (length pre) out =
      Ok (pre' ++ (lines l).2 ++ 0 :: junk, length pre', out ++ selected pat (lines l).1) ∧
    (length pre' + length (lines l).2 = length pre + length l)%nat.
Proof.
  intros Hpat. revert pre l out. induction fuel as [|fuel IH]; intros pre l out Hl Hfuel.
  { destruct l; [|cbn in Hfuel; lia]. exists pre. cbn [lines_loop lines fst snd app length]. rewrite drop_app_length.
    cbn. by rewrite app_nil_r. }
  cbn [lines_loop]. rewrite drop_app_length. destruct (decide (10 ∈ l)) as [Hin|Hn].
  - destruct (split_newline l Hin) as (x & l' & -> & Hx). apply Forall_app in Hl as [Hnx Hl'].
    apply Forall_cons in Hl' as [_ Hl']. rewrite length_app in Hfuel. cbn [length] in Hfuel.
    rewrite <-(app_assoc x). cbn [app]. rewrite strchr_found, bind_ret by done.
    rewrite <-Nat2Z.inj_add, <-(length_app pre x), app_assoc. rewrite aset_nat by (rewrite !length_app; cbn; lia).
    rewrite bind_ret, insert_middle, <-(app_assoc pre), drop_app_length.
    destruct (regexb_spec pat x junk0 (l' ++ 0 :: junk) Hpat Hnx) as [-> _]. rewrite bind_ret.
    rewrite lines_cons by done. cbn [fst snd].
    set (nl := if regexb pat x then 10 else 0).
    assert (length (pre ++ x ++ [nl]) = Z.to_nat (Z.of_nat (length (pre ++ x)) + 1)) as Hlen by (rewrite !length_app; cbn; lia).
    destruct (IH (pre ++ x ++ [nl]) l' (out ++ selected pat [x])) as (pre' & Heq & Hp); [done|lia|].
    exists pre'. split; [|rewrite !length_app in *; cbn [length] in *; lia].
    replace (out ++ selected pat (x :: (lines l').1)) with ((out ++ selected pat [x]) ++ selected pat (lines l').1).
    2: { rewrite <-app_assoc. f_equal. unfold selected. rewrite <-concat_app, <-fmap_app, <-filter_app. done. }
    rewrite <-Heq, Hlen, <-!app_assoc. cbn [app]. unfold nl, selected. rewrite filter_cons, filter_nil.
    destruct (regexb pat x) eqn:Hr.
    + rewrite decide_True by done. cbn [fmap list_fmap concat]. rewrite app_nil_r.
      rewrite (app_assoc pre), aset_nat by (rewrite !length_app; cbn; lia). rewrite bind_ret, insert_middle.
      unfold bload. rewrite decide_True by (rewrite !length_app; cbn; lia). rewrite bind_ret, Nat2Z.id.
      rewrite <-(app_assoc pre), drop_app_length. do 2 f_equal.
      replace (Z.to_nat (Z.of_nat (length x) + 1)) with (length (x ++ [10])) by (rewrite length_app; cbn; lia).
      rewrite (cons_middle 10 x (l' ++ 0 :: junk)), (app_assoc x [10]). by rewrite take_app_length.
    + rewrite decide_False by done. cbn [fmap list_fmap concat]. by rewrite app_nil_r.
  - rewrite strchr_none by done. rewrite bind_ret. exists pre. rewrite lines_none by done. cbn [fst snd].
    by rewrite app_nil_r.
Qed.

Lemma inserts_middle (pre k l : list Z) :
  (length k ≤ length l)%nat → list_inserts (length pre) k (pre ++ l) = pre ++ k ++ drop (length k) l.
Proof.
  intros Hl. rewrite <-(Nat.add_0_r (length pre)), list_inserts_app_r. f_equal.
  rewrite <-(take_drop (length k) l) at 1. apply list_inserts_0_r. rewrite length_take. lia.
Qed.

Lemma grep_loop_spec fuel pat carry junk input out :
  nonul pat → nonul carry → 10 ∉ carry → length (carry ++ junk) = GBUF → fits carry input →
  (length (concat input) ≤ fuel)%nat →
  grep_loop fuel (pat ++ [0]) (carry ++ junk) (length carry) input out =
  Ok (out ++ selected pat (lines (carry ++ concat input)).1).
Proof.
  intros Hpat. revert fuel carry junk out. induction input as [|c input IH]; intros fuel carry junk out Hc Hn Hlen Hfits Hfuel.
  { rewrite app_nil_r, lines_none by done. cbn [fst]. destruct fuel; cbn [grep_loop uread]; (rewrite decide_True by reflexivity); by rewrite app_nil_r. }
  destruct Hfits as (Hin & Hnc & Hfit & Hfits). cbn [concat] in *. rewrite length_app in Hlen, Hfit, Hfuel.
  assert (0 < length c)%nat as Hne by (destruct c; [by apply not_elem_of_nil in Hin|cbn; lia]).
  destruct fuel as [|fuel]; [lia|]. cbn [grep_loop uread].
  rewrite take_ge by lia. rewrite (decide_False (P := _ < _)%nat) by lia. rewrite decide_False by lia.
  unfold bstore. rewrite decide_True by (rewrite length_app; lia). rewrite bind_ret, Nat2Z.id, inserts_middle by lia.
  destruct (drop (length c) junk) as [|j0 junk'] eqn:Hj.
  { apply (f_equal length) in Hj. rewrite length_drop in Hj. cbn in Hj. lia. }
  assert (length junk = length c + S (length junk'))%nat as Hlj.
  { apply (f_equal length) in Hj. rewrite length_drop in Hj. cbn in Hj. lia. }
  rewrite <-length_app, (app_assoc carry), aset_nat by (rewrite !length_app; cbn; lia).
  rewrite bind_ret, insert_middle.
  assert (nonul (carry ++ c)) as Hncc by (by apply Forall_app).
  destruct (lines_loop_spec GBUF pat [] [] (carry ++ c) junk' out Hpat Hncc) as (pre & Hll & Hp); [rewrite length_app; lia|].
  cbn [app length] in Hll, Hp. rewrite Hll, bind_ret.
  destruct (lines_rest (carry ++ c)) as (Hnr & Hlr & Hnul). rewrite decide_True in Hlr by (apply elem_of_app; by right).
  destruct (Hnul Hncc) as [_ Hnrest]. set (rest := (lines (carry ++ c)).2) in *.
  rewrite (decide_False (P := length pre = 0%nat)) by lia. rewrite decide_True by lia.
  replace (length (carry ++ c) - length pre)%nat with (length rest) by lia.
  unfold umemmove. rewrite Nat2Z.id. rewrite length_app in Hp.
  rewrite (copy_up_spec (length rest) _ 0 (length pre)) by (rewrite ?length_app; cbn; lia). rewrite bind_ret.
  assert (slice (length pre) (length rest) (pre ++ rest ++ 0 :: junk') = rest) as ->.
  { unfold slice. by rewrite drop_app_length, take_app_length. }
  change 0%nat with (length (@nil Z)) at 1. rewrite <-(app_nil_l (pre ++ _)), inserts_middle, app_nil_l by (rewrite !length_app; lia).
  rewrite IH; [|done|done|rewrite length_app, length_drop, !length_app; cbn; lia|done|lia].
  rewrite (app_assoc carry), (lines_app (carry ++ c)). cbn [fst]. fold rest. rewrite <-app_assoc. do 2 f_equal.
  unfold selected. by rewrite filter_app, fmap_app, concat_app.
Qed.

(** C25. [grep] writes the lines that contain a match of the pattern, whole and in order, when every
    piece it reads completes a line and fits the buffer; and the matcher agrees with the
    language of the pattern ([^], [.], [*] and [$]) on every line. *)
Theorem grep_lines pat input :
  nonul pat → fits [] input →
  grep (pat ++ [0]) input = Ok (selected pat (lines (concat input)).1) ∧
  ∀ l, nonul l → regexb pat l = true ↔ regex pat l.
Proof.
  intros Hpat Hfits. split; [|intros l Hl; by apply (regexb_spec pat l [] [])].
  apply (grep_loop_spec _ pat [] (replicate GBUF 0) input []); try done; [constructor|apply not_elem_of_nil].
Qed.

(** The pattern [a.*c$] on the pieces "abc, newline, c", "x, newline". *)
Lemma grep_lines_witness :
  grep ([97; 46; 42; 99; 36] ++ [0]) [[97; 98; 99; 10; 99]; [120; 10]] = Ok [97; 98; 99; 10].
Proof.
  destruct (grep_lines [97; 46; 42; 99; 36] [[97; 98; 99; 10; 99]; [120; 10]]) as [-> _]; [|..|by vm_compute].
  - by repeat constructor.
  - cbn [fits]. repeat split; apply (bool_decide_eq_true_1 _); by vm_compute.
Defined.

(** The start of a line is lost when a piece has no newline: [abc] comes in two
    pieces and is not found. *)
Lemma grep_loses_line :
  regexb [97; 98; 99] [97; 98; 99] = true ∧ grep ([97; 98; 99] ++ [0]) [[97; 98]; [99; 10]] = Ok [].
Proof. by vm_compute. Qed.
