(* ===== verification/Pipe.v ===== *)
(** * Pipes: [pipe.c]

    A pipe is a ring of 512 bytes with free-running [uint] counters.  Each
    definition is one stretch of a system call that holds [p->lock]: from its
    start, or from a wakeup, to its return or its next [sleep].  [p_rwait] and
    [p_wwait] are the processes asleep on [&p->nread] and [&p->nwrite];
    [wakeup] empties such a list. *)

From S2P Require Import Prelude.
From S2P Require Import Bytes.

Local Open Scope Z_scope.

Definition PIPESIZE : Z := 512.

Record pipe := mkpipe {
  p_data : list Z;            (* data *)
  p_nread : Z; p_nwrite : Z;  (* number of bytes read and written *)
  p_readopen : bool; p_writeopen : bool;
  p_rwait : list Z; p_wwait : list Z
}.
#[export] Instance pipe_fields : Fields pipe := λ p,
  mkpipe (p_data p) (p_nread p) (p_nwrite p) (p_readopen p) (p_writeopen p) (p_rwait p) (p_wwait p).

(** What [pipealloc] stores in a fresh page whose first bytes are [junk]. *)
Definition pipe_init (junk : list Z) : pipe := mkpipe junk 0 0 true true [] [].

Definition wakeup_readers (p : pipe) : pipe := p <| p_rwait := [] |>.
Definition wakeup_writers (p : pipe) : pipe := p <| p_wwait := [] |>.

(** The pipe and whether [kfree] was called. *)
Definition pipeclose (writable : bool) (p : pipe) : pipe * bool :=
  let p := if writable then wakeup_readers (p <| p_writeopen := false |>)
           else wakeup_writers (p <| p_readopen := false |>) in
  (p, bool_decide (p_readopen p = false ∧ p_writeopen p = false)).

(** A system call returns a value or sleeps, having done [i] bytes. *)
Inductive presult := PRet (r : Z) | PSleep (i : Z).

Definition full (p : pipe) : Prop := p_nwrite p = u32 (p_nread p + PIPESIZE).
Definition empty (p : pipe) : Prop := p_nread p = p_nwrite p.
#[export] Instance full_dec p : Decision (full p).
Proof. unfold full. apply _. Defined.
#[export] Instance empty_dec p : Decision (empty p).
Proof. unfold empty. apply _. Defined.

(** [pipewrite] from byte [i], [todo] bytes being left. *)
Fixpoint pipewrite_loop (pid : Z) (killed : bool) (addr : list Z) (n i : Z) (todo : nat) (p : pipe)
    : outcome (presult * pipe) :=
  match todo with
  | O => Ok (PRet n, wakeup_readers p)
  | S todo' =>
      if decide (full p) then
        if decide (p_readopen p = false ∨ killed = true) then Ok (PRet (-1), p)
        else Ok (PSleep i, wakeup_readers p <| p_wwait ::= λ w, pid :: w |>)
      else
        c ← aget addr i;
        d ← aset (p_data p) (p_nwrite p mod PIPESIZE) c;
        pipewrite_loop pid killed addr n (i + 1) todo'
          (p <| p_data := d |> <| p_nwrite := u32 (p_nwrite p + 1) |>)
  end.
Definition pipewrite (pid : Z) (killed : bool) (addr : list Z) (n i : Z) (p : pipe) : outcome (presult * pipe) :=
  pipewrite_loop pid killed addr n i (Z.to_nat (n - i)) p.

(** The copy loop of [piperead]: the bytes stored at [addr]. *)
Fixpoint piperead_loop (todo : nat) (p : pipe) : outcome (list Z * pipe) :=
  match todo with
  | O => Ok ([], p)
  | S todo' =>
      if decide (empty p) then Ok ([], p)
      else
        c ← aget (p_data p) (p_nread p mod PIPESIZE);
        '(l, p') ← piperead_loop todo' (p <| p_nread := u32 (p_nread p + 1) |>);
        Ok (c :: l, p')
  end.

Definition piperead (pid : Z) (killed : bool) (n : Z) (p : pipe) : outcome (presult * list Z * pipe) :=
  if decide (empty p ∧ p_writeopen p = true) then
    if killed then Ok (PRet (-1), [], p)
    else Ok (PSleep 0, [], p <| p_rwait ::= λ w, pid :: w |>)
  else
    '(l, p') ← piperead_loop (Z.to_nat n) p;
    Ok (PRet (Z.of_nat (length l)), l, wakeup_writers p').

(** ** The queue a pipe holds *)

Definition pcount (p : pipe) : Z := u32 (p_nwrite p - p_nread p).
Definition content (p : pipe) : list Z :=
  (λ k, p_data p !!! Z.to_nat ((p_nread p + Z.of_nat k) mod PIPESIZE)) <$> seq 0 (Z.to_nat (pcount p)).

Record pipe_ok (p : pipe) : Prop := {
  po_len : length (p_data p) = 512%nat;
  po_nread : 0 ≤ p_nread p < 2 ^ 32;
  po_nwrite : 0 ≤ p_nwrite p < 2 ^ 32;
  po_count : pcount p ≤ PIPESIZE
}.

(** Differences of counters, with the wrap of [uint]. *)
Lemma u32_sub a b : 0 ≤ a < 2 ^ 32 → 0 ≤ b < 2 ^ 32 → u32 (b - a) = if decide (a ≤ b) then b - a else b - a + 2 ^ 32.
Proof.
  intros. unfold u32. case_decide; [apply Z.mod_small; lia|].
  rewrite <-(Z_mod_plus_full _ 1). apply Z.mod_small. lia.
Qed.
Lemma u32_add a k : 0 ≤ a < 2 ^ 32 → 0 ≤ k < 2 ^ 32 → u32 (a + k) = if decide (a + k < 2 ^ 32) then a + k else a + k - 2 ^ 32.
Proof.
  intros. unfold u32. case_decide; [apply Z.mod_small; lia|].
  rewrite <-(Z_mod_plus_full _ (-1)). rewrite Z.mod_small; lia.
Qed.
Lemma u32_mod_512 x : u32 x mod PIPESIZE = x mod PIPESIZE.
Proof. unfold u32. symmetry. apply Znumtheory.Zmod_div_mod; [done|done|]. by exists (2 ^ 23). Qed.

(** Replaces counter arithmetic by its cases. *)
Ltac counters :=
  repeat match goal with
  | |- context [u32 (?a + ?k)] => rewrite (u32_add a k) by lia; case_decide
  | H : context [u32 (?a + ?k)] |- _ => rewrite (u32_add a k) in H by lia; case_decide
  end;
  repeat match goal with
  | |- context [u32 (?b - ?a)] => rewrite (u32_sub a b) by lia; case_decide
  | H : context [u32 (?b - ?a)] |- _ => rewrite (u32_sub a b) in H by lia; case_decide
  end; try lia.

Lemma content_length p : length (content p) = Z.to_nat (pcount p).
Proof. unfold content. by rewrite length_fmap, length_seq. Qed.

Lemma empty_content p : pipe_ok p → empty p ↔ content p = [].
Proof.
  intros [_ Hr Hw _]. rewrite <-length_zero_iff_nil, content_length. unfold empty, pcount, PIPESIZE in *. counters.
Qed.

Lemma full_content p : pipe_ok p → full p ↔ length (content p) = 512%nat.
Proof.
  intros [_ Hr Hw Hc]. rewrite content_length. unfold full, pcount, PIPESIZE in *. counters.
Qed.

(** A byte in at the end. *)
Lemma push_ok p c d :
  pipe_ok p → ¬ full p → aset (p_data p) (p_nwrite p mod PIPESIZE) c = Ok d →
  let p' := p <| p_data := d |> <| p_nwrite := u32 (p_nwrite p + 1) |> in
  pipe_ok p' ∧ content p' = content p ++ [c].
Proof.
  intros Hok Hfull Hd. pose proof Hok as [Hlen Hr Hw Hc]. rewrite full_content, content_length in Hfull by done.
  apply aset_Ok in Hd as [Hb ->]. cbn zeta. set (p' := _ <| p_nwrite := _ |>).
  assert (pcount p' = pcount p + 1) as Hc'.
  { unfold pcount, p', PIPESIZE in *. cbn. counters. }
  assert (p_nwrite p mod PIPESIZE = (p_nread p + pcount p) mod PIPESIZE) as Hidx.
  { rewrite <-(u32_mod_512 (p_nread p + pcount p)). f_equal. unfold pcount, u32. rewrite Zplus_mod_idemp_r, Z.mod_small; lia. }
  pose proof (u32_range (p_nwrite p - p_nread p)) as H0. fold (pcount p) in H0. split.
  - split; cbn; [by rewrite length_insert|done|apply u32_range|]. change (pcount p' ≤ PIPESIZE). unfold PIPESIZE in *. lia.
  - unfold content. rewrite Hc'. replace (Z.to_nat (pcount p + 1)) with (S (Z.to_nat (pcount p))) by lia.
    rewrite seq_S, fmap_app. f_equal.
    + apply list_fmap_ext. intros ? k Hk%lookup_seq. cbn. rewrite list_lookup_total_insert_ne; [done|].
      rewrite Hidx. unfold PIPESIZE in *. destruct Hk as [-> Hk]. intros Heq%Z2Nat.inj; [|apply Z.mod_pos_bound; lia..].
      Z.to_euclidean_division_equations; lia.
    + cbn. f_equal. rewrite Z2Nat.id by lia. rewrite <-Hidx. rewrite list_lookup_total_insert_eq; [done|].
      unfold PIPESIZE in *. lia.
Qed.

(** A byte out at the front. *)
Lemma pop_ok p :
  pipe_ok p → ¬ empty p →
  ∃ c, aget (p_data p) (p_nread p mod PIPESIZE) = Ok c ∧
    let p' := p <| p_nread := u32 (p_nread p + 1) |> in pipe_ok p' ∧ content p = c :: content p'.
Proof.
  intros Hok He. pose proof Hok as [Hlen Hr Hw Hc]. rewrite empty_content, <-length_zero_iff_nil, content_length in He by done.
  assert (0 ≤ p_nread p mod PIPESIZE < 512) as Hm by (apply Z.mod_pos_bound; done).
  destruct (lookup_lt_is_Some_2 (p_data p) (Z.to_nat (p_nread p mod PIPESIZE))) as [c Hl]; [lia|].
  exists c. split; [apply aget_Ok; split; [lia|done]|]. cbn zeta. set (p' := _ <| p_nread := _ |>).
  assert (pcount p = pcount p' + 1) as Hc'.
  { unfold pcount, p', PIPESIZE in *. cbn. counters. }
  pose proof (u32_range (p_nwrite p' - p_nread p')) as H0. fold (pcount p') in H0. split.
  - split; [done|apply u32_range|done|]. unfold PIPESIZE in *. lia.
  - unfold content. rewrite Hc'. replace (Z.to_nat (pcount p' + 1)) with (S (Z.to_nat (pcount p'))) by lia.
    cbn [seq fmap list_fmap]. f_equal.
    + rewrite Z.add_0_r. by apply list_lookup_total_correct.
    + rewrite <-fmap_S_seq, <-list_fmap_compose. apply list_fmap_ext. intros ? k _. cbn.
      f_equal. f_equal. rewrite <-(Zplus_mod_idemp_l (u32 _)), u32_mod_512, Zplus_mod_idemp_l. f_equal. lia.
Qed.

(** ** The two system calls *)

Definition same_ends (p p' : pipe) : Prop := p_readopen p' = p_readopen p ∧ p_writeopen p' = p_writeopen p.

(** What a stretch of [pipewrite] that stored the bytes [w] did. *)
Definition wrote (pid : Z) (killed : bool) (n i : Z) (w : list Z) (p p' : pipe) (r : presult) : Prop :=
  (r = PRet n ∧ Z.of_nat (length w) = n - i ∧ p_rwait p' = [] ∧ p_wwait p' = p_wwait p) ∨
  (r = PRet (-1) ∧ full p' ∧ (p_readopen p = false ∨ killed = true) ∧ p_rwait p' = p_rwait p ∧ p_wwait p' = p_wwait p) ∨
  (r = PSleep (i + Z.of_nat (length w)) ∧ full p' ∧ p_readopen p = true ∧ killed = false ∧ p_rwait p' = [] ∧
    p_wwait p' = pid :: p_wwait p).

Lemma pipewrite_spec pid killed addr n i p :
  pipe_ok p → 0 ≤ i → i ≤ n → n ≤ Z.of_nat (length addr) →
  ∃ r p' w, pipewrite pid killed addr n i p = Ok (r, p') ∧ pipe_ok p' ∧ same_ends p p' ∧
    content p' = content p ++ w ∧ w = slice (Z.to_nat i) (length w) addr ∧
    p_nwrite p' = u32 (p_nwrite p + Z.of_nat (length w)) ∧ wrote pid killed n i w p p' r.
Proof.
  intros Hok Hi Hin Hn. unfold pipewrite. remember (Z.to_nat (n - i)) as todo eqn:Htodo.
  revert i p Hok Hi Hin Htodo. induction todo as [|todo IH]; intros i p Hok Hi Hin Htodo; cbn [pipewrite_loop].
  - eexists _, _, []. rewrite app_nil_r, Z.add_0_r, u32_small by apply Hok. split_and!; try done.
    + by destruct Hok.
    + left. split_and!; [done|cbn; lia|done|done].
  - case_decide as Hfull; [case_decide as Hk|].
    + eexists _, p, []. rewrite app_nil_r, Z.add_0_r, u32_small by apply Hok. split_and!; try done. right. left. by split_and!.
    + eexists _, _, []. rewrite app_nil_r, Z.add_0_r, u32_small by apply Hok. split_and!; try done.
      * by destruct Hok.
      * right. right. rewrite Z.add_0_r. split_and!; try done; destruct (p_readopen p), killed; naive_solver.
    + destruct (lookup_lt_is_Some_2 addr (Z.to_nat i)) as [c Hc]; [lia|].
      rewrite (proj2 (aget_Ok addr i c)) by (by split; [lia|]). rewrite bind_ret.
      assert (0 ≤ p_nwrite p mod PIPESIZE < 512) as Hm by (apply Z.mod_pos_bound; done).
      pose proof (po_len _ Hok) as Hlen.
      assert (aset (p_data p) (p_nwrite p mod PIPESIZE) c = Ok (<[Z.to_nat (p_nwrite p mod PIPESIZE) := c]> (p_data p))) as Has.
      { apply aset_Ok. split; [lia|done]. }
      rewrite Has, bind_ret. destruct (push_ok p c _ Hok Hfull Has) as [Hok1 Hc1]. set (p1 := _ <| p_nwrite := _ |>) in *.
      destruct (IH (i + 1) p1) as (r & p' & w & -> & Hok' & He & Hcon & Hw & Hnw & Hwr); [done|lia|lia|lia|].
      exists r, p', (c :: w). split_and!; [done|done|exact He|..].
      * by rewrite Hcon, Hc1, <-app_assoc.
      * cbn [length]. unfold slice in *. rewrite (drop_S addr c) by done. cbn [take]. f_equal.
        by replace (S (Z.to_nat i)) with (Z.to_nat (i + 1)) by lia.
      * rewrite Hnw. cbn [length p1]. unfold p1, u32. cbn. rewrite Zplus_mod_idemp_l. f_equal. lia.
      * unfold wrote in *. cbn [length]. destruct Hwr as [(-> & ? & ? & ?)|[(-> & ? & ? & ? & ?)|(-> & ? & ? & ? & ? & ?)]].
        -- left. split_and!; [done|lia|done|done].
        -- right. left. by split_and!.
        -- right. right. split_and!; [f_equal; lia|done..].
Qed.

Lemma piperead_loop_spec todo p :
  pipe_ok p →
  ∃ l p', piperead_loop todo p = Ok (l, p') ∧ pipe_ok p' ∧ same_ends p p' ∧ content p = l ++ content p' ∧
    length l = Nat.min todo (length (content p)) ∧ p_rwait p' = p_rwait p ∧ p_wwait p' = p_wwait p.
Proof.
  revert p. induction todo as [|todo IH]; intros p Hok; cbn [piperead_loop].
  - by exists [], p.
  - case_decide as He.
    + exists [], p. pose proof He as He'. rewrite empty_content in He' by done. split_and!; try done. by rewrite He', Nat.min_0_r.
    + destruct (pop_ok p Hok He) as (c & -> & Hok1 & Hc). rewrite bind_ret. set (p1 := _ <| p_nread := _ |>) in *.
      destruct (IH p1 Hok1) as (l & p' & -> & Hok' & Hends & Hcon & Hl & Hr & Hw). rewrite bind_ret.
      exists (c :: l), p'. split_and!; try done.
      * by rewrite Hc, Hcon.
      * rewrite Hc. cbn [length]. by rewrite Hl.
Qed.

(** What [piperead] that took the bytes [l] did. *)
Definition took (pid : Z) (killed : bool) (n : Z) (l : list Z) (p p' : pipe) (r : presult) : Prop :=
  if decide (empty p ∧ p_writeopen p = true) then
    l = [] ∧ p_wwait p' = p_wwait p ∧
    (if killed then r = PRet (-1) ∧ p_rwait p' = p_rwait p else r = PSleep 0 ∧ p_rwait p' = pid :: p_rwait p)
  else r = PRet (Z.of_nat (length l)) ∧ length l = Nat.min (Z.to_nat n) (length (content p)) ∧
    p_rwait p' = p_rwait p ∧ p_wwait p' = [].

Lemma piperead_spec pid killed n p :
  pipe_ok p →
  ∃ r l p', piperead pid killed n p = Ok (r, l, p') ∧ pipe_ok p' ∧ same_ends p p' ∧ content p = l ++ content p' ∧
    took pid killed n l p p' r.
Proof.
  intros Hok. unfold piperead, took. case_decide as He.
  - destruct killed; eexists _, _, _; (split; [done|]); by destruct Hok.
  - destruct (piperead_loop_spec (Z.to_nat n) p Hok) as (l & p' & -> & Hok' & Hends & Hcon & Hl & Hr & Hw). rewrite bind_ret.
    eexists _, _, _. split; [done|]. destruct Hok'. by split_and!.
Qed.

(** ** Runs of a pipe

    Processes call [pipewrite] and [piperead], sleep, and go on once they have
    been woken; each step is one stretch under [p->lock].  A pipe end is closed
    when nobody is in a call on it.  The state records the bytes stored and the
    bytes delivered; [ok] limits the steps of writers that have been killed. *)

Definition prun : Type := pipe * list Z * list Z.

Inductive pstep (ok : bool → Prop) : prun → prun → Prop :=
| pstep_write pid killed addr n i r p p' w l :
    ok killed → p_writeopen p = true → pid ∉ p_wwait p → 0 ≤ i ≤ n → n ≤ Z.of_nat (length addr) →
    pipewrite pid killed addr n i p = Ok (r, p') →
    pstep ok (p, w, l) (p', w ++ slice (Z.to_nat i) (Z.to_nat (u32 (p_nwrite p' - p_nwrite p))) addr, l)
| pstep_read pid killed n r p p' w l l' :
    p_readopen p = true → pid ∉ p_rwait p → piperead pid killed n p = Ok (r, l', p') →
    pstep ok (p, w, l) (p', w, l ++ l')
| pstep_kill pid p w l :
    pstep ok (p, w, l) (p <| p_rwait ::= filter (λ q, q ≠ pid) |> <| p_wwait ::= filter (λ q, q ≠ pid) |>, w, l)
| pstep_close_write p w l :
    p_writeopen p = true → p_wwait p = [] → pstep ok (p, w, l) ((pipeclose true p).1, w, l)
| pstep_close_read p w l :
    p_readopen p = true → p_rwait p = [] → pstep ok (p, w, l) ((pipeclose false p).1, w, l).

Definition stream_ok (s : prun) : Prop := let '(p, w, l) := s in pipe_ok p ∧ w = l ++ content p.

Lemma wrote_count p p' w :
  pipe_ok p → pipe_ok p' → content p' = content p ++ w → p_nwrite p' = u32 (p_nwrite p + Z.of_nat (length w)) →
  u32 (p_nwrite p' - p_nwrite p) = Z.of_nat (length w).
Proof.
  intros Hok Hok' Hc Hn. assert (Z.of_nat (length w) ≤ 512) as Hl.
  { apply (f_equal length) in Hc. rewrite length_app, !content_length in Hc. pose proof (po_count _ Hok'). unfold PIPESIZE in *. lia. }
  rewrite Hn. unfold u32. rewrite Zminus_mod_idemp_l, Z.mod_small; lia.
Qed.

Lemma stream_step ok s s' : pstep ok s s' → stream_ok s → stream_ok s'.
Proof.
  intros Hs. destruct Hs as [pid killed addr n i r p p' w l _ _ _ Hi Hn Hw|pid killed n r p p' w l l' _ _ Hr|pid p w l|p w l _ _|p w l _ _]; cbn;
    intros [Hok ->].
  - destruct (pipewrite_spec pid killed addr n i p Hok) as (r' & p2 & w & Heq & Hok' & _ & Hc & Hsl & Hnw & _); [lia..|].
    rewrite Hw in Heq. injection Heq as <- <-. split; [done|]. rewrite (wrote_count p p' w), Nat2Z.id by done.
    by rewrite <-Hsl, Hc, app_assoc.
  - destruct (piperead_spec pid killed n p Hok) as (r' & l2 & p2 & Heq & Hok' & _ & Hc & _).
    rewrite Hr in Heq. injection Heq as <- <- <-. split; [done|]. by rewrite Hc, app_assoc.
  - split; [by destruct Hok|done].
  - split; [by destruct Hok|done].
  - split; [by destruct Hok|done].
Qed.

(** C26. A pipe delivers the bytes written to it, in order, none lost and none twice: in every
    interleaving of writers, readers, kills and closes, what was stored is what was
    delivered followed by what the ring holds, at most 512 bytes; this survives the wrap of
    the [uint] counters, and no call leaves the bounds of the ring. *)
Theorem pipe_stream junk p w l :
  length junk = 512%nat → rtc (pstep (λ _, True)) (pipe_init junk, [], []) (p, w, l) →
  w = l ++ content p ∧ (length (content p) ≤ 512)%nat ∧
  (∀ pid killed addr n i, 0 ≤ i ≤ n → n ≤ Z.of_nat (length addr) → is_Ok (pipewrite pid killed addr n i p)) ∧
  (∀ pid killed n, is_Ok (piperead pid killed n p)).
Proof.
  intros Hj Hrun. assert (stream_ok (p, w, l)) as [Hok Hw].
  { eapply (rtc_preserve _ stream_ok (stream_step _)); [exact Hrun|]. split; [|done]. by split. }
  split_and!; [done|rewrite content_length; pose proof (po_count _ Hok); unfold PIPESIZE in *; lia|..].
  - intros pid killed addr n i Hi Hn. destruct (pipewrite_spec pid killed addr n i p Hok) as (r & p' & ? & ? & _); [lia..|].
    by exists (r, p').
  - intros pid killed n. destruct (piperead_spec pid killed n p Hok) as (r & l' & p' & ? & _). by exists (r, l', p').
Qed.

(** Two of three bytes are read. *)
Lemma pipe_stream_witness : ∃ p w l, rtc (pstep (λ _, True)) (pipe_init (replicate 512 0), [], []) (p, w, l) ∧
  w = [7; 8; 9] ∧ l = [7; 8] ∧ w = l ++ content p.
Proof.
  assert (∃ p w l, rtc (pstep (λ _, True)) (pipe_init (replicate 512 0), [], []) (p, w, l) ∧ w = [7; 8; 9] ∧ l = [7; 8])
    as (p & w & l & Hrun & Hw & Hl).
  { eexists _, _, _. split; [eapply rtc_l; [|eapply rtc_l; [|apply rtc_refl]]|].
    - eapply (pstep_write _ 1 false [7; 8; 9] 3 0); [done|done|apply not_elem_of_nil|lia|done|vm_compute; reflexivity].
    - eapply (pstep_read _ 2 false 2); [done|apply not_elem_of_nil|vm_compute; reflexivity].
    - by vm_compute. }
  exists p, w, l. split_and!; [done..|]. by apply (pipe_stream (replicate 512 0) p w l eq_refl).
Defined.

(** A process sleeps only while it has to. *)
Definition sleepers_ok (p : pipe) : Prop :=
  (p_rwait p ≠ [] → empty p ∧ p_readopen p = true ∧ p_writeopen p = true) ∧
  (p_wwait p ≠ [] → full p ∧ p_readopen p = true ∧ p_writeopen p = true).

Lemma full_not_empty p : pipe_ok p → full p → ¬ empty p.
Proof. intros Hok Hf He. rewrite full_content in Hf by done. apply empty_content in He; [|done]. by rewrite He in Hf. Qed.

Lemma filter_nonempty {A} (P : A → Prop) `{∀ x, Decision (P x)} (l : list A) : filter P l ≠ [] → l ≠ [].
Proof. by intros ? ->. Qed.

Lemma sleepers_step s s' :
  pstep (λ k, k = false) s s' → stream_ok s → sleepers_ok s.1.1 → sleepers_ok s'.1.1.
Proof.
  intros Hs. destruct Hs as [pid killed addr n i r p p' w l Hk Hwo Hp Hi Hn Hw|pid killed n r p p' w l l' Hro Hp Hr|pid p w l|p w l Ho Hz|p w l Ho Hz];
    cbn; intros [Hok _] [HR HW].
  - destruct (pipewrite_spec pid killed addr n i p Hok) as (r' & p2 & w' & Heq & Hok' & [Hre Hwe] & Hc & _ & _ & Hwr); [lia..|].
    rewrite Hw in Heq. injection Heq as <- <-. unfold sleepers_ok. rewrite Hre, Hwe.
    destruct Hwr as [(-> & _ & Hr & Hww)|[(-> & Hf & [Hrc|Hkk] & Hr & Hww)|(-> & Hf & Hrc & _ & Hr & Hww)]]; [| |congruence|].
    + rewrite Hr, Hww. split; [done|]. intros Hne. destruct (HW Hne) as (Hf & ? & ?). split_and!; [|done..].
      rewrite full_content in * by done. pose proof (po_count _ Hok').
      apply (f_equal length) in Hc. rewrite length_app in Hc. pose proof (content_length p'). unfold PIPESIZE in *. lia.
    + rewrite Hr, Hww. split; intros Hne; [destruct (HR Hne) as (_ & ? & _)|destruct (HW Hne) as (_ & ? & _)]; congruence.
    + rewrite Hr, Hww. split; [done|]. intros _. by split_and!.
  - destruct (piperead_spec pid killed n p Hok) as (r' & l2 & p2 & Heq & Hok' & [Hre Hwe] & Hc & Ht).
    rewrite Hr in Heq. injection Heq as <- <- <-. unfold sleepers_ok, took in *. rewrite Hre, Hwe. case_decide as He.
    + destruct Ht as (-> & Hww & Ht). cbn [app] in Hc. rewrite empty_content, <-Hc, <-empty_content, Hww by done.
      assert (full p' ↔ full p) as Hff by (by rewrite !full_content, Hc). split; [|rewrite Hff; exact HW].
      intros _. destruct He. by split_and!.
    + destruct Ht as (_ & _ & -> & ->). split; [|done]. intros Hne. destruct (HR Hne) as (? & _ & ?). by destruct He.
  - split; intros Hne%filter_nonempty; [exact (HR Hne)|exact (HW Hne)].
  - split; intros Hne; cbn in Hne; congruence.
  - split; intros Hne; cbn in Hne; congruence.
Qed.

(** C27. No wakeup is lost as long as no killed process writes: a process asleep in [piperead]
    finds the pipe empty with both ends open, one asleep in [pipewrite] finds it
    full with both ends open; so readers and writers never wait for each other, and a reader
    that runs when there is data, or when no writer is left, returns. *)
Theorem pipe_wakeups junk p w l :
  length junk = 512%nat → rtc (pstep (λ k, k = false)) (pipe_init junk, [], []) (p, w, l) →
  sleepers_ok p ∧ (p_rwait p = [] ∨ p_wwait p = []).
Proof.
  intros Hj Hrun. assert (stream_ok (p, w, l) ∧ sleepers_ok p) as [[Hok _] Hsl].
  { eapply (rtc_preserve _ (λ s, stream_ok s ∧ sleepers_ok s.1.1)) in Hrun; [exact Hrun| |].
    - intros s s' Hs [H1 H2]. split; [by eapply stream_step|by eapply sleepers_step].
    - split; [split; [by split|done]|done]. }
  split; [done|]. destruct Hsl as [HR HW]. destruct (decide (p_rwait p = [])) as [|Hr]; [by left|]. right.
  destruct (decide (p_wwait p = [])) as [|Hw]; [done|]. destruct (HR Hr) as [He _]. destruct (HW Hw) as [Hf _].
  by destruct (full_not_empty p).
Qed.

(** A reader sleeps until the writer has filled the pipe. *)
Lemma pipe_wakeups_witness :
  ∃ p w l, rtc (pstep (λ k, k = false)) (pipe_init (replicate 512 0), [], []) (p, w, l) ∧
    p_wwait p = [1] ∧ sleepers_ok p ∧ p_rwait p = [].
Proof.
  assert (∃ p w l, rtc (pstep (λ k, k = false)) (pipe_init (replicate 512 0), [], []) (p, w, l) ∧ p_wwait p = [1])
    as (p & w & l & Hrun & Hw).
  { eexists _, _, _. split; [eapply rtc_l; [|eapply rtc_l; [|apply rtc_refl]]|].
    - eapply (pstep_read _ 2 false 100); [done|apply not_elem_of_nil|vm_compute; reflexivity].
    - eapply (pstep_write _ 1 false (replicate 600 5) 600 0); [done|done|apply not_elem_of_nil|lia|done|vm_compute; reflexivity].
    - by vm_compute. }
  exists p, w, l. destruct (pipe_wakeups (replicate 512 0) p w l eq_refl Hrun) as [Hs Hor]. split_and!; [done|done|exact Hs|].
  destruct Hor as [Hr|Hr]; [exact Hr|congruence].
Defined.

(** With a killed writer a wakeup is lost: the reader sleeps on a full pipe. *)
Lemma pipe_killed_writer :
  ∃ p w l, rtc (pstep (λ _, True)) (pipe_init (replicate 512 0), [], []) (p, w, l) ∧
    p_rwait p = [2] ∧ full p ∧ p_writeopen p = true.
Proof.
  eexists _, _, _. split; [eapply rtc_l; [|eapply rtc_l; [|apply rtc_refl]]|].
  - eapply (pstep_read _ 2 false 100); [done|apply not_elem_of_nil|vm_compute; reflexivity].
  - eapply (pstep_write _ 1 true (replicate 600 5) 600 0); [done|done|apply not_elem_of_nil|lia|done|vm_compute; reflexivity].
  - by vm_compute.
Qed.
