(* ===== verification/Umalloc.v ===== *)
(** * The user allocator: [umalloc.c]

    Kernighan and Ritchie's allocator: a circular list of free blocks in
    address order, each with a header of 8 bytes.  A pointer is a byte address
    and [h_mem] maps the address of a header to its fields; [&base] is an
    address below the heap.  [sbrk] either fails or returns the old break. *)

From stdpp Require Import gmap sorting.
From S2P Require Import Prelude.

Local Open Scope Z_scope.

Record header := mkheader { s_ptr : Z; s_size : Z }.
#[export] Instance header_fields : Fields header := λ x, mkheader (s_ptr x) (s_size x).
#[export] Instance header_inhabited : Inhabited header := populate (mkheader 0 0).

Record heap := mkheap {
  h_mem : gmap Z header;
  h_freep : Z;                (* freep *)
  h_brk : Z                   (* the end of the process *)
}.
#[export] Instance heap_fields : Fields heap := λ h, mkheap (h_mem h) (h_freep h) (h_brk h).

Definition HDR : Z := 8.      (* sizeof(Header) *)

Definition ptr (h : heap) (p : Z) : Z := s_ptr (h_mem h !!! p).
Definition bsize (h : heap) (p : Z) : Z := s_size (h_mem h !!! p).
Definition set_ptr (p v : Z) (h : heap) : heap := h <| h_mem ::= <[p := mkheader v (bsize h p)]> |>.
Definition set_size (p v : Z) (h : heap) : heap := h <| h_mem ::= <[p := mkheader (ptr h p) v]> |>.

(** The [for] of [free]. *)
Fixpoint free_find (fuel : nat) (bp p : Z) (h : heap) : outcome Z :=
  if decide (p < bp ∧ bp < ptr h p) then Ok p
  else if decide (ptr h p ≤ p ∧ (p < bp ∨ bp < ptr h p)) then Ok p
  else match fuel with
       | O => Fault "fuel"
       | S fuel' => free_find fuel' bp (ptr h p) h
       end.

Definition free (ap : Z) (h : heap) : outcome heap :=
  let bp := ap - HDR in
  p ← free_find (size (h_mem h)) bp (h_freep h) h;
  let h1 :=
    if decide (bp + HDR * bsize h bp = ptr h p) then
      let h' := set_size bp (u32 (bsize h bp + bsize h (ptr h p))) h in
      set_ptr bp (ptr h' (ptr h' p)) h'
    else set_ptr bp (ptr h p) h in
  let h2 :=
    if decide (p + HDR * bsize h1 p = bp) then
      let h' := set_size p (u32 (bsize h1 p + bsize h1 bp)) h1 in
      set_ptr p (ptr h' bp) h'
    else set_ptr p bp h1 in
  Ok (h2 <| h_freep := p |>).

Section alloc.
(** [&base], and whether [sbrk(n)] fails at break [brk]. *)
Context (base : Z) (sbrk_fails : Z → Z → bool).

Definition sbrk (n : Z) (h : heap) : Z * heap :=
  if sbrk_fails (h_brk h) n then (-1, h) else (h_brk h, h <| h_brk ::= λ b, b + n |>).

Definition morecore (nu : Z) (h : heap) : outcome (option Z * heap) :=
  let nu := if decide (nu < 4096) then 4096 else nu in
  let '(p, h1) := sbrk (i32 (u32 (nu * HDR))) h in
  if decide (p = -1) then Ok (None, h1)
  else
    h2 ← free (p + HDR) (set_size p nu h1);
    Ok (Some (h_freep h2), h2).

(** Take the block [p], or the end of it. *)
Definition carve (nunits prevp p : Z) (h : heap) : Z * heap :=
  if decide (bsize h p = nunits) then (p + HDR, (set_ptr prevp (ptr h p) h) <| h_freep := prevp |>)
  else
    let h1 := set_size p (bsize h p - nunits) h in
    let p1 := p + HDR * bsize h1 p in
    (p1 + HDR, (set_size p1 nunits h1) <| h_freep := prevp |>).

(** The [for] of [malloc]; the result is a null pointer or the block. *)
Fixpoint malloc_loop (fuel : nat) (nunits prevp p : Z) (h : heap) : outcome (Z * heap) :=
  if decide (nunits ≤ bsize h p) then Ok (carve nunits prevp p h)
  else
    match fuel with
    | O => Fault "fuel"
    | S fuel' =>
        if decide (p = h_freep h) then
          '(r, h1) ← morecore nunits h;
          match r with
          | None => Ok (0, h1)
          | Some p1 => malloc_loop fuel' nunits p1 (ptr h1 p1) h1
          end
        else malloc_loop fuel' nunits p (ptr h p) h
    end.

(** Two rounds of the list, with the block [morecore] adds, are enough. *)
Definition malloc (nbytes : Z) (h : heap) : outcome (Z * heap) :=
  let nunits := u32 (u32 (nbytes + HDR - 1) / HDR + 1) in
  let h1 := if decide (h_freep h = 0)
            then set_size base 0 (set_ptr base base h) <| h_freep := base |> else h in
  malloc_loop (2 * size (h_mem h1) + 2) nunits (h_freep h1) (ptr h1 (h_freep h1)) h1.
End alloc.

(** ** Chains of headers *)

Implicit Types (L C : list (Z * Z)) (h : heap).

Definition first L (z : Z) : Z := match L with [] => z | (a, _) :: _ => a end.

(** The headers of the blocks [L], the last one pointing to [z]. *)
Fixpoint seg (m : gmap Z header) L (z : Z) : Prop :=
  match L with
  | [] => True
  | (a, s) :: L' => m !! a = Some (mkheader (first L' z) s) ∧ seg m L' z
  end.

Lemma first_app L1 L2 z : first (L1 ++ L2) z = first L1 (first L2 z).
Proof. by destruct L1 as [|[? ?] ?]. Qed.

Lemma seg_app m L1 L2 z : seg m (L1 ++ L2) z ↔ seg m L1 (first L2 z) ∧ seg m L2 z.
Proof.
  induction L1 as [|[a s] L1 IH]; cbn [app seg]; [tauto|]. rewrite IH, first_app. tauto.
Qed.

Lemma seg_frame m L z x v : x ∉ L.*1 → seg m L z → seg (<[x := v]> m) L z.
Proof.
  induction L as [|[a s] L IH]; cbn [seg fmap list_fmap fst]; [done|].
  intros [Hx Hn]%not_elem_of_cons [Ha Hs]. split; [by rewrite lookup_insert_ne|by apply IH].
Qed.

(** A circular list. *)
Definition ring (m : gmap Z header) L : Prop := seg m L (first L 0).

Lemma ring_rotate m L1 L2 : ring m (L1 ++ L2) → ring m (L2 ++ L1).
Proof.
  unfold ring. rewrite !seg_app, !first_app. intros [H1 H2].
  destruct L1 as [|[a1 s1] L1]; [by cbn in *|]. destruct L2 as [|[a2 s2] L2]; [by cbn in *|]. done.
Qed.

Lemma ring_head m a s L : ring m ((a, s) :: L) → m !! a = Some (mkheader (first L a) s).
Proof. by intros [? _]. Qed.

Lemma seg_size m L z : seg m L z → NoDup L.*1 → (length L ≤ size m)%nat.
Proof.
  intros Hs Hnd. rewrite <-(length_fmap fst L), <-size_dom, <-(size_list_to_set (C := gset Z)) by done.
  apply subseteq_size. intros x Hx%elem_of_list_to_set. apply elem_of_dom. clear Hnd.
  induction L as [|[a s] L IH]; [by apply not_elem_of_nil in Hx|]. destruct Hs as [Ha Hs].
  cbn in Hx. apply elem_of_cons in Hx as [->|Hx]; [by eexists|by apply IH].
Qed.

(** ** The blocks of the heap

    [L] are the free blocks as (address, units), [base] first; between two of
    them there is always something in use.  [A] are the blocks in use. *)

Definition block_end (x : Z * Z) : Z := x.1 + HDR * x.2.
Definition before (x y : Z * Z) : Prop := block_end x < y.1.
Definition apart (x y : Z * Z) : Prop := block_end x ≤ y.1 ∨ block_end y ≤ x.1.

Section heap.
Context (base : Z).

Record heap_ok h L (A : gset (Z * Z)) : Prop := {
  ho_base : 0 < base;
  ho_head : ∃ L', L = (base, 0) :: L' ∧ Forall (λ x, 1 ≤ x.2) L';
  ho_ring : ring (h_mem h) L;
  ho_sorted : StronglySorted before L;
  ho_freep : h_freep h ∈ L.*1;
  ho_brk : h_brk h < 2 ^ 31 ∧ base < h_brk h;
  ho_end : ∀ x, x ∈ L → block_end x ≤ h_brk h;
  ho_used : ∀ x, x ∈ A → 1 ≤ x.2 ∧ bsize h x.1 = x.2 ∧ base < x.1 ∧ block_end x ≤ h_brk h;
  ho_apart : ∀ x y, x ∈ A → y ∈ L → apart x y;
  ho_disj : ∀ x y, x ∈ A → y ∈ A → x ≠ y → apart x y
}.

Lemma sizes_nonneg h L A x : heap_ok h L A → x ∈ L → 0 ≤ x.2 ∧ base ≤ x.1 ∧ (x.1 = base → x.2 = 0).
Proof.
  intros [_ (L' & -> & Hs) _ Hso _ _ _ _ _ _] [->|Hx]%elem_of_cons; [cbn; lia|].
  rewrite Forall_forall in Hs. specialize (Hs x Hx). cbn in Hs.
  apply StronglySorted_inv in Hso as [_ Hb]. rewrite Forall_forall in Hb. specialize (Hb x Hx).
  unfold before, block_end, HDR in Hb. cbn in Hb. lia.
Qed.

Lemma before_ne x y : 0 ≤ x.2 → before x y → x.1 ≠ y.1.
Proof. unfold before, block_end, HDR. lia. Qed.

Lemma sorted_nodup L : Forall (λ x, 0 ≤ x.2) L → StronglySorted before L → NoDup L.*1.
Proof.
  intros Hn Hs. induction Hs as [|[a s] L Hs IH Ha]; [constructor|]. apply Forall_cons in Hn as [Ha0 Hn].
  cbn. constructor; [|by apply IH]. intros (y & Heq & Hy)%list_elem_of_fmap. rewrite Forall_forall in Ha.
  specialize (Ha y Hy). apply (before_ne (a, s) y); done.
Qed.

Lemma heap_nodup h L A : heap_ok h L A → NoDup L.*1.
Proof.
  intros Hok. apply sorted_nodup; [|apply Hok]. apply Forall_forall. intros x Hx. by apply (sizes_nonneg h L A).
Qed.

(** A new block lies after [t], the last free block below it. *)
Lemma split_at h L A bp n :
  heap_ok h L A → base < bp → 1 ≤ n → (∀ y, y ∈ L → apart (bp, n) y) →
  ∃ L1 t L2, L = L1 ++ t :: L2 ∧ (∀ x, x ∈ L1 ++ [t] → block_end x ≤ bp) ∧ (∀ y, y ∈ L2 → block_end (bp, n) ≤ y.1).
Proof.
  intros Hok Hbp Hn Hap. pose proof Hok as [Hb0 (L' & -> & Hs) _ Hso _ _ _ _ _ _].
  assert (∀ L0, StronglySorted before L0 → (∀ y, y ∈ L0 → apart (bp, n) y ∧ 0 ≤ y.2) →
    ∃ La Lb, L0 = La ++ Lb ∧ (∀ x, x ∈ La → block_end x ≤ bp) ∧ (∀ y, y ∈ Lb → block_end (bp, n) ≤ y.1)) as Hsplit.
  { clear -Hn. induction 1 as [|x L0 Hso IH Hx]; intros Hap.
    - exists [], []. split_and!; [done|intros ? []%not_elem_of_nil..].
    - destruct IH as (La & Lb & -> & Ha & Hb); [intros y Hy; apply Hap; by right|].
      destruct (Hap x ltac:(left)) as [[Hxa|Hxb] Hx0].
      + exists [], (x :: La ++ Lb). split_and!; [done|intros ? []%not_elem_of_nil|].
        intros y [->|Hy]%elem_of_cons; [done|]. rewrite Forall_forall in Hx. specialize (Hx y Hy).
        unfold before, block_end, HDR in *. lia.
      + exists (x :: La), Lb. split_and!; [done|intros y [->|Hy]%elem_of_cons; [done|by apply Ha]|done]. }
  destruct (Hsplit L') as (La & Lb & -> & Ha & Hb).
  { by apply StronglySorted_inv in Hso as [? _]. }
  { intros y Hy. split; [apply Hap; by right|]. rewrite Forall_forall in Hs. specialize (Hs y Hy). cbn in Hs. lia. }
  assert (∀ x, x ∈ (base, 0) :: La → block_end x ≤ bp) as Ha'.
  { intros x [->|Hx]%elem_of_cons; [unfold block_end, HDR; cbn; lia|by apply Ha]. }
  destruct (exists_last (l := (base, 0) :: La)) as (L1 & t & Heq); [done|].
  exists L1, t, Lb. rewrite <-Heq in *. split_and!; [|done|done].
  change ((base, 0) :: La ++ Lb) with (((base, 0) :: La) ++ Lb). rewrite Heq, <-app_assoc. done.
Qed.

(** ** [free] *)

Lemma ring_ptr h L La a s Lb : ring (h_mem h) L → L = La ++ (a, s) :: Lb → ptr h a = first Lb (first L 0) ∧ bsize h a = s.
Proof.
  intros Hr ->. unfold ring in Hr. apply seg_app in Hr as [_ [Ha _]]. unfold ptr, bsize.
  by rewrite (lookup_total_correct _ _ _ Ha).
Qed.

Definition stops h (bp p : Z) : Prop :=
  (p < bp ∧ bp < ptr h p) ∨ (ptr h p ≤ p ∧ (p < bp ∨ bp < ptr h p)).

(** In a sorted list what follows is above. *)
Lemma after_above La (x : Z * Z) Lb y : StronglySorted before (La ++ x :: Lb) → 0 ≤ x.2 → y ∈ Lb → x.1 < y.1.
Proof.
  intros (_ & _ & Hs)%StronglySorted_app H0 Hy. apply StronglySorted_inv in Hs as [_ Hs].
  rewrite Forall_forall in Hs. specialize (Hs y Hy). unfold before, block_end, HDR in Hs. lia.
Qed.

Lemma start_below h L A bp x : heap_ok h L A → base < bp → x ∈ L → block_end x ≤ bp → x.1 < bp.
Proof.
  intros [_ (L' & -> & Hs) _ _ _ _ _ _ _ _] Hbp [->|Hx]%elem_of_cons Hle; [done|].
  rewrite Forall_forall in Hs. specialize (Hs x Hx). unfold block_end, HDR in Hle. cbn in *. lia.
Qed.

Lemma stops_at h L A bp n L1 t L2 x :
  heap_ok h L A → base < bp → 1 ≤ n → L = L1 ++ t :: L2 →
  (∀ x, x ∈ L1 ++ [t] → block_end x ≤ bp) → (∀ y, y ∈ L2 → block_end (bp, n) ≤ y.1) →
  x ∈ L → stops h bp x.1 ↔ x.1 = t.1.
Proof.
  intros Hok Hbp Hn HL Hlo Hhi Hx. pose proof Hok as [_ (L' & HL' & _) Hr Hso _ _ _ _ _ _].
  assert (first L 0 = base) as Hz by (by rewrite HL').
  assert (∀ y, y ∈ L → 0 ≤ y.2 ∧ base ≤ y.1) as Hsz by (intros y Hy; by destruct (sizes_nonneg h L A y Hok Hy) as (? & ? & _)).
  assert (t.1 < bp) as Ht.
  { apply (start_below h L A bp t Hok Hbp); [rewrite HL; apply elem_of_app; right; left|]. apply Hlo, elem_of_app. right. left. }
  destruct (Hsz x Hx) as [Hs0 Hab]. unfold block_end, HDR in Hhi. cbn in Hhi.
  pose proof Hx as Hx'. rewrite HL in Hx'. apply elem_of_app in Hx' as [H1|[->|H2]%elem_of_cons].
  - destruct (list_elem_of_split L1 x H1) as (La & Lb & ->). destruct x as [a s].
    assert (L = La ++ (a, s) :: (Lb ++ t :: L2)) as HL2 by (by rewrite HL, <-app_assoc).
    destruct (ring_ptr h L La a s _ Hr HL2) as [Hp _]. rewrite HL2 in Hso.
    assert (∀ y, y ∈ Lb ++ t :: L2 → a < y.1) as Hab2 by (intros y; by apply (after_above La (a, s))).
    specialize (Hab2 t ltac:(apply elem_of_app; right; left)) as Hat. unfold stops. cbn [fst]. rewrite Hp, first_app. split; [|lia].
    destruct t as [t st]. destruct Lb as [|[b sb] Lb]; cbn [first fst] in *; [lia|].
    specialize (Hab2 (b, sb) ltac:(left)). cbn in Hab2.
    assert (b < bp); [|lia]. apply (start_below h L A bp (b, sb) Hok Hbp).
    + rewrite HL2. apply elem_of_app. right. right. left.
    + apply Hlo, elem_of_app. left. apply elem_of_app. right. right. left.
  - destruct t as [a s]. destruct (ring_ptr h L L1 a s L2 Hr HL) as [Hp _]. split; [done|]. intros _.
    unfold stops. cbn [fst] in *. rewrite Hp, Hz. destruct L2 as [|[b sb] L2]; cbn [first]; [right; lia|left].
    specialize (Hhi (b, sb) ltac:(left)). cbn in Hhi. lia.
  - specialize (Hhi x H2) as Hxb. split; [|lia]. intros Hst. exfalso.
    destruct (list_elem_of_split L2 x H2) as (La & Lb & ->). destruct x as [a s].
    assert (L = (L1 ++ t :: La) ++ (a, s) :: Lb) as HL2 by (by rewrite HL, <-app_assoc).
    destruct (ring_ptr h L _ a s Lb Hr HL2) as [Hp _]. unfold stops in Hst. cbn [fst] in *. rewrite Hp, Hz in Hst.
    destruct Lb as [|[b sb] Lb]; cbn [first] in Hst; [lia|]. rewrite HL2 in Hso.
    pose proof (after_above _ (a, s) _ (b, sb) Hso Hs0 ltac:(left)). cbn in *. lia.
Qed.

(** The search goes round the ring to the one block where it stops. *)
Lemma free_find_ring h bp (t : Z * Z) C2 C1 fuel :
  ring (h_mem h) (C1 ++ C2) → t ∈ C2 → (∀ x, x ∈ C2 → stops h bp x.1 ↔ x.1 = t.1) → (length C2 ≤ S fuel)%nat →
  free_find fuel bp (first C2 0) h = Ok t.1.
Proof.
  revert C1 fuel. induction C2 as [|[p s] C2 IH]; intros C1 fuel Hr Ht Hst Hf; [by apply not_elem_of_nil in Ht|].
  specialize (Hst (p, s) ltac:(left)) as Hp. cbn [first fst] in *. unfold stops in Hp.
  assert (t ∈ C2 → free_find fuel bp p h = if decide (p = t.1) then Ok p else free_find (pred fuel) bp (ptr h p) h) as Hstep.
  { intros Hin. destruct fuel as [|fuel]; [destruct C2; [by apply not_elem_of_nil in Hin|cbn in Hf; lia]|]. cbn [free_find pred].
    repeat case_decide; try done; naive_solver. }
  apply elem_of_cons in Ht as [->|Ht].
  - cbn [fst] in *. destruct fuel; cbn [free_find]; repeat case_decide; try done; naive_solver.
  - rewrite Hstep by done. case_decide as Heq; [by rewrite Heq|].
    destruct (ring_ptr h (C1 ++ (p, s) :: C2) C1 p s C2 Hr eq_refl) as [-> _].
    destruct C2 as [|[b sb] C2]; [by apply not_elem_of_nil in Ht|]. cbn [first].
    apply (IH (C1 ++ [(p, s)]) (pred fuel)); [by rewrite <-app_assoc|done|intros x Hx; apply Hst; by right|cbn in *; lia].
Qed.

Lemma free_find_spec h L A bp n :
  heap_ok h L A → base < bp → 1 ≤ n → (∀ y, y ∈ L → apart (bp, n) y) →
  ∃ L1 t L2, L = L1 ++ t :: L2 ∧ (∀ x, x ∈ L1 ++ [t] → block_end x ≤ bp) ∧ (∀ y, y ∈ L2 → block_end (bp, n) ≤ y.1) ∧
    free_find (size (h_mem h)) bp (h_freep h) h = Ok t.1.
Proof.
  intros Hok Hbp Hn Hap. destruct (split_at h L A bp n Hok Hbp Hn Hap) as (L1 & t & L2 & HL & Hlo & Hhi).
  exists L1, t, L2. split_and!; [done..|].
  pose proof (ho_freep _ _ _ Hok) as ([f sf] & Hf & Hfin)%list_elem_of_fmap. cbn in Hf.
  destruct (list_elem_of_split L _ Hfin) as (La & Lb & Hsp).
  pose proof (ho_ring _ _ _ Hok) as Hr. rewrite Hsp in Hr. apply ring_rotate in Hr. rewrite Hf.
  change f with (first (((f, sf) :: Lb) ++ La) 0).
  assert (∀ x, x ∈ ((f, sf) :: Lb) ++ La ↔ x ∈ L) as Hin.
  { intros x. rewrite Hsp, !elem_of_app. tauto. }
  apply (free_find_ring h bp t _ []).
  - exact Hr.
  - apply Hin. rewrite HL. apply elem_of_app. right. left.
  - intros x Hx. apply (stops_at h L A bp n L1 t L2); try done. by apply Hin.
  - pose proof (seg_size _ _ _ (ho_ring _ _ _ Hok) (heap_nodup _ _ _ Hok)). rewrite Hsp in H. rewrite !length_app in *. cbn in *. lia.
Qed.

(** The list after the block [bp] of [n] units went in between [t] and [L2]. *)
Definition merge_next (bp n : Z) L2 : Z * list (Z * Z) :=
  match L2 with
  | (b, s) :: L2' => if decide (bp + HDR * n = b) then (n + s, L2') else (n, L2)
  | [] => (n, [])
  end.
Definition merge_prev (t : Z * Z) (bp : Z) (r : Z * list (Z * Z)) : list (Z * Z) :=
  if decide (block_end t = bp) then (t.1, t.2 + r.1) :: r.2 else t :: (bp, r.1) :: r.2.

Lemma free_mem h L A bp n L1 t L2 :
  heap_ok h L A → (bp, n) ∈ A → L = L1 ++ t :: L2 →
  (∀ x, x ∈ L1 ++ [t] → block_end x ≤ bp) → (∀ y, y ∈ L2 → block_end (bp, n) ≤ y.1) →
  free_find (size (h_mem h)) bp (h_freep h) h = Ok t.1 →
  let r := merge_next bp n L2 in
  ∃ h', free (bp + HDR) h = Ok h' ∧ h_freep h' = t.1 ∧ h_brk h' = h_brk h ∧
    h_mem h' = if decide (block_end t = bp)
      then <[t.1 := mkheader (first r.2 base) (t.2 + r.1)]> (<[bp := mkheader (first r.2 base) r.1]> (h_mem h))
      else <[t.1 := mkheader bp t.2]> (<[bp := mkheader (first r.2 base) r.1]> (h_mem h)).
Proof.
  intros Hok HA HL Hlo Hhi Hfind r. pose proof Hok as [Hb0 (L' & HL' & _) Hr Hso _ Hbrk Hend Hused _ _].
  assert (first L 0 = base) as Hz by (by rewrite HL').
  destruct (Hused _ HA) as (Hn & Hsz & Hbb & Hbe). cbn [fst snd] in *.
  assert (∀ y, y ∈ L → 0 ≤ y.2 ∧ base ≤ y.1) as Hge by (intros y Hy; by destruct (sizes_nonneg h L A y Hok Hy) as (? & ? & _)).
  destruct t as [t st]. destruct (ring_ptr h L L1 t st L2 Hr HL) as [Hp Hbs]. rewrite Hz in Hp.
  assert ((t, st) ∈ L) as HtL by (rewrite HL; apply elem_of_app; right; left).
  assert (t < bp) as Htb by (apply (start_below h L A bp (t, st) Hok Hbb HtL), Hlo, elem_of_app; right; left).
  destruct (Hge _ HtL) as [Hst _]. cbn [fst snd] in *. unfold block_end, HDR in Hhi, Hbe, Hend. cbn [fst snd] in *.
  unfold free. replace (bp + HDR - HDR) with bp by lia. rewrite Hfind, bind_ret, Hsz, Hp.
  set (h1 := if decide (bp + HDR * n = first L2 base) then _ else _).
  assert (h_mem h1 = <[bp := mkheader (first r.2 base) r.1]> (h_mem h) ∧ h_freep h1 = h_freep h ∧ h_brk h1 = h_brk h) as (Hm1 & _ & Hb1).
  { unfold h1, r, merge_next. destruct L2 as [|[b s] L2]; cbn [first].
    - rewrite decide_False by (unfold HDR; lia). unfold set_ptr. cbn. by rewrite Hsz.
    - case_decide as Hm; [|unfold set_ptr; cbn; by rewrite Hsz].
      specialize (Hhi (b, s) ltac:(left)). cbn [fst snd] in Hhi.
      assert ((b, s) ∈ L) as HbL by (rewrite HL; apply elem_of_app; right; right; left).
      destruct (Hge _ HbL) as [Hs0 _]. specialize (Hend _ HbL). cbn [fst snd] in Hs0, Hend.
      assert (L = (L1 ++ [(t, st)]) ++ (b, s) :: L2) as HL2 by (by rewrite HL, <-app_assoc).
      destruct (ring_ptr h L _ b s L2 Hr HL2) as [Hpb Hsb]. rewrite Hz in Hpb. rewrite Hsb, u32_small by lia.
      set (h' := set_size bp (n + s) h).
      assert (∀ q, q ≠ bp → ptr h' q = ptr h q) as Hq.
      { intros q Hq. unfold ptr, h', set_size. cbn. by rewrite lookup_total_insert_ne. }
      rewrite (Hq t), Hp by lia. cbn [first]. rewrite (Hq b), Hpb by lia. cbn. split_and!; [|done..].
      unfold h', set_size. cbn. rewrite insert_insert_eq. unfold bsize. cbn. by rewrite lookup_total_insert_eq. }
  clearbody h1. assert (bsize h1 t = st ∧ bsize h1 bp = r.1 ∧ ptr h1 bp = first r.2 base) as (Ht1 & Hb1' & Hp1).
  { unfold bsize, ptr. rewrite Hm1, lookup_total_insert_eq, lookup_total_insert_ne by lia. done. }
  rewrite Ht1. assert (0 ≤ st + r.1 < 2 ^ 32) as Hsum.
  { assert (0 ≤ r.1 ∧ bp + HDR * r.1 ≤ h_brk h) as [Hr0 Hrb].
    { unfold r, merge_next. destruct L2 as [|[b s] L2]; [cbn [fst]; unfold HDR; lia|].
      case_decide; cbn [fst]; [|unfold HDR; lia].
      assert ((b, s) ∈ L) as HbL by (rewrite HL; apply elem_of_app; right; right; left).
      destruct (Hge _ HbL) as [Hs0 _]. specialize (Hend _ HbL). cbn [fst snd] in *. unfold HDR in *. lia. }
    specialize (Hlo (t, st) ltac:(apply elem_of_app; right; left)). unfold block_end, HDR in *. cbn [fst snd] in *.
    pose proof (ho_base _ _ _ Hok). destruct (Hge _ HtL). cbn [fst snd] in *. lia. }
  eexists. split; [done|]. unfold block_end. cbn [fst snd].
  case_decide as Hm.
  - rewrite Hb1', u32_small by done. set (h2 := set_size t (st + r.1) h1).
    assert (ptr h2 bp = first r.2 base) as ->.
    { unfold ptr, h2, set_size. cbn. rewrite lookup_total_insert_ne by lia. exact Hp1. }
    cbn. split_and!; [done|done|]. unfold h2, set_size. cbn. rewrite insert_insert_eq, Hm1.
    unfold bsize. cbn. by rewrite lookup_total_insert_eq.
  - cbn. split_and!; [done|done|]. by rewrite Hm1, Ht1.
Qed.

(** A property of blocks that adjacent blocks pass on to their union. *)
Definition joins (P : Z * Z → Prop) : Prop := ∀ a n m, P (a, n) → P (a + HDR * n, m) → P (a, n + m).

Lemma merge_forall (P : Z * Z → Prop) L1 t L2 bp n :
  joins P → (∀ x, x ∈ L1 ++ t :: L2 → P x) → P (bp, n) →
  ∀ x, x ∈ L1 ++ merge_prev t bp (merge_next bp n L2) → P x.
Proof.
  intros HJ HL Hb.
  assert (P (bp, (merge_next bp n L2).1) ∧ ∀ x, x ∈ (merge_next bp n L2).2 → P x) as [Hr1 Hr2].
  { unfold merge_next. destruct L2 as [|[b s] L2]; cbn [fst snd].
    - split; [done|]. by intros x []%not_elem_of_nil.
    - assert (∀ x, x ∈ (b, s) :: L2 → P x) as HL2 by (intros x Hx; apply HL, elem_of_app; right; by right).
      case_decide as He; cbn [fst snd]; [|done]. split; [|intros x Hx; apply HL2; by right].
      apply HJ; [done|]. rewrite He. apply HL2. left. }
  assert (P t) as Ht by (apply HL, elem_of_app; right; left).
  intros x [Hx|Hx]%elem_of_app; [apply HL, elem_of_app; by left|]. unfold merge_prev in Hx. case_decide as He.
  - apply elem_of_cons in Hx as [->|Hx]; [|by apply Hr2]. apply HJ; [by destruct t|].
    unfold block_end in He. by rewrite He.
  - apply elem_of_cons in Hx as [->|Hx]; [done|]. apply elem_of_cons in Hx as [->|Hx]; [done|by apply Hr2].
Qed.

Lemma merge_sorted L1 t L2 bp n :
  StronglySorted before (L1 ++ t :: L2) → (∀ x, x ∈ L1 ++ t :: L2 → 0 ≤ x.2) → 1 ≤ n →
  block_end t ≤ bp → t.1 < bp → (∀ y, y ∈ L2 → block_end (bp, n) ≤ y.1) →
  StronglySorted before (L1 ++ merge_prev t bp (merge_next bp n L2)).
Proof.
  intros Hso H0 Hn Hlo Htb Hhi. apply StronglySorted_app in Hso as (H1 & Hs1 & Hs2).
  apply StronglySorted_inv in Hs2 as [Hs2 Ht]. rewrite Forall_forall in Ht.
  set (r := merge_next bp n L2).
  assert (StronglySorted before r.2 ∧ (∀ y, y ∈ r.2 → bp + HDR * r.1 < y.1) ∧ (∀ y, y ∈ r.2 → y ∈ L2) ∧ 1 ≤ r.1) as (Hr & Hrb & Hrin & Hr0).
  { unfold r, merge_next. destruct L2 as [|[b s] L2]; cbn [fst snd].
    - split_and!; [constructor|by intros ? []%not_elem_of_nil..|done].
    - pose proof Hs2 as [Hs3 Hb]%StronglySorted_inv. rewrite Forall_forall in Hb.
      assert (0 ≤ s) as Hs0 by (apply (H0 (b, s)), elem_of_app; right; right; left).
      specialize (Hhi (b, s) ltac:(left)) as Hb0. unfold block_end, HDR in Hb0. cbn [fst snd] in Hb0.
      case_decide as He; cbn [fst snd].
      + split_and!; [done| |intros y Hy; by right|lia]. intros y Hy. specialize (Hb y Hy).
        unfold before, block_end, HDR in *. cbn [fst snd] in *. lia.
      + split_and!; [done| |done|lia]. intros y [->|Hy]%elem_of_cons; [unfold HDR in *; cbn [fst]; lia|].
        specialize (Hb y Hy). unfold before, block_end, HDR in *. cbn [fst snd] in *. lia. }
  assert (∀ y, y ∈ merge_prev t bp r → t.1 ≤ y.1) as Hmin.
  { intros y Hy. assert (∀ z, z ∈ r.2 → t.1 < z.1) as Hz.
    { intros z Hz. specialize (Hrb z Hz). unfold HDR in Hrb. lia. }
    unfold merge_prev in Hy. case_decide.
    - apply elem_of_cons in Hy as [->|Hy]; [cbn; lia|]. specialize (Hz y Hy). lia.
    - apply elem_of_cons in Hy as [->|[->|Hy]%elem_of_cons]; [lia|cbn; lia|]. specialize (Hz y Hy). lia. }
  apply StronglySorted_app. split_and!; [|done|].
  - intros x y Hx Hy. specialize (Hmin y Hy). specialize (H1 x t Hx ltac:(left)). unfold before in *. lia.
  - unfold merge_prev. case_decide as He.
    + constructor; [done|]. apply Forall_forall. intros y Hy. specialize (Hrb y Hy).
      unfold before, block_end, HDR in *. cbn [fst snd]. lia.
    + constructor; [constructor; [done|]|constructor].
      * apply Forall_forall. intros y Hy. specialize (Hrb y Hy). unfold before, block_end. cbn [fst snd]. exact Hrb.
      * unfold before. cbn [fst]. lia.
      * apply Forall_forall. intros y Hy. by apply Ht, Hrin.
Qed.

Lemma merge_ring h L A bp n L1 t L2 m' :
  heap_ok h L A → (bp, n) ∈ A → L = L1 ++ t :: L2 →
  (∀ x, x ∈ L1 ++ [t] → block_end x ≤ bp) → (∀ y, y ∈ L2 → block_end (bp, n) ≤ y.1) →
  let r := merge_next bp n L2 in
  m' = (if decide (block_end t = bp)
      then <[t.1 := mkheader (first r.2 base) (t.2 + r.1)]> (<[bp := mkheader (first r.2 base) r.1]> (h_mem h))
      else <[t.1 := mkheader bp t.2]> (<[bp := mkheader (first r.2 base) r.1]> (h_mem h))) →
  seg m' (L1 ++ merge_prev t bp r) base.
Proof.
  intros Hok HA HL Hlo Hhi r ->. pose proof Hok as [_ (L' & HL' & _) Hr _ _ _ _ Hused _ _].
  assert (first L 0 = base) as Hz by (by rewrite HL'). pose proof (heap_nodup _ _ _ Hok) as Hnd.
  destruct t as [t st]. unfold ring in Hr. rewrite Hz, HL in Hr. apply seg_app in Hr as [HS1 [Hmt HS2]]. cbn [first] in HS1.
  rewrite HL, fmap_app in Hnd. apply NoDup_app in Hnd as (_ & Hd & Hnd2). cbn in Hnd2. apply NoDup_cons in Hnd2 as [Htn _].
  assert (bp ∉ L.*1) as Hbn.
  { intros (y & Heq & Hy)%list_elem_of_fmap. destruct (Hused _ HA) as (Hn & _ & Hbb & _). cbn in Hbb.
    rewrite HL in Hy. apply elem_of_app in Hy as [Hy|[->|Hy]%elem_of_cons].
    - assert (y.1 < bp); [|lia]. apply (start_below h L A bp y Hok Hbb); [rewrite HL; apply elem_of_app; by left|].
      apply Hlo, elem_of_app. by left.
    - assert (t < bp); [|cbn in Heq; lia]. apply (start_below h L A bp (t, st) Hok Hbb); [rewrite HL; apply elem_of_app; right; left|].
      apply Hlo, elem_of_app. right. left.
    - specialize (Hhi y Hy). unfold block_end, HDR in Hhi. cbn [fst snd] in *. lia. }
  rewrite HL, fmap_app in Hbn. apply not_elem_of_app in Hbn as [Hb1 Hb2]. cbn in Hb2. apply not_elem_of_cons in Hb2 as [Hbt Hb2].
  assert (t ∉ L1.*1) as Ht1 by (intros Hin; apply (Hd _ Hin); left).
  assert (seg (h_mem h) r.2 base ∧ t ∉ r.2.*1 ∧ bp ∉ r.2.*1) as (HSr & Htr & Hbr).
  { unfold r, merge_next. destruct L2 as [|[b s] L2]; [by split_and!|]. case_decide; cbn [fst snd]; [|done].
    destruct HS2 as [_ HS2]. cbn in Htn, Hb2. apply not_elem_of_cons in Htn as [_ Htn]. apply not_elem_of_cons in Hb2 as [_ Hb2].
    by split_and!. }
  clearbody r. cbn [fst snd first] in *. unfold merge_prev. apply seg_app. case_decide; cbn [first seg fst snd].
  - split_and!; [by apply seg_frame, seg_frame|by rewrite lookup_insert_eq|by apply seg_frame, seg_frame].
  - split_and!; [by apply seg_frame, seg_frame|by rewrite lookup_insert_eq| |by apply seg_frame, seg_frame].
    rewrite lookup_insert_ne by congruence. by rewrite lookup_insert_eq.
Qed.

Definition units L : Z := foldr (λ x acc, x.2 + acc) 0 L.

Lemma units_app L1 L2 : units (L1 ++ L2) = units L1 + units L2.
Proof. induction L1 as [|x L1 IH]; cbn [app units foldr]; [done|]. fold (units (L1 ++ L2)) (units L1). lia. Qed.

Lemma merge_units t bp n L2 : units (merge_prev t bp (merge_next bp n L2)) = t.2 + n + units L2.
Proof.
  unfold merge_prev, merge_next, units. destruct L2 as [|[b s] L2]; repeat case_decide; cbn [fst snd foldr]; lia.
Qed.

Lemma merge_fits L1 t bp n L2 :
  0 ≤ t.2 → (∀ y, y ∈ L2 → 0 ≤ y.2) → ∃ x, x ∈ L1 ++ merge_prev t bp (merge_next bp n L2) ∧ n ≤ x.2.
Proof.
  intros Ht HL2. assert (n ≤ (merge_next bp n L2).1) as Hn.
  { unfold merge_next. destruct L2 as [|[b s] L2]; cbn [fst]; [lia|]. specialize (HL2 (b, s) ltac:(left)). cbn in HL2.
    case_decide; cbn [fst]; lia. }
  unfold merge_prev. case_decide.
  - eexists. split; [apply elem_of_app; right; left|]. cbn [snd]. lia.
  - eexists. split; [apply elem_of_app; right; right; left|]. cbn [snd]. lia.
Qed.

Lemma apart_joins x : 1 ≤ x.2 → joins (apart x).
Proof. intros Hx a n m. unfold apart, block_end, HDR. cbn [fst snd]. lia. Qed.

Lemma merge_head L L' L1 t L2 bp n :
  L = (base, 0) :: L' → Forall (λ x, 1 ≤ x.2) L' → L = L1 ++ t :: L2 → block_end t ≤ bp → base < bp → 1 ≤ n →
  ∃ M', L1 ++ merge_prev t bp (merge_next bp n L2) = (base, 0) :: M' ∧ Forall (λ x, 1 ≤ x.2) M'.
Proof.
  intros HL' Hsz HL Hte Hbb Hn. rewrite Forall_forall in Hsz. rewrite HL' in HL.
  assert (joins (λ x, 1 ≤ x.2)) as HJ by (intros a k k'; cbn; lia).
  destruct L1 as [|y L1]; cbn [app] in *; injection HL as <- ->.
  - unfold merge_prev. rewrite decide_False by (unfold block_end, HDR; cbn [fst snd]; lia).
    eexists. split; [done|]. apply Forall_forall. unfold merge_next. intros x Hx. destruct L2 as [|[b s] L2]; cbn [fst snd] in Hx.
    + apply list_elem_of_singleton in Hx as ->. done.
    + specialize (Hsz (b, s) ltac:(left)) as Hs. cbn in Hs.
      case_decide; cbn [fst snd] in Hx; apply elem_of_cons in Hx as [->|Hx]; [cbn; lia| |cbn; lia|by apply Hsz].
      apply Hsz. by right.
  - eexists. split; [done|]. apply Forall_forall. by apply (merge_forall (λ x, 1 ≤ x.2)).
Qed.

Lemma free_spec h L A bp n :
  heap_ok h L A → (bp, n) ∈ A →
  ∃ h' L', free (bp + HDR) h = Ok h' ∧ heap_ok h' L' (A ∖ {[(bp, n)]}) ∧ h_brk h' = h_brk h ∧
    units L' = units L + n ∧ (∃ x, x ∈ L' ∧ n ≤ x.2) ∧ (length L' ≤ S (length L))%nat.
Proof.
  intros Hok HA. pose proof Hok as [Hb0 (L' & HL' & Hsz) Hr Hso Hfp Hbrk Hend Hused Hap Hdj].
  destruct (Hused _ HA) as (Hn & Hbn & Hbb & Hbe). cbn [fst snd] in *.
  destruct (free_find_spec h L A bp n Hok Hbb Hn) as (L1 & t & L2 & HL & Hlo & Hhi & Hfind); [intros y; by apply Hap|].
  destruct (free_mem h L A bp n L1 t L2 Hok HA HL Hlo Hhi Hfind) as (h' & Hfree & Hfp' & Hbrk' & Hmem).
  pose proof (merge_ring h L A bp n L1 t L2 _ Hok HA HL Hlo Hhi Hmem) as Hseg.
  assert (∀ y, y ∈ L → 0 ≤ y.2 ∧ base ≤ y.1) as Hge by (intros y Hy; by destruct (sizes_nonneg h L A y Hok Hy) as (? & ? & _)).
  assert (t ∈ L) as HtL by (rewrite HL; apply elem_of_app; right; left).
  assert (block_end t ≤ bp) as Hte by (apply Hlo, elem_of_app; right; left).
  pose proof (start_below h L A bp t Hok Hbb HtL Hte) as Htb.
  set (M := L1 ++ merge_prev t bp (merge_next bp n L2)) in *. exists h', M.
  assert (∃ M', M = (base, 0) :: M' ∧ Forall (λ x, 1 ≤ x.2) M') as HM by (by apply (merge_head L L')).
  assert (first M 0 = base) as HMz by (by destruct HM as (M' & -> & _)).
  split_and!; [done| |done|..].
  - split; [done|done|unfold ring; by rewrite HMz|..].
    + apply merge_sorted; try done; [by rewrite <-HL|]. intros x Hx. apply Hge. by rewrite HL.
    + rewrite Hfp'. unfold M, merge_prev. rewrite fmap_app. apply elem_of_app. right. case_decide; left.
    + rewrite Hbrk'. done.
    + rewrite Hbrk'. apply (merge_forall (λ x, block_end x ≤ h_brk h)); [|by rewrite <-HL|done].
      intros a k k'. unfold block_end, HDR. cbn [fst snd]. lia.
    + intros x [Hx Hne]%elem_of_difference. destruct (Hused x Hx) as (Hx1 & Hx2 & Hx3 & Hx4). rewrite Hbrk'. split_and!; try done.
      rewrite <-Hx2. unfold bsize. rewrite Hmem. assert (x.1 ≠ bp ∧ x.1 ≠ t.1) as [Hxb Hxt].
      { rewrite elem_of_singleton in Hne. specialize (Hdj x (bp, n) Hx HA Hne). specialize (Hap x t Hx HtL).
        assert (t = (base, 0) ∨ 1 ≤ t.2) as Ht.
        { rewrite HL' in HtL. apply elem_of_cons in HtL as [?|HtL]; [by left|right]. rewrite Forall_forall in Hsz. by apply Hsz. }
        unfold apart, block_end, HDR in Hdj, Hap. cbn [fst snd] in Hdj, Hap. destruct Ht as [-> | Ht]; cbn [fst snd] in *; lia. }
      case_decide; by rewrite !lookup_total_insert_ne by congruence.
    + intros x y [Hx Hne]%elem_of_difference Hy. destruct (Hused x Hx) as (Hx1 & _). revert y Hy.
      apply (merge_forall (apart x)); [by apply apart_joins|rewrite <-HL; intros y; by apply Hap|].
      apply Hdj; [done|done|]. by rewrite elem_of_singleton in Hne.
    + intros x y [Hx _]%elem_of_difference [Hy _]%elem_of_difference. by apply Hdj.
  - unfold M. rewrite units_app, merge_units, HL, units_app. cbn [units foldr]. fold (units L2). lia.
  - apply merge_fits; [by apply Hge|]. intros y Hy. apply Hge. rewrite HL. apply elem_of_app. right. by right.
  - unfold M. rewrite HL, !length_app. unfold merge_prev, merge_next. destruct L2 as [|[b s] L2]; repeat case_decide; cbn; lia.
Qed.

(** ** [malloc] *)

(** [x] lies inside the block [y]. *)
Definition inside (x y : Z * Z) : Prop := y.1 ≤ x.1 ∧ block_end x ≤ block_end y.

Lemma apart_inside x y z : inside y z → apart x z → apart x y.
Proof. unfold inside, apart, block_end. lia. Qed.
Lemma apart_sym x y : apart x y → apart y x.
Proof. unfold apart. lia. Qed.

Lemma used_not_free h L A x y : heap_ok h L A → x ∈ A → y ∈ L → x.1 ≠ y.1.
Proof.
  intros [_ (L' & -> & Hsz) _ _ _ _ _ Hused Hap _] Hx Hy. destruct (Hused x Hx) as (H1 & _ & Hb & _).
  specialize (Hap x y Hx Hy). apply elem_of_cons in Hy as [->|Hy]; [cbn; lia|].
  rewrite Forall_forall in Hsz. specialize (Hsz y Hy). cbn in Hsz. unfold apart, block_end, HDR in Hap. lia.
Qed.

(** Part of a free block becomes used. *)
Lemma heap_take h h' L L' A b :
  heap_ok h L A → (∃ L0, L' = (base, 0) :: L0 ∧ Forall (λ x, 1 ≤ x.2) L0) → ring (h_mem h') L' → StronglySorted before L' →
  h_freep h' ∈ L'.*1 → h_brk h' = h_brk h → 1 ≤ b.2 → bsize h' b.1 = b.2 → base < b.1 →
  (∃ z, z ∈ L ∧ inside b z) → (∀ y, y ∈ L' → (∃ z, z ∈ L ∧ inside y z) ∧ apart b y) →
  (∀ x, x ∈ A → bsize h' x.1 = bsize h x.1) →
  heap_ok h' L' ({[b]} ∪ A) ∧ b ∉ A.
Proof.
  intros Hok Hhead Hr Hso Hfp Hbrk Hb1 Hbs Hbb (z & Hz & Hin) HL Hsame. pose proof Hok as [Hb0 _ _ _ _ Hbk Hend Hused Hap Hdj].
  assert (∀ x, x ∈ A → apart x b) as Hxb by (intros x Hx; apply (apart_inside x b z); [done|by apply Hap]).
  split; [split; try done|].
  - by rewrite Hbrk.
  - intros y Hy. rewrite Hbrk. destruct (HL y Hy) as [(z' & Hz' & Hi) _]. specialize (Hend z' Hz'). unfold inside in Hi. lia.
  - rewrite Hbrk. intros x [->%elem_of_singleton|Hx]%elem_of_union.
    + split_and!; [done..|]. specialize (Hend z Hz). unfold inside in Hin. lia.
    + rewrite Hsame by done. by apply Hused.
  - intros x y [->%elem_of_singleton|Hx]%elem_of_union Hy; destruct (HL y Hy) as [(z' & Hz' & Hi) Hby]; [done|].
    apply (apart_inside x y z'); [done|by apply Hap].
  - intros x y [Hx%elem_of_singleton|Hx]%elem_of_union [Hy%elem_of_singleton|Hy]%elem_of_union Hne; subst.
    + done.
    + by apply apart_sym, Hxb.
    + by apply Hxb.
    + by apply Hdj.
  - intros Hb. specialize (Hxb b Hb). unfold apart, block_end, HDR in Hxb. lia.
Qed.

Lemma inside_refl x : inside x x.
Proof. unfold inside. lia. Qed.

Lemma head_keep L L0 La (y : Z * Z) M N :
  L = (base, 0) :: L0 → Forall (λ x, 1 ≤ x.2) L0 → L = La ++ y :: M → (∀ x, x ∈ N → x ∈ M ∨ 1 ≤ x.2) →
  ∃ L1, La ++ y :: N = (base, 0) :: L1 ∧ Forall (λ x, 1 ≤ x.2) L1.
Proof.
  intros HL0 Hsz HL HN. rewrite Forall_forall in Hsz. rewrite HL in HL0.
  destruct La as [|a La]; cbn [app] in *; injection HL0 as -> HL0; eexists; (split; [done|]); apply Forall_forall; intros x Hx.
  - destruct (HN x Hx) as [Hm|?]; [|done]. apply Hsz. by rewrite <-HL0.
  - apply elem_of_app in Hx as [Hx|[->|Hx]%elem_of_cons].
    + apply Hsz. rewrite <-HL0. apply elem_of_app. by left.
    + apply Hsz. rewrite <-HL0. apply elem_of_app. right. left.
    + destruct (HN x Hx) as [Hm|?]; [|done]. apply Hsz. rewrite <-HL0. apply elem_of_app. right. by right.
Qed.

Lemma carve_whole h La y p s Lb A :
  heap_ok h (La ++ y :: (p, s) :: Lb) A → 1 ≤ s →
  let h' := (set_ptr y.1 (ptr h p) h) <| h_freep := y.1 |> in
  heap_ok h' (La ++ y :: Lb) ({[(p, s)]} ∪ A) ∧ (p, s) ∉ A.
Proof.
  intros Hok Hs1 h'. set (L := La ++ y :: (p, s) :: Lb) in *.
  pose proof Hok as [Hb0 (L0 & HL0 & Hsz) Hr Hso _ _ _ _ _ _]. pose proof (heap_nodup _ _ _ Hok) as Hnd.
  assert (first L 0 = base) as Hz by (by rewrite HL0).
  assert (L = (La ++ [y]) ++ (p, s) :: Lb) as HL2 by (unfold L; by rewrite <-app_assoc).
  destruct (ring_ptr h L _ p s Lb Hr HL2) as [Hp Hs]. rewrite Hz in Hp.
  assert ((p, s) ∈ L) as HpL by (rewrite HL2; apply elem_of_app; right; left).
  assert (y ∈ L) as HyL by (apply elem_of_app; right; left).
  assert (y.1 ∉ La.*1 ∧ y.1 ≠ p ∧ y.1 ∉ Lb.*1) as (Hy1 & Hyp & Hy2).
  { unfold L in Hnd. rewrite fmap_app in Hnd. cbn [fmap list_fmap fst] in Hnd. apply NoDup_app in Hnd as (_ & Hd & Hnd).
    apply NoDup_cons in Hnd as [Hn _]. apply not_elem_of_cons in Hn as [? ?]. split_and!; try done.
    intros Hin. apply (Hd _ Hin). left. }
  destruct y as [ya ys]. cbn [fst snd] in *. destruct (ring_ptr h L La ya ys _ Hr eq_refl) as [_ Hys].
  assert (∃ L1, La ++ (ya, ys) :: Lb = (base, 0) :: L1 ∧ Forall (λ x, 1 ≤ x.2) L1) as Hhead.
  { apply (head_keep L L0 La (ya, ys) ((p, s) :: Lb) Lb); [done..|]. intros x Hx. left. by right. }
  pose proof Hso as (Hs1' & Hs2' & Hs3')%StronglySorted_app. apply StronglySorted_inv in Hs3' as [Hs3' Hyb].
  apply StronglySorted_inv in Hs3' as [Hs3' Hpb]. apply Forall_cons in Hyb as [Hyp' Hyb]. rewrite Forall_forall in Hyb, Hpb.
  apply (heap_take h h' L); try done.
  - unfold ring. destruct Hhead as (L1 & HL1 & _). rewrite HL1. cbn [first]. rewrite <-HL1.
    unfold ring in Hr. rewrite Hz in Hr. apply seg_app in Hr as [Hr1 [_ [_ Hr3]]]. apply seg_app. cbn [first seg].
    unfold h', set_ptr. cbn. rewrite Hys, Hp, lookup_insert_eq. split_and!; [by apply seg_frame|done|by apply seg_frame].
  - apply StronglySorted_app. split_and!; [|done|constructor; [done|by apply Forall_forall]].
    intros x z Hx Hzz. apply Hs1'; [done|]. apply elem_of_cons in Hzz as [->|Hzz]; [left|right; by right].
  - cbn. rewrite fmap_app. apply elem_of_app. right. left.
  - unfold bsize, h', set_ptr. cbn. by rewrite lookup_total_insert_ne.
  - destruct (sizes_nonneg h L A (p, s) Hok HpL) as (_ & ? & ?). cbn [fst snd] in *. destruct (decide (p = base)); lia.
  - exists (p, s). split; [done|apply inside_refl].
  - intros x Hx. split.
    + exists x. split; [|apply inside_refl]. unfold L. apply elem_of_app in Hx as [Hx|[->|Hx]%elem_of_cons]; apply elem_of_app;
        [by left|right; left|right; right; by right].
    + apply elem_of_app in Hx as [Hx|[->|Hx]%elem_of_cons].
      * right. specialize (Hs1' x (p, s) Hx ltac:(right; left)). unfold before in Hs1'. lia.
      * right. unfold before in Hyp'. lia.
      * left. specialize (Hpb x Hx). unfold before in Hpb. lia.
  - intros x Hx. unfold bsize, h', set_ptr. cbn. rewrite lookup_total_insert_ne; [done|].
    intros Heq. by apply (used_not_free h L A x (ya, ys) Hok Hx HyL).
Qed.

Lemma carve_tail h La y p s Lb A n :
  heap_ok h (La ++ y :: (p, s) :: Lb) A → 1 ≤ n < s →
  let q := p + HDR * (s - n) in
  let h' := (set_size q n (set_size p (s - n) h)) <| h_freep := y.1 |> in
  heap_ok h' (La ++ y :: (p, s - n) :: Lb) ({[(q, n)]} ∪ A) ∧ (q, n) ∉ A.
Proof.
  intros Hok Hn q h'. set (L := La ++ y :: (p, s) :: Lb) in *.
  pose proof Hok as [Hb0 (L0 & HL0 & Hsz) Hr Hso _ _ _ _ _ _]. pose proof (heap_nodup _ _ _ Hok) as Hnd.
  assert (first L 0 = base) as Hz by (by rewrite HL0).
  assert (L = (La ++ [y]) ++ (p, s) :: Lb) as HL2 by (unfold L; by rewrite <-app_assoc).
  destruct (ring_ptr h L _ p s Lb Hr HL2) as [Hp Hs]. rewrite Hz in Hp.
  assert ((p, s) ∈ L) as HpL by (rewrite HL2; apply elem_of_app; right; left).
  pose proof (sizes_nonneg h L A (p, s) Hok HpL) as (_ & Hpb & Hpb0). cbn [fst snd] in *.
  assert (p < q) as Hpq by (unfold q, HDR; lia).
  rewrite HL2 in Hso. pose proof Hso as (Hs1 & Hs2 & Hs3)%StronglySorted_app. apply StronglySorted_inv in Hs3 as [Hs3 Hpl].
  rewrite Forall_forall in Hpl.
  assert (∀ x, x ∈ La ++ [y] → block_end x < p) as Hlow by (intros x Hx; by apply (Hs1 x (p, s) Hx ltac:(left))).
  assert (∀ x, x ∈ Lb → block_end (p, s) < x.1) as Hhigh by (intros x Hx; by apply Hpl).
  assert (block_end (p, s - n) = q ∧ block_end (q, n) = block_end (p, s)) as [He1 He2].
  { unfold block_end, q, HDR. cbn [fst snd]. lia. }
  assert (∀ x, x ∈ L → 0 ≤ x.2) as Hge by (intros x Hx; by apply (sizes_nonneg h L A x Hok Hx)).
  assert (p ∉ (La ++ [y]).*1 ∧ p ∉ Lb.*1) as [Hp1 Hp2].
  { rewrite HL2, fmap_app in Hnd. cbn [fmap list_fmap fst] in Hnd. apply NoDup_app in Hnd as (_ & Hd & [Hpn _]%NoDup_cons). split; [|done].
    intros Hin. apply (Hd _ Hin). left. }
  assert (q ∉ (La ++ [y]).*1 ∧ q ∉ Lb.*1) as [Hq1 Hq2].
  { split; intros (x & Heq & Hx)%list_elem_of_fmap.
    - specialize (Hlow x Hx). assert (0 ≤ x.2) by (apply Hge; rewrite HL2; apply elem_of_app; by left). unfold block_end, HDR in *. lia.
    - specialize (Hhigh x Hx). unfold block_end, q, HDR in *. cbn [fst snd] in *. lia. }
  assert (h_mem h' = <[q := mkheader (ptr (set_size p (s - n) h) q) n]> (<[p := mkheader (first Lb base) (s - n)]> (h_mem h))) as Hm.
  { unfold h', set_size. cbn. by rewrite Hp. }
  assert (La ++ y :: (p, s - n) :: Lb = (La ++ [y]) ++ (p, s - n) :: Lb) as HL3 by (by rewrite <-app_assoc).
  destruct (head_keep L L0 La y ((p, s) :: Lb) ((p, s - n) :: Lb) HL0 Hsz eq_refl) as (L1 & HL1 & Hsz1).
  { intros x [->|Hx]%elem_of_cons; [right; cbn; lia|left; by right]. }
  apply (heap_take h h' L); try done.
  - by exists L1.
  - unfold ring. rewrite HL1. cbn [first]. rewrite <-HL1, HL3, Hm.
    unfold ring in Hr. rewrite Hz, HL2 in Hr. apply seg_app in Hr as [Hr1 [_ Hr2]]. apply seg_app. cbn [first seg].
    split_and!; [by apply seg_frame, seg_frame| |by apply seg_frame, seg_frame].
    rewrite lookup_insert_ne by lia. by rewrite lookup_insert_eq.
  - rewrite HL3. apply StronglySorted_app. split_and!; [|done|constructor; [done|apply Forall_forall]].
    + intros x z Hx [->|Hzz]%elem_of_cons; [unfold before; cbn [fst]; by apply Hlow|]. apply Hs1; [done|by right].
    + intros x Hx. specialize (Hhigh x Hx). unfold before. rewrite He1. unfold block_end, q, HDR in *. cbn [fst snd] in *. lia.
  - cbn. rewrite fmap_app. apply elem_of_app. right. left.
  - cbn. lia.
  - unfold bsize. rewrite Hm. cbn [fst]. by rewrite lookup_total_insert_eq.
  - cbn. lia.
  - exists (p, s). split; [done|]. unfold inside. cbn [fst]. lia.
  - intros x Hx. rewrite HL3 in Hx. apply elem_of_app in Hx as [Hx|[->|Hx]%elem_of_cons].
    + split; [exists x; split; [rewrite HL2; apply elem_of_app; by left|apply inside_refl]|]. right. specialize (Hlow x Hx). cbn [fst]. lia.
    + split; [exists (p, s); split; [done|]|right; rewrite He1; cbn [fst]; lia]. unfold inside, block_end, HDR. cbn [fst snd]. lia.
    + split; [exists x; split; [rewrite HL2; apply elem_of_app; right; by right|apply inside_refl]|]. left. specialize (Hhigh x Hx). lia.
  - intros x Hx. unfold bsize. rewrite Hm. rewrite !lookup_total_insert_ne; [done| |].
    + intros Heq. by apply (used_not_free h L A x (p, s) Hok Hx HpL).
    + intros Heq. pose proof (ho_apart _ _ _ Hok x (p, s) Hx HpL) as Hap. destruct (ho_used _ _ _ Hok x Hx) as (Hx1 & _).
      unfold apart, block_end, HDR, q in *. cbn [fst snd] in *. lia.
Qed.

(** Any free block that is large enough, with its predecessor. *)
Lemma carve_spec h L A prev p s n :
  heap_ok h L A → prev ∈ L.*1 → ptr h prev = p → (p, s) ∈ L → 1 ≤ n ≤ s →
  ∃ h' L' q, carve n prev p h = (q + HDR, h') ∧ heap_ok h' L' ({[(q, n)]} ∪ A) ∧ (q, n) ∉ A ∧
    h_brk h' = h_brk h ∧ units L' + n = units L.
Proof.
  intros Hok Hprev Hptr Hp Hn. pose proof Hok as [Hb0 (L0 & HL0 & _) Hr _ _ _ _ _ _ _]. pose proof (heap_nodup _ _ _ Hok) as Hnd.
  assert (first L 0 = base) as Hz by (by rewrite HL0).
  apply list_elem_of_fmap in Hprev as ([w sw] & Hw & Hin). cbn in Hw. subst w.
  destruct (list_elem_of_split L _ Hin) as (La & Lb & HL). destruct (ring_ptr h L La prev sw Lb Hr HL) as [Hpw _].
  rewrite Hz, Hptr in Hpw. destruct (sizes_nonneg h L A (p, s) Hok Hp) as (_ & _ & Hpb). cbn [fst snd] in Hpb.
  destruct Lb as [|[p' s'] Lb]; cbn [first] in Hpw; [lia|]. subst p'.
  assert (s' = s) as ->.
  { assert ((p, s') ∈ L) as Hp' by (rewrite HL; apply elem_of_app; right; right; left).
    apply list_elem_of_lookup in Hp as [i Hi]. apply list_elem_of_lookup in Hp' as [j Hj].
    assert (i = j) as ->; [|congruence]. apply (NoDup_lookup L.*1 i j p Hnd); by rewrite list_lookup_fmap, ?Hi, ?Hj. }
  assert (L = (La ++ [(prev, sw)]) ++ (p, s) :: Lb) as HL2 by (by rewrite <-app_assoc).
  destruct (ring_ptr h L _ p s Lb Hr HL2) as [_ Hbs]. unfold carve. rewrite Hbs. rewrite HL in Hok.
  clear Hbs. case_decide as He.
  - subst s. destruct (carve_whole h La (prev, sw) p n Lb A Hok) as [Hok' Hna]; [lia|]. cbn [fst] in *.
    eexists _, _, p. split; [done|]. split; [exact Hok'|]. split_and!; [done|done|].
    rewrite HL, !units_app. cbn [units foldr]. fold (units Lb). cbn [snd]. lia.
  - destruct (carve_tail h La (prev, sw) p s Lb A n Hok) as [Hok' Hna]; [lia|]. cbn [fst] in *.
    assert (bsize (set_size p (s - n) h) p = s - n) as ->.
    { unfold bsize, set_size. cbn. by rewrite lookup_total_insert_eq. }
    eexists _, _, (p + HDR * (s - n)). split; [done|]. split; [exact Hok'|]. split_and!; [done|done|].
    rewrite HL, !units_app. cbn [units foldr]. fold (units Lb). cbn [snd]. lia.
Qed.

(** The search goes round the ring until it finds a block or is back at [freep]. *)
Context (sbrk_fails : Z → Z → bool).

Lemma malloc_scan h L A n C2 C1 fuel prev f :
  heap_ok h L A → ring (h_mem h) (C1 ++ C2 ++ [f]) → (∀ x, x ∈ C1 ++ C2 ++ [f] ↔ x ∈ L) → f.1 = h_freep h →
  (∀ x, x ∈ C2 → x.1 ≠ f.1) → prev ∈ L.*1 → ptr h prev = first (C2 ++ [f]) 0 → (S (length C2) ≤ fuel)%nat →
  (∃ prev' p s, prev' ∈ L.*1 ∧ ptr h prev' = p ∧ (p, s) ∈ L ∧ n ≤ s ∧
    malloc_loop sbrk_fails fuel n prev (first (C2 ++ [f]) 0) h = Ok (carve n prev' p h)) ∨
  ((∀ x, x ∈ C2 ++ [f] → x.2 < n) ∧
    malloc_loop sbrk_fails fuel n prev (first (C2 ++ [f]) 0) h =
    ('(r, h1) ← morecore sbrk_fails n h;
     match r with
     | None => Ok (0, h1)
     | Some p1 => malloc_loop sbrk_fails (fuel - S (length C2)) n p1 (ptr h1 p1) h1
     end)).
Proof.
  intros Hok. revert C1 fuel prev. induction C2 as [|[p s] C2 IH]; intros C1 fuel prev Hr Hin Hf Hne Hprev Hptr Hfuel;
    cbn [app length] in *.
  - destruct f as [f s]. cbn [first fst] in *. destruct (ring_ptr h (C1 ++ [(f, s)]) C1 f s [] Hr eq_refl) as [_ Hs].
    assert ((f, s) ∈ L) as HfL by (apply Hin, elem_of_app; right; left).
    destruct fuel as [|fuel]; [lia|]. cbn [malloc_loop]. rewrite Hs. case_decide.
    + left. by exists prev, f, s.
    + right. split; [intros x ->%list_elem_of_singleton; cbn; lia|]. rewrite decide_True by done.
      by replace (S fuel - 1)%nat with fuel by lia.
  - cbn [first] in *. destruct (ring_ptr h _ C1 p s (C2 ++ [f]) Hr eq_refl) as [Hp Hs].
    assert ((p, s) ∈ L) as HpL by (apply Hin, elem_of_app; right; left).
    assert (first (C2 ++ [f]) (first (C1 ++ (p, s) :: C2 ++ [f]) 0) = first (C2 ++ [f]) 0) as Hfirst.
    { destruct C2 as [|[? ?] ?]; [by destruct f|done]. }
    rewrite Hfirst in Hp. destruct fuel as [|fuel]; [lia|]. cbn [malloc_loop]. rewrite Hs. case_decide.
    + left. by exists prev, p, s.
    + rewrite decide_False by (rewrite <-Hf; apply (Hne (p, s)); left). rewrite Hp.
      destruct (IH (C1 ++ [(p, s)]) fuel p) as [Hfit|[Hsm Heq]].
      * by rewrite <-app_assoc.
      * intros x. rewrite <-Hin, <-app_assoc. done.
      * done.
      * intros x Hx. apply Hne. by right.
      * apply list_elem_of_fmap. by exists (p, s).
      * done.
      * lia.
      * by left.
      * right. split; [intros x [->|Hx]%elem_of_cons; [cbn; lia|by apply Hsm]|]. exact Heq.
Qed.

(** One round from [freep]. *)
Lemma malloc_round h L A n fuel :
  heap_ok h L A → (length L ≤ fuel)%nat →
  (∃ prev' p s, prev' ∈ L.*1 ∧ ptr h prev' = p ∧ (p, s) ∈ L ∧ n ≤ s ∧
    malloc_loop sbrk_fails fuel n (h_freep h) (ptr h (h_freep h)) h = Ok (carve n prev' p h)) ∨
  ((∀ x, x ∈ L → x.2 < n) ∧
    malloc_loop sbrk_fails fuel n (h_freep h) (ptr h (h_freep h)) h =
    ('(r, h1) ← morecore sbrk_fails n h;
     match r with
     | None => Ok (0, h1)
     | Some p1 => malloc_loop sbrk_fails (fuel - length L) n p1 (ptr h1 p1) h1
     end)).
Proof.
  intros Hok Hfuel. pose proof Hok as [_ _ Hr _ Hfp _ _ _ _ _]. pose proof (heap_nodup _ _ _ Hok) as Hnd.
  pose proof Hfp as ([f s] & Hf & Hin)%list_elem_of_fmap. cbn in Hf.
  destruct (list_elem_of_split L _ Hin) as (La & Lb & HL).
  assert (ring (h_mem h) ((Lb ++ La) ++ [(f, s)])) as Hr'.
  { rewrite HL in Hr. rewrite <-app_assoc. apply (ring_rotate _ (La ++ [(f, s)])). by rewrite <-app_assoc. }
  assert (∀ x, x ∈ (Lb ++ La) ++ [(f, s)] ↔ x ∈ L) as Hel.
  { intros x. rewrite HL, !elem_of_app, !elem_of_cons, elem_of_nil. tauto. }
  assert (length L = S (length (Lb ++ La))) as Hlen by (rewrite HL, !length_app; cbn; lia).
  assert (ptr h f = first ((Lb ++ La) ++ [(f, s)]) 0) as Hp.
  { destruct (ring_ptr h _ (Lb ++ La) f s [] Hr' eq_refl) as [-> _]. done. }
  rewrite Hlen, Hf, Hp in *.
  destruct (malloc_scan h L A n (Lb ++ La) [] fuel f (f, s) Hok) as [Hfit|[Hsm Heq]]; try done.
  - intros x Hx Heq. rewrite HL, fmap_app in Hnd. cbn in Hnd, Heq. apply NoDup_app in Hnd as (_ & Hd & [Hn _]%NoDup_cons).
    apply elem_of_app in Hx as [Hx|Hx].
    + apply Hn. apply list_elem_of_fmap. by exists x.
    + apply (Hd x.1); [apply list_elem_of_fmap; by exists x|]. rewrite Heq. left.
  - by left.
  - right. split; [intros x Hx; by apply Hsm, Hel|exact Heq].
Qed.

(** [sbrk] never grows the process into the kernel: [allocuvm] refuses. *)
Hypothesis sbrk_kernbase : ∀ brk n, sbrk_fails brk n = false → brk + n < 2 ^ 31.

Lemma morecore_spec h L A n :
  heap_ok h L A → 1 ≤ n ≤ 2 ^ 27 →
  morecore sbrk_fails n h = Ok (None, h) ∨
  ∃ h' L' x, morecore sbrk_fails n h = Ok (Some (h_freep h'), h') ∧ heap_ok h' L' A ∧ x ∈ L' ∧ n ≤ x.2 ∧
    (length L' ≤ S (length L))%nat ∧ h_brk h ≤ h_brk h'.
Proof.
  intros Hok Hn. unfold morecore. set (nu := if decide (n < 4096) then 4096 else n).
  assert (n ≤ nu ≤ 2 ^ 27) as Hnu by (unfold nu; case_decide; lia). clearbody nu.
  unfold HDR. rewrite u32_small, i32_small by lia. unfold sbrk. destruct (sbrk_fails (h_brk h) (nu * 8)) eqn:Hsb.
  { left. by rewrite decide_True. }
  right. pose proof Hok as [Hb0 Hhead Hr Hso Hfp [Hbrk1 Hbrk2] Hend Hused Hap Hdj].
  rewrite decide_False by lia. pose proof (sbrk_kernbase _ _ Hsb) as Hk. fold HDR.
  set (p := h_brk h) in *. set (h1 := set_size p nu _).
  assert (∀ x, x ∈ L → x.1 ≠ p) as HLp.
  { intros x Hx. destruct (sizes_nonneg h L A x Hok Hx) as (? & ? & Hxb). specialize (Hend x Hx). destruct Hhead as (L0 & -> & Hsz).
    apply elem_of_cons in Hx as [->|Hx]; [cbn; lia|]. rewrite Forall_forall in Hsz. specialize (Hsz x Hx). cbn in Hsz.
    unfold block_end, HDR in Hend. lia. }
  assert (∀ x, x ∈ A → x.1 ≠ p ∧ block_end x ≤ p) as HAp.
  { intros x Hx. destruct (Hused x Hx) as (? & _ & _ & He). split; [|done]. unfold block_end, HDR in He. lia. }
  assert (h_brk h1 = p + nu * 8) as Hb1 by reflexivity.
  assert (heap_ok h1 L ({[(p, nu)]} ∪ A)) as Hok1.
  { split; try done.
    - unfold ring, h1, set_size. cbn. apply seg_frame; [|exact Hr]. intros (x & Heq & Hx)%list_elem_of_fmap. by apply (HLp x Hx).
    - rewrite Hb1. lia.
    - intros x Hx. rewrite Hb1. specialize (Hend x Hx). lia.
    - rewrite Hb1. intros x [->%elem_of_singleton|Hx]%elem_of_union.
      + unfold block_end, HDR. cbn [fst snd]. split_and!; [lia| |lia|lia].
        unfold bsize, h1, set_size. cbn. by rewrite lookup_total_insert_eq.
      + destruct (Hused x Hx) as (? & Hs & ? & He). destruct (HAp x Hx). split_and!; [done| |done|lia].
        unfold bsize, h1, set_size. cbn. rewrite lookup_total_insert_ne by done. exact Hs.
    - intros x y [->%elem_of_singleton|Hx]%elem_of_union Hy; [|by apply Hap]. right. by apply Hend.
    - intros x y [Hx%elem_of_singleton|Hx]%elem_of_union [Hy%elem_of_singleton|Hy]%elem_of_union Hne; subst.
      + done.
      + right. by apply HAp.
      + left. by apply HAp.
      + by apply Hdj. }
  destruct (free_spec h1 L _ p nu Hok1) as (h2 & L2 & Hfree & Hok2 & Hbrk' & _ & (x & Hx & Hxn) & Hlen); [set_solver|].
  rewrite Hfree, bind_ret. exists h2, L2, x. split; [done|].
  assert (({[(p, nu)]} ∪ A) ∖ {[(p, nu)]} = A) as HA.
  { apply set_eq. intros y. rewrite elem_of_difference, elem_of_union, elem_of_singleton. split; [naive_solver|].
    intros Hy. split; [by right|]. intros ->. by destruct (HAp _ Hy). }
  rewrite HA in Hok2. split_and!; [done|done|lia|done|]. rewrite Hbrk', Hb1. lia.
Qed.

(** The heap with the blocks [A] in use; before the first call there are none. *)
Definition heap_state h (A : gset (Z * Z)) : Prop :=
  (∃ L, heap_ok h L A) ∨ (h_freep h = 0 ∧ A = ∅ ∧ 0 < base < h_brk h ∧ h_brk h < 2 ^ 31).

Lemma malloc_init h :
  0 < base < h_brk h → h_brk h < 2 ^ 31 →
  heap_ok (set_size base 0 (set_ptr base base h) <| h_freep := base |>) [(base, 0)] ∅.
Proof.
  intros Hb Hbrk. split.
  - lia.
  - by exists [].
  - unfold ring, set_size, set_ptr. cbn. rewrite insert_insert_eq. unfold ptr. cbn.
    by rewrite lookup_total_insert_eq, lookup_insert_eq.
  - repeat constructor.
  - left.
  - split; [exact Hbrk|apply Hb].
  - intros x ->%list_elem_of_singleton. unfold block_end, HDR. change (base + 8 * 0 ≤ h_brk h). lia.
  - intros x Hx. by apply not_elem_of_empty in Hx.
  - intros x y Hx. by apply not_elem_of_empty in Hx.
  - intros x y Hx. by apply not_elem_of_empty in Hx.
Qed.

Lemma malloc_ok h L A n fuel :
  heap_ok h L A → 1 ≤ n ≤ 2 ^ 27 → (2 * length L + 1 ≤ fuel)%nat →
  ∃ r h', malloc_loop sbrk_fails fuel n (h_freep h) (ptr h (h_freep h)) h = Ok (r, h') ∧
    ((r = 0 ∧ h' = h ∧ ∀ x, x ∈ L → x.2 < n) ∨
     (∃ q L', r = q + HDR ∧ heap_ok h' L' ({[(q, n)]} ∪ A) ∧ (q, n) ∉ A)).
Proof.
  intros Hok Hn Hfuel.
  destruct (malloc_round h L A n fuel Hok) as [(prev & p & s & Hprev & Hp & Hin & Hs & Heq)|[Hsm Heq]]; [lia|..].
  { destruct (carve_spec h L A prev p s n Hok Hprev Hp Hin) as (h' & L' & q & Hc & Hok' & Hq & _); [lia|].
    rewrite Heq, Hc. exists (q + HDR), h'. split; [done|]. right. by exists q, L'. }
  rewrite Heq. destruct (morecore_spec h L A n Hok Hn) as [Hm|(h1 & L1 & x & Hm & Hok1 & Hx & Hxn & Hlen & _)]; rewrite Hm, bind_ret.
  { exists 0, h. split; [done|]. by left. }
  destruct (malloc_round h1 L1 A n (fuel - length L) Hok1) as [(prev & p & s & Hprev & Hp & Hin & Hs & Heq1)|[Hsm1 _]]; [lia|..].
  - destruct (carve_spec h1 L1 A prev p s n Hok1 Hprev Hp Hin) as (h' & L' & q & Hc & Hok' & Hq & _); [lia|].
    rewrite Heq1, Hc. exists (q + HDR), h'. split; [done|]. right. by exists q, L'.
  - specialize (Hsm1 x Hx). lia.
Qed.

End heap.


(** A request just below [2^32] wraps: the block has a header and nothing else. *)
Lemma malloc_wraps :
  let fails := λ brk n, bool_decide (2 ^ 31 ≤ brk + n) in
  ∃ r h, malloc 4096 fails (2 ^ 32 - 1) (mkheap ∅ 0 8192) = Ok (r, h) ∧ r ≠ 0 ∧ bsize h (r - HDR) = 1.
Proof. eexists _, _. split; [vm_compute; reflexivity|]. by vm_compute. Qed.
