(* ===== verification/Sh.v ===== *)
(** * The shell's parser: [sh.c]

    The command line is an array of bytes with a NUL at [es]; the parser works
    on positions in it, and a word of the result is the pair of its start and
    its end, as [argv]/[eargv] and [file]/[efile] are.  [nulterminate] then
    writes a NUL at every end.  [malloc] is taken to succeed, as the code does. *)

From S2P Require Import Prelude.
From S2P Require Import Bytes.
From S2P Require Import CString.

Local Open Scope Z_scope.

Definition MAXARGS : nat := 10.

(** A word in the line: its start and its end. *)
Definition word : Type := nat * nat.

(** Commands over words [W]: positions, or the strings they stand for. *)
Record redir_of (W : Type) := mkredir { rd_file : W; rd_mode : Z; rd_fd : Z }.
Arguments mkredir {W} _ _ _.
Arguments rd_file {W} _.
Arguments rd_mode {W} _.
Arguments rd_fd {W} _.

Inductive cmd_of (W : Type) :=
| EXEC (argv : list W)
| REDIR (c : cmd_of W) (r : redir_of W)
| PIPE (left right : cmd_of W)
| LIST (left right : cmd_of W)
| BACK (c : cmd_of W).
Arguments EXEC {W} _.
Arguments REDIR {W} _ _.
Arguments PIPE {W} _ _.
Arguments LIST {W} _ _.
Arguments BACK {W} _.

Notation redir := (redir_of word).
Notation cmd := (cmd_of word).

Definition whitespace : list Z := [32; 9; 13; 10; 11].
Definition symbols : list Z := [60; 124; 62; 38; 59; 40; 41].

(** [strchr(l, c)] for a character that is not NUL. *)
Definition mem_chr (l : list Z) (c : Z) : bool := bool_decide (c ∈ l).

Definition O_RDONLY : Z := 0.
Definition O_WRONLY_CREATE : Z := 513. (* 0x001 | 0x200 *)

Section parser.
Context (buf : list Z) (es : nat).

(** [while(s < es && strchr(whitespace, *s)) s++;], [n] being [es - s]. *)
Fixpoint skip_ws (n s : nat) : outcome nat :=
  match n with
  | O => Ok s
  | S n' => c ← aget buf (Z.of_nat s); if mem_chr whitespace c then skip_ws n' (S s) else Ok s
  end.

Fixpoint skip_word (n s : nat) : outcome nat :=
  match n with
  | O => Ok s
  | S n' =>
      c ← aget buf (Z.of_nat s);
      if negb (mem_chr whitespace c) && negb (mem_chr symbols c) then skip_word n' (S s) else Ok s
  end.

(** The token, its start and its end, and the new position. *)
Definition gettoken (s : nat) : outcome (Z * nat * nat * nat) :=
  s0 ← skip_ws (es - s) s;
  c ← aget buf (Z.of_nat s0);
  '(ret, e) ←
    (if decide (c = 0) then Ok (0, s0)
     else if decide (c ∈ [124; 40; 41; 59; 38; 60]) then Ok (c, S s0)
     else if decide (c = 62) then
       d ← aget buf (Z.of_nat (S s0));
       if decide (d = 62) then Ok (43, S (S s0)) else Ok (c, S s0)
     else e ← skip_word (es - s0) s0; Ok (97, e));
  s1 ← skip_ws (es - e) e;
  Ok (ret, s0, e, s1).

Definition peek (s : nat) (toks : list Z) : outcome (bool * nat) :=
  s0 ← skip_ws (es - s) s;
  c ← aget buf (Z.of_nat s0);
  Ok (bool_decide (c ≠ 0) && mem_chr toks c, s0).

(** The redirections read, in order; [cmd] is wrapped in them one by one. *)
Fixpoint parseredirs (fuel : nat) (s : nat) : outcome (list redir * nat) :=
  '(b, s) ← peek s [60; 62];
  if b : bool then
    match fuel with
    | O => Fault "fuel"
    | S fuel' =>
        '(tok, _, _, s) ← gettoken s;
        '(t2, q, eq, s) ← gettoken s;
        if decide (t2 ≠ 97) then Panic "missing file for redirection"
        else
          let r := if decide (tok = 60) then [mkredir (q, eq) O_RDONLY 0]
                   else if decide (tok = 62 ∨ tok = 43) then [mkredir (q, eq) O_WRONLY_CREATE 1] else [] in
          '(rs, s) ← parseredirs fuel' s;
          Ok (r ++ rs, s)
    end
  else Ok ([], s).

Definition wrap {W} (c : cmd_of W) (rs : list (redir_of W)) : cmd_of W := foldl REDIR c rs.

(** The argument loop of [parseexec]: [argv] so far and the redirections. *)
Fixpoint parseargs (fuel : nat) (s : nat) (argv : list word) (rs : list redir) : outcome (list word * list redir * nat) :=
  '(b, s) ← peek s [124; 41; 38; 59];
  if b : bool then Ok (argv, rs, s)
  else
    '(tok, q, eq, s) ← gettoken s;
    if decide (tok = 0) then Ok (argv, rs, s)
    else if decide (tok ≠ 97) then Panic "syntax"
    else
      let argv := argv ++ [(q, eq)] in
      if decide (MAXARGS ≤ length argv)%nat then Panic "too many args"
      else
        match fuel with
        | O => Fault "fuel"
        | S fuel' =>
            '(rs', s) ← parseredirs (length buf) s;
            parseargs fuel' s argv (rs ++ rs')
        end.

(** [while(peek(ps, es, "&"))] of [parseline]. *)
Fixpoint parseback (fuel : nat) (c : cmd) (s : nat) : outcome (cmd * nat) :=
  '(b, s) ← peek s [38];
  if b : bool then
    match fuel with
    | O => Fault "fuel"
    | S fuel' => '(_, _, _, s) ← gettoken s; parseback fuel' (BACK c) s
    end
  else Ok (c, s).

Fixpoint parseline (fuel : nat) (s : nat) : outcome (cmd * nat) :=
  match fuel with
  | O => Fault "fuel"
  | S fuel' =>
      '(c, s) ← parsepipe fuel' s;
      '(c, s) ← parseback (length buf) c s;
      '(b, s) ← peek s [59];
      if b : bool then
        '(_, _, _, s) ← gettoken s;
        '(r, s) ← parseline fuel' s;
        Ok (LIST c r, s)
      else Ok (c, s)
  end
with parsepipe (fuel : nat) (s : nat) : outcome (cmd * nat) :=
  match fuel with
  | O => Fault "fuel"
  | S fuel' =>
      '(c, s) ← parseexec fuel' s;
      '(b, s) ← peek s [124];
      if b : bool then
        '(_, _, _, s) ← gettoken s;
        '(r, s) ← parsepipe fuel' s;
        Ok (PIPE c r, s)
      else Ok (c, s)
  end
with parseexec (fuel : nat) (s : nat) : outcome (cmd * nat) :=
  match fuel with
  | O => Fault "fuel"
  | S fuel' =>
      '(b, s) ← peek s [40];
      if b : bool then parseblock fuel' s
      else
        '(rs, s) ← parseredirs (length buf) s;
        '(argv, rs, s) ← parseargs (length buf) s [] rs;
        Ok (wrap (EXEC argv) rs, s)
  end
with parseblock (fuel : nat) (s : nat) : outcome (cmd * nat) :=
  match fuel with
  | O => Fault "fuel"
  | S fuel' =>
      '(b, s) ← peek s [40];
      if negb b then Panic "parseblock"
      else
        '(_, _, _, s) ← gettoken s;
        '(c, s) ← parseline fuel' s;
        '(b, s) ← peek s [41];
        if negb b then Panic "syntax - missing )"
        else
          '(_, _, _, s) ← gettoken s;
          '(rs, s) ← parseredirs (length buf) s;
          Ok (wrap c rs, s)
  end.

(** Unfolding equations. *)
Lemma parseline_S fuel' s :
  parseline (S fuel') s =
   ('(c, s) ← parsepipe fuel' s;
    '(c, s) ← parseback (length buf) c s;
    '(b, s) ← peek s [59];
    if b : bool then
      '(_, _, _, s) ← gettoken s;
      '(r, s) ← parseline fuel' s;
      Ok (LIST c r, s)
    else Ok (c, s)).
Proof. reflexivity. Qed.
Lemma parsepipe_S fuel' s :
  parsepipe (S fuel') s =
   ('(c, s) ← parseexec fuel' s;
    '(b, s) ← peek s [124];
    if b : bool then
      '(_, _, _, s) ← gettoken s;
      '(r, s) ← parsepipe fuel' s;
      Ok (PIPE c r, s)
    else Ok (c, s)).
Proof. reflexivity. Qed.
Lemma parseexec_S fuel' s :
  parseexec (S fuel') s =
   ('(b, s) ← peek s [40];
    if b : bool then parseblock fuel' s
    else
      '(rs, s) ← parseredirs (length buf) s;
      '(argv, rs, s) ← parseargs (length buf) s [] rs;
      Ok (wrap (EXEC argv) rs, s)).
Proof. reflexivity. Qed.
Lemma parseblock_S fuel' s :
  parseblock (S fuel') s =
   ('(b, s) ← peek s [40];
    if negb b then Panic "parseblock"
    else
      '(_, _, _, s) ← gettoken s;
      '(c, s) ← parseline fuel' s;
      '(b, s) ← peek s [41];
      if negb b then Panic "syntax - missing )"
      else
        '(_, _, _, s) ← gettoken s;
        '(rs, s) ← parseredirs (length buf) s;
        Ok (wrap c rs, s)).
Proof. reflexivity. Qed.
End parser.

Definition put_nul (e : nat) (buf : list Z) : outcome (list Z) := aset buf (Z.of_nat e) 0.

Fixpoint put_nuls (ws : list word) (buf : list Z) : outcome (list Z) :=
  match ws with
  | [] => Ok buf
  | (_, e) :: ws' => buf' ← put_nul e buf; put_nuls ws' buf'
  end.

Fixpoint nulterminate (c : cmd) (buf : list Z) : outcome (list Z) :=
  match c with
  | EXEC argv => put_nuls argv buf
  | REDIR c r => buf' ← nulterminate c buf; put_nul (rd_file r).2 buf'
  | PIPE l r | LIST l r => buf' ← nulterminate l buf; nulterminate r buf'
  | BACK c => nulterminate c buf
  end.

(** Four calls and at most one level of nesting per byte. *)
Definition parsecmd (buf : list Z) : outcome (cmd * list Z) :=
  n ← strlen buf;
  let es := Z.to_nat n in
  '(c, s) ← parseline buf es (4 * length buf) 0;
  '(_, s) ← peek buf es s [];
  if decide (s ≠ es) then Panic "syntax"
  else buf' ← nulterminate c buf; Ok (c, buf').

(** ** Commands as text *)

(** A token of the printed form: a word or a symbol. *)
Inductive tok := TW (w : list Z) | TC (c : Z).
Definition ttext (t : tok) : list Z := match t with TW w => w | TC c => [c] end.

(** Tokens, separated by one space, with a newline at the end. *)
Definition gap (ts : list tok) : list Z := match ts with [] => [10] | _ => [32] end.
Fixpoint body (ts : list tok) : list Z :=
  match ts with [] => [] | t :: ts' => ttext t ++ gap ts' ++ body ts' end.

Definition wordchar (c : Z) : Prop := c ≠ 0 ∧ c ∉ whitespace ∧ c ∉ symbols.
Definition good_word (w : list Z) : Prop := w ≠ [] ∧ Forall wordchar w.
Definition good_tok (t : tok) : Prop := match t with TW w => good_word w | TC c => c ∈ symbols end.

Definition redir_toks (r : redir_of (list Z)) : list tok := [TC (if decide (rd_fd r = 0) then 60 else 62); TW (rd_file r)].

(** The level of the grammar a command belongs to, and its tokens: commands of
    a higher level are put in parentheses. *)
Definition paren (lvl : nat) (lt : nat * list tok) : list tok :=
  if decide (lt.1 ≤ lvl)%nat then lt.2 else TC 40 :: lt.2 ++ [TC 41].
Fixpoint tokens (c : cmd_of (list Z)) : nat * list tok :=
  match c with
  | EXEC argv => (0%nat, TW <$> argv)
  | REDIR c r => (0%nat, paren 0 (tokens c) ++ redir_toks r)
  | PIPE l r => (1%nat, paren 0 (tokens l) ++ TC 124 :: paren 1 (tokens r))
  | BACK c => (2%nat, paren 2 (tokens c) ++ [TC 38])
  | LIST l r => (3%nat, paren 2 (tokens l) ++ TC 59 :: paren 3 (tokens r))
  end.
Definition print (c : cmd_of (list Z)) : list Z :=
  match (tokens c).2 with [] => [10] | ts => body ts end.

Definition good_redir (r : redir_of (list Z)) : Prop :=
  good_word (rd_file r) ∧ (rd_mode r, rd_fd r) ∈ [(O_RDONLY, 0); (O_WRONLY_CREATE, 1)].
Fixpoint good_cmd (c : cmd_of (list Z)) : Prop :=
  match c with
  | EXEC argv => Forall good_word argv ∧ (length argv < MAXARGS)%nat
  | REDIR c r => good_cmd c ∧ good_redir r
  | PIPE l r | LIST l r => good_cmd l ∧ good_cmd r
  | BACK c => good_cmd c
  end.

(** A command over positions stands for one over strings. *)
Section rel.
Context {V W : Type} (R : V → W → Prop).
Definition redir_rel (r : redir_of V) (r' : redir_of W) : Prop :=
  R (rd_file r) (rd_file r') ∧ rd_mode r = rd_mode r' ∧ rd_fd r = rd_fd r'.
Fixpoint cmd_rel (c : cmd_of V) (c' : cmd_of W) : Prop :=
  match c, c' with
  | EXEC a, EXEC a' => Forall2 R a a'
  | REDIR c r, REDIR c' r' => cmd_rel c c' ∧ redir_rel r r'
  | PIPE l r, PIPE l' r' | LIST l r, LIST l' r' => cmd_rel l l' ∧ cmd_rel r r'
  | BACK c, BACK c' => cmd_rel c c'
  | _, _ => False
  end.

Lemma wrap_rel c c' rs rs' : cmd_rel c c' → Forall2 redir_rel rs rs' → cmd_rel (wrap c rs) (wrap c' rs').
Proof.
  intros Hc Hrs. revert c c' Hc. induction Hrs as [|r r' rs rs' Hr Hrs IH]; intros c c' Hc; [done|].
  cbn. apply IH. by split.
Qed.
End rel.

(** ** The tokens of a line *)

Section lex.
Context (buf : list Z) (es : nat).

(** At [pos], after white space, the tokens [ts] follow up to [es]. *)
Definition lexes (pos : nat) (ts : list tok) : Prop :=
  Forall good_tok ts ∧
  ∃ pre ws junk, buf = pre ++ ws ++ body ts ++ 0 :: junk ∧ pos = length pre ∧ es = (pos + length ws + length (body ts))%nat ∧
    Forall (λ c, c ∈ whitespace) ws.

(** A word of the line: word characters up to a delimiter. *)
Definition word_at (p : word) (w : list Z) : Prop :=
  good_word w ∧ p.2 = (p.1 + length w)%nat ∧ slice p.1 (length w) buf = w ∧ ∃ d, buf !! p.2 = Some d ∧ ¬ wordchar d.

Lemma skip_ws_spec pre ws rest n :
  buf = pre ++ ws ++ rest → Forall (λ c, c ∈ whitespace) ws → (length ws ≤ n)%nat →
  ((length ws < n)%nat → ∃ c, head rest = Some c ∧ c ∉ whitespace) →
  skip_ws buf n (length pre) = Ok (length (pre ++ ws)).
Proof.
  intros Hb Hws. revert pre n Hb. induction Hws as [|x ws Hx Hws IH]; intros pre n Hb Hn Hrest; cbn [length app] in *.
  - rewrite app_nil_r. destruct n as [|n]; [done|]. cbn [skip_ws]. destruct (Hrest ltac:(lia)) as (c & Hc & Hnc).
    destruct rest as [|c' rest]; [done|]. injection Hc as ->.
    rewrite (aget_nat _ _ c) by (rewrite Hb; apply list_lookup_middle; lia). rewrite bind_ret. unfold mem_chr.
    by rewrite bool_decide_false.
  - destruct n as [|n]; [lia|]. cbn [skip_ws]. rewrite (aget_nat _ _ x) by (rewrite Hb; apply list_lookup_middle; lia).
    rewrite bind_ret. unfold mem_chr. rewrite bool_decide_true by done.
    replace (S (length pre)) with (length (pre ++ [x])) by (rewrite length_app; cbn; lia).
    rewrite (IH (pre ++ [x]) n); [by rewrite <-app_assoc|by rewrite <-app_assoc|lia|intros ?; apply Hrest; lia].
Qed.

Lemma skip_word_spec pre w rest n :
  buf = pre ++ w ++ rest → Forall wordchar w → (length w ≤ n)%nat →
  ((length w < n)%nat → ∃ c, head rest = Some c ∧ ¬ wordchar c ∧ c ≠ 0) →
  skip_word buf n (length pre) = Ok (length (pre ++ w)).
Proof.
  intros Hb Hw. revert pre n Hb. induction Hw as [|x w Hx Hw IH]; intros pre n Hb Hn Hrest; cbn [length app] in *.
  - rewrite app_nil_r. destruct n as [|n]; [done|]. cbn [skip_word]. destruct (Hrest ltac:(lia)) as (c & Hc & Hnc & Hc0).
    destruct rest as [|c' rest]; [done|]. injection Hc as ->.
    rewrite (aget_nat _ _ c) by (rewrite Hb; apply list_lookup_middle; lia). rewrite bind_ret. unfold mem_chr.
    destruct (decide (c ∈ whitespace)); [by rewrite bool_decide_true|]. rewrite bool_decide_false by done.
    rewrite bool_decide_true; [done|]. destruct (decide (c ∈ symbols)); [done|]. by destruct Hnc.
  - destruct n as [|n]; [lia|]. cbn [skip_word]. rewrite (aget_nat _ _ x) by (rewrite Hb; apply list_lookup_middle; lia).
    rewrite bind_ret. unfold mem_chr. destruct Hx as (_ & Hx1 & Hx2). rewrite !bool_decide_false by done. cbn [negb andb].
    replace (S (length pre)) with (length (pre ++ [x])) by (rewrite length_app; cbn; lia).
    rewrite (IH (pre ++ [x]) n); [by rewrite <-app_assoc|by rewrite <-app_assoc|lia|intros ?; apply Hrest; lia].
Qed.

(** The same at the start of the first token. *)
Definition lexed (pos : nat) (ts : list tok) : Prop :=
  Forall good_tok ts ∧ ∃ pre junk, buf = pre ++ body ts ++ 0 :: junk ∧ pos = length pre ∧ es = (pos + length (body ts))%nat.

Lemma lexed_lexes pos ts : lexed pos ts → lexes pos ts.
Proof. intros (Hg & pre & junk & Hb & Hp & He). split; [done|]. exists pre, [], junk. split_and!; [done|done|cbn; lia|constructor]. Qed.

Lemma symbol_char c : c ∈ symbols → c ≠ 0 ∧ c ∉ whitespace.
Proof.
  intros Hc. assert (Forall (λ c, c ≠ 0 ∧ c ∉ whitespace) symbols) as Hall by (apply (bool_decide_eq_true_1 _); by vm_compute).
  rewrite Forall_forall in Hall. by apply Hall.
Qed.

Lemma tok_head t : good_tok t → ∃ c r, ttext t = c :: r ∧ c ≠ 0 ∧ c ∉ whitespace.
Proof.
  destruct t as [[|c w]|c]; cbn.
  - by intros [? _].
  - intros [_ [(H0 & H1 & _) _]%Forall_cons]. by exists c, w.
  - intros Hc%symbol_char. by exists c, [].
Qed.

Lemma skip_lexes pos ts : lexes pos ts → ∃ pos', skip_ws buf (es - pos) pos = Ok pos' ∧ lexed pos' ts.
Proof.
  intros (Hg & pre & ws & junk & Hb & -> & He & Hws). exists (length (pre ++ ws)).
  split; [|split; [done|]; exists (pre ++ ws), junk; split_and!; [by rewrite <-app_assoc|done|rewrite length_app; lia]].
  apply (skip_ws_spec pre ws (body ts ++ 0 :: junk)); [done|done|lia|].
  intros Hlt. destruct ts as [|t ts]; [cbn in *; lia|]. apply Forall_cons in Hg as [Ht _].
  destruct (tok_head t Ht) as (c & r & Htx & _ & Hnc). exists c. cbn [body]. by rewrite Htx.
Qed.

Definition first_in (toks : list Z) (ts : list tok) : bool :=
  match ts with [] => false | t :: _ => match ttext t with [] => false | c :: _ => mem_chr toks c end end.

Lemma peek_spec pos ts toks :
  lexes pos ts → ∃ pos', peek buf es pos toks = Ok (first_in toks ts, pos') ∧ lexed pos' ts.
Proof.
  intros Hl. destruct (skip_lexes pos ts Hl) as (p & Hs & Hlx). exists p. split; [|done].
  unfold peek. rewrite Hs, bind_ret. destruct Hlx as (Hg & pre & junk & Hb & -> & He).
  destruct ts as [|t ts]; cbn [body app] in Hb.
  - rewrite (aget_nat _ _ 0) by (rewrite Hb; apply list_lookup_middle; lia). rewrite bind_ret. done.
  - apply Forall_cons in Hg as [Ht _]. destruct (tok_head t Ht) as (c & r & Htx & Hc & _). rewrite Htx in Hb. cbn [app] in Hb.
    rewrite (aget_nat _ _ c) by (rewrite Hb; apply list_lookup_middle; lia). rewrite bind_ret.
    rewrite bool_decide_true by done. cbn [first_in]. by rewrite Htx.
Qed.

Definition kind (t : tok) : Z := match t with TW _ => 97 | TC c => c end.

Lemma gap_delim ts junk : ∃ d r, gap ts ++ body ts ++ 0 :: junk = d :: r ∧ d ≠ 62 ∧ ¬ wordchar d ∧ d ≠ 0.
Proof.
  destruct ts as [|t ts]; cbn [gap body app].
  - eexists 10, _. split_and!; [done|done| |done]. intros (_ & Hw & _). apply Hw. do 3 right. left.
  - eexists 32, _. split_and!; [done|done| |done]. intros (_ & Hw & _). apply Hw. left.
Qed.

Lemma lexes_next pre t ts junk :
  Forall good_tok ts → buf = pre ++ ttext t ++ gap ts ++ body ts ++ 0 :: junk →
  es = (length pre + length (ttext t ++ gap ts ++ body ts))%nat → lexes (length (pre ++ ttext t)) ts.
Proof.
  intros Hg Hb He. split; [done|]. exists (pre ++ ttext t), (gap ts), junk. split_and!; [by rewrite <-app_assoc|done| |].
  - rewrite He, !length_app. lia.
  - destruct ts; cbn; repeat constructor; apply (bool_decide_eq_true_1 _); by vm_compute.
Qed.

Lemma gettoken_spec pos t ts :
  lexes pos (t :: ts) →
  ∃ q e pos', gettoken buf es pos = Ok (kind t, q, e, pos') ∧ lexed pos' ts ∧
    (match t with TW w => word_at (q, e) w | TC _ => True end).
Proof.
  intros Hl. destruct (skip_lexes _ _ Hl) as (p & Hs & ([Ht Hg]%Forall_cons & pre & junk & Hb & -> & He)).
  cbn [body] in Hb, He. rewrite <-!app_assoc in Hb.
  pose proof (lexes_next pre t ts junk Hg Hb He) as Hnext. destruct (skip_lexes _ _ Hnext) as (p' & Hs' & Hlx').
  exists (length pre), (length (pre ++ ttext t)), p'. split; [|split; [done|]].
  - unfold gettoken. rewrite Hs, bind_ret. destruct (tok_head t Ht) as (c & r & Htx & Hc & Hcw).
    pose proof Hb as Hb'. rewrite Htx in Hb'. cbn [app] in Hb'.
    rewrite (aget_nat _ (length pre) c) by (rewrite Hb'; apply list_lookup_middle; lia). rewrite bind_ret, decide_False by done.
    destruct t as [w|c']; cbn [ttext kind] in *.
    + destruct Ht as [_ Hw]. assert (wordchar c) as (_ & _ & Hsym) by (rewrite Htx in Hw; by apply Forall_cons in Hw as [? _]).
      rewrite decide_False by (intros Hin; apply Hsym; revert Hin; unfold symbols; rewrite !elem_of_cons, !elem_of_nil; tauto).
      rewrite decide_False by (intros ->; apply Hsym; right; right; left).
      destruct (gap_delim ts junk) as (d & r' & Hd & _ & Hdw & Hd0).
      rewrite (skip_word_spec pre w (gap ts ++ body ts ++ 0 :: junk)); [|done|done|rewrite He, !length_app; lia|].
      * rewrite bind_ret, bind_ret, Hs', bind_ret. done.
      * intros _. exists d. by rewrite Hd.
    + injection Htx as <- <-. rewrite length_app in Hs'. cbn [length] in Hs'. rewrite Nat.add_1_r in Hs'.
      assert (c' ∈ [124; 40; 41; 59; 38; 60] ∨ c' = 62) as [Hin| ->].
      { cbn in Ht. unfold symbols in Ht. revert Ht. rewrite !elem_of_cons, !elem_of_nil. tauto. }
      * rewrite decide_True by done. rewrite bind_ret, Hs', bind_ret. by rewrite length_app, Nat.add_1_r.
      * rewrite decide_False by (apply (bool_decide_eq_false_1 _); by vm_compute). rewrite decide_True by done.
        destruct (gap_delim ts junk) as (d & r' & Hd & Hd62 & _).
        rewrite (aget_nat _ _ d); [|rewrite Hb, Hd, (app_assoc pre); apply list_lookup_middle; rewrite length_app; cbn; lia].
        rewrite bind_ret, decide_False by done. rewrite bind_ret, Hs', bind_ret. by rewrite length_app, Nat.add_1_r.
  - destruct t as [w|]; [|done]. cbn [ttext] in *. split_and!; [done|by rewrite length_app| |].
    + cbn [fst]. unfold slice. by rewrite Hb, drop_app_length, take_app_length.
    + destruct (gap_delim ts junk) as (d & r' & Hd & _ & Hdw & _). exists d. split; [|done]. cbn [snd].
      rewrite Hb, Hd, app_assoc. apply list_lookup_middle. done.
Qed.

Lemma gettoken_end pos : lexes pos [] → gettoken buf es pos = Ok (0, es, es, es).
Proof.
  intros Hl. destruct (skip_lexes _ _ Hl) as (p & Hs & (_ & pre & junk & Hb & -> & He)). cbn in Hb, He.
  assert (es = length pre) as Hes by lia. unfold gettoken. rewrite Hs, bind_ret.
  rewrite (aget_nat _ (length pre) 0) by (rewrite Hb; apply list_lookup_middle; lia). rewrite bind_ret, decide_True by done.
  rewrite bind_ret. rewrite Hes, Nat.sub_diag. done.
Qed.
End lex.

(** ** Parsing the printed form *)

Section parse.
Context (buf : list Z) (es : nat).
Notation lexes := (lexes buf es).
Notation lexed := (lexed buf es).
Notation crel := (cmd_rel (word_at buf)).
Notation rrel := (redir_rel (word_at buf)).

Definition rtoks (rs : list (redir_of (list Z))) : list tok := concat (redir_toks <$> rs).

Lemma body_length ts : Forall good_tok ts → (length ts ≤ length (body ts))%nat.
Proof.
  induction 1 as [|t ts Ht Hts IH]; [done|]. cbn [body length]. destruct (tok_head t Ht) as (c & r & -> & _).
  rewrite !length_app. cbn. lia.
Qed.

Lemma lexes_length pos ts : lexes pos ts → (length ts < length buf)%nat.
Proof.
  intros (Hg & pre & ws & junk & -> & _). pose proof (body_length ts Hg). rewrite !length_app. cbn. lia.
Qed.

Lemma lexes_good pos ts : lexes pos ts → Forall good_tok ts.
Proof. by intros [? _]. Qed.

Lemma first_in_word toks w ts : Forall (λ c, c ∈ symbols) toks → good_word w → first_in toks (TW w :: ts) = false.
Proof.
  intros Ht [Hne Hw]. destruct w as [|c w]; [done|]. apply Forall_cons in Hw as [(_ & _ & Hc) _]. cbn.
  apply bool_decide_false. intros Hin. rewrite Forall_forall in Ht. by apply Hc, Ht.
Qed.

Lemma first_in_chr toks c ts : first_in toks (TC c :: ts) = bool_decide (c ∈ toks).
Proof. done. Qed.

(** What may follow a command of each level. *)
Definition stops (toks : list Z) (ts : list tok) : Prop := ts = [] ∨ first_in toks ts = true.

Lemma stops_sub S S' ts : Forall (λ c, c ∈ S') S → stops S ts → stops S' ts.
Proof.
  intros Hsub [->|Hf]; [by left|right]. destruct ts as [|t ts]; [done|]. cbn in *. destruct (ttext t) as [|c r]; [done|].
  unfold mem_chr in *. apply bool_decide_eq_true in Hf. apply bool_decide_eq_true. rewrite Forall_forall in Hsub. by apply Hsub.
Qed.

Lemma stops_not S T ts : Forall (λ c, c ∉ T) S → stops S ts → first_in T ts = false.
Proof.
  intros Hsub [->|Hf]; [done|]. destruct ts as [|t ts]; [done|]. cbn in *. destruct (ttext t) as [|c r]; [done|].
  unfold mem_chr in *. apply bool_decide_eq_true in Hf. apply bool_decide_eq_false. rewrite Forall_forall in Hsub. by apply Hsub.
Qed.

Ltac chars := apply (bool_decide_eq_true_1 _); by vm_compute.

Lemma parseredirs_spec rs fuel pos ts :
  lexes pos (rtoks rs ++ ts) → Forall good_redir rs → first_in [60; 62] ts = false → (length rs ≤ fuel)%nat →
  ∃ rs' pos', parseredirs buf es fuel pos = Ok (rs', pos') ∧ lexed pos' ts ∧ Forall2 rrel rs' rs.
Proof.
  intros Hl Hg Hts. revert fuel pos Hl. induction Hg as [|r rs [Hw Hr] Hg IH]; intros fuel pos Hl Hfuel; cbn [length] in *.
  - cbn in Hl. destruct (peek_spec buf es pos ts [60; 62] Hl) as (p & Hp & Hlx).
    exists [], p. destruct fuel; cbn [parseredirs]; rewrite Hp, bind_ret, Hts; by split_and!.
  - unfold rtoks in Hl. cbn [fmap list_fmap concat redir_toks app] in Hl. fold (rtoks rs) in Hl.
    set (c := if decide (rd_fd r = 0) then 60 else 62) in *.
    destruct (peek_spec buf es pos _ [60; 62] Hl) as (p & Hp & Hlx). destruct fuel as [|fuel]; [lia|]. cbn [parseredirs].
    rewrite Hp, bind_ret. rewrite first_in_chr, bool_decide_true.
    2: { unfold c. case_decide; [left|right; left]. }
    apply lexed_lexes in Hlx. destruct (gettoken_spec buf es p _ _ Hlx) as (q1 & e1 & p1 & Hg1 & Hl1 & _). rewrite Hg1, bind_ret.
    apply lexed_lexes in Hl1. destruct (gettoken_spec buf es p1 _ _ Hl1) as (q2 & e2 & p2 & Hg2 & Hl2 & Hwd). rewrite Hg2, bind_ret.
    cbn [kind]. rewrite decide_False by (intros Hne; by apply Hne).
    apply lexed_lexes in Hl2. destruct (IH fuel p2 Hl2) as (rs' & p3 & -> & Hl3 & Hrel); [lia|]. rewrite bind_ret.
    eexists _, _. split; [done|]. split; [done|]. apply elem_of_cons in Hr as [[= Hm Hf]|[= Hm Hf]%list_elem_of_singleton].
    + unfold c. rewrite (decide_True (P := rd_fd r = 0)) by done. rewrite decide_True by done. cbn. constructor; [|done]. by split_and!.
    + unfold c. rewrite (decide_False (P := rd_fd r = 0)) by lia. rewrite decide_False by lia. rewrite decide_True by lia. cbn.
      constructor; [|done]. by split_and!.
Qed.

Definition S0 : list Z := [124; 41; 38; 59].
Definition S1 : list Z := [41; 38; 59].
Definition S2 : list Z := [41; 59].
Definition S3 : list Z := [41].

Lemma parseargs_spec ws rs fuel pos ts argv0 rs0 :
  lexes pos ((TW <$> ws) ++ match ws with [] => [] | _ => rtoks rs end ++ ts) → Forall good_word ws → Forall good_redir rs →
  stops S0 ts → (length argv0 + length ws < MAXARGS)%nat → (length ws ≤ fuel)%nat →
  ∃ argv' rs' pos', parseargs buf es fuel pos argv0 rs0 = Ok (argv0 ++ argv', rs0 ++ rs', pos') ∧ lexes pos' ts ∧
    Forall2 (word_at buf) argv' ws ∧ Forall2 rrel rs' match ws with [] => [] | _ => rs end.
Proof.
  intros Hl Hws Hrs Hts. revert fuel pos argv0 rs0 Hl. induction Hws as [|w ws Hw Hws IH]; intros fuel pos argv0 rs0 Hl Hmax Hfuel; cbn [length] in *.
  - cbn in Hl. destruct (peek_spec buf es pos ts S0 Hl) as (p & Hp & Hlx). apply lexed_lexes in Hlx.
    unfold S0 in Hp. destruct Hts as [->|Hf].
    + exists [], [], es. pose proof (gettoken_end buf es p Hlx) as Hge. rewrite !app_nil_r.
      split_and!; [destruct fuel; cbn [parseargs]; rewrite Hp, bind_ret; cbn [first_in]; rewrite Hge, bind_ret, decide_True by done; done| |constructor|constructor].
      destruct Hlx as (_ & pre & ws & junk & Hb & -> & He & Hws'). split; [constructor|].
      exists (pre ++ ws), [], junk. cbn in Hb, He. rewrite <-app_assoc. cbn. split_and!; [done|rewrite length_app; lia|lia|constructor].
    + exists [], [], p. rewrite !app_nil_r. unfold S0 in Hf. rewrite Hf in Hp.
      split_and!; [destruct fuel; cbn [parseargs]; by rewrite Hp, bind_ret|done|constructor|constructor].
  - cbn [fmap list_fmap app] in Hl.
    destruct fuel as [|fuel]; [lia|]. cbn [parseargs].
    destruct (peek_spec buf es pos _ S0 Hl) as (p & Hp & Hlx). rewrite first_in_word in Hp; [|chars|done].
    unfold S0 in Hp. rewrite Hp, bind_ret. apply lexed_lexes in Hlx.
    destruct (gettoken_spec buf es p _ _ Hlx) as (q & e & p1 & Hg & Hl1 & Hwd). rewrite Hg, bind_ret. cbn [kind].
    rewrite (decide_False (P := 97 = 0)) by done. rewrite (decide_False (P := 97 ≠ 97)) by (intros Hne; by apply Hne).
    rewrite decide_False by (rewrite length_app; cbn; lia).
    assert (∃ rs1 p2, parseredirs buf es (length buf) p1 = Ok (rs1, p2) ∧
      lexes p2 ((TW <$> ws) ++ match ws with [] => [] | _ => rtoks rs end ++ ts) ∧
      Forall2 rrel rs1 match ws with [] => rs | _ => [] end) as (rs1 & p2 & -> & Hl2 & Hr1).
    { pose proof (lexes_length _ _ Hlx) as Hlen. cbn [length] in Hlen. apply lexed_lexes in Hl1. destruct ws as [|w2 ws].
      - cbn [fmap list_fmap app] in *.
        destruct (parseredirs_spec rs (length buf) p1 ts Hl1 Hrs) as (rs1 & p2 & ? & ? & ?).
        + apply (stops_not S0); [chars|done].
        + rewrite length_app in Hlen. assert (length rs ≤ length (rtoks rs))%nat; [|lia]. clear. unfold rtoks.
          induction rs as [|r rs IHr]; cbn; lia.
        + exists rs1, p2. split_and!; [done|by apply lexed_lexes|done].
      - cbn [fmap list_fmap app] in *.
        destruct (parseredirs_spec [] (length buf) p1 _ Hl1) as (rs1 & p2 & ? & ? & ?); [constructor| |cbn; lia|].
        + apply Forall_cons in Hws as [Hw2 _]. apply first_in_word; [chars|done].
        + exists rs1, p2. split_and!; [done|by apply lexed_lexes|done]. }
    rewrite bind_ret. destruct (IH fuel p2 (argv0 ++ [(q, e)]) (rs0 ++ rs1) Hl2) as (argv' & rs' & p3 & -> & Hl3 & Ha & Hr); [rewrite length_app; cbn; lia|lia|].
    exists ((q, e) :: argv'), (rs1 ++ rs'), p3. rewrite <-!app_assoc. split_and!; [done|done|by constructor|].
    destruct ws as [|w2 ws].
    + apply Forall2_nil_inv_r in Hr as ->. by rewrite app_nil_r.
    + apply Forall2_nil_inv_r in Hr1 as ->. done.
Qed.

Notation acmd := (cmd_of (list Z)).
Definition level (c : acmd) : nat := (tokens c).1.

Lemma level_max c : (level c ≤ 3)%nat.
Proof. destruct c; cbn; lia. Qed.

(** The printed form of [c], with redirections, parses at each level. *)
Definition P_exec (c : acmd) : Prop := ∀ rs fuel pos ts,
  lexes pos (paren 0 (tokens c) ++ rtoks rs ++ ts) → Forall good_redir rs → stops S0 ts →
  (4 * length (paren 0 (tokens c) ++ rtoks rs) + 2 ≤ fuel)%nat →
  ∃ c' pos', parseexec buf es fuel pos = Ok (c', pos') ∧ lexes pos' ts ∧ crel c' (wrap c rs).
Definition P_pipe (c : acmd) : Prop := ∀ fuel pos ts,
  lexes pos (paren 1 (tokens c) ++ ts) → stops S1 ts → (4 * length (paren 1 (tokens c)) + 3 ≤ fuel)%nat →
  ∃ c' pos', parsepipe buf es fuel pos = Ok (c', pos') ∧ lexes pos' ts ∧ crel c' c.
Definition P_back (c : acmd) : Prop := ∀ k fuel pos ts,
  lexes pos (paren 2 (tokens c) ++ replicate k (TC 38) ++ ts) → stops S2 ts → (4 * length (paren 2 (tokens c)) + 3 ≤ fuel)%nat →
  ∃ c' pos', ('(c0, s) ← parsepipe buf es fuel pos; parseback buf es (length buf) c0 s) = Ok (c', pos') ∧ lexes pos' ts ∧
    crel c' (Nat.iter k BACK c).
Definition P_line (c : acmd) : Prop := ∀ fuel pos ts,
  lexes pos (paren 3 (tokens c) ++ ts) → stops S3 ts → (4 * length (paren 3 (tokens c)) + 4 ≤ fuel)%nat →
  ∃ c' pos', parseline buf es fuel pos = Ok (c', pos') ∧ lexes pos' ts ∧ crel c' c.

Lemma rtoks_length rs : (length rs ≤ length (rtoks rs))%nat.
Proof. unfold rtoks. induction rs as [|r rs IH]; cbn; lia. Qed.

Lemma exec_EXEC argv : Forall good_word argv → (length argv < MAXARGS)%nat → P_exec (EXEC argv).
Proof.
  intros Hw Hmax rs fuel pos ts Hl Hrs Hts Hfuel. destruct fuel as [|fuel]; [lia|]. rewrite parseexec_S. cbn [tokens] in *.
  change (paren 0 (0%nat, TW <$> argv)) with (TW <$> argv) in *.
  assert (length argv + length (rtoks rs) < length buf)%nat as Hlen.
  { pose proof (lexes_length _ _ Hl) as Hlen. rewrite !length_app, length_fmap in Hlen. lia. }
  pose proof (rtoks_length rs). destruct (peek_spec buf es pos _ [40] Hl) as (p & Hp & Hlx). apply lexed_lexes in Hlx.
  assert (first_in [40] ((TW <$> argv) ++ rtoks rs ++ ts) = false) as Hf.
  { destruct Hw as [|w argv Hw _]; [|apply first_in_word; [chars|done]]. cbn.
    destruct Hrs as [|r rs Hr _]; [apply (stops_not S0); [chars|done]|]. cbn. case_decide; done. }
  rewrite Hp, bind_ret, Hf.
  assert (∃ rs1 p1, parseredirs buf es (length buf) p = Ok (rs1, p1) ∧
    lexes p1 ((TW <$> argv) ++ match argv with [] => [] | _ => rtoks rs end ++ ts) ∧
    Forall2 rrel rs1 match argv with [] => rs | _ => [] end) as (rs1 & p1 & -> & Hl1 & Hr1).
  { destruct Hw as [|w argv Hw _]; cbn [fmap list_fmap app] in *.
    - destruct (parseredirs_spec rs (length buf) p ts Hlx Hrs) as (rs1 & p1 & ? & ? & ?); [apply (stops_not S0); [chars|done]|lia|].
      exists rs1, p1. split_and!; [done|by apply lexed_lexes|done].
    - destruct (parseredirs_spec [] (length buf) p _ Hlx) as (rs1 & p1 & ? & ? & ?); [constructor|apply first_in_word; [chars|done]|cbn; lia|].
      exists rs1, p1. split_and!; [done|by apply lexed_lexes|done]. }
  rewrite bind_ret. destruct (parseargs_spec argv rs (length buf) p1 ts [] rs1 Hl1 Hw Hrs Hts) as (argv' & rs' & p2 & Hpa & Hl2 & Ha & Hr); [cbn; lia|lia|].
  rewrite Hpa, bind_ret. eexists _, _. split; [done|]. split; [done|]. apply wrap_rel; [done|].
  destruct argv as [|w argv]; [apply Forall2_nil_inv_r in Hr as ->; by rewrite app_nil_r|].
  apply Forall2_nil_inv_r in Hr1 as ->. done.
Qed.

(** A command in parentheses, and its redirections. *)
Lemma exec_block c : P_line c → level c ≠ 0%nat → P_exec c.
Proof.
  intros HP Hlv rs fuel pos ts Hl Hrs Hts Hfuel.
  assert (paren 0 (tokens c) = TC 40 :: (tokens c).2 ++ [TC 41]) as Hpar.
  { unfold paren. rewrite decide_False; [done|]. unfold level in Hlv. lia. }
  rewrite Hpar in *. cbn [app] in Hl. rewrite !length_app in Hfuel. cbn [length] in Hfuel. rewrite length_app in Hfuel. cbn [length] in Hfuel.
  rewrite <-app_assoc in Hl. cbn [app] in Hl.
  pose proof (lexes_length _ _ Hl) as Hlen. cbn [length] in Hlen. rewrite length_app in Hlen. cbn [length] in Hlen. rewrite length_app in Hlen.
  pose proof (rtoks_length rs). do 2 (destruct fuel as [|fuel]; [lia|]). rewrite parseexec_S.
  destruct (peek_spec buf es pos _ [40] Hl) as (p & Hp & Hlx). apply lexed_lexes in Hlx. rewrite Hp, bind_ret. cbn [first_in ttext].
  change (mem_chr [40] 40) with true. cbn iota. rewrite parseblock_S.
  destruct (peek_spec buf es p _ [40] Hlx) as (p1 & Hp1 & Hl1). apply lexed_lexes in Hl1. rewrite Hp1, bind_ret. cbn [first_in ttext].
  change (mem_chr [40] 40) with true. cbn [negb].
  destruct (gettoken_spec buf es p1 _ _ Hl1) as (? & ? & p2 & Hg & Hl2 & _). rewrite Hg, bind_ret. apply lexed_lexes in Hl2.
  assert (paren 3 (tokens c) = (tokens c).2) as Hp3.
  { unfold paren. rewrite decide_True; [done|]. apply level_max. }
  destruct (HP fuel p2 (TC 41 :: rtoks rs ++ ts)) as (c' & p3 & -> & Hl3 & Hrel); [by rewrite Hp3|by right|rewrite Hp3; lia|].
  rewrite bind_ret. destruct (peek_spec buf es p3 _ [41] Hl3) as (p4 & Hp4 & Hl4). apply lexed_lexes in Hl4. rewrite Hp4, bind_ret.
  cbn [first_in ttext]. change (mem_chr [41] 41) with true. cbn [negb].
  destruct (gettoken_spec buf es p4 _ _ Hl4) as (? & ? & p5 & Hg5 & Hl5 & _). rewrite Hg5, bind_ret. apply lexed_lexes in Hl5.
  destruct (parseredirs_spec rs (length buf) p5 ts Hl5 Hrs) as (rs' & p6 & -> & Hl6 & Hr6); [apply (stops_not S0); [chars|done]|lia|].
  rewrite bind_ret. eexists _, _. split; [done|]. split; [by apply lexed_lexes|]. by apply wrap_rel.
Qed.

Lemma pipe_exec c : P_exec c → level c ≠ 1%nat → P_pipe c.
Proof.
  intros HP Hlv fuel pos ts Hl Hts Hfuel.
  assert (paren 1 (tokens c) = paren 0 (tokens c)) as Hpar.
  { unfold paren, level in *. repeat case_decide; try done; lia. }
  rewrite Hpar in *. destruct fuel as [|fuel]; [lia|]. rewrite parsepipe_S.
  destruct (HP [] fuel pos ts) as (c' & p & -> & Hl1 & Hrel); [done|constructor|apply (stops_sub S1); [chars|done]|rewrite length_app; cbn; lia|].
  rewrite bind_ret. destruct (peek_spec buf es p ts [124] Hl1) as (p1 & Hp1 & Hl2). rewrite Hp1, bind_ret.
  rewrite (stops_not S1 [124]) by (chars || done). exists c', p1. split_and!; [done|by apply lexed_lexes|done].
Qed.

Lemma pipe_PIPE l r : P_exec l → P_pipe r → P_pipe (PIPE l r).
Proof.
  intros HPl HPr fuel pos ts Hl Hts Hfuel. cbn [tokens] in *.
  change (paren 1 (1%nat, ?x)) with x in *. set (tl := paren 0 (tokens l)) in *. set (tr := paren 1 (tokens r)) in *.
  change (paren 1 (1%nat, tl ++ TC 124 :: tr)) with (tl ++ TC 124 :: tr) in *.
  rewrite length_app in Hfuel. cbn [length] in Hfuel. rewrite <-app_assoc in Hl. cbn [app] in Hl.
  destruct fuel as [|fuel]; [lia|]. rewrite parsepipe_S.
  destruct (HPl [] fuel pos (TC 124 :: tr ++ ts)) as (c1 & p1 & -> & Hl1 & Hr1); [done|constructor|by right|rewrite length_app; cbn; unfold tl in *; lia|].
  rewrite bind_ret. destruct (peek_spec buf es p1 _ [124] Hl1) as (p2 & Hp2 & Hl2). rewrite Hp2, bind_ret. cbn [first_in ttext].
  change (mem_chr [124] 124) with true. apply lexed_lexes in Hl2.
  destruct (gettoken_spec buf es p2 _ _ Hl2) as (? & ? & p3 & Hg & Hl3 & _). rewrite Hg, bind_ret. apply lexed_lexes in Hl3.
  destruct (HPr fuel p3 ts Hl3 Hts) as (c2 & p4 & -> & Hl4 & Hr2); [fold tr; lia|]. rewrite bind_ret.
  eexists _, _. split; [done|]. by split.
Qed.

Lemma parseback_spec k fuel (c : acmd) c' pos ts :
  lexes pos (replicate k (TC 38) ++ ts) → stops S2 ts → (k ≤ fuel)%nat → crel c' c →
  ∃ c2 pos', parseback buf es fuel c' pos = Ok (c2, pos') ∧ lexes pos' ts ∧ crel c2 (Nat.iter k BACK c).
Proof.
  revert fuel c c' pos. induction k as [|k IH]; intros fuel c c' pos Hl Hts Hfuel Hrel; cbn [replicate app] in Hl.
  - destruct (peek_spec buf es pos ts [38] Hl) as (p & Hp & Hlx). rewrite (stops_not S2 [38]) in Hp by (chars || done).
    exists c', p. split_and!; [destruct fuel; cbn [parseback]; by rewrite Hp, bind_ret|by apply lexed_lexes|done].
  - destruct fuel as [|fuel]; [lia|]. cbn [parseback]. destruct (peek_spec buf es pos _ [38] Hl) as (p & Hp & Hlx).
    rewrite Hp, bind_ret. cbn [first_in ttext]. change (mem_chr [38] 38) with true. cbn iota. apply lexed_lexes in Hlx.
    destruct (gettoken_spec buf es p _ _ Hlx) as (? & ? & p1 & Hg & Hl1 & _). rewrite Hg, bind_ret. apply lexed_lexes in Hl1.
    rewrite Nat.iter_succ_r. apply IH; [done|done|lia|done].
Qed.

Lemma back_pipe c : P_pipe c → level c ≠ 2%nat → P_back c.
Proof.
  intros HP Hlv k fuel pos ts Hl Hts Hfuel.
  assert (paren 2 (tokens c) = paren 1 (tokens c)) as Hpar.
  { unfold paren, level in *. repeat case_decide; try done; lia. }
  rewrite Hpar in *. destruct (HP fuel pos (replicate k (TC 38) ++ ts) Hl) as (c' & p & -> & Hl1 & Hrel); [|lia|].
  { destruct k; [apply (stops_sub S2); [chars|done]|by right]. }
  rewrite bind_ret. apply parseback_spec; [done|done| |done].
  pose proof (lexes_length _ _ Hl1) as Hlen. rewrite length_app, length_replicate in Hlen. lia.
Qed.

Lemma back_BACK c : P_back c → P_back (BACK c).
Proof.
  intros HP k fuel pos ts Hl Hts Hfuel. cbn [tokens] in *.
  change (paren 2 (2%nat, paren 2 (tokens c) ++ [TC 38])) with (paren 2 (tokens c) ++ [TC 38]) in *.
  rewrite length_app in Hfuel. rewrite <-app_assoc in Hl. destruct (HP (S k) fuel pos ts Hl Hts) as (c' & p & Heq & Hl1 & Hrel); [lia|].
  exists c', p. rewrite Nat.iter_succ_r in Hrel. done.
Qed.

Lemma line_back c : P_back c → level c ≠ 3%nat → P_line c.
Proof.
  intros HP Hlv fuel pos ts Hl Hts Hfuel. pose proof (level_max c).
  assert (paren 3 (tokens c) = paren 2 (tokens c)) as Hpar.
  { unfold paren, level in *. rewrite !decide_True by lia. done. }
  rewrite Hpar in *. destruct fuel as [|fuel]; [lia|]. rewrite parseline_S.
  destruct (HP 0%nat fuel pos ts Hl) as (c' & p & Heq & Hl1 & Hrel); [apply (stops_sub S3); [chars|done]|lia|].
  apply bind_Ok in Heq as ([c0 s0] & -> & Heq). rewrite bind_ret. cbn beta iota in Heq. rewrite Heq, bind_ret.
  destruct (peek_spec buf es p ts [59] Hl1) as (p1 & Hp1 & Hl2). rewrite Hp1, bind_ret.
  rewrite (stops_not S3 [59]) by (chars || done). exists c', p1. split_and!; [done|by apply lexed_lexes|done].
Qed.

Lemma line_LIST l r : P_back l → P_line r → P_line (LIST l r).
Proof.
  intros HPl HPr fuel pos ts Hl Hts Hfuel. cbn [tokens] in *.
  set (tl := paren 2 (tokens l)) in *. set (tr := paren 3 (tokens r)) in *.
  change (paren 3 (3%nat, tl ++ TC 59 :: tr)) with (tl ++ TC 59 :: tr) in *.
  rewrite length_app in Hfuel. cbn [length] in Hfuel. rewrite <-app_assoc in Hl. cbn [app] in Hl.
  destruct fuel as [|fuel]; [lia|]. rewrite parseline_S.
  destruct (HPl 0%nat fuel pos (TC 59 :: tr ++ ts) Hl) as (c1 & p1 & Heq & Hl1 & Hr1); [by right|fold tl; lia|].
  apply bind_Ok in Heq as ([c0 s0] & -> & Heq). rewrite bind_ret. cbn beta iota in Heq. rewrite Heq, bind_ret.
  destruct (peek_spec buf es p1 _ [59] Hl1) as (p2 & Hp2 & Hl2). rewrite Hp2, bind_ret. cbn [first_in ttext].
  change (mem_chr [59] 59) with true. cbn iota. apply lexed_lexes in Hl2.
  destruct (gettoken_spec buf es p2 _ _ Hl2) as (? & ? & p3 & Hg & Hl3 & _). rewrite Hg, bind_ret. apply lexed_lexes in Hl3.
  destruct (HPr fuel p3 ts Hl3 Hts) as (c2 & p4 & -> & Hl4 & Hr2); [fold tr; lia|]. rewrite bind_ret.
  eexists _, _. split; [done|]. by split.
Qed.

Lemma exec_REDIR c r : P_exec c → good_redir r → P_exec (REDIR c r).
Proof.
  intros HP Hr rs fuel pos ts Hl Hrs Hts Hfuel. cbn [tokens] in *.
  change (paren 0 (0%nat, paren 0 (tokens c) ++ redir_toks r)) with (paren 0 (tokens c) ++ redir_toks r) in *.
  rewrite <-app_assoc in Hl, Hfuel. apply (HP (r :: rs)); [exact Hl|by constructor|done|exact Hfuel].
Qed.

Lemma parse_all c : good_cmd c → P_exec c ∧ P_pipe c ∧ P_back c ∧ P_line c.
Proof.
  induction c as [argv|c IH r|l IHl r IHr|l IHl r IHr|c IH]; cbn [good_cmd].
  - intros [Hw Hmax]. assert (P_exec (EXEC argv)) as HE by (by apply exec_EXEC).
    assert (P_pipe (EXEC argv)) as HP by (by apply pipe_exec). assert (P_back (EXEC argv)) as HB by (by apply back_pipe).
    split_and!; [done|done|done|by apply line_back].
  - intros [Hc Hr]. destruct (IH Hc) as (HEc & _). assert (P_exec (REDIR c r)) as HE by (by apply exec_REDIR).
    assert (P_pipe (REDIR c r)) as HP by (by apply pipe_exec). assert (P_back (REDIR c r)) as HB by (by apply back_pipe).
    split_and!; [done|done|done|by apply line_back].
  - intros [Hl Hr]. destruct (IHl Hl) as (HEl & _). destruct (IHr Hr) as (_ & HPr & _).
    assert (P_pipe (PIPE l r)) as HP by (by apply pipe_PIPE). assert (P_back (PIPE l r)) as HB by (by apply back_pipe).
    assert (P_line (PIPE l r)) as HL by (by apply line_back). split_and!; [by apply exec_block|done|done|done].
  - intros [Hl Hr]. destruct (IHl Hl) as (_ & _ & HBl & _). destruct (IHr Hr) as (_ & _ & _ & HLr).
    assert (P_line (LIST l r)) as HL by (by apply line_LIST). assert (P_exec (LIST l r)) as HE by (by apply exec_block).
    assert (P_pipe (LIST l r)) as HP by (by apply pipe_exec). split_and!; [done|done|by apply back_pipe|done].
  - intros Hc. destruct (IH Hc) as (_ & _ & HBc & _). assert (P_back (BACK c)) as HB by (by apply back_BACK).
    assert (P_line (BACK c)) as HL by (by apply line_back). assert (P_exec (BACK c)) as HE by (by apply exec_block).
    split_and!; [done|by apply pipe_exec|done|done].
Qed.
End parse.

(** ** NUL termination *)

Fixpoint ends (c : cmd) : list nat :=
  match c with
  | EXEC argv => argv.*2
  | REDIR c r => ends c ++ [(rd_file r).2]
  | PIPE l r | LIST l r => ends l ++ ends r
  | BACK c => ends c
  end.

Definition nuls (es : list nat) (buf : list Z) : list Z := foldl (λ b e, <[e := 0]> b) buf es.

Lemma nuls_app es1 es2 buf : nuls (es1 ++ es2) buf = nuls es2 (nuls es1 buf).
Proof. apply foldl_app. Qed.

Lemma nuls_length es buf : length (nuls es buf) = length buf.
Proof. revert buf. induction es as [|e es IH]; intros buf; [done|].
  change (nuls (e :: es) buf) with (nuls es (<[e := 0]> buf)). by rewrite IH, length_insert.
Qed.

Lemma nuls_lookup es buf i :
  Forall (λ e, e < length buf)%nat es → nuls es buf !! i = if decide (i ∈ es) then Some 0 else buf !! i.
Proof.
  intros He. induction es as [|e es IH] using rev_ind; [by rewrite decide_False by apply not_elem_of_nil|].
  apply Forall_app in He as [He1 [He2 _]%Forall_cons]. rewrite nuls_app. change (nuls [e] (nuls es buf)) with (<[e := 0]> (nuls es buf)).
  destruct (decide (i = e)) as [->|Hne].
  - rewrite list_lookup_insert_eq by (by rewrite nuls_length). rewrite decide_True; [done|]. apply elem_of_app. right. left.
  - rewrite list_lookup_insert_ne by done. rewrite IH by done. apply decide_ext.
    rewrite elem_of_app, list_elem_of_singleton. naive_solver.
Qed.

Lemma nulterminate_spec c buf :
  Forall (λ e, e < length buf)%nat (ends c) → nulterminate c buf = Ok (nuls (ends c) buf).
Proof.
  assert (∀ e buf, (e < length buf)%nat → put_nul e buf = Ok (<[e := 0]> buf)) as Hput by (intros; by apply aset_nat).
  revert buf. induction c as [argv|c IH r|l IHl r IHr|l IHl r IHr|c IH]; intros buf He; cbn [nulterminate ends] in *.
  - revert buf He. induction argv as [|[q e] argv IH]; intros buf He; [done|]. cbn [fmap list_fmap snd put_nuls] in *.
    apply Forall_cons in He as [He Hes]. rewrite Hput, bind_ret by done. apply IH. by rewrite length_insert.
  - apply Forall_app in He as [He1 [He2 _]%Forall_cons]. rewrite IH, bind_ret, nuls_app by done. apply Hput. by rewrite nuls_length.
  - apply Forall_app in He as [He1 He2]. rewrite IHl, bind_ret, nuls_app by done. apply IHr. by rewrite nuls_length.
  - apply Forall_app in He as [He1 He2]. rewrite IHl, bind_ret, nuls_app by done. apply IHr. by rewrite nuls_length.
  - by apply IH.
Qed.

(** No end of a word lies inside a word. *)
Lemma rel_ends buf (c : cmd) (a : cmd_of (list Z)) e :
  cmd_rel (word_at buf) c a → e ∈ ends c → ∃ d, buf !! e = Some d ∧ ¬ wordchar d.
Proof.
  revert a. induction c as [argv|c IH r|l IHl r IHr|l IHl r IHr|c IH]; intros [argv'|a r'|l' r'|l' r'|a]; cbn [cmd_rel ends]; try done.
  - intros Hr (p & -> & Hp)%list_elem_of_fmap. apply list_elem_of_lookup in Hp as [i Hi].
    destruct (Forall2_lookup_l _ _ _ _ _ Hr Hi) as (w & _ & _ & _ & _ & Hd). exact Hd.
  - intros [Hc Hr] [He|He%list_elem_of_singleton]%elem_of_app; [by apply (IH a)|]. subst. apply Hr.
  - intros [Hl Hr] [He|He]%elem_of_app; [by apply (IHl l')|by apply (IHr r')].
  - intros [Hl Hr] [He|He]%elem_of_app; [by apply (IHl l')|by apply (IHr r')].
  - apply IH.
Qed.

(** A word of the line is a C string once its end is a NUL. *)
Definition cword (buf : list Z) (p : word) (w : list Z) : Prop := cstr (drop p.1 buf) = w.

Lemma word_cstr buf E p w :
  word_at buf p w → p.2 ∈ E → (∀ e, e ∈ E → ∃ d, buf !! e = Some d ∧ ¬ wordchar d) → cword (nuls E buf) p w.
Proof.
  intros ((_ & Hw) & He & Hs & _) Hin HE. destruct p as [q e]. cbn [fst snd] in *.
  assert (Forall (λ e, e < length buf)%nat E) as Hb.
  { apply Forall_forall. intros x Hx. destruct (HE x Hx) as (d & Hd & _). by apply lookup_lt_Some in Hd. }
  assert (∃ r, drop q (nuls E buf) = w ++ 0 :: r) as [r Hr].
  { exists (drop (S (length w)) (drop q (nuls E buf))). apply list_eq. intros i.
    rewrite lookup_drop, nuls_lookup by done. destruct (Nat.lt_trichotomy i (length w)) as [Hlt|[->|Hgt]].
    - destruct (lookup_lt_is_Some_2 w i Hlt) as [x Hx]. rewrite lookup_app_l, Hx by done.
      assert (buf !! (q + i)%nat = Some x) as Hbx by (rewrite <-Hs in Hx; by rewrite slice_lookup in Hx).
      rewrite decide_False; [done|]. intros Hi. destruct (HE _ Hi) as (d & Hd & Hn). rewrite Hbx in Hd. injection Hd as <-.
      rewrite Forall_forall in Hw. by apply Hn, Hw, list_elem_of_lookup; exists i.
    - rewrite lookup_app_r, Nat.sub_diag by lia. rewrite decide_True by (by rewrite <-He). done.
    - rewrite lookup_app_r, lookup_cons_ne_0 by lia. rewrite !lookup_drop, nuls_lookup by done.
      by replace (q + (S (length w) + pred (i - length w)))%nat with (q + i)%nat by lia. }
  unfold cword. cbn [fst]. rewrite Hr, cstr_app; [cbn; by rewrite app_nil_r|].
  eapply Forall_impl; [exact Hw|]. by intros x [? _].
Qed.

Lemma rel_cstr buf E (c : cmd) (a : cmd_of (list Z)) :
  cmd_rel (word_at buf) c a → (∀ e, e ∈ ends c → e ∈ E) → (∀ e, e ∈ E → ∃ d, buf !! e = Some d ∧ ¬ wordchar d) →
  cmd_rel (cword (nuls E buf)) c a.
Proof.
  intros Hr HE Hd. revert a Hr HE.
  induction c as [argv|c IH r|l IHl r IHr|l IHl r IHr|c IH]; intros [argv'|a r'|l' r'|l' r'|a]; cbn [cmd_rel ends]; try done.
  - intros Hr HE. apply Forall2_same_length_lookup. split; [by apply Forall2_length in Hr|].
    intros i p w Hp Hw. apply word_cstr; [by eapply Forall2_lookup_lr|apply HE, list_elem_of_fmap; exists p; split; [done|by apply list_elem_of_lookup; exists i]|done].
  - intros [Hc (Hf & Hm & Hfd)] HE. split; [apply IH; [done|intros e He; apply HE, elem_of_app; by left]|].
    split_and!; [apply word_cstr; [done|apply HE, elem_of_app; right; left|done]|done|done].
  - intros [Hl Hr] HE. split; [apply IHl; [done|intros e He; apply HE, elem_of_app; by left]|apply IHr; [done|intros e He; apply HE, elem_of_app; by right]].
  - intros [Hl Hr] HE. split; [apply IHl; [done|intros e He; apply HE, elem_of_app; by left]|apply IHr; [done|intros e He; apply HE, elem_of_app; by right]].
  - intros Hr HE. by apply IH.
Qed.

Lemma body_nonul ts : Forall good_tok ts → Forall (λ c, c ≠ 0) (body ts).
Proof.
  induction 1 as [|t ts Ht Hts IH]; [constructor|]. cbn [body]. rewrite !Forall_app. split_and!; [|destruct ts; by repeat constructor|done].
  destruct t as [w|c]; cbn in *.
  - eapply Forall_impl; [apply Ht|]. by intros x [? _].
  - constructor; [by apply symbol_char|constructor].
Qed.

Lemma tokens_good c : good_cmd c → Forall good_tok (tokens c).2.
Proof.
  assert (∀ lvl lt, Forall good_tok lt.2 → Forall good_tok (paren lvl lt)) as Hpar.
  { intros lvl lt Hg. unfold paren. case_decide; [done|]. constructor; [apply (bool_decide_eq_true_1 _); by vm_compute|].
    apply Forall_app. split; [done|]. constructor; [apply (bool_decide_eq_true_1 _); by vm_compute|constructor]. }
  assert (∀ c, c ∈ symbols → good_tok (TC c)) as Hsym by done.
  induction c as [argv|c IH r|l IHl r IHr|l IHl r IHr|c IH]; cbn [good_cmd tokens snd].
  - intros [Hw _]. by apply Forall_fmap.
  - intros [Hc [Hr _]]. apply Forall_app. split; [by apply Hpar, IH|]. constructor; [|constructor; [exact Hr|constructor]].
    apply Hsym. case_decide; apply (bool_decide_eq_true_1 _); by vm_compute.
  - intros [Hl Hr]. apply Forall_app. split; [by apply Hpar, IHl|]. constructor; [apply Hsym; apply (bool_decide_eq_true_1 _); by vm_compute|by apply Hpar, IHr].
  - intros [Hl Hr]. apply Forall_app. split; [by apply Hpar, IHl|]. constructor; [apply Hsym; apply (bool_decide_eq_true_1 _); by vm_compute|by apply Hpar, IHr].
  - intros Hc. apply Forall_app. split; [by apply Hpar, IH|]. constructor; [apply Hsym; apply (bool_decide_eq_true_1 _); by vm_compute|constructor].
Qed.

Lemma strlen_spec l junk : Forall (λ c, c ≠ 0) l → strlen (l ++ 0 :: junk) = Ok (Z.of_nat (length l)).
Proof. intros Hl. rewrite strlen_cstr by (rewrite elem_of_app; right; left). rewrite cstr_app by done. cbn [cstr]. by rewrite decide_True, app_nil_r. Qed.


(** [ls | wc > f & ; cat < g] *)
Definition sample_cmd : cmd_of (list Z) :=
  LIST (BACK (PIPE (EXEC [[108; 115]]) (REDIR (EXEC [[119; 99]]) (mkredir [102] O_WRONLY_CREATE 1))))
       (REDIR (EXEC [[99; 97; 116]]) (mkredir [103] O_RDONLY 0)).
