(* ===== verification/Kalloc.v ===== *)
(** * The physical page allocator: [kalloc.c]

    Physical memory is a map from the kernel address of a page to its 4096
    bytes.  The free list runs through the first word of the free pages
    themselves, as [struct run] does.  [kend] is the linker symbol [end]. *)

From stdpp Require Import gmap.
From S2P Require Import Prelude.
From S2P Require Import Bytes.
From S2P Require Import CString.

Local Open Scope Z_scope.

Definition PGSIZE : Z := 4096.
Definition PGBYTES : nat := 4096.
Definition KERNBASE : Z := 2147483648.  (* 0x80000000 *)
Definition PHYSTOP : Z := 234881024.    (* 0xE000000 *)

Definition V2P (v : Z) : Z := u32 (v - KERNBASE).
Definition P2V (p : Z) : Z := u32 (p + KERNBASE).
Definition PGROUNDUP (sz : Z) : Z := Z.land (u32 (sz + PGSIZE - 1)) (Z.lnot (PGSIZE - 1)).
Definition PGROUNDDOWN (a : Z) : Z := Z.land a (Z.lnot (PGSIZE - 1)).

Record mem := mkmem {
  m_page : gmap Z (list Z);
  m_freelist : Z              (* kmem.freelist *)
}.
#[export] Instance mem_fields : Fields mem := λ m, mkmem (m_page m) (m_freelist m).

Definition zero_page : list Z := replicate PGBYTES 0.
Definition pgc (m : mem) (v : Z) : list Z := default zero_page (m_page m !! v).
Definition set_pgc (v : Z) (p : list Z) (m : mem) : mem := m <| m_page ::= <[v := p]> |>.

(** The page at a kernel address, through the direct map. *)
Definition direct (v : Z) : Prop := v mod PGSIZE = 0 ∧ KERNBASE ≤ v < KERNBASE + PHYSTOP.
#[export] Instance direct_dec v : Decision (direct v).
Proof. unfold direct. apply _. Defined.
Definition load_page (m : mem) (v : Z) : outcome (list Z) :=
  if decide (direct v) then Ok (pgc m v) else Fault "address is not mapped".
Definition store_page (v : Z) (p : list Z) (m : mem) : outcome mem :=
  if decide (direct v) then Ok (set_pgc v p m) else Fault "address is not mapped".

(** A word at a kernel address. *)
Definition load_word (m : mem) (a : Z) : outcome Z :=
  p ← load_page m (a - a mod PGSIZE); get_le 4 p (a mod PGSIZE).
Definition store_word (a w : Z) (m : mem) : outcome mem :=
  p ← load_page m (a - a mod PGSIZE);
  p' ← put_le 4 p (a mod PGSIZE) w;
  store_page (a - a mod PGSIZE) p' m.

(** [memset(v, c, PGSIZE)] *)
Definition fill_page (v c : Z) (m : mem) : outcome mem :=
  p ← load_page m v; p' ← memset p 0 c PGBYTES; store_page v p' m.

Section kalloc.
Context (kend : Z).

Definition kfree (v : Z) (m : mem) : outcome mem :=
  if decide (v mod PGSIZE ≠ 0 ∨ v < kend ∨ PHYSTOP ≤ V2P v) then Panic "kfree"
  else
    m1 ← fill_page v 1 m;
    m2 ← store_word v (m_freelist m1) m1;
    Ok (m2 <| m_freelist := v |>).

Definition kalloc (m : mem) : outcome (Z * mem) :=
  let r := m_freelist m in
  if decide (r = 0) then Ok (r, m)
  else n ← load_word m r; Ok (r, m <| m_freelist := n |>).

(** [for(; p + PGSIZE <= vend; p += PGSIZE) kfree(p);] *)
Fixpoint freerange_loop (fuel : nat) (p vend : Z) (m : mem) : outcome mem :=
  if decide (p + PGSIZE ≤ vend) then
    match fuel with
    | O => Fault "fuel"
    | S fuel' => m1 ← kfree p m; freerange_loop fuel' (p + PGSIZE) vend m1
    end
  else Ok m.
Definition freerange (vstart vend : Z) (m : mem) : outcome mem :=
  let p := PGROUNDUP vstart in freerange_loop (Z.to_nat ((vend - p) / PGSIZE)) p vend m.

(** [kinit1] and [kinit2]; the lock is not part of the state. *)
Definition kinit1 (vstart vend : Z) (m : mem) : outcome mem := freerange vstart vend m.
Definition kinit2 (vstart vend : Z) (m : mem) : outcome mem := freerange vstart vend m.

(** ** The free list *)

(** A page the allocator may hand out. *)
Definition page (v : Z) : Prop := direct v ∧ kend ≤ v.

Definition next_of (m : mem) (v : Z) : Z := le_val (slice 0 4 (pgc m v)).

Fixpoint chain (m : mem) (v : Z) (l : list Z) : Prop :=
  match l with
  | [] => v = 0
  | x :: l' => v = x ∧ page x ∧ chain m (next_of m x) l'
  end.

Definition wf_page (p : list Z) : Prop := length p = PGBYTES ∧ Forall byte_range p.

Record kmem_ok (m : mem) (l : list Z) : Prop := {
  ko_chain : chain m (m_freelist m) l;
  ko_nodup : NoDup l;
  ko_pages : ∀ v, wf_page (pgc m v)
}.

Lemma page_range v : page v → 0 < v < 2 ^ 32.
Proof. unfold page, direct, KERNBASE, PHYSTOP. lia. Qed.

Lemma pgc_set v p m x : pgc (set_pgc v p m) x = if decide (x = v) then p else pgc m x.
Proof.
  unfold pgc, set_pgc. change (m_page (m <| m_page ::= <[v:=p]> |>)) with (<[v:=p]> (m_page m)).
  case_decide as Hx; [subst v; rewrite lookup_insert_eq; reflexivity|rewrite lookup_insert_ne by congruence; reflexivity].
Qed.

Lemma load_page_Ok m v : direct v → load_page m v = Ok (pgc m v).
Proof. intros. unfold load_page. by rewrite decide_True. Qed.
Lemma store_page_Ok m v p : direct v → store_page v p m = Ok (set_pgc v p m).
Proof. intros. unfold store_page. by rewrite decide_True. Qed.

(** The [i]th word of a page. *)
Definition pword (m : mem) (v : Z) (i : nat) : Z := le_val (slice (4 * i) 4 (pgc m v)).
Definition set_pword (v : Z) (i : nat) (w : Z) (m : mem) : mem := set_pgc v (list_inserts (4 * i) (le_bytes 4 w) (pgc m v)) m.

Lemma word_addr v i : direct v → (i < 1024)%nat →
  (v + 4 * Z.of_nat i) mod PGSIZE = Z.of_nat (4 * i) ∧ v + 4 * Z.of_nat i - (v + 4 * Z.of_nat i) mod PGSIZE = v.
Proof.
  intros [Hv _] Hi. assert ((v + 4 * Z.of_nat i) mod PGSIZE = Z.of_nat (4 * i)) as ->; [|lia].
  rewrite Zplus_mod, Hv, Z.add_0_l, Zmod_mod. unfold PGSIZE in *. rewrite Z.mod_small; lia.
Qed.

Lemma load_word_Ok m v i :
  direct v → (i < 1024)%nat → wf_page (pgc m v) → load_word m (v + 4 * Z.of_nat i) = Ok (pword m v i).
Proof.
  intros Hv Hi [Hl _]. unfold load_word. destruct (word_addr v i Hv Hi) as [-> ->]. rewrite load_page_Ok, bind_ret by done.
  unfold get_le, bload, PGBYTES in *. rewrite decide_True by lia. rewrite bind_ret. by rewrite Nat2Z.id.
Qed.

Lemma store_word_Ok m v i w :
  direct v → (i < 1024)%nat → wf_page (pgc m v) → store_word (v + 4 * Z.of_nat i) w m = Ok (set_pword v i w m).
Proof.
  intros Hv Hi [Hl _]. unfold store_word. destruct (word_addr v i Hv Hi) as [-> ->]. rewrite load_page_Ok, bind_ret by done.
  unfold put_le, bstore, PGBYTES in *. rewrite decide_True by (rewrite le_bytes_length; lia). rewrite bind_ret, Nat2Z.id.
  by rewrite store_page_Ok.
Qed.

Lemma fill_page_Ok m v c : direct v → wf_page (pgc m v) → fill_page v c m = Ok (set_pgc v (replicate PGBYTES (u8 c)) m).
Proof.
  intros Hv [Hl _]. unfold fill_page. rewrite load_page_Ok, bind_ret by done.
  pose proof (memset_spec (pgc m v) 0 c PGBYTES) as Hm. change (Z.of_nat 0) with 0 in Hm. rewrite Hm by lia.
  rewrite bind_ret, store_page_Ok by done. rewrite inserts_all by (rewrite length_replicate; congruence). reflexivity.
Qed.

Lemma wf_set_pword m v i w : (∀ x, wf_page (pgc m x)) → ∀ x, wf_page (pgc (set_pword v i w m) x).
Proof.
  intros Hw x. unfold set_pword. rewrite pgc_set. case_decide; [|apply Hw]. destruct (Hw v) as [Hl Hb].
  split; [by rewrite length_inserts|]. apply Forall_inserts; [apply le_bytes_range|done].
Qed.

Lemma wf_fill c : 0 ≤ c < 256 → wf_page (replicate PGBYTES c).
Proof. split; [apply length_replicate|by apply Forall_replicate]. Qed.

Lemma pword_set v i w m x j :
  wf_page (pgc m v) → (i < 1024)%nat → (j < 1024)%nat → 0 ≤ w < 2 ^ 32 →
  pword (set_pword v i w m) x j = if decide (x = v ∧ j = i) then w else pword m x j.
Proof.
  intros [Hl _] Hi Hj Hw. unfold pword, set_pword. rewrite pgc_set. unfold PGBYTES in *.
  destruct (decide (x = v)) as [->|Hx]; [|by rewrite decide_False by naive_solver].
  destruct (decide (j = i)) as [->|Hj'].
  - rewrite decide_True by done. apply get_put_le_eq; [lia|exact Hw].
  - rewrite decide_False by naive_solver. f_equal. apply get_put_le_ne. lia.
Qed.

Lemma chain_frame m m' v l : (∀ x, x ∈ l → pgc m' x = pgc m x) → chain m v l → chain m' v l.
Proof.
  revert v. induction l as [|x l IH]; intros v Hx; [done|]. intros (-> & Hp & Hc). split_and!; [done|done|].
  unfold next_of. rewrite Hx by left. apply IH; [intros y Hy; apply Hx; by right|done].
Qed.

Lemma kfree_spec m l v :
  kmem_ok m l → page v → v ∉ l →
  ∃ m', kfree v m = Ok m' ∧ kmem_ok m' (v :: l) ∧ ∀ x, x ≠ v → pgc m' x = pgc m x.
Proof.
  intros [Hc Hn Hp] [Hd He] Hv. pose proof Hd as [Hmod Hr]. unfold kfree.
  rewrite decide_False by (unfold V2P; rewrite u32_small; unfold KERNBASE, PHYSTOP in *; lia).
  rewrite fill_page_Ok, bind_ret by done. set (m1 := set_pgc _ _ m).
  assert (∀ x, wf_page (pgc m1 x)) as Hp1.
  { intros x. unfold m1. rewrite pgc_set. case_decide; [by apply wf_fill|done]. }
  pose proof (store_word_Ok m1 v 0 (m_freelist m1) Hd) as Hs. rewrite Z.mul_0_r, Z.add_0_r in Hs. rewrite Hs, bind_ret by (done || lia).
  assert (0 ≤ m_freelist m < 2 ^ 32) as Hfl.
  { destruct l as [|x l]; cbn in Hc; [rewrite Hc; lia|]. destruct Hc as (-> & Hx & _). pose proof (page_range x Hx). lia. }
  eexists. split; [done|]. set (m2 := set_pword v 0 _ m1).
  assert (∀ x, x ≠ v → pgc m2 x = pgc m x) as Hoth.
  { intros x Hx. unfold m2, set_pword, m1. rewrite !pgc_set. by rewrite !decide_False. }
  split; [split|done].
  - change (m_freelist (m2 <| m_freelist := v |>)) with v. cbn [chain]. split_and!; [done|done|].
    assert (next_of (m2 <| m_freelist := v |>) v = m_freelist m) as ->.
    { change (pword (set_pword v 0 (m_freelist m) m1) v 0 = m_freelist m). rewrite pword_set by (done || lia). by rewrite decide_True. }
    apply (chain_frame m); [|done]. intros x Hx. apply Hoth. intros ->. done.
  - by constructor.
  - by apply wf_set_pword.
Qed.

Lemma kalloc_spec m l :
  kmem_ok m l →
  match l with
  | [] => kalloc m = Ok (0, m)
  | v :: l' => ∃ m', kalloc m = Ok (v, m') ∧ kmem_ok m' l' ∧ page v ∧ v ∉ l' ∧ ∀ x, pgc m' x = pgc m x
  end.
Proof.
  intros [Hc Hn Hp]. unfold kalloc. destruct l as [|v l]; cbn in Hc.
  - rewrite Hc. by rewrite decide_True.
  - destruct Hc as (Hv & Hpg & Hc). rewrite Hv. pose proof (page_range v Hpg). rewrite decide_False by lia.
    pose proof (load_word_Ok m v 0 (proj1 Hpg)) as Hl. rewrite Z.mul_0_r, Z.add_0_r in Hl. rewrite Hl, bind_ret by (done || lia).
    apply NoDup_cons in Hn as [Hvn Hn]. eexists. split; [done|]. split_and!; try done.
    split; [|done|done]. by apply (chain_frame m).
Qed.

(** Writing to a page that is not free. *)
Lemma kmem_set m l v p : kmem_ok m l → v ∉ l → wf_page p → kmem_ok (set_pgc v p m) l.
Proof.
  intros [Hc Hn Hp] Hv Hw. split; [|done|].
  - apply (chain_frame m); [|done]. intros x Hx. rewrite pgc_set. rewrite decide_False; [done|]. by intros ->.
  - intros x. rewrite pgc_set. by case_decide.
Qed.
End kalloc.
