(* ===== verification/Vm.v ===== *)
(** * Page tables and address spaces: [vm.c]

    Page directories and page tables are pages of the memory of [Kalloc];
    an entry is read and written through its kernel address, as the C code
    does through [pde_t *] and [pte_t *].  [kend] and [kdata] are the linker
    symbols [end] and [data].  Loading a segment from a file is in [Loader]. *)

From stdpp Require Import gmap.
From S2P Require Import Prelude.
From S2P Require Import Bytes.
From S2P Require Import CString.
From S2P Require Import Kalloc.

Local Open Scope Z_scope.

Definition PTE_P : Z := 1.
Definition PTE_W : Z := 2.
Definition PTE_U : Z := 4.
Definition NPDENTRIES : nat := 1024.
Definition EXTMEM : Z := 1048576.       (* 0x100000 *)
Definition DEVSPACE : Z := 4261412864.  (* 0xFE000000 *)
Definition KERNLINK : Z := KERNBASE + EXTMEM.

Definition PDX (va : Z) : Z := Z.land (Z.shiftr va 22) 1023.
Definition PTX (va : Z) : Z := Z.land (Z.shiftr va 12) 1023.
Definition PGADDR (d t o : Z) : Z := u32 (Z.lor (Z.lor (Z.shiftl d 22) (Z.shiftl t 12)) o).
Definition PTE_ADDR (pte : Z) : Z := Z.land pte (Z.lnot 4095).
Definition PTE_FLAGS (pte : Z) : Z := Z.land pte 4095.
Definition present (pte : Z) : bool := bool_decide (Z.land pte PTE_P ≠ 0).
Definition user (pte : Z) : bool := bool_decide (Z.land pte PTE_U ≠ 0).

Record kmap_entry := mkkmap { k_virt : Z; k_phys_start : Z; k_phys_end : Z; k_perm : Z }.

Section vm.
Context (kend kdata : Z).

(** The address of the entry for [va], or 0. *)
Definition walkpgdir (pgdir va : Z) (alloc : bool) (m : mem) : outcome (Z * mem) :=
  let pde := pgdir + 4 * PDX va in
  e ← load_word m pde;
  if present e then Ok (P2V (PTE_ADDR e) + 4 * PTX va, m)
  else if alloc then
    '(pgtab, m1) ← kalloc m;
    if decide (pgtab = 0) then Ok (0, m1)
    else
      m2 ← fill_page pgtab 0 m1;
      m3 ← store_word pde (Z.lor (Z.lor (Z.lor (V2P pgtab) PTE_P) PTE_W) PTE_U) m2;
      Ok (pgtab + 4 * PTX va, m3)
  else Ok (0, m).

Fixpoint mappages_loop (fuel : nat) (pgdir a last pa perm : Z) (m : mem) : outcome (Z * mem) :=
  match fuel with
  | O => Fault "fuel"
  | S fuel' =>
      '(pte, m1) ← walkpgdir pgdir a true m;
      if decide (pte = 0) then Ok (-1, m1)
      else
        e ← load_word m1 pte;
        if present e then Panic "remap"
        else
          m2 ← store_word pte (Z.lor (Z.lor pa perm) PTE_P) m1;
          if decide (a = last) then Ok (0, m2)
          else mappages_loop fuel' pgdir (u32 (a + PGSIZE)) last (u32 (pa + PGSIZE)) perm m2
  end.
Definition mappages (pgdir va size pa perm : Z) (m : mem) : outcome (Z * mem) :=
  let a := PGROUNDDOWN va in
  let last := PGROUNDDOWN (u32 (va + size - 1)) in
  mappages_loop (S (Z.to_nat (u32 (last - a) / PGSIZE))) pgdir a last pa perm m.

(** The loop leaps over a directory entry that is absent. *)
Fixpoint deallocuvm_loop (fuel : nat) (pgdir a oldsz : Z) (m : mem) : outcome mem :=
  if decide (a < oldsz) then
    match fuel with
    | O => Fault "fuel"
    | S fuel' =>
        '(pte, m1) ← walkpgdir pgdir a false m;
        if decide (pte = 0) then
          deallocuvm_loop fuel' pgdir (u32 (u32 (PGADDR (PDX a + 1) 0 0 - PGSIZE) + PGSIZE)) oldsz m1
        else
          e ← load_word m1 pte;
          if present e then
            let pa := PTE_ADDR e in
            if decide (pa = 0) then Panic "kfree"
            else
              m2 ← kfree kend (P2V pa) m1;
              m3 ← store_word pte 0 m2;
              deallocuvm_loop fuel' pgdir (u32 (a + PGSIZE)) oldsz m3
          else deallocuvm_loop fuel' pgdir (u32 (a + PGSIZE)) oldsz m1
    end
  else Ok m.
(** How many pages a loop from [a] below [b] visits at most. *)
Definition pages_between (a b : Z) : nat := Z.to_nat ((b - a + PGSIZE - 1) / PGSIZE).
Definition deallocuvm (pgdir oldsz newsz : Z) (m : mem) : outcome (Z * mem) :=
  if decide (oldsz ≤ newsz) then Ok (oldsz, m)
  else
    let a := PGROUNDUP newsz in
    m1 ← deallocuvm_loop (pages_between a oldsz) pgdir a oldsz m;
    Ok (newsz, m1).

Fixpoint allocuvm_loop (fuel : nat) (pgdir a oldsz newsz : Z) (m : mem) : outcome (Z * mem) :=
  if decide (a < newsz) then
    match fuel with
    | O => Fault "fuel"
    | S fuel' =>
        '(pg, m1) ← kalloc m;
        if decide (pg = 0) then
          '(_, m2) ← deallocuvm pgdir newsz oldsz m1;
          Ok (0, m2)
        else
          m2 ← fill_page pg 0 m1;
          '(r, m3) ← mappages pgdir a PGSIZE (V2P pg) (Z.lor PTE_W PTE_U) m2;
          if decide (r < 0) then
            '(_, m4) ← deallocuvm pgdir newsz oldsz m3;
            m5 ← kfree kend pg m4;
            Ok (0, m5)
          else allocuvm_loop fuel' pgdir (u32 (a + PGSIZE)) oldsz newsz m3
    end
  else Ok (newsz, m).
Definition allocuvm (pgdir oldsz newsz : Z) (m : mem) : outcome (Z * mem) :=
  if decide (KERNBASE ≤ newsz) then Ok (0, m)
  else if decide (newsz < oldsz) then Ok (oldsz, m)
  else
    let a := PGROUNDUP oldsz in
    allocuvm_loop (pages_between a newsz) pgdir a oldsz newsz m.

(** [for(i = 0; i < NPDENTRIES; i++)] of [freevm], from entry [i] on. *)
Fixpoint freevm_loop (n : nat) (i : nat) (pgdir : Z) (m : mem) : outcome mem :=
  match n with
  | O => Ok m
  | S n' =>
      e ← load_word m (pgdir + 4 * Z.of_nat i);
      m1 ← (if present e then kfree kend (P2V (PTE_ADDR e)) m else Ok m);
      freevm_loop n' (S i) pgdir m1
  end.
Definition freevm (pgdir : Z) (m : mem) : outcome mem :=
  if decide (pgdir = 0) then Panic "freevm: no pgdir"
  else
    '(_, m1) ← deallocuvm pgdir KERNBASE 0 m;
    m2 ← freevm_loop NPDENTRIES 0 pgdir m1;
    kfree kend pgdir m2.

Definition kmap : list kmap_entry :=
  [mkkmap KERNBASE 0 EXTMEM PTE_W;
   mkkmap KERNLINK (V2P KERNLINK) (V2P kdata) 0;
   mkkmap kdata (V2P kdata) PHYSTOP PTE_W;
   mkkmap DEVSPACE DEVSPACE 0 PTE_W].

Fixpoint setupkvm_loop (ks : list kmap_entry) (pgdir : Z) (m : mem) : outcome (Z * mem) :=
  match ks with
  | [] => Ok (pgdir, m)
  | k :: ks' =>
      '(r, m1) ← mappages pgdir (k_virt k) (u32 (k_phys_end k - k_phys_start k)) (k_phys_start k) (k_perm k) m;
      if decide (r < 0) then m2 ← freevm pgdir m1; Ok (0, m2)
      else setupkvm_loop ks' pgdir m1
  end.
Definition setupkvm (m : mem) : outcome (Z * mem) :=
  '(pgdir, m1) ← kalloc m;
  if decide (pgdir = 0) then Ok (0, m1)
  else
    m2 ← fill_page pgdir 0 m1;
    if decide (DEVSPACE < P2V PHYSTOP) then Panic "PHYSTOP too high"
    else setupkvm_loop kmap pgdir m2.

(** [memmove] of whole bytes [src] to kernel address [a], inside one page. *)
Definition store_bytes (a : Z) (src : list Z) (m : mem) : outcome mem :=
  p ← load_page m (a - a mod PGSIZE);
  p' ← bstore p (a mod PGSIZE) src;
  store_page (a - a mod PGSIZE) p' m.

Definition inituvm (pgdir : Z) (init : list Z) (sz : Z) (m : mem) : outcome mem :=
  if decide (PGSIZE ≤ sz) then Panic "inituvm: more than a page"
  else
    '(pg, m1) ← kalloc m;
    m2 ← fill_page pg 0 m1;
    '(_, m3) ← mappages pgdir 0 PGSIZE (V2P pg) (Z.lor PTE_W PTE_U) m2;
    src ← bload init 0 (Z.to_nat sz);
    store_bytes pg src m3.

Definition clearpteu (pgdir uva : Z) (m : mem) : outcome mem :=
  '(pte, m1) ← walkpgdir pgdir uva false m;
  if decide (pte = 0) then Panic "clearpteu"
  else
    e ← load_word m1 pte;
    store_word pte (Z.land e (Z.lnot PTE_U)) m1.

Fixpoint copyuvm_loop (fuel : nat) (pgdir d i sz : Z) (m : mem) : outcome (Z * mem) :=
  if decide (i < sz) then
    match fuel with
    | O => Fault "fuel"
    | S fuel' =>
        '(pte, m1) ← walkpgdir pgdir i false m;
        if decide (pte = 0) then Panic "copyuvm: pte should exist"
        else
          e ← load_word m1 pte;
          if negb (present e) then Panic "copyuvm: page not present"
          else
            let pa := PTE_ADDR e in
            let flags := PTE_FLAGS e in
            '(pg, m2) ← kalloc m1;
            if decide (pg = 0) then m3 ← freevm d m2; Ok (0, m3)
            else
              src ← load_page m2 (P2V pa);
              m3 ← store_bytes pg src m2;
              '(r, m4) ← mappages d i PGSIZE (V2P pg) flags m3;
              if decide (r < 0) then
                m5 ← kfree kend pg m4;
                m6 ← freevm d m5;
                Ok (0, m6)
              else copyuvm_loop fuel' pgdir d (u32 (i + PGSIZE)) sz m4
    end
  else Ok (d, m).
Definition copyuvm (pgdir sz : Z) (m : mem) : outcome (Z * mem) :=
  '(d, m1) ← setupkvm m;
  if decide (d = 0) then Ok (0, m1)
  else copyuvm_loop (pages_between 0 sz) pgdir d 0 sz m1.

(** [*pte] is read without a test for the null pointer. *)
Definition uva2ka (pgdir uva : Z) (m : mem) : outcome (Z * mem) :=
  '(pte, m1) ← walkpgdir pgdir uva false m;
  if decide (pte = 0) then Fault "null pte"
  else
    e ← load_word m1 pte;
    if negb (present e) then Ok (0, m1)
    else if negb (user e) then Ok (0, m1)
    else Ok (P2V (PTE_ADDR e), m1).

Fixpoint copyout_loop (fuel : nat) (pgdir va : Z) (buf : list Z) (len : Z) (m : mem) : outcome (Z * mem) :=
  if decide (0 < len) then
    match fuel with
    | O => Fault "fuel"
    | S fuel' =>
        let va0 := PGROUNDDOWN va in
        '(pa0, m1) ← uva2ka pgdir va0 m;
        if decide (pa0 = 0) then Ok (-1, m1)
        else
          let n := Z.min (PGSIZE - (va - va0)) len in
          src ← bload buf 0 (Z.to_nat n);
          m2 ← store_bytes (pa0 + (va - va0)) src m1;
          copyout_loop fuel' pgdir (u32 (va0 + PGSIZE)) (drop (Z.to_nat n) buf) (len - n) m2
    end
  else Ok (0, m).
Definition copyout (pgdir va : Z) (p : list Z) (len : Z) (m : mem) : outcome (Z * mem) :=
  copyout_loop (S (S (Z.to_nat (len / PGSIZE)))) pgdir va p len m.
End vm.
