(* ===== verification/VmSpec.v ===== *)
(** * Address spaces: what a page directory maps, and who owns which page

    [space_ok m d T M]: the page directory [d] has the page tables [T] (by
    directory index), and its present entries are [M] (by virtual page
    number).  [vm_ok] adds that the directory, the tables, the user frames,
    the pages [R] in use elsewhere and the free list [l] never overlap; every
    operation only moves pages between these lists. *)

From stdpp Require Import gmap.
From S2P Require Import Prelude.
From S2P Require Import Bytes.
From S2P Require Import CString.
From S2P Require Import Kalloc.
From S2P Require Import Vm.

Local Open Scope Z_scope.

(** ** Address arithmetic *)

Definition NVPN : Z := 1048576.   (* 2^20 virtual pages *)
Definition NUSER : Z := 524288.   (* those below KERNBASE *)

Definition frame (e : Z) : Z := P2V (PTE_ADDR e).

Lemma land_1023 x : Z.land x 1023 = x mod 1024.
Proof. change 1023 with (Z.ones 10). by rewrite Z.land_ones. Qed.

Lemma land_mask x : Z.land x (Z.lnot 4095) = x - x mod 4096.
Proof.
  change 4095 with (Z.ones 12). rewrite <- Z.ldiff_land. rewrite Z.ldiff_ones_r by lia.
  rewrite Z.shiftr_div_pow2, Z.shiftl_mul_pow2 by lia. change (2 ^ 12) with 4096. pose proof (Z.div_mod x 4096). lia.
Qed.

Lemma PDX_va n o : 0 ≤ n < NVPN → 0 ≤ o < PGSIZE → PDX (PGSIZE * n + o) = n / 1024.
Proof.
  unfold PDX, PGSIZE, NVPN. intros. rewrite land_1023, Z.shiftr_div_pow2 by lia. change (2 ^ 22) with (4096 * 1024).
  rewrite <- Z.div_div by lia. rewrite (Z.mul_comm 4096), Z.div_add_l, (Z.div_small o) by lia. rewrite Z.add_0_r.
  apply Z.mod_small. split; [apply Z.div_pos; lia|apply Z.div_lt_upper_bound; lia].
Qed.

Lemma PTX_va n o : 0 ≤ n < NVPN → 0 ≤ o < PGSIZE → PTX (PGSIZE * n + o) = n mod 1024.
Proof.
  unfold PTX, PGSIZE, NVPN. intros. rewrite land_1023, Z.shiftr_div_pow2 by lia. change (2 ^ 12) with 4096.
  by rewrite (Z.mul_comm 4096), Z.div_add_l, (Z.div_small o), Z.add_0_r by lia.
Qed.

Lemma PDX_va0 n : 0 ≤ n < NVPN → PDX (PGSIZE * n) = n / 1024.
Proof. intros. rewrite <- (Z.add_0_r (PGSIZE * n)). by apply PDX_va. Qed.
Lemma PTX_va0 n : 0 ≤ n < NVPN → PTX (PGSIZE * n) = n mod 1024.
Proof. intros. rewrite <- (Z.add_0_r (PGSIZE * n)). by apply PTX_va. Qed.

Lemma PGROUNDUP_up x : 0 ≤ x ≤ KERNBASE → PGROUNDUP x = PGSIZE * ((x + PGSIZE - 1) / PGSIZE).
Proof.
  unfold PGROUNDUP, KERNBASE, PGSIZE. intros. rewrite u32_small by lia. change (4096 - 1) with 4095. rewrite land_mask.
  pose proof (Z.div_mod (x + 4096 - 1) 4096). lia.
Qed.

Lemma PGROUNDDOWN_va n o : 0 ≤ o < PGSIZE → PGROUNDDOWN (PGSIZE * n + o) = PGSIZE * n.
Proof.
  unfold PGROUNDDOWN, PGSIZE. intros. change (4096 - 1) with 4095. rewrite land_mask.
  rewrite Z.add_comm, Z.mul_comm, Z.mod_add, Z.mod_small by lia. lia.
Qed.

(** Flag bits in the low twelve bits of an aligned word. *)
Lemma lor_flags pa f : pa mod PGSIZE = 0 → 0 ≤ f < PGSIZE → Z.lor pa f = pa + f.
Proof.
  unfold PGSIZE. intros Hpa Hf. pose proof (Z.add_lor_land pa f) as Ha.
  enough (Z.land pa f = 0) by lia. apply Z.bits_inj'. intros i Hi. rewrite Z.land_spec, Z.bits_0.
  destruct (decide (i < 12)).
  - assert (Z.testbit pa i = false) as ->; [|done]. rewrite <- (Z.mod_pow2_bits_low pa 12) by lia. change (2 ^ 12) with 4096.
    rewrite Hpa. apply Z.bits_0.
  - assert (Z.testbit f i = false) as ->; [|by rewrite andb_false_r]. rewrite <- (Z.mod_small f 4096) by lia.
    change 4096 with (2 ^ 12). apply Z.mod_pow2_bits_high. lia.
Qed.

Definition tab_entry (t : Z) : Z := Z.lor (Z.lor (Z.lor (V2P t) PTE_P) PTE_W) PTE_U.

Lemma V2P_direct v : direct v → V2P v = v - KERNBASE ∧ V2P v mod PGSIZE = 0 ∧ 0 ≤ V2P v < PHYSTOP.
Proof.
  intros [Hm Hr]. unfold V2P. rewrite u32_small by (unfold KERNBASE, PHYSTOP in *; lia). split_and!; try lia.
  rewrite Zminus_mod, Hm. reflexivity.
Qed.
Lemma P2V_V2P v : direct v → P2V (V2P v) = v.
Proof. intros Hd. destruct (V2P_direct v Hd) as (-> & _). destruct Hd. unfold P2V. rewrite u32_small; unfold KERNBASE, PHYSTOP in *; lia. Qed.

Lemma addr_flags pa f : pa mod PGSIZE = 0 → 0 ≤ f < PGSIZE → PTE_ADDR (pa + f) = pa ∧ PTE_FLAGS (pa + f) = f.
Proof.
  unfold PTE_ADDR, PTE_FLAGS, PGSIZE. intros Hpa Hf. rewrite land_mask. change 4095 with (Z.ones 12).
  rewrite Z.land_ones by lia. change (2 ^ 12) with 4096. rewrite Zplus_mod, Hpa, Z.add_0_l, Zmod_mod, Z.mod_small by lia. lia.
Qed.

Lemma present_odd e : present e = Z.odd e.
Proof.
  unfold present, PTE_P. change 1 with (Z.ones 1). rewrite Z.land_ones by lia. change (2 ^ 1) with 2. rewrite Zmod_odd.
  by destruct (Z.odd e).
Qed.

Lemma tab_entry_eq t : direct t → tab_entry t = V2P t + 7.
Proof.
  intros Hd. destruct (V2P_direct t Hd) as (_ & Hm & _). unfold tab_entry. rewrite <- !Z.lor_assoc. by apply lor_flags.
Qed.

Lemma odd_page pa f : pa mod PGSIZE = 0 → Z.odd (pa + f) = Z.odd f.
Proof.
  intros Hpa. rewrite Z.odd_add. rewrite (Z.div_mod pa PGSIZE), Hpa, Z.add_0_r, Z.odd_mul by done. done.
Qed.

Lemma tab_entry_ok t : direct t → present (tab_entry t) = true ∧ frame (tab_entry t) = t ∧ 0 ≤ tab_entry t < 2 ^ 32.
Proof.
  intros Hd. destruct (V2P_direct t Hd) as (_ & Hm & Hr). rewrite tab_entry_eq by done. split_and!.
  - by rewrite present_odd, odd_page.
  - unfold frame. rewrite (proj1 (addr_flags _ 7 Hm ltac:(done))). by apply P2V_V2P.
  - lia.
  - unfold PHYSTOP in Hr. lia.
Qed.

(** The entry [mappages] stores: [pa | perm | PTE_P]. *)
Definition leaf (pa perm : Z) : Z := Z.lor (Z.lor pa perm) PTE_P.

Lemma leaf_ok pa perm :
  pa mod PGSIZE = 0 → 0 ≤ pa < 2 ^ 32 → 0 ≤ perm < PGSIZE →
  present (leaf pa perm) = true ∧ PTE_ADDR (leaf pa perm) = pa ∧ PTE_FLAGS (leaf pa perm) = Z.lor perm PTE_P ∧
  0 ≤ leaf pa perm < 2 ^ 32.
Proof.
  intros Hm Hr Hp. assert (0 ≤ Z.lor perm PTE_P < PGSIZE) as Hf.
  { unfold PGSIZE in *. split; [apply Z.lor_nonneg; unfold PTE_P; lia|]. change 4096 with (2 ^ 12). apply Z.log2_lt_cancel.
    rewrite Z.log2_lor by (unfold PTE_P; lia). unfold PTE_P. change (Z.log2 1) with 0. change (Z.log2 (2 ^ 12)) with 12.
    pose proof (Z.log2_nonneg perm). rewrite Z.max_l by done. destruct (decide (perm = 0)) as [->|]; [done|]. apply Z.log2_lt_pow2; lia. }
  unfold leaf. rewrite <- Z.lor_assoc, lor_flags by done. destruct (addr_flags pa _ Hm Hf) as [-> ->].
  split_and!; try done; try lia.
  - rewrite present_odd, odd_page by done. rewrite <- Z.bit0_odd, Z.lor_spec. by rewrite orb_true_r.
  - assert (pa ≤ 2 ^ 32 - PGSIZE); [|lia]. unfold PGSIZE in *. pose proof (Z.div_mod pa 4096). lia.
Qed.

(** ** Address spaces *)

Definition tabs (T : gmap Z Z) : list Z := snd <$> map_to_list T.
Definition frames (M : gmap Z Z) : list Z :=
  (λ p, frame p.2) <$> filter (λ p, p.1 < NUSER) (map_to_list M).
(** Every page that belongs to an address space. *)
Definition owned (d : Z) (T M : gmap Z Z) : list Z := d :: tabs T ++ frames M.

Section space.
Context (kend : Z).
Local Notation page := (page kend).
Local Notation kmem_ok := (kmem_ok kend).

Record space_ok (m : mem) (d : Z) (T M : gmap Z Z) : Prop := {
  so_page : page d;
  so_tabs : ∀ i t, T !! i = Some t → 0 ≤ i < 1024 ∧ page t ∧ pword m d (Z.to_nat i) = tab_entry t;
  so_notab : ∀ i, 0 ≤ i < 1024 → T !! i = None → present (pword m d (Z.to_nat i)) = false;
  so_map : ∀ n e, M !! n = Some e → 0 ≤ n < NVPN ∧ present e = true ∧
    ∃ t, T !! (n / 1024) = Some t ∧ pword m t (Z.to_nat (n mod 1024)) = e;
  so_nomap : ∀ n t, 0 ≤ n < NVPN → M !! n = None → T !! (n / 1024) = Some t →
    present (pword m t (Z.to_nat (n mod 1024))) = false;
  so_user : ∀ n e, M !! n = Some e → n < NUSER → page (frame e)
}.

Record vm_ok (m : mem) (l R : list Z) (d : Z) (T M : gmap Z Z) : Prop := {
  vo_kmem : kmem_ok m l;
  vo_space : space_ok m d T M;
  vo_nodup : NoDup (owned d T M ++ R ++ l)
}.

Lemma elem_tabs T i t : T !! i = Some t → t ∈ tabs T.
Proof. intros. unfold tabs. apply list_elem_of_fmap. exists (i, t). split; [done|]. by apply elem_of_map_to_list. Qed.
Lemma elem_frames M n e : M !! n = Some e → n < NUSER → frame e ∈ frames M.
Proof.
  intros. unfold frames. apply list_elem_of_fmap. exists (n, e). split; [done|]. apply list_elem_of_filter.
  split; [done|]. by apply elem_of_map_to_list.
Qed.

Lemma tabs_insert T i t : T !! i = None → tabs (<[i := t]> T) ≡ₚ t :: tabs T.
Proof. intros. unfold tabs. by rewrite map_to_list_insert. Qed.
Lemma frames_insert M n e : M !! n = None → n < NUSER → frames (<[n := e]> M) ≡ₚ frame e :: frames M.
Proof. intros. unfold frames. rewrite map_to_list_insert by done. by rewrite filter_cons_True. Qed.
Lemma frames_insert_kern M n e : M !! n = None → NUSER ≤ n → frames (<[n := e]> M) ≡ₚ frames M.
Proof. intros. unfold frames. rewrite map_to_list_insert by done. rewrite filter_cons_False; [done|cbn; lia]. Qed.
Lemma frames_delete M n e : M !! n = Some e → n < NUSER → frames M ≡ₚ frame e :: frames (delete n M).
Proof. intros. rewrite <- (insert_delete_id M n e) at 1 by done. apply frames_insert; [apply lookup_delete_eq|done]. Qed.

Lemma tabs_inj T i j t : NoDup (tabs T) → T !! i = Some t → T !! j = Some t → i = j.
Proof.
  intros Hn Hi Hj. destruct (decide (i = j)) as [|Hne]; [done|].
  rewrite <- (insert_delete_id T i t), tabs_insert in Hn by (done || apply lookup_delete_eq).
  apply NoDup_cons in Hn as [[] _]. apply (elem_tabs _ j). by rewrite lookup_delete_ne.
Qed.

Lemma vpn_split n : 0 ≤ n < NVPN → 0 ≤ n / 1024 < 1024 ∧ 0 ≤ n mod 1024 < 1024 ∧ n = 1024 * (n / 1024) + n mod 1024.
Proof.
  unfold NVPN. intros. pose proof (Z.div_mod n 1024). pose proof (Z.mod_pos_bound n 1024).
  split_and!; lia.
Qed.

(** Only the directory and the tables matter to what is mapped. *)
Lemma space_frame m m' d T M :
  space_ok m d T M → (∀ x, x ∈ d :: tabs T → pgc m' x = pgc m x) → space_ok m' d T M.
Proof.
  intros [Hd Ht Hnt Hm Hnm Hu] Hx.
  assert (∀ i, pword m' d i = pword m d i) as Hpd by (intros; unfold pword; by rewrite Hx by left).
  assert (∀ i t j, T !! i = Some t → pword m' t j = pword m t j) as Hpt.
  { intros i t j Hi. unfold pword. rewrite Hx; [done|]. right. by eapply elem_tabs. }
  split; [done| | | | |done].
  - intros i t Hi. rewrite Hpd. by apply Ht.
  - intros i Hi Hn. rewrite Hpd. by apply Hnt.
  - intros n e Hn. destruct (Hm n e Hn) as (? & ? & t & Htt & Hw). split; [done|]. split; [done|].
    exists t. split; [done|]. by rewrite (Hpt _ _ _ Htt).
  - intros n t Hr Hn Htt. rewrite (Hpt _ _ _ Htt). by apply Hnm.
Qed.

(** Storing an entry of a page table. *)
Definition upd (n e : Z) (M : gmap Z Z) : gmap Z Z := if present e then <[n := e]> M else delete n M.

Lemma lookup_upd n e M k : upd n e M !! k = if decide (k = n) then (if present e then Some e else None) else M !! k.
Proof.
  unfold upd. case_decide as Hk; [subst|]; destruct (present e);
    rewrite ?lookup_insert_eq, ?lookup_delete_eq, ?lookup_insert_ne, ?lookup_delete_ne; done.
Qed.

Lemma pword_tabs m d T M n t e k tk :
  space_ok m d T M → NoDup (tabs T) → wf_page (pgc m t) → 0 ≤ n < NVPN → T !! (n / 1024) = Some t → 0 ≤ e < 2 ^ 32 →
  0 ≤ k < NVPN → T !! (k / 1024) = Some tk →
  pword (set_pword t (Z.to_nat (n mod 1024)) e m) tk (Z.to_nat (k mod 1024)) =
  if decide (k = n) then e else pword m tk (Z.to_nat (k mod 1024)).
Proof.
  intros Hs Hnd Hwf Hn Ht He Hk Htk. destruct (vpn_split k Hk) as (? & ? & ?), (vpn_split n Hn) as (? & ? & ?).
  rewrite pword_set by (done || lia).
  destruct (decide (k = n)) as [->|Hkn]; [by rewrite decide_True by naive_solver|]. rewrite decide_False; [done|].
  intros [-> Hi]. assert (k / 1024 = n / 1024) by (by eapply tabs_inj). lia.
Qed.

Lemma store_pte m l d T M n t e :
  kmem_ok m l → space_ok m d T M → NoDup (d :: tabs T) → 0 ≤ n < NVPN → T !! (n / 1024) = Some t → t ∉ l →
  0 ≤ e < 2 ^ 32 → (present e = true → n < NUSER → page (frame e)) →
  ∃ m', store_word (t + 4 * (n mod 1024)) e m = Ok m' ∧ kmem_ok m' l ∧ space_ok m' d T (upd n e M) ∧
    ∀ x, x ≠ t → pgc m' x = pgc m x.
Proof.
  intros Hk Hs Hnd Hn Ht Htl He Hpe. destruct (vpn_split n Hn) as (Hn1 & Hn2 & Hn3).
  destruct (so_tabs _ _ _ _ Hs _ _ Ht) as (_ & [Htd Hte] & _).
  pose proof (ko_pages _ _ _ Hk t) as Hwf. apply NoDup_cons in Hnd as [Hdt Hnd].
  assert (d ≠ t) as Hne by (intros ->; apply Hdt; by eapply elem_tabs).
  pose proof (λ k tk, pword_tabs m d T M n t e k tk Hs Hnd Hwf Hn Ht He) as Hpw.
  rewrite <- (Z2Nat.id (n mod 1024)) by lia. rewrite store_word_Ok by (done || lia). eexists. split; [done|].
  assert (∀ x, x ≠ t → pgc (set_pword t (Z.to_nat (n mod 1024)) e m) x = pgc m x) as Hoth.
  { intros x Hx. unfold set_pword. rewrite pgc_set. by rewrite decide_False. }
  split; [|split; [|done]].
  { apply kmem_set; [done|done|]. pose proof (wf_set_pword m t (Z.to_nat (n mod 1024)) e (ko_pages _ _ _ Hk) t) as Hw.
    unfold set_pword in Hw. by rewrite pgc_set, decide_True in Hw by done. }
  destruct Hs as [Hd Hts Hnt Hm Hnm Hu]. split; [done| | | | |].
  - intros i t' Hi. unfold pword. rewrite Hoth by done. by apply Hts.
  - intros i Hi Hi'. unfold pword. rewrite Hoth by done. by apply Hnt.
  - intros k ek. rewrite lookup_upd. case_decide as Hkn.
    + subst k. destruct (present e) eqn:Hp; intros [= <-]. split; [done|]. split; [done|]. exists t. split; [done|].
      by rewrite Hpw, decide_True by done.
    + intros Hke. destruct (Hm k ek Hke) as (? & ? & tk & Htk & Hw). split; [done|]. split; [done|]. exists tk. split; [done|].
      by rewrite Hpw, decide_False by done.
  - intros k tk Hk'. rewrite lookup_upd. intros Hkn Htk. rewrite Hpw by done. case_decide; [by destruct (present e)|by apply Hnm].
  - intros k ek. rewrite lookup_upd. case_decide as Hkn; [|by apply Hu]. subst k. destruct (present e); [|done]. intros [= <-]. by apply Hpe.
Qed.

(** ** Consequences of ownership *)

Section facts.
Context (m : mem) (l R : list Z) (d : Z) (T M : gmap Z Z) (Hv : vm_ok m l R d T M).

Lemma vo_dirs : NoDup (d :: tabs T).
Proof. destruct Hv as [_ _ Hn]. unfold owned in Hn. rewrite app_comm_cons, <- app_assoc in Hn. by apply NoDup_app in Hn as [? _]. Qed.

Lemma vo_apart x : x ∈ d :: tabs T → x ∉ frames M ∧ x ∉ R ∧ x ∉ l.
Proof.
  destruct Hv as [_ _ Hn]. unfold owned in Hn. rewrite app_comm_cons, <- app_assoc in Hn.
  apply NoDup_app in Hn as (_ & Hx & _). intros Hin. specialize (Hx x Hin). set_solver.
Qed.

Lemma vo_frames x : x ∈ frames M → x ∉ d :: tabs T ∧ x ∉ R ∧ x ∉ l.
Proof.
  intros Hx. split; [intros Hin; by apply (proj1 (vo_apart x Hin))|].
  destruct Hv as [_ _ Hn]. apply NoDup_app in Hn as (_ & Ho & _). specialize (Ho x). unfold owned in Ho. set_solver.
Qed.

Lemma vo_rest : NoDup (R ++ l).
Proof. destruct Hv as [_ _ Hn]. by apply NoDup_app in Hn as (_ & _ & ?). Qed.

Lemma vo_R x : x ∈ R → x ∉ owned d T M ∧ x ∉ l.
Proof.
  destruct Hv as [_ _ Hn]. intros Hx. apply NoDup_app in Hn as (_ & Ho & Hrl). apply NoDup_app in Hrl as (_ & Hl & _).
  split; [intros Hin; specialize (Ho x Hin); set_solver|by apply Hl].
Qed.

(** [walkpgdir] on a directory entry that is present. *)
Lemma walk_Some n o alloc t :
  0 ≤ n < NVPN → 0 ≤ o < PGSIZE → T !! (n / 1024) = Some t →
  walkpgdir d (PGSIZE * n + o) alloc m = Ok (t + 4 * (n mod 1024), m) ∧ t + 4 * (n mod 1024) ≠ 0.
Proof.
  intros Hn Ho Ht. destruct Hv as [Hk Hs _]. destruct (vpn_split n Hn) as (Hn1 & Hn2 & _).
  unfold walkpgdir. rewrite PDX_va, PTX_va by done. destruct (so_page _ _ _ _ Hs) as [Hd _].
  rewrite <- (Z2Nat.id (n / 1024)), load_word_Ok, bind_ret by (done || lia || apply (ko_pages _ _ _ Hk)).
  destruct (so_tabs _ _ _ _ Hs _ _ Ht) as (_ & Hp & ->). pose proof (page_range _ t Hp). destruct Hp as [Htd _].
  destruct (tab_entry_ok t Htd) as (-> & Hf & _). unfold frame in Hf. rewrite Hf. split; [done|lia].
Qed.

Lemma walk_None n o :
  0 ≤ n < NVPN → 0 ≤ o < PGSIZE → T !! (n / 1024) = None → walkpgdir d (PGSIZE * n + o) false m = Ok (0, m).
Proof.
  intros Hn Ho Ht. destruct Hv as [Hk Hs _]. destruct (vpn_split n Hn) as (Hn1 & Hn2 & _).
  unfold walkpgdir. rewrite PDX_va by done. destruct (so_page _ _ _ _ Hs) as [Hd _].
  rewrite <- (Z2Nat.id (n / 1024)), load_word_Ok, bind_ret by (done || lia || apply (ko_pages _ _ _ Hk)).
  by rewrite (so_notab _ _ _ _ Hs) by done.
Qed.

(** Reading an entry. *)
Lemma load_pte n t :
  0 ≤ n < NVPN → T !! (n / 1024) = Some t →
  ∃ e, load_word m (t + 4 * (n mod 1024)) = Ok e ∧
    match M !! n with Some e' => e = e' ∧ present e = true | None => present e = false end.
Proof.
  intros Hn Ht. destruct Hv as [Hk Hs _]. destruct (vpn_split n Hn) as (_ & Hn2 & _).
  destruct (so_tabs _ _ _ _ Hs _ _ Ht) as (_ & [Htd _] & _).
  rewrite <- (Z2Nat.id (n mod 1024)), load_word_Ok by (done || lia || apply (ko_pages _ _ _ Hk)).
  eexists. split; [done|]. destruct (M !! n) as [e|] eqn:He.
  - destruct (so_map _ _ _ _ Hs n e He) as (_ & Hp & t' & Ht' & Hw). simplify_eq. done.
  - by apply (so_nomap _ _ _ _ Hs).
Qed.
End facts.

Lemma pword_zero m v i : (i < 1024)%nat → pgc m v = replicate PGBYTES 0 → pword m v i = 0.
Proof.
  intros Hi Hz. unfold pword. rewrite Hz. unfold slice. rewrite drop_replicate, take_replicate.
  replace (4 `min` (PGBYTES - 4 * i))%nat with 4%nat by (unfold PGBYTES; lia). done.
Qed.

(** A page table is installed in an empty directory entry. *)
Lemma space_newtab m m' d T M i t :
  space_ok m d T M → 0 ≤ i < 1024 → T !! i = None → page t → t ∉ d :: tabs T →
  (∀ x, x ≠ d → x ≠ t → pgc m' x = pgc m x) → pgc m' t = replicate PGBYTES 0 →
  (∀ j, (j < 1024)%nat → pword m' d j = if decide (j = Z.to_nat i) then tab_entry t else pword m d j) →
  ¬ d ∈ tabs T →
  space_ok m' d (<[i := t]> T) M.
Proof.
  intros [Hd Hts Hnt Hm Hnm Hu] Hi HTi Ht Hnew Hoth Hz Hpd Hdt. apply not_elem_of_cons in Hnew as [Htd Htt].
  assert (∀ k tk j, T !! k = Some tk → pword m' tk j = pword m tk j) as Hpt.
  { intros k tk j Hk. apply elem_tabs in Hk. unfold pword. rewrite Hoth; [done|by intros ->|by intros ->]. }
  split; [done| | | | |done].
  - intros j tj. destruct (decide (j = i)) as [->|Hj].
    + rewrite lookup_insert_eq. intros [= <-]. split; [done|]. split; [done|]. by rewrite Hpd, decide_True by (done || lia).
    + rewrite lookup_insert_ne by done. intros Htj. destruct (Hts j tj Htj) as (Hj' & Hp & Hw). split; [done|]. split; [done|].
      by rewrite Hpd, decide_False by lia.
  - intros j Hj Hjn. apply lookup_insert_None in Hjn as [Hjn Hji]. rewrite Hpd, decide_False by lia. by apply Hnt.
  - intros n e Hn. destruct (Hm n e Hn) as (? & ? & tn & Htn & Hw). split; [done|]. split; [done|]. exists tn.
    rewrite lookup_insert_ne by (intros ->; congruence). split; [done|]. by rewrite (Hpt _ _ _ Htn).
  - intros n tn Hn HMn. destruct (vpn_split n Hn) as (? & ? & _). destruct (decide (n / 1024 = i)) as [Hni|Hni].
    + rewrite Hni, lookup_insert_eq. intros [= <-]. by rewrite pword_zero by (done || lia).
    + rewrite lookup_insert_ne by done. intros Htn. rewrite (Hpt _ _ _ Htn). by apply Hnm.
Qed.

Lemma walk_alloc m l R d T M n :
  vm_ok m l R d T M → 0 ≤ n < NVPN → T !! (n / 1024) = None →
  match l with
  | [] => walkpgdir d (PGSIZE * n) true m = Ok (0, m)
  | t :: l' => ∃ m', walkpgdir d (PGSIZE * n) true m = Ok (t + 4 * (n mod 1024), m') ∧ t + 4 * (n mod 1024) ≠ 0 ∧
      vm_ok m' l' R d (<[n / 1024 := t]> T) M ∧ ∀ x, x ≠ d → x ≠ t → pgc m' x = pgc m x
  end.
Proof.
  intros Hv Hn Ht. pose proof Hv as [Hk Hs Hnd]. destruct (vpn_split n Hn) as (Hn1 & Hn2 & _).
  unfold walkpgdir. rewrite PDX_va0, PTX_va0 by done. destruct (so_page _ _ _ _ Hs) as [Hd Hde].
  rewrite <- (Z2Nat.id (n / 1024)) by lia. rewrite load_word_Ok, bind_ret by (done || lia || apply (ko_pages _ _ _ Hk)).
  rewrite Z2Nat.id by lia. rewrite (so_notab _ _ _ _ Hs) by done.
  pose proof (kalloc_spec _ m l Hk) as Ha. destruct l as [|t l]; [by rewrite Ha, bind_ret|].
  destruct Ha as (m1 & -> & Hk1 & Hpt & Htl & Hpg). rewrite bind_ret. pose proof (page_range _ t Hpt) as Htr.
  rewrite decide_False by lia. pose proof Hpt as [Htd Hte].
  assert (t ∉ d :: tabs T) as Htn. { intros Hin. apply (vo_apart _ _ _ _ _ _ Hv) in Hin as (_ & _ & []). left. }
  apply not_elem_of_cons in Htn as [Htd' Htt].
  rewrite fill_page_Ok, bind_ret by (done || apply (ko_pages _ _ _ Hk1)). set (m2 := set_pgc t _ m1).
  assert (kmem_ok m2 l) as Hk2 by (apply kmem_set; [done|done|by apply wf_fill]).
  rewrite <- (Z2Nat.id (n / 1024)) by lia. rewrite store_word_Ok, bind_ret by (done || lia || apply (ko_pages _ _ _ Hk2)).
  rewrite Z2Nat.id by lia. eexists. split; [done|]. split; [lia|].
  change (Z.lor (Z.lor (Z.lor (V2P t) PTE_P) PTE_W) PTE_U) with (tab_entry t).
  assert (d ∉ l) as Hdl. { pose proof (proj2 (proj2 (vo_apart _ _ _ _ _ _ Hv d ltac:(left)))) as Hx. intros ?. apply Hx. by right. }
  assert (∀ x, x ≠ d → x ≠ t → pgc (set_pword d (Z.to_nat (n / 1024)) (tab_entry t) m2) x = pgc m x) as Hoth.
  { intros x Hxd Hxt. unfold set_pword, m2. rewrite !pgc_set, !decide_False by done. apply Hpg. }
  split; [|done]. split.
  - apply kmem_set; [done|done|]. pose proof (wf_set_pword m2 d (Z.to_nat (n / 1024)) (tab_entry t) (ko_pages _ _ _ Hk2) d) as Hw.
    unfold set_pword in Hw. by rewrite pgc_set, decide_True in Hw by done.
  - apply (space_newtab m); try done.
    + by apply not_elem_of_cons.
    + unfold set_pword, m2. by rewrite !pgc_set, decide_False, decide_True by done.
    + intros j Hj. rewrite pword_set by (apply (ko_pages _ _ _ Hk2) || lia || apply (tab_entry_ok t Htd)).
      destruct (decide (j = _)); [by rewrite decide_True|]. rewrite decide_False by naive_solver.
      unfold pword, m2. by rewrite pgc_set, decide_False, Hpg.
    + pose proof (vo_dirs _ _ _ _ _ _ Hv) as Hdn. by apply NoDup_cons in Hdn as [? _].
  - unfold owned in *. rewrite tabs_insert by done.
    enough (d :: (t :: tabs T) ++ frames M ++ R ++ l ≡ₚ (d :: tabs T ++ frames M) ++ R ++ t :: l) as Hp; [|solve_Permutation].
    cbn [app] in *. rewrite <- app_assoc in *. by rewrite Hp.
Qed.

(** ** Mapping pages *)

Definition kept (m m' : mem) (X : list Z) : Prop := ∀ x, x ∈ X → pgc m' x = pgc m x.

Lemma kept_trans m1 m2 m3 X Y : kept m1 m2 X → kept m2 m3 Y → X ⊆ Y → kept m1 m3 X.
Proof. intros H1 H2 HXY x Hx. rewrite H2 by (by apply HXY). by apply H1. Qed.

(** All pages in play. *)
Definition total (l R : list Z) (d : Z) (T M : gmap Z Z) : list Z := owned d T M ++ R ++ l.

Lemma walk_true m l R d T M n :
  vm_ok m l R d T M → 0 ≤ n < NVPN →
  (walkpgdir d (PGSIZE * n) true m = Ok (0, m) ∧ l = []) ∨
  ∃ t m' l' T', walkpgdir d (PGSIZE * n) true m = Ok (t + 4 * (n mod 1024), m') ∧ t + 4 * (n mod 1024) ≠ 0 ∧
    T' !! (n / 1024) = Some t ∧ vm_ok m' l' R d T' M ∧ total l' R d T' M ≡ₚ total l R d T M ∧ kept m m' (frames M ++ R) ∧
    (length l ≤ S (length l'))%nat.
Proof.
  intros Hv Hn. destruct (T !! (n / 1024)) as [t|] eqn:Ht.
  - right. exists t, m, l, T. destruct (walk_Some _ _ _ _ _ _ Hv n 0 true t Hn ltac:(done) Ht) as [Hw Hz].
    rewrite Z.add_0_r in Hw. split_and!; done || lia.
  - pose proof (walk_alloc _ _ _ _ _ _ n Hv Hn Ht) as Hw. destruct l as [|t l]; [by left|]. right.
    destruct Hw as (m' & -> & Hz & Hv' & Hoth). exists t, m', l, (<[n / 1024 := t]> T).
    rewrite lookup_insert_eq. split; [done|]. split; [done|]. split; [done|]. split; [done|]. split; [|split; [|done]].
    + unfold total, owned. rewrite tabs_insert by done. solve_Permutation.
    + intros x Hx. apply Hoth; intros ->.
      * destruct (vo_apart _ _ _ _ _ _ Hv d ltac:(left)) as (? & ? & _). apply elem_of_app in Hx. naive_solver.
      * destruct (vo_apart _ _ _ _ _ _ Hv' t) as (? & ? & _).
        { right. apply (elem_tabs _ (n / 1024)). apply lookup_insert_eq. }
        apply elem_of_app in Hx. naive_solver.
Qed.

(** The [*pte = pa | perm | PTE_P] of [mappages], given the walk. *)
Lemma set_leaf m l R R' d T M n t e :
  vm_ok m l R d T M → 0 ≤ n < NVPN → T !! (n / 1024) = Some t → M !! n = None → 0 ≤ e < 2 ^ 32 → present e = true →
  (n < NUSER → page (frame e)) → total l R' d T (<[n := e]> M) ≡ₚ total l R d T M →
  ∃ m', store_word (t + 4 * (n mod 1024)) e m = Ok m' ∧ vm_ok m' l R' d T (<[n := e]> M) ∧ kept m m' (frames M ++ R).
Proof.
  intros Hv Hn Ht HM He Hp Hf Hperm. pose proof (elem_tabs _ _ _ Ht) as Htin. pose proof Hv as [Hk Hs Hnd].
  destruct (vo_apart _ _ _ _ _ _ Hv t) as (Ht1 & Ht2 & Ht3); [by right|].
  destruct (store_pte _ _ _ _ M n t e Hk Hs (vo_dirs _ _ _ _ _ _ Hv) Hn Ht Ht3 He ltac:(auto)) as (m' & -> & Hk' & Hs' & Hoth).
  exists m'. split; [done|]. unfold upd in Hs'. rewrite Hp in Hs'. split; [|].
  - split; [done|done|]. unfold total in Hperm. by rewrite Hperm.
  - intros x Hx. apply Hoth. intros ->. apply elem_of_app in Hx. naive_solver.
Qed.

Lemma total_kern l R d T M n e : M !! n = None → NUSER ≤ n → total l R d T (<[n := e]> M) ≡ₚ total l R d T M.
Proof. intros. unfold total, owned. by rewrite frames_insert_kern. Qed.

Lemma total_user l R d T M n e :
  M !! n = None → n < NUSER → total l R d T (<[n := e]> M) ≡ₚ total l (frame e :: R) d T M.
Proof. intros. unfold total, owned. rewrite frames_insert by done. solve_Permutation. Qed.

(** Mapping one user page: the frame moves from [R] into the space. *)
Lemma mappages_user m l R d T M n pg perm :
  vm_ok m l (pg :: R) d T M → 0 ≤ n < NUSER → M !! n = None → page pg → 0 ≤ perm < PGSIZE →
  (mappages d (PGSIZE * n) PGSIZE (V2P pg) perm m = Ok (-1, m) ∧ l = []) ∨
  ∃ m' l' T', mappages d (PGSIZE * n) PGSIZE (V2P pg) perm m = Ok (0, m') ∧
    vm_ok m' l' R d T' (<[n := leaf (V2P pg) perm]> M) ∧
    total l' R d T' (<[n := leaf (V2P pg) perm]> M) ≡ₚ total l (pg :: R) d T M ∧ kept m m' (frames M ++ pg :: R) ∧
    (length l ≤ S (length l'))%nat.
Proof.
  intros Hv Hn HM Hpg Hperm. pose proof Hpg as [Hd _]. destruct (V2P_direct pg Hd) as (_ & Hmod & Hpr).
  destruct (leaf_ok (V2P pg) perm) as (Hp & Ha & _ & Her); [done|unfold PHYSTOP in *; lia|done|].
  assert (frame (leaf (V2P pg) perm) = pg) as Hfr by (unfold frame; rewrite Ha; by apply P2V_V2P).
  unfold mappages. assert (PGROUNDDOWN (PGSIZE * n) = PGSIZE * n) as Hrd.
  { rewrite <- (Z.add_0_r (PGSIZE * n)) at 1. by apply PGROUNDDOWN_va. }
  rewrite Hrd. replace (u32 (PGSIZE * n + PGSIZE - 1)) with (PGSIZE * n + (PGSIZE - 1)).
  2: { rewrite u32_small; unfold PGSIZE, NUSER in *; lia. }
  rewrite PGROUNDDOWN_va, Z.sub_diag by done. change (u32 0 / PGSIZE) with 0. cbn [Z.to_nat mappages_loop].
  destruct (walk_true _ _ _ _ _ _ n Hv ltac:(unfold NVPN, NUSER in *; lia)) as [[-> ->]|(t & m1 & l1 & T1 & -> & Hz & Ht & Hv1 & Ht1 & Hk1 & Hl1)];
    rewrite bind_ret; [left; by rewrite decide_True|right].
  rewrite decide_False by done. destruct (load_pte _ _ _ _ _ _ Hv1 n t ltac:(unfold NVPN, NUSER in *; lia) Ht) as (e0 & -> & He0).
  rewrite HM in He0. rewrite bind_ret, He0. change (Z.lor (Z.lor (V2P pg) perm) PTE_P) with (leaf (V2P pg) perm).
  pose proof (total_user l1 R d T1 M n (leaf (V2P pg) perm) HM (proj2 Hn)) as Htu. rewrite Hfr in Htu.
  destruct (set_leaf _ _ _ R _ _ _ n t (leaf (V2P pg) perm) Hv1 ltac:(unfold NVPN, NUSER in *; lia) Ht HM Her Hp
    ltac:(by rewrite Hfr) Htu) as (m2 & -> & Hv2 & Hk2).
  rewrite bind_ret, decide_True by done. exists m2, l1, T1. split; [done|]. split; [done|]. split; [by rewrite Htu|].
  split; [by eapply kept_trans|done].
Qed.

Lemma mappages_loop_S fuel d a last pa perm m :
  mappages_loop (S fuel) d a last pa perm m =
  '(pte, m1) ← walkpgdir d a true m;
  if decide (pte = 0) then Ok (-1, m1)
  else
    e ← load_word m1 pte;
    if present e then Panic "remap"
    else
      m2 ← store_word pte (Z.lor (Z.lor pa perm) PTE_P) m1;
      if decide (a = last) then Ok (0, m2) else mappages_loop fuel d (u32 (a + PGSIZE)) last (u32 (pa + PGSIZE)) perm m2.
Proof. reflexivity. Qed.

(** Mapping a range of kernel pages. *)
Lemma mappages_loop_kern R d perm k : ∀ m l T M n pa,
  vm_ok m l R d T M → NUSER ≤ n → n + Z.of_nat (S k) ≤ NVPN → (∀ j, n ≤ j < n + Z.of_nat (S k) → M !! j = None) →
  pa mod PGSIZE = 0 → 0 ≤ pa → pa + PGSIZE * Z.of_nat (S k) ≤ 2 ^ 32 → 0 ≤ perm < PGSIZE →
  ∃ r m' l' T' M', mappages_loop (S k) d (PGSIZE * n) (PGSIZE * (n + Z.of_nat k)) pa perm m = Ok (r, m') ∧
    vm_ok m' l' R d T' M' ∧ total l' R d T' M' ≡ₚ total l R d T M ∧ kept m m' (frames M ++ R) ∧
    (∀ j, j < NUSER → M' !! j = M !! j) ∧
    (r = -1 ∧ l' = [] ∨ r = 0 ∧ ∀ j, M' !! j = if decide (n ≤ j < n + Z.of_nat (S k)) then Some (leaf (pa + PGSIZE * (j - n)) perm) else M !! j).
Proof.
  induction k as [|k IH]; intros m l T M n pa Hv Hn Hk HM Hmod Hpa Hpk Hperm;
    (destruct (leaf_ok pa perm) as (Hp & _ & _ & Her); [done|unfold PGSIZE in *; lia|done|]);
    rewrite mappages_loop_S;
    (destruct (walk_true _ _ _ _ _ _ n Hv ltac:(unfold NUSER in *; lia)) as [[-> ->]|(t & m1 & l1 & T1 & -> & Hz & Ht & Hv1 & Ht1 & Hk1 & Hl1)];
      rewrite bind_ret; [exists (-1), m, [], T, M; rewrite decide_True by done; split_and!; auto; done|]);
    rewrite decide_False by done;
    (destruct (load_pte _ _ _ _ _ _ Hv1 n t ltac:(unfold NUSER in *; lia) Ht) as (e0 & -> & He0));
    rewrite HM in He0 by lia; rewrite bind_ret, He0; change (Z.lor (Z.lor pa perm) PTE_P) with (leaf pa perm);
    pose proof (total_kern l1 R d T1 M n (leaf pa perm) (HM n ltac:(lia)) Hn) as Htk;
    (destruct (set_leaf _ _ _ R _ _ _ n t (leaf pa perm) Hv1 ltac:(unfold NUSER in *; lia) Ht (HM n ltac:(lia)) Her Hp
      ltac:(unfold NUSER in *; lia) Htk) as (m2 & -> & Hv2 & Hk2)); rewrite bind_ret.
  - rewrite decide_True by lia. eexists 0, m2, l1, T1, _. split; [done|]. split; [exact Hv2|]. split; [by rewrite Htk|].
    split; [by eapply kept_trans|]. split; [intros j Hj; rewrite lookup_insert_ne by lia; done|right; split; [done|]].
    intros j. destruct (decide (j = n)) as [->|Hj].
    + rewrite lookup_insert_eq, decide_True by lia. do 2 f_equal. lia.
    + rewrite lookup_insert_ne, decide_False by lia. done.
  - rewrite decide_False by (unfold PGSIZE; lia).
    rewrite (u32_small (PGSIZE * n + PGSIZE)), (u32_small (pa + PGSIZE)) by (unfold PGSIZE, NUSER, NVPN in *; lia).
    replace (PGSIZE * n + PGSIZE) with (PGSIZE * (n + 1)) by lia.
    replace (PGSIZE * (n + Z.of_nat (S k))) with (PGSIZE * (n + 1 + Z.of_nat k)) by lia.
    destruct (IH m2 l1 T1 _ (n + 1) (pa + PGSIZE) Hv2) as (r & m3 & l3 & T3 & M3 & -> & Hv3 & Ht3 & Hk3 & Hu3 & Hr);
      [lia|lia|intros j Hj; rewrite lookup_insert_ne by lia; apply HM; lia| |unfold PGSIZE; lia|lia|done|].
    { by rewrite Zplus_mod, Hmod. }
    exists r, m3, l3, T3, M3. split; [done|]. split; [done|]. split; [by rewrite Ht3, Htk|]. split.
    { eapply kept_trans; [by eapply kept_trans|exact Hk3|]. rewrite frames_insert_kern; [done|by apply HM; lia|done]. }
    split; [intros j Hj; rewrite Hu3, lookup_insert_ne by lia; done|]. destruct Hr as [?|[-> Hr]]; [by left|right; split; [done|]].
    intros j. rewrite Hr. destruct (decide (j = n)) as [->|Hj].
    + rewrite decide_False, lookup_insert_eq, decide_True by lia. do 2 f_equal. lia.
    + rewrite lookup_insert_ne by done. destruct (decide (n + 1 ≤ j < _)); [|by rewrite decide_False by lia].
      rewrite decide_True by lia. do 2 f_equal. lia.
Qed.

(** ** Unmapping pages *)

Lemma free_user m l R d T M n t e :
  vm_ok m l R d T M → 0 ≤ n < NUSER → T !! (n / 1024) = Some t → M !! n = Some e →
  ∃ m1 m2, kfree kend (frame e) m = Ok m1 ∧ store_word (t + 4 * (n mod 1024)) 0 m1 = Ok m2 ∧
    vm_ok m2 (frame e :: l) R d T (delete n M) ∧
    total (frame e :: l) R d T (delete n M) ≡ₚ total l R d T M ∧ kept m m2 (frames (delete n M) ++ R).
Proof.
  intros Hv Hn Ht He. pose proof Hv as [Hk Hs Hnd]. pose proof (elem_frames _ _ _ He (proj2 Hn)) as Hfin.
  destruct (vo_frames _ _ _ _ _ _ Hv _ Hfin) as (Hf1 & Hf2 & Hf3).
  destruct (kfree_spec _ m l (frame e) Hk (so_user _ _ _ _ Hs n e He (proj2 Hn)) Hf3) as (m1 & -> & Hk1 & Hoth1).
  assert (space_ok m1 d T M) as Hs1. { apply (space_frame m); [done|]. intros x Hx. apply Hoth1. by intros ->. }
  assert (t ∈ d :: tabs T) as Htin by (right; by eapply elem_tabs).
  destruct (vo_apart _ _ _ _ _ _ Hv t Htin) as (Ht1 & Ht2 & Ht3).
  destruct (store_pte _ _ _ _ M n t 0 Hk1 Hs1 (vo_dirs _ _ _ _ _ _ Hv) ltac:(unfold NVPN, NUSER in *; lia) Ht) as (m2 & Hst & Hk2 & Hs2 & Hoth2);
    [|lia|done|].
  { intros [Hx|Hx]%elem_of_cons; [|done]. subst. done. }
  exists m1, m2. split; [done|]. split; [done|].
  assert (total (frame e :: l) R d T (delete n M) ≡ₚ total l R d T M) as Hp.
  { unfold total, owned. rewrite (frames_delete M n e) by (done || lia). solve_Permutation. }
  assert (vm_ok m2 (frame e :: l) R d T (delete n M)) as Hv2 by (split; [done|done|by unfold total in Hp; rewrite Hp]).
  split; [done|]. split; [done|]. intros x Hx. rewrite Hoth2, Hoth1; [done|intros ->|intros ->].
  - apply elem_of_app in Hx as [Hx|Hx]; [|done]. apply (vo_frames _ _ _ _ _ _ Hv2) in Hx as (_ & _ & []). left.
  - destruct (vo_apart _ _ _ _ _ _ Hv2 t Htin) as (? & _). apply elem_of_app in Hx as [Hx|Hx]; done.
Qed.
End space.
