(* ===== verification/VmOps.v ===== *)
(** * Growing, shrinking, freeing and copying address spaces *)

From stdpp Require Import gmap.
From S2P Require Import Prelude.
From S2P Require Import Bytes.
From S2P Require Import CString.
From S2P Require Import Kalloc.
From S2P Require Import Vm.
From S2P Require Import VmSpec.

Local Open Scope Z_scope.

Section ops.
Context (kend : Z) (end_above : KERNBASE < kend).
Local Notation page := (page kend).
Local Notation kmem_ok := (kmem_ok kend).
Local Notation vm_ok := (vm_ok kend).

(** [M] without the user pages from [na] up to address [b]. *)
Definition cut (na b : Z) (M M' : gmap Z Z) : Prop :=
  ∀ n, M' !! n = if decide (na ≤ n ∧ PGSIZE * n < b) then None else M !! n.

Lemma deallocuvm_loop_S fuel d a b m :
  deallocuvm_loop kend (S fuel) d a b m =
  if decide (a < b) then
    '(pte, m1) ← walkpgdir d a false m;
    if decide (pte = 0) then deallocuvm_loop kend fuel d (u32 (u32 (PGADDR (PDX a + 1) 0 0 - PGSIZE) + PGSIZE)) b m1
    else
      e ← load_word m1 pte;
      if present e then
        if decide (PTE_ADDR e = 0) then Panic "kfree"
        else
          m2 ← kfree kend (P2V (PTE_ADDR e)) m1;
          m3 ← store_word pte 0 m2;
          deallocuvm_loop kend fuel d (u32 (a + PGSIZE)) b m3
      else deallocuvm_loop kend fuel d (u32 (a + PGSIZE)) b m1
  else Ok m.
Proof. reflexivity. Qed.

(** The leap over an absent page table goes to the next one. *)
Lemma next_tab n : 0 ≤ n < NUSER →
  u32 (u32 (PGADDR (PDX (PGSIZE * n) + 1) 0 0 - PGSIZE) + PGSIZE) = PGSIZE * (1024 * (n / 1024 + 1)).
Proof.
  intros Hn. rewrite PDX_va0 by (unfold NUSER, NVPN in *; lia). unfold PGADDR. rewrite Z.shiftl_0_l, !Z.lor_0_r, Z.shiftl_mul_pow2 by lia.
  change (2 ^ 22) with (4096 * 1024). unfold PGSIZE, NUSER in *. pose proof (Z.div_mod n 1024). pose proof (Z.mod_pos_bound n 1024).
  rewrite !(u32_small ((n / 1024 + 1) * (4096 * 1024))) by lia. rewrite (u32_small (_ - _)) by lia. rewrite u32_small by lia. lia.
Qed.

Lemma pages_between_S fuel na na' b :
  na < na' → PGSIZE * na < b → (pages_between (PGSIZE * na) b ≤ S fuel)%nat → (pages_between (PGSIZE * na') b ≤ fuel)%nat.
Proof.
  unfold pages_between, PGSIZE. intros. assert ((b - 4096 * na' + 4096 - 1) / 4096 ≤ (b - 4096 * na + 4096 - 1) / 4096 - 1); [|lia].
  replace (b - 4096 * na + 4096 - 1) with (b - 4096 * na - 1 + 1 * 4096) by lia. rewrite Z.div_add by lia.
  apply Z.le_trans with ((b - 4096 * na - 1) / 4096); [|lia]. apply Z.div_le_mono; lia.
Qed.

Lemma pages_between_0 na b : (pages_between (PGSIZE * na) b ≤ 0)%nat → b ≤ PGSIZE * na.
Proof. unfold pages_between, PGSIZE. intros. pose proof (Z.div_mod (b - 4096 * na + 4096 - 1) 4096). pose proof (Z.mod_pos_bound (b - 4096 * na + 4096 - 1) 4096). lia. Qed.

Lemma frames_sub M M' : (∀ n e, n < NUSER → M' !! n = Some e → M !! n = Some e) → frames M' ⊆ frames M.
Proof.
  intros Hs x Hx. unfold frames in Hx. apply list_elem_of_fmap in Hx as ([n e] & -> & Hx). apply list_elem_of_filter in Hx as [Hn Hx].
  apply elem_of_map_to_list in Hx. eapply elem_frames; [by apply Hs|done].
Qed.

Lemma cut_frames na b M M' : cut na b M M' → frames M' ⊆ frames M.
Proof. intros Hc. apply frames_sub. intros n e _. rewrite Hc. by case_decide. Qed.

Lemma cut_nil na b M : b ≤ PGSIZE * na → cut na b M M.
Proof. intros Hb n. rewrite decide_False; [done|unfold PGSIZE in *; lia]. Qed.

Lemma cut_S na b M M' : PGSIZE * na < b → cut (na + 1) b (delete na M) M' → cut na b M M'.
Proof.
  intros Hb Hc n. rewrite Hc. destruct (decide (n = na)) as [->|Hne].
  - rewrite decide_False by lia. by rewrite decide_True, lookup_delete_eq by lia.
  - rewrite lookup_delete_ne by done. destruct (decide (na + 1 ≤ n ∧ _)), (decide (na ≤ n ∧ _)); done || lia.
Qed.

Lemma cut_leap na na' b M M' : na ≤ na' → (∀ n, na ≤ n < na' → M !! n = None) → cut na' b M M' → cut na b M M'.
Proof.
  intros Hle Hno Hc n. rewrite Hc. destruct (decide (na ≤ n < na')) as [Hin|Hout].
  - rewrite decide_False, (Hno n Hin) by lia. by case_decide.
  - destruct (decide (na' ≤ n ∧ _)), (decide (na ≤ n ∧ _)); done || lia.
Qed.

Lemma user_addr m d T M n e : space_ok kend m d T M → n < NUSER → M !! n = Some e → PTE_ADDR e ≠ 0.
Proof.
  intros Hs Hn He H0. destruct (so_user _ _ _ _ _ Hs n e He Hn) as [_ Hle]. unfold frame in Hle. rewrite H0 in Hle.
  change (P2V 0) with KERNBASE in Hle. lia.
Qed.

(** No page is mapped under an absent page table. *)
Lemma no_tab m d T M na : space_ok kend m d T M → T !! (na / 1024) = None →
  ∀ n, na ≤ n < 1024 * (na / 1024 + 1) → M !! n = None.
Proof.
  intros Hs Ht n Hn. destruct (M !! n) as [e|] eqn:HMn; [|done].
  destruct (so_map _ _ _ _ _ Hs n e HMn) as (_ & _ & t & Htn & _). pose proof (Z.div_mod na 1024 ltac:(lia)).
  pose proof (Z.mod_pos_bound na 1024 ltac:(lia)).
  replace (n / 1024) with (na / 1024) in Htn; [congruence|]. apply Z.div_unique with (n - 1024 * (na / 1024)); lia.
Qed.

Lemma deallocuvm_loop_spec R d T b fuel : b ≤ KERNBASE → ∀ na m l M,
  vm_ok m l R d T M → 0 ≤ na → (pages_between (PGSIZE * na) b ≤ fuel)%nat →
  ∃ m' l' M', deallocuvm_loop kend fuel d (PGSIZE * na) b m = Ok m' ∧ vm_ok m' l' R d T M' ∧ cut na b M M' ∧
    total l' R d T M' ≡ₚ total l R d T M ∧ kept m m' (frames M' ++ R).
Proof.
  intros Hb. induction fuel as [|fuel IH]; intros na m l M Hv Hna Hf.
  { apply pages_between_0 in Hf. exists m, l, M. cbn. rewrite decide_False by lia. by split_and!; try apply cut_nil. }
  rewrite deallocuvm_loop_S. destruct (decide (PGSIZE * na < b)) as [Hlt|Hge].
  2: { exists m, l, M. split_and!; try done. apply cut_nil. lia. }
  assert (0 ≤ na < NUSER) as Hn by (unfold KERNBASE, NUSER, PGSIZE in *; lia).
  assert (0 ≤ na < NVPN) as Hn' by (unfold NUSER, NVPN in *; lia). pose proof (vo_space _ _ _ _ _ _ _ Hv) as Hs.
  destruct (T !! (na / 1024)) as [t|] eqn:Ht.
  - destruct (walk_Some _ _ _ _ _ _ _ Hv na 0 false t Hn' ltac:(done) Ht) as [Hw Hz]. rewrite Z.add_0_r in Hw.
    rewrite Hw, bind_ret, decide_False by done. destruct (load_pte _ _ _ _ _ _ _ Hv na t Hn' Ht) as (e & -> & He). rewrite bind_ret.
    rewrite (u32_small (PGSIZE * na + PGSIZE)) by (unfold PGSIZE, NUSER in *; lia).
    replace (PGSIZE * na + PGSIZE) with (PGSIZE * (na + 1)) by lia.
    pose proof (pages_between_S fuel na (na + 1) b ltac:(lia) Hlt Hf) as Hf'.
    destruct (M !! na) as [e'|] eqn:HM.
    + destruct He as [-> ->]. destruct (free_user _ _ _ _ _ _ _ na t e' Hv Hn Ht HM) as (m1 & m2 & Hkf & Hst & Hv2 & Ht2 & Hk2).
      rewrite decide_False by exact (user_addr m d T M na e' Hs (proj2 Hn) HM). fold (frame e'). rewrite Hkf, bind_ret, Hst, bind_ret.
      destruct (IH (na + 1) m2 _ _ Hv2 ltac:(lia) Hf') as (m' & l' & M' & -> & Hv' & Hc & Htot & Hk').
      exists m', l', M'. split; [done|]. split; [done|]. split; [by apply cut_S|split; [by rewrite Htot, Ht2|]].
      pose proof (cut_frames _ _ _ _ Hc). intros x Hx. rewrite Hk' by done. apply Hk2. set_solver.
    + rewrite He. destruct (IH (na + 1) m _ _ Hv ltac:(lia) Hf') as (m' & l' & M' & -> & Hv' & Hc & Htot & Hk').
      exists m', l', M'. split; [done|]. split; [done|]. split; [|done]. apply cut_S; [done|]. by rewrite delete_id.
  - pose proof (walk_None _ _ _ _ _ _ _ Hv na 0 Hn' ltac:(done) Ht) as Hw. rewrite Z.add_0_r in Hw.
    rewrite Hw, bind_ret, decide_True by done. rewrite next_tab by done.
    pose proof (Z.div_mod na 1024 ltac:(lia)). pose proof (Z.mod_pos_bound na 1024 ltac:(lia)).
    destruct (IH (1024 * (na / 1024 + 1)) m l M Hv ltac:(lia)) as (m' & l' & M' & -> & Hv' & Hc & Htot & Hk').
    { eapply pages_between_S; [|exact Hlt|exact Hf]. lia. }
    exists m', l', M'. split; [done|]. split; [done|]. split; [|done]. eapply cut_leap; [|by eapply no_tab|done]. lia.
Qed.

(** How many pages hold [x] bytes. *)
Definition npages (x : Z) : Z := (x + PGSIZE - 1) / PGSIZE.

Lemma npages_lt n b : PGSIZE * n < b ↔ n < npages b.
Proof.
  unfold npages, PGSIZE. pose proof (Z.div_mod (b + 4096 - 1) 4096). pose proof (Z.mod_pos_bound (b + 4096 - 1) 4096). lia.
Qed.

Lemma npages_up x : 0 ≤ x ≤ KERNBASE → PGROUNDUP x = PGSIZE * npages x ∧ 0 ≤ npages x.
Proof. intros. split; [by apply PGROUNDUP_up|]. unfold npages, PGSIZE. apply Z.div_pos; lia. Qed.

Lemma deallocuvm_spec m l R d T M oldsz newsz :
  vm_ok m l R d T M → 0 ≤ newsz → oldsz ≤ KERNBASE →
  ∃ m' l' M', deallocuvm kend d oldsz newsz m = Ok (Z.min oldsz newsz, m') ∧ vm_ok m' l' R d T M' ∧
    cut (npages newsz) oldsz M M' ∧ total l' R d T M' ≡ₚ total l R d T M ∧ kept m m' (frames M' ++ R).
Proof.
  intros Hv Hn Ho. unfold deallocuvm. destruct (decide (oldsz ≤ newsz)) as [Hle|Hgt].
  - exists m, l, M. rewrite Z.min_l by done. split_and!; try done. apply cut_nil. pose proof (npages_lt (npages newsz) newsz). lia.
  - destruct (npages_up newsz ltac:(lia)) as [-> H0].
    destruct (deallocuvm_loop_spec R d T oldsz _ Ho (npages newsz) m l M Hv H0 (le_n _)) as (m' & l' & M' & -> & ?).
    rewrite bind_ret, Z.min_r by lia. by exists m', l', M'.
Qed.

(** ** Pages in use outside the space *)

Lemma vm_kalloc m pg l R d T M :
  vm_ok m (pg :: l) R d T M →
  ∃ m', kalloc m = Ok (pg, m') ∧ pg ≠ 0 ∧ page pg ∧ vm_ok m' l (pg :: R) d T M ∧
    total l (pg :: R) d T M ≡ₚ total (pg :: l) R d T M ∧ ∀ x, pgc m' x = pgc m x.
Proof.
  intros [Hk Hs Hn]. destruct (kalloc_spec _ m _ Hk) as (m' & -> & Hk' & Hp & _ & Hx). exists m'. split; [done|].
  pose proof (page_range _ _ Hp). split; [lia|]. split; [done|].
  assert (total l (pg :: R) d T M ≡ₚ total (pg :: l) R d T M) as Ht by (unfold total; solve_Permutation).
  split; [|done]. split; [done|apply (space_frame _ m); [done|intros; apply Hx]|]. unfold total in Ht. by rewrite Ht.
Qed.

Lemma vm_kalloc_nil m R d T M : vm_ok m [] R d T M → kalloc m = Ok (0, m).
Proof. intros [Hk _ _]. exact (kalloc_spec _ m _ Hk). Qed.

Lemma vm_set m l R d T M pg p :
  vm_ok m l (pg :: R) d T M → wf_page p → vm_ok (set_pgc pg p m) l (pg :: R) d T M ∧ kept m (set_pgc pg p m) (frames M ++ R).
Proof.
  intros Hv Hp. pose proof Hv as [Hk Hs Hn]. destruct (vo_R _ _ _ _ _ _ _ Hv pg ltac:(left)) as [Ho Hl]. unfold owned in Ho.
  split.
  - split; [by apply kmem_set| |done]. apply (space_frame _ m); [done|]. intros x Hx. rewrite pgc_set, decide_False; [done|].
    intros ->. apply Ho. set_solver.
  - pose proof (vo_rest _ _ _ _ _ _ _ Hv) as Hr. apply NoDup_cons in Hr as [Hr _]. intros x Hx.
    rewrite pgc_set, decide_False; [done|]. intros ->. set_solver.
Qed.

Lemma vm_kfree m l R d T M pg :
  vm_ok m l (pg :: R) d T M → page pg →
  ∃ m', kfree kend pg m = Ok m' ∧ vm_ok m' (pg :: l) R d T M ∧ total (pg :: l) R d T M ≡ₚ total l (pg :: R) d T M ∧
    kept m m' (frames M ++ R).
Proof.
  intros Hv Hp. pose proof Hv as [Hk Hs Hn]. destruct (vo_R _ _ _ _ _ _ _ Hv pg ltac:(left)) as [Ho Hl]. unfold owned in Ho.
  destruct (kfree_spec _ m l pg Hk Hp Hl) as (m' & -> & Hk' & Hx). exists m'. split; [done|].
  assert (total (pg :: l) R d T M ≡ₚ total l (pg :: R) d T M) as Ht by (unfold total; solve_Permutation). split; [|split; [done|]].
  - split; [done| |unfold total in Ht; by rewrite Ht]. apply (space_frame _ m); [done|]. intros x Hin. apply Hx. intros ->. set_solver.
  - pose proof (vo_rest _ _ _ _ _ _ _ Hv) as Hr. apply NoDup_cons in Hr as [Hr _]. intros x Hin. apply Hx. intros ->. set_solver.
Qed.

(** [kalloc] and [memset] to zero. *)
Lemma vm_zalloc m pg l R d T M :
  vm_ok m (pg :: l) R d T M →
  ∃ m1 m2, kalloc m = Ok (pg, m1) ∧ fill_page pg 0 m1 = Ok m2 ∧ pg ≠ 0 ∧ page pg ∧ vm_ok m2 l (pg :: R) d T M ∧
    total l (pg :: R) d T M ≡ₚ total (pg :: l) R d T M ∧ kept m m2 (frames M ++ R) ∧ pgc m2 pg = replicate PGBYTES 0.
Proof.
  intros Hv. destruct (vm_kalloc _ _ _ _ _ _ _ Hv) as (m1 & Ha & Hpz & Hpg & Hv1 & Ht1 & Hx1). exists m1.
  rewrite fill_page_Ok by (apply Hpg || apply (ko_pages _ _ _ (vo_kmem _ _ _ _ _ _ _ Hv1))).
  destruct (vm_set _ _ _ _ _ _ pg (replicate PGBYTES (u8 0)) Hv1 ltac:(by apply wf_fill)) as [Hv2 Hk2].
  eexists. split; [done|]. split; [reflexivity|]. split; [done|]. split; [done|]. split; [done|]. split; [done|]. split.
  - intros x Hx. rewrite Hk2 by done. apply Hx1.
  - rewrite pgc_set, decide_True by done. reflexivity.
Qed.

(** ** Growing *)

Definition rw_user : Z := Z.lor PTE_W PTE_U.

(** The pages [na, nb) were added to [M0], filled with zeroes. *)
Definition grown (m : mem) (na nb : Z) (M0 M : gmap Z Z) : Prop := ∀ n,
  if decide (na ≤ n < nb) then ∃ pg, M !! n = Some (leaf (V2P pg) rw_user) ∧ page pg ∧ pgc m pg = replicate PGBYTES 0
  else M !! n = M0 !! n.

Lemma frame_leaf pg perm : direct pg → 0 ≤ perm < PGSIZE → frame (leaf (V2P pg) perm) = pg.
Proof.
  intros Hd Hp. destruct (V2P_direct pg Hd) as (_ & Hm & Hr). unfold frame.
  destruct (leaf_ok (V2P pg) perm) as (_ & -> & _); [done|unfold PHYSTOP in *; lia|done|]. by apply P2V_V2P.
Qed.

Lemma grown_frames m m' na nb M0 M : nb ≤ NUSER → grown m na nb M0 M → kept m m' (frames M) → grown m' na nb M0 M.
Proof.
  intros Hnb Hg Hk n. specialize (Hg n). case_decide; [|done]. destruct Hg as (pg & He & [Hd Hp] & Hz). exists pg.
  split; [done|]. split; [done|]. rewrite Hk; [done|].
  rewrite <- (frame_leaf pg rw_user Hd ltac:(done)). eapply elem_frames; [done|lia].
Qed.

Lemma grown_S m na n M0 M pg :
  na ≤ n < NUSER → grown m na n M0 M → page pg → pgc m pg = replicate PGBYTES 0 →
  grown m na (n + 1) M0 (<[n := leaf (V2P pg) rw_user]> M).
Proof.
  intros Hn Hg Hp Hz k. specialize (Hg k). destruct (decide (k = n)) as [->|Hk].
  - rewrite decide_True, lookup_insert_eq by lia. by exists pg.
  - rewrite lookup_insert_ne by done. destruct (decide (na ≤ k < n)), (decide (na ≤ k < n + 1)); done || lia.
Qed.

(** Undoing the growth restores the old map. *)
Lemma grown_undo m na nb b M0 M M' :
  grown m na nb M0 M → cut na b M M' → PGSIZE * nb < b + PGSIZE → (∀ n, na ≤ n → PGSIZE * n < b → M0 !! n = None) → M' = M0.
Proof.
  intros Hg Hc Hb H0. apply map_eq. intros n. rewrite Hc. specialize (Hg n). destruct (decide (na ≤ n ∧ PGSIZE * n < b)) as [Hn|Hn]; [by rewrite H0 by lia|].
  rewrite decide_False in Hg; [done|]. unfold PGSIZE in *. lia.
Qed.

Lemma allocuvm_loop_S fuel d a oldsz newsz m :
  allocuvm_loop kend (S fuel) d a oldsz newsz m =
  if decide (a < newsz) then
    '(pg, m1) ← kalloc m;
    if decide (pg = 0) then '(_, m2) ← deallocuvm kend d newsz oldsz m1; Ok (0, m2)
    else
      m2 ← fill_page pg 0 m1;
      '(r, m3) ← mappages d a PGSIZE (V2P pg) rw_user m2;
      if decide (r < 0) then
        '(_, m4) ← deallocuvm kend d newsz oldsz m3;
        m5 ← kfree kend pg m4;
        Ok (0, m5)
      else allocuvm_loop kend fuel d (u32 (a + PGSIZE)) oldsz newsz m3
  else Ok (newsz, m).
Proof. reflexivity. Qed.

Lemma grown_old m na nb M0 M : (∀ n, na ≤ n < nb → M0 !! n = None) → grown m na nb M0 M → frames M0 ⊆ frames M.
Proof.
  intros H0 Hg. apply frames_sub. intros n e _ He. specialize (Hg n). case_decide as Hn; [by rewrite H0 in He|by rewrite Hg].
Qed.

Lemma kept_sub m m' X Y : kept m m' Y → X ⊆ Y → kept m m' X.
Proof. intros Hk Hs x Hx. apply Hk, Hs, Hx. Qed.

Lemma kept_mono m m' X Y X' Y' : kept m m' (X' ++ Y') → X ⊆ X' → Y ⊆ Y' → kept m m' (X ++ Y).
Proof. intros Hk HX HY. eapply kept_sub; [exact Hk|]. apply list_subseteq_app_iff_l. split; [by apply list_subseteq_app_l|by apply list_subseteq_app_r]. Qed.
Lemma kept_same m1 m2 m3 X : kept m1 m2 X → kept m2 m3 X → kept m1 m3 X.
Proof. intros H1 H2. by eapply kept_trans. Qed.
Lemma kept_l m m' X Y : kept m m' (X ++ Y) → kept m m' X.
Proof. intros Hk. eapply kept_sub; [exact Hk|]. intros x Hx. apply elem_of_app. by left. Qed.
Lemma sub_cons (x : Z) (R : list Z) : R ⊆ x :: R.
Proof. intros y Hy. by right. Qed.

Section grow.
Context (R : list Z) (d oldsz newsz : Z) (M0 : gmap Z Z).
Context (Hold : 0 ≤ oldsz) (Hle : oldsz ≤ newsz) (Hnew : newsz < KERNBASE).
Context (Hfresh : ∀ n, npages oldsz ≤ n → PGSIZE * n < newsz → M0 !! n = None).

(** What the loop establishes, from page [na] of a state [m] with all pages
    [tot] of which [avail] are free: each iteration takes at most two. *)
Definition grow_post (m : mem) (tot : list Z) (avail : nat) (na : Z) (o : outcome (Z * mem)) : Prop :=
  ∃ r m' l' T' M', o = Ok (r, m') ∧ vm_ok m' l' R d T' M' ∧ total l' R d T' M' ≡ₚ tot ∧ kept m m' (frames M0 ++ R) ∧
    (r = newsz ∧ grown m' (npages oldsz) (npages newsz) M0 M' ∨ r = 0 ∧ M' = M0 ∧ Z.of_nat avail < 2 * (npages newsz - na)).

Lemma grow_undo m l R' T M na :
  vm_ok m l R' d T M → grown m (npages oldsz) na M0 M → PGSIZE * na < newsz + PGSIZE →
  ∃ r m' l', deallocuvm kend d newsz oldsz m = Ok (r, m') ∧ vm_ok m' l' R' d T M0 ∧
    total l' R' d T M0 ≡ₚ total l R' d T M ∧ kept m m' (frames M0 ++ R').
Proof.
  intros Hv Hg Hna. destruct (deallocuvm_spec m l R' d T M newsz oldsz Hv Hold ltac:(lia)) as (m' & l' & M' & Hd & Hv' & Hc & Ht & Hk).
  assert (M' = M0) as -> by (by eapply grown_undo). eauto 8.
Qed.

Lemma grow_done m l T M na :
  vm_ok m l R d T M → newsz ≤ PGSIZE * na → PGSIZE * na < newsz + PGSIZE → grown m (npages oldsz) na M0 M →
  grow_post m (total l R d T M) (length l) na (Ok (newsz, m)).
Proof.
  intros Hv Hge Hlt Hg. exists newsz, m, l, T, M. split_and!; try done. left. split; [done|].
  replace (npages newsz) with na; [done|]. pose proof (npages_lt na newsz). pose proof (npages_lt (na - 1) newsz). lia.
Qed.

Lemma allocuvm_loop_spec fuel : ∀ na m l T M,
  vm_ok m l R d T M → npages oldsz ≤ na → PGSIZE * na < newsz + PGSIZE → grown m (npages oldsz) na M0 M →
  (pages_between (PGSIZE * na) newsz ≤ fuel)%nat →
  grow_post m (total l R d T M) (length l) na (allocuvm_loop kend fuel d (PGSIZE * na) oldsz newsz m).
Proof.
  induction fuel as [|fuel IH]; intros na m l T M Hv Hna Hlt Hg Hf.
  { apply pages_between_0 in Hf. cbn. rewrite decide_False by lia. by eapply grow_done. }
  rewrite allocuvm_loop_S. destruct (decide (PGSIZE * na < newsz)) as [Hl|Hge]; [|eapply grow_done; eauto; lia].
  assert (0 ≤ na < NUSER) as Hn. { destruct (npages_up oldsz) as [_ ?]; [lia|]. unfold KERNBASE, NUSER, PGSIZE in *. lia. }
  assert (frames M0 ⊆ frames M) as Hsub.
  { eapply grown_old; [|exact Hg]. intros n Hn'. apply Hfresh; [lia|]. unfold PGSIZE in *. lia. }
  assert (M !! na = None) as HMna. { specialize (Hg na). rewrite decide_False in Hg by lia. rewrite Hg. by apply Hfresh. }
  destruct l as [|pg l].
  { rewrite (vm_kalloc_nil _ _ _ _ _ Hv), bind_ret, decide_True by done.
    destruct (grow_undo m [] R T M na Hv Hg Hlt) as (r & m' & l' & -> & Hv' & Ht & Hk). rewrite bind_ret.
    exists 0, m', l', T, M0. split_and!; try done. right. pose proof (proj1 (npages_lt na newsz) Hl). split_and!; [done|done|cbn; lia]. }
  destruct (vm_zalloc _ _ _ _ _ _ _ Hv) as (m1 & m2 & -> & Hfill & Hpz & Hpg & Hv2 & Ht1 & Hk2 & Hz2).
  rewrite bind_ret, decide_False, Hfill, bind_ret by done.
  assert (grown m2 (npages oldsz) na M0 M) as Hg2.
  { eapply grown_frames; [|exact Hg|exact (kept_l _ _ _ _ Hk2)]. lia. }
  destruct (mappages_user _ m2 l R d T M na pg rw_user Hv2 Hn HMna Hpg ltac:(done)) as [[-> ->]|(m3 & l3 & T3 & -> & Hv3 & Ht3 & Hk3 & Hl3)];
    rewrite bind_ret.
  - rewrite decide_True by lia. destruct (grow_undo m2 [] (pg :: R) T M na Hv2 Hg2 Hlt) as (r & m4 & l4 & -> & Hv4 & Ht4 & Hk4).
    rewrite bind_ret. destruct (vm_kfree _ _ _ _ _ _ _ Hv4 Hpg) as (m5 & -> & Hv5 & Ht5 & Hk5). rewrite bind_ret.
    exists 0, m5, (pg :: l4), T, M0. split; [done|]. split; [done|]. split; [by rewrite Ht5, Ht4|].
    split; [|right; pose proof (proj1 (npages_lt na newsz) Hl); split_and!; [done|done|cbn; lia]].
    eapply kept_same; [exact (kept_mono _ _ _ _ _ _ Hk2 Hsub ltac:(done))|].
    eapply kept_same; [exact (kept_mono _ _ _ _ _ _ Hk4 ltac:(done) (sub_cons _ _))|done].
  - rewrite decide_False by lia. rewrite (u32_small (PGSIZE * na + PGSIZE)) by (unfold PGSIZE, NUSER in *; lia).
    replace (PGSIZE * na + PGSIZE) with (PGSIZE * (na + 1)) by lia.
    assert (frames M ⊆ frames (<[na := leaf (V2P pg) rw_user]> M)) as Hfr by (rewrite frames_insert by (done || lia); apply sub_cons).
    destruct (IH (na + 1) m3 l3 T3 _ Hv3 ltac:(lia) ltac:(lia)) as (r & m' & l' & T' & M' & -> & Hv' & Ht' & Hk' & Hr).
    { apply grown_S; [lia| |done|rewrite Hk3; [done|apply elem_of_app; right; left]].
      eapply grown_frames; [|exact Hg2|exact (kept_l _ _ _ _ Hk3)]. lia. }
    { eapply pages_between_S; [|exact Hl|exact Hf]. lia. }
    exists r, m', l', T', M'. split; [done|]. split; [done|]. split; [by rewrite Ht', Ht3, Ht1|].
    split; [|destruct Hr as [Hr|(? & ? & ?)]; [by left|right; split_and!; [done|done|cbn [length]; lia]]].
    eapply kept_same; [exact (kept_mono _ _ _ _ _ _ Hk2 Hsub ltac:(done))|].
    eapply kept_same; [exact (kept_mono _ _ _ _ _ _ Hk3 Hsub (sub_cons _ _))|done].
Qed.

Lemma allocuvm_spec m l T :
  vm_ok m l R d T M0 → grow_post m (total l R d T M0) (length l) (npages oldsz) (allocuvm kend d oldsz newsz m).
Proof.
  intros Hv. unfold allocuvm. rewrite !decide_False by lia. destruct (npages_up oldsz) as [-> H0]; [lia|].
  pose proof (npages_lt (npages oldsz - 1) oldsz). apply allocuvm_loop_spec; [done|lia|lia| |lia].
  intros n. by rewrite decide_False by lia.
Qed.
End grow.
End ops.
