(* ===== verification/VmLife.v ===== *)
(** * Whole address spaces: [freevm], [setupkvm] and [copyuvm] *)

From stdpp Require Import gmap.
From S2P Require Import Prelude.
From S2P Require Import Bytes.
From S2P Require Import CString.
From S2P Require Import Kalloc.
From S2P Require Import Vm.
From S2P Require Import VmSpec.
From S2P Require Import VmOps.

Local Open Scope Z_scope.

Section life.
Context (kend : Z) (end_above : KERNBASE < kend).
Local Notation page := (page kend).
Local Notation kmem_ok := (kmem_ok kend).
Local Notation vm_ok := (vm_ok kend).

(** ** Freeing *)

(** The directory entries from [i] on, as far as [freevm] reads them. *)
Definition dir_from (m : mem) (d : Z) (i : nat) (T : gmap Z Z) : Prop :=
  (∀ j t, T !! j = Some t → Z.of_nat i ≤ j < 1024 ∧ page t ∧ pword m d (Z.to_nat j) = tab_entry t) ∧
  (∀ j, Z.of_nat i ≤ j < 1024 → T !! j = None → present (pword m d (Z.to_nat j)) = false).

Lemma dir_next m m' d i T :
  dir_from m d i T → pgc m' d = pgc m d → dir_from m' d (S i) (delete (Z.of_nat i) T).
Proof.
  intros [Ht Hn] Hd. split.
  - intros j t Hj. apply lookup_delete_Some in Hj as [Hji Hj]. destruct (Ht j t Hj) as (? & ? & Hw). split; [lia|]. split; [done|].
    unfold pword in *. by rewrite Hd.
  - intros j Hj Hnj. rewrite lookup_delete_ne in Hnj by lia. unfold pword. rewrite Hd. apply Hn; [lia|done].
Qed.

Lemma tabs_delete T i t : T !! i = Some t → tabs T ≡ₚ t :: tabs (delete i T).
Proof. intros. rewrite <- (insert_delete_id T i t) at 1 by done. apply tabs_insert, lookup_delete_eq. Qed.

Lemma freevm_loop_spec R d n : ∀ i m l T,
  (i + n = NPDENTRIES)%nat → kmem_ok m l → page d → dir_from m d i T → NoDup (d :: tabs T ++ R ++ l) →
  ∃ m' l', freevm_loop kend n i d m = Ok m' ∧ kmem_ok m' l' ∧ l' ≡ₚ tabs T ++ l ∧ kept m m' (d :: R).
Proof.
  induction n as [|n IH]; intros i m l T Hi Hk Hd HT Hnd; unfold NPDENTRIES in *; cbn [freevm_loop].
  { assert (T = ∅) as ->; [|by exists m, l]. apply map_empty. intros j. apply eq_None_not_Some. intros [t Ht]. apply HT in Ht. lia. }
  pose proof Hd as [Hdd _]. rewrite load_word_Ok, bind_ret by (done || lia || apply (ko_pages _ _ _ Hk)).
  destruct (T !! Z.of_nat i) as [t|] eqn:Ht.
  - destruct (proj1 HT _ _ Ht) as (_ & Htp & Hw). rewrite Nat2Z.id in Hw. rewrite Hw.
    destruct (tab_entry_ok t (proj1 Htp)) as (-> & Hf & _). fold (frame (tab_entry t)). rewrite Hf.
    rewrite (tabs_delete _ _ _ Ht) in Hnd. apply NoDup_cons in Hnd as [Hdn Hnd]. cbn in Hnd. apply NoDup_cons in Hnd as [Htn Hnd].
    assert (t ≠ d) as Htd. { intros ->. apply Hdn. by left. }
    destruct (kfree_spec _ m l t Hk Htp) as (m1 & -> & Hk1 & Hx1). { intros ?. apply Htn. rewrite !elem_of_app. auto. }
    rewrite bind_ret.
    destruct (IH (S i) m1 (t :: l) (delete (Z.of_nat i) T)) as (m' & l' & -> & Hk' & Hl' & Hkept); try done.
    + lia.
    + eapply dir_next; [done|by apply Hx1].
    + apply NoDup_cons. split.
      * intros Hin. apply Hdn. revert Hin. rewrite !elem_of_app, !elem_of_cons. naive_solver.
      * enough (tabs (delete (Z.of_nat i) T) ++ R ++ t :: l ≡ₚ t :: tabs (delete (Z.of_nat i) T) ++ R ++ l) as -> by (by apply NoDup_cons).
        solve_Permutation.
    + exists m', l'. split; [done|]. split; [done|]. split; [rewrite Hl', (tabs_delete _ _ _ Ht); solve_Permutation|].
      intros x Hx. rewrite Hkept by done. apply Hx1. intros ->. apply elem_of_cons in Hx as [Hx|Hx]; [done|].
      apply Htn. rewrite !elem_of_app. auto.
  - pose proof (proj2 HT (Z.of_nat i) ltac:(lia) Ht) as Hp. rewrite Nat2Z.id in Hp. rewrite Hp, bind_ret.
    destruct (IH (S i) m l T) as (m' & l' & -> & ?); try done; [lia| |by exists m', l'].
    rewrite <- (delete_id T (Z.of_nat i)) by done. by eapply dir_next.
Qed.

Lemma freevm_spec m l R d T M :
  vm_ok m l R d T M →
  ∃ m' l', freevm kend d m = Ok m' ∧ kmem_ok m' l' ∧ l' ≡ₚ owned d T M ++ l ∧ kept m m' R.
Proof.
  intros Hv. unfold freevm. pose proof (so_page _ _ _ _ _ (vo_space _ _ _ _ _ _ _ Hv)) as Hd. pose proof (page_range _ _ Hd).
  rewrite decide_False by lia.
  destruct (deallocuvm_spec kend end_above m l R d T M KERNBASE 0 Hv ltac:(lia) ltac:(lia)) as (m1 & l1 & M1 & -> & Hv1 & Hc & Ht1 & Hk1).
  rewrite bind_ret. assert (frames M1 = []) as Hnf.
  { destruct (frames M1) as [|x xs] eqn:Hf; [done|]. assert (x ∈ frames M1) as Hx by (rewrite Hf; left).
    unfold frames in Hx. apply list_elem_of_fmap in Hx as ([n e] & _ & Hx). apply list_elem_of_filter in Hx as [Hn Hx].
    apply elem_of_map_to_list in Hx. rewrite Hc in Hx. cbn in Hn. change (npages 0) with 0 in Hx. case_decide as Hne; [done|].
    destruct (so_map _ _ _ _ _ (vo_space _ _ _ _ _ _ _ Hv) n e Hx) as ([] & _). unfold NUSER, PGSIZE, KERNBASE in *. lia. }
  pose proof Hv1 as [Hkm1 Hs1 Hnd1]. unfold owned in Hnd1. rewrite Hnf, app_nil_r in Hnd1. cbn [app] in Hnd1.
  destruct (freevm_loop_spec R d NPDENTRIES 0 m1 l1 T) as (m2 & l2 & -> & Hk2 & Hl2 & Hkept2); [done|done|done| |done|].
  { split; [intros j t; apply (so_tabs _ _ _ _ _ Hs1)|intros j; apply (so_notab _ _ _ _ _ Hs1)]. }
  rewrite bind_ret. apply NoDup_cons in Hnd1 as [Hdn _].
  destruct (kfree_spec _ m2 l2 d Hk2 Hd) as (m3 & -> & Hk3 & Hx3). { rewrite Hl2. rewrite !elem_of_app in *. naive_solver. }
  exists m3, (d :: l2). split; [done|]. split; [done|]. split.
  - unfold total, owned in Ht1. rewrite Hnf, app_nil_r in Ht1. rewrite Hl2. apply (Permutation_app_inv_l R).
    transitivity ((d :: tabs T) ++ R ++ l1); [solve_Permutation|]. rewrite Ht1. unfold owned. solve_Permutation.
  - intros x Hx. rewrite Hx3, Hkept2; [|by right|].
    + apply Hk1. apply elem_of_app. by right.
    + intros ->. apply Hdn. rewrite !elem_of_app. auto.
Qed.

(** ** The kernel half *)

Definition k_vpn (k : kmap_entry) : Z := k_virt k / PGSIZE.
Definition k_size (k : kmap_entry) : Z := u32 (k_phys_end k - k_phys_start k).
Definition k_count (k : kmap_entry) : Z := k_size k / PGSIZE.
Definition k_in (k : kmap_entry) (n : Z) : Prop := k_vpn k ≤ n < k_vpn k + k_count k.

(** The entry a kernel map gives to a page. *)
Fixpoint kern_of (ks : list kmap_entry) (n : Z) : option Z :=
  match ks with
  | [] => None
  | k :: ks' => if decide (k_vpn k ≤ n < k_vpn k + k_count k) then Some (leaf (k_phys_start k + PGSIZE * (n - k_vpn k)) (k_perm k))
                else kern_of ks' n
  end.

Record entry_ok (k : kmap_entry) : Prop := {
  eo_virt : k_virt k = PGSIZE * k_vpn k;
  eo_size : k_size k = PGSIZE * k_count k;
  eo_count : 1 ≤ k_count k;
  eo_kern : NUSER ≤ k_vpn k;
  eo_top : k_vpn k + k_count k ≤ NVPN;
  eo_start : k_phys_start k mod PGSIZE = 0 ∧ 0 ≤ k_phys_start k ∧ k_phys_start k + k_size k ≤ 2 ^ 32;
  eo_perm : 0 ≤ k_perm k < PGSIZE
}.

Lemma mappages_kern m l R d T M k :
  vm_ok m l R d T M → entry_ok k → (∀ n, k_in k n → M !! n = None) →
  ∃ r m' l' T' M', mappages d (k_virt k) (k_size k) (k_phys_start k) (k_perm k) m = Ok (r, m') ∧
    vm_ok m' l' R d T' M' ∧ total l' R d T' M' ≡ₚ total l R d T M ∧ kept m m' (frames M ++ R) ∧
    (∀ n, n < NUSER → M' !! n = M !! n) ∧
    (r = -1 ∧ l' = [] ∨ r = 0 ∧ ∀ n, M' !! n = match kern_of [k] n with Some e => Some e | None => M !! n end).
Proof.
  intros Hv [Hvirt Hsize Hc Hkern Htop (Hs1 & Hs2 & Hs3) Hperm] HM. unfold mappages. rewrite Hvirt.
  assert (PGROUNDDOWN (PGSIZE * k_vpn k) = PGSIZE * k_vpn k) as ->.
  { rewrite <- (Z.add_0_r (PGSIZE * k_vpn k)) at 1. by apply PGROUNDDOWN_va. }
  set (j := Z.to_nat (k_count k - 1)).
  replace (u32 (PGSIZE * k_vpn k + k_size k - 1)) with (PGSIZE * (k_vpn k + Z.of_nat j) + (PGSIZE - 1)).
  2: { rewrite u32_small; rewrite Hsize; unfold j, PGSIZE, NUSER, NVPN in *; lia. }
  rewrite PGROUNDDOWN_va by done. replace (PGSIZE * (k_vpn k + Z.of_nat j) - PGSIZE * k_vpn k) with (Z.of_nat j * PGSIZE) by lia.
  rewrite u32_small, Z.div_mul, Nat2Z.id by (unfold j, PGSIZE, NUSER, NVPN in *; lia).
  assert (k_count k = Z.of_nat (S j)) as Hcj by lia.
  destruct (mappages_loop_kern kend R d (k_perm k) j m l T M (k_vpn k) (k_phys_start k)) as (r & m' & l' & T' & M' & -> & H1 & H2 & H3 & H4 & H5);
    try done; try lia.
  - intros n Hn. apply HM. unfold k_in. lia.
  - exists r, m', l', T', M'. do 5 (split; [done|]). destruct H5 as [?|[-> H5]]; [by left|right; split; [done|]].
    intros n. rewrite H5. cbn [kern_of]. rewrite <- Hcj. by case_decide.
Qed.

Lemma frames_user M M' : (∀ n, n < NUSER → M' !! n = M !! n) → frames M ⊆ frames M'.
Proof. intros Hu. apply frames_sub. intros n e Hn He. by rewrite Hu. Qed.

(** Tables come out of the free list. *)
Lemma count_user m l R d T M m' l' T' M' :
  vm_ok m l R d T M → vm_ok m' l' R d T' M' → total l' R d T' M' ≡ₚ total l R d T M → (∀ n, n < NUSER → M' !! n = M !! n) →
  (length l + length (tabs T) = length l' + length (tabs T'))%nat.
Proof.
  intros Hv Hv' Hp Hu. pose proof (frames_user M M' Hu) as H1. pose proof (frames_user M' M ltac:(intros n Hn; by rewrite Hu)) as H2.
  assert (∀ m l T M, vm_ok m l R d T M → NoDup (frames M)) as Hnd.
  { intros m0 l0 T0 M0 [_ _ Hn]. unfold owned in Hn. by apply NoDup_app in Hn as [(_ & (_ & _ & ?)%NoDup_app)%NoDup_cons _]. }
  pose proof (submseteq_length _ _ (NoDup_submseteq _ _ (Hnd _ _ _ _ Hv) H1)).
  pose proof (submseteq_length _ _ (NoDup_submseteq _ _ (Hnd _ _ _ _ Hv') H2)).
  apply Permutation_length in Hp. unfold total, owned in Hp. cbn [app length] in Hp. rewrite !length_app in Hp. lia.
Qed.
Lemma tabs_count m d T M : space_ok kend m d T M → (length (tabs T) ≤ 1024)%nat.
Proof.
  intros Hs. unfold tabs. rewrite length_fmap, <- (length_fmap fst).
  rewrite (submseteq_length _ (seqZ 0 1024)); [by rewrite length_seqZ|]. apply NoDup_submseteq; [apply NoDup_fst_map_to_list|].
  intros i ([j t] & -> & Hi)%list_elem_of_fmap. apply elem_of_map_to_list in Hi. apply elem_of_seqZ. cbn. destruct (so_tabs _ _ _ _ _ Hs j t Hi). lia.
Qed.

(** Pairwise disjoint ranges. *)
Fixpoint disjoint_map (ks : list kmap_entry) : Prop :=
  match ks with
  | [] => True
  | k :: ks' => (∀ k', k' ∈ ks' → ∀ n, k_in k n → k_in k' n → False) ∧ disjoint_map ks'
  end.

Lemma kern_of_in ks n e : kern_of ks n = Some e → ∃ k, k ∈ ks ∧ k_in k n.
Proof.
  induction ks as [|k ks IH]; [done|]. cbn [kern_of]. case_decide as Hk.
  - intros _. exists k. split; [left|done].
  - intros Hn. destruct (IH Hn) as (k' & ? & ?). exists k'. split; [by right|done].
Qed.

Lemma setupkvm_loop_spec R d ks : ∀ m l T M,
  vm_ok m l R d T M → Forall entry_ok ks → disjoint_map ks → (∀ k n, k ∈ ks → k_in k n → M !! n = None) →
  (∃ m' l' T' M', setupkvm_loop kend ks d m = Ok (d, m') ∧ vm_ok m' l' R d T' M' ∧ total l' R d T' M' ≡ₚ total l R d T M ∧
     kept m m' R ∧ ∀ n, M' !! n = match kern_of ks n with Some e => Some e | None => M !! n end) ∨
  (∃ m' l', setupkvm_loop kend ks d m = Ok (0, m') ∧ kmem_ok m' l' ∧ l' ≡ₚ owned d T M ++ l ∧ kept m m' R ∧ (length l + length (tabs T) ≤ 1024)%nat).
Proof.
  induction ks as [|k ks IH]; intros m l T M Hv Hks Hdj HM; cbn [setupkvm_loop].
  { left. by exists m, l, T, M. }
  inversion Hks as [|? ? Hk Hks']; subst. destruct Hdj as [Hd1 Hd2]. fold (k_size k).
  destruct (mappages_kern m l R d T M k Hv Hk) as (r & m1 & l1 & T1 & M1 & -> & Hv1 & Ht1 & Hk1 & Hu1 & Hr); [intros n; apply HM; left|].
  assert (kept m m1 R) as HkR by (eapply kept_sub; [exact Hk1|apply list_subseteq_app_r; done]). rewrite bind_ret.
  destruct Hr as [[-> ->]|[-> Hr]].
  - right. rewrite decide_True by lia. destruct (freevm_spec _ _ _ _ _ _ Hv1) as (m2 & l2 & -> & Hk2 & Hl2 & Hkept2). rewrite bind_ret.
    exists m2, l2. split; [done|]. split; [done|]. split; [|split; [by eapply kept_same|]].
    2: { rewrite (count_user _ _ _ _ _ _ _ _ _ _ Hv Hv1 Ht1 Hu1). exact (tabs_count _ _ _ _ (vo_space _ _ _ _ _ _ _ Hv1)). }
    apply (Permutation_app_inv_l R). rewrite Hl2. unfold total in Ht1.
    transitivity (owned d T1 M1 ++ R ++ []); [solve_Permutation|]. rewrite Ht1. solve_Permutation.
  - rewrite decide_False by lia. destruct (IH m1 l1 T1 M1 Hv1 Hks' Hd2) as [(m2 & l2 & T2 & M2 & -> & Hv2 & Ht2 & Hk2 & HM2)|(m2 & l2 & -> & Hk2 & Hl2 & Hkept2 & Hc2)].
    + intros k' n Hk' Hin. rewrite Hr. cbn [kern_of]. rewrite decide_False; [by apply (HM k'); [right|]|].
      intros Hin'. exact (Hd1 k' Hk' n Hin' Hin).
    + left. exists m2, l2, T2, M2. split; [done|]. split; [done|]. split; [by rewrite Ht2|]. split; [by eapply kept_same|].
      intros n. rewrite HM2, Hr. cbn [kern_of]. case_decide as Hin; [|by destruct (kern_of ks n)].
      destruct (kern_of ks n) as [e|] eqn:He; [|done]. destruct (kern_of_in _ _ _ He) as (k' & Hk' & Hin'). by destruct (Hd1 k' Hk' n Hin Hin').
    + right. exists m2, l2. split; [done|]. split; [done|]. split; [|split; [by eapply kept_same|by rewrite (count_user _ _ _ _ _ _ _ _ _ _ Hv Hv1 Ht1 Hu1)]].
      apply (Permutation_app_inv_l R). rewrite Hl2. unfold total in Ht1.
      transitivity (owned d T1 M1 ++ R ++ l1); [solve_Permutation|]. rewrite Ht1. solve_Permutation.
Qed.

(** An empty directory. *)
Lemma vm_empty m l R d :
  kmem_ok m l → page d → NoDup (d :: R ++ l) → pgc m d = replicate PGBYTES 0 → vm_ok m l R d ∅ ∅.
Proof.
  intros Hk Hd Hn Hz. split; [done| |exact Hn]. split; try done; intros *; rewrite ?lookup_empty; try done.
  intros Hi _. rewrite pword_zero by (done || lia). done.
Qed.

Section setup.
Context (kdata : Z) (data_page : kdata mod PGSIZE = 0) (data_above : KERNLINK < kdata) (data_below : kdata < KERNBASE + PHYSTOP).

(** The four ranges, in pages. *)
Lemma data_vpn : ∃ c, kdata = PGSIZE * c ∧ 524544 < c < 581632.
Proof.
  apply Z.mod_divide in data_page as [c Hc]; [|done]. exists c. split; [lia|].
  unfold KERNLINK, PGSIZE, EXTMEM, KERNBASE, PHYSTOP in *. lia.
Qed.

Lemma kmap_shape c : kdata = PGSIZE * c → 524544 < c < 581632 →
  kmap kdata =
    [mkkmap (PGSIZE * 524288) (PGSIZE * 0) (PGSIZE * 256) PTE_W;
     mkkmap (PGSIZE * 524544) (PGSIZE * 256) (PGSIZE * (c - 524288)) 0;
     mkkmap (PGSIZE * c) (PGSIZE * (c - 524288)) (PGSIZE * 57344) PTE_W;
     mkkmap (PGSIZE * 1040384) (PGSIZE * 1040384) 0 PTE_W].
Proof.
  intros Hc Hr. unfold kmap, V2P. rewrite Hc. rewrite (u32_small (PGSIZE * c - KERNBASE)) by (unfold PGSIZE, KERNBASE; lia).
  replace (PGSIZE * c - KERNBASE) with (PGSIZE * (c - 524288)) by (unfold PGSIZE, KERNBASE; lia). reflexivity.
Qed.

Lemma range_ok v p q perm : NUSER ≤ v → 1 ≤ q - p → v + (q - p) ≤ NVPN → 0 ≤ p → q ≤ NVPN → 0 ≤ perm < PGSIZE →
  ∀ q', u32 (q' - PGSIZE * p) = PGSIZE * (q - p) →
  let k := mkkmap (PGSIZE * v) (PGSIZE * p) q' perm in entry_ok k ∧ k_vpn k = v ∧ k_count k = q - p.
Proof.
  intros Hv Hq Ht Hp Hq1 Hperm q' Hs k. unfold k.
  assert (∀ a, PGSIZE * a / PGSIZE = a) as Hdiv by (intros a; rewrite Z.mul_comm; by apply Z.div_mul).
  assert (k_vpn k = v) as Hk1 by apply Hdiv.
  assert (k_size k = PGSIZE * (q - p)) as Hk2 by exact Hs.
  assert (k_count k = q - p) as Hk3 by (unfold k_count; rewrite Hk2; apply Hdiv).
  split; [|done]. split; fold k; rewrite ?Hk1, ?Hk2, ?Hk3; try done; try lia.
  unfold k; cbn [k_phys_start]. split; [|unfold PGSIZE, NVPN in *; lia]. rewrite Z.mul_comm. by apply Z.mod_mul.
Qed.

Lemma kmap_entries c : kdata = PGSIZE * c → 524544 < c < 581632 →
  Forall entry_ok (kmap kdata) ∧
  ((λ k, (k_vpn k, k_count k)) <$> kmap kdata = [(524288, 256); (524544, c - 524544); (c, 581632 - c); (1040384, 8192)]).
Proof.
  intros Hc Hr. rewrite (kmap_shape c) by done.
  destruct (range_ok 524288 0 256 PTE_W) with (q' := PGSIZE * 256) as (E1 & V1 & C1); try done.
  destruct (range_ok 524544 256 (c - 524288) 0) with (q' := PGSIZE * (c - 524288)) as (E2 & V2 & C2);
    [done|lia|unfold NVPN; lia|done|unfold NVPN; lia|done|rewrite u32_small; unfold PGSIZE; lia|].
  destruct (range_ok c (c - 524288) 57344 PTE_W) with (q' := PGSIZE * 57344) as (E3 & V3 & C3);
    [unfold NUSER; lia|lia|unfold NVPN; lia|lia|done|done|rewrite u32_small; unfold PGSIZE; lia|].
  destruct (range_ok 1040384 1040384 1048576 PTE_W) with (q' := 0) as (E4 & V4 & C4); try done.
  split; [by apply Forall_cons; split; [|apply Forall_cons; split; [|apply Forall_cons; split; [|apply Forall_singleton]]]|].
  cbn [fmap list_fmap]. rewrite V1, V2, V3, V4, C1, C2, C3, C4.
  replace (c - 524288 - 256) with (c - 524544) by lia. by replace (57344 - (c - 524288)) with (581632 - c) by lia.
Qed.

Lemma kmap_disjoint c : kdata = PGSIZE * c → 524544 < c < 581632 → disjoint_map (kmap kdata).
Proof.
  intros Hc Hr. destruct (kmap_entries c Hc Hr) as [_ Hs]. revert Hs. unfold kmap. generalize (mkkmap KERNBASE 0 EXTMEM PTE_W).
  generalize (mkkmap KERNLINK (V2P KERNLINK) (V2P kdata) 0), (mkkmap kdata (V2P kdata) PHYSTOP PTE_W), (mkkmap DEVSPACE DEVSPACE 0 PTE_W).
  intros k2 k3 k4 k1. cbn [fmap list_fmap]. intros [= V1 C1 V2 C2 V3 C3 V4 C4]. unfold disjoint_map, k_in.
  split_and!; try done; intros k Hk n; rewrite ?elem_of_cons, elem_of_nil in Hk; destruct_or?; subst; try done; lia.
Qed.

Lemma setupkvm_spec m l R :
  kmem_ok m l → NoDup (R ++ l) →
  (∃ d m' l' T' M', setupkvm kend kdata m = Ok (d, m') ∧ vm_ok m' l' R d T' M' ∧ total l' R d T' M' ≡ₚ R ++ l ∧
     kept m m' R ∧ ∀ n, M' !! n = kern_of (kmap kdata) n) ∨
  (∃ m' l', setupkvm kend kdata m = Ok (0, m') ∧ kmem_ok m' l' ∧ l' ≡ₚ l ∧ kept m m' R ∧ (length l ≤ 1025)%nat).
Proof.
  intros Hk Hn. unfold setupkvm. pose proof (kalloc_spec _ m l Hk) as Ha. destruct l as [|d l].
  { right. exists m, []. rewrite Ha, bind_ret, decide_True by done. split_and!; try done. cbn. lia. }
  destruct Ha as (m1 & -> & Hk1 & Hd & Hdl & Hx1). rewrite bind_ret. pose proof (page_range _ _ Hd). rewrite decide_False by lia.
  rewrite fill_page_Ok, bind_ret by (apply Hd || apply (ko_pages _ _ _ Hk1)). rewrite decide_False by done.
  assert (NoDup (d :: R ++ l)) as Hnd. { enough (d :: R ++ l ≡ₚ R ++ d :: l) as -> by done. solve_Permutation. }
  assert (vm_ok (set_pgc d (replicate PGBYTES (u8 0)) m1) l R d ∅ ∅) as Hv.
  { apply vm_empty; [apply kmem_set; [done|done|by apply wf_fill]|done|done|]. by rewrite pgc_set, decide_True. }
  assert (kept m (set_pgc d (replicate PGBYTES (u8 0)) m1) R) as Hk0.
  { apply NoDup_cons in Hnd as [Hnd _]. intros x Hx. rewrite pgc_set, decide_False, Hx1; [done|]. intros ->. apply Hnd, elem_of_app. by left. }
  destruct data_vpn as (c & Hc & Hr). destruct (kmap_entries c Hc Hr) as [He _].
  destruct (setupkvm_loop_spec R d (kmap kdata) _ l ∅ ∅ Hv He (kmap_disjoint c Hc Hr) ltac:(done))
    as [(m' & l' & T' & M' & -> & Hv' & Ht' & Hk' & HM')|(m' & l' & -> & Hk' & Hl' & Hkept' & Hc')].
  - left. exists d, m', l', T', M'. split; [done|]. split; [done|]. split; [|split; [by eapply kept_same|]].
    + rewrite Ht'. unfold total, owned, tabs, frames. rewrite map_to_list_empty. cbn. solve_Permutation.
    + intros n. rewrite HM', lookup_empty. by destruct (kern_of _ n).
  - right. exists m', l'. split; [done|]. split; [done|]. split; [|split; [by eapply kept_same|cbn [length]; lia]].
    rewrite Hl'. unfold owned, tabs, frames. by rewrite map_to_list_empty.
Qed.

(** ** Copying *)

Lemma store_bytes_page m v src : direct v → wf_page (pgc m v) → length src = PGBYTES → store_bytes v src m = Ok (set_pgc v src m).
Proof.
  intros Hd [Hl _] Hs. unfold store_bytes. pose proof Hd as [Hm _]. rewrite Hm, Z.sub_0_r, load_page_Ok, bind_ret by done.
  unfold bstore. rewrite decide_True by lia. rewrite bind_ret, store_page_Ok, inserts_all by congruence. done.
Qed.

Section copy.
Context (p : Z) (Tp Mp : gmap Z Z) (R0 : list Z) (d sz : Z) (M0 : gmap Z Z).
Context (Hsz : sz ≤ KERNBASE) (Hfull : ∀ n, 0 ≤ n → PGSIZE * n < sz → is_Some (Mp !! n)).
Context (Hkern : ∀ n, n < NUSER → M0 !! n = None).
Let R : list Z := owned p Tp Mp ++ R0.

(** The first [i] pages of the parent are copied into the child. *)
Definition copied (m : mem) (i : Z) (M : gmap Z Z) : Prop := ∀ n,
  if decide (0 ≤ n < i) then
    ∃ e pg, Mp !! n = Some e ∧ M !! n = Some (leaf (V2P pg) (PTE_FLAGS e)) ∧ page pg ∧ pgc m pg = pgc m (frame e)
  else M !! n = M0 !! n.

Definition copy_post (m : mem) (tot : list Z) (o : outcome (Z * mem)) : Prop :=
  ∃ r m' l', o = Ok (r, m') ∧ kept m m' R ∧
    (r = d ∧ (∃ T' M', vm_ok m' l' R d T' M' ∧ total l' R d T' M' ≡ₚ tot ∧ copied m' (npages sz) M') ∨
     r = 0 ∧ kmem_ok m' l' ∧ R ++ l' ≡ₚ tot).

Lemma flags_range e : 0 ≤ PTE_FLAGS e < PGSIZE.
Proof. unfold PTE_FLAGS. change 4095 with (Z.ones 12). rewrite Z.land_ones by lia. by apply Z.mod_pos_bound. Qed.

Lemma copied_keep m m' i M : i ≤ NUSER → copied m i M → kept m m' (frames M) → kept m m' R → copied m' i M.
Proof.
  intros Hi Hc Hk HkR n. specialize (Hc n). case_decide; [|done]. destruct Hc as (e & pg & He & HM & Hp & Hx). exists e, pg.
  split; [done|]. split; [done|]. split; [done|]. rewrite (Hk pg), (HkR (frame e)), Hx; [done| |].
  - unfold R, owned. apply elem_of_app. left. right. apply elem_of_app. right. eapply elem_frames; [done|lia].
  - rewrite <- (frame_leaf pg (PTE_FLAGS e)) by (apply Hp || apply flags_range). eapply elem_frames; [done|lia].
Qed.

Lemma copied_S m i M e pg :
  0 ≤ i < NUSER → copied m i M → Mp !! i = Some e → page pg → pgc m pg = pgc m (frame e) →
  copied m (i + 1) (<[i := leaf (V2P pg) (PTE_FLAGS e)]> M).
Proof.
  intros Hi Hc He Hp Hx k. specialize (Hc k). destruct (decide (k = i)) as [->|Hk].
  - rewrite decide_True, lookup_insert_eq by lia. by exists e, pg.
  - rewrite lookup_insert_ne by done. destruct (decide (0 ≤ k < i)), (decide (0 ≤ k < i + 1)); done || lia.
Qed.

Lemma copyuvm_loop_S fuel i m :
  copyuvm_loop kend (S fuel) p d i sz m =
  if decide (i < sz) then
    '(pte, m1) ← walkpgdir p i false m;
    if decide (pte = 0) then Panic "copyuvm: pte should exist"
    else
      e ← load_word m1 pte;
      if negb (present e) then Panic "copyuvm: page not present"
      else
        '(pg, m2) ← kalloc m1;
        if decide (pg = 0) then m3 ← freevm kend d m2; Ok (0, m3)
        else
          src ← load_page m2 (frame e);
          m3 ← store_bytes pg src m2;
          '(r, m4) ← mappages d i PGSIZE (V2P pg) (PTE_FLAGS e) m3;
          if decide (r < 0) then m5 ← kfree kend pg m4; m6 ← freevm kend d m5; Ok (0, m6)
          else copyuvm_loop kend fuel p d (u32 (i + PGSIZE)) sz m4
  else Ok (d, m).
Proof. reflexivity. Qed.

Lemma copy_post_from m0 m tot tot' o : kept m0 m R → tot ≡ₚ tot' → copy_post m tot o → copy_post m0 tot' o.
Proof.
  intros Hk Hp (r & m' & l' & -> & Hk' & Hr). exists r, m', l'. split; [done|]. split; [by eapply kept_same|].
  destruct Hr as [[-> (T' & M' & Hv & Ht & Hc)]|(-> & Hkm & Hl)].
  - left. split; [done|]. exists T', M'. by rewrite <- Hp.
  - right. by rewrite <- Hp.
Qed.

(** Giving up frees the child. *)
Lemma copy_bad m m1 l T M :
  vm_ok m1 l R d T M → kept m m1 R → copy_post m (total l R d T M) (m2 ← freevm kend d m1; Ok (0, m2)).
Proof.
  intros Hv Hk. destruct (freevm_spec _ _ _ _ _ _ Hv) as (m2 & l2 & -> & Hk2 & Hl2 & Hkept2). rewrite bind_ret.
  exists 0, m2, l2. split; [done|]. split; [by eapply kept_same|]. right. split; [done|]. split; [done|].
  rewrite Hl2. unfold total. solve_Permutation.
Qed.

Lemma copy_done m l T M i :
  vm_ok m l R d T M → sz ≤ PGSIZE * i → PGSIZE * i < sz + PGSIZE → copied m i M → copy_post m (total l R d T M) (Ok (d, m)).
Proof.
  intros Hv Hge Hlt Hc. exists d, m, l. split; [done|]. split; [done|]. left. split; [done|]. exists T, M. split_and!; try done.
  replace (npages sz) with i; [done|]. pose proof (npages_lt i sz). pose proof (npages_lt (i - 1) sz). lia.
Qed.

(** Reading the parent's entry. *)
Lemma parent_pte m l T M i :
  vm_ok m l R d T M → space_ok kend m p Tp Mp → 0 ≤ i → PGSIZE * i < sz →
  ∃ a e, walkpgdir p (PGSIZE * i) false m = Ok (a, m) ∧ a ≠ 0 ∧ load_word m a = Ok e ∧ Mp !! i = Some e ∧ present e = true ∧
    page (frame e) ∧ frame e ∈ R.
Proof.
  intros Hv Hs Hi Hlt. destruct (Hfull i Hi Hlt) as [e He]. destruct (so_map _ _ _ _ _ Hs i e He) as (Hir & Hp & t & Ht & _).
  assert (vm_ok m l R0 p Tp Mp) as Hvp.
  { split; [apply Hv|done|]. destruct Hv as [_ _ Hn]. apply NoDup_app in Hn as (_ & _ & Hn). unfold R in Hn. by rewrite <- app_assoc in Hn. }
  destruct (walk_Some _ _ _ _ _ _ _ Hvp i 0 false t Hir ltac:(done) Ht) as [Hw Hz]. rewrite Z.add_0_r in Hw.
  destruct (load_pte _ _ _ _ _ _ _ Hvp i t Hir Ht) as (e' & Hl & He'). rewrite He in He'. destruct He' as [-> _].
  assert (i < NUSER) by (unfold PGSIZE, KERNBASE, NUSER in *; lia).
  eexists _, e. split; [exact Hw|]. split; [done|]. split; [done|]. split; [done|]. split; [done|].
  split; [by apply (so_user _ _ _ _ _ Hs i)|]. unfold R, owned. apply elem_of_app. left. right. apply elem_of_app. right. by eapply elem_frames.
Qed.

Lemma parent_keep m m' : space_ok kend m p Tp Mp → kept m m' R → space_ok kend m' p Tp Mp.
Proof.
  intros Hs Hk. apply (space_frame _ m); [done|]. intros x Hx. apply Hk. unfold R, owned. apply elem_of_app. left.
  apply elem_of_cons in Hx as [->|Hx]; [left|]. right. apply elem_of_app. by left.
Qed.

(** A fresh page takes the contents of one of the parent's. *)
Lemma copy_page m pg l T M src :
  vm_ok m (pg :: l) R d T M → page src → src ∈ R →
  ∃ m1 m2, kalloc m = Ok (pg, m1) ∧ pg ≠ 0 ∧ load_page m1 src = Ok (pgc m1 src) ∧ store_bytes pg (pgc m1 src) m1 = Ok m2 ∧ page pg ∧
    vm_ok m2 l (pg :: R) d T M ∧ total l (pg :: R) d T M ≡ₚ total (pg :: l) R d T M ∧ kept m m2 (frames M ++ R) ∧
    pgc m2 pg = pgc m2 src.
Proof.
  intros Hv Hsp Hsr. destruct (vm_kalloc _ _ _ _ _ _ _ _ Hv) as (m1 & Ha & Hpz & Hpg & Hv1 & Ht1 & Hx1). exists m1.
  pose proof (ko_pages _ _ _ (vo_kmem _ _ _ _ _ _ _ Hv1)) as Hwf.
  rewrite load_page_Ok, store_bytes_page by (apply Hsp || apply Hpg || apply Hwf).
  destruct (vm_set _ end_above _ _ _ _ _ _ pg (pgc m1 src) Hv1 (Hwf src)) as [Hv2 Hk2]. eexists. do 4 (split; [done|]). split; [done|].
  split; [done|]. split; [done|]. split; [intros x Hx; rewrite Hk2 by done; apply Hx1|].
  rewrite (Hk2 src) by (apply elem_of_app; by right). by rewrite pgc_set, decide_True.
Qed.

Lemma copyuvm_loop_spec fuel : ∀ i m l T M,
  vm_ok m l R d T M → space_ok kend m p Tp Mp → 0 ≤ i → PGSIZE * i < sz + PGSIZE → copied m i M →
  (pages_between (PGSIZE * i) sz ≤ fuel)%nat →
  copy_post m (total l R d T M) (copyuvm_loop kend fuel p d (PGSIZE * i) sz m).
Proof.
  induction fuel as [|fuel IH]; intros i m l T M Hv Hs Hi Hlt Hc Hf.
  { apply pages_between_0 in Hf. cbn. rewrite decide_False by lia. by eapply copy_done. }
  rewrite copyuvm_loop_S. destruct (decide (PGSIZE * i < sz)) as [Hl|Hge]; [|eapply copy_done; eauto; lia].
  assert (0 ≤ i < NUSER) as Hn by (unfold KERNBASE, NUSER, PGSIZE in *; lia).
  destruct (parent_pte _ _ _ _ i Hv Hs Hi Hl) as (a & e & -> & Haz & Hla & He & Hpe & Hfe & HfR).
  rewrite bind_ret, decide_False, Hla, bind_ret, Hpe by done. cbn [negb].
  assert (M !! i = None) as HMi. { specialize (Hc i). rewrite decide_False in Hc by lia. rewrite Hc. apply Hkern. lia. }
  destruct l as [|pg l].
  { rewrite (vm_kalloc_nil _ _ _ _ _ _ Hv), bind_ret, decide_True by done. by apply copy_bad. }
  destruct (copy_page _ _ _ _ _ _ Hv Hfe HfR) as (m1 & m2 & -> & Hpz & Hld & Hst & Hpg & Hv2 & Ht2 & Hk2 & Hx2).
  rewrite bind_ret, decide_False, Hld, bind_ret, Hst, bind_ret by done.
  assert (kept m m2 R) as HkR by (eapply kept_sub; [exact Hk2|by apply list_subseteq_app_r]).
  destruct (mappages_user _ m2 l R d T M i pg (PTE_FLAGS e) Hv2 Hn HMi Hpg (flags_range e)) as [[-> ->]|(m3 & l3 & T3 & -> & Hv3 & Ht3 & Hk3 & _)];
    rewrite bind_ret.
  - rewrite decide_True by lia. destruct (vm_kfree _ end_above _ _ _ _ _ _ _ Hv2 Hpg) as (m4 & -> & Hv4 & Ht4 & Hk4). rewrite bind_ret.
    apply (copy_bad m m4 [pg] T M Hv4).
    eapply kept_same; [exact HkR|]. eapply kept_sub; [exact Hk4|by apply list_subseteq_app_r].
  - rewrite decide_False by lia. rewrite (u32_small (PGSIZE * i + PGSIZE)) by (unfold PGSIZE, NUSER in *; lia).
    replace (PGSIZE * i + PGSIZE) with (PGSIZE * (i + 1)) by lia.
    assert (kept m2 m3 R) as HkR3. { eapply kept_sub; [exact Hk3|]. apply list_subseteq_app_r, sub_cons. }
    assert (kept m m3 R) as HkRm by (by eapply kept_same).
    eapply copy_post_from; [exact HkRm|rewrite <- Ht2; exact Ht3|].
    apply (IH (i + 1) m3 l3 T3 _ Hv3 (parent_keep _ _ Hs HkRm) ltac:(lia) ltac:(lia)).
    { apply copied_S; [lia| |done|done|].
      - eapply copied_keep; [|eapply copied_keep; [|exact Hc|exact (kept_l _ _ _ _ Hk2)|exact HkR]|exact (kept_l _ _ _ _ Hk3)|exact HkR3]; lia.
      - rewrite (HkR3 (frame e)) by done. rewrite Hk3; [done|]. apply elem_of_app. right. left. }
    { eapply pages_between_S; [|exact Hl|exact Hf]. lia. }
Qed.
End copy.

Lemma copyuvm_spec m l R0 p Tp Mp sz :
  vm_ok m l R0 p Tp Mp → 0 ≤ sz ≤ KERNBASE → (∀ n, 0 ≤ n → PGSIZE * n < sz → is_Some (Mp !! n)) →
  (∃ d m' l' T M, copyuvm kend kdata p sz m = Ok (d, m') ∧ vm_ok m' l' (owned p Tp Mp ++ R0) d T M ∧
     total l' (owned p Tp Mp ++ R0) d T M ≡ₚ total l R0 p Tp Mp ∧ kept m m' (owned p Tp Mp ++ R0) ∧
     ∀ n, if decide (0 ≤ n < npages sz) then
            ∃ e pg, Mp !! n = Some e ∧ M !! n = Some (leaf (V2P pg) (PTE_FLAGS e)) ∧ page pg ∧ pgc m' pg = pgc m' (frame e)
          else M !! n = kern_of (kmap kdata) n) ∨
  (∃ m' l', copyuvm kend kdata p sz m = Ok (0, m') ∧ kmem_ok m' l' ∧ l' ≡ₚ l ∧ kept m m' (owned p Tp Mp ++ R0)).
Proof.
  intros [Hk Hs Hn] Hsz Hfull. unfold copyuvm, total in *. rewrite app_assoc in Hn. rewrite app_assoc. set (R := owned p Tp Mp ++ R0) in *.
  destruct (setupkvm_spec m l R Hk Hn) as [(d & m1 & l1 & T1 & M1 & -> & Hv1 & Ht1 & Hk1 & HM1)|(m1 & l1 & -> & Hk1 & Hl1 & Hkept1 & _)];
    rewrite bind_ret; [|right; exists m1, l1; by rewrite decide_True].
  pose proof (page_range _ _ (so_page _ _ _ _ _ (vo_space _ _ _ _ _ _ _ Hv1))). rewrite decide_False by lia.
  destruct (copyuvm_loop_spec p Tp Mp R0 d sz M1 (proj2 Hsz) Hfull) with (i := 0) (m := m1) (l := l1) (T := T1) (M := M1) (fuel := pages_between 0 sz)
    as (r & m2 & l2 & Ho & Hk2 & Hr); try done; try lia.
  - intros n Hnu. rewrite HM1. destruct (kern_of _ n) as [e|] eqn:He; [|done]. apply kern_of_in in He as (k & Hin & Hkn).
    destruct data_vpn as (c & Hc & Hcr). destruct (kmap_entries c Hc Hcr) as [Hek _]. rewrite Forall_forall in Hek.
    pose proof (eo_kern _ (Hek k Hin)). unfold k_in in Hkn. lia.
  - by eapply parent_keep.
  - unfold PGSIZE. lia.
  - intros n. by rewrite decide_False by lia.
  - change (PGSIZE * 0) with 0 in Ho. rewrite Ho. destruct Hr as [[-> (T' & M' & Hv & Ht & Hc)]|(-> & Hkm & Hl)].
    + left. exists d, m2, l2, T', M'. split; [done|]. split; [done|]. split; [by rewrite <- Ht1|]. split; [by eapply kept_same|].
      intros n. specialize (Hc n). case_decide; [done|]. by rewrite Hc, HM1.
    + right. exists m2, l2. split; [done|]. split; [done|]. split; [|by eapply kept_same].
      apply (Permutation_app_inv_l R). fold R in Hl. by rewrite Hl, Ht1.
Qed.
End setup.
End life.
