(* ===== verification/VmTheorems.v ===== *)
(** * Properties of the page allocator and of address spaces *)

From stdpp Require Import gmap numbers.
From S2P Require Import Prelude.
From S2P Require Import Bytes.
From S2P Require Import CString.
From S2P Require Import Kalloc.
From S2P Require Import Vm.
From S2P Require Import VmSpec.
From S2P Require Import VmOps.
From S2P Require Import VmLife.

Local Open Scope Z_scope.

(** ** Histories of the allocator *)

(** The [n] pages from [a] on. *)
Definition pages_from (a : Z) (n : nat) : list Z := (λ i, a + PGSIZE * Z.of_nat i) <$> seq 0 n.

Lemma pages_from_S a n : pages_from a (S n) = a :: pages_from (a + PGSIZE) n.
Proof.
  unfold pages_from. cbn [seq fmap list_fmap]. f_equal; [lia|]. rewrite <- fmap_S_seq, <- list_fmap_compose.
  apply list_fmap_ext. intros i x _. cbn. lia.
Qed.

Lemma elem_pages_from a n x : x ∈ pages_from a n ↔ ∃ i, (i < n)%nat ∧ x = a + PGSIZE * Z.of_nat i.
Proof.
  unfold pages_from. rewrite list_elem_of_fmap. split.
  - intros (i & -> & Hi). apply elem_of_seq in Hi. exists i. lia.
  - intros (i & Hi & ->). exists i. split; [done|]. apply elem_of_seq. lia.
Qed.

Lemma pages_from_NoDup a n : NoDup (pages_from a n).
Proof. apply NoDup_fmap_2; [intros x y; unfold PGSIZE; lia|apply NoDup_seq]. Qed.

Lemma pages_from_app a n k : pages_from a (n + k) = pages_from a n ++ pages_from (a + PGSIZE * Z.of_nat n) k.
Proof.
  revert a. induction n as [|n IH]; intros a.
  - cbn [plus]. change (pages_from a 0) with (@nil Z). cbn [app]. f_equal. lia.
  - change (S n + k)%nat with (S (n + k)). rewrite !pages_from_S, IH. cbn [app]. do 3 f_equal. lia.
Qed.

Section history.
Context (kend : Z) (end_above : KERNBASE < kend) (end_below : kend ≤ KERNBASE + 4194304).
Local Notation page := (page kend).
Local Notation kmem_ok := (kmem_ok kend).

Lemma freerange_loop_spec vend n : ∀ p m l fuel,
  kmem_ok m l → (n ≤ fuel)%nat → p + PGSIZE * Z.of_nat n ≤ vend < p + PGSIZE * (Z.of_nat n + 1) →
  Forall page (pages_from p n) → (∀ x, x ∈ pages_from p n → x ∉ l) →
  ∃ m' l', freerange_loop kend fuel p vend m = Ok m' ∧ kmem_ok m' l' ∧ l' ≡ₚ pages_from p n ++ l.
Proof.
  induction n as [|n IH]; intros p m l fuel Hk Hf Hv Hp Hl.
  { exists m, l. destruct fuel; cbn; rewrite decide_False by lia; done. }
  destruct fuel as [|fuel]; [lia|]. cbn [freerange_loop]. rewrite decide_True by (unfold PGSIZE in *; lia).
  rewrite pages_from_S in *. apply Forall_cons in Hp as [Hp1 Hp]. pose proof (pages_from_NoDup p (S n)) as Hnd.
  rewrite pages_from_S in Hnd. apply NoDup_cons in Hnd as [Hpn _].
  destruct (kfree_spec _ m l p Hk Hp1 ltac:(apply Hl; left)) as (m1 & -> & Hk1 & _). rewrite bind_ret.
  destruct (IH (p + PGSIZE) m1 (p :: l) fuel Hk1 ltac:(lia) ltac:(lia) Hp) as (m' & l' & -> & Hk' & Hl').
  { intros x Hx [->|Hxl]%elem_of_cons; [done|]. apply (Hl x); [by right|done]. }
  exists m', l'. split; [done|]. split; [done|]. rewrite Hl'. cbn. solve_Permutation.
Qed.

Lemma freerange_spec m l vstart vend p n :
  kmem_ok m l → PGROUNDUP vstart = p → p + PGSIZE * Z.of_nat n ≤ vend < p + PGSIZE * (Z.of_nat n + 1) →
  Forall page (pages_from p n) → (∀ x, x ∈ pages_from p n → x ∉ l) →
  ∃ m' l', freerange kend vstart vend m = Ok m' ∧ kmem_ok m' l' ∧ l' ≡ₚ pages_from p n ++ l.
Proof.
  intros Hk Hp Hv Hpg Hl. unfold freerange. rewrite Hp. apply freerange_loop_spec; try done.
  unfold PGSIZE in *. assert (Z.of_nat n ≤ (vend - p) / 4096); [|lia]. apply Z.div_le_lower_bound; lia.
Qed.

(** What [main] hands to the allocator: everything from [end] to [PHYSTOP]. *)
Definition boot_memory (m : mem) : outcome mem :=
  m1 ← kinit1 kend kend (P2V 4194304) m;
  kinit2 kend (P2V 4194304) (P2V PHYSTOP) m1.
Definition first_page : Z := PGROUNDUP kend.
Definition all_pages : list Z := pages_from first_page (Z.to_nat ((KERNBASE + PHYSTOP - first_page) / PGSIZE)).
Definition reset : mem := mkmem ∅ 0.

Lemma first_page_eq : ∃ k, first_page = PGSIZE * k ∧ kend ≤ PGSIZE * k < kend + PGSIZE ∧ 524288 ≤ k ≤ 525312.
Proof.
  unfold first_page, PGROUNDUP. change (PGSIZE - 1) with 4095. rewrite land_mask.
  unfold KERNBASE, PGSIZE in *. rewrite u32_small by lia. exists ((kend + 4096 - 1) / 4096).
  pose proof (Z.div_mod (kend + 4096 - 1) 4096). pose proof (Z.mod_pos_bound (kend + 4096 - 1) 4096). lia.
Qed.

Lemma page_of k : kend ≤ PGSIZE * k → PGSIZE * k < KERNBASE + PHYSTOP → page (PGSIZE * k).
Proof. intros. split; [|done]. split; [rewrite Z.mul_comm; by apply Z.mod_mul|lia]. Qed.

Lemma all_pages_split : ∃ k, first_page = PGSIZE * k ∧ kend ≤ PGSIZE * k ∧ 524288 ≤ k ≤ 525312 ∧
  all_pages = pages_from (PGSIZE * k) (Z.to_nat (525312 - k)) ++ pages_from (PGSIZE * 525312) (Z.to_nat 56320).
Proof.
  destruct first_page_eq as (k & Hk & Hr & Hb). exists k. split; [done|]. split; [lia|]. split; [done|]. unfold all_pages. rewrite Hk.
  replace (KERNBASE + PHYSTOP - PGSIZE * k) with ((581632 - k) * PGSIZE) by (unfold KERNBASE, PHYSTOP, PGSIZE; lia).
  rewrite Z.div_mul by done. replace (Z.to_nat (581632 - k)) with (Z.to_nat (525312 - k) + Z.to_nat 56320)%nat by lia.
  rewrite pages_from_app. rewrite Z2Nat.id by lia. by replace (PGSIZE * k + PGSIZE * (525312 - k)) with (PGSIZE * 525312) by lia.
Qed.

Lemma all_pages_ok : Forall page all_pages ∧ NoDup all_pages.
Proof.
  split; [|apply pages_from_NoDup]. unfold all_pages. apply Forall_forall. intros x (i & Hi & ->)%elem_pages_from.
  destruct first_page_eq as (k & Hk & Hr & Hb). rewrite Hk in *.
  replace (KERNBASE + PHYSTOP - PGSIZE * k) with ((581632 - k) * PGSIZE) in Hi by (unfold KERNBASE, PHYSTOP, PGSIZE; lia).
  rewrite Z.div_mul in Hi by done. replace (PGSIZE * k + PGSIZE * Z.of_nat i) with (PGSIZE * (k + Z.of_nat i)) by lia.
  apply page_of; unfold KERNBASE, PHYSTOP, PGSIZE in *; lia.
Qed.

Lemma reset_ok : kmem_ok reset [].
Proof. split; [done|constructor|]. intros v. by apply wf_fill. Qed.

Lemma boot_spec : ∃ m l, boot_memory reset = Ok m ∧ kmem_ok m l ∧ l ≡ₚ all_pages.
Proof.
  destruct all_pages_split as (k & Hk & Hke & Hb & Hall). destruct all_pages_ok as [Hpg Hnd]. rewrite Hall in *.
  apply Forall_app in Hpg as [Hp1 Hp2]. apply NoDup_app in Hnd as (_ & Hdis & _). unfold boot_memory, kinit1, kinit2.
  change (P2V 4194304) with (PGSIZE * 525312). change (P2V PHYSTOP) with (PGSIZE * 581632).
  destruct (freerange_spec reset [] kend (PGSIZE * 525312) (PGSIZE * k) (Z.to_nat (525312 - k)) reset_ok Hk) as (m1 & l1 & -> & Hk1 & Hl1);
    [unfold PGSIZE; lia|done|intros x _; apply not_elem_of_nil|]. rewrite bind_ret. rewrite app_nil_r in Hl1.
  destruct (freerange_spec m1 l1 (PGSIZE * 525312) (PGSIZE * 581632) (PGSIZE * 525312) (Z.to_nat 56320) Hk1) as (m2 & l2 & -> & Hk2 & Hl2);
    [done|unfold PGSIZE; lia|done|intros x Hx; rewrite Hl1; intros Hx'; by apply (Hdis x)|].
  exists m2, l2. split; [done|]. split; [done|]. rewrite Hl2, Hl1. apply Permutation_app_comm.
Qed.

(** Reachable states of the allocator, with the pages handed out. *)
Inductive hist : mem → list Z → Prop :=
| hist_boot m : boot_memory reset = Ok m → hist m []
| hist_kalloc m U v m' : hist m U → kalloc m = Ok (v, m') → v ≠ 0 → hist m' (v :: U)
| hist_kfree m U1 v U2 m' : hist m (U1 ++ v :: U2) → kfree kend v m = Ok m' → hist m' (U1 ++ U2)
| hist_write m U v p : hist m U → v ∈ U → wf_page p → hist (set_pgc v p m) U.

Lemma hist_inv m U : hist m U → ∃ l, kmem_ok m l ∧ U ++ l ≡ₚ all_pages.
Proof.
  pose proof (proj2 all_pages_ok) as Hnd.
  induction 1 as [m Hb|m U v m' _ (l & Hk & Hp) Ha Hv|m U1 v U2 m' _ (l & Hk & Hp) Hf|m U v p _ (l & Hk & Hp) Hv Hw].
  - destruct boot_spec as (m' & l & Hb' & Hk & Hl). rewrite Hb in Hb'. simplify_eq. by exists l.
  - pose proof (kalloc_spec _ m l Hk) as Hs. destruct l as [|x l]; [congruence|]. destruct Hs as (m1 & Hs & Hk1 & _). rewrite Hs in Ha.
    simplify_eq. exists l. split; [done|]. rewrite <- Hp. solve_Permutation.
  - rewrite <- Hp in Hnd. pose proof (proj1 all_pages_ok) as Hpg. rewrite <- Hp in Hpg.
    assert (page v) as Hvp. { rewrite Forall_forall in Hpg. apply Hpg. rewrite !elem_of_app, elem_of_cons. auto. }
    destruct (kfree_spec _ m l v Hk Hvp) as (m1 & Hf' & Hk1 & _).
    { apply NoDup_app in Hnd as (_ & Hd & _). apply Hd. rewrite elem_of_app, elem_of_cons. auto. }
    rewrite Hf in Hf'. simplify_eq. exists (v :: l). split; [done|]. rewrite <- Hp. solve_Permutation.
  - exists l. split; [|done]. apply kmem_set; [done| |done]. rewrite <- Hp in Hnd. apply NoDup_app in Hnd as (_ & Hd & _). by apply Hd.
Qed.
End history.

(** C30. From boot on, whatever sequence of [kalloc], [kfree] of a page in use
    and writes to pages in use: no page is handed out twice, every page is
    either in use or free and so none is lost; [kalloc] never faults, returns
    a page that is not in use and fails only when all pages are in use; and
    freeing any page in use succeeds. *)
Theorem kalloc_history (kend : Z) (m : mem) (U : list Z) :
  KERNBASE < kend → kend ≤ KERNBASE + 4194304 → hist kend m U →
  NoDup U ∧ U ⊆ all_pages kend ∧
  (∃ v m', kalloc m = Ok (v, m') ∧ (v = 0 ∧ m' = m ∧ U ≡ₚ all_pages kend ∨ v ∈ all_pages kend ∧ v ∉ U ∧ hist kend m' (v :: U))) ∧
  (∀ v, v ∈ U → ∃ m', kfree kend v m = Ok m').
Proof.
  intros Ha Hb Hh. destruct (hist_inv kend Ha Hb m U Hh) as (l & Hk & Hp). destruct (all_pages_ok kend Ha Hb) as [Hpg Hnd].
  rewrite <- Hp in Hnd, Hpg. apply NoDup_app in Hnd as (HU & Hdis & Hl). split; [done|]. split; [|split].
  - intros x Hx. rewrite <- Hp. apply elem_of_app. by left.
  - pose proof (kalloc_spec _ m l Hk) as Hs. destruct l as [|v l].
    + exists 0, m. split; [done|]. left. by rewrite app_nil_r in Hp.
    + destruct Hs as (m' & Hs & _ & Hv & _). exists v, m'. split; [done|]. right. split; [|split].
      * rewrite <- Hp, elem_of_app. right. left.
      * intros HvU. apply (Hdis v HvU). left.
      * eapply hist_kalloc; [done|done|]. pose proof (page_range _ _ Hv). lia.
  - intros v Hv. destruct (kfree_spec _ m l v Hk) as (m' & Hf & _); [|by apply Hdis|by exists m'].
    rewrite Forall_forall in Hpg. apply Hpg, elem_of_app. by left.
Qed.

Lemma kalloc_history_witness :
  ∃ m v m', hist 2148614144 m [] ∧ kalloc m = Ok (v, m') ∧ v ∈ all_pages 2148614144 ∧ hist 2148614144 m' [v].
Proof.
  destruct (boot_spec 2148614144 ltac:(done) ltac:(done)) as (m & l & Hb & _).
  destruct (kalloc_history 2148614144 m [] ltac:(done) ltac:(done) (hist_boot _ _ Hb)) as (_ & _ & (v & m' & Ha & [(_ & _ & Hp)|(Hv & _ & Hh)]) & _).
  - apply Permutation_nil in Hp. exfalso.
    assert (first_page 2148614144 ∈ all_pages 2148614144) as Hin; [|by rewrite Hp in Hin; apply elem_of_nil in Hin].
    apply elem_pages_from. exists 0%nat. split; [|lia]. apply Nat2Z.inj_lt. rewrite Z2Nat.id by done. done.
  - exists m, v, m'. exact (conj (hist_boot _ _ Hb) (conj Ha (conj Hv Hh))).
Defined.

(** ** Address spaces *)

(** A small memory: eight pages, one of them an empty page directory. *)
Definition arena_end : Z := 2148618240.
Definition arena : outcome (Z * mem) :=
  m ← freerange arena_end (PGSIZE * 525312) (PGSIZE * 525320) reset;
  '(d, m1) ← kalloc m;
  m2 ← fill_page d 0 m1;
  Ok (d, m2).

(** An empty page directory on a free page. *)
Lemma first_space kend m d l :
  kmem_ok kend m (d :: l) → ∃ m1 m2, kalloc m = Ok (d, m1) ∧ fill_page d 0 m1 = Ok m2 ∧ vm_ok kend m2 l [] d ∅ ∅.
Proof.
  intros Hk. pose proof (kalloc_spec _ m (d :: l) Hk) as (m1 & Ha & Hk1 & Hd & Hdl & _). exists m1. eexists. split; [exact Ha|].
  rewrite fill_page_Ok by (apply Hd || apply (ko_pages _ _ _ Hk1)). split; [reflexivity|].
  assert (wf_page (replicate PGBYTES (u8 0))) as Hw by (apply wf_fill; split; [apply Z.le_refl|reflexivity]).
  apply (vm_empty kend); [exact (kmem_set kend _ _ _ _ Hk1 Hdl Hw)|exact Hd| |].
  - apply NoDup_cons. exact (conj Hdl (ko_nodup _ _ _ Hk1)).
  - rewrite pgc_set, decide_True by reflexivity. reflexivity.
Qed.

Lemma arena_ok : ∃ d m l, arena = Ok (d, m) ∧ vm_ok arena_end m l [] d ∅ ∅ ∧ length l = 7%nat.
Proof.
  destruct (freerange_spec arena_end reset [] (PGSIZE * 525312) (PGSIZE * 525320) (PGSIZE * 525312) 8) as (m & l & Hf & Hk & Hl).
  { apply reset_ok. } { done. } { unfold PGSIZE. lia. }
  { apply Forall_forall. intros x (i & Hi & ->)%elem_pages_from. rewrite <- Z.mul_add_distr_l.
    apply page_of; unfold arena_end, PGSIZE, KERNBASE, PHYSTOP; lia. }
  { intros x _. apply not_elem_of_nil. }
  rewrite app_nil_r in Hl. destruct l as [|d l]; [by apply Permutation_nil_l in Hl|].
  destruct (first_space arena_end m d l Hk) as (m1 & m2 & Ha & Hz & Hv). exists d, m2, l. unfold arena. rewrite Hf, bind_ret, Ha, bind_ret, Hz, bind_ret.
  split; [reflexivity|]. split; [exact Hv|]. apply Permutation_length in Hl. by injection Hl.
Qed.

(** C31. [allocuvm] from [oldsz] to [newsz] below the kernel: it always
    returns, and it conserves pages.  If it returns [newsz], exactly the pages
    between the two sizes were added, each writable by the user, on a page of
    its own and zeroed; everything mapped before is still mapped with the same
    contents.  If it returns 0 the address space maps what it mapped before,
    and fewer than two pages were free for each page asked. *)
Theorem allocuvm_grows (kend : Z) m l R d T M oldsz newsz :
  KERNBASE < kend → vm_ok kend m l R d T M → 0 ≤ oldsz → oldsz ≤ newsz → newsz < KERNBASE →
  (∀ n, npages oldsz ≤ n → PGSIZE * n < newsz → M !! n = None) →
  ∃ r m' l' T' M', allocuvm kend d oldsz newsz m = Ok (r, m') ∧ vm_ok kend m' l' R d T' M' ∧
    owned d T' M' ++ R ++ l' ≡ₚ owned d T M ++ R ++ l ∧ kept m m' (frames M ++ R) ∧
    (r = newsz ∧ grown kend m' (npages oldsz) (npages newsz) M M' ∨
     r = 0 ∧ M' = M ∧ Z.of_nat (length l) < 2 * (npages newsz - npages oldsz)).
Proof. intros Hend Hv H0 Hle Hk Hf. by apply (allocuvm_spec kend Hend R d oldsz newsz M H0 Hle Hk Hf m l T). Qed.

Lemma allocuvm_grows_witness :
  ∃ d m, arena = Ok (d, m) ∧ ∃ r m' l' T' M', allocuvm arena_end d 0 8192 m = Ok (r, m') ∧ vm_ok arena_end m' l' [] d T' M' ∧
    r = 8192 ∧ grown arena_end m' 0 2 ∅ M'.
Proof.
  destruct arena_ok as (d & m & l & Ha & Hv & Hl). exists d, m. split; [exact Ha|].
  destruct (allocuvm_grows arena_end m l [] d ∅ ∅ 0 8192 ltac:(done) Hv ltac:(done) ltac:(done) ltac:(done) (λ n _ _, lookup_empty (M := gmap Z) n))
    as (r & m' & l' & T' & M' & Hr & Hv' & _ & _ & Hg). destruct Hg as [[Hgr Hg]|(_ & _ & Hlt)]; [|rewrite Hl in Hlt; done].
  exists r, m', l', T', M'. exact (conj Hr (conj Hv' (conj Hgr Hg))).
Defined.

(** C32. Fork's copy of an address space, given that the parent maps every page
    below [sz]: when it fails, every page it took is free again.  When it
    succeeds, the child maps each page of the parent with the same flags to a
    page of its own with the same contents and has the kernel half of every
    address space; the pages of parent and child are disjoint, and nothing of
    the parent or of anyone else was changed.  Freeing the child then gives
    back exactly the pages the copy took. *)
Theorem copyuvm_isolated (kend kdata : Z) m l R p Tp Mp sz :
  KERNBASE < kend → kdata mod PGSIZE = 0 → KERNLINK < kdata → kdata < KERNBASE + PHYSTOP →
  vm_ok kend m l R p Tp Mp → 0 ≤ sz ≤ KERNBASE → (∀ n, 0 ≤ n → PGSIZE * n < sz → is_Some (Mp !! n)) →
  ∃ d m', copyuvm kend kdata p sz m = Ok (d, m') ∧ kept m m' (owned p Tp Mp ++ R) ∧
    (d = 0 ∧ (∃ l', kmem_ok kend m' l' ∧ l' ≡ₚ l) ∨
     d ≠ 0 ∧ ∃ l' T M, space_ok kend m' d T M ∧ NoDup (owned d T M ++ owned p Tp Mp ++ R ++ l') ∧
       (∀ n, if decide (0 ≤ n < npages sz) then
               ∃ e pg, Mp !! n = Some e ∧ M !! n = Some (leaf (V2P pg) (PTE_FLAGS e)) ∧ pgc m' pg = pgc m (frame e)
             else M !! n = kern_of (kmap kdata) n) ∧
       ∃ m'' l'', freevm kend d m' = Ok m'' ∧ kmem_ok kend m'' l'' ∧ l'' ≡ₚ l ∧ kept m m'' (owned p Tp Mp ++ R)).
Proof.
  intros Hend H1 H2 H3 Hv Hsz Hfull.
  destruct (copyuvm_spec kend Hend kdata H1 H2 H3 m l R p Tp Mp sz Hv Hsz Hfull)
    as [(d & m' & l' & T & M & Hc & Hv' & Ht & Hk & HM)|(m' & l' & Hc & Hk & Hl & Hkept)]; [|exists 0, m'; eauto 8].
  exists d, m'. split; [done|]. split; [done|]. right. pose proof Hv' as [Hk' Hs' Hn'].
  pose proof (page_range _ _ (so_page _ _ _ _ _ Hs')). split; [lia|]. exists l', T, M. split; [done|].
  rewrite <- app_assoc in Hn'. split; [done|]. split.
  - intros n. specialize (HM n). case_decide as Hn; [|done]. destruct HM as (e & pg & He & HMn & _ & Hx). exists e, pg. split; [done|].
    split; [done|]. rewrite Hx. apply Hk. apply elem_of_app. left. right. apply elem_of_app. right. eapply elem_frames; [done|].
    pose proof (proj2 (npages_lt n sz) (proj2 Hn)). unfold PGSIZE, KERNBASE, NUSER in *. lia.
  - destruct (freevm_spec kend Hend _ _ _ _ _ _ Hv') as (m2 & l2 & Hf & Hk2 & Hl2 & Hkept2). exists m2, l2. split; [done|]. split; [done|].
    split; [|by eapply kept_same]. unfold total in Ht. apply (Permutation_app_inv_l (owned p Tp Mp ++ R)). rewrite Hl2.
    transitivity (owned d T M ++ (owned p Tp Mp ++ R) ++ l'); [solve_Permutation|]. rewrite Ht. solve_Permutation.
Qed.

Definition arena_data : Z := KERNBASE + 1081344.
Lemma arena_sizes : KERNBASE < arena_end ∧ arena_data mod PGSIZE = 0 ∧ KERNLINK < arena_data ∧ arena_data < KERNBASE + PHYSTOP ∧ 0 ≤ 8192 ≤ KERNBASE.
Proof. by split_and!. Qed.

Lemma copyuvm_isolated_witness :
  ∃ m l p Tp Mp, vm_ok arena_end m l [] p Tp Mp ∧ is_Some (Mp !! 0) ∧ is_Some (Mp !! 1) ∧
    ∃ d m', copyuvm arena_end arena_data p 8192 m = Ok (d, m').
Proof.
  destruct arena_ok as (d & m & l & Ha & Hv & Hl). destruct arena_sizes as (A1 & A2 & A3 & A4 & A5).
  destruct (allocuvm_spec arena_end A1 [] d 0 8192 ∅ ltac:(done) ltac:(done) ltac:(done) (λ n _ _, lookup_empty (M := gmap Z) n) m l ∅ Hv)
    as (r & m' & l' & T' & M' & Hr & Hv' & _ & _ & Hg). destruct Hg as [[_ Hg]|(_ & _ & Hlt)]; [|rewrite Hl in Hlt; done].
  assert (∀ n, 0 ≤ n < 2 → is_Some (M' !! n)) as Hfull.
  { intros n Hn. specialize (Hg n). rewrite decide_True in Hg by exact Hn. destruct Hg as (pg & -> & _). eauto. }
  exists m', l', d, T', M'. split; [exact Hv'|]. split; [apply Hfull; lia|]. split; [apply Hfull; lia|].
  destruct (copyuvm_isolated arena_end arena_data m' l' [] d T' M' 8192 A1 A2 A3 A4 Hv' A5)
    as (d' & m2 & Hc & _); [intros n Hn Hlt; apply Hfull; unfold PGSIZE in *; lia|]. exists d', m2. exact Hc.
Defined.

(** ** The unchecked walk *)

(** [copyout] to a user address whose page table does not exist does not
    return -1: [uva2ka] dereferences the null pointer of [walkpgdir]. *)
Lemma copyout_null (kend : Z) m l R d T M n src :
  vm_ok kend m l R d T M → 0 ≤ n < NUSER → T !! (n / 1024) = None → copyout d (PGSIZE * n) src 4 m = Fault "null pte".
Proof.
  intros Hv Hn Ht. unfold copyout. cbn [copyout_loop Z.to_nat]. rewrite decide_True by done.
  assert (PGROUNDDOWN (PGSIZE * n) = PGSIZE * n) as ->. { rewrite <- (Z.add_0_r (PGSIZE * n)) at 1. by apply PGROUNDDOWN_va. }
  unfold uva2ka. pose proof (walk_None _ _ _ _ _ _ _ Hv n 0 ltac:(unfold NVPN, NUSER in *; lia) ltac:(done) Ht) as Hw.
  rewrite Z.add_0_r in Hw. by rewrite Hw, bind_ret, decide_True.
Qed.
