(* ===== verification/Console.v ===== *)
(** * The console: [console.c]

    Output goes to the serial line and to the text screen; input is a ring of
    128 characters with three free-running [uint] indices, edited by
    [consoleintr] and drained by [consoleread].  The inode lock that
    [consoleread] and [consolewrite] give up meanwhile and [cons.lock] are not
    part of the state; a read is cut where it sleeps, and [c_sleep] are the
    processes asleep on [&input.r]. *)

From S2P Require Import Prelude.
From S2P Require Import Bytes.
From S2P Require Import Ulib.

Local Open Scope Z_scope.

Definition BACKSPACE : Z := 256.
Definition INPUT_BUF : Z := 128.

(** [C(x)]: the code of control-[x]. *)
Definition Ctrl (x : Z) : Z := x - 64.
Definition ctrl_P : Z := Ctrl 80.
Definition ctrl_U : Z := Ctrl 85.
Definition ctrl_H : Z := Ctrl 72.
Definition ctrl_D : Z := Ctrl 68.

Record console := mkcons {
  c_buf : list Z; c_r : Z; c_w : Z; c_e : Z;   (* input *)
  c_sleep : list Z;
  c_uart : list Z;                             (* bytes sent to COM1 *)
  c_crt : list Z; c_pos : Z;                   (* CGA memory, cursor registers *)
  c_panicked : bool
}.
#[export] Instance console_fields : Fields console := λ s,
  mkcons (c_buf s) (c_r s) (c_w s) (c_e s) (c_sleep s) (c_uart s) (c_crt s) (c_pos s) (c_panicked s).

(** ** Output *)

Definition cell (c : Z) : Z := Z.lor (Z.land c 255) 1792.  (* black on white *)
Definition blank : Z := Z.lor 32 1792.

(** The memory and the cursor after a character. *)
Definition cgaputc (c : Z) (crt : list Z) (pos : Z) : outcome (list Z * Z) :=
  '(crt, pos) ← (if decide (c = 10) then Ok (crt, pos + (80 - pos mod 80))
                 else if decide (c = BACKSPACE) then Ok (crt, if decide (0 < pos) then pos - 1 else pos)
                 else crt' ← aset crt pos (cell c); Ok (crt', pos + 1));
  if decide (pos < 0 ∨ 25 * 80 < pos) then Panic "pos under/overflow"
  else
    '(crt, pos) ← (if decide (24 ≤ pos / 80) then
                     rows ← bload crt 80 (23 * 80);
                     crt1 ← bstore crt 0 rows;
                     let pos := pos - 80 in
                     crt2 ← bstore crt1 pos (replicate (Z.to_nat (24 * 80 - pos)) 0);
                     Ok (crt2, pos)
                   else Ok (crt, pos));
    crt' ← aset crt pos blank;
    Ok (crt', u16 pos).

Definition uartputc (c : Z) (s : console) : console := s <| c_uart ::= λ o, o ++ [u8 c] |>.

Definition consputc (c : Z) (s : console) : outcome console :=
  if c_panicked s then Fault "halted"
  else
    let s1 := if decide (c = BACKSPACE) then uartputc 8 (uartputc 32 (uartputc 8 s)) else uartputc c s in
    '(crt, pos) ← cgaputc c (c_crt s1) (c_pos s1);
    Ok (s1 <| c_crt := crt |> <| c_pos := pos |>).

Fixpoint consputs (cs : list Z) (s : console) : outcome console :=
  match cs with
  | [] => Ok s
  | c :: cs' => s1 ← consputc c s; consputs cs' s1
  end.

(** [buf] holds at least [n] bytes. *)
Definition consolewrite (buf : list Z) (n : Z) (s : console) : outcome (Z * console) :=
  l ← bload buf 0 (Z.to_nat n);
  s1 ← consputs l s;
  Ok (n, s1).

(** ** Formatted output *)

(** [digits] are lower case, unlike those of [printf]. *)
Definition kdigit (d : Z) : Z := if decide (d < 10) then 48 + d else 87 + d.

Fixpoint kdigits_loop (fuel : nat) (x base : Z) (buf : list Z) (i : Z) : outcome (list Z * Z) :=
  buf' ← aset buf i (kdigit (x mod base));
  if decide (x / base ≠ 0) then
    match fuel with
    | O => Fault "fuel"
    | S fuel' => kdigits_loop fuel' (x / base) base buf' (i + 1)
    end
  else Ok (buf', i + 1).

Definition kprintint (stack : list Z) (xx base : Z) (sign : bool) : outcome (list Z) :=
  let neg := bool_decide (sign = true ∧ xx < 0) in
  let x := if neg then u32 (- xx) else u32 xx in
  '(buf, i) ← kdigits_loop 32 x base stack 0;
  '(buf, i) ← (if neg then buf' ← aset buf i 45; Ok (buf', i + 1) else Ok (buf, i));
  put_down buf (Z.to_nat i).

Section cprintf.
Context (str : Z → list Z) (stack : list Z).

(** The characters given to [consputc], in order. *)
Fixpoint cprintf_loop (fmt argp : list Z) : outcome (list Z) :=
  match fmt with
  | [] => Fault "array read out of bounds"
  | c :: fmt' =>
      if decide (c = 0) then Ok []
      else if decide (c ≠ 37) then r ← cprintf_loop fmt' argp; Ok (c :: r)
      else
        match fmt' with
        | [] => Fault "array read out of bounds"
        | c :: fmt'' =>
            if decide (c = 0) then Ok []
            else if decide (c = 100) then
              a ← aget argp 0; o ← kprintint stack (i32 a) 10 true; r ← cprintf_loop fmt'' (drop 1 argp); Ok (o ++ r)
            else if decide (c = 120 ∨ c = 112) then
              a ← aget argp 0; o ← kprintint stack (i32 a) 16 false; r ← cprintf_loop fmt'' (drop 1 argp); Ok (o ++ r)
            else if decide (c = 115) then
              a ← aget argp 0;
              o ← put_str (if decide (a = 0) then null_str else str a);
              r ← cprintf_loop fmt'' (drop 1 argp); Ok (o ++ r)
            else if decide (c = 37) then r ← cprintf_loop fmt'' argp; Ok (37 :: r)
            else r ← cprintf_loop fmt'' argp; Ok (37 :: c :: r)
        end
  end.
Definition cprintf (fmt argp : list Z) (s : console) : outcome console :=
  cs ← cprintf_loop fmt argp; consputs cs s.
End cprintf.

(** ** Input *)

(** Kill line. *)
Fixpoint kill_loop (fuel : nat) (s : console) : outcome console :=
  if decide (c_e s = c_w s) then Ok s
  else
    c ← aget (c_buf s) (u32 (c_e s - 1) mod INPUT_BUF);
    if decide (c = 10) then Ok s
    else
      match fuel with
      | O => Fault "fuel"
      | S fuel' => s1 ← consputc BACKSPACE (s <| c_e := u32 (c_e s - 1) |>); kill_loop fuel' s1
      end.

(** One character; whether a process listing is due. *)
Definition consolekey (c : Z) (s : console) : outcome (bool * console) :=
  if decide (c = ctrl_P) then Ok (true, s)
  else if decide (c = ctrl_U) then s1 ← kill_loop (Z.to_nat (u32 (c_e s - c_w s))) s; Ok (false, s1)
  else if decide (c = ctrl_H ∨ c = 127) then
    if decide (c_e s ≠ c_w s) then s1 ← consputc BACKSPACE (s <| c_e := u32 (c_e s - 1) |>); Ok (false, s1)
    else Ok (false, s)
  else if decide (c ≠ 0 ∧ u32 (c_e s - c_r s) < INPUT_BUF) then
    let c := if decide (c = 13) then 10 else c in
    b ← aset (c_buf s) (c_e s mod INPUT_BUF) (u8 c);
    s1 ← consputc c (s <| c_buf := b |> <| c_e := u32 (c_e s + 1) |>);
    if decide (c = 10 ∨ c = ctrl_D ∨ c_e s1 = u32 (c_r s1 + INPUT_BUF))
    then Ok (false, s1 <| c_w := c_e s1 |> <| c_sleep := [] |>)
    else Ok (false, s1)
  else Ok (false, s).

(** [getc] delivers [cs] and then -1. *)
Fixpoint consoleintr (cs : list Z) (s : console) : outcome (bool * console) :=
  match cs with
  | [] => Ok (false, s)
  | c :: cs' =>
      '(d1, s1) ← consolekey c s;
      '(d2, s2) ← consoleintr cs' s1;
      Ok (d1 || d2, s2)
  end.

(** A read returns, or sleeps with [n] characters still wanted. *)
Inductive cresult := CRet (r : Z) | CSleep (n : nat).

(** From the head of the loop, [n] of [target] characters being wanted: the
    result, and the bytes stored at [dst]. *)
Fixpoint consoleread_loop (pid : Z) (killed : bool) (target n : nat) (s : console) : outcome (cresult * list Z * console) :=
  match n with
  | O => Ok (CRet (Z.of_nat target), [], s)
  | S n' =>
      if decide (c_r s = c_w s) then
        if killed then Ok (CRet (-1), [], s) else Ok (CSleep n, [], s <| c_sleep ::= λ l, pid :: l |>)
      else
        c ← aget (c_buf s) (c_r s mod INPUT_BUF);
        let s1 := s <| c_r := u32 (c_r s + 1) |> in
        if decide (c = ctrl_D) then
          let s2 := if decide (n < target)%nat then s1 <| c_r := u32 (c_r s1 - 1) |> else s1 in
          Ok (CRet (Z.of_nat (target - n)), [], s2)
        else if decide (c = 10) then Ok (CRet (Z.of_nat (target - n')), [c], s1)
        else
          '(r, l, s2) ← consoleread_loop pid killed target n' s1;
          Ok (r, c :: l, s2)
  end.
Definition consoleread (pid : Z) (killed : bool) (n : Z) (s : console) : outcome (cresult * list Z * console) :=
  if decide (n ≤ 0) then Ok (CRet 0, [], s)
  else consoleread_loop pid killed (Z.to_nat n) (Z.to_nat n) s.
