(* ===== verification/Kbd.v ===== *)
(** * The keyboard: [kbd.c], [kbd.h]

    Scan codes become characters through tables selected by the modifier keys;
    the data port is the list of the bytes it will deliver. *)

From S2P Require Import Prelude.
From S2P Require Import Bytes.
From S2P Require Import Console.

Local Open Scope Z_scope.

Definition SHIFT : Z := 1.
Definition CTL : Z := 2.
Definition ALT : Z := 4.
Definition CAPSLOCK : Z := 8.
Definition NUMLOCK : Z := 16.
Definition SCROLLLOCK : Z := 32.
Definition E0ESC : Z := 64.

(** A table of 256 entries: the first ones, and some given by index. *)
Definition table (first : list Z) (sparse : list (nat * Z)) : list Z :=
  foldl (λ t p, <[p.1 := p.2]> t) (first ++ replicate (256 - length first) 0) sparse.

Definition shiftcode : list Z :=
  table []
    [(29%nat, 2); (42%nat, 1); (54%nat, 1); (56%nat, 4); (157%nat, 2); (184%nat, 4)].
Definition togglecode : list Z :=
  table []
    [(58%nat, 8); (69%nat, 16); (70%nat, 32)].
Definition normalmap : list Z :=
  table [
     0; 27; 49; 50; 51; 52; 53; 54;
     55; 56; 57; 48; 45; 61; 8; 9;
     113; 119; 101; 114; 116; 121; 117; 105;
     111; 112; 91; 93; 10; 0; 97; 115;
     100; 102; 103; 104; 106; 107; 108; 59;
     39; 96; 0; 92; 122; 120; 99; 118;
     98; 110; 109; 44; 46; 47; 0; 42;
     0; 32; 0; 0; 0; 0; 0; 0;
     0; 0; 0; 0; 0; 0; 0; 55;
     56; 57; 45; 52; 53; 54; 43; 49;
     50; 51; 48; 46; 0; 0; 0; 0]
    [(156%nat, 10); (181%nat, 47); (200%nat, 226); (208%nat, 227); (201%nat, 230); (209%nat, 231); (203%nat, 228);
    (205%nat, 229); (151%nat, 224); (207%nat, 225); (210%nat, 232); (211%nat, 233)].
Definition shiftmap : list Z :=
  table [
     0; 27; 33; 64; 35; 36; 37; 94;
     38; 42; 40; 41; 95; 43; 8; 9;
     81; 87; 69; 82; 84; 89; 85; 73;
     79; 80; 123; 125; 10; 0; 65; 83;
     68; 70; 71; 72; 74; 75; 76; 58;
     34; 126; 0; 124; 90; 88; 67; 86;
     66; 78; 77; 60; 62; 63; 0; 42;
     0; 32; 0; 0; 0; 0; 0; 0;
     0; 0; 0; 0; 0; 0; 0; 55;
     56; 57; 45; 52; 53; 54; 43; 49;
     50; 51; 48; 46; 0; 0; 0; 0]
    [(156%nat, 10); (181%nat, 47); (200%nat, 226); (208%nat, 227); (201%nat, 230); (209%nat, 231); (203%nat, 228);
    (205%nat, 229); (151%nat, 224); (207%nat, 225); (210%nat, 232); (211%nat, 233)].
Definition ctlmap : list Z :=
  table [
     0; 0; 0; 0; 0; 0; 0; 0;
     0; 0; 0; 0; 0; 0; 0; 0;
     17; 23; 5; 18; 20; 25; 21; 9;
     15; 16; 0; 0; 13; 0; 1; 19;
     4; 6; 7; 8; 10; 11; 12; 0;
     0; 0; 0; 28; 26; 24; 3; 22;
     2; 14; 13; 0; 0; 239; 0; 0]
    [(156%nat, 13); (181%nat, 239); (200%nat, 226); (208%nat, 227); (201%nat, 230); (209%nat, 231); (203%nat,
    228); (205%nat, 229); (151%nat, 224); (207%nat, 225); (210%nat, 232); (211%nat, 233)].

(** [charcode[shift & (CTL | SHIFT)]] *)
Definition charcode (i : Z) : outcome (list Z) :=
  if decide (i = 0) then Ok normalmap else if decide (i = 1) then Ok shiftmap
  else if decide (i = 2 ∨ i = 3) then Ok ctlmap else Fault "array read out of bounds".

(** The character for a byte of the data port, and the new [shift]. *)
Definition kbdcode (shift data : Z) : outcome (Z * Z) :=
  if decide (data = 224) then Ok (0, Z.lor shift E0ESC)
  else if decide (Z.land data 128 ≠ 0) then
    let data := if decide (Z.land shift E0ESC ≠ 0) then data else Z.land data 127 in
    sc ← aget shiftcode data;
    Ok (0, Z.land shift (Z.lnot (Z.lor sc E0ESC)))
  else
    let '(data, shift) := if decide (Z.land shift E0ESC ≠ 0) then (Z.lor data 128, Z.land shift (Z.lnot E0ESC)) else (data, shift) in
    sc ← aget shiftcode data;
    tc ← aget togglecode data;
    let shift := Z.lxor (Z.lor shift sc) tc in
    m ← charcode (Z.land shift (Z.lor CTL SHIFT));
    c ← aget m data;
    let c := if decide (Z.land shift CAPSLOCK ≠ 0) then
               if decide (97 ≤ c ∧ c ≤ 122) then c + (65 - 97)
               else if decide (65 ≤ c ∧ c ≤ 90) then c + (97 - 65) else c
             else c in
    Ok (c, shift).

(** [kbdgetc] on the bytes waiting at the port: the character or -1, the bytes
    left and [shift]. *)
Definition kbdgetc (shift : Z) (port : list Z) : outcome (Z * Z * list Z) :=
  match port with
  | [] => Ok (-1, shift, [])
  | data :: port' => '(c, shift') ← kbdcode shift data; Ok (c, shift', port')
  end.

(** [while((c = getc()) >= 0)] of [consoleintr], with [getc] = [kbdgetc]: a
    character is handled before the next byte is read. *)
Fixpoint kbdintr_loop (fuel : nat) (shift : Z) (port : list Z) (s : console) : outcome (bool * Z * console) :=
  '(c, shift1, port1) ← kbdgetc shift port;
  if decide (0 ≤ c) then
    match fuel with
    | O => Fault "fuel"
    | S fuel' =>
        '(d1, s1) ← consolekey c s;
        '(d2, shift2, s2) ← kbdintr_loop fuel' shift1 port1 s1;
        Ok (d1 || d2, shift2, s2)
    end
  else Ok (false, shift1, s).
Definition kbdintr (shift : Z) (port : list Z) (s : console) : outcome (bool * Z * console) :=
  kbdintr_loop (length port) shift port s.

(** ** The tables are large enough, and hold bytes *)

Lemma tables_ok : Forall (λ t, length t = 256%nat ∧ Forall (λ c, 0 ≤ c < 256) t) [normalmap; shiftmap; ctlmap] ∧
  length shiftcode = 256%nat ∧ length togglecode = 256%nat.
Proof. split; [|done]. repeat constructor; apply (bool_decide_eq_true_1 _); by vm_compute. Qed.

Lemma charcode_ok i : 0 ≤ i < 4 → ∃ m, charcode i = Ok m ∧ length m = 256%nat ∧ Forall (λ c, 0 ≤ c < 256) m.
Proof.
  intros Hi. destruct tables_ok as [Ht _]. rewrite !Forall_cons in Ht. destruct Ht as (H1 & H2 & H3 & _). unfold charcode.
  case_decide; [by eexists|]. case_decide; [by eexists|]. rewrite decide_True by lia. by eexists.
Qed.

Lemma land_3 x : 0 ≤ Z.land x (Z.lor CTL SHIFT) < 4.
Proof. change (Z.lor CTL SHIFT) with (Z.ones 2). rewrite Z.land_ones by lia. by apply Z.mod_pos_bound. Qed.

Lemma byte_bits x : 0 ≤ x < 256 → 0 ≤ Z.lor x 128 < 256 ∧ 0 ≤ Z.land x 127 < 256.
Proof.
  intros Hx. split.
  - split; [apply Z.lor_nonneg; lia|]. change 256 with (2 ^ 8). apply Z.log2_lt_cancel. rewrite Z.log2_lor by lia.
    change (Z.log2 128) with 7. change (Z.log2 (2 ^ 8)) with 8. destruct (decide (x = 0)) as [->|]; [done|].
    apply Z.max_lub_lt; [|lia]. apply Z.log2_lt_pow2; lia.
  - change 127 with (Z.ones 7). rewrite Z.land_ones by lia. pose proof (Z.mod_pos_bound x (2 ^ 7) ltac:(lia)). lia.
Qed.

(** A byte from the port is a key code the console accepts, and no table is
    left. *)
Lemma kbdcode_ok shift data : 0 ≤ data < 256 → ∃ c shift', kbdcode shift data = Ok (c, shift') ∧ 0 ≤ c < 256.
Proof.
  intros Hd. destruct tables_ok as (_ & Hs & Ht). destruct (byte_bits data Hd) as [Hor Hand]. unfold kbdcode.
  case_decide as He0; [by eexists _, _|]. case_decide as Hrel.
  - destruct (aget_in shiftcode (if decide (Z.land shift E0ESC ≠ 0) then data else Z.land data 127)) as [sc Hsc];
      [rewrite Hs; case_decide; lia|]. rewrite Hsc, bind_ret. by eexists _, _.
  - destruct (if decide (Z.land shift E0ESC ≠ 0) then (Z.lor data 128, Z.land shift (Z.lnot E0ESC)) else (data, shift)) as [d sh] eqn:Hds.
    assert (0 ≤ d < 256) as Hdr by (case_decide; simplify_eq; done).
    destruct (aget_in shiftcode d) as [sc ->]; [lia|]. rewrite bind_ret. destruct (aget_in togglecode d) as [tc ->]; [lia|]. rewrite bind_ret.
    destruct (charcode_ok (Z.land (Z.lxor (Z.lor sh sc) tc) (Z.lor CTL SHIFT)) (land_3 _)) as (m & -> & Hm & Hmr). rewrite bind_ret.
    destruct (aget_in m d) as [c Hc]; [lia|]. rewrite Hc, bind_ret. apply aget_Ok in Hc as [_ Hc].
    pose proof (Forall_lookup_1 _ _ _ _ Hmr Hc) as Hcr. cbn in Hcr. eexists _, _. split; [done|]. repeat case_decide; lia.
Qed.

(** The characters the bytes at the port stand for. *)
Fixpoint kbd_chars (shift : Z) (port : list Z) : list Z * Z :=
  match port with
  | [] => ([], shift)
  | data :: port' =>
      match kbdcode shift data with
      | Ok (c, shift') => let '(cs, sh) := kbd_chars shift' port' in (c :: cs, sh)
      | _ => ([], shift)
      end
  end.

Lemma kbd_chars_ok shift port : Forall (λ d, 0 ≤ d < 256) port → Forall (λ c, 0 ≤ c < 256) (kbd_chars shift port).1.
Proof.
  revert shift. induction port as [|d port IH]; intros shift Hp; [constructor|]. apply Forall_cons in Hp as [Hd Hp]. cbn [kbd_chars].
  destruct (kbdcode_ok shift d Hd) as (c & sh & -> & Hc). specialize (IH sh Hp). destruct (kbd_chars sh port) as [cs sh']. by constructor.
Qed.

(** Reading the keyboard from the console's interrupt handler is handling the
    characters one by one. *)
Lemma kbdintr_chars shift port s :
  Forall (λ d, 0 ≤ d < 256) port →
  kbdintr shift port s = '(d, s') ← consoleintr (kbd_chars shift port).1 s; Ok (d, (kbd_chars shift port).2, s').
Proof.
  unfold kbdintr. revert shift s. induction port as [|d port IH]; intros shift s Hp; [done|]. apply Forall_cons in Hp as [Hd Hp].
  cbn [kbdintr_loop kbdgetc kbd_chars length]. destruct (kbdcode_ok shift d Hd) as (c & sh & -> & Hc). rewrite !bind_ret.
  rewrite decide_True by lia. destruct (kbd_chars sh port) as [cs sh'] eqn:Hcs. cbn [fst snd consoleintr].
  destruct (consolekey c s) as [[d1 s1]| |]; [|done..]. rewrite !bind_ret, IH, Hcs by done. cbn [fst snd].
  destruct (consoleintr cs s1) as [[d2 s2]| |]; [|done..]. by rewrite !bind_ret.
Qed.
