(* ===== verification/ConsoleSpec.v ===== *)
(** * What the console promises

    The abstract console is a queue of committed input and the line being
    edited.  The ring with its three wrapping indices implements it; screen
    output never leaves the text page. *)

From S2P Require Import Prelude.
From S2P Require Import Bytes.
From S2P Require Import Ulib.
From S2P Require Import Console.
From S2P Require Import Kbd.

Local Open Scope Z_scope.

Lemma aset_in (l : list Z) i x : 0 ≤ i < Z.of_nat (length l) → ∃ l', aset l i x = Ok l' ∧ length l' = length l.
Proof. intros Hi. eexists. split; [by apply aset_Ok|apply length_insert]. Qed.
Lemma bload_in src off n : 0 ≤ off → (Z.to_nat off + n ≤ length src)%nat → ∃ l, bload src off n = Ok l ∧ length l = n.
Proof. intros H0 Hl. rewrite <- (Z2Nat.id off), bload_Ok by done. eexists. split; [done|]. by apply slice_length. Qed.
Lemma bstore_in dst off src :
  0 ≤ off → (Z.to_nat off + length src ≤ length dst)%nat → ∃ l, bstore dst off src = Ok l ∧ length l = length dst.
Proof. intros H0 Hl. rewrite <- (Z2Nat.id off), bstore_Ok by done. eexists. split; [done|]. apply length_inserts. Qed.

(** ** The screen *)

Record screen_ok (crt : list Z) (pos : Z) : Prop := {
  sc_len : length crt = 2000%nat;
  sc_pos : 0 ≤ pos < 24 * 80
}.

Lemma cgaputc_ok c crt pos : screen_ok crt pos → ∃ crt' pos', cgaputc c crt pos = Ok (crt', pos') ∧ screen_ok crt' pos'.
Proof.
  intros [Hl Hp]. unfold cgaputc.
  assert (∃ crt1 pos1, (if decide (c = 10) then Ok (crt, pos + (80 - pos mod 80))
                 else if decide (c = BACKSPACE) then Ok (crt, if decide (0 < pos) then pos - 1 else pos)
                 else crt' ← aset crt pos (cell c); Ok (crt', pos + 1)) = Ok (crt1, pos1) ∧
            length crt1 = 2000%nat ∧ 0 ≤ pos1 ≤ 24 * 80) as (crt1 & pos1 & -> & Hl1 & Hp1).
  { case_decide; [|case_decide].
    - eexists _, _. split; [done|]. split; [done|]. pose proof (Z.mod_pos_bound pos 80). Z.to_euclidean_division_equations; lia.
    - eexists _, _. split; [done|]. split; [done|]. case_decide; lia.
    - destruct (aset_in crt pos (cell c)) as (l & -> & Hl'); [lia|]. rewrite bind_ret. eexists _, _. split; [done|]. split; [congruence|lia]. }
  rewrite bind_ret, decide_False by lia.
  destruct (decide (24 ≤ pos1 / 80)) as [Hs|Hs].
  - assert (pos1 = 1920) as -> by (Z.to_euclidean_division_equations; lia).
    destruct (bload_in crt1 80 (23 * 80)) as (rows & -> & Hr); [lia|lia|]. rewrite bind_ret.
    destruct (bstore_in crt1 0 rows) as (crt2 & -> & Hl2); [lia|lia|]. rewrite bind_ret.
    destruct (bstore_in crt2 (1920 - 80) (replicate (Z.to_nat (24 * 80 - (1920 - 80))) 0)) as (crt3 & -> & Hl3); [lia|rewrite length_replicate; lia|].
    rewrite !bind_ret. destruct (aset_in crt3 (1920 - 80) blank) as (l & -> & Hl'); [lia|]. rewrite bind_ret.
    eexists _, _. split; [done|]. split; [lia|done].
  - assert (pos1 < 1920) by (Z.to_euclidean_division_equations; lia). rewrite bind_ret.
    destruct (aset_in crt1 pos1 blank) as (l & -> & Hl'); [lia|]. rewrite bind_ret. eexists _, _. split; [done|].
    unfold u16. rewrite Z.mod_small by lia. split; [lia|lia].
Qed.

Definition echo (c : Z) : list Z := if decide (c = BACKSPACE) then [8; 32; 8] else [u8 c].

(** Everything but the screen and the serial line. *)
Definition same_input (s s' : console) : Prop :=
  c_buf s' = c_buf s ∧ c_r s' = c_r s ∧ c_w s' = c_w s ∧ c_e s' = c_e s ∧ c_sleep s' = c_sleep s ∧ c_panicked s' = c_panicked s.

Lemma consputc_ok c s :
  screen_ok (c_crt s) (c_pos s) → c_panicked s = false →
  ∃ s', consputc c s = Ok s' ∧ screen_ok (c_crt s') (c_pos s') ∧ same_input s s' ∧ c_uart s' = c_uart s ++ echo c.
Proof.
  intros Hs Hp. unfold consputc, echo. rewrite Hp. case_decide as Hc.
  - destruct (cgaputc_ok c (c_crt s) (c_pos s) Hs) as (crt & pos & Hg & Hs'). cbn [c_crt c_pos] in *. cbn. rewrite Hg, bind_ret.
    eexists. split; [done|]. split; [done|]. split; [done|]. cbn. by rewrite <- !app_assoc.
  - destruct (cgaputc_ok c (c_crt s) (c_pos s) Hs) as (crt & pos & Hg & Hs'). cbn. rewrite Hg, bind_ret.
    eexists. split; [done|]. split; [done|]. by split.
Qed.

(** ** Wrapping indices *)

Lemma u32_diff a b : 0 ≤ a - b < 2 ^ 32 → u32 (u32 a - u32 b) = a - b.
Proof. intros. unfold u32. rewrite <- Zminus_mod. by apply Z.mod_small. Qed.
Lemma u32_inj a b : - 2 ^ 32 < a - b < 2 ^ 32 → u32 a = u32 b → a = b.
Proof. unfold u32. intros. Z.to_euclidean_division_equations; lia. Qed.
Lemma u32_u32_add a b : u32 (u32 a + b) = u32 (a + b).
Proof. unfold u32. by rewrite Zplus_mod_idemp_l. Qed.
Lemma u32_u32_sub a b : u32 (u32 a - b) = u32 (a - b).
Proof. unfold u32. by rewrite Zminus_mod_idemp_l. Qed.
Lemma u32_mod_buf x : u32 x mod INPUT_BUF = x mod INPUT_BUF.
Proof. unfold u32. symmetry. apply Znumtheory.Zmod_div_mod; [done|done|]. by exists (2 ^ 25). Qed.

(** ** The abstract console *)

Record line := mkline {
  a_done : list Z;    (* committed, not yet read *)
  a_line : list Z;    (* being edited *)
  a_sleep : list Z;   (* readers asleep *)
  a_out : list Z      (* sent to the serial line *)
}.
#[export] Instance line_fields : Fields line := λ a, mkline (a_done a) (a_line a) (a_sleep a) (a_out a).

Definition erase (k : nat) : list Z := mjoin (replicate k [8; 32; 8]).

Definition akey (c : Z) (a : line) : line :=
  if decide (c = ctrl_P) then a
  else if decide (c = ctrl_U) then
    a <| a_line := [] |> <| a_out ::= λ o, o ++ erase (length (a_line a)) |>
  else if decide (c = ctrl_H ∨ c = 127) then
    if decide (a_line a = []) then a
    else a <| a_line ::= λ l, take (length l - 1) l |> <| a_out ::= λ o, o ++ erase 1 |>
  else if decide (c ≠ 0 ∧ (length (a_done a ++ a_line a) < 128)%nat) then
    let c := if decide (c = 13) then 10 else c in
    let l := a_line a ++ [c] in
    let a := a <| a_out ::= λ o, o ++ [c] |> in
    if decide (c = 10 ∨ c = ctrl_D ∨ length (a_done a ++ l) = 128%nat)
    then a <| a_done ::= λ d, d ++ l |> <| a_line := [] |> <| a_sleep := [] |>
    else a <| a_line := l |>
  else a.

(** A read takes up to [n] characters, a line at most, of what is committed;
    control-D ends it, and is taken only by a read that gets nothing else. *)
Fixpoint aread (pid : Z) (killed : bool) (target n : nat) (a : line) : cresult * list Z * line :=
  match n with
  | O => (CRet (Z.of_nat target), [], a)
  | S n' =>
      match a_done a with
      | [] => if killed then (CRet (-1), [], a) else (CSleep n, [], a <| a_sleep ::= λ l, pid :: l |>)
      | c :: d =>
          if decide (c = ctrl_D) then
            (CRet (Z.of_nat (target - n)), [], if decide (n < target)%nat then a else a <| a_done := d |>)
          else if decide (c = 10) then (CRet (Z.of_nat (target - n')), [c], a <| a_done := d |>)
          else let '(r, l, a') := aread pid killed target n' (a <| a_done := d |>) in (r, c :: l, a')
      end
  end.

Record ring_rel (s : console) (a : line) : Prop := {
  cr_len : length (c_buf s) = 128%nat;
  cr_r : 0 ≤ c_r s < 2 ^ 32;
  cr_w : c_w s = u32 (c_r s + Z.of_nat (length (a_done a)));
  cr_e : c_e s = u32 (c_r s + Z.of_nat (length (a_done a ++ a_line a)));
  cr_room : (length (a_done a ++ a_line a) ≤ 128)%nat;
  cr_data : ∀ i x, (a_done a ++ a_line a) !! i = Some x → c_buf s !! Z.to_nat ((c_r s + Z.of_nat i) mod INPUT_BUF) = Some x;
  cr_asleep : c_sleep s = a_sleep a;
  cr_wake : a_sleep a ≠ [] → a_done a = [];
  cr_out : c_uart s = a_out a;
  cr_screen : screen_ok (c_crt s) (c_pos s);
  cr_alive : c_panicked s = false
}.

(** A line break commits the line, so the line being edited has none. *)
Definition crel (s : console) (a : line) : Prop := ring_rel s a ∧ 10 ∉ a_line a.

(** The character before the edit index is the last of the line. *)
Lemma last_char s a c l :
  ring_rel s a → a_line a = l ++ [c] →
  u32 (c_e s - 1) = u32 (c_r s + Z.of_nat (length (a_done a ++ l))) ∧
  aget (c_buf s) (u32 (c_e s - 1) mod INPUT_BUF) = Ok c ∧ c_e s ≠ c_w s.
Proof.
  intros [Hlen Hr Hw He Hroom Hdata _ _ _ _ _] Hl. rewrite He, Hw. rewrite Hl in *. rewrite !length_app in *. cbn [length] in *.
  rewrite u32_u32_sub. split; [f_equal; lia|]. split.
  - rewrite u32_mod_buf. apply aget_Ok. split; [apply Z.mod_pos_bound; done|].
    replace (c_r s + Z.of_nat (length (a_done a) + (length l + 1)) - 1) with (c_r s + Z.of_nat (length (a_done a) + length l)) by lia.
    apply Hdata. rewrite app_assoc, lookup_app_r by (rewrite length_app; lia). rewrite length_app, Nat.sub_diag. done.
  - intros Heq. apply u32_inj in Heq; lia.
Qed.

Lemma drop_last s s1 a c l :
  ring_rel s a → a_line a = l ++ [c] → same_input (s <| c_e := u32 (c_e s - 1) |>) s1 → screen_ok (c_crt s1) (c_pos s1) →
  c_uart s1 = c_uart s ++ echo BACKSPACE → ring_rel s1 (a <| a_line := l |> <| a_out ::= λ o, o ++ erase 1 |>).
Proof.
  intros Hrel Hl (B & R & W & E & S & P) Hs Hu. destruct (last_char s a c l Hrel Hl) as (He1 & _ & _).
  destruct Hrel as [Hlen Hr Hw He Hroom Hdata Hsl Hwk Hout Hsc Hp]. cbn in B, R, W, E, S, P. rewrite Hl in *.
  split; cbn [a_done a_line a_sleep a_out]; rewrite ?B, ?R, ?W, ?E, ?S, ?P, ?Hu, ?Hout; try done.
  - cbn. rewrite !length_app in *. cbn in Hroom. lia.
  - cbn. intros i x Hx. apply Hdata. rewrite app_assoc. by apply lookup_app_l_Some.
Qed.

Lemma erase_S k : erase (S k) = [8; 32; 8] ++ erase k.
Proof. done. Qed.

Lemma out_app a l o1 o2 :
  a <| a_line := l |> <| a_out ::= λ o, o ++ o1 |> <| a_line := [] |> <| a_out ::= λ o, o ++ o2 |> =
  a <| a_line := [] |> <| a_out ::= λ o, o ++ (o1 ++ o2) |>.
Proof. destruct a as [d l' z o]. change (mkline d [] z ((o ++ o1) ++ o2) = mkline d [] z (o ++ (o1 ++ o2))). by rewrite app_assoc. Qed.

Lemma kill_loop_spec s a :
  crel s a →
  ∃ s', kill_loop (length (a_line a)) s = Ok s' ∧ crel s' (a <| a_line := [] |> <| a_out ::= λ o, o ++ erase (length (a_line a)) |>).
Proof.
  remember (length (a_line a)) as k eqn:Hk. revert s a Hk. induction k as [|k IH]; intros s a Hk [Hrel Hnl].
  - assert (a_line a = []) as Hnil by (by destruct (a_line a)). exists s. split.
    + cbn. rewrite decide_True; [done|]. rewrite (cr_w _ _ Hrel), (cr_e _ _ Hrel), Hnil. by rewrite app_nil_r.
    + replace (a <| a_line := [] |> <| a_out ::= λ o, o ++ erase 0 |>) with a; [done|].
      destruct a as [d l z o]; cbn in *; subst. unfold erase. change (mkline d [] z o = mkline d [] z (o ++ [])). by rewrite app_nil_r.
  - destruct (exists_last (l := a_line a)) as (l & c & Hl). { by destruct (a_line a). }
    destruct (last_char s a c l Hrel Hl) as (_ & Hget & Hne). cbn [kill_loop]. rewrite decide_False, Hget, bind_ret by done.
    rewrite Hl, elem_of_app, elem_of_cons in Hnl. rewrite decide_False by naive_solver.
    destruct (consputc_ok BACKSPACE (s <| c_e := u32 (c_e s - 1) |>)) as (s1 & -> & Hs1 & Hsame & Hu);
      [apply (cr_screen _ _ Hrel)|apply (cr_alive _ _ Hrel)|]. rewrite bind_ret.
    destruct (IH s1 (a <| a_line := l |> <| a_out ::= λ o, o ++ erase 1 |>)) as (s' & -> & Hrel').
    { cbn. rewrite Hl, length_app in Hk. cbn in Hk. lia. }
    { split; [exact (drop_last s s1 a c l Hrel Hl Hsame Hs1 Hu)|cbn; naive_solver]. }
    exists s'. split; [done|]. rewrite out_app in Hrel'. exact Hrel'.
Qed.

(** Storing a character at the edit index. *)
Lemma push_char s s1 a c :
  ring_rel s a → (length (a_done a ++ a_line a) < 128)%nat →
  same_input (s <| c_buf := <[Z.to_nat (c_e s mod INPUT_BUF) := c]> (c_buf s) |> <| c_e := u32 (c_e s + 1) |>) s1 →
  screen_ok (c_crt s1) (c_pos s1) → c_uart s1 = c_uart s ++ [c] →
  ring_rel s1 (a <| a_out ::= λ o, o ++ [c] |> <| a_line := a_line a ++ [c] |>).
Proof.
  intros Hrel Hroom (B & R & W & E & S & P) Hs Hu. cbn in B, R, W, E, S, P.
  destruct Hrel as [Hlen Hr Hw He _ Hdata Hsl Hwk Hout Hsc Hp].
  split; cbn; rewrite ?B, ?R, ?W, ?E, ?S, ?P, ?Hu, ?Hout; try done.
  - by rewrite length_insert.
  - rewrite He, u32_u32_add, !length_app. cbn [length]. f_equal. lia.
  - rewrite !length_app in *. cbn [length]. lia.
  - intros i x Hx. rewrite app_assoc in Hx. rewrite He, u32_mod_buf. set (k := length (a_done a ++ a_line a)) in *.
    destruct (decide (i = k)) as [->|Hik].
    + rewrite lookup_app_r, Nat.sub_diag in Hx by done. cbn in Hx. simplify_eq. apply list_lookup_insert_eq.
      pose proof (Z.mod_pos_bound (c_r s + Z.of_nat k) INPUT_BUF ltac:(done)). unfold INPUT_BUF in *. lia.
    + assert (i < k)%nat as Hlt. { apply lookup_lt_Some in Hx. rewrite length_app in Hx. fold k in Hx. cbn in Hx. lia. }
      rewrite lookup_app_l in Hx by done. rewrite list_lookup_insert_ne; [by apply Hdata|].
      intros Heq. apply Z2Nat.inj in Heq; [|apply Z.mod_pos_bound; done..]. unfold INPUT_BUF in *. Z.to_euclidean_division_equations; lia.
Qed.

Lemma commit_line s a l :
  ring_rel s a → a_line a = l →
  crel (s <| c_w := c_e s |> <| c_sleep := [] |>) (a <| a_done ::= λ d, d ++ l |> <| a_line := [] |> <| a_sleep := [] |>).
Proof.
  intros [Hlen Hr Hw He Hroom Hdata Hsl Hwk Hout Hsc Hp] <-. split; [|apply not_elem_of_nil].
  split; cbn; rewrite ?app_nil_r; try done.
Qed.

Lemma room_spec s a : ring_rel s a → u32 (c_e s - c_r s) = Z.of_nat (length (a_done a ++ a_line a)).
Proof.
  intros Hr. pose proof (cr_room _ _ Hr). rewrite (cr_e _ _ Hr). rewrite <- (u32_small (c_r s)) at 2 by apply (cr_r _ _ Hr).
  rewrite u32_diff by lia. lia.
Qed.

(** An ordinary character, when there is room. *)
Lemma consolekey_push c s a :
  crel s a → 0 ≤ c < 256 → (length (a_done a ++ a_line a) < 128)%nat →
  ∃ s', (b ← aset (c_buf s) (c_e s mod INPUT_BUF) (u8 c);
         s1 ← consputc c (s <| c_buf := b |> <| c_e := u32 (c_e s + 1) |>);
         if decide (c = 10 ∨ c = ctrl_D ∨ c_e s1 = u32 (c_r s1 + INPUT_BUF))
         then Ok (false, s1 <| c_w := c_e s1 |> <| c_sleep := [] |>)
         else Ok (false, s1)) = Ok (false, s') ∧
    crel s' (let l := a_line a ++ [c] in
             let a := a <| a_out ::= λ o, o ++ [c] |> in
             if decide (c = 10 ∨ c = ctrl_D ∨ length (a_done a ++ l) = 128%nat)
             then a <| a_done ::= λ d, d ++ l |> <| a_line := [] |> <| a_sleep := [] |>
             else a <| a_line := l |>).
Proof.
  intros [Hr Hnl] Hc Hlt. pose proof (Z.mod_pos_bound (c_e s) INPUT_BUF ltac:(done)) as Hm. pose proof (cr_len _ _ Hr) as Hlen.
  assert (aset (c_buf s) (c_e s mod INPUT_BUF) (u8 c) = Ok (<[Z.to_nat (c_e s mod INPUT_BUF) := c]> (c_buf s))) as ->.
  { apply aset_Ok. unfold u8. rewrite (Z.mod_small c) by lia. split; [unfold INPUT_BUF in *; lia|done]. }
  rewrite bind_ret. set (s0 := _ <| c_e := _ |>).
  destruct (consputc_ok c s0) as (s1 & -> & Hs1 & Hsame & Hu); [apply (cr_screen _ _ Hr)|apply (cr_alive _ _ Hr)|].
  rewrite bind_ret. assert (echo c = [c]) as Hecho.
  { unfold echo, BACKSPACE. rewrite decide_False by lia. unfold u8. by rewrite Z.mod_small by lia. }
  rewrite Hecho in Hu. pose proof (push_char s s1 a c Hr Hlt Hsame Hs1 Hu) as Hr1.
  assert (c_e s1 = u32 (c_r s1 + INPUT_BUF) ↔ length (a_done a ++ a_line a ++ [c]) = 128%nat) as Hfull.
  { pose proof (cr_room _ _ Hr1) as Hroom1. rewrite (cr_e _ _ Hr1). cbn in *. unfold INPUT_BUF. split.
    - intros Heq. apply u32_inj in Heq; lia.
    - intros ->. done. }
  cbn zeta. change (a_done (a <| a_out ::= λ o, o ++ [c] |>)) with (a_done a).
  destruct (decide (c = 10 ∨ c = ctrl_D ∨ c_e s1 = _)) as [Hcm|Hcm].
  - rewrite decide_True by (rewrite <- Hfull; exact Hcm). eexists. split; [done|].
    exact (commit_line s1 _ (a_line a ++ [c]) Hr1 eq_refl).
  - rewrite decide_False by (rewrite <- Hfull; exact Hcm). exists s1. split; [done|]. split; [exact Hr1|]. cbn.
    rewrite elem_of_app, elem_of_cons, elem_of_nil. naive_solver.
Qed.

Lemma consolekey_spec c s a :
  crel s a → 0 ≤ c < 256 → ∃ s', consolekey c s = Ok (bool_decide (c = ctrl_P), s') ∧ crel s' (akey c a).
Proof.
  intros Hrel Hc. unfold consolekey, akey. pose proof Hrel as [Hr Hnl]. pose proof (cr_room _ _ Hr) as Hroom.
  destruct (decide (c = ctrl_P)) as [HP|HP]; [exists s; by rewrite bool_decide_true|]. rewrite bool_decide_false by done.
  destruct (decide (c = ctrl_U)) as [HU|HU].
  { rewrite (cr_e _ _ Hr), (cr_w _ _ Hr), u32_diff by (rewrite length_app in *; lia).
    replace (Z.to_nat _) with (length (a_line a)) by (rewrite length_app; lia).
    destruct (kill_loop_spec s a Hrel) as (s' & -> & Hrel'). exists s'. by rewrite bind_ret. }
  destruct (decide (c = ctrl_H ∨ c = 127)) as [HH|HH].
  { destruct (decide (a_line a = [])) as [Hnil|Hcons].
    - rewrite decide_False; [by exists s|]. rewrite (cr_e _ _ Hr), (cr_w _ _ Hr), Hnil, app_nil_r. naive_solver.
    - destruct (exists_last Hcons) as (l & x & Hl). destruct (last_char s a x l Hr Hl) as (_ & _ & Hne). rewrite decide_True by done.
      destruct (consputc_ok BACKSPACE (s <| c_e := u32 (c_e s - 1) |>)) as (s1 & -> & Hs1 & Hsame & Hu);
        [apply (cr_screen _ _ Hr)|apply (cr_alive _ _ Hr)|]. rewrite bind_ret. exists s1. split; [done|].
      pose proof (drop_last s s1 a x l Hr Hl Hsame Hs1 Hu) as Hd.
      replace (a <| a_line ::= λ l, take (length l - 1) l |>) with (a <| a_line := l |>).
      + split; [exact Hd|]. cbn. rewrite Hl in Hnl. intros ?. apply Hnl, elem_of_app. by left.
      + destruct a as [d l' z o]. cbn in Hl. subst l'. change (mkline d l z o = mkline d (take (length (l ++ [x]) - 1) (l ++ [x])) z o).
        rewrite length_app, Nat.add_sub. by rewrite take_app_length. }
  destruct (decide (c ≠ 0 ∧ (length (a_done a ++ a_line a) < 128)%nat)) as [[Hc0 Hlt]|Hfull].
  - rewrite decide_True by (rewrite (room_spec s a Hr); unfold INPUT_BUF; lia).
    apply (consolekey_push (if decide (c = 13) then 10 else c)); [done|case_decide; lia|done].
  - rewrite decide_False by (rewrite (room_spec s a Hr); unfold INPUT_BUF; lia). by exists s.
Qed.

Lemma consoleintr_spec cs s a :
  crel s a → Forall (λ c, 0 ≤ c < 256) cs →
  ∃ s', consoleintr cs s = Ok (bool_decide (ctrl_P ∈ cs), s') ∧ crel s' (foldl (λ a c, akey c a) a cs).
Proof.
  revert s a. induction cs as [|c cs IH]; intros s a Hr Hcs.
  - exists s. by rewrite bool_decide_false by apply not_elem_of_nil.
  - apply Forall_cons in Hcs as [Hc Hcs]. destruct (consolekey_spec c s a Hr Hc) as (s1 & Hk & Hr1). cbn [consoleintr]. rewrite Hk, bind_ret.
    destruct (IH s1 _ Hr1 Hcs) as (s' & -> & Hr'). rewrite bind_ret. exists s'. split; [|exact Hr']. do 2 f_equal.
    rewrite <- bool_decide_or. apply bool_decide_ext. rewrite elem_of_cons. naive_solver.
Qed.

Lemma pop_char s a c d :
  crel s a → a_done a = c :: d →
  aget (c_buf s) (c_r s mod INPUT_BUF) = Ok c ∧ c_r s ≠ c_w s ∧
  crel (s <| c_r := u32 (c_r s + 1) |>) (a <| a_done := d |>).
Proof.
  intros [[Hlen Hr Hw He Hroom Hdata Hsl Hwk Hout Hsc Hp] Hnl] Hd. rewrite Hd in *. cbn [length app] in *.
  assert (a_sleep a = []) as Hns. { destruct (a_sleep a); [done|]. by specialize (Hwk ltac:(done)). }
  rewrite length_app in *. split_and!.
  - apply aget_Ok. split; [by apply Z.mod_pos_bound|]. specialize (Hdata 0%nat c eq_refl). by rewrite Z.add_0_r in Hdata.
  - rewrite Hw. rewrite <- (u32_small (c_r s)) at 1 by done. intros Heq. apply u32_inj in Heq; lia.
  - split; [|done]. split; cbn; try done.
    + apply u32_range.
    + rewrite Hw, u32_u32_add. f_equal. lia.
    + rewrite He, u32_u32_add, length_app. f_equal. lia.
    + rewrite length_app. lia.
    + intros i x Hx. rewrite <- Zplus_mod_idemp_l, u32_mod_buf, Zplus_mod_idemp_l. specialize (Hdata (S i) x Hx).
      by replace (c_r s + 1 + Z.of_nat i) with (c_r s + Z.of_nat (S i)) by lia.
Qed.

(** Putting the control-D back. *)
Lemma unpop s : 0 ≤ c_r s < 2 ^ 32 → s <| c_r := u32 (c_r s + 1) |> <| c_r := u32 (u32 (c_r s + 1) - 1) |> = s.
Proof. intros Hr. destruct s. cbn in *. rewrite u32_u32_sub, Z.add_simpl_r, u32_small by done. reflexivity. Qed.

Lemma consoleread_loop_spec pid killed target n s a :
  crel s a → (n ≤ target)%nat →
  ∃ s', consoleread_loop pid killed target n s = Ok ((aread pid killed target n a).1, s') ∧ crel s' (aread pid killed target n a).2.
Proof.
  revert s a. induction n as [|n IH]; intros s a Hrel Hn; cbn [consoleread_loop aread]; [by exists s|].
  destruct (a_done a) as [|c d] eqn:Hd.
  - rewrite decide_True. 2: { destruct Hrel as [Hr _]. rewrite (cr_w _ _ Hr), Hd. cbn. rewrite Z.add_0_r, u32_small by apply (cr_r _ _ Hr). done. }
    destruct killed; [by exists s|]. eexists. split; [done|]. destruct Hrel as [Hr Hnl]. split; [|done]. destruct Hr. split; cbn; try done; congruence.
  - destruct (pop_char s a c d Hrel Hd) as (Hget & Hne & Hrel1). rewrite decide_False, Hget, bind_ret by done.
    destruct (decide (c = ctrl_D)); [|destruct (decide (c = 10))].
    + eexists. split; [done|]. cbn [snd]. case_decide; [|done]. cbn [c_r]. destruct Hrel as [Hr Hnl].
      change (c_r (s <| c_r := u32 (c_r s + 1) |>)) with (u32 (c_r s + 1)). rewrite unpop by apply (cr_r _ _ Hr). done.
    + by eexists.
    + destruct (IH _ _ Hrel1 ltac:(lia)) as (s' & -> & Hrel'). rewrite bind_ret. destruct (aread pid killed target n _) as [[r l] a'] eqn:Ha.
      exists s'. by split.
Qed.

(** ** Histories *)

(** Characters arrive on the serial line, bytes at the keyboard port, or a
    process reads: from the start when [n] is [target], else after a wakeup. *)
Inductive cevent := Serial (cs : list Z) | Scan (port : list Z) | Read (pid : Z) (killed : bool) (target n : nat).

Definition cevent_ok (e : cevent) : Prop :=
  match e with Serial l | Scan l => Forall (λ c, 0 ≤ c < 256) l | Read _ _ target n => (n ≤ target)%nat end.

(** [shift] is the state of the keyboard driver. *)
Fixpoint crun (es : list cevent) (shift : Z) (s : console) : outcome (list (cresult * list Z) * console) :=
  match es with
  | [] => Ok ([], s)
  | Serial cs :: es' => '(_, s1) ← consoleintr cs s; crun es' shift s1
  | Scan port :: es' => '(_, shift1, s1) ← kbdintr shift port s; crun es' shift1 s1
  | Read pid killed target n :: es' =>
      '(r, s1) ← consoleread_loop pid killed target n s;
      '(o, s2) ← crun es' shift s1;
      Ok (r :: o, s2)
  end.

Definition akeys (cs : list Z) (a : line) : line := foldl (λ a c, akey c a) a cs.

Fixpoint arun (es : list cevent) (shift : Z) (a : line) : list (cresult * list Z) * line :=
  match es with
  | [] => ([], a)
  | Serial cs :: es' => arun es' shift (akeys cs a)
  | Scan port :: es' => arun es' (kbd_chars shift port).2 (akeys (kbd_chars shift port).1 a)
  | Read pid killed target n :: es' =>
      let r := aread pid killed target n a in
      let o := arun es' shift r.2 in
      (r.1 :: o.1, o.2)
  end.

Definition cinit (crt : list Z) (pos : Z) : console := mkcons (replicate 128 0) 0 0 0 [] [] crt pos false.
Definition ainit : line := mkline [] [] [] [].

Lemma cinit_rel crt pos : screen_ok crt pos → crel (cinit crt pos) ainit.
Proof. intros Hs. split; [|apply not_elem_of_nil]. split; try done; cbn; lia || by intros ? ?. Qed.

Lemma crun_spec es shift s a :
  crel s a → Forall cevent_ok es → ∃ s', crun es shift s = Ok ((arun es shift a).1, s') ∧ crel s' (arun es shift a).2.
Proof.
  revert shift s a. induction es as [|[cs|port|pid killed target n] es IH]; intros shift s a Hrel Hes; [by exists s| | |];
    apply Forall_cons in Hes as [He Hes]; cbn [crun arun].
  - destruct (consoleintr_spec cs s a Hrel He) as (s1 & -> & Hrel1). rewrite bind_ret. by apply IH.
  - rewrite kbdintr_chars by done. destruct (consoleintr_spec _ s a Hrel (kbd_chars_ok shift port He)) as (s1 & -> & Hrel1).
    rewrite !bind_ret. by apply IH.
  - destruct (consoleread_loop_spec pid killed target n s a Hrel He) as (s1 & -> & Hrel1). rewrite bind_ret.
    destruct (IH shift _ _ Hrel1 Hes) as (s' & -> & Hrel'). rewrite bind_ret. by exists s'.
Qed.


(** Shift-[h], [x], backspace, [i], return on the keyboard; a reader that waits
    gets the line. *)
Definition typing : list cevent :=
  [Read 7 false 100 100; Scan [42; 35; 163; 170; 45; 173]; Scan [14; 142; 23; 151; 28; 156]; Read 7 false 100 100].


(** ** Formatted output *)

Lemma kdigits_loop_10 fuel x buf i : 0 ≤ x → kdigits_loop fuel x 10 buf i = digits_loop fuel x 10 buf i.
Proof.
  revert x buf i. induction fuel as [|fuel IH]; intros x buf i Hx; cbn [kdigits_loop digits_loop];
    pose proof (Z.mod_pos_bound x 10 ltac:(lia)); unfold kdigit, digit; rewrite !decide_True by lia; [done|].
  destruct (aset buf i _) as [buf'| |]; [|done..]. rewrite !bind_ret. case_decide; [|done]. apply IH. apply Z.div_pos; lia.
Qed.

Lemma kprintint_10 stack x sign : kprintint stack x 10 sign = printint stack x 10 sign.
Proof. unfold kprintint, printint. rewrite kdigits_loop_10; [reflexivity|]. case_match; apply u32_range. Qed.

Lemma bind_ext {A B} (x : outcome A) (f g : A → outcome B) : (∀ a, f a = g a) → x ≫= f = x ≫= g.
Proof. intros H. destruct x; cbn; [apply H|done|done]. Qed.

(** The kernel's [cprintf] prints what the user's [printf] prints, unless the
    format has [%x], [%p] or [%c]. *)
Lemma cprintf_printf str stack fmt ap :
  (∀ i c, fmt !! i = Some 37 → fmt !! S i = Some c → c ≠ 120 ∧ c ≠ 112 ∧ c ≠ 99) → (∀ c, c ∈ fmt → 0 ≤ c) →
  0 ∈ fmt → cprintf_loop str stack fmt ap = printf str stack fmt ap.
Proof.
  unfold printf. remember (length fmt) as k eqn:Hk. assert (length fmt ≤ k)%nat as Hle by lia. clear Hk. revert fmt ap Hle.
  induction k as [|k IH]; intros fmt ap Hle Hf Hpos H0; [destruct fmt; [done|cbn in Hle; lia]|].
  destruct fmt as [|c fmt]; [done|]. cbn [cprintf_loop printf_loop]. case_decide as Hc0; [done|].
  assert (0 ∈ fmt) as H1 by (apply elem_of_cons in H0 as [|]; [congruence|done]).
  assert (∀ c, c ∈ fmt → 0 ≤ c) as Hpos1 by (intros ? ?; apply Hpos; by right).
  assert (∀ i c, fmt !! i = Some 37 → fmt !! S i = Some c → c ≠ 120 ∧ c ≠ 112 ∧ c ≠ 99) as Hf1 by (intros i; apply (Hf (S i))).
  destruct (decide (c = 37)) as [->|Hc].
  2: { rewrite decide_True by done. rewrite IH; [done|cbn in Hle; lia|done|done|done]. }
  rewrite decide_False by naive_solver. destruct fmt as [|d fmt]; [by apply elem_of_nil in H1|]. cbn [printf_loop].
  case_decide as Hd0; [done|]. destruct (Hf 0%nat d eq_refl eq_refl) as (Hx & Hp & Hcc).
  assert (∀ ap, cprintf_loop str stack fmt ap = printf_loop str stack fmt ap false) as HIH.
  { intros ap'. apply IH; [cbn in Hle; lia|intros i; apply (Hf1 (S i))|intros ? ?; apply Hpos1; by right|].
    apply elem_of_cons in H1 as [|]; [congruence|done]. }
  case_decide as Hdd.
  - apply bind_ext. intros a. rewrite HIH. by rewrite kprintint_10.
  - rewrite decide_False, (decide_False (P := d = 120 ∨ d = 112)) by naive_solver. case_decide; [by rewrite HIH|].
    rewrite (decide_False (P := d = 99)) by done. case_decide; [by subst; rewrite HIH|by rewrite HIH].
Qed.
