(* ===== verification/Bio.v ===== *)
(** * The buffer cache: [bio.c], [buf.h], [sleeplock.c], [memide.c]

    The cache is an array of buffers on a doubly linked list in order of use;
    index [NBUF] is [bcache.head].  A buffer's sleep lock is its [locked] and
    [pid]; waiting for it is a step that has no effect while it is held.  The
    disk is the one of [memide.c], which transfers a block at once. *)

From S2P Require Import Prelude.
From S2P Require Import Bytes.

Local Open Scope Z_scope.

Definition NBUF : nat := 30.
Definition B_VALID : Z := 2.
Definition B_DIRTY : Z := 4.

Record buf := mkbuf {
  b_flags : Z; b_dev : Z; b_blockno : Z;
  b_locked : bool; b_pid : Z;          (* lock *)
  b_refcnt : Z;
  b_prev : nat; b_next : nat;          (* LRU cache list *)
  b_data : block
}.
#[export] Instance buf_fields : Fields buf := λ b,
  mkbuf (b_flags b) (b_dev b) (b_blockno b) (b_locked b) (b_pid b) (b_refcnt b) (b_prev b) (b_next b) (b_data b).

Record bcache := mkbcache {
  bc_buf : list buf;      (* buf[NBUF], and head *)
  bc_disk : list block    (* memdisk, disksize blocks *)
}.
#[export] Instance bcache_fields : Fields bcache := λ s, mkbcache (bc_buf s) (bc_disk s).

Definition HEAD : nat := NBUF.

Definition getb (s : bcache) (b : nat) : outcome buf := aget (bc_buf s) (Z.of_nat b).
Definition updb (f : buf → buf) (b : nat) (s : bcache) : bcache := s <| bc_buf ::= alter f b |>.

(** ** Initialisation *)

Definition binit_one (b : nat) (s : bcache) : outcome bcache :=
  h ← getb s HEAD;
  let s1 := updb (λ x, x <| b_next := b_next h |> <| b_prev := HEAD |> <| b_locked := false |> <| b_pid := 0 |>) b s in
  let s2 := updb (λ x, x <| b_prev := b |>) (b_next h) s1 in
  Ok (updb (λ x, x <| b_next := b |>) HEAD s2).
Fixpoint binit_loop (n b : nat) (s : bcache) : outcome bcache :=
  match n with O => Ok s | S n' => s1 ← binit_one b s; binit_loop n' (S b) s1 end.
Definition binit (s : bcache) : outcome bcache :=
  binit_loop NBUF 0 (updb (λ x, x <| b_prev := HEAD |> <| b_next := HEAD |>) HEAD s).

(** ** Sleep locks *)

(** Whether the lock was taken; a process that finds it held sleeps and tries
    again. *)
Definition acquiresleep (pid : Z) (b : nat) (s : bcache) : outcome (bool * bcache) :=
  x ← getb s b;
  if b_locked x then Ok (false, s)
  else Ok (true, updb (λ x, x <| b_locked := true |> <| b_pid := pid |>) b s).
Definition releasesleep (b : nat) (s : bcache) : bcache := updb (λ x, x <| b_locked := false |> <| b_pid := 0 |>) b s.
Definition holdingsleep (pid : Z) (x : buf) : bool := b_locked x && bool_decide (b_pid x = pid).

(** ** The disk *)

Definition iderw (pid : Z) (b : nat) (s : bcache) : outcome bcache :=
  x ← getb s b;
  if negb (holdingsleep pid x) then Panic "iderw: buf not locked"
  else if decide (Z.land (b_flags x) (Z.lor B_VALID B_DIRTY) = B_VALID) then Panic "iderw: nothing to do"
  else if decide (b_dev x ≠ 1) then Panic "iderw: request not for disk 1"
  else if decide (Z.of_nat (length (bc_disk s)) ≤ b_blockno x) then Panic "iderw: block out of range"
  else if decide (Z.land (b_flags x) B_DIRTY ≠ 0) then
    d ← aset (bc_disk s) (b_blockno x) (b_data x);
    Ok (updb (λ x, x <| b_flags ::= λ f, Z.lor (Z.land f (Z.lnot B_DIRTY)) B_VALID |>) b (s <| bc_disk := d |>))
  else
    d ← aget (bc_disk s) (b_blockno x);
    Ok (updb (λ x, x <| b_data := d |> <| b_flags ::= λ f, Z.lor f B_VALID |>) b s).

(** ** The cache *)

(** The first loop of [bget], from buffer [b] on. *)
Fixpoint bget_find (fuel : nat) (b : nat) (dev blockno : Z) (s : bcache) : outcome (option nat) :=
  if decide (b = HEAD) then Ok None
  else
    match fuel with
    | O => Fault "fuel"
    | S fuel' =>
        x ← getb s b;
        if decide (b_dev x = dev ∧ b_blockno x = blockno) then Ok (Some b) else bget_find fuel' (b_next x) dev blockno s
    end.
(** The second loop. *)
Fixpoint bget_unused (fuel : nat) (b : nat) (s : bcache) : outcome (option nat) :=
  if decide (b = HEAD) then Ok None
  else
    match fuel with
    | O => Fault "fuel"
    | S fuel' =>
        x ← getb s b;
        if decide (b_refcnt x = 0 ∧ Z.land (b_flags x) B_DIRTY = 0) then Ok (Some b) else bget_unused fuel' (b_prev x) s
    end.

(** [bget] up to [acquiresleep]: the buffer, with a reference taken. *)
Definition bget_enter (dev blockno : Z) (s : bcache) : outcome (nat * bcache) :=
  h ← getb s HEAD;
  o ← bget_find NBUF (b_next h) dev blockno s;
  match o with
  | Some b => Ok (b, updb (λ x, x <| b_refcnt ::= λ r, u32 (r + 1) |>) b s)
  | None =>
      o ← bget_unused NBUF (b_prev h) s;
      match o with
      | Some b =>
          Ok (b, updb (λ x, x <| b_dev := dev |> <| b_blockno := blockno |> <| b_flags := 0 |> <| b_refcnt := 1 |>) b s)
      | None => Panic "bget: no buffers"
      end
  end.

(** The rest of [bget] and of [bread]: whether the lock was taken. *)
Definition bread_lock (pid : Z) (b : nat) (s : bcache) : outcome (bool * bcache) :=
  '(got, s1) ← acquiresleep pid b s;
  if got : bool then
    x ← getb s1 b;
    if decide (Z.land (b_flags x) B_VALID = 0) then s2 ← iderw pid b s1; Ok (true, s2) else Ok (true, s1)
  else Ok (false, s1).

Definition bwrite (pid : Z) (b : nat) (s : bcache) : outcome bcache :=
  x ← getb s b;
  if negb (holdingsleep pid x) then Panic "bwrite"
  else iderw pid b (updb (λ x, x <| b_flags ::= λ f, Z.lor f B_DIRTY |>) b s).

Definition brelse (pid : Z) (b : nat) (s : bcache) : outcome bcache :=
  x ← getb s b;
  if negb (holdingsleep pid x) then Panic "brelse"
  else
    let s1 := updb (λ x, x <| b_refcnt ::= λ r, u32 (r - 1) |>) b (releasesleep b s) in
    x1 ← getb s1 b;
    if decide (b_refcnt x1 = 0) then
      let s2 := updb (λ y, y <| b_prev := b_prev x1 |>) (b_next x1) s1 in
      x2 ← getb s2 b;
      let s3 := updb (λ y, y <| b_next := b_next x2 |>) (b_prev x2) s2 in
      h ← getb s3 HEAD;
      let s4 := updb (λ y, y <| b_next := b_next h |> <| b_prev := HEAD |>) b s3 in
      h4 ← getb s4 HEAD;
      let s5 := updb (λ y, y <| b_prev := b |>) (b_next h4) s4 in
      Ok (updb (λ y, y <| b_next := b |>) HEAD s5)
    else Ok s1.

(** What [log_write] does to the buffer it is given ([b->flags |= B_DIRTY]),
    after its holder stored [d] in it. *)
Definition set_data (d : block) (b : nat) (s : bcache) : bcache := updb (λ x, x <| b_data := d |>) b s.
Definition log_mark (b : nat) (s : bcache) : bcache := updb (λ x, x <| b_flags ::= λ f, Z.lor f B_DIRTY |>) b s.
