(* ===== verification/BioSpec.v ===== *)
(** * The buffer cache: list structure and coherence

    [path] is the doubly linked list as a list of buffer indices.  [binv] ties
    the buffers to the processes that use them and to [A], the contents that
    were last stored in each block. *)

From stdpp Require Import gmap.
From S2P Require Import Prelude.
From S2P Require Import Bytes.
From S2P Require Import Bio.

Local Open Scope Z_scope.

(** ** The list of buffers *)

Definition next_of (s : list buf) (a : nat) : option nat := b_next <$> s !! a.
Definition prev_of (s : list buf) (a : nat) : option nat := b_prev <$> s !! a.

Definition link (s : list buf) (a c : nat) : Prop := next_of s a = Some c ∧ prev_of s c = Some a.
Fixpoint path (s : list buf) (a : nat) (l : list nat) (c : nat) : Prop :=
  match l with
  | [] => link s a c
  | x :: l' => link s a x ∧ path s x l' c
  end.

Lemma path_app s a l1 b l2 c : path s a (l1 ++ b :: l2) c ↔ path s a l1 b ∧ path s b l2 c.
Proof. revert a. induction l1 as [|x l1 IH]; intros a; cbn; [done|]. rewrite IH. naive_solver. Qed.

Lemma path_frame s s' a l c :
  path s a l c → (∀ x, x ∈ a :: l → next_of s' x = next_of s x) → (∀ x, x ∈ l ++ [c] → prev_of s' x = prev_of s x) → path s' a l c.
Proof.
  revert a. induction l as [|x l IH]; intros a; cbn.
  - intros [H1 H2] Hn Hp. split; [rewrite Hn by left; done|rewrite Hp by left; done].
  - intros [[H1 H2] H3] Hn Hp. split; [split; [rewrite Hn by left; done|rewrite Hp by left; done]|].
    apply IH; [done|intros y Hy; apply Hn; by right|intros y Hy; apply Hp; by right].
Qed.

Lemma path_prev_in s a l c p : path s a l c → prev_of s c = Some p → p ∈ a :: l.
Proof.
  revert a. induction l as [|x l IH]; intros a; cbn.
  - intros [_ H] Hp. rewrite H in Hp. simplify_eq. left.
  - intros [_ H] Hp. right. by apply IH.
Qed.
Lemma path_next_in s a l c n : path s a l c → next_of s a = Some n → n ∈ l ++ [c].
Proof. destruct l as [|x l]; cbn; intros H Hn; [destruct H as [H _]|destruct H as [[H _] _]]; rewrite H in Hn; simplify_eq; left. Qed.

(** Taking [b] out. *)
Lemma path_unlink s s' l1 b l2 c n p : ∀ a,
  path s a l1 b → path s b l2 c → next_of s b = Some n → prev_of s b = Some p → NoDup (a :: l1 ++ b :: l2) → c ∉ l1 ++ b :: l2 →
  (∀ x, x ≠ b → next_of s' x = if decide (x = p) then Some n else next_of s x) →
  (∀ x, x ≠ b → prev_of s' x = if decide (x = n) then Some p else prev_of s x) → path s' a (l1 ++ l2) c.
Proof.
  induction l1 as [|x l1 IH]; intros a H1 H2 Hbn Hbp Hnd Hc Hn Hp.
  - destruct H1 as [Ha Hb]. rewrite Hb in Hbp. simplify_eq. cbn [app] in *. apply NoDup_cons in Hnd as [Hpb Hnd]. apply NoDup_cons in Hnd as [Hbl Hnd].
    apply not_elem_of_cons in Hpb as [Hpb Hpl], Hc as [Hcb Hcl]. destruct l2 as [|y l2]; cbn in H2 |- *.
    + destruct H2 as [H2 H2']. rewrite H2 in Hbn. simplify_eq. split; [rewrite Hn|rewrite Hp]; by rewrite ?decide_True.
    + destruct H2 as [[H2 H2'] H3]. rewrite H2 in Hbn. simplify_eq. apply NoDup_cons in Hnd as [Hnl Hnd].
      apply not_elem_of_cons in Hpl as [Hpy Hpl], Hbl as [Hby Hbl], Hcl as [Hcy Hcl].
      split; [split; [rewrite Hn|rewrite Hp]; by rewrite ?decide_True by done|]. apply (path_frame s); [done|..].
      * intros z Hz. rewrite Hn, decide_False; [done| |]; intros ->; set_solver.
      * intros z Hz. rewrite Hp, decide_False; [done| |]; intros ->; set_solver.
  - cbn in H1. destruct H1 as [[Ha Hx] H1]. cbn in Hnd. apply NoDup_cons in Hnd as [Han Hnd]. cbn [app path].
    pose proof (path_prev_in _ _ _ _ _ H1 Hbp) as Hpin. pose proof (path_next_in _ _ _ _ _ H2 Hbn) as Hnin. split.
    + apply NoDup_cons in Hnd as [Hxn _]. rewrite elem_of_app, elem_of_cons in Hxn. rewrite elem_of_app in Hnin. cbn in Hc. split.
      * rewrite Hn, decide_False; [done|intros ->; set_solver|intros ->; set_solver].
      * rewrite Hp, decide_False; [done|intros ->; set_solver|intros ->; set_solver].
    + apply IH; try done. cbn in Hc. set_solver.
Qed.

(** Putting [b] at the front. *)
Lemma path_front s s' b l c n :
  path s c l c → next_of s c = Some n → b ∉ l → b ≠ c → NoDup l → c ∉ l →
  (∀ x, next_of s' x = if decide (x = c) then Some b else if decide (x = b) then Some n else next_of s x) →
  (∀ x, prev_of s' x = if decide (x = n) then Some b else if decide (x = b) then Some c else prev_of s x) → n ≠ b → path s' c (b :: l) c.
Proof.
  intros H1 Hc Hb Hbc Hnd Hcl Hn Hp Hnb. cbn. split.
  - split; [rewrite Hn, decide_True by done; done|]. rewrite Hp, decide_False, decide_True by done. done.
  - destruct l as [|y l]; cbn in H1 |- *.
    + destruct H1 as [H1 H1']. rewrite H1 in Hc. simplify_eq. split; [rewrite Hn, decide_False, decide_True by done; done|by rewrite Hp, decide_True].
    + destruct H1 as [[H1 H1'] H2]. rewrite H1 in Hc. simplify_eq. apply NoDup_cons in Hnd as [Hnl Hnd].
      apply not_elem_of_cons in Hcl as [Hcn Hcl], Hb as [_ Hbl].
      split; [split; [rewrite Hn, decide_False, decide_True by done; done|by rewrite Hp, decide_True]|]. apply (path_frame s); [done|..].
      * intros z Hz. rewrite Hn, !decide_False; [done| |]; intros ->; set_solver.
      * intros z Hz. rewrite Hp, !decide_False; [done| |]; intros ->; set_solver.
Qed.

(** ** Scanning the list *)

Fixpoint first (q : nat → bool) (l : list nat) : option nat :=
  match l with [] => None | b :: l' => if q b then Some b else first q l' end.

Lemma first_Some q l b : first q l = Some b → b ∈ l ∧ q b = true.
Proof. induction l as [|x l IH]; [done|]. cbn. destruct (q x) eqn:Hq; [intros [= ->]; split; [left|done]|]. intros H. split; [right|]; by apply IH. Qed.
Lemma first_None q l : first q l = None → ∀ b, b ∈ l → q b = false.
Proof.
  induction l as [|x l IH]; intros H b Hb; [by apply elem_of_nil in Hb|]. cbn in H. destruct (q x) eqn:Hq; [done|].
  apply elem_of_cons in Hb as [->|Hb]; [done|by apply IH].
Qed.

Definition test (q : buf → bool) (s : list buf) (b : nat) : bool := match s !! b with Some x => q x | None => false end.
Definition is_block (dev blockno : Z) (x : buf) : bool := bool_decide (b_dev x = dev ∧ b_blockno x = blockno).
Definition is_unused (x : buf) : bool := bool_decide (b_refcnt x = 0 ∧ Z.land (b_flags x) B_DIRTY = 0).

Lemma getb_Ok c b x : bc_buf c !! b = Some x → getb c b = Ok x.
Proof. intros. unfold getb. by apply aget_nat. Qed.

Lemma next_Some s a n : next_of s a = Some n → ∃ x, s !! a = Some x ∧ b_next x = n.
Proof. unfold next_of. intros H. destruct (s !! a) as [x|]; [|done]. exists x. by simplify_eq/=. Qed.
Lemma prev_Some s a n : prev_of s a = Some n → ∃ x, s !! a = Some x ∧ b_prev x = n.
Proof. unfold prev_of. intros H. destruct (s !! a) as [x|]; [|done]. exists x. by simplify_eq/=. Qed.

Lemma bget_find_spec dev blockno c l : ∀ a fuel,
  path (bc_buf c) a l HEAD → HEAD ∉ l → (length l ≤ fuel)%nat →
  bget_find fuel (hd HEAD l) dev blockno c = Ok (first (test (is_block dev blockno) (bc_buf c)) l).
Proof.
  induction l as [|b l IH]; intros a fuel Hp Hh Hf; [by destruct fuel|].
  destruct fuel as [|fuel]; [cbn in Hf; lia|]. apply not_elem_of_cons in Hh as [Hh1 Hh2]. cbn in Hp. destruct Hp as [_ Hp].
  assert (∃ x, bc_buf c !! b = Some x ∧ b_next x = hd HEAD l) as (x & Hx & Hn).
  { apply next_Some. destruct l; cbn in Hp |- *; [apply Hp|apply Hp]. }
  cbn [hd bget_find first]. rewrite decide_False by done. rewrite (getb_Ok _ _ _ Hx), bind_ret. unfold test at 1, is_block at 1. rewrite Hx.
  case_decide; [by rewrite bool_decide_true|rewrite bool_decide_false by done]. rewrite Hn. eapply IH; [exact Hp|done|cbn in Hf; lia].
Qed.

Lemma snoc_case (l : list nat) : l = [] ∨ ∃ l' y, l = l' ++ [y].
Proof. induction l as [|y l _] using rev_ind; [by left|right]. by exists l, y. Qed.

Lemma bget_unused_spec c l : ∀ e fuel,
  path (bc_buf c) HEAD l e → HEAD ∉ l → (length l ≤ fuel)%nat →
  bget_unused fuel (hd HEAD (reverse l)) c = Ok (first (test is_unused (bc_buf c)) (reverse l)).
Proof.
  induction l as [|b l IH] using rev_ind; intros e fuel Hp Hh Hf; [by destruct fuel|].
  rewrite length_app in Hf. cbn in Hf. destruct fuel as [|fuel]; [lia|]. rewrite elem_of_app, elem_of_cons in Hh.
  rewrite path_app in Hp. destruct Hp as [Hp _]. rewrite reverse_snoc.
  assert (∃ x, bc_buf c !! b = Some x ∧ b_prev x = hd HEAD (reverse l)) as (x & Hx & Hn).
  { apply prev_Some. destruct (snoc_case l) as [->|(l' & y & ->)]; [apply Hp|]. rewrite reverse_snoc. rewrite path_app in Hp. apply Hp. }
  cbn [hd bget_unused first]. rewrite decide_False by naive_solver. rewrite (getb_Ok _ _ _ Hx), bind_ret. unfold test at 1, is_unused at 1. rewrite Hx.
  case_decide; [by rewrite bool_decide_true|rewrite bool_decide_false by done]. rewrite Hn. eapply IH; [exact Hp|naive_solver|lia].
Qed.

Lemma path_hd s l : path s HEAD l HEAD → next_of s HEAD = Some (hd HEAD l) ∧ prev_of s HEAD = Some (hd HEAD (reverse l)).
Proof.
  intros Hp. split; [destruct l; apply Hp|]. destruct (snoc_case l) as [->|(l' & y & ->)]; [apply Hp|]. rewrite reverse_snoc.
  rewrite path_app in Hp. apply Hp.
Qed.

(** ** Processes and contents *)

(** A process waits for the lock of a buffer it refers to, or holds it. *)
Inductive phase := Wait (b : nat) | Hold (b : nat).
Definition pbuf (ph : phase) : nat := match ph with Wait b | Hold b => b end.

Definition refs (th : gmap Z phase) (b : nat) : nat := length (filter (λ kv, pbuf kv.2 = b) (map_to_list th)).

Lemma refs_insert th p ph b : th !! p = None → refs (<[p := ph]> th) b = ((if decide (pbuf ph = b) then 1 else 0) + refs th b)%nat.
Proof. intros Hp. unfold refs. rewrite map_to_list_insert by done. rewrite filter_cons. cbn [snd]. by case_decide. Qed.
Lemma refs_delete th p ph b : th !! p = Some ph → refs th b = ((if decide (pbuf ph = b) then 1 else 0) + refs (delete p th) b)%nat.
Proof. intros Hp. rewrite <- (insert_delete_id th p ph) at 1 by done. apply refs_insert, lookup_delete_eq. Qed.
Lemma refs_change th p ph ph' b : th !! p = Some ph → pbuf ph' = pbuf ph → refs (<[p := ph']> th) b = refs th b.
Proof.
  intros Hp Heq. rewrite (refs_delete th p ph b Hp), (refs_delete (<[p := ph']> th) p ph' b) by apply lookup_insert_eq.
  by rewrite Heq, delete_insert_eq.
Qed.
Lemma refs_size th b : (refs th b ≤ size th)%nat.
Proof. unfold refs. rewrite <- length_map_to_list. apply length_filter. Qed.

Definition core (x : buf) : buf := x <| b_prev := 0%nat |> <| b_next := 0%nat |>.

Record bufok (th : gmap Z phase) (A : Z → block) (dsz : Z) (b : nat) (x : buf) : Prop := {
  bo_flags : b_flags x = 0 ∨ b_flags x = 2 ∨ b_flags x = 6;
  bo_ref : b_refcnt x = Z.of_nat (refs th b);
  bo_lock : ∀ p, th !! p = Some (Hold b) ↔ b_locked x = true ∧ b_pid x = p;
  bo_dev : refs th b ≠ 0%nat ∨ b_flags x ≠ 0 → b_dev x = 1 ∧ 0 ≤ b_blockno x < dsz;
  bo_data : b_flags x ≠ 0 → b_data x = A (b_blockno x);
  bo_held : b_locked x = true → b_flags x ≠ 0
}.

Definition dsize (c : bcache) : Z := Z.of_nat (length (bc_disk c)).
Definition cached (c : bcache) (b : nat) (x : buf) : Prop := (b < NBUF)%nat ∧ bc_buf c !! b = Some x.

Record binv (c : bcache) (th : gmap Z phase) (order : list nat) (A : Z → block) : Prop := {
  bi_len : length (bc_buf c) = S NBUF;
  bi_order : order ≡ₚ seq 0 NBUF;
  bi_path : path (bc_buf c) HEAD order HEAD;
  bi_buf : ∀ b x, cached c b x → bufok th A (dsize c) b x;
  bi_th : ∀ p ph, th !! p = Some ph → (pbuf ph < NBUF)%nat;
  bi_uniq : ∀ b b' x x', cached c b x → cached c b' x' → b_dev x = 1 → b_dev x' = 1 → b_blockno x = b_blockno x' → b = b';
  bi_disk : ∀ n, 0 ≤ n < dsize c → bc_disk c !! Z.to_nat n = Some (A n) ∨
    ∃ b x, cached c b x ∧ b_dev x = 1 ∧ b_blockno x = n ∧ b_flags x = 6
}.

Lemma core_ok th A dsz b x y : core x = core y → bufok th A dsz b x → bufok th A dsz b y.
Proof.
  destruct x, y. cbn. intros [= <- <- <- <- <- <- <-] [F R L D Da He].
  split; [exact F|exact R|exact L|exact D|exact Da|exact He].
Qed.

(** Everything is as before but buffer [b], which is now [x'], and the links. *)
Definition one_changed (c c' : bcache) (b : nat) (x' : buf) : Prop :=
  length (bc_buf c') = length (bc_buf c) ∧ length (bc_disk c') = length (bc_disk c) ∧
  (∀ j, j ≠ b → core <$> bc_buf c' !! j = core <$> bc_buf c !! j) ∧ core <$> bc_buf c' !! b = Some (core x').

Lemma one_changed_cached c c' b x' j y :
  one_changed c c' b x' → cached c' j y → if decide (j = b) then core y = core x' else ∃ y0, cached c j y0 ∧ core y0 = core y.
Proof.
  intros (_ & _ & Ho & Hb) [Hj Hy]. case_decide as Hjb.
  - subst. rewrite Hy in Hb. exact (Some_inj _ _ Hb).
  - specialize (Ho j Hjb). rewrite Hy in Ho. destruct (bc_buf c !! j) as [y0|] eqn:Hy0; [|done].
    exists y0. split; [done|]. by apply Some_inj in Ho.
Qed.
Lemma one_changed_back c c' b x' j y :
  one_changed c c' b x' → cached c j y → j ≠ b → ∃ y', cached c' j y' ∧ core y' = core y.
Proof.
  intros (_ & _ & Ho & _) [Hj Hy] Hjb. specialize (Ho j Hjb). rewrite Hy in Ho. destruct (bc_buf c' !! j) as [y0|] eqn:Hy0; [|done].
  exists y0. split; [done|]. by apply Some_inj in Ho.
Qed.

Lemma core_fields x y : core x = core y →
  b_flags x = b_flags y ∧ b_dev x = b_dev y ∧ b_blockno x = b_blockno y ∧ b_refcnt x = b_refcnt y ∧ b_data x = b_data y ∧
  b_locked x = b_locked y ∧ b_pid x = b_pid y.
Proof. destruct x, y. cbn. intros [= <- <- <- <- <- <- <-]. done. Qed.

Lemma binv_step c c' th th' A A' order order' b x' :
  binv c th order A → (b < NBUF)%nat → one_changed c c' b x' → order' ≡ₚ seq 0 NBUF → path (bc_buf c') HEAD order' HEAD →
  (∀ j, j ≠ b → refs th' j = refs th j ∧ ∀ p, th' !! p = Some (Hold j) ↔ th !! p = Some (Hold j)) →
  (∀ p ph, th' !! p = Some ph → (pbuf ph < NBUF)%nat) →
  bufok th' A' (dsize c) b x' → (∀ n, (b_dev x' = 1 → n ≠ b_blockno x') → A' n = A n) →
  (b_dev x' = 1 → ∀ j y, j ≠ b → cached c j y → b_dev y = 1 → b_blockno y ≠ b_blockno x') →
  (∀ n, 0 ≤ n < dsize c → bc_disk c' !! Z.to_nat n = Some (A' n) ∨
     ∃ j y, cached c' j y ∧ b_dev y = 1 ∧ b_blockno y = n ∧ b_flags y = 6) →
  binv c' th' order' A'.
Proof.
  intros Hi Hb Hone Hord Hpath Hoth Hth Hok HA Huniq Hdisk. pose proof Hone as (Hl1 & Hl2 & _ & _).
  assert (dsize c' = dsize c) as Hds by (unfold dsize; by rewrite Hl2). split; rewrite ?Hds; try done.
  - rewrite Hl1. apply Hi.
  - intros j y Hy. pose proof (one_changed_cached _ _ _ _ _ _ Hone Hy) as Hc. case_decide as Hjb.
    + subst. by eapply core_ok.
    + destruct Hc as (y0 & Hy0 & Hcore). apply (core_ok _ _ _ _ y0); [done|]. destruct (bi_buf _ _ _ _ Hi j y0 Hy0) as [F Rf L D Da He].
      destruct (Hoth j Hjb) as [Hr Hp]. split; try done.
      * by rewrite Hr.
      * intros p. by rewrite Hp.
      * by rewrite Hr.
      * intros Hf. rewrite HA; [by apply Da|]. intros Hd1. by apply (Huniq Hd1 j y0); try apply D; auto.
  - intros j j' y y' Hy Hy' Hd Hd' Heq.
    pose proof (one_changed_cached _ _ _ _ _ _ Hone Hy) as Hc. pose proof (one_changed_cached _ _ _ _ _ _ Hone Hy') as Hc'.
    destruct (decide (j = b)) as [->|Hj], (decide (j' = b)) as [->|Hj']; [done|..].
    + destruct Hc' as (y0 & Hy0 & Hcore). apply core_fields in Hc as (_ & D1 & B1 & _), Hcore as (_ & D2 & B2 & _).
      exfalso. apply (Huniq ltac:(congruence) j' y0 Hj' Hy0); congruence.
    + destruct Hc as (y0 & Hy0 & Hcore). apply core_fields in Hc' as (_ & D1 & B1 & _), Hcore as (_ & D2 & B2 & _).
      exfalso. apply (Huniq ltac:(congruence) j y0 Hj Hy0); congruence.
    + destruct Hc as (y0 & Hy0 & Hcore), Hc' as (y1 & Hy1 & Hcore'). apply core_fields in Hcore' as (_ & D1 & B1 & _), Hcore as (_ & D2 & B2 & _).
      eapply (bi_uniq _ _ _ _ Hi); [exact Hy0|exact Hy1|congruence..].
Qed.

Lemma alter_links s (f : buf → buf) b :
  (∀ x, b_next (f x) = b_next x ∧ b_prev (f x) = b_prev x) → ∀ j, next_of (alter f b s) j = next_of s j ∧ prev_of (alter f b s) j = prev_of s j.
Proof.
  intros Hf j. unfold next_of, prev_of. destruct (decide (j = b)) as [->|Hj].
  - rewrite list_lookup_alter_eq. destruct (s !! b) as [x|]; [|done]. destruct (Hf x) as [H1 H2]. cbn. by rewrite H1, H2.
  - by rewrite list_lookup_alter_ne.
Qed.

Lemma path_links s s' a l c :
  (∀ j, next_of s' j = next_of s j ∧ prev_of s' j = prev_of s j) → path s a l c → path s' a l c.
Proof. intros H Hp. apply (path_frame s); [done|intros x _; apply H|intros x _; apply H]. Qed.

Lemma one_alter c c' f b x :
  bc_buf c !! b = Some x → bc_buf c' = alter f b (bc_buf c) → length (bc_disk c') = length (bc_disk c) → one_changed c c' b (f x).
Proof.
  intros Hx Hc Hd. unfold one_changed. rewrite Hc, length_alter. split_and!; try done.
  - intros j Hj. by rewrite list_lookup_alter_ne.
  - by rewrite list_lookup_alter_eq, Hx.
Qed.

(** A buffer is changed in place. *)
Lemma binv_alter c c' th th' A A' order f b x :
  binv c th order A → cached c b x → (∀ y, b_next (f y) = b_next y ∧ b_prev (f y) = b_prev y) →
  bc_buf c' = alter f b (bc_buf c) → length (bc_disk c') = length (bc_disk c) →
  (∀ j, j ≠ b → refs th' j = refs th j ∧ ∀ p, th' !! p = Some (Hold j) ↔ th !! p = Some (Hold j)) →
  (∀ p ph, th' !! p = Some ph → (pbuf ph < NBUF)%nat) →
  bufok th' A' (dsize c) b (f x) → (∀ n, (b_dev (f x) = 1 → n ≠ b_blockno (f x)) → A' n = A n) →
  (b_dev (f x) = 1 → ∀ j y, j ≠ b → cached c j y → b_dev y = 1 → b_blockno y ≠ b_blockno (f x)) →
  (∀ n, 0 ≤ n < dsize c → bc_disk c' !! Z.to_nat n = Some (A' n) ∨
     ∃ j y, cached c' j y ∧ b_dev y = 1 ∧ b_blockno y = n ∧ b_flags y = 6) →
  binv c' th' order A'.
Proof.
  intros Hi [Hb Hx] Hf Hc' Hd. apply (binv_step c c' th th' A A' order order b (f x) Hi Hb); [by eapply one_alter|apply Hi|].
  rewrite Hc'. eapply path_links; [by apply alter_links|apply Hi].
Qed.

(** Same block as before: no other buffer has it. *)
Lemma uniq_other c th order A b x :
  binv c th order A → cached c b x → b_dev x = 1 → ∀ j y, j ≠ b → cached c j y → b_dev y = 1 → b_blockno y ≠ b_blockno x.
Proof. intros Hi Hx Hd j y Hj Hy Hdy Heq. apply Hj. by eapply (bi_uniq _ _ _ _ Hi). Qed.

Lemma alter_cached c c' f b j y :
  bc_buf c' = alter f b (bc_buf c) → cached c j y → cached c' j (if decide (j = b) then f y else y).
Proof.
  intros Hc' [Hj Hy]. split; [done|]. rewrite Hc'. case_decide as Hjb; [subst; by rewrite list_lookup_alter_eq, Hy|by rewrite list_lookup_alter_ne].
Qed.

Lemma updb_cached c f b x : cached c b x → cached (updb f b c) b (f x).
Proof. intros Hx. pose proof (alter_cached c (updb f b c) f b b x eq_refl Hx) as H. by rewrite decide_True in H. Qed.

Lemma in_order c th order A b : binv c th order A → b ∈ order ↔ (b < NBUF)%nat.
Proof. intros Hi. rewrite (bi_order _ _ _ _ Hi), elem_of_seq. lia. Qed.

Lemma head_out c th order A : binv c th order A → HEAD ∉ order ∧ length order = NBUF ∧ NoDup (HEAD :: order).
Proof.
  intros Hi. assert (HEAD ∉ order) as Hh by (rewrite (in_order _ _ _ _ _ Hi); unfold HEAD; lia). split; [done|].
  pose proof (bi_order _ _ _ _ Hi) as Ho. split; [by rewrite Ho, length_seq|]. apply NoDup_cons. split; [done|]. rewrite Ho. apply NoDup_seq.
Qed.

Lemma cached_in c th order A b : binv c th order A → (b < NBUF)%nat → ∃ x, cached c b x.
Proof.
  intros Hi Hb. destruct (lookup_lt_is_Some_2 (bc_buf c) b) as [x Hx]; [rewrite (bi_len _ _ _ _ Hi); lia|]. by exists x.
Qed.

(** ** Taking a reference *)

Lemma wait_new th p b x A dsz :
  th !! p = None → b_flags x = 0 ∨ b_flags x = 2 ∨ b_flags x = 6 → b_refcnt x = Z.of_nat (S (refs th b)) →
  (∀ q, th !! q = Some (Hold b) ↔ b_locked x = true ∧ b_pid x = q) → b_dev x = 1 → 0 ≤ b_blockno x < dsz →
  (b_flags x ≠ 0 → b_data x = A (b_blockno x)) → (b_locked x = true → b_flags x ≠ 0) → bufok (<[p := Wait b]> th) A dsz b x.
Proof.
  intros Hp F R L D B Da He. split; try done.
  - rewrite refs_insert by done. cbn. rewrite decide_True by done. rewrite R. lia.
  - intros q. rewrite <- L. destruct (decide (q = p)) as [->|Hq]; [rewrite lookup_insert_eq, Hp; naive_solver|by rewrite lookup_insert_ne].
Qed.

Lemma wait_others (th : gmap Z phase) p b : th !! p = None →
  ∀ j, j ≠ b → refs (<[p := Wait b]> th) j = refs th j ∧ ∀ q, <[p := Wait b]> th !! q = Some (Hold j) ↔ th !! q = Some (Hold j).
Proof.
  intros Hp j Hj. rewrite refs_insert by done. cbn. rewrite decide_False by congruence. split; [done|]. intros q.
  destruct (decide (q = p)) as [->|Hq]; [rewrite lookup_insert_eq, Hp; naive_solver|by rewrite lookup_insert_ne].
Qed.

Lemma wait_small (th : gmap Z phase) (p : Z) b : (∀ q ph, th !! q = Some ph → (pbuf ph < NBUF)%nat) → (b < NBUF)%nat →
  ∀ q ph, <[p := Wait b]> th !! q = Some ph → (pbuf ph < NBUF)%nat.
Proof. intros H Hb q ph. destruct (decide (q = p)) as [->|Hq]; [rewrite lookup_insert_eq; intros [= <-]; done|rewrite lookup_insert_ne by done; apply H]. Qed.

(** The buffer that has block [n], or the least recently used one that nobody
    uses and that is not waiting to be written. *)
Definition victim (c : bcache) (order : list nat) (n : Z) : option nat :=
  match first (test (is_block 1 n) (bc_buf c)) order with
  | Some b => Some b
  | None => first (test is_unused (bc_buf c)) (reverse order)
  end.

Lemma bget_enter_eq c th order A n :
  binv c th order A →
  bget_enter 1 n c =
    match first (test (is_block 1 n) (bc_buf c)) order with
    | Some b => Ok (b, updb (λ x, x <| b_refcnt ::= λ r, u32 (r + 1) |>) b c)
    | None =>
        match first (test is_unused (bc_buf c)) (reverse order) with
        | Some b => Ok (b, updb (λ x, x <| b_dev := 1 |> <| b_blockno := n |> <| b_flags := 0 |> <| b_refcnt := 1 |>) b c)
        | None => Panic "bget: no buffers"
        end
    end.
Proof.
  intros Hi. unfold bget_enter. pose proof (bi_path _ _ _ _ Hi) as Hp. destruct (head_out _ _ _ _ Hi) as (Hh & Hl & _).
  destruct (path_hd _ _ Hp) as [Hn Hpr]. apply next_Some in Hn as (h & Hx & Hn). apply prev_Some in Hpr as (h' & Hx' & Hpr). simplify_eq.
  rewrite (getb_Ok _ _ _ Hx), bind_ret, Hn. rewrite (bget_find_spec 1 n c order HEAD) by (done || lia). rewrite bind_ret.
  destruct (first _ order); [done|]. rewrite Hpr, (bget_unused_spec c order HEAD) by (done || lia). by rewrite bind_ret.
Qed.

Lemma test_cached q c b : test q (bc_buf c) b = true → ∃ x, bc_buf c !! b = Some x ∧ q x = true.
Proof. unfold test. destruct (bc_buf c !! b) as [x|]; [by exists x|done]. Qed.

(** Disk contents are not concerned when no dirty buffer is. *)
Lemma disk_same c c' th order A f b x :
  binv c th order A → cached c b x → bc_buf c' = alter f b (bc_buf c) → bc_disk c' = bc_disk c →
  (b_flags x = 6 → b_flags (f x) = 6 ∧ b_dev (f x) = b_dev x ∧ b_blockno (f x) = b_blockno x) →
  ∀ n, 0 ≤ n < dsize c → bc_disk c' !! Z.to_nat n = Some (A n) ∨
     ∃ j y, cached c' j y ∧ b_dev y = 1 ∧ b_blockno y = n ∧ b_flags y = 6.
Proof.
  intros Hi Hx Hc' Hd Hf n Hn. rewrite Hd. destruct (bi_disk _ _ _ _ Hi n Hn) as [|(j & y & Hy & Hdv & Hbn & Hfl)]; [by left|right].
  exists j. pose proof (alter_cached _ _ _ _ _ _ Hc' Hy) as Hy'. eexists. split; [exact Hy'|]. case_decide as Hj; [|done]. subst j.
  destruct Hx as [_ Hx], Hy as [_ Hy]. rewrite Hx in Hy. simplify_eq. destruct (Hf Hfl) as (-> & -> & ->). done.
Qed.

Lemma bget_hit c th order A p n b x :
  binv c th order A → th !! p = None → 0 ≤ n < dsize c → Z.of_nat (size th) < 65536 → cached c b x → b_dev x = 1 → b_blockno x = n →
  binv (updb (λ x, x <| b_refcnt ::= λ r, u32 (r + 1) |>) b c) (<[p := Wait b]> th) order A.
Proof.
  intros Hi Hp Hn Hsz Hcx Hd Hbn. destruct (bi_buf _ _ _ _ Hi b x Hcx) as [F R L D Da He]. pose proof (proj1 Hcx) as Hb.
  set (f := λ x, x <| b_refcnt ::= λ r, u32 (r + 1) |>). apply (binv_alter c _ th _ A A order f b x Hi Hcx); try done.
  - by apply wait_others.
  - apply wait_small; [apply Hi|done].
  - apply wait_new; try done; [|cbn; lia]. cbn. rewrite R. pose proof (refs_size th b). rewrite u32_small by lia. lia.
  - intros _. exact (uniq_other _ _ _ _ _ _ Hi Hcx Hd).
  - by apply (disk_same c _ th order A f b x).
Qed.

Lemma bget_miss c th order A p n b x :
  binv c th order A → th !! p = None → 0 ≤ n < dsize c → cached c b x → b_refcnt x = 0 → Z.land (b_flags x) B_DIRTY = 0 →
  (∀ j y, cached c j y → b_dev y = 1 → b_blockno y ≠ n) →
  binv (updb (λ x, x <| b_dev := 1 |> <| b_blockno := n |> <| b_flags := 0 |> <| b_refcnt := 1 |>) b c) (<[p := Wait b]> th) order A.
Proof.
  intros Hi Hp Hn Hcx Hr Hfl Hno. destruct (bi_buf _ _ _ _ Hi b x Hcx) as [F R L D Da He]. pose proof (proj1 Hcx) as Hb.
  assert (refs th b = 0%nat) as H0 by lia. assert (b_locked x = false) as Hlk.
  { destruct (b_locked x) eqn:Hlk; [|done]. assert (th !! b_pid x = Some (Hold b)) as Hh by (by apply L).
    rewrite (refs_delete _ _ _ b Hh) in H0. cbn in H0. by rewrite decide_True in H0. }
  set (f := λ x, x <| b_dev := 1 |> <| b_blockno := n |> <| b_flags := 0 |> <| b_refcnt := 1 |>).
  apply (binv_alter c _ th _ A A order f b x Hi Hcx); try done.
  - by apply wait_others.
  - apply wait_small; [apply Hi|done].
  - apply wait_new; try done; [by left|by rewrite H0|cbn; congruence].
  - intros _ j y Hj Hy Hdy. by apply (Hno j).
  - apply (disk_same c _ th order A f b x); try done. intros H6. by rewrite H6 in Hfl.
Qed.

Lemma bget_enter_spec c th order A p n :
  binv c th order A → th !! p = None → 0 ≤ n < dsize c → Z.of_nat (size th) < 65536 →
  match victim c order n with
  | None => bget_enter 1 n c = Panic "bget: no buffers"
  | Some b => ∃ c', bget_enter 1 n c = Ok (b, c') ∧ bc_disk c' = bc_disk c ∧ binv c' (<[p := Wait b]> th) order A ∧
      ∃ x, cached c' b x ∧ b_blockno x = n
  end.
Proof.
  intros Hi Hp Hn Hsz. rewrite (bget_enter_eq _ _ _ _ n Hi). unfold victim.
  destruct (first (test (is_block 1 n) _) order) as [b|] eqn:Hf1.
  - apply first_Some in Hf1 as [Hb Ht]. rewrite (in_order _ _ _ _ _ Hi) in Hb. apply test_cached in Ht as (x & Hx & Hq).
    unfold is_block in Hq. apply bool_decide_eq_true in Hq as [Hd Hbn]. eexists. split; [done|]. split; [done|].
    split; [by apply (bget_hit c th order A p n b x)|]. eexists. split; [by apply (updb_cached c _ b x)|done].
  - destruct (first (test is_unused _) (reverse order)) as [b|] eqn:Hf2; [|done].
    apply first_Some in Hf2 as [Hb Ht]. rewrite elem_of_reverse, (in_order _ _ _ _ _ Hi) in Hb. apply test_cached in Ht as (x & Hx & Hq).
    unfold is_unused in Hq. apply bool_decide_eq_true in Hq as [Hr Hfl]. eexists. split; [done|]. split; [done|]. split.
    + apply (bget_miss c th order A p n b x); try done. intros j y [Hj' Hy] Hdy Heq. pose proof (first_None _ _ Hf1 j) as Hno.
      rewrite (in_order _ _ _ _ _ Hi) in Hno. specialize (Hno Hj'). unfold test, is_block in Hno. rewrite Hy in Hno.
      apply bool_decide_eq_false in Hno. naive_solver.
    + eexists. split; [by apply (updb_cached c _ b x)|done].
Qed.

(** ** Locking a buffer *)

Lemma change_others (th : gmap Z phase) p ph ph' b : th !! p = Some ph → pbuf ph = b → pbuf ph' = b →
  ∀ j, j ≠ b → refs (<[p := ph']> th) j = refs th j ∧ ∀ q, <[p := ph']> th !! q = Some (Hold j) ↔ th !! q = Some (Hold j).
Proof.
  intros Hp Hb Hb' j Hj. split; [eapply refs_change; [exact Hp|congruence]|]. intros q.
  destruct (decide (q = p)) as [->|Hq]; [|by rewrite lookup_insert_ne]. rewrite lookup_insert_eq, Hp. split; intros [= ->]; cbn in *; congruence.
Qed.

Lemma change_small (th : gmap Z phase) (p : Z) ph' : (∀ q ph, th !! q = Some ph → (pbuf ph < NBUF)%nat) → (pbuf ph' < NBUF)%nat →
  ∀ q ph, <[p := ph']> th !! q = Some ph → (pbuf ph < NBUF)%nat.
Proof. intros H Hb q ph. destruct (decide (q = p)) as [->|Hq]; [rewrite lookup_insert_eq; intros [= <-]; done|rewrite lookup_insert_ne by done; apply H]. Qed.

Lemma refs_pos th p ph : th !! p = Some ph → refs th (pbuf ph) ≠ 0%nat.
Proof. intros Hp. rewrite (refs_delete th p ph) by done. rewrite decide_True by done. lia. Qed.

Lemma hold_new th p b x A dsz :
  th !! p = Some (Wait b) → (∀ q, th !! q ≠ Some (Hold b)) → b_flags x = 2 ∨ b_flags x = 6 → b_refcnt x = Z.of_nat (refs th b) →
  b_locked x = true → b_pid x = p → b_dev x = 1 → 0 ≤ b_blockno x < dsz → b_data x = A (b_blockno x) →
  bufok (<[p := Hold b]> th) A dsz b x.
Proof.
  intros Hp Hno F R Lk Pd D B Da. split; try done.
  - by right.
  - by rewrite (refs_change th p (Wait b)).
  - intros q. destruct (decide (q = p)) as [->|Hq]; [rewrite lookup_insert_eq; naive_solver|]. rewrite lookup_insert_ne by done.
    split; [intros H; by apply Hno in H|intros [_ H]; congruence].
  - intros _. destruct F; lia.
Qed.

(** A block with a buffer that is not dirty is up to date on the disk. *)
Lemma clean_disk c th order A b x :
  binv c th order A → cached c b x → b_dev x = 1 → 0 ≤ b_blockno x < dsize c → b_flags x ≠ 6 →
  aget (bc_disk c) (b_blockno x) = Ok (A (b_blockno x)).
Proof.
  intros Hi Hx Hd Hb Hf. apply aget_Ok. split; [lia|]. destruct (bi_disk _ _ _ _ Hi _ Hb) as [|(j & y & Hy & Hdy & Hby & Hfy)]; [done|].
  assert (j = b) as -> by (eapply (bi_uniq _ _ _ _ Hi); eauto). destruct Hx as [_ Hx], Hy as [_ Hy]. congruence.
Qed.

Lemma hold_alter c th order A p b x f :
  binv c th order A → th !! p = Some (Wait b) → cached c b x → b_dev x = 1 → (∀ y, b_next (f y) = b_next y ∧ b_prev (f y) = b_prev y) →
  b_dev (f x) = b_dev x → b_blockno (f x) = b_blockno x → (b_flags x = 6 → b_flags (f x) = 6) →
  bufok (<[p := Hold b]> th) A (dsize c) b (f x) → binv (updb f b c) (<[p := Hold b]> th) order A.
Proof.
  intros Hi Hp Hcx Hd Hf Hfd Hfb Hff Hok. apply (binv_alter c _ th _ A A order f b x Hi Hcx); try done.
  - by eapply change_others.
  - apply change_small; [apply Hi|apply Hcx].
  - rewrite Hfd, Hfb. intros _. exact (uniq_other _ _ _ _ _ _ Hi Hcx Hd).
  - apply (disk_same c _ th order A f b x); try done. by intros ?; split; [auto|].
Qed.

Lemma updb_updb f g b c : updb f b (updb g b c) = updb (f ∘ g) b c.
Proof.
  destruct c as [l dd]. change (mkbcache (alter f b (alter g b l)) dd = mkbcache (alter (f ∘ g) b l) dd). f_equal.
  apply list_eq. intros i. destruct (decide (i = b)) as [->|Hi].
  - rewrite !list_lookup_alter_eq. by destruct (l !! b).
  - by rewrite !list_lookup_alter_ne.
Qed.

(** Reading a buffer that is not valid. *)
Lemma iderw_read c th order A p b x f1 :
  binv c th order A → cached c b x → b_flags x = 0 → b_dev x = 1 → 0 ≤ b_blockno x < dsize c →
  b_locked (f1 x) = true → b_pid (f1 x) = p → b_flags (f1 x) = b_flags x → b_dev (f1 x) = b_dev x → b_blockno (f1 x) = b_blockno x →
  iderw p b (updb f1 b c) = Ok (updb ((λ y, y <| b_data := A (b_blockno x) |> <| b_flags ::= λ f, Z.lor f B_VALID |>) ∘ f1) b c).
Proof.
  intros Hi Hcx Hf0 Hd Hbn Hl Hpd Hfl Hdv Hbk. unfold iderw. rewrite (getb_Ok _ _ _ (proj2 (updb_cached c f1 b x Hcx))), bind_ret.
  unfold holdingsleep. rewrite Hl, Hpd, Hfl, Hdv, Hbk, Hf0, bool_decide_true by done. cbn [andb negb].
  change (bc_disk (updb f1 b c)) with (bc_disk c). rewrite !decide_False by (done || (unfold dsize in *; lia) || naive_solver).
  rewrite (clean_disk _ _ _ _ _ _ Hi Hcx Hd Hbn) by lia. rewrite bind_ret. by rewrite updb_updb.
Qed.

Lemma bread_lock_spec c th order A p b :
  binv c th order A → th !! p = Some (Wait b) →
  (bread_lock p b c = Ok (false, c) ∧ ∃ q, th !! q = Some (Hold b)) ∨
  ∃ c', bread_lock p b c = Ok (true, c') ∧ bc_disk c' = bc_disk c ∧ binv c' (<[p := Hold b]> th) order A ∧
    ∃ x x', cached c b x ∧ cached c' b x' ∧ b_blockno x' = b_blockno x ∧ b_data x' = A (b_blockno x).
Proof.
  intros Hi Hp. pose proof (bi_th _ _ _ _ Hi _ _ Hp) as Hb. cbn in Hb. destruct (cached_in _ _ _ _ b Hi Hb) as [x Hcx].
  destruct (bi_buf _ _ _ _ Hi b x Hcx) as [F R L D Da He]. pose proof (refs_pos _ _ _ Hp) as Hrp. cbn in Hrp.
  destruct D as [Hd Hbn]; [by left|]. unfold bread_lock, acquiresleep. rewrite (getb_Ok _ _ _ (proj2 Hcx)), bind_ret.
  destruct (b_locked x) eqn:Hlk; [left; rewrite bind_ret; split; [done|]; exists (b_pid x); by apply L|right].
  rewrite bind_ret. set (f1 := λ x, x <| b_locked := true |> <| b_pid := p |>).
  assert (∀ q, th !! q ≠ Some (Hold b)) as Hno by (intros q Hq; apply L in Hq; naive_solver).
  rewrite (getb_Ok _ _ _ (proj2 (updb_cached c f1 b x Hcx))), bind_ret. change (b_flags (f1 x)) with (b_flags x).
  destruct (decide (Z.land (b_flags x) B_VALID = 0)) as [Hv|Hv].
  - assert (b_flags x = 0) as Hf0 by (destruct F as [|[F|F]]; [done|by rewrite F in Hv|by rewrite F in Hv]).
    rewrite (iderw_read c th order A p b x f1 Hi Hcx Hf0 Hd Hbn), bind_ret by done.
    eexists. split; [done|]. split; [done|]. split.
    + apply (hold_alter c th order A p b x); try done; [congruence|]. apply hold_new; try done. left. cbn. by rewrite Hf0.
    + exists x. eexists. split; [done|]. split; [by apply updb_cached|done].
  - eexists. split; [done|]. split; [done|]. assert (b_flags x ≠ 0) as Hf0 by (intros H0; by rewrite H0 in Hv). split.
    + apply (hold_alter c th order A p b x); try done. apply hold_new; try done; [|by apply Da]. destruct F as [|]; [done|done].
    + exists x. eexists. split; [done|]. split; [by apply updb_cached|]. split; [done|by apply Da].
Qed.

(** ** Storing through a held buffer *)

Definition store (A : Z → block) (n : Z) (d : block) : Z → block := λ k, if decide (k = n) then d else A k.

(** What a holder knows. *)
Lemma holder c th order A p b :
  binv c th order A → th !! p = Some (Hold b) →
  ∃ x, cached c b x ∧ bufok th A (dsize c) b x ∧ b_locked x = true ∧ b_pid x = p ∧ b_dev x = 1 ∧ 0 ≤ b_blockno x < dsize c ∧
    (b_flags x = 2 ∨ b_flags x = 6) ∧ b_data x = A (b_blockno x).
Proof.
  intros Hi Hp. pose proof (bi_th _ _ _ _ Hi _ _ Hp) as Hb. destruct (cached_in _ _ _ _ b Hi Hb) as [x Hx]. exists x.
  pose proof (bi_buf _ _ _ _ Hi b x Hx) as Hok. destruct (proj1 (bo_lock _ _ _ _ _ Hok p) Hp) as [Hl Hpd].
  pose proof (bo_held _ _ _ _ _ Hok Hl) as Hf. destruct (bo_dev _ _ _ _ _ Hok (or_intror Hf)) as [Hd Hbn].
  pose proof (bo_data _ _ _ _ _ Hok Hf). pose proof (bo_flags _ _ _ _ _ Hok) as Hfl. split_and!; try done; try lia.
Qed.

Lemma stored_ok th A dsz b x f n d :
  bufok th A dsz b x → b_flags x ≠ 0 → b_blockno x = n → b_refcnt (f x) = b_refcnt x → b_locked (f x) = b_locked x → b_pid (f x) = b_pid x →
  b_dev (f x) = b_dev x → b_blockno (f x) = b_blockno x → b_data (f x) = d → (b_flags (f x) = 2 ∨ b_flags (f x) = 6) →
  bufok th (store A n d) dsz b (f x).
Proof.
  intros [F R L D Da He] Hf0 Hn E1 E2 E3 E4 E5 E6 Hf. split.
  - by right.
  - by rewrite E1.
  - intros q. by rewrite E2, E3.
  - intros _. rewrite E4, E5. apply D. by right.
  - intros _. rewrite E6, E5, Hn. unfold store. by rewrite decide_True.
  - intros _. destruct Hf; lia.
Qed.

Lemma store_other A n d k : k ≠ n → store A n d k = A k.
Proof. intros. unfold store. by rewrite decide_False. Qed.

Lemma log_mark_spec c th order A p b d :
  binv c th order A → th !! p = Some (Hold b) →
  ∃ x, cached c b x ∧ binv (log_mark b (set_data d b c)) th order (store A (b_blockno x) d).
Proof.
  intros Hi Hp. destruct (holder _ _ _ _ _ _ Hi Hp) as (x & Hcx & Hok & Hl & Hpd & Hd & Hbn & Hf & _). exists x. split; [done|].
  unfold log_mark, set_data. rewrite updb_updb. set (f := _ ∘ _). assert (b_flags (f x) = 6) as Hfx by (destruct Hf as [Hf|Hf]; cbn; by rewrite Hf).
  apply (binv_alter c _ th th A _ order f b x Hi Hcx); try done.
  - apply Hi.
  - apply (stored_ok th A _ b x f); try done; [destruct Hf; lia|by right].
  - intros n Hn. apply store_other. naive_solver.
  - intros _. exact (uniq_other _ _ _ _ _ _ Hi Hcx Hd).
  - intros n Hn. destruct (decide (n = b_blockno x)) as [->|Hne].
    + right. exists b, (f x). by split; [apply updb_cached|].
    + rewrite store_other by done. apply (disk_same c _ th order A f b x); done.
Qed.

(** Writing out a dirty buffer. *)
Lemma iderw_write c p b x f :
  cached c b x → b_locked (f x) = true → b_pid (f x) = p → b_flags (f x) = 6 → b_dev (f x) = 1 → 0 ≤ b_blockno (f x) < dsize c →
  iderw p b (updb f b c) =
  Ok (updb (λ x, x <| b_flags ::= λ f, Z.lor (Z.land f (Z.lnot B_DIRTY)) B_VALID |>) b
        (updb f b c <| bc_disk := <[Z.to_nat (b_blockno (f x)) := b_data (f x)]> (bc_disk c) |>)).
Proof.
  intros Hcx Hl Hp Hf Hd Hb. unfold iderw. rewrite (getb_Ok _ _ _ (proj2 (updb_cached c f b x Hcx))), bind_ret.
  unfold holdingsleep. rewrite Hl, Hp, Hf, Hd, bool_decide_true by done. cbn [andb negb].
  change (bc_disk (updb f b c)) with (bc_disk c). rewrite decide_False by done. rewrite decide_False by naive_solver.
  rewrite decide_False by (unfold dsize in *; lia). rewrite decide_True by done.
  rewrite (proj2 (aset_Ok (bc_disk c) (b_blockno (f x)) (b_data (f x)) _) (conj Hb eq_refl)). by rewrite bind_ret.
Qed.

Lemma bwrite_spec c th order A p b d :
  binv c th order A → th !! p = Some (Hold b) →
  ∃ x c', cached c b x ∧ bwrite p b (set_data d b c) = Ok c' ∧ binv c' th order (store A (b_blockno x) d) ∧
    bc_disk c' !! Z.to_nat (b_blockno x) = Some d.
Proof.
  intros Hi Hp. destruct (holder _ _ _ _ _ _ Hi Hp) as (x & Hcx & Hok & Hl & Hpd & Hd & Hbn & Hf & _). exists x.
  unfold bwrite, set_data. set (f1 := λ x, x <| b_data := d |>). set (f2 := λ x, x <| b_flags ::= λ f, Z.lor f B_DIRTY |>).
  rewrite (getb_Ok _ _ _ (proj2 (updb_cached c f1 b x Hcx))), bind_ret. unfold holdingsleep.
  change (b_locked (f1 x)) with (b_locked x). change (b_pid (f1 x)) with (b_pid x). rewrite Hl, Hpd, bool_decide_true by done. cbn [andb negb].
  rewrite updb_updb. set (f := f2 ∘ f1). assert (b_flags (f x) = 6) as Hfy by (unfold f, f1, f2; destruct Hf as [Hf|Hf]; cbn; by rewrite Hf).
  rewrite (iderw_write c p b x f) by done. eexists. split; [done|]. split; [done|]. set (f3 := λ x, x <| b_flags ::= _ |>). set (c' := updb f3 b _).
  assert (bc_buf c' = alter (f3 ∘ f) b (bc_buf c)) as Hb by (pose proof (updb_updb f3 f b c) as H; by apply (f_equal bc_buf) in H).
  assert (bc_disk c' = <[Z.to_nat (b_blockno x) := d]> (bc_disk c)) as Hdk by done.
  assert (b_flags ((f3 ∘ f) x) = 2) as Hfz.
  { change (b_flags ((f3 ∘ f) x)) with (Z.lor (Z.land (b_flags (f x)) (Z.lnot B_DIRTY)) B_VALID). by rewrite Hfy. }
  split; [|rewrite Hdk; apply list_lookup_insert_eq; unfold dsize in *; lia].
  apply (binv_alter c c' th th A _ order (f3 ∘ f) b x Hi Hcx); try done.
  - rewrite Hdk. apply length_insert.
  - apply Hi.
  - apply (stored_ok th A _ b x (f3 ∘ f)); try done; [destruct Hf; lia|by left].
  - intros n Hn. apply store_other. naive_solver.
  - intros _. exact (uniq_other _ _ _ _ _ _ Hi Hcx Hd).
  - intros n Hn. rewrite Hdk. destruct (decide (n = b_blockno x)) as [->|Hne].
    + left. rewrite list_lookup_insert_eq by (unfold dsize in *; lia). unfold store. by rewrite decide_True.
    + rewrite store_other by done. rewrite list_lookup_insert_ne by lia.
      destruct (bi_disk _ _ _ _ Hi n Hn) as [|(j & z & Hz & Hdz & Hbz & Hfz')]; [by left|right].
      exists j, z. pose proof (alter_cached _ _ _ _ _ _ Hb Hz) as Hz'. rewrite decide_False in Hz'; [done|]. intros ->.
      destruct Hcx as [_ Hcx], Hz as [_ Hz]. congruence.
Qed.
