(* ===== verification/BioTheorems.v ===== *)
(** * The buffer cache as an atomic store of blocks *)

From stdpp Require Import gmap.
From S2P Require Import Prelude.
From S2P Require Import Bytes.
From S2P Require Import Bio.
From S2P Require Import BioSpec.

Local Open Scope Z_scope.

(** ** Releasing a buffer *)

Lemma next_set s i v j : (i < length s)%nat →
  next_of (alter (λ y, y <| b_next := v |>) i s) j = (if decide (j = i) then Some v else next_of s j) ∧
  prev_of (alter (λ y, y <| b_next := v |>) i s) j = prev_of s j.
Proof.
  intros Hi. destruct (lookup_lt_is_Some_2 s i Hi) as [x Hx]. unfold next_of, prev_of. case_decide as Hj.
  - subst. by rewrite list_lookup_alter_eq, Hx.
  - by rewrite list_lookup_alter_ne.
Qed.
Lemma prev_set s i v j : (i < length s)%nat →
  prev_of (alter (λ y, y <| b_prev := v |>) i s) j = (if decide (j = i) then Some v else prev_of s j) ∧
  next_of (alter (λ y, y <| b_prev := v |>) i s) j = next_of s j.
Proof.
  intros Hi. destruct (lookup_lt_is_Some_2 s i Hi) as [x Hx]. unfold next_of, prev_of. case_decide as Hj.
  - subst. by rewrite list_lookup_alter_eq, Hx.
  - by rewrite list_lookup_alter_ne.
Qed.
Lemma both_gset s i v (g : buf → buf) j : (∀ x, b_next (g x) = v ∧ b_prev (g x) = HEAD) → (i < length s)%nat →
  next_of (alter g i s) j = (if decide (j = i) then Some v else next_of s j) ∧
  prev_of (alter g i s) j = (if decide (j = i) then Some HEAD else prev_of s j).
Proof.
  intros Hg Hi. destruct (lookup_lt_is_Some_2 s i Hi) as [x Hx]. unfold next_of, prev_of. case_decide as Hj.
  - subst. rewrite list_lookup_alter_eq, Hx. cbn. by rewrite (proj1 (Hg x)), (proj2 (Hg x)).
  - by rewrite list_lookup_alter_ne.
Qed.

(** Only links differ. *)
Definition same_cores (s s' : list buf) : Prop := length s' = length s ∧ ∀ j, core <$> s' !! j = core <$> s !! j.

Lemma same_cores_alter s f i : (∀ x, core (f x) = core x) → same_cores s (alter f i s).
Proof.
  intros Hf. split; [apply length_alter|]. intros j. destruct (decide (j = i)) as [->|Hj]; [|by rewrite list_lookup_alter_ne].
  rewrite list_lookup_alter_eq. destruct (s !! i) as [x|]; [|done]. cbn [fmap option_fmap option_map]. by rewrite Hf.
Qed.
Lemma same_cores_trans s1 s2 s3 : same_cores s1 s2 → same_cores s2 s3 → same_cores s1 s3.
Proof. intros [L1 H1] [L2 H2]. split; [congruence|]. intros j. by rewrite H2. Qed.

Lemma getb_links c b n p :
  next_of (bc_buf c) b = Some n → prev_of (bc_buf c) b = Some p → ∃ x, getb c b = Ok x ∧ b_next x = n ∧ b_prev x = p.
Proof.
  intros Hn Hp. apply next_Some in Hn as (x & Hx & Hn). apply prev_Some in Hp as (x' & Hx' & Hp). simplify_eq.
  exists x. by rewrite (getb_Ok _ _ _ Hx).
Qed.

(** A list with its head, and its buffers within the array. *)
Definition ring (c : bcache) (l : list nat) : Prop :=
  path (bc_buf c) HEAD l HEAD ∧ NoDup (HEAD :: l) ∧ ∀ x, x ∈ HEAD :: l → (x < length (bc_buf c))%nat.

Lemma ring_nodup l1 b l2 : NoDup (HEAD :: l1 ++ b :: l2) →
  HEAD ∉ l1 ++ b :: l2 ∧ b ≠ HEAD ∧ b ∉ l1 ++ l2 ∧ NoDup (HEAD :: l1 ++ l2).
Proof.
  rewrite !NoDup_cons, NoDup_app, NoDup_cons, NoDup_app. set_solver.
Qed.

(** [b->next->prev = b->prev; b->prev->next = b->next]. *)
Lemma unlink_spec c l1 b l2 :
  ring c (l1 ++ b :: l2) →
  ∃ x1 x2, let s2 := updb (λ y, y <| b_prev := b_prev x1 |>) (b_next x1) c in
    let s3 := updb (λ y, y <| b_next := b_next x2 |>) (b_prev x2) s2 in
    getb c b = Ok x1 ∧ getb s2 b = Ok x2 ∧ path (bc_buf s3) HEAD (l1 ++ l2) HEAD ∧ same_cores (bc_buf c) (bc_buf s3).
Proof.
  intros (Hp & Hnd & Hr). pose proof Hp as Hp0. rewrite path_app in Hp0. destruct Hp0 as [Hp1 Hp2].
  destruct (ring_nodup _ _ _ Hnd) as (Hh & Hbh & Hbl & _).
  assert (∃ n, next_of (bc_buf c) b = Some n) as [n Hn] by (destruct l2; eexists; apply Hp2).
  assert (∃ p, prev_of (bc_buf c) b = Some p) as [p Hpv].
  { destruct (snoc_case l1) as [->|(l' & y & ->)]; [eexists; apply Hp1|]. rewrite path_app in Hp1. eexists. apply Hp1. }
  pose proof (path_next_in _ _ _ _ _ Hp2 Hn) as Hnin. pose proof (path_prev_in _ _ _ _ _ Hp1 Hpv) as Hpin.
  assert (n < length (bc_buf c))%nat as Hnl by (apply Hr; set_solver).
  assert (p < length (bc_buf c))%nat as Hpl by (apply Hr; set_solver).
  assert (n ≠ b ∧ p ≠ b) as [Hnb Hpb] by set_solver.
  destruct (getb_links c b n p Hn Hpv) as (x1 & Hx1 & Hxn & Hxp). exists x1. rewrite Hxn, Hxp.
  set (s2 := updb _ n c). pose proof (λ j, prev_set (bc_buf c) n p j Hnl) as H2. change (alter _ n (bc_buf c)) with (bc_buf s2) in H2.
  assert (length (bc_buf s2) = length (bc_buf c)) as L2 by apply length_alter.
  destruct (getb_links s2 b n p) as (x2 & Hx2 & Hx2n & Hx2p);
    [by rewrite (proj2 (H2 b))|by rewrite (proj1 (H2 b)), decide_False by done|]. exists x2. cbv zeta. rewrite Hx2n, Hx2p.
  set (s3 := updb _ p s2). pose proof (λ j, next_set (bc_buf s2) p n j ltac:(by rewrite L2)) as H3.
  change (alter _ p (bc_buf s2)) with (bc_buf s3) in H3. split; [done|]. split; [done|]. split.
  - apply (path_unlink (bc_buf c) _ l1 b l2 HEAD n p HEAD); try done.
    + intros x _. by rewrite (proj1 (H3 x)), (proj2 (H2 x)).
    + intros x _. by rewrite (proj2 (H3 x)), (proj1 (H2 x)).
  - apply (same_cores_trans _ (bc_buf s2)); by apply same_cores_alter.
Qed.

(** Insertion after the head, as in [brelse] and [binit]. *)
Lemma relink_spec c l b (g : nat → buf → buf) :
  ring c l → (b < length (bc_buf c))%nat → b ∉ HEAD :: l →
  (∀ n x, b_next (g n x) = n ∧ b_prev (g n x) = HEAD) →
  ∃ h, let s4 := updb (g (b_next h)) b c in
    let s6 := updb (λ y, y <| b_next := b |>) HEAD (updb (λ y, y <| b_prev := b |>) (b_next h) s4) in
    getb c HEAD = Ok h ∧ (∃ h4, getb s4 HEAD = Ok h4 ∧ b_next h4 = b_next h) ∧ path (bc_buf s6) HEAD (b :: l) HEAD ∧
    same_cores (bc_buf s4) (bc_buf s6).
Proof.
  intros (Hp & Hnd & Hr) Hb Hbl Hg. apply not_elem_of_cons in Hbl as [Hbh Hbl]. apply NoDup_cons in Hnd as [Hh Hnd].
  destruct (path_hd _ _ Hp) as [Hn Hpv]. destruct (getb_links c HEAD _ _ Hn Hpv) as (h & Hgh & Hhn & _). set (n := hd HEAD l) in *.
  assert (n ∈ HEAD :: l) as Hnin by (unfold n; destruct l; cbn; [left|right; left]).
  assert (n < length (bc_buf c))%nat as Hnl by (by apply Hr). assert (n ≠ b) as Hnb by (intros ->; set_solver).
  exists h. rewrite Hhn. set (s4 := updb (g n) b c). cbv zeta. assert (length (bc_buf s4) = length (bc_buf c)) as L4 by apply length_alter.
  pose proof (λ j, both_gset (bc_buf c) b n (g n) j (Hg n) Hb) as H4. change (alter _ b (bc_buf c)) with (bc_buf s4) in H4.
  set (s5 := updb _ n s4). pose proof (λ j, prev_set (bc_buf s4) n b j ltac:(by rewrite L4)) as H5.
  change (alter _ n (bc_buf s4)) with (bc_buf s5) in H5. assert (length (bc_buf s5) = length (bc_buf s4)) as L5 by apply length_alter.
  set (s6 := updb _ HEAD s5). pose proof (λ j, next_set (bc_buf s5) HEAD b j ltac:(rewrite L5, L4; apply Hr; left)) as H6.
  change (alter _ HEAD (bc_buf s5)) with (bc_buf s6) in H6. split; [done|]. split; [|split].
  - destruct (H4 HEAD) as [Q1 Q2]. rewrite decide_False in Q1, Q2 by done. rewrite Hn in Q1. rewrite Hpv in Q2.
    destruct (getb_links s4 HEAD _ _ Q1 Q2) as (h4 & ? & ? & _). by exists h4.
  - apply (path_front (bc_buf c) _ b l HEAD n); try done.
    + intros x. by rewrite (proj1 (H6 x)), (proj2 (H5 x)), (proj1 (H4 x)).
    + intros x. by rewrite (proj2 (H6 x)), (proj1 (H5 x)), (proj2 (H4 x)).
  - apply (same_cores_trans _ (bc_buf s5)); by apply same_cores_alter.
Qed.

(** The order of use after a last reference is dropped. *)
Definition touch (b : nat) (order : list nat) : list nat := b :: filter (λ x, x ≠ b) order.

Lemma filter_out (l : list nat) b : b ∉ l → filter (λ x, x ≠ b) l = l.
Proof.
  induction l as [|x l IH]; [done|]. rewrite not_elem_of_cons. intros [Hx Hl]. rewrite filter_cons_True by congruence. by rewrite IH.
Qed.
Lemma touch_split l1 b l2 : b ∉ l1 ++ l2 → touch b (l1 ++ b :: l2) = b :: l1 ++ l2.
Proof.
  intros Hb. unfold touch. rewrite filter_app, filter_cons_False by naive_solver. rewrite <- filter_app. f_equal.
  by apply filter_out.
Qed.

Lemma release_others (th : gmap Z phase) p b : th !! p = Some (Hold b) →
  ∀ j, j ≠ b → refs (delete p th) j = refs th j ∧ ∀ q, delete p th !! q = Some (Hold j) ↔ th !! q = Some (Hold j).
Proof.
  intros Hp j Hj. rewrite (refs_delete th p (Hold b) j Hp). cbn. rewrite decide_False by congruence. split; [done|]. intros q.
  destruct (decide (q = p)) as [->|Hq]; [rewrite lookup_delete_eq, Hp; naive_solver|by rewrite lookup_delete_ne].
Qed.

Lemma release_ok th A dsz p b x f :
  bufok th A dsz b x → th !! p = Some (Hold b) → b_locked x = true → b_pid x = p → b_flags x ≠ 0 →
  b_flags (f x) = b_flags x → b_dev (f x) = b_dev x → b_blockno (f x) = b_blockno x → b_data (f x) = b_data x →
  b_locked (f x) = false → b_refcnt (f x) = b_refcnt x - 1 → bufok (delete p th) A dsz b (f x).
Proof.
  intros [F R L D Da He] Hp Hl Hpd Hf E1 E2 E3 E4 E5 E6. split; rewrite ?E1, ?E2, ?E3, ?E4, ?E5; try done.
  - rewrite E6, R, (refs_delete th p _ b Hp). cbn. rewrite decide_True by done. lia.
  - intros q. split; [|naive_solver]. destruct (decide (q = p)) as [->|Hq]; [by rewrite lookup_delete_eq|].
    rewrite lookup_delete_ne by done. intros Hq'. apply L in Hq'. naive_solver.
  - intros _. apply D. by right.
Qed.

Lemma binv_ring c th order A : binv c th order A → ring c order.
Proof.
  intros Hi. destruct (head_out _ _ _ _ Hi) as (_ & _ & Hnd). split; [apply Hi|]. split; [done|]. intros x Hx. rewrite (bi_len _ _ _ _ Hi).
  apply elem_of_cons in Hx as [->|Hx]; [unfold HEAD; lia|]. rewrite (in_order _ _ _ _ _ Hi) in Hx. lia.
Qed.

Lemma ring_links c c' l : (∀ j, next_of (bc_buf c') j = next_of (bc_buf c) j ∧ prev_of (bc_buf c') j = prev_of (bc_buf c) j) →
  length (bc_buf c') = length (bc_buf c) → ring c l → ring c' l.
Proof. intros H Hl (Hp & Hnd & Hr). split; [by eapply path_links|]. split; [done|]. by rewrite Hl. Qed.

Lemma disk_moved c c' th order A b x x' :
  binv c th order A → cached c b x → one_changed c c' b x' → b_flags x' = b_flags x → b_dev x' = b_dev x → b_blockno x' = b_blockno x →
  ∀ n, 0 ≤ n < dsize c → bc_disk c !! Z.to_nat n = Some (A n) ∨
     ∃ j y, cached c' j y ∧ b_dev y = 1 ∧ b_blockno y = n ∧ b_flags y = 6.
Proof.
  intros Hi Hx Hone E1 E2 E3 n Hn. destruct (bi_disk _ _ _ _ Hi n Hn) as [|(j & y & Hy & Hdv & Hbn & Hfl)]; [by left|right].
  destruct (decide (j = b)) as [->|Hj].
  - destruct Hx as [Hb Hx], Hy as [_ Hy]. rewrite Hx in Hy. apply Some_inj in Hy as <-. destruct Hone as (_ & _ & _ & Hb').
    destruct (bc_buf c' !! b) as [z|] eqn:Hz; [|done]. exists b, z. apply Some_inj, core_fields in Hb' as (F & D & B & _).
    split; [done|]. rewrite F, D, B. split_and!; congruence.
  - destruct (one_changed_back _ _ _ _ _ _ Hone Hy Hj) as (y' & Hy' & Hc). exists j, y'. apply core_fields in Hc as (F & D & B & _).
    split; [done|]. rewrite F, D, B. done.
Qed.

(** Dropping a reference, and moving the buffer to the front when it was the
    last one. *)
Lemma to_front c s1 th order A b f x c' :
  binv c th order A → cached c b x → s1 = updb f b c → (∀ y, b_next (f y) = b_next y ∧ b_prev (f y) = b_prev y) →
  (x1 ← getb s1 b;
   let s2 := updb (λ y, y <| b_prev := b_prev x1 |>) (b_next x1) s1 in
   x2 ← getb s2 b;
   let s3 := updb (λ y, y <| b_next := b_next x2 |>) (b_prev x2) s2 in
   h ← getb s3 HEAD;
   let s4 := updb (λ y, y <| b_next := b_next h |> <| b_prev := HEAD |>) b s3 in
   h4 ← getb s4 HEAD;
   let s5 := updb (λ y, y <| b_prev := b |>) (b_next h4) s4 in
   Ok (updb (λ y, y <| b_next := b |>) HEAD s5)) = c' →
  ∃ s, c' = Ok s ∧ bc_disk s = bc_disk c ∧ one_changed c s b (f x) ∧ path (bc_buf s) HEAD (touch b order) HEAD ∧ touch b order ≡ₚ order.
Proof.
  intros Hi Hcx -> Hf <-. assert (b ∈ order) as Hbo by (rewrite (in_order _ _ _ _ _ Hi); apply Hcx).
  apply list_elem_of_split in Hbo as (l1 & l2 & ->). pose proof (binv_ring _ _ _ _ Hi) as Hrg.
  assert (ring (updb f b c) (l1 ++ b :: l2)) as Hr1 by (apply (ring_links c); [by apply alter_links|apply length_alter|done]).
  destruct (unlink_spec _ _ _ _ Hr1) as (x1 & x2 & Hx1 & Hx2 & Hp3 & Hsc3). rewrite Hx1, bind_ret. cbv zeta. rewrite Hx2, bind_ret.
  set (s3 := updb _ _ (updb _ (b_next x1) _)) in *. destruct Hr1 as (_ & Hnd & Hr). destruct (ring_nodup _ _ _ Hnd) as (Hh & Hbh & Hbl & Hnd').
  destruct (relink_spec s3 (l1 ++ l2) b (λ n y, y <| b_next := n |> <| b_prev := HEAD |>)) as (h & Hgh & (h4 & Hh4 & Hn4) & Hp6 & Hsc6); try done.
  { split; [done|]. split; [done|]. rewrite (proj1 Hsc3). set_solver. }
  { rewrite (proj1 Hsc3). apply Hr. set_solver. }
  { apply not_elem_of_cons. done. }
  cbv zeta in Hgh, Hh4, Hp6, Hsc6. rewrite Hgh, bind_ret, Hh4, bind_ret, Hn4. rewrite touch_split by done. eexists. split; [done|]. split; [done|].
  split; [|split; [done|by rewrite Permutation_middle]].
  assert (same_cores (bc_buf s3) (bc_buf (updb (λ y, y <| b_next := b_next h |> <| b_prev := HEAD |>) b s3))) as Hsc4 by (by apply same_cores_alter).
  pose proof (same_cores_trans _ _ _ Hsc3 (same_cores_trans _ _ _ Hsc4 Hsc6)) as [HL HC].
  destruct (one_alter c (updb f b c) f b x (proj2 Hcx) eq_refl eq_refl) as (O1 & O2 & O3 & O4). split_and!.
  - by rewrite HL.
  - done.
  - intros j Hj. rewrite HC. by apply O3.
  - rewrite HC. exact O4.
Qed.

Lemma brelse_spec c th order A p b :
  binv c th order A → th !! p = Some (Hold b) → Z.of_nat (size th) ≤ 65536 →
  ∃ c', brelse p b c = Ok c' ∧ bc_disk c' = bc_disk c ∧
    binv c' (delete p th) (if decide (refs th b = 1%nat) then touch b order else order) A.
Proof.
  intros Hi Hp Hsz. destruct (holder _ _ _ _ _ _ Hi Hp) as (x & Hcx & Hok & Hl & Hpd & Hd & Hbn & Hf & _).
  unfold brelse, releasesleep. rewrite (getb_Ok _ _ _ (proj2 Hcx)), bind_ret. unfold holdingsleep. rewrite Hl, Hpd, bool_decide_true by done.
  cbn [andb negb]. rewrite updb_updb. set (f := _ ∘ _). pose proof (bo_ref _ _ _ _ _ Hok) as HR. pose proof (refs_pos _ _ _ Hp) as Hr1. cbn in Hr1.
  pose proof (refs_size th b) as Hrs. assert (b_refcnt (f x) = b_refcnt x - 1) as Hfr by (apply u32_small; rewrite HR; lia).
  rewrite (getb_Ok _ _ _ (proj2 (updb_cached c f b x Hcx))), bind_ret. rewrite Hfr.
  assert (bufok (delete p th) A (dsize c) b (f x)) as Hok' by (apply (release_ok th A _ p b x f); try done; destruct Hf; lia).
  destruct (to_front c _ th order A b f x _ Hi Hcx eq_refl ltac:(done) eq_refl) as (s & Hs & Hsd & Hone & Hpath & Hperm).
  rewrite (getb_Ok _ _ _ (proj2 (updb_cached c f b x Hcx))), bind_ret in Hs.
  assert (∀ q ph, delete p th !! q = Some ph → (pbuf ph < NBUF)%nat) as Hth.
  { intros q ph Hq. apply lookup_delete_Some in Hq as [_ Hq]. by apply (bi_th _ _ _ _ Hi q). }
  destruct (decide (refs th b = 1%nat)) as [H1|H1]; [rewrite decide_True by lia|rewrite decide_False by lia].
  - cbv zeta in Hs |- *. rewrite Hs. exists s. split; [done|]. split; [done|].
    apply (binv_step c s th _ A A order _ b (f x) Hi (proj1 Hcx)); try done.
    + by rewrite Hperm, (bi_order _ _ _ _ Hi).
    + by apply release_others.
    + intros _. exact (uniq_other _ _ _ _ _ _ Hi Hcx Hd).
    + intros n Hn. rewrite Hsd. apply (disk_moved c s th order A b x (f x) Hi Hcx Hone); done.
  - eexists. split; [done|]. split; [done|]. apply (binv_alter c _ th _ A A order f b x Hi Hcx); try done.
    + by apply release_others.
    + intros _. exact (uniq_other _ _ _ _ _ _ Hi Hcx Hd).
    + by apply (disk_same c _ th order A f b x).
Qed.

(** ** Initialisation *)

(** A buffer as the kernel starts: nothing cached, nobody using it. *)
Definition fresh (x : buf) : Prop := b_flags x = 0 ∧ b_dev x = 0 ∧ b_refcnt x = 0 ∧ b_locked x = false.
Definition all_fresh (s : list buf) : Prop := ∀ j x, s !! j = Some x → fresh x.

Lemma fresh_alter s (f : buf → buf) i : (∀ x, fresh x → fresh (f x)) → all_fresh s → all_fresh (alter f i s).
Proof.
  intros Hf Hs j x. destruct (decide (j = i)) as [->|Hj]; [|rewrite list_lookup_alter_ne by done; apply Hs].
  rewrite list_lookup_alter_eq. intros Hx. apply fmap_Some in Hx as (y & Hy & ->). by eapply Hf, Hs.
Qed.

Definition binit_inv (c : bcache) (b : nat) : Prop :=
  length (bc_buf c) = S NBUF ∧ all_fresh (bc_buf c) ∧ path (bc_buf c) HEAD (reverse (seq 0 b)) HEAD.

Lemma binit_ring c b : binit_inv c b → (b ≤ NBUF)%nat → ring c (reverse (seq 0 b)).
Proof.
  intros (Hl & _ & Hp) Hb. split; [done|]. rewrite Hl. split.
  - apply NoDup_cons. rewrite elem_of_reverse, elem_of_seq. split; [unfold HEAD; lia|]. rewrite reverse_Permutation. apply NoDup_seq.
  - intros x. rewrite elem_of_cons, elem_of_reverse, elem_of_seq. unfold HEAD. lia.
Qed.

Lemma binit_one_spec c b : binit_inv c b → (b < NBUF)%nat → ∃ c', binit_one b c = Ok c' ∧ bc_disk c' = bc_disk c ∧ binit_inv c' (S b).
Proof.
  intros Hi Hb. pose proof (binit_ring c b Hi ltac:(lia)) as Hr. destruct Hi as (Hl & Hfr & Hp). unfold binit_one.
  destruct (relink_spec c (reverse (seq 0 b)) b (λ n x, x <| b_next := n |> <| b_prev := HEAD |> <| b_locked := false |> <| b_pid := 0 |>))
    as (h & Hh & _ & Hp' & Hsc); [done|by rewrite Hl; lia| |done|].
  { rewrite not_elem_of_cons, elem_of_reverse, elem_of_seq. unfold HEAD. lia. }
  cbv zeta in Hp', Hsc. rewrite Hh, bind_ret. cbv zeta. eexists. split; [done|]. split; [done|]. split; [|split].
  - rewrite (proj1 Hsc). etrans; [apply length_alter|exact Hl].
  - repeat (apply fresh_alter; [intros x; unfold fresh; cbn; naive_solver|]). done.
  - rewrite seq_S, reverse_snoc. exact Hp'.
Qed.

Lemma binit_loop_spec n : ∀ b c, binit_inv c b → (b + n = NBUF)%nat →
  ∃ c', binit_loop n b c = Ok c' ∧ bc_disk c' = bc_disk c ∧ binit_inv c' NBUF.
Proof.
  induction n as [|n IH]; intros b c Hi Hn; [exists c; replace NBUF with b by lia; done|].
  destruct (binit_one_spec c b Hi ltac:(lia)) as (c1 & H1 & Hd1 & Hi1). cbn [binit_loop]. rewrite H1, bind_ret.
  destruct (IH (S b) c1 Hi1 ltac:(lia)) as (c2 & H2 & Hd2 & Hi2). exists c2. split; [done|]. split; [congruence|done].
Qed.

Definition disk_contents (d : list block) : Z → block := λ n, default [] (d !! Z.to_nat n).

Lemma binit_spec c :
  length (bc_buf c) = S NBUF → all_fresh (bc_buf c) →
  ∃ c', binit c = Ok c' ∧ bc_disk c' = bc_disk c ∧ binv c' ∅ (reverse (seq 0 NBUF)) (disk_contents (bc_disk c)).
Proof.
  intros Hl Hfr. unfold binit. set (f := λ x, x <| b_prev := HEAD |> <| b_next := HEAD |>).
  destruct (binit_loop_spec NBUF 0 (updb f HEAD c)) as (c' & Hc' & Hd & Hl' & Hfr' & Hp); [|done|].
  { split; [etrans; [apply length_alter|done]|]. split; [by apply fresh_alter|].
    destruct (both_gset (bc_buf c) HEAD HEAD f HEAD) as [H1 H2]; [done|rewrite Hl; unfold HEAD; lia|].
    rewrite decide_True in H1, H2 by done. split; [exact H1|exact H2]. }
  exists c'. split; [done|]. split; [done|]. split; try done.
  - by rewrite reverse_Permutation.
  - intros b x [Hb Hx]. destruct (Hfr' b x Hx) as (F & D & R & L). split; try (rewrite ?F, ?L; naive_solver); try done.
  - intros b b' x x' [_ Hx] _ Hd1. destruct (Hfr' b x Hx) as (_ & D & _). congruence.
  - intros n Hn. left. unfold disk_contents. rewrite Hd in *. unfold dsize in Hn. rewrite Hd in Hn.
    destruct (lookup_lt_is_Some_2 (bc_disk c) (Z.to_nat n)) as [y Hy]; [cbn in Hn; lia|]. cbn. by rewrite Hy.
Qed.

(** ** Processes using the cache *)

(** The cache, what each process is doing, the buffers from the most to the
    least recently released, and what was last stored in each block. *)
Record bworld := mkbworld { w_cache : bcache; w_th : gmap Z phase; w_order : list nat; w_store : Z → block }.

Inductive bstep : bworld → bworld → Prop :=
  | bstep_get c th order A p n b c' :
      th !! p = None → 0 ≤ n < dsize c → Z.of_nat (size th) < 65536 → bget_enter 1 n c = Ok (b, c') →
      bstep (mkbworld c th order A) (mkbworld c' (<[p := Wait b]> th) order A)
  | bstep_lock c th order A p b c' :
      th !! p = Some (Wait b) → bread_lock p b c = Ok (true, c') →
      bstep (mkbworld c th order A) (mkbworld c' (<[p := Hold b]> th) order A)
  | bstep_log_write c th order A p b x d :
      th !! p = Some (Hold b) → bc_buf c !! b = Some x →
      bstep (mkbworld c th order A) (mkbworld (log_mark b (set_data d b c)) th order (store A (b_blockno x) d))
  | bstep_write c th order A p b x d c' :
      th !! p = Some (Hold b) → bc_buf c !! b = Some x → bwrite p b (set_data d b c) = Ok c' →
      bstep (mkbworld c th order A) (mkbworld c' th order (store A (b_blockno x) d))
  | bstep_release c th order A p b c' :
      th !! p = Some (Hold b) → brelse p b c = Ok c' →
      bstep (mkbworld c th order A) (mkbworld c' (delete p th) (if decide (refs th b = 1%nat) then touch b order else order) A).

Definition bboot (c : bcache) : bworld := mkbworld c ∅ (reverse (seq 0 NBUF)) (disk_contents (bc_disk c)).

Definition winv (w : bworld) : Prop :=
  binv (w_cache w) (w_th w) (w_order w) (w_store w) ∧ Z.of_nat (size (w_th w)) ≤ 65536.

Lemma size_change (th : gmap Z phase) p ph ph' : th !! p = Some ph → size (<[p := ph']> th) = size th.
Proof. intros Hp. by rewrite map_size_insert, Hp. Qed.

Lemma bstep_winv w w' : bstep w w' → winv w → winv w'.
Proof.
  destruct 1 as [c th order A p n b c' Hp Hn Hsz Hg|c th order A p b c' Hp Hl|c th order A p b x d Hp Hx|c th order A p b x d c' Hp Hx Hw|c th order A p b c' Hp Hr];
    intros [Hi Hs]; unfold winv in *; cbn in Hi, Hs |- *.
  - pose proof (bget_enter_spec c th order A p n Hi Hp Hn Hsz) as H. destruct (victim c order n); [|congruence].
    destruct H as (c1 & H1 & _ & Hi1 & _). rewrite Hg in H1. simplify_eq. split; [done|]. rewrite map_size_insert, Hp. cbn. lia.
  - destruct (bread_lock_spec c th order A p b Hi Hp) as [[H _]|(c1 & H & _ & Hi1 & _)]; rewrite Hl in H; simplify_eq.
    split; [done|]. by rewrite (size_change th p (Wait b)).
  - split; [|done]. destruct (log_mark_spec c th order A p b d Hi Hp) as (y & [_ Hy] & H). rewrite Hx in Hy. apply Some_inj in Hy as <-. exact H.
  - split; [|done]. destruct (bwrite_spec c th order A p b d Hi Hp) as (y & c1 & [_ Hy] & H & Hi1 & _).
    rewrite Hx in Hy. apply Some_inj in Hy as <-. rewrite Hw in H. simplify_eq. exact Hi1.
  - destruct (brelse_spec c th order A p b Hi Hp Hs) as (c1 & H & _ & Hi1). rewrite Hr in H. simplify_eq. split; [done|].
    rewrite map_size_delete, Hp. lia.
Qed.

Lemma reach_winv c0 c w :
  length (bc_buf c0) = S NBUF → all_fresh (bc_buf c0) → binit c0 = Ok c → rtc bstep (bboot c) w → winv w.
Proof.
  intros Hl Hf Hb Hr. destruct (binit_spec c0 Hl Hf) as (c' & Hb' & Hd & Hi). rewrite Hb in Hb'. simplify_eq. rewrite <- Hd in Hi.
  assert (winv (bboot c')) as Hw by (split; [exact Hi|done]). clear Hi.
  induction Hr as [|w1 w2 w3 H12 _ IH]; [done|]. by apply IH, (bstep_winv w1).
Qed.

Lemma victim_None c th order A n :
  binv c th order A → victim c order n = None →
  ∀ b x, cached c b x → ¬ (b_dev x = 1 ∧ b_blockno x = n) ∧ (b_refcnt x ≠ 0 ∨ Z.land (b_flags x) B_DIRTY ≠ 0).
Proof.
  intros Hi Hv b x [Hb Hx]. unfold victim in Hv. destruct (first _ order) eqn:H1; [done|]. rewrite <- (in_order _ _ _ _ _ Hi) in Hb.
  pose proof (first_None _ _ H1 b Hb) as Q1. pose proof (first_None _ _ Hv b ltac:(by apply elem_of_reverse)) as Q2.
  unfold test, is_block, is_unused in Q1, Q2. rewrite Hx in Q1, Q2. apply bool_decide_eq_false in Q1, Q2. split; [done|]. lia.
Qed.

Lemma one_holder c th order A p q b b' x x' :
  binv c th order A → th !! p = Some (Hold b) → th !! q = Some (Hold b') → bc_buf c !! b = Some x → bc_buf c !! b' = Some x' →
  b_blockno x = b_blockno x' → p = q.
Proof.
  intros Hi Hp Hq Hx Hx' He. destruct (holder _ _ _ _ _ _ Hi Hp) as (y & Hy & _ & _ & Hpp & Hd & _).
  destruct (holder _ _ _ _ _ _ Hi Hq) as (y' & Hy' & _ & _ & Hqq & Hd' & _).
  assert (y = x) as -> by (destruct Hy; congruence). assert (y' = x') as -> by (destruct Hy'; congruence).
  assert (b = b') as -> by exact (bi_uniq _ _ _ _ Hi _ _ _ _ Hy Hy' Hd Hd' He). congruence.
Qed.


Definition zero_buf : buf := mkbuf 0 0 0 false 0 0 0 0 [].

