(* ===== verification/Syscall.v ===== *)
(** * System call arguments: [syscall.c]

    The arguments of a system call are words on the user's stack, which the
    kernel reads through the current address space: [u_mem] holds the bytes
    mapped from address 0 on, and a read outside them is a fault.  A result of
    [None] is the return value -1. *)

From S2P Require Import Prelude.
From S2P Require Import Bytes.
From S2P Require Import CString.

Local Open Scope Z_scope.

(** What the current process shows to the kernel. *)
Record uproc := mkuproc {
  u_mem : list Z;      (* its memory *)
  u_sz : Z;            (* curproc->sz *)
  u_esp : Z            (* curproc->tf->esp *)
}.

Definition fetchint (u : uproc) (addr : Z) : outcome (option Z) :=
  if decide (u_sz u ≤ addr ∨ u_sz u < u32 (addr + 4)) then Ok None
  else w ← get_le 4 (u_mem u) addr; Ok (Some (i32 w)).

(** [for (s = *pp; s < ep; s++)], [n] bytes before [ep]. *)
Fixpoint fetchstr_loop (u : uproc) (n : nat) (s pp : Z) : outcome (option Z) :=
  match n with
  | O => Ok None
  | S n' => c ← aget (u_mem u) s; if decide (c = 0) then Ok (Some (s - pp)) else fetchstr_loop u n' (s + 1) pp
  end.
(** The length and the address stored to [*pp]. *)
Definition fetchstr (u : uproc) (addr : Z) : outcome (option (Z * Z)) :=
  if decide (u_sz u ≤ addr) then Ok None
  else
    r ← fetchstr_loop u (Z.to_nat (u_sz u - addr)) addr addr;
    Ok (match r with Some n => Some (n, addr) | None => None end).

Definition argint (u : uproc) (n : Z) : outcome (option Z) := fetchint u (u32 (u_esp u + 4 + 4 * n)).

Definition argptr (u : uproc) (n size : Z) : outcome (option Z) :=
  r ← argint u n;
  match r with
  | None => Ok None
  | Some i =>
      if decide (size < 0 ∨ u_sz u ≤ u32 i ∨ u_sz u < u32 (u32 i + size)) then Ok None else Ok (Some (u32 i))
  end.

Definition argstr (u : uproc) (n : Z) : outcome (option (Z * Z)) :=
  r ← argint u n;
  match r with None => Ok None | Some addr => fetchstr u (u32 addr) end.

(** ** What they guarantee *)

(** An address space: below the kernel, and mapped up to its size. *)
Record uproc_ok (u : uproc) : Prop := {
  uo_sz : 0 ≤ u_sz u ≤ 2 ^ 31;
  uo_mem : u_sz u ≤ Z.of_nat (length (u_mem u));
  uo_byte : Forall byte_range (u_mem u)
}.

(** The word at [a], and the string at [a] with [n] characters. *)
Definition uword (u : uproc) (a : Z) : Z := le_val (slice (Z.to_nat a) 4 (u_mem u)).
Definition ustring (u : uproc) (a n : Z) : Prop :=
  0 ≤ n ∧ a + n < u_sz u ∧ u_mem u !! Z.to_nat (a + n) = Some 0 ∧
  ∀ k, 0 ≤ k < n → ∃ c, u_mem u !! Z.to_nat (a + k) = Some c ∧ c ≠ 0.

Lemma fetchint_spec u addr :
  uproc_ok u → 0 ≤ addr < 2 ^ 32 →
  fetchint u addr = Ok (if decide (addr + 4 ≤ u_sz u) then Some (i32 (uword u addr)) else None).
Proof.
  intros [Hsz Hm _] Ha. unfold fetchint. case_decide as Hc.
  - rewrite decide_False; [done|]. intros Hle. destruct Hc as [Hc|Hc]; [lia|]. rewrite u32_small in Hc; lia.
  - apply Decidable.not_or in Hc as [Hc1 Hc2]. rewrite u32_small in Hc2 by lia. rewrite decide_True by lia.
    pose proof (get_le_Ok 4 (u_mem u) (Z.to_nat addr)) as Hg. rewrite Z2Nat.id in Hg by lia.
    rewrite Hg by lia. by rewrite bind_ret.
Qed.

Lemma fetchstr_loop_spec u n : ∀ s pp, uproc_ok u → 0 ≤ pp ≤ s → s + Z.of_nat n = u_sz u →
  (∀ k, pp ≤ k < s → ∃ c, u_mem u !! Z.to_nat k = Some c ∧ c ≠ 0) →
  ∃ r, fetchstr_loop u n s pp = Ok r ∧
    match r with Some k => ustring u pp k | None => ∀ k, ¬ ustring u pp k end.
Proof.
  induction n as [|n IH]; intros s pp Hu Hs Hn Hnz; cbn [fetchstr_loop].
  - exists None. split; [done|]. intros k (Hk & Hlt & H0 & _). destruct (Hnz (pp + k)) as (c & Hc & Hc0); [lia|]. congruence.
  - destruct Hu as [Hsz Hm Hb]. destruct (lookup_lt_is_Some_2 (u_mem u) (Z.to_nat s)) as [c Hc]; [lia|].
    rewrite (proj2 (aget_Ok (u_mem u) s c)) by (split; [lia|done]). rewrite bind_ret. case_decide as H0.
    + subst c. exists (Some (s - pp)). split; [done|]. split_and!; [lia|lia|by replace (pp + (s - pp)) with s by lia|].
      intros k Hk. apply Hnz. lia.
    + apply IH; [done|lia|lia|]. intros k Hk. destruct (decide (k = s)) as [->|]; [by exists c|apply Hnz; lia].
Qed.

Lemma fetchstr_spec u addr :
  uproc_ok u → 0 ≤ addr < 2 ^ 32 →
  ∃ r, fetchstr u addr = Ok r ∧
    match r with Some (n, p) => p = addr ∧ ustring u addr n | None => ∀ n, ¬ ustring u addr n end.
Proof.
  intros Hu Ha. unfold fetchstr. case_decide as Hc; [exists None; split; [done|]; intros n (? & ? & _); lia|].
  destruct (fetchstr_loop_spec u (Z.to_nat (u_sz u - addr)) addr addr Hu) as (r & -> & Hr); [lia|lia|intros k Hk; lia|].
  rewrite bind_ret. eexists. split; [done|]. by destruct r.
Qed.

Lemma u32_i32 x : u32 (i32 x) = u32 x.
Proof.
  unfold u32, i32. rewrite Zminus_mod, Zmod_mod, <- Zminus_mod. f_equal. lia.
Qed.

Lemma argint_spec u n :
  uproc_ok u →
  let a := u32 (u_esp u + 4 + 4 * n) in
  argint u n = Ok (if decide (a + 4 ≤ u_sz u) then Some (i32 (uword u a)) else None).
Proof. intros Hu. apply fetchint_spec; [done|]. apply u32_range. Qed.

Lemma uword_range u a : uproc_ok u → 0 ≤ a → a + 4 ≤ u_sz u → 0 ≤ uword u a < 2 ^ 32.
Proof.
  intros [Hsz Hm Hb] Ha Hle. unfold uword. pose proof (le_val_range (slice (Z.to_nat a) 4 (u_mem u))) as Hr.
  rewrite slice_length in Hr by lia. apply Hr. by apply Forall_slice.
Qed.

(** C36. Whatever is in a process's registers and memory, fetching an argument
    never reads outside its memory, and the checks are exact although their
    sums are 32 bits wide: an integer is delivered just when its word lies
    below [sz], a pointer to [size] bytes just when, moreover, all of them do,
    and a string just when its terminating NUL does. *)
Theorem arguments_in_bounds u n size :
  uproc_ok u → - 2 ^ 31 ≤ size < 2 ^ 31 →
  let a := u32 (u_esp u + 4 + 4 * n) in
  let p := uword u a in
  argint u n = Ok (if decide (a + 4 ≤ u_sz u) then Some (i32 p) else None) ∧
  argptr u n size =
    Ok (if decide (a + 4 ≤ u_sz u ∧ 0 ≤ size ∧ p < u_sz u ∧ p + size ≤ u_sz u) then Some p else None) ∧
  ∃ r, argstr u n = Ok r ∧
    match r with
    | Some (len, q) => a + 4 ≤ u_sz u ∧ q = p ∧ ustring u p len
    | None => u_sz u < a + 4 ∨ ∀ len, ¬ ustring u p len
    end.
Proof.
  intros Hu Hsize a p. pose proof Hu as [Hsz Hm Hb]. pose proof (u32_range (u_esp u + 4 + 4 * n)) as Ha. fold a in Ha.
  pose proof (argint_spec u n Hu) as Hi. fold a p in Hi. cbv zeta in Hi. split; [done|].
  unfold argptr, argstr. rewrite Hi, !bind_ret. destruct (decide (a + 4 ≤ u_sz u)) as [Hle|Hgt].
  - pose proof (uword_range u a Hu ltac:(lia) Hle) as Hp. fold p in Hp. assert (u32 (i32 p) = p) as Hpp by (rewrite u32_i32; apply u32_small; lia).
    fold p. rewrite !Hpp. split.
    + case_decide as Hc.
      * rewrite decide_False; [done|]. intros (_ & H0 & H1 & H2). destruct Hc as [Hc|[Hc|Hc]]; [lia|lia|]. rewrite u32_small in Hc; lia.
      * apply Decidable.not_or in Hc as [Hc1 Hc]. apply Decidable.not_or in Hc as [Hc2 Hc3]. rewrite u32_small in Hc3 by lia.
        rewrite decide_True by lia. done.
    + destruct (fetchstr_spec u p Hu Hp) as (r & Hr & Hspec). exists r. split; [done|]. destruct r as [[len q]|]; [naive_solver|by right].
  - split; [by rewrite decide_False by lia|]. exists None. split; [done|]. left. lia.
Qed.

(** A stack with the arguments 16 and 3: the string "hi" is at 16. *)
Definition demo_uproc : uproc := mkuproc ([0; 0; 0; 0; 16; 0; 0; 0; 3; 0; 0; 0; 0; 0; 0; 0; 104; 105; 0; 0]) 20 0.

Lemma arguments_in_bounds_witness :
  argptr demo_uproc 0 3 = Ok (Some 16) ∧ argptr demo_uproc 0 5 = Ok None ∧ argstr demo_uproc 0 = Ok (Some (2, 16)).
Proof.
  assert (uproc_ok demo_uproc) as Hu by (split; [done|done|repeat constructor; done]).
  split; [|split].
  - exact (proj1 (proj2 (arguments_in_bounds demo_uproc 0 3 Hu ltac:(done)))).
  - exact (proj1 (proj2 (arguments_in_bounds demo_uproc 0 5 Hu ltac:(done)))).
  - reflexivity.
Defined.
