(* ===== verification/File.v ===== *)
(** * Open files: [file.c], and [pipealloc] of [pipe.c]

    The state below the process table: physical memory, the table of open
    files, the pipes and the file system.  A [struct file] is named by its index
    in [ftable.file], a pipe by the address of its page.  [n_ops] records the
    blocks that each completed file system operation logged, [begin_op] to
    [end_op]. *)

From stdpp Require Import gmap.
From S2P Require Import Prelude.
From S2P Require Import Bytes.
From S2P Require Import CString.
From S2P Require Import Log.
From S2P Require Import Fs.
From S2P Require Import Pipe.
From S2P Require Import Kalloc.

Local Open Scope Z_scope.

Definition NFILE : nat := 100.

Inductive fdtype := FD_NONE | FD_PIPE | FD_INODE.
#[export] Instance fdtype_eq_dec : EqDecision fdtype.
Proof. solve_decision. Defined.

Record file := mkfile {
  fl_type : fdtype; fl_ref : Z; fl_readable : bool; fl_writable : bool;
  fl_pipe : Z; fl_ip : nat; fl_off : Z
}.
#[export] Instance file_fields : Fields file := λ f,
  mkfile (fl_type f) (fl_ref f) (fl_readable f) (fl_writable f) (fl_pipe f) (fl_ip f) (fl_off f).

Record kenv := mkkenv {
  n_mem : mem;              (* kmem *)
  n_ft : list file;         (* ftable.file *)
  n_pipe : gmap Z pipe;     (* the pipes, by address *)
  n_fs : fstate;            (* buffer cache, log and inode cache *)
  n_ops : list (list Z)     (* blocks logged by each operation *)
}.
#[export] Instance kenv_fields : Fields kenv := λ e,
  mkkenv (n_mem e) (n_ft e) (n_pipe e) (n_fs e) (n_ops e).

Definition getf (e : kenv) (f : nat) : outcome file := aget (n_ft e) (Z.of_nat f).
Definition updf (g : file → file) (f : nat) (e : kenv) : kenv := e <| n_ft ::= alter g f |>.

(** [begin_op] and [end_op] as this operation sees them. *)
Definition op_begin (e : kenv) : kenv := e <| n_fs ::= λ s, s <| f_logged := [] |> |>.
Definition op_end (e : kenv) : kenv := e <| n_ops ::= λ l, l ++ [f_logged (n_fs e)] |>.

(** An operation of [fs.c]. *)
Definition on_fs (op : fstate → outcome fstate) (e : kenv) : outcome kenv :=
  s ← op (n_fs e); Ok (e <| n_fs := s |>).

Fixpoint filealloc_scan (l : list file) (i : nat) : option nat :=
  match l with
  | [] => None
  | f :: l' => if decide (fl_ref f = 0) then Some i else filealloc_scan l' (S i)
  end.
Definition filealloc (e : kenv) : option nat * kenv :=
  match filealloc_scan (n_ft e) 0 with
  | Some f => (Some f, updf (λ x, x <| fl_ref := 1 |>) f e)
  | None => (None, e)
  end.

Definition filedup (f : nat) (e : kenv) : outcome kenv :=
  x ← getf e f;
  if decide (fl_ref x < 1) then Panic "filedup"
  else Ok (updf (λ x, x <| fl_ref ::= λ r, r + 1 |>) f e).

Section file.
Context (kend : Z) (devs : list devsw).

(** [pipeclose] of the pipe at [p]. *)
Definition pipe_close (p : Z) (writable : bool) (e : kenv) : outcome kenv :=
  match n_pipe e !! p with
  | None => Fault "pipeclose: no pipe at this address"
  | Some x =>
      let '(x', free) := pipeclose writable x in
      if free : bool then m ← kfree kend p (n_mem e); Ok (e <| n_mem := m |> <| n_pipe ::= delete p |>)
      else Ok (e <| n_pipe ::= <[p := x']> |>)
  end.

Definition fileclose (f : nat) (e : kenv) : outcome kenv :=
  x ← getf e f;
  if decide (fl_ref x < 1) then Panic "fileclose"
  else if decide (0 < fl_ref x - 1) then Ok (updf (λ x, x <| fl_ref := fl_ref x - 1 |>) f e)
  else
    let e1 := updf (λ x, x <| fl_ref := 0 |> <| fl_type := FD_NONE |>) f e in
    match fl_type x with
    | FD_PIPE => pipe_close (fl_pipe x) (fl_writable x) e1
    | FD_INODE => e2 ← on_fs (iput (fl_ip x)) (op_begin e1); Ok (op_end e2)
    | FD_NONE => Ok e1
    end.

(** The stat buffer, or [None] for -1. *)
Definition filestat (f : nat) (e : kenv) : outcome (option stat * kenv) :=
  x ← getf e f;
  if decide (fl_type x = FD_INODE) then
    s1 ← ilock (fl_ip x) (n_fs e);
    i ← geti s1 (fl_ip x);
    s2 ← iunlock (fl_ip x) s1;
    Ok (Some (stati i), e <| n_fs := s2 |>)
  else Ok (None, e).

(** A call on a pipe may sleep, see [Pipe]. *)
Definition fileread (pid : Z) (killed : bool) (f : nat) (n : Z) (e : kenv) : outcome (presult * list Z * kenv) :=
  x ← getf e f;
  if negb (fl_readable x) then Ok (PRet (-1), [], e)
  else if decide (fl_type x = FD_PIPE) then
    match n_pipe e !! fl_pipe x with
    | None => Fault "piperead: no pipe at this address"
    | Some p =>
        '(r, bytes, p') ← piperead pid killed n p;
        Ok (r, bytes, e <| n_pipe ::= <[fl_pipe x := p']> |>)
    end
  else if decide (fl_type x = FD_INODE) then
    s1 ← ilock (fl_ip x) (n_fs e);
    '(r, bytes, s2) ← readi devs (fl_ip x) (fl_off x) (u32 n) s1;
    let e1 := if decide (0 < r) then updf (λ x, x <| fl_off := u32 (fl_off x + r) |>) f e else e in
    s3 ← iunlock (fl_ip x) s2;
    Ok (PRet r, bytes, e1 <| n_fs := s3 |>)
  else Panic "fileread".

(** [((MAXOPBLOCKS-1-1-2) / 2) * 512] *)
Definition MAXWRITE : Z := (MAXOPBLOCKS - 1 - 1 - 2) / 2 * 512.

(** One turn of the loop of [filewrite]: what [writei] returned. *)
Definition filewrite_chunk (f : nat) (addr : list Z) (i n1 : Z) (e : kenv) : outcome (Z * kenv) :=
  x ← getf e f;
  let e1 := op_begin e in
  s1 ← ilock (fl_ip x) (n_fs e1);
  '(r, s2) ← writei devs (fl_ip x) (drop (Z.to_nat i) addr) (fl_off x) n1 s1;
  let e2 := if decide (0 < r) then updf (λ x, x <| fl_off := u32 (fl_off x + r) |>) f e1 else e1 in
  s3 ← iunlock (fl_ip x) s2;
  Ok (r, op_end (e2 <| n_fs := s3 |>)).

(** The loop from byte [i] on: the value of [i] after it. *)
Fixpoint filewrite_loop (fuel : nat) (f : nat) (addr : list Z) (n i : Z) (e : kenv) : outcome (Z * kenv) :=
  if decide (i < n) then
    match fuel with
    | O => Fault "fuel"
    | S fuel' =>
        let n1 := if decide (MAXWRITE < n - i) then MAXWRITE else n - i in
        '(r, e1) ← filewrite_chunk f addr i n1 e;
        if decide (r < 0) then Ok (i, e1)
        else if decide (r ≠ n1) then Panic "short filewrite"
        else filewrite_loop fuel' f addr n (i + r) e1
    end
  else Ok (i, e).

(** [i] is where a call on a pipe goes on after it slept. *)
Definition filewrite (pid : Z) (killed : bool) (f : nat) (addr : list Z) (n i : Z) (e : kenv) : outcome (presult * kenv) :=
  x ← getf e f;
  if negb (fl_writable x) then Ok (PRet (-1), e)
  else if decide (fl_type x = FD_PIPE) then
    match n_pipe e !! fl_pipe x with
    | None => Fault "pipewrite: no pipe at this address"
    | Some p =>
        '(r, p') ← pipewrite pid killed addr n i p;
        Ok (r, e <| n_pipe ::= <[fl_pipe x := p']> |>)
    end
  else if decide (fl_type x = FD_INODE) then
    '(i, e1) ← filewrite_loop (Z.to_nat n) f addr n 0 e;
    Ok (PRet (if decide (i = n) then n else -1), e1)
  else Panic "filewrite".

(** What [pipealloc] stores in its two files. *)
Definition pipe_end (p : Z) (w : bool) (x : file) : file :=
  x <| fl_type := FD_PIPE |> <| fl_readable := negb w |> <| fl_writable := w |> <| fl_pipe := p |>.

(** [data] of [struct pipe] follows a lock of 52 bytes. *)
Definition pipe_junk (m : mem) (p : Z) : list Z := slice 52 512 (pgc m p).

Definition pipealloc (e : kenv) : outcome (option (nat * nat) * kenv) :=
  let '(o0, e1) := filealloc e in
  match o0 with
  | None => Ok (None, e1)
  | Some f0 =>
      let '(o1, e2) := filealloc e1 in
      match o1 with
      | None => e3 ← fileclose f0 e2; Ok (None, e3)
      | Some f1 =>
          '(p, m) ← kalloc (n_mem e2);
          let e3 := e2 <| n_mem := m |> in
          if decide (p = 0) then e4 ← fileclose f0 e3; e5 ← fileclose f1 e4; Ok (None, e5)
          else
            let e4 := e3 <| n_pipe ::= <[p := pipe_init (pipe_junk m p)]> |> in
            Ok (Some (f0, f1), updf (pipe_end p true) f1 (updf (pipe_end p false) f0 e4))
      end
  end.
End file.
