(* ===== verification/FileIo.v ===== *)
(** * Reading and writing open files

    The content, offset and transactions of [fileread] and [filewrite] on
    inodes. *)

From stdpp Require Import gmap.
From S2P Require Import Prelude.
From S2P Require Import Bytes.
From S2P Require Import CString.
From S2P Require Import Log.
From S2P Require Import Fs.
From S2P Require Import FsSpec.
From S2P Require Import FileSpec.
From S2P Require Import FileRw.
From S2P Require Import InodeSpec.
From S2P Require Import TruncSpec.
From S2P Require Import FsInv.
From S2P Require Import FsOps.
From S2P Require Import CacheSpec.
From S2P Require Import DirSpec.
From S2P Require Import PathSpec.
From S2P Require Import FsImage.
From S2P Require Import Pipe.
From S2P Require Import Kalloc.
From S2P Require Import File.

Local Open Scope Z_scope.

(** ** A transaction logs a block once *)

Definition logged_once (s : fstate) : Prop := NoDup (f_logged s).

Lemma lw_once b d s : logged_once s → logged_once (lw b d s).
Proof.
  unfold logged_once, lw. cbn. intros H. case_decide as Hb; [done|]. apply NoDup_app. split_and!; [done|set_solver|apply NoDup_singleton].
Qed.

(** Breaks up a computation that returned. *)
Ltac returned H :=
  repeat match type of H with
  | _ ≫= _ = Ok _ => let E := fresh "E" in apply bind_Ok in H as (? & E & H)
  | context [match decide ?P with _ => _ end] => destruct (decide P)
  | context [match ?x with (_, _) => _ end] => destruct x
  | Ok _ = Ok _ => injection H; clear H; intros; subst
  | Panic _ = Ok _ => discriminate
  | Fault _ = Ok _ => discriminate
  end.

Lemma bzero_once b s s' : bzero b s = Ok s' → logged_once s → logged_once s'.
Proof. unfold bzero. intros H Hs. returned H. by apply lw_once. Qed.

Lemma balloc_loop_once n b s r s' : balloc_loop n b s = Ok (r, s') → logged_once s → logged_once s'.
Proof.
  revert b. induction n as [|n IH]; intros b H Hs; cbn [balloc_loop] in H; [done|].
  returned H. destruct x0 as [bi|]; [|by eapply IH]. returned H. eapply bzero_once; [done|by apply lw_once].
Qed.
Lemma balloc_once s r s' : balloc s = Ok (r, s') → logged_once s → logged_once s'.
Proof. apply balloc_loop_once. Qed.

Lemma iupdate_once ip s s' : iupdate ip s = Ok s' → logged_once s → logged_once s'.
Proof. unfold iupdate. intros H Hs. returned H. by apply lw_once. Qed.

Lemma bmap_once ip bn s r s' : bmap ip bn s = Ok (r, s') → logged_once s → logged_once s'.
Proof.
  unfold bmap. intros H Hs. returned H; try done.
  all: repeat match goal with H : _ = Ok _ |- _ => progress returned H end.
  all: repeat match goal with H : balloc _ = Ok _ |- _ => apply balloc_once in H; [|done] end.
  all: try (apply lw_once); done.
Qed.

Lemma writei_loop_once ip src n fuel : ∀ off tot s r s',
  writei_loop fuel ip src off n tot s = Ok (r, s') → logged_once s → logged_once s'.
Proof.
  induction fuel as [|fuel IH]; intros off tot s r s' H Hs; cbn [writei_loop] in H; returned H; try done.
  eapply IH; [exact H|]. apply lw_once. by eapply bmap_once.
Qed.

Lemma writei_once devs ip i src off n s r s' :
  f_icache s !! ip = Some i → i_type i ≠ T_DEV → writei devs ip src off n s = Ok (r, s') → logged_once s → logged_once s'.
Proof.
  intros Hi Ht H Hs. unfold writei in H. rewrite (proj2 (geti_Ok _ _ _) Hi), bind_ret, decide_False in H by done.
  returned H; try done. all: repeat match goal with H : _ = Ok _ |- _ => progress returned H end.
  all: repeat match goal with H : writei_loop _ _ _ _ _ _ _ = Ok _ |- _ => apply writei_loop_once in H; [|done] end; try done.
  by eapply iupdate_once.
Qed.

Lemma once_bound s (l : list Z) : logged_once s → (∀ x, x ∈ f_logged s → x ∈ l) → (length (f_logged s) ≤ length l)%nat.
Proof. intros Hn Hl. apply submseteq_length, NoDup_submseteq; [done|]. intros x. apply Hl. Qed.

Lemma alter_insert_lookup {A} (g : A → A) (l : list A) f x : l !! f = Some x → alter g f l = <[f := g x]> l.
Proof.
  intros Hx. apply list_eq. intros j. destruct (decide (j = f)) as [->|Hj].
  - rewrite list_lookup_alter_eq, Hx, list_lookup_insert_eq; [done|]. by eapply lookup_lt_Some.
  - by rewrite list_lookup_alter_ne, list_lookup_insert_ne.
Qed.

Lemma nfree_begin e : nfree (n_fs (op_begin e)) = nfree (n_fs e).
Proof. destruct e as [? ? ? [? ? ? ?] ?]. reflexivity. Qed.

Section io.
Context (sb : superblock) (ds : Z) (devs : list devsw) (kend : Z).
Notation inode_no := (inode_no sb).
Notation file := (FsInv.file sb).
Notation fs_inv := (fs_inv sb ds).
Implicit Types (s : fstate) (e : kenv) (f : nat).

(** A write of at most [MAXWRITE] bytes logs at most seven blocks: the bitmap,
    the inode, the indirect block, and four data blocks. *)
Lemma write_log_bound s s' inum off n :
  f_logged s = [] → (Z.of_nat n ≤ MAXWRITE) → logged_once s' →
  (∀ x, x ∈ f_logged s' → write_logged sb s s' inum off n x) → (length (f_logged s') ≤ 7)%nat.
Proof.
  intros H0 Hn Ho Hl. set (a := slot s' (addrs_of sb s' inum)). set (q := (off / BSIZE)%nat).
  apply (once_bound s' [sb_bmapstart sb; IBLOCK inum sb; a MAXFILE; a q; a (q + 1)%nat; a (q + 2)%nat; a (q + 3)%nat] Ho).
  intros x Hx. destruct (Hl x Hx) as [Hx'|[->|[->|(m & [->|(o & Ho' & ->)] & ->)]]].
  - rewrite H0 in Hx'. by apply elem_of_nil in Hx'.
  - left.
  - right. left.
  - do 2 right. left.
  - assert (MAXWRITE = 1536) as Hw by reflexivity. fold a.
    assert (o / BSIZE = q ∨ o / BSIZE = q + 1 ∨ o / BSIZE = q + 2 ∨ o / BSIZE = q + 3)%nat as Hq.
    { unfold q, BSIZE in *. pose proof (Nat.div_mod_eq o 512). pose proof (Nat.div_mod_eq off 512).
      pose proof (Nat.mod_upper_bound o 512 ltac:(done)). pose proof (Nat.mod_upper_bound off 512 ltac:(done)). lia. }
    destruct Hq as [->|[->|[->| ->]]]; apply list_elem_of_In; cbn; auto 10.
Qed.

(** The file behind an open inode, as the process sees it. *)
Record open_inode e f (x : File.file) (i : inode) (a : afile) : Prop := {
  oi_file : n_ft e !! f = Some x;
  oi_type : fl_type x = FD_INODE;
  oi_inv : fs_inv (n_fs e);
  oi_entry : f_icache (n_fs e) !! fl_ip x = Some i;
  oi_ref : 0 < i_ref i;
  oi_unlocked : i_locked i = false;
  oi_afile : file (n_fs e) (i_inum i) = Some a;
  oi_nodev : af_type a ≠ T_DEV;
  oi_off : 0 ≤ fl_off x ≤ Z.of_nat (length (af_data a))
}.

Lemma afile_type s inum a : file s inum = Some a → di_type (dino sb s inum) = af_type a ∧ af_type a ≠ 0.
Proof. unfold FsInv.file. cbn zeta. case_decide; [done|]. by intros [= <-]. Qed.

Lemma afile_size s inum a : fs_inv s → inode_no inum → file s inum = Some a → (length (af_data a) ≤ MAXBYTES)%nat.
Proof.
  intros [Hd _] Hn Ha. pose proof (afile_type s inum a Ha) as [Hty Hnz]. unfold FsInv.file in Ha. cbn zeta in Ha. case_decide; [done|].
  injection Ha as <-. cbn [af_data]. rewrite range_length. exact (proj1 (di_sizes _ _ _ Hd inum Hn ltac:(assumption))).
Qed.

Lemma begin_inv e : fs_inv (n_fs e) → fs_inv (n_fs (op_begin e)).
Proof.
  intros [[[B1 B2 B3 B4] Hw D3 D4 D5] [C1 C2 C3 C4 C5]]. split.
  - split; [split; assumption| |assumption..]. intros inum Hin. destruct (Hw inum Hin) as [W1 W2 W3]. split; assumption.
  - split; assumption.
Qed.

(** Locking the inode of an open file. *)
Lemma open_lock e f x i a :
  open_inode e f x i a →
  ∃ s1 i1, ilock (fl_ip x) (n_fs (op_begin e)) = Ok s1 ∧ fs_inv s1 ∧ cached s1 (fl_ip x) i1 ∧ i_locked i1 = true ∧
    i_inum i1 = i_inum i ∧ i_ref i1 = i_ref i ∧ i_type i1 ≠ T_DEV ∧ f_icache s1 = <[fl_ip x := i1]> (f_icache (n_fs e)) ∧
    f_logged s1 = [] ∧ nfree s1 = nfree (n_fs e) ∧ (∀ j, file s1 j = file (n_fs e) j).
Proof.
  intros [Hx Ht Hinv Hi Hr Hl Ha Hnd Ho]. set (s0 := n_fs (op_begin e)).
  assert (fs_inv s0) as Hinv0 by (by apply begin_inv).
  destruct (afile_type _ _ _ Ha) as [Hty Hnz].
  destruct (ilock_spec sb ds s0 (fl_ip x) i Hinv0 Hi Hr Hl) as (s1 & i1 & Hlk & Hinv1 & Hsd & Hca & Hl1 & Hin1 & Hr1 & Ht1 & Hic).
  { change (dino sb s0 (i_inum i)) with (dino sb (n_fs e) (i_inum i)). by rewrite Hty. }
  exists s1, i1. split_and!; try assumption.
  - rewrite Ht1. change (dino sb s0 (i_inum i)) with (dino sb (n_fs e) (i_inum i)). by rewrite Hty.
  - by rewrite (proj2 (proj2 Hsd)).
  - rewrite (same_disk_nfree _ _ Hsd). apply nfree_begin.
  - intros j. by rewrite (proj1 (same_disk_file sb s0 s1 j Hsd)).
Qed.

(** [bytes] were written at the offset of the file, in transactions of at most
    seven blocks each. *)
Record wrote_file e e' f (x : File.file) (i : inode) (a : afile) (bytes : list Z) : Prop := {
  wt_ft : n_ft e' = <[f := x <| fl_off := fl_off x + Z.of_nat (length bytes) |>]> (n_ft e);
  wt_rest : n_mem e' = n_mem e ∧ n_pipe e' = n_pipe e;
  wt_inv : fs_inv (n_fs e');
  wt_entry : ∃ i', f_icache (n_fs e') = <[fl_ip x := i']> (f_icache (n_fs e)) ∧
    i_inum i' = i_inum i ∧ i_ref i' = i_ref i ∧ i_locked i' = false;
  wt_self : file (n_fs e') (i_inum i) = Some (set_data (overwrite (Z.to_nat (fl_off x)) bytes (af_data a)) a);
  wt_other : ∀ j, inode_no j → j ≠ i_inum i → file (n_fs e') j = file (n_fs e) j;
  wt_ops : ∃ ops, n_ops e' = n_ops e ++ ops ∧ Forall (λ l, length l ≤ 7)%nat ops
}.

Lemma overwrite_nil off (c : list Z) : overwrite off [] c = c.
Proof. unfold overwrite. cbn. rewrite Nat.add_0_r. apply take_drop. Qed.
Lemma overwrite_app off (b1 b2 c : list Z) : (off ≤ length c)%nat →
  overwrite (off + length b1) b2 (overwrite off b1 c) = overwrite off (b1 ++ b2) c.
Proof.
  intros Ho. apply list_eq. intros j. pose proof (overwrite_length off b1 c Ho) as H1. pose proof (overwrite_length off (b1 ++ b2) c Ho) as H2.
  rewrite length_app in H2. pose proof (overwrite_length (off + length b1) b2 (overwrite off b1 c) ltac:(lia)) as H3. rewrite H1 in H3.
  destruct (decide (j < Nat.max (length c) (off + (length b1 + length b2)))%nat) as [Hj|Hj]; [|rewrite !lookup_ge_None_2 by lia; done].
  rewrite (overwrite_lookup (off + length b1)), (overwrite_lookup off (b1 ++ b2)) by (rewrite ?length_app; lia). rewrite length_app.
  repeat case_decide; try lia.
  - rewrite lookup_app_r by lia. f_equal. lia.
  - rewrite overwrite_lookup by lia. rewrite decide_True by lia. by rewrite lookup_app_l by lia.
  - rewrite overwrite_lookup by lia. by rewrite decide_False by lia.
Qed.

Lemma wrote_file_nil e f x i a : open_inode e f x i a → wrote_file e e f x i a [].
Proof.
  intros [Hx Ht Hinv Hi Hr Hl Ha Hnd Ho]. split; try done.
  - rewrite list_insert_id; [done|]. rewrite Hx. f_equal. destruct x. cbn. by rewrite Z.add_0_r.
  - exists i. rewrite list_insert_id by done. done.
  - rewrite overwrite_nil, Ha. by destruct a.
  - exists []. rewrite app_nil_r. done.
Qed.

Lemma wrote_open e e' f x i a bytes :
  open_inode e f x i a → wrote_file e e' f x i a bytes →
  ∃ i', i_inum i' = i_inum i ∧ i_ref i' = i_ref i ∧ f_icache (n_fs e') = <[fl_ip x := i']> (f_icache (n_fs e)) ∧
    open_inode e' f (x <| fl_off := fl_off x + Z.of_nat (length bytes) |>) i'
      (set_data (overwrite (Z.to_nat (fl_off x)) bytes (af_data a)) a).
Proof.
  intros [Hx Ht Hinv Hi Hr Hl Ha Hnd Ho] [Wf _ Wi (i' & Wc & Wn & Wr & Wl) Ws _ _]. exists i'. split_and!; try done.
  split; try done.
  - rewrite Wf. apply list_lookup_insert_eq. by eapply lookup_lt_Some.
  - cbn. rewrite Wc. apply list_lookup_insert_eq. by eapply lookup_lt_Some.
  - lia.
  - by rewrite Wn.
  - cbn. rewrite overwrite_length by lia. lia.
Qed.

Lemma wrote_file_trans e1 e2 e3 f x i a b1 b2 i' :
  open_inode e1 f x i a → wrote_file e1 e2 f x i a b1 → i_inum i' = i_inum i → i_ref i' = i_ref i →
  wrote_file e2 e3 f (x <| fl_off := fl_off x + Z.of_nat (length b1) |>) i'
    (set_data (overwrite (Z.to_nat (fl_off x)) b1 (af_data a)) a) b2 →
  wrote_file e1 e3 f x i a (b1 ++ b2).
Proof.
  intros [Hx Ht Hinv Hi Hr Hl Ha Hnd Ho] [Wf [Wm Wp] Wi (i1 & Wc & Wn & Wr & Wl) Ws Wo (o1 & Wops & Wb)] Hin Hrf
    [Vf [Vm Vp] Vi (i2 & Vc & Vn & Vr & Vl) Vs Vo (o2 & Vops & Vb)]. split.
  - rewrite Vf, Wf, list_insert_insert_eq. f_equal. destruct x. cbn. by rewrite length_app, Nat2Z.inj_add, Z.add_assoc.
  - split; congruence.
  - done.
  - exists i2. split_and!; [|congruence|congruence|done]. rewrite Vc. cbn. by rewrite Wc, list_insert_insert_eq.
  - rewrite Hin in Vs. rewrite Vs. unfold set_data. cbn. do 2 f_equal. rewrite <- overwrite_app by lia. f_equal. lia.
  - intros j Hj Hne. rewrite Vo by congruence. by apply Wo.
  - exists (o1 ++ o2). split; [by rewrite Vops, Wops, app_assoc|by apply Forall_app].
Qed.

Lemma blocks_per_chunk n : 0 ≤ n ≤ MAXWRITE → (blocks_touched n + 1 ≤ 6)%nat.
Proof. intros Hn. unfold blocks_touched, BSIZE, MAXWRITE, MAXOPBLOCKS in *. change ((10 - 1 - 1 - 2) / 2 * 512) with 1536 in Hn.
  pose proof (Z.div_le_mono n 1536 512 ltac:(lia) ltac:(lia)) as H. change (1536 / 512) with 3 in H. lia. Qed.

(** A turn of the loop that fits into the file. *)
Lemma chunk_ok e f x i a addr i0 n1 :
  open_inode e f x i a → Forall byte_range addr → (0 < n1)%nat → Z.of_nat n1 ≤ MAXWRITE → (i0 + n1 ≤ length addr)%nat →
  (Z.to_nat (fl_off x) + n1 ≤ MAXBYTES)%nat → (6 ≤ nfree (n_fs e))%nat →
  ∃ e', filewrite_chunk devs f addr (Z.of_nat i0) (Z.of_nat n1) e = Ok (Z.of_nat n1, e') ∧
    wrote_file e e' f x i a (slice i0 n1 addr) ∧ (nfree (n_fs e) ≤ nfree (n_fs e') + 6)%nat.
Proof.
  intros Hop Hby Hn0 Hn Hlen Hmax Hfree. pose proof Hop as [Hx Ht Hinv Hi Hr Hl Ha Hnd Ho]. pose proof (blocks_per_chunk (Z.of_nat n1) ltac:(lia)) as Hbc.
  destruct (open_lock e f x i a Hop) as (s1 & i1 & Hlk & Hinv1 & Hca & Hl1 & Hin1 & Hr1 & Ht1 & Hic1 & Hlg1 & Hnf1 & Hfile1).
  destruct (writei_spec sb ds devs s1 (fl_ip x) i1 (drop i0 addr) (Z.to_nat (fl_off x)) n1 a Hinv1 Hca Ht1)
    as (s2 & Hw & Hinv2 & Hf2 & Hoth2 & (i2 & Hca2 & Hin2 & Hl2 & Hr2 & Hic2) & Hlog & Hnf2).
  { by rewrite Hin1, Hfile1. } { by apply Forall_drop. } { rewrite length_drop. lia. } { lia. } { done. } { lia. }
  rewrite Z2Nat.id in Hw by lia.
  destruct (iunlock_spec sb ds s2 (fl_ip x) i2 Hinv2 (ca_entry _ _ _ Hca2) (ca_ref _ _ _ Hca2)) as (s3 & Hu & Hinv3 & Hsd3 & Hic3); [congruence|].
  assert (logged_once s2) as Honce.
  { eapply (writei_once devs (fl_ip x) i1); [apply Hca|done|exact Hw|]. unfold logged_once. rewrite Hlg1. apply NoDup_nil_2. }
  unfold filewrite_chunk. unfold getf. rewrite (aget_nat _ _ _ Hx), bind_ret. cbv zeta. rewrite Hlk, bind_ret, Nat2Z.id, Hw, bind_ret, Hu, bind_ret.
  rewrite decide_True by lia. eexists. split; [done|].
  assert (length (slice i0 n1 addr) = n1) as Hsl by (by apply slice_length). pose proof MAXBYTES_Z as Hmz. split; [split|].
  - rewrite Hsl. change (alter (λ x, x <| fl_off := u32 (fl_off x + Z.of_nat n1) |>) f (n_ft e) = <[f := x <| fl_off := fl_off x + Z.of_nat n1 |>]> (n_ft e)).
    rewrite (alter_insert_lookup _ _ _ x) by done. by rewrite u32_small by lia.
  - done.
  - exact Hinv3.
  - exists (i2 <| i_locked := false |>). change (f_icache s3 = <[fl_ip x := i2 <| i_locked := false |>]> (f_icache (n_fs e)) ∧ i_inum i2 = i_inum i ∧ i_ref i2 = i_ref i ∧ false = false).
    split_and!; [|congruence|congruence|done]. by rewrite Hic3, Hic2, Hic1, !list_insert_insert_eq.
  - change (file s3 (i_inum i) = Some (set_data (overwrite (Z.to_nat (fl_off x)) (slice i0 n1 addr) (af_data a)) a)).
    rewrite (proj1 (same_disk_file sb s2 s3 _ Hsd3)), <- Hin1. exact Hf2.
  - intros j Hj Hne. change (file s3 j = file (n_fs e) j). rewrite (proj1 (same_disk_file sb s2 s3 _ Hsd3)), Hoth2 by congruence. apply Hfile1.
  - exists [f_logged s3]. split; [done|]. constructor; [|constructor]. rewrite (proj2 (proj2 Hsd3)).
    eapply (write_log_bound s1 s2); [exact Hlg1|exact Hn|exact Honce|exact Hlog].
  - change (nfree (n_fs e) ≤ nfree s3 + 6)%nat. rewrite (same_disk_nfree _ _ Hsd3), <- Hnf1. lia.
Qed.

(** A turn that would make the file too large. *)
Lemma chunk_too_big e f x i a addr i0 n1 :
  open_inode e f x i a → Z.of_nat n1 ≤ MAXWRITE → (MAXBYTES < Z.to_nat (fl_off x) + n1)%nat →
  ∃ e', filewrite_chunk devs f addr (Z.of_nat i0) (Z.of_nat n1) e = Ok (-1, e') ∧ wrote_file e e' f x i a [].
Proof.
  intros Hop Hn Hmax. pose proof Hop as [Hx Ht Hinv Hi Hr Hl Ha Hnd Ho]. pose proof MAXBYTES_Z as Hmz. assert (MAXWRITE = 1536) as Hmw by reflexivity.
  destruct (open_lock e f x i a Hop) as (s1 & i1 & Hlk & Hinv1 & Hca & Hl1 & Hin1 & Hr1 & Ht1 & Hic1 & Hlg1 & Hnf1 & Hfile1).
  pose proof (cached_file sb ds s1 (fl_ip x) i1 Hinv1 Hca) as Hcf. rewrite Hin1, Hfile1, Ha in Hcf.
  destruct (cached_facts sb ds s1 (fl_ip x) i1 Hinv1 Hca) as (Hno & _ & _ & _ & _ & _ & _ & _ & Hs0).
  assert (Z.of_nat (length (af_data a)) = i_size i1) as Hsz by (injection Hcf as ->; cbn [af_data]; rewrite range_length; lia).
  pose proof (afile_size (n_fs e) (i_inum i) a Hinv ltac:(by rewrite <- Hin1) Ha) as Hle.
  destruct (iunlock_spec sb ds s1 (fl_ip x) i1 Hinv1 (ca_entry _ _ _ Hca) (ca_ref _ _ _ Hca) Hl1) as (s3 & Hu & Hinv3 & Hsd3 & Hic3).
  assert (∀ src, writei devs (fl_ip x) src (fl_off x) (Z.of_nat n1) s1 = Ok (-1, s1)) as Hw.
  { intros src. unfold writei. rewrite (proj2 (geti_Ok _ _ _) (ca_entry _ _ _ Hca)), bind_ret. rewrite decide_False by exact Ht1.
    rewrite u32_small by lia. rewrite decide_False by lia. by rewrite decide_True by (unfold MAXBYTES in *; lia). }
  unfold filewrite_chunk. unfold getf. rewrite (aget_nat _ _ _ Hx), bind_ret. cbv zeta. rewrite Hlk, bind_ret, Hw, bind_ret, Hu, bind_ret.
  rewrite decide_False by lia. eexists. split; [done|]. destruct (wrote_file_nil e f x i a Hop) as [Wf _ _ _ Ws _ _]. split.
  - exact Wf.
  - done.
  - exact Hinv3.
  - exists (i1 <| i_locked := false |>). change (f_icache s3 = <[fl_ip x := i1 <| i_locked := false |>]> (f_icache (n_fs e)) ∧ i_inum i1 = i_inum i ∧ i_ref i1 = i_ref i ∧ false = false).
    split_and!; [|done|done|done]. by rewrite Hic3, Hic1, list_insert_insert_eq.
  - change (file s3 (i_inum i) = Some (set_data (overwrite (Z.to_nat (fl_off x)) [] (af_data a)) a)).
    rewrite (proj1 (same_disk_file sb s1 s3 _ Hsd3)), Hfile1. exact Ws.
  - intros j Hj Hne. change (file s3 j = file (n_fs e) j). by rewrite (proj1 (same_disk_file sb s1 s3 _ Hsd3)).
  - exists [f_logged s3]. split; [done|]. constructor; [|constructor]. rewrite (proj2 (proj2 Hsd3)), Hlg1. cbn. lia.
Qed.

(** How many of [n] bytes at offset [off] are written: all, or the whole
    chunks that fit. *)
Definition bytes_written (off n : nat) : nat :=
  if decide (off + n ≤ MAXBYTES)%nat then n else (1536 * ((MAXBYTES - off) / 1536))%nat.

Lemma bytes_written_step off n n1 :
  (off ≤ MAXBYTES)%nat → n1 = Nat.min 1536 n → (0 < n)%nat →
  bytes_written off n = if decide (off + n1 ≤ MAXBYTES)%nat then (n1 + bytes_written (off + n1) (n - n1))%nat else 0%nat.
Proof.
  intros Ho -> Hn. unfold bytes_written. set (M := MAXBYTES) in *. clearbody M.
  destruct (decide (off + n ≤ M)%nat).
  - rewrite !decide_True by lia. lia.
  - case_decide as Hf.
    + rewrite decide_False by lia. rewrite Nat.min_l by lia. replace (M - off)%nat with (M - (off + 1536) + 1 * 1536)%nat by lia.
      rewrite Nat.div_add by lia. lia.
    + rewrite Nat.div_small by lia. lia.
Qed.

Lemma open_off e f x i a : open_inode e f x i a → (Z.to_nat (fl_off x) ≤ MAXBYTES)%nat.
Proof.
  intros [Hx Ht Hinv Hi Hr Hl Ha Hnd Ho]. destruct (ci_used _ _ (proj2 Hinv) _ _ Hi Hr) as [Hno _].
  pose proof (afile_size _ _ _ Hinv Hno Ha). lia.
Qed.

Lemma bytes_written_0 off : (off ≤ MAXBYTES)%nat → bytes_written off 0 = 0%nat.
Proof. intros. unfold bytes_written. rewrite decide_True; lia. Qed.

Lemma filewrite_loop_spec fuel : ∀ e f x i a addr i0 n,
  open_inode e f x i a → Forall byte_range addr → (i0 + n ≤ length addr)%nat → (n ≤ fuel)%nat →
  (n ≠ 0%nat → 6 * (n / 1536 + 1) ≤ nfree (n_fs e))%nat →
  let w := bytes_written (Z.to_nat (fl_off x)) n in
  ∃ e', filewrite_loop devs fuel f addr (Z.of_nat (i0 + n)) (Z.of_nat i0) e = Ok (Z.of_nat (i0 + w), e') ∧
    wrote_file e e' f x i a (slice i0 w addr).
Proof.
  assert (MAXWRITE = 1536) as Hmw by reflexivity. induction fuel as [|fuel IH]; intros e f x i a addr i0 n Hop Hby Hlen Hfu Hfree w.
  all: pose proof (open_off _ _ _ _ _ Hop) as Hoff.
  all: destruct (decide (n = 0)%nat) as [->|Hn]; [|try lia].
  1, 2: pose proof (wrote_file_nil e f x i a Hop) as Hnil; unfold w; rewrite bytes_written_0 by done; rewrite Nat.add_0_r.
  1, 2: exists e; cbn [filewrite_loop]; rewrite decide_False by lia; split; [done|exact Hnil].
  specialize (Hfree Hn). assert (n / 1536 = (n - 1536) / 1536 + if decide (1536 ≤ n)%nat then 1 else 0)%nat as Hdiv.
  { case_decide; [|rewrite !Nat.div_small by lia; lia]. replace n with (n - 1536 + 1 * 1536)%nat at 1 by lia. rewrite Nat.div_add; lia. }
  remember (Nat.min 1536 n) as n1 eqn:Hn1.
  pose proof (bytes_written_step (Z.to_nat (fl_off x)) n n1 Hoff Hn1 ltac:(lia)) as Hst. fold w in Hst.
  cbn [filewrite_loop]. rewrite decide_True by lia.
  replace (if decide (MAXWRITE < Z.of_nat (i0 + n) - Z.of_nat i0) then MAXWRITE else Z.of_nat (i0 + n) - Z.of_nat i0) with (Z.of_nat n1)
    by (clear Hdiv Hst; case_decide; lia).
  destruct (decide (Z.to_nat (fl_off x) + n1 ≤ MAXBYTES)%nat) as [Hfit|Hbig].
  - destruct (chunk_ok e f x i a addr i0 n1) as (e1 & -> & Hwr & Hnf); [done|done|lia|lia|lia|done|lia|].
    rewrite bind_ret, decide_False, decide_False by (lia || congruence).
    destruct (wrote_open _ _ _ _ _ _ _ Hop Hwr) as (i' & Hin & Hrf & _ & Hop'). rewrite slice_length in Hop' by lia.
    destruct (IH e1 f _ i' _ addr (i0 + n1)%nat (n - n1)%nat Hop' Hby) as (e2 & Hl & Hwr2); [lia|lia| |].
    { intros Hne. replace (n - n1)%nat with (n - 1536)%nat by lia. clear Hst. case_decide; lia. }
    change (fl_off (x <| fl_off := fl_off x + Z.of_nat n1 |>)) with (fl_off x + Z.of_nat n1) in Hl, Hwr2. pose proof (oi_off _ _ _ _ _ Hop).
    replace (Z.to_nat (fl_off x + Z.of_nat n1)) with (Z.to_nat (fl_off x) + n1)%nat in Hl, Hwr2 by lia.
    set (w2 := bytes_written _ _) in *. exists e2. split.
    + rewrite <- Nat2Z.inj_add. replace (i0 + n)%nat with (i0 + n1 + (n - n1))%nat by lia. rewrite Hl, Hst. do 3 f_equal. lia.
    + rewrite Hst, slice_split. eapply wrote_file_trans; [done|exact Hwr|exact Hin|exact Hrf|]. rewrite slice_length by lia. exact Hwr2.
  - destruct (chunk_too_big e f x i a addr i0 n1 Hop) as (e1 & -> & Hwr); [lia|lia|].
    rewrite bind_ret, decide_True by lia. rewrite Hst, Nat.add_0_r. exists e1. split; [done|exact Hwr].
Qed.

(** Reading advances the offset by what was read and changes no file. *)
Lemma fileread_spec pid killed e f x i a n :
  open_inode e f x i a → fl_readable x = true → 0 ≤ n < 2 ^ 31 →
  let off := Z.to_nat (fl_off x) in
  let m := Nat.min (Z.to_nat n) (length (af_data a) - off) in
  ∃ e', fileread devs pid killed f n e = Ok (PRet (Z.of_nat m), slice off m (af_data a), e') ∧
    n_ft e' = <[f := x <| fl_off := fl_off x + Z.of_nat m |>]> (n_ft e) ∧ same_disk (n_fs e) (n_fs e').
Proof.
  intros Hop Hrd Hn off m. pose proof Hop as [Hx Ht Hinv Hi Hr Hl Ha Hnd Ho]. pose proof (open_off _ _ _ _ _ Hop) as Hoff. pose proof MAXBYTES_Z as Hmz.
  destruct (afile_type _ _ _ Ha) as [Hty Hnz].
  destruct (ilock_spec sb ds (n_fs e) (fl_ip x) i Hinv Hi Hr Hl) as (s1 & i1 & Hlk & Hinv1 & Hsd & Hca & Hl1 & Hin1 & Hr1 & Ht1 & Hic); [by rewrite Hty|].
  assert (readi devs (fl_ip x) (fl_off x) n s1 = Ok (Z.of_nat m, slice off m (af_data a), s1)) as Hrdi.
  { pose proof (readi_spec sb ds devs s1 (fl_ip x) i1 off (Z.to_nat n) a m Hinv1 Hca) as Hr0.
    assert (Z.of_nat off = fl_off x) as Hoz by (unfold off; lia). rewrite Hoz, Z2Nat.id in Hr0 by lia.
    apply Hr0; [by rewrite Ht1, Hty|by rewrite Hin1, (proj1 (same_disk_file sb _ _ _ Hsd))|unfold off; lia|unfold off; lia|done]. }
  destruct (iunlock_spec sb ds s1 (fl_ip x) i1 Hinv1 (ca_entry _ _ _ Hca) (ca_ref _ _ _ Hca) Hl1) as (s3 & Hu & Hinv3 & Hsd3 & Hic3).
  unfold fileread, getf. rewrite (aget_nat _ _ _ Hx), bind_ret, Hrd, Ht. cbn [negb]. rewrite decide_False, decide_True by done.
  rewrite Hlk, bind_ret, u32_small by lia. rewrite Hrdi, bind_ret, Hu, bind_ret. eexists. split; [done|]. split; [|by eapply same_disk_trans].
  case_decide as Hm.
  - change (alter (λ x, x <| fl_off := u32 (fl_off x + Z.of_nat m) |>) f (n_ft e) = <[f := x <| fl_off := fl_off x + Z.of_nat m |>]> (n_ft e)).
    rewrite (alter_insert_lookup _ _ _ x) by done. destruct (ci_used _ _ (proj2 Hinv) _ _ Hi Hr) as [Hno _].
    pose proof (afile_size _ _ _ Hinv Hno Ha). by rewrite u32_small by (unfold m, off in *; lia).
  - assert (m = 0%nat) as -> by lia. exact (wt_ft _ _ _ _ _ _ _ (wrote_file_nil e f x i a Hop)).
Qed.

(** C35. A write of [n] bytes to an open file, in pieces of [MAXWRITE], lays them
    over the content at the file's offset and advances the offset, and every
    transaction it makes logs at most 7 of the [MAXOPBLOCKS] blocks it
    reserved, so that none can overrun the log.  A write that would make the file
    larger than [MAXFILE] blocks stores the whole pieces that fit and returns -1;
    any other returns [n].  No other file changes. *)
Theorem filewrite_transactions pid killed e f x i a addr n :
  open_inode e f x i a → fl_writable x = true → Forall byte_range addr → (n ≤ length addr)%nat →
  (6 * (n / 1536 + 1) ≤ nfree (n_fs e))%nat →
  let off := Z.to_nat (fl_off x) in
  let w := bytes_written off n in
  ∃ e', filewrite devs pid killed f addr (Z.of_nat n) 0 e =
      Ok (PRet (if decide (off + n ≤ MAXBYTES)%nat then Z.of_nat n else -1), e') ∧
    n_ft e' = <[f := x <| fl_off := fl_off x + Z.of_nat w |>]> (n_ft e) ∧ fs_inv (n_fs e') ∧
    file (n_fs e') (i_inum i) = Some (set_data (overwrite off (take w addr) (af_data a)) a) ∧
    (∀ j, inode_no j → j ≠ i_inum i → file (n_fs e') j = file (n_fs e) j) ∧
    ∃ ops, n_ops e' = n_ops e ++ ops ∧ Forall (λ l, length l ≤ 7)%nat ops ∧ 7 ≤ MAXOPBLOCKS.
Proof.
  intros Hop Hwr Hby Hlen Hfree off w. pose proof Hop as [Hx Ht _ _ _ _ _ _ _]. pose proof (open_off _ _ _ _ _ Hop) as Hoff.
  destruct (filewrite_loop_spec n e f x i a addr 0 n Hop Hby) as (e' & Hl & Hw); [lia|lia|done|]. rewrite !Nat.add_0_l in Hl.
  change (Z.of_nat 0) with 0 in Hl. fold off w in Hl, Hw.
  assert (w ≤ n)%nat as Hwn. { unfold w, bytes_written. case_decide; [lia|]. pose proof (Nat.Div0.mul_div_le (MAXBYTES - off) 1536). fold off in Hoff. lia. }
  exists e'. unfold filewrite, getf. rewrite (aget_nat _ _ _ Hx), bind_ret, Hwr, Ht. cbn [negb]. rewrite decide_False, decide_True by done.
  rewrite Nat2Z.id, Hl, bind_ret. unfold slice in Hw. rewrite drop_0 in Hw. destruct Hw as [Wf _ Wi _ Ws Wo (ops & Wops & Wb)].
  split_and!; try done.
  - f_equal. f_equal. f_equal. unfold w, bytes_written. pose proof (Nat.Div0.mul_div_le (MAXBYTES - off) 1536) as Hd. fold off in Hoff.
    destruct (decide (off + n ≤ MAXBYTES)%nat); [by rewrite decide_True|]. rewrite decide_False; [done|]. lia.
  - rewrite length_take, Nat.min_l in Wf by lia. done.
  - by exists ops.
Qed.
End io.

Definition io_file : File.file := mkfile FD_INODE 1 true true 0 0 4.
Definition io_env : kenv := mkkenv (mkmem ∅ 0) [io_file] ∅ (opened 2) [].

Lemma io_open : open_inode img_sb img_ds io_env 0 io_file (opened_entry 2) (mkafile T_FILE 0 0 1 hello).
Proof.
  destruct image_files as (_ & H2 & _). split; [reflexivity|reflexivity| |reflexivity|reflexivity|reflexivity|exact H2|discriminate|].
  - apply opened_inv. unfold inode_no. cbn. lia.
  - cbn. lia.
Qed.

Lemma filewrite_transactions_witness : ∃ e',
  filewrite [] 1 false 0 [88; 89; 90] 3 0 io_env = Ok (PRet 3, e') ∧
  af_data <$> FsInv.file img_sb (n_fs e') 2 = Some [104; 101; 108; 108; 88; 89; 90].
Proof.
  destruct (filewrite_transactions img_sb img_ds [] 1 false io_env 0 io_file (opened_entry 2) (mkafile T_FILE 0 0 1 hello) [88; 89; 90] 3 io_open eq_refl)
    as (e' & Hw & _ & _ & Hf & _).
  - apply (bool_decide_eq_true_1 _). by vm_compute.
  - cbn. lia.
  - change (nfree (n_fs io_env)) with (nfree image). rewrite image_nfree. apply Nat.leb_le. reflexivity.
  - exists e'. pose proof MAXBYTES_Z. cbv zeta in Hw, Hf. change (Z.to_nat (fl_off io_file)) with 4%nat in Hw, Hf. unfold bytes_written in Hf.
    rewrite decide_True in Hw by lia. rewrite decide_True in Hf by lia. split; [exact Hw|]. change (i_inum (opened_entry 2)) with 2 in Hf. by rewrite Hf.
Defined.
