(* ===== verification/Sysfile.v ===== *)
(** * File system calls: [sysfile.c]

    Each call fetches its arguments from user memory ([Syscall]) and works on
    the open files and the file system of [File].  [pfiles] is what a process
    has of them: its descriptors and its current directory.  A path is the
    memory from the address of the argument on. *)

From stdpp Require Import gmap.
From S2P Require Import Prelude.
From S2P Require Import Bytes.
From S2P Require Import CString.
From S2P Require Import Log.
From S2P Require Import Fs.
From S2P Require Import FsDir.
From S2P Require Import Pipe.
From S2P Require Import Kalloc.
From S2P Require Import Syscall.
From S2P Require Import File.

Local Open Scope Z_scope.

Definition NOFILE : nat := 16.
Definition O_RDONLY : Z := 0.
Definition O_WRONLY : Z := 1.
Definition O_RDWR : Z := 2.
Definition O_CREATE : Z := 512.

Record pfiles := mkpfiles {
  pf_ofile : list (option nat);   (* ofile[NOFILE] *)
  pf_cwd : option nat             (* cwd *)
}.
#[export] Instance pfiles_fields : Fields pfiles := λ c, mkpfiles (pf_ofile c) (pf_cwd c).

(** ** Descriptors *)

Definition argfd (u : uproc) (n : Z) (c : pfiles) : outcome (option (Z * nat)) :=
  r ← argint u n;
  match r with
  | None => Ok None
  | Some fd =>
      if decide (fd < 0 ∨ Z.of_nat NOFILE ≤ fd) then Ok None
      else o ← aget (pf_ofile c) fd; Ok (match o with Some f => Some (fd, f) | None => None end)
  end.

(** The loop of [fdalloc] from descriptor [fd] on. *)
Fixpoint fdalloc_loop (n : nat) (fd : Z) (f : nat) (c : pfiles) : outcome (Z * pfiles) :=
  match n with
  | O => Ok (-1, c)
  | S n' =>
      o ← aget (pf_ofile c) fd;
      match o with
      | None => l ← aset (pf_ofile c) fd (Some f); Ok (fd, c <| pf_ofile := l |>)
      | Some _ => fdalloc_loop n' (fd + 1) f c
      end
  end.
Definition fdalloc (f : nat) (c : pfiles) : outcome (Z * pfiles) := fdalloc_loop NOFILE 0 f c.

(** [myproc()->ofile[fd] = 0] *)
Definition clear_fd (fd : Z) (c : pfiles) : outcome pfiles :=
  l ← aset (pf_ofile c) fd None; Ok (c <| pf_ofile := l |>).

Definition sys_dup (u : uproc) (c : pfiles) (e : kenv) : outcome (Z * pfiles * kenv) :=
  r ← argfd u 0 c;
  match r with
  | None => Ok (-1, c, e)
  | Some (_, f) =>
      '(fd, c1) ← fdalloc f c;
      if decide (fd < 0) then Ok (-1, c1, e) else e1 ← filedup f e; Ok (fd, c1, e1)
  end.

Section calls.
Context (kend : Z) (devs : list devsw).

Definition sys_close (u : uproc) (c : pfiles) (e : kenv) : outcome (Z * pfiles * kenv) :=
  r ← argfd u 0 c;
  match r with
  | None => Ok (-1, c, e)
  | Some (fd, f) => c1 ← clear_fd fd c; e1 ← fileclose kend f e; Ok (0, c1, e1)
  end.

(** Stores the two descriptors at [fd] in user memory. *)
Definition sys_pipe (u : uproc) (c : pfiles) (e : kenv) : outcome (Z * uproc * pfiles * kenv) :=
  r ← argptr u 0 8;
  match r with
  | None => Ok (-1, u, c, e)
  | Some fd =>
      '(o, e1) ← pipealloc kend e;
      match o with
      | None => Ok (-1, u, c, e1)
      | Some (rf, wf) =>
          '(fd0, c1) ← fdalloc rf c;
          if decide (fd0 < 0) then
            e2 ← fileclose kend rf e1; e3 ← fileclose kend wf e2; Ok (-1, u, c1, e3)
          else
            '(fd1, c2) ← fdalloc wf c1;
            if decide (fd1 < 0) then
              c3 ← clear_fd fd0 c2;
              e2 ← fileclose kend rf e1; e3 ← fileclose kend wf e2; Ok (-1, u, c3, e3)
            else
              m1 ← put_le 4 (u_mem u) fd fd0;
              m2 ← put_le 4 m1 (fd + 4) fd1;
              Ok (0, mkuproc m2 (u_sz u) (u_esp u), c2, e1)
      end
  end.

(** [sys_read] and [sys_write], up to their return or sleep. *)
Definition sys_read (pid : Z) (killed : bool) (u : uproc) (c : pfiles) (e : kenv) : outcome (presult * uproc * kenv) :=
  r ← argfd u 0 c;
  match r with
  | None => Ok (PRet (-1), u, e)
  | Some (_, f) =>
      o ← argint u 2;
      match o with
      | None => Ok (PRet (-1), u, e)
      | Some n =>
          o ← argptr u 1 n;
          match o with
          | None => Ok (PRet (-1), u, e)
          | Some p =>
              '(r, bytes, e1) ← fileread devs pid killed f n e;
              m ← bstore (u_mem u) p bytes;
              Ok (r, mkuproc m (u_sz u) (u_esp u), e1)
          end
      end
  end.
Definition sys_write (pid : Z) (killed : bool) (i : Z) (u : uproc) (c : pfiles) (e : kenv) : outcome (presult * kenv) :=
  r ← argfd u 0 c;
  match r with
  | None => Ok (PRet (-1), e)
  | Some (_, f) =>
      o ← argint u 2;
      match o with
      | None => Ok (PRet (-1), e)
      | Some n =>
          o ← argptr u 1 n;
          match o with
          | None => Ok (PRet (-1), e)
          | Some p => filewrite devs pid killed f (drop (Z.to_nat p) (u_mem u)) n i e
          end
      end
  end.

(** [struct stat] in memory: 20 bytes. *)
Definition put_stat (m : list Z) (p : Z) (st : stat) : outcome (list Z) :=
  m ← put_le 2 m p (u16 (st_type st));
  m ← put_le 4 m (p + 4) (u32 (st_dev st));
  m ← put_le 4 m (p + 8) (u32 (st_ino st));
  m ← put_le 2 m (p + 12) (u16 (st_nlink st));
  put_le 4 m (p + 16) (u32 (st_size st)).
Definition sys_fstat (u : uproc) (c : pfiles) (e : kenv) : outcome (Z * uproc * kenv) :=
  r ← argfd u 0 c;
  match r with
  | None => Ok (-1, u, e)
  | Some (_, f) =>
      o ← argptr u 1 20;
      match o with
      | None => Ok (-1, u, e)
      | Some p =>
          '(o, e1) ← filestat f e;
          match o with
          | None => Ok (-1, u, e1)
          | Some st => m ← put_stat (u_mem u) p st; Ok (0, mkuproc m (u_sz u) (u_esp u), e1)
          end
      end
  end.

(** ** Links *)

(** [ip->nlink++] and [ip->nlink--], a [short]. *)
Definition add_link (d : Z) (i : inode) : inode := i <| i_nlink := i16 (i_nlink i + d) |>.

(** A buffer [char name[DIRSIZ]] on the stack. *)
Definition name_buf : list Z := replicate DIRSIZ 0.

(** From the label [bad] of [sys_link]. *)
Definition link_bad (ip : nat) (s : fstate) : outcome (Z * fstate) :=
  s1 ← ilock ip s;
  s2 ← iupdate ip (updi (add_link (-1)) ip s1);
  s3 ← iunlockput ip s2;
  Ok (-1, s3).

(** [sys_link] from [nameiparent] on: the new name. *)
Definition link_new (cwd ip : nat) (new : list Z) (s : fstate) : outcome (Z * fstate) :=
  '(od, name, s1) ← nameiparent devs cwd new name_buf s;
  match od with
  | None => link_bad ip s1
  | Some dp =>
      s2 ← ilock dp s1;
      di ← geti s2 dp;
      i ← geti s2 ip;
      if decide (i_dev di ≠ i_dev i) then s3 ← iunlockput dp s2; link_bad ip s3
      else
        '(r, s3) ← dirlink devs dp name (i_inum i) s2;
        s4 ← iunlockput dp s3;
        if decide (r < 0) then link_bad ip s4
        else s5 ← iput ip s4; Ok (0, s5)
  end.

(** [sys_link] between [begin_op] and [end_op]. *)
Definition link (cwd : nat) (old new : list Z) (s : fstate) : outcome (Z * fstate) :=
  '(o, s1) ← namei devs cwd old s;
  match o with
  | None => Ok (-1, s1)
  | Some ip =>
      s2 ← ilock ip s1;
      i ← geti s2 ip;
      if decide (i_type i = T_DIR) then s3 ← iunlockput ip s2; Ok (-1, s3)
      else
        s3 ← iupdate ip (updi (add_link 1) ip s2);
        s4 ← iunlock ip s3;
        link_new cwd ip new s4
  end.

(** The loop of [isdirempty] from offset [off] on. *)
Fixpoint isdirempty_loop (fuel : nat) (dp : nat) (off : Z) (s : fstate) : outcome (bool * fstate) :=
  di ← geti s dp;
  if decide (off < i_size di) then
    match fuel with
    | O => Fault "fuel"
    | S fuel' =>
        '(de, s1) ← read_dirent devs "isdirempty: readi" dp off s;
        inum ← get_le 2 de 0;
        if decide (inum ≠ 0) then Ok (false, s1) else isdirempty_loop fuel' dp (off + Z.of_nat DIRENT) s1
    end
  else Ok (true, s).
Definition isdirempty (dp : nat) (s : fstate) : outcome (bool * fstate) :=
  isdirempty_loop MAXDIRENT dp (2 * Z.of_nat DIRENT) s.

(** [namecmp(name, ".") == 0 || namecmp(name, "..") == 0] *)
Definition is_dots (name : list Z) : outcome bool :=
  c1 ← namecmp name [46; 0];
  if decide (c1 = 0) then Ok true else c2 ← namecmp name [46; 46; 0]; Ok (bool_decide (c2 = 0)).

(** From the label [bad] of [sys_unlink]. *)
Definition unlink_bad (dp : nat) (s : fstate) : outcome (Z * fstate) := s1 ← iunlockput dp s; Ok (-1, s1).

(** [sys_unlink] once it is certain that the entry at [off] goes. *)
Definition unlink_entry (dp ip : nat) (off type : Z) (s : fstate) : outcome (Z * fstate) :=
  '(w, s1) ← writei devs dp (replicate DIRENT 0) off (Z.of_nat DIRENT) s;
  if decide (w ≠ Z.of_nat DIRENT) then Panic "unlink: writei"
  else
    s2 ← (if decide (type = T_DIR) then iupdate dp (updi (add_link (-1)) dp s1) else Ok s1);
    s3 ← iunlockput dp s2;
    s4 ← iupdate ip (updi (add_link (-1)) ip s3);
    s5 ← iunlockput ip s4;
    Ok (0, s5).

(** [sys_unlink] once the name is found. *)
Definition unlink_found (dp ip : nat) (off : Z) (s : fstate) : outcome (Z * fstate) :=
  s1 ← ilock ip s;
  i ← geti s1 ip;
  if decide (i_nlink i < 1) then Panic "unlink: nlink < 1"
  else
    '(empty, s2) ← (if decide (i_type i = T_DIR) then isdirempty ip s1 else Ok (true, s1));
    if negb empty then s3 ← iunlockput ip s2; unlink_bad dp s3
    else unlink_entry dp ip off (i_type i) s2.

(** [sys_unlink] between [begin_op] and [end_op]. *)
Definition unlink (cwd : nat) (path : list Z) (s : fstate) : outcome (Z * fstate) :=
  '(od, name, s1) ← nameiparent devs cwd path name_buf s;
  match od with
  | None => Ok (-1, s1)
  | Some dp =>
      s2 ← ilock dp s1;
      dots ← is_dots name;
      if dots : bool then unlink_bad dp s2
      else
        '(r, s3) ← dirlookup devs dp name s2;
        match r with
        | None => unlink_bad dp s3
        | Some (ip, off) => unlink_found dp ip off s3
        end
  end.

(** The entries [.] and [..] of a new directory. *)
Definition link_dots (dp ip : nat) (s : fstate) : outcome fstate :=
  s1 ← iupdate dp (updi (add_link 1) dp s);
  i ← geti s1 ip;
  '(r1, s2) ← dirlink devs ip [46; 0] (i_inum i) s1;
  if decide (r1 < 0) then Panic "create dots"
  else
    di ← geti s2 dp;
    '(r2, s3) ← dirlink devs ip [46; 46; 0] (i_inum di) s2;
    if decide (r2 < 0) then Panic "create dots" else Ok s3.

(** [create] when the name is there. *)
Definition create_found (dp ip : nat) (type : Z) (s : fstate) : outcome (option nat * fstate) :=
  s1 ← iunlockput dp s;
  s2 ← ilock ip s1;
  i ← geti s2 ip;
  if decide (type = T_FILE ∧ i_type i = T_FILE) then Ok (Some ip, s2)
  else s3 ← iunlockput ip s2; Ok (None, s3).

(** [create] of a new inode. *)
Definition create_new (dp : nat) (name : list Z) (type major minor : Z) (s : fstate) : outcome (option nat * fstate) :=
  di ← geti s dp;
  '(ip, s1) ← ialloc (i_dev di) type s;
  s2 ← ilock ip s1;
  s3 ← iupdate ip (updi (λ i, i <| i_major := major |> <| i_minor := minor |> <| i_nlink := 1 |>) ip s2);
  s4 ← (if decide (type = T_DIR) then link_dots dp ip s3 else Ok s3);
  i ← geti s4 ip;
  '(r, s5) ← dirlink devs dp name (i_inum i) s4;
  if decide (r < 0) then Panic "create: dirlink"
  else s6 ← iunlockput dp s5; Ok (Some ip, s6).

(** The inode, locked, or a null pointer. *)
Definition create (cwd : nat) (path : list Z) (type major minor : Z) (s : fstate) : outcome (option nat * fstate) :=
  '(od, name, s1) ← nameiparent devs cwd path name_buf s;
  match od with
  | None => Ok (None, s1)
  | Some dp =>
      s2 ← ilock dp s1;
      '(r, s3) ← dirlookup devs dp name s2;
      match r with
      | Some (ip, _) => create_found dp ip type s3
      | None => create_new dp name type major minor s3
      end
  end.

(** ** The calls *)

Definition path_at (u : uproc) (p : Z) : list Z := drop (Z.to_nat p) (u_mem u).

(** A file system operation that looks paths up from the current directory. *)
Definition with_cwd {A} (c : pfiles) (op : nat → fstate → outcome (A * fstate)) (e : kenv) : outcome (A * kenv) :=
  match pf_cwd c with
  | None => Fault "no current directory"
  | Some cwd => '(r, s) ← op cwd (n_fs e); Ok (r, e <| n_fs := s |>)
  end.

Definition sys_link (u : uproc) (c : pfiles) (e : kenv) : outcome (Z * kenv) :=
  o ← argstr u 0;
  match o with
  | None => Ok (-1, e)
  | Some (_, old) =>
      o ← argstr u 1;
      match o with
      | None => Ok (-1, e)
      | Some (_, new) =>
          '(r, e1) ← with_cwd c (λ cwd, link cwd (path_at u old) (path_at u new)) (op_begin e);
          Ok (r, op_end e1)
      end
  end.

Definition sys_unlink (u : uproc) (c : pfiles) (e : kenv) : outcome (Z * kenv) :=
  o ← argstr u 0;
  match o with
  | None => Ok (-1, e)
  | Some (_, path) =>
      '(r, e1) ← with_cwd c (λ cwd, unlink cwd (path_at u path)) (op_begin e);
      Ok (r, op_end e1)
  end.

(** [create] of a directory or device, which is then released. *)
Definition make_node (u : uproc) (p type major minor : Z) (c : pfiles) (e : kenv) : outcome (Z * kenv) :=
  '(o, e1) ← with_cwd c (λ cwd, create cwd (path_at u p) type (i16 major) (i16 minor)) e;
  match o with
  | None => Ok (-1, op_end e1)
  | Some ip => e2 ← on_fs (iunlockput ip) e1; Ok (0, op_end e2)
  end.

Definition sys_mkdir (u : uproc) (c : pfiles) (e : kenv) : outcome (Z * kenv) :=
  let e := op_begin e in
  o ← argstr u 0;
  match o with
  | None => Ok (-1, op_end e)
  | Some (_, path) => make_node u path T_DIR 0 0 c e
  end.

Definition sys_mknod (u : uproc) (c : pfiles) (e : kenv) : outcome (Z * kenv) :=
  let e := op_begin e in
  o ← argstr u 0;
  match o with
  | None => Ok (-1, op_end e)
  | Some (_, path) =>
      o ← argint u 1;
      match o with
      | None => Ok (-1, op_end e)
      | Some major =>
          o ← argint u 2;
          match o with
          | None => Ok (-1, op_end e)
          | Some minor => make_node u path T_DEV major minor c e
          end
      end
  end.

Definition sys_chdir (u : uproc) (c : pfiles) (e : kenv) : outcome (Z * pfiles * kenv) :=
  let e := op_begin e in
  o ← argstr u 0;
  match o with
  | None => Ok (-1, c, op_end e)
  | Some (_, path) =>
      '(o, e1) ← with_cwd c (λ cwd, namei devs cwd (path_at u path)) e;
      match o with
      | None => Ok (-1, c, op_end e1)
      | Some ip =>
          e2 ← on_fs (ilock ip) e1;
          i ← geti (n_fs e2) ip;
          if decide (i_type i ≠ T_DIR) then e3 ← on_fs (iunlockput ip) e2; Ok (-1, c, op_end e3)
          else
            e3 ← on_fs (iunlock ip) e2;
            match pf_cwd c with
            | None => Fault "no current directory"
            | Some cwd => e4 ← on_fs (iput cwd) e3; Ok (0, c <| pf_cwd := Some ip |>, op_end e4)
            end
      end
  end.

(** The first half of [sys_open]: the inode, locked. *)
Definition open_path (u : uproc) (path omode : Z) (c : pfiles) (e : kenv) : outcome (option nat * kenv) :=
  if decide (Z.land omode O_CREATE ≠ 0) then with_cwd c (λ cwd, create cwd (path_at u path) T_FILE 0 0) e
  else
    '(o, e1) ← with_cwd c (λ cwd, namei devs cwd (path_at u path)) e;
    match o with
    | None => Ok (None, e1)
    | Some ip =>
        e2 ← on_fs (ilock ip) e1;
        i ← geti (n_fs e2) ip;
        if decide (i_type i = T_DIR ∧ omode ≠ O_RDONLY) then e3 ← on_fs (iunlockput ip) e2; Ok (None, e3)
        else Ok (Some ip, e2)
    end.

(** [f->type = FD_INODE; ...] *)
Definition set_file (ip : nat) (omode : Z) (x : file) : file :=
  x <| fl_type := FD_INODE |> <| fl_ip := ip |> <| fl_off := 0 |>
    <| fl_readable := bool_decide (Z.land omode O_WRONLY = 0) |>
    <| fl_writable := bool_decide (Z.land omode O_WRONLY ≠ 0 ∨ Z.land omode O_RDWR ≠ 0) |>.

(** The second half: a file and a descriptor for the inode. *)
Definition open_file (ip : nat) (omode : Z) (c : pfiles) (e : kenv) : outcome (Z * pfiles * kenv) :=
  let '(o, e1) := filealloc e in
  match o with
  | None => e2 ← on_fs (iunlockput ip) e1; Ok (-1, c, op_end e2)
  | Some f =>
      '(fd, c1) ← fdalloc f c;
      if decide (fd < 0) then
        e2 ← fileclose kend f e1;
        e3 ← on_fs (iunlockput ip) e2;
        Ok (-1, c1, op_end e3)
      else
        e2 ← on_fs (iunlock ip) e1;
        Ok (fd, c1, updf (set_file ip omode) f (op_end e2))
  end.

Definition sys_open (u : uproc) (c : pfiles) (e : kenv) : outcome (Z * pfiles * kenv) :=
  o ← argstr u 0;
  match o with
  | None => Ok (-1, c, e)
  | Some (_, path) =>
      o ← argint u 1;
      match o with
      | None => Ok (-1, c, e)
      | Some omode =>
          '(o, e1) ← open_path u path omode c (op_begin e);
          match o with
          | None => Ok (-1, c, op_end e1)
          | Some ip => open_file ip omode c e1
          end
      end
  end.
End calls.
