(* ===== verification/FsRules.v ===== *)
(** * The file system through its files

    [st] describes a state by what the system calls see of it: the file of
    each inode, and for each cache entry its references, its inode number and
    whether it is locked.  Each operation has a rule on these. *)

From stdpp Require Import gmap functions.
From S2P Require Import Prelude.
From S2P Require Import Bytes.
From S2P Require Import CString.
From S2P Require Import Log.
From S2P Require Import Fs.
From S2P Require Import FsDir.
From S2P Require Import FsSpec.
From S2P Require Import FileSpec.
From S2P Require Import FileRw.
From S2P Require Import InodeSpec.
From S2P Require Import TruncSpec.
From S2P Require Import FsInv.
From S2P Require Import FsOps.
From S2P Require Import CacheSpec.
From S2P Require Import DirSpec.
From S2P Require Import PathSpec.

Local Open Scope Z_scope.

Section rules.
Context (sb : superblock) (ds : Z) (devs : list devsw).
Notation inode_no := (inode_no sb).
Notation file := (file sb).
Notation fs_inv := (fs_inv sb ds).
Implicit Types (s : fstate) (j : Z) (k ip dp : nat) (F : Z → option afile) (R : nat → Z) (N : nat → Z) (L : nat → bool) (B : nat).

(** One entry: its references, inode number and lock. *)
Record ent F (r n : Z) (l : bool) (i : inode) : Prop := {
  en_ref : i_ref i = r;
  en_locked : i_locked i = l;
  en_inum : 0 < r → i_inum i = n ∧ F n ≠ None;
  en_valid : l = true → i_valid i = true
}.

Record st s F R N L B : Prop := {
  st_inv : fs_inv s;
  st_file : ∀ j, inode_no j → file s j = F j;
  st_ent : ∀ k i, f_icache s !! k = Some i → ent F (R k) (N k) (L k) i;
  st_dom : ∀ k, 0 < R k → (k < NINODE)%nat;
  st_lock : ∀ k, L k = true → 0 < R k;
  st_blocks : (B ≤ nfree s)%nat
}.

Lemma st_ext s F R N L B F' R' N' L' B' :
  st s F R N L B → (∀ j, inode_no j → F' j = F j) → (∀ k, R' k = R k) → (∀ k, 0 < R k → N' k = N k) → (∀ k, L' k = L k) → (B' ≤ B)%nat →
  st s F' R' N' L' B'.
Proof.
  intros [Hinv Hf He Hd Hlk Hb] HF HR HN HL HB. split.
  - done.
  - intros j Hj. by rewrite HF, Hf.
  - intros k i Hi. destruct (He k i Hi) as [H1 H2 H3 H4]. split; [by rewrite HR|by rewrite HL| |].
    + rewrite HR. intros Hr. rewrite HN by done. destruct (H3 Hr) as [Hn Hsome]. split; [done|]. rewrite HF; [done|].
      rewrite <- Hn. by apply (ci_used _ _ (proj2 Hinv) k i); [|lia].
    + by rewrite HL.
  - intros k. rewrite HR. apply Hd.
  - intros k. rewrite HR, HL. apply Hlk.
  - lia.
Qed.

(** The entry of a reference. *)
Lemma st_get s F R N L B k :
  st s F R N L B → 0 < R k → ∃ i, f_icache s !! k = Some i ∧ 0 < i_ref i ∧ i_inum i = N k ∧ i_locked i = L k ∧ i_dev i = ROOTDEV ∧
    inode_no (N k) ∧ file s (N k) = F (N k) ∧ F (N k) ≠ None.
Proof.
  intros Hst Hr. destruct (lookup_lt_is_Some_2 (f_icache s) k) as [i Hi].
  { rewrite (ci_len _ _ (proj2 (st_inv _ _ _ _ _ _ Hst))). by apply (st_dom _ _ _ _ _ _ Hst). }
  destruct (st_ent _ _ _ _ _ _ Hst k i Hi) as [H1 H2 H3 H4]. destruct (H3 Hr) as [Hn Hs]. rewrite <- Hn in *.
  destruct (ci_used _ _ (proj2 (st_inv _ _ _ _ _ _ Hst)) k i Hi) as [Hno Hdev]; [lia|].
  exists i. split_and!; try done; [lia|]. by apply (st_file _ _ _ _ _ _ Hst).
Qed.

(** Two references to one inode are to one entry. *)
Lemma st_same s F R N L B k k' : st s F R N L B → 0 < R k → 0 < R k' → N k = N k' → k = k'.
Proof.
  intros Hst Hk Hk' Hn. destruct (st_get _ _ _ _ _ _ k Hst Hk) as (i & Hi & Hri & Hni & _).
  destruct (st_get _ _ _ _ _ _ k' Hst Hk') as (i' & Hi' & Hri' & Hni' & _).
  apply (ci_uniq _ _ (proj2 (st_inv _ _ _ _ _ _ Hst)) k k' i i'); congruence.
Qed.

(** One entry changes, and possibly files. *)
Lemma st_set s F R N L B s' F' k i' r n l B' :
  st s F R N L B → fs_inv s' → f_icache s' = <[k := i']> (f_icache s) → (k < NINODE)%nat →
  (∀ j, inode_no j → file s' j = F' j) → (∀ k', k' ≠ k → 0 < R k' → F' (N k') ≠ None) → ent F' r n l i' → (l = true → 0 < r) → (B' ≤ nfree s')%nat →
  st s' F' (<[k := r]> R) (<[k := n]> N) (<[k := l]> L) B'.
Proof.
  intros [Hinv Hf He Hd Hlk Hb] Hinv' Hic Hk HF Hother Hent Hl HB. split; [done|done| | | |done].
  - intros k' x Hx. rewrite Hic in Hx. apply insert_lookup_Some in Hx as [[-> ->]|[Hne Hx]].
    + by rewrite !fn_lookup_insert.
    + rewrite !fn_lookup_insert_ne by done. destruct (He k' x Hx) as [H1 H2 H3 H4]. split; [done|done| |done].
      intros Hr. destruct (H3 Hr) as [Hn _]. split; [done|by apply Hother].
  - intros k'. destruct (decide (k' = k)) as [->|Hne]; [done|]. rewrite fn_lookup_insert_ne by done. apply Hd.
  - intros k'. destruct (decide (k' = k)) as [->|Hne]; [by rewrite !fn_lookup_insert|]. rewrite !fn_lookup_insert_ne by done. apply Hlk.
Qed.

(** A locked inode. *)
Lemma st_locked s F R N L B k :
  st s F R N L B → L k = true → ∃ i f, cached s k i ∧ i_inum i = N k ∧ i_locked i = true ∧ i_ref i = R k ∧ i_dev i = ROOTDEV ∧ 0 < R k ∧
    inode_no (N k) ∧ F (N k) = Some f ∧ file s (N k) = Some f ∧ i_type i = af_type f ∧ i_nlink i = af_nlink f.
Proof.
  intros Hst Hl. pose proof (st_lock _ _ _ _ _ _ Hst k Hl) as Hr.
  destruct (st_get _ _ _ _ _ _ k Hst Hr) as (i & Hi & Hri & Hn & Hlk & Hdev & Hno & Hf & Hs).
  destruct (F (N k)) as [f|] eqn:HF; [|done]. destruct (st_ent _ _ _ _ _ _ Hst k i Hi) as [Href _ _ Hval].
  assert (cached s k i) as Hca by (split; [done|done|by apply Hval]).
  pose proof (cached_file sb ds s k i (st_inv _ _ _ _ _ _ Hst) Hca) as Hcf. rewrite Hn, Hf in Hcf. apply Some_inj in Hcf.
  exists i, f. rewrite Hlk, Hf. split_and!; try done; by rewrite Hcf.
Qed.

Lemma fn_insert_same {A C} `{EqDecision A} (f : A → C) a x : <[a := f a]> f x = f x.
Proof. destruct (decide (a = x)) as [->|]; [by rewrite fn_lookup_insert|by rewrite fn_lookup_insert_ne]. Qed.
Lemma fn_insert_twice {A C} `{EqDecision A} (f : A → C) a (c c' : C) x : <[a := c]> (<[a := c']> f) x = <[a := c]> f x.
Proof. destruct (decide (a = x)) as [->|]; [by rewrite !fn_lookup_insert|by rewrite !fn_lookup_insert_ne]. Qed.

(** One entry changes and nothing on disk. *)
Lemma st_touch s F R N L B s' k i' r n l :
  st s F R N L B → fs_inv s' → same_disk s s' → f_icache s' = <[k := i']> (f_icache s) → (k < NINODE)%nat →
  ent F r n l i' → (l = true → 0 < r) → st s' F (<[k := r]> R) (<[k := n]> N) (<[k := l]> L) B.
Proof.
  intros Hst Hinv' Hsd Hic Hk Hent Hl. eapply st_set; try done.
  - intros j Hj. rewrite (proj1 (same_disk_file sb s s' j Hsd)). by apply (st_file _ _ _ _ _ _ Hst).
  - intros k' _ Hr. by destruct (st_get _ _ _ _ _ _ k' Hst Hr) as (_ & _ & _ & _ & _ & _ & _ & _ & ?).
  - rewrite (same_disk_nfree _ _ Hsd). apply (st_blocks _ _ _ _ _ _ Hst).
Qed.

(** ** Locking *)
Lemma st_ilock s F R N L B k :
  st s F R N L B → 0 < R k → L k = false → ∃ s', ilock k s = Ok s' ∧ st s' F R N (<[k := true]> L) B.
Proof.
  intros Hst Hr Hl. destruct (st_get _ _ _ _ _ _ k Hst Hr) as (i & Hi & Hri & Hn & Hlk & Hdev & Hno & Hf & Hs).
  destruct (ilock_spec sb ds s k i) as (s' & i' & Hok & Hinv' & Hsd & Hca & Hlo & Hin & Hre & Hty & Hic);
    [apply Hst|done|done|congruence| |].
  { rewrite Hn. intros H0. apply Hs. rewrite <- Hf. unfold FsInv.file. by rewrite decide_True. }
  exists s'. split; [done|]. destruct (st_ent _ _ _ _ _ _ Hst k i Hi) as [Href _ _ _].
  eapply st_ext; [eapply (st_touch s F R N L B s' k i' (R k) (N k) true)|..]; try done.
  - by apply (st_dom _ _ _ _ _ _ Hst).
  - split; [congruence|done| |intros _; apply Hca]. intros _. split; [congruence|done].
  - intros k'. by rewrite fn_insert_same.
  - intros k' _. by rewrite fn_insert_same.
Qed.
Lemma st_iunlock s F R N L B k :
  st s F R N L B → L k = true → ∃ s', iunlock k s = Ok s' ∧ st s' F R N (<[k := false]> L) B.
Proof.
  intros Hst Hl. destruct (st_locked _ _ _ _ _ _ k Hst Hl) as (i & f & Hca & Hn & Hlk & Href & _ & Hr & _ & HF & _).
  destruct (iunlock_spec sb ds s k i) as (s' & Hok & Hinv' & Hsd & Hic); [apply Hst|apply Hca|lia|done|].
  exists s'. split; [done|].
  eapply st_ext; [eapply (st_touch s F R N L B s' k _ (R k) (N k) false Hst Hinv' Hsd Hic)|..]; try done.
  - by apply (st_dom _ _ _ _ _ _ Hst).
  - split; [done|done| |done]. intros _. split; [done|congruence].
  - intros k'. by rewrite fn_insert_same.
  - intros k' _. by rewrite fn_insert_same.
Qed.

(** ** References *)

(** Dropping a reference to a linked file. *)
Lemma st_iput s F R N L B k f :
  st s F R N L B → 0 < R k → L k = false → F (N k) = Some f → af_nlink f ≠ 0 ∨ 1 < R k →
  ∃ s', iput k s = Ok s' ∧ st s' F (<[k := R k - 1]> R) N L B.
Proof.
  intros Hst Hr Hl HF Hkeep. destruct (st_get _ _ _ _ _ _ k Hst Hr) as (i & Hi & Hri & Hn & Hlk & Hdev & Hno & Hf & Hs).
  destruct (st_ent _ _ _ _ _ _ Hst k i Hi) as [Href _ _ _].
  destruct (iput_keep sb ds s k i) as (s' & Hok & Hinv' & Hsd & Hic); [apply Hst|done|done|congruence| |].
  { intros (Hv & Hnl & H1). destruct Hkeep as [Hk|Hk]; [|lia]. apply Hk.
    pose proof (cached_file sb ds s k i (st_inv _ _ _ _ _ _ Hst)) as Hcf. specialize (Hcf ltac:(by split)).
    rewrite Hn, Hf, HF in Hcf. by apply Some_inj in Hcf as ->. }
  exists s'. split; [done|].
  eapply st_ext; [eapply (st_touch s F R N L B s' k _ (R k - 1) (N k) false Hst Hinv' Hsd Hic)|..]; try done.
  - by apply (st_dom _ _ _ _ _ _ Hst).
  - split; [cbn; lia|cbn; congruence| |done]. intros _. split; [done|congruence].
  - intros k' _. by rewrite fn_insert_same.
  - intros k'. rewrite <- Hl. by rewrite fn_insert_same.
Qed.
Lemma st_iunlockput s F R N L B k f :
  st s F R N L B → L k = true → F (N k) = Some f → af_nlink f ≠ 0 ∨ 1 < R k →
  ∃ s', iunlockput k s = Ok s' ∧ st s' F (<[k := R k - 1]> R) N (<[k := false]> L) B.
Proof.
  intros Hst Hl HF Hkeep. unfold iunlockput. destruct (st_iunlock _ _ _ _ _ _ k Hst Hl) as (s1 & -> & Hst1). rewrite bind_ret.
  apply (st_iput s1 F R N _ B k f); [done|by apply (st_lock _ _ _ _ _ _ Hst)|by rewrite fn_lookup_insert|done|done].
Qed.

(** Dropping the last reference to a file without links removes it. *)
Lemma st_iput_free s F R N L B k i f :
  st s F R N L B → L k = false → cached s k i → F (N k) = Some f → af_nlink f = 0 → R k = 1 →
  ∃ s', iput k s = Ok s' ∧ st s' (<[N k := None]> F) (<[k := 0]> R) N L 0.
Proof.
  intros Hst Hl Hca HF Hnl Hr1. destruct (st_ent _ _ _ _ _ _ Hst k i (ca_entry _ _ _ Hca)) as [Href Hlk Hnum _]. destruct (Hnum ltac:(lia)) as [Hn _].
  pose proof (cached_file sb ds s k i (st_inv _ _ _ _ _ _ Hst) Hca) as Hcf. destruct (st_get _ _ _ _ _ _ k Hst ltac:(lia)) as (_ & _ & _ & _ & _ & _ & _ & Hf & _).
  rewrite Hn, Hf, HF in Hcf. apply Some_inj in Hcf.
  destruct (iput_free sb ds s k i) as (s' & i' & Hok & Hinv' & Hnone & Hoth & Hic & Hre & Hlo & _); [apply Hst|done|congruence|by rewrite <- Hnl, Hcf|congruence|].
  rewrite Hn in Hnone, Hoth. exists s'. split; [done|].
  eapply st_ext; [eapply (st_set s F R N L B s' (<[N k := None]> F) k i' 0 (N k) false 0 Hst Hinv' Hic)|..]; try done.
  - apply (st_dom _ _ _ _ _ _ Hst). lia.
  - intros j Hj. destruct (decide (N k = j)) as [<-|Hne]; [rewrite fn_lookup_insert; congruence|].
    rewrite fn_lookup_insert_ne by done. rewrite Hoth by congruence. by apply (st_file _ _ _ _ _ _ Hst).
  - intros k' Hne Hr'. rewrite fn_lookup_insert_ne.
    + by destruct (st_get _ _ _ _ _ _ k' Hst Hr') as (_ & _ & _ & _ & _ & _ & _ & _ & ?).
    + intros Heq. apply Hne, (st_same _ _ _ _ _ _ k' k Hst); [done|lia|done].
  - lia.
  - intros k' Hk'. by rewrite fn_insert_same.
  - intros k'. rewrite <- Hl. by rewrite fn_insert_same.
Qed.
Lemma st_iunlockput_free s F R N L B k f :
  st s F R N L B → L k = true → F (N k) = Some f → af_nlink f = 0 → R k = 1 →
  ∃ s', iunlockput k s = Ok s' ∧ st s' (<[N k := None]> F) (<[k := 0]> R) N (<[k := false]> L) 0.
Proof.
  intros Hst Hl HF Hnl Hr1. unfold iunlockput. destruct (st_locked _ _ _ _ _ _ k Hst Hl) as (i & _ & Hca & _ & Hlk & _).
  destruct (iunlock_spec sb ds s k i) as (s1 & Hu & _ & _ & Hic1); [apply Hst|apply Hca|apply Hca|done|].
  destruct (st_iunlock _ _ _ _ _ _ k Hst Hl) as (s1' & Hu' & Hst1). rewrite Hu in Hu'. injection Hu' as <-. rewrite Hu, bind_ret.
  apply (st_iput_free s1 F R N _ B k (i <| i_locked := false |>) f Hst1); try done; [by rewrite fn_lookup_insert|].
  split; [|apply Hca|apply Hca]. rewrite Hic1. apply list_lookup_insert_eq. eapply lookup_lt_Some, Hca.
Qed.

(** Dropping any reference. *)
Lemma st_iput_any s F R N L B k f :
  st s F R N L B → 0 < R k → L k = false → F (N k) = Some f →
  ∃ s' F', iput k s = Ok s' ∧ st s' F' (<[k := R k - 1]> R) N L 0 ∧ (F' = F ∨ af_nlink f = 0 ∧ F' = <[N k := None]> F).
Proof.
  intros Hst Hr Hl HF. assert (st s F R N L 0) as Hst0 by (eapply st_ext; [exact Hst|..]; try done; lia).
  destruct (decide (af_nlink f ≠ 0 ∨ 1 < R k)) as [Hkeep|Hfree].
  { destruct (st_iput s F R N L 0 k f Hst0 Hr Hl HF Hkeep) as (s' & ? & ?). exists s', F. split_and!; [done|done|by left]. }
  assert (af_nlink f = 0 ∧ R k = 1) as [Hnl Hr1]. { destruct (decide (af_nlink f = 0)); [split; [done|lia]|]. exfalso. apply Hfree. by left. }
  destruct (st_get _ _ _ _ _ _ k Hst Hr) as (i & Hi & Hri & Hn & Hlk & _). destruct (i_valid i) eqn:Hv.
  - destruct (st_iput_free s F R N L B k i f Hst Hl) as (s' & Hrun & Hst'); try done. exists s', (<[N k := None]> F). rewrite Hr1. split_and!; [done|done|by right].
  - destruct (iput_keep sb ds s k i) as (s' & Hok & Hinv' & Hsd & Hic); [apply Hst|done|done|congruence|intros [? _]; congruence|].
    exists s', F. split_and!; [done| |by left]. destruct (st_ent _ _ _ _ _ _ Hst0 k i Hi) as [Href _ _ _].
    eapply st_ext; [eapply (st_touch s F R N L 0 s' k _ (R k - 1) (N k) false Hst0 Hinv' Hsd Hic)|..]; try done.
    + by apply (st_dom _ _ _ _ _ _ Hst).
    + split; [cbn; lia|cbn; congruence| |done]. intros _. split; [done|congruence].
    + intros k' _. by rewrite fn_insert_same.
    + intros k'. rewrite <- Hl. by rewrite fn_insert_same.
Qed.

(** Another reference. *)
Lemma st_idup s F R N L B k :
  st s F R N L B → 0 < R k → st (idup k s).2 F (<[k := R k + 1]> R) N L B.
Proof.
  intros Hst Hr. destruct (st_get _ _ _ _ _ _ k Hst Hr) as (i & Hi & Hri & Hn & Hlk & _). destruct (st_ent _ _ _ _ _ _ Hst k i Hi) as [Href _ Hnum Hval].
  set (g := λ i : inode, i <| i_ref ::= λ r, r + 1 |>). change (idup k s).2 with (updi g k s).
  destruct (cache_touch sb ds s k i g (st_inv _ _ _ _ _ _ Hst) Hi Hri) as [Hinv' Hi']; [done|done|cbn; lia| |].
  { cbn. intros Hv. by apply (ci_valid _ _ (proj2 (st_inv _ _ _ _ _ _ Hst)) k i). }
  destruct (entry_alter s (updi g k s) k i g Hi eq_refl) as [_ Hic].
  eapply st_ext; [eapply (st_touch s F R N L B _ k (g i) (R k + 1) (N k) (L k) Hst Hinv' (same_disk_updi g k s) Hic)|..]; try done.
  - by apply (st_dom _ _ _ _ _ _ Hst).
  - split; [cbn; lia|done| |done]. intros _. by apply Hnum.
  - intros Hl. pose proof (st_lock _ _ _ _ _ _ Hst k Hl). lia.
  - intros k' _. by rewrite fn_insert_same.
  - intros k'. by rewrite fn_insert_same.
Qed.

(** [iget] takes an entry that is free or has the inode. *)
Lemma st_gotten s F R N L B s' k j :
  st s F R N L B → gotten sb ds s s' k j → F j ≠ None →
  (R k = 0 ∨ 0 < R k ∧ N k = j) ∧ st s' F (<[k := R k + 1]> R) (<[k := j]> N) L B.
Proof.
  intros Hst [Hsd Hinv' (i & Hi & Hin & Hri & Hic & Hused & Hfree)] HF.
  assert (k < length (f_icache s))%nat as Hk. { apply lookup_lt_Some in Hi. by rewrite Hic, length_insert in Hi. }
  destruct (lookup_lt_is_Some_2 _ _ Hk) as [i0 Hi0]. destruct (st_ent _ _ _ _ _ _ Hst k i0 Hi0) as [Href Hlk Hnum Hval].
  pose proof (ci_ref _ _ (proj2 (st_inv _ _ _ _ _ _ Hst)) k i0 Hi0) as Hpos.
  assert ((R k = 0 ∨ 0 < R k ∧ N k = j) ∧ ent F (R k + 1) j (L k) i) as [Hor Hent].
  { destruct (decide (i_ref i0 = 0)) as [H0|H0].
    - split; [left; lia|]. destruct (Hfree i0 Hi0 H0) as (_ & H1 & H2). split; [lia|congruence|done|].
      intros Hl. pose proof (st_lock _ _ _ _ _ _ Hst k Hl). lia.
    - destruct (Hused i0 Hi0 ltac:(lia)) as [Hn0 ->]. split; [right; destruct Hnum as [? _]; [lia|split; [lia|congruence]]|].
      split; [cbn; lia|done|done|done]. }
  split; [done|]. rewrite (ci_len _ _ (proj2 (st_inv _ _ _ _ _ _ Hst))) in Hk.
  eapply st_ext; [eapply (st_touch s F R N L B s' k i (R k + 1) j (L k) Hst Hinv' Hsd Hic Hk Hent)|..]; try done.
  - intros Hl. pose proof (st_lock _ _ _ _ _ _ Hst k Hl). lia.
  - intros k'. by rewrite fn_insert_same.
Qed.

(** A directory that is locked. *)
Definition whole (data : list Z) : Prop := length data = (DIRENT * nentries data)%nat.

Lemma st_dir s F R N L B k f :
  st s F R N L B → L k = true → F (N k) = Some f → af_type f = T_DIR → whole (af_data f) →
  ∃ i, dir sb s k i (af_data f) ∧ i_inum i = N k ∧ i_dev i = ROOTDEV.
Proof.
  intros Hst Hl HF Ht Hw. destruct (st_locked _ _ _ _ _ _ k Hst Hl) as (i & f' & Hca & Hn & _ & _ & Hdev & _ & _ & HF' & Hf & Hty & _).
  assert (f' = f) as -> by congruence. exists i. split_and!; [|done|done]. split; [done|congruence|by rewrite Hn, Hf|done].
Qed.

Lemma st_dirlookup s F R N L B dp f name k :
  st s F R N L B → L dp = true → F (N dp) = Some f → af_type f = T_DIR → whole (af_data f) →
  0 ∈ name ∨ (DIRSIZ ≤ length name)%nat → dfind (af_data f) (dname name) (nentries (af_data f)) 0 = Some k →
  let j := dent_inum (entry (af_data f) k) in
  inode_no j → F j ≠ None → (∃ ip, (ip < NINODE)%nat ∧ R ip = 0) →
  ∃ ip s', dirlookup devs dp name s = Ok (Some (ip, Z.of_nat (DIRENT * k)), s') ∧ (R ip = 0 ∨ 0 < R ip ∧ N ip = j) ∧
    st s' F (<[ip := R ip + 1]> R) (<[ip := j]> N) L B.
Proof.
  intros Hst Hl HF Ht Hw Hname Hfind j Hj Hsome (ip0 & Hip0 & Hr0).
  destruct (st_dir s F R N L B dp f Hst Hl HF Ht Hw) as (i & Hdir & Hn & Hdev).
  rewrite (dirlookup_at sb ds devs s dp i (af_data f) name (st_inv _ _ _ _ _ _ Hst) Hdir Hname), Hfind, Hdev. fold j.
  destruct (iget_spec sb ds s j (st_inv _ _ _ _ _ _ Hst) Hj) as (ip & s' & Hg & Hgot).
  { destruct (lookup_lt_is_Some_2 (f_icache s) ip0) as [x Hx]; [by rewrite (ci_len _ _ (proj2 (st_inv _ _ _ _ _ _ Hst)))|].
    exists ip0, x. split; [done|]. left. by rewrite (en_ref _ _ _ _ _ (st_ent _ _ _ _ _ _ Hst ip0 x Hx)). }
  rewrite Hg, bind_ret. destruct (st_gotten s F R N L B s' ip j Hst Hgot Hsome) as [Hor Hst']. by exists ip, s'.
Qed.
Lemma st_dirlookup_none s F R N L B dp f name :
  st s F R N L B → L dp = true → F (N dp) = Some f → af_type f = T_DIR → whole (af_data f) →
  0 ∈ name ∨ (DIRSIZ ≤ length name)%nat → dlookup (af_data f) (dname name) = None → dirlookup devs dp name s = Ok (None, s).
Proof.
  intros Hst Hl HF Ht Hw Hname Hnone. destruct (st_dir s F R N L B dp f Hst Hl HF Ht Hw) as (i & Hdir & Hn & Hdev).
  pose proof (dirlookup_spec sb ds devs s dp i (af_data f) name (st_inv _ _ _ _ _ _ Hst) Hdir Hname) as Hlk. by rewrite Hnone in Hlk.
Qed.

(** ** Changing a file *)

(** The entry of a locked file changes with the file. *)
Lemma st_change s F R N L B s' k i' f' B' :
  st s F R N L B → L k = true → fs_inv s' → cached s' k i' → i_inum i' = N k → i_locked i' = true → i_ref i' = R k →
  f_icache s' = <[k := i']> (f_icache s) → file s' (N k) = Some f' → (∀ j, inode_no j → j ≠ N k → file s' j = file s j) →
  (B' ≤ nfree s')%nat → st s' (<[N k := Some f']> F) R N L B'.
Proof.
  intros Hst Hl Hinv' Hca Hn Hlo Hre Hic Hf Hoth HB. pose proof (st_lock _ _ _ _ _ _ Hst k Hl) as Hr.
  eapply st_ext; [eapply (st_set s F R N L B s' (<[N k := Some f']> F) k i' (R k) (N k) true B' Hst Hinv' Hic)|..]; try done.
  - by apply (st_dom _ _ _ _ _ _ Hst).
  - intros j Hj. destruct (decide (N k = j)) as [<-|Hne]; [by rewrite fn_lookup_insert|].
    rewrite fn_lookup_insert_ne by done. rewrite Hoth by congruence. by apply (st_file _ _ _ _ _ _ Hst).
  - intros k' _ Hr'. destruct (decide (N k = N k')) as [Heq|Hne]; [by rewrite Heq, fn_lookup_insert|].
    rewrite fn_lookup_insert_ne by done. by destruct (st_get _ _ _ _ _ _ k' Hst Hr') as (_ & _ & _ & _ & _ & _ & _ & _ & ?).
  - split; [done|done| |intros _; apply Hca]. intros _. by rewrite fn_lookup_insert.
  - intros k'. by rewrite fn_insert_same.
  - intros k' _. by rewrite fn_insert_same.
  - intros k'. rewrite <- Hl. by rewrite fn_insert_same.
Qed.

(** Storing other link counts and device numbers. *)
Definition set_meta (major minor nlink : Z) (f : afile) : afile := mkafile (af_type f) major minor nlink (af_data f).

Lemma st_iupdate s F R N L B k f (g : inode → inode) major minor nlink :
  st s F R N L B → L k = true → F (N k) = Some f → short major → short minor → short nlink →
  (∀ i, i_type i = af_type f → i_major i = af_major f → i_minor i = af_minor f → i_nlink i = af_nlink f →
     g i = i <| i_major := major |> <| i_minor := minor |> <| i_nlink := nlink |>) →
  ∃ s', iupdate k (updi g k s) = Ok s' ∧ st s' (<[N k := Some (set_meta major minor nlink f)]> F) R N L B.
Proof.
  intros Hst Hl HF Hma Hmi Hnl Hg. destruct (st_locked _ _ _ _ _ _ k Hst Hl) as (i & f' & Hca & Hn & Hlo & Hre & Hdev & Hr & Hno & HF' & Hf & Hty & Hnk).
  assert (f' = f) as -> by congruence. pose proof (st_inv _ _ _ _ _ _ Hst) as Hinv. pose proof Hca as [He Hrp Hv].
  destruct (cached_facts sb ds s k i Hinv Hca) as (_ & Hty0 & Hdi & Hadr & Hwf & Hw & Hmax & Hcv & _).
  pose proof (cached_file sb ds s k i Hinv Hca) as Hcf. rewrite Hn, Hf in Hcf. apply Some_inj in Hcf.
  set (i' := i <| i_major := major |> <| i_minor := minor |> <| i_nlink := nlink |>).
  assert (g i = i') as Hgi by (apply Hg; by rewrite Hcf). destruct (entry_alter s (updi g k s) k i g He eq_refl) as [_ Hic]. rewrite Hgi in Hic.
  destruct (store_spec sb ds s (updi g k s) k i i') as (s' & Hup & Hs' & Hinv' & Hca' & Hf' & Hoth); try done.
  { split; [by rewrite Hn| | | |by rewrite decide_False|done].
    - rewrite Hadr. apply iframe_updi. apply iframe_refl; [apply Hinv|done].
    - by apply iwf_updi.
    - destruct Hwf as [H1 H2 H3 H4 H5 H6 H7]. by split. }
  exists s'. split; [done|]. rewrite Hn in Hf', Hoth. eapply (st_change s F R N L B s' k i'); try done.
  - rewrite Hs'. exact Hic.
  - rewrite Hf'. unfold set_meta. rewrite Hcf. done.
  - rewrite Hs', (put_nfree sb ds); [apply (st_blocks _ _ _ _ _ _ Hst)|apply base_updi, Hinv|by rewrite Hn].
Qed.

(** Writing into a locked file. *)
Lemma st_writei s F R N L B k f src off n :
  st s F R N L B → L k = true → F (N k) = Some f → af_type f ≠ T_DEV → Forall byte_range src → (n ≤ length src)%nat →
  (off ≤ length (af_data f))%nat → (off + n ≤ MAXBYTES)%nat → (blocks_touched (Z.of_nat n) + 1 ≤ B)%nat →
  ∃ s', writei devs k src (Z.of_nat off) (Z.of_nat n) s = Ok (Z.of_nat n, s') ∧
    st s' (<[N k := Some (set_data (overwrite off (take n src) (af_data f)) f)]> F) R N L (B - (blocks_touched (Z.of_nat n) + 1)).
Proof.
  intros Hst Hl HF Ht Hb Hlen Hoff Hmax Hfree. destruct (st_locked _ _ _ _ _ _ k Hst Hl) as (i & f' & Hca & Hn & Hlo & Hre & Hdev & Hr & Hno & HF' & Hf & Hty & Hnk).
  assert (f' = f) as -> by congruence. pose proof (st_inv _ _ _ _ _ _ Hst) as Hinv. pose proof (st_blocks _ _ _ _ _ _ Hst) as HB.
  destruct (writei_spec sb ds devs s k i src off n f) as (s' & Hwr & Hinv' & Hf' & Hoth & (i' & Hca' & Hin' & Hlo' & Hre' & Hic') & _ & Hnf);
    try done; [congruence|congruence|lia|].
  exists s'. split; [done|]. rewrite Hn in Hf', Hoth. eapply (st_change s F R N L B s' k i'); try done; try congruence. lia.
Qed.

(** A new name in a locked directory. *)
Definition with_entry (e : list Z) (data : list Z) : list Z := overwrite (DIRENT * dfree data (nentries data) 0) e data.

Lemma st_dirlink s F R N L B dp f name j :
  st s F R N L B → L dp = true → F (N dp) = Some f → af_type f = T_DIR → whole (af_data f) →
  0 ∈ name ∨ (DIRSIZ ≤ length name)%nat → Forall byte_range (dname name) → 1 ≤ j < 2 ^ 16 →
  dlookup (af_data f) (dname name) = None → (length (af_data f) < MAXBYTES)%nat → (3 ≤ B)%nat →
  ∃ s' e, dirlink devs dp name j s = Ok (0, s') ∧ length e = DIRENT ∧ dent_inum e = j ∧ dent_name e = dname name ∧
    st s' (<[N dp := Some (set_data (with_entry e (af_data f)) f)]> F) R N L (B - 3).
Proof.
  intros Hst Hl HF Ht Hw Hname Hb Hj Hnone Hmax Hfree. pose proof (st_blocks _ _ _ _ _ _ Hst) as HB.
  destruct (st_locked _ _ _ _ _ _ dp Hst Hl) as (i0 & f0 & [He0 _ _] & _ & Hlo0 & Hre0 & _ & _ & _ & HF0 & Hf0 & _).
  destruct (st_dir s F R N L B dp f Hst Hl HF Ht Hw) as (i & Hdir & Hn & Hdev).
  assert (f0 = f) as -> by congruence. assert (i0 = i) as ->. { pose proof (ca_entry _ _ _ (dr_cached _ _ _ _ _ Hdir)). congruence. }
  destruct (dirlink_spec sb ds devs s dp i (af_data f) name j) as (s' & i' & data' & Hok & Hinv' & Hdir' & Hin' & Hlo' & Hre' & Hic' & _ & Hoth & Hf' & (e & He1 & He2 & He3 & ->) & Hnf);
    try done; [apply Hst|lia|].
  exists s', e. split_and!; try done. rewrite Hn in Hf', Hoth. rewrite Hf0 in Hf'. eapply (st_change s F R N L B s' dp i'); try done; try congruence.
  - apply Hdir'.
  - lia.
Qed.

(** A name that exists is refused, if its inode is not the directory itself. *)
Lemma st_dirlink_exists s F R N L B dp f name j j0 f0 :
  st s F R N L B → L dp = true → F (N dp) = Some f → af_type f = T_DIR → whole (af_data f) →
  0 ∈ name ∨ (DIRSIZ ≤ length name)%nat → dlookup (af_data f) (dname name) = Some j0 →
  inode_no j0 → F j0 = Some f0 → af_nlink f0 ≠ 0 → (∃ ip, (ip < NINODE)%nat ∧ R ip = 0) → (∀ k, L k = true → N k ≠ j0) →
  ∃ s' N', dirlink devs dp name j s = Ok (-1, s') ∧ st s' F R N' L B ∧ ∀ k, 0 < R k → N' k = N k.
Proof.
  intros Hst Hl HF Ht Hw Hname Hlk Hno HF0 Hnl Hfree Hunl. unfold dlookup in Hlk. apply fmap_Some in Hlk as (k & Hk & ->).
  destruct (st_dirlookup s F R N L B dp f name k) as (ip & s1 & Hdl & Hor & Hst1); try done; [congruence|].
  unfold dirlink. rewrite Hdl, bind_ret. assert (0 ≤ R ip) as Hpos by lia.
  assert (L ip = false) as Hlip.
  { destruct (L ip) eqn:HL; [|done]. exfalso. pose proof (st_lock _ _ _ _ _ _ Hst ip HL). apply (Hunl ip HL). destruct Hor as [?|[_ ?]]; [lia|done]. }
  destruct (st_iput s1 F _ _ L B ip f0 Hst1) as (s2 & Hip & Hst2); rewrite ?fn_lookup_insert; try done; [lia|by left|].
  rewrite Hip, bind_ret. exists s2, (<[ip := dent_inum (entry (af_data f) k)]> N). split_and!; [done| |].
  - eapply st_ext; [exact Hst2|..]; try done. intros k'. rewrite fn_insert_twice, fn_lookup_insert. replace (R ip + 1 - 1) with (R ip) by lia. by rewrite fn_insert_same.
  - intros k' Hr. destruct (decide (ip = k')) as [<-|Hne]; [|by rewrite fn_lookup_insert_ne]. rewrite fn_lookup_insert. destruct Hor as [?|[_ ?]]; [lia|done].
Qed.

(** A name of the directory itself: its reference is dropped under its lock. *)
Lemma st_dirlink_self s F R N L B dp f name j :
  st s F R N L B → L dp = true → F (N dp) = Some f → af_type f = T_DIR → whole (af_data f) →
  0 ∈ name ∨ (DIRSIZ ≤ length name)%nat → dlookup (af_data f) (dname name) = Some (N dp) → (∃ ip, (ip < NINODE)%nat ∧ R ip = 0) →
  dirlink devs dp name j s = Fault "acquiresleep: deadlock".
Proof.
  intros Hst Hl HF Ht Hw Hname Hlk Hfree. unfold dlookup in Hlk. apply fmap_Some in Hlk as (k & Hk & Hj).
  pose proof (st_lock _ _ _ _ _ _ Hst dp Hl) as Hr. destruct (st_get _ _ _ _ _ _ dp Hst Hr) as (_ & _ & _ & _ & _ & _ & Hno & _).
  destruct (st_dirlookup s F R N L B dp f name k) as (ip & s1 & Hdl & Hor & Hst1); try done; [by rewrite <- Hj|rewrite <- Hj; congruence|].
  unfold dirlink. rewrite Hdl, bind_ret. rewrite <- Hj in Hst1, Hor.
  assert (ip = dp) as ->.
  { destruct (decide (ip = dp)) as [|Hne]; [done|]. apply (st_same _ _ _ _ _ _ ip dp Hst1); rewrite ?fn_lookup_insert, ?fn_lookup_insert_ne by done; [lia|done|done]. }
  destruct (st_locked _ _ _ _ _ _ dp Hst1 Hl) as (i & _ & [Hi _ _] & _ & Hlk & _).
  unfold iput, acquiresleep. by rewrite (proj2 (geti_Ok _ _ _) Hi), bind_ret, Hlk.
Qed.

(** ** New inodes *)
Lemma st_ialloc s F R N L B type :
  st s F R N L B → short type → type ≠ 0 → (∃ j, inode_no j ∧ F j = None) → (∃ ip, (ip < NINODE)%nat ∧ R ip = 0) →
  ∃ ip j s', ialloc ROOTDEV type s = Ok (ip, s') ∧ inode_no j ∧ F j = None ∧ R ip = 0 ∧
    st s' (<[j := Some (mkafile type 0 0 0 [])]> F) (<[ip := 1]> R) (<[ip := j]> N) L B.
Proof.
  intros Hst Hty Hnz (j0 & Hj0 & HFj0) (ip0 & Hip0 & Hr0). pose proof (st_inv _ _ _ _ _ _ Hst) as Hinv.
  destruct (ialloc_spec sb ds s type Hinv Hty Hnz) as (ip & j & s1 & s' & Hok & Hj & Hfj & _ & Hfj' & Hoth & Hs1 & Hinv1 & Hgot).
  { exists j0. split; [done|]. by rewrite (st_file _ _ _ _ _ _ Hst). }
  { destruct (lookup_lt_is_Some_2 (f_icache s) ip0) as [x Hx]; [by rewrite (ci_len _ _ (proj2 Hinv))|]. exists ip0, x. split; [done|].
    by rewrite (en_ref _ _ _ _ _ (st_ent _ _ _ _ _ _ Hst ip0 x Hx)). }
  set (f := mkafile type 0 0 0 []) in *. assert (F j = None) as HFj by (rewrite <- (st_file _ _ _ _ _ _ Hst); done).
  assert (st s1 (<[j := Some f]> F) R N L B) as Hst1.
  { assert (∀ k, 0 < R k → N k ≠ j) as Hne.
    { intros k Hr <-. by destruct (st_get _ _ _ _ _ _ k Hst Hr) as (_ & _ & _ & _ & _ & _ & _ & _ & ?). }
    split; [done| | |apply (st_dom _ _ _ _ _ _ Hst)|apply (st_lock _ _ _ _ _ _ Hst)|].
    - intros j' Hj'. pose proof (gt_disk _ _ _ _ _ _ Hgot) as Hsd. rewrite <- (proj1 (same_disk_file sb s1 s' j' Hsd)).
      destruct (decide (j = j')) as [<-|Hnj]; [by rewrite fn_lookup_insert|]. rewrite fn_lookup_insert_ne, Hoth by congruence.
      by apply (st_file _ _ _ _ _ _ Hst).
    - intros k i Hi. rewrite Hs1 in Hi. destruct (st_ent _ _ _ _ _ _ Hst k i Hi) as [H1 H2 H3 H4]. split; [done|done| |done].
      intros Hr. destruct (H3 Hr) as [? ?]. split; [done|]. rewrite fn_lookup_insert_ne; [done|]. intros Heq. by apply (Hne k Hr).
    - rewrite Hs1, (put_nfree sb ds); [apply (st_blocks _ _ _ _ _ _ Hst)|apply Hinv|done]. }
  destruct (st_gotten s1 _ R N L B s' ip j Hst1 Hgot) as [Hor Hst']; [by rewrite fn_lookup_insert|].
  assert (R ip = 0) as Hrip.
  { destruct Hor as [?|[Hr Hn]]; [done|]. exfalso. destruct (st_get _ _ _ _ _ _ ip Hst Hr) as (_ & _ & _ & _ & _ & _ & _ & _ & Hs).
    by rewrite Hn in Hs. }
  rewrite Hrip in Hst'. exists ip, j, s'. by split_and!.
Qed.

(** ** Paths *)
Definition linkedF F j : Prop := inode_no j ∧ ∃ f, F j = Some f ∧ af_nlink f ≠ 0.
Definition treeF F : Prop := ∀ d f, linkedF F d → F d = Some f → af_type f = T_DIR →
  whole (af_data f) ∧ ∀ nm j, dlookup (af_data f) nm = Some j → linkedF F j.
Definition dirF F j : option (list Z) := f ← F j; if decide (af_type f = T_DIR) then Some (af_data f) else None.

Fixpoint walkF F j (es : list (list Z)) : option Z :=
  match es with
  | [] => Some j
  | e :: es' => data ← dirF F j; j' ← dlookup data (take DIRSIZ e); walkF F j' es'
  end.
Fixpoint walk_parentF F j (es : list (list Z)) : option (Z * list Z) :=
  match es with
  | [] => None
  | [e] => _ ← dirF F j; Some (j, take DIRSIZ e)
  | e :: es' => data ← dirF F j; j' ← dlookup data (take DIRSIZ e); walk_parentF F j' es'
  end.

Lemma dirF_Some F j data : dirF F j = Some data → ∃ f, F j = Some f ∧ af_type f = T_DIR ∧ af_data f = data.
Proof. unfold dirF. destruct (F j) as [f|]; [|done]. cbn. case_decide; [|done]. intros [= <-]. by exists f. Qed.

Lemma tree_next F d data nm j : treeF F → linkedF F d → dirF F d = Some data → dlookup data nm = Some j → linkedF F j.
Proof. intros Ht Hl (f & Hf & Hty & <-)%dirF_Some Hj. by apply (Ht d f Hl Hf Hty) in Hj. Qed.

Section files.
Context s F (Hf : ∀ j, inode_no j → file s j = F j).
Lemma linked_F j : linked sb s j ↔ linkedF F j.
Proof. unfold linked, linkedF. split; intros [Hj (f & ? & ?)]; (split; [done|]); exists f; [rewrite <- Hf by done|rewrite Hf by done]; done. Qed.
Lemma dir_data_F j : inode_no j → dir_data sb s j = dirF F j.
Proof. intros Hj. unfold dir_data, dirF. by rewrite Hf. Qed.
Lemma tree_ok_F : treeF F → tree_ok sb s.
Proof.
  intros Ht d data Hl Hd. rewrite linked_F in Hl. rewrite dir_data_F in Hd by apply Hl. apply dirF_Some in Hd as (f & HFd & Hty & <-).
  destruct (Ht d f Hl HFd Hty) as [Hw Hn]. split; [done|]. intros nm j Hj. rewrite linked_F. by apply (Hn nm).
Qed.
Lemma walk_F j es : treeF F → linkedF F j → walk sb s j es = walkF F j es.
Proof.
  intros Ht. revert j. induction es as [|e es IH]; intros j Hl; [done|]. cbn [walk walkF]. rewrite dir_data_F by apply Hl.
  destruct (dirF F j) as [data|] eqn:Hd; [|done]. cbn [mbind option_bind]. destruct (dlookup data (take DIRSIZ e)) as [j'|] eqn:Hj; [|done].
  cbn [mbind option_bind]. apply IH. by eapply tree_next.
Qed.
Lemma walk_parent_F j es : treeF F → linkedF F j → walk_parent sb s j es = walk_parentF F j es.
Proof.
  intros Ht. revert j. induction es as [|e es IH]; intros j Hl; [done|]. cbn [walk_parent walk_parentF]. rewrite dir_data_F by apply Hl.
  destruct es as [|e2 es]; [done|]. destruct (dirF F j) as [data|] eqn:Hd; [|done]. cbn [mbind option_bind].
  destruct (dlookup data (take DIRSIZ e)) as [j'|] eqn:Hj; [|done]. cbn [mbind option_bind]. apply IH. by eapply tree_next.
Qed.
End files.

Lemma walkF_linked F j es j' : treeF F → linkedF F j → walkF F j es = Some j' → linkedF F j'.
Proof.
  intros Ht. revert j. induction es as [|e es IH]; intros j Hl; cbn [walkF]; [by intros [= <-]|].
  destruct (dirF F j) as [data|] eqn:Hd; [|done]. cbn [mbind option_bind].
  destruct (dlookup data (take DIRSIZ e)) as [j1|] eqn:Hj; [|done]. cbn [mbind option_bind]. apply IH. by eapply tree_next.
Qed.
Lemma walk_parentF_linked F j es d nm :
  treeF F → linkedF F j → walk_parentF F j es = Some (d, nm) →
  linkedF F d ∧ is_Some (dirF F d) ∧ ∃ e, last es = Some e ∧ nm = take DIRSIZ e.
Proof.
  intros Ht. revert j. induction es as [|e es IH]; intros j Hl; [done|]. cbn [walk_parentF]. destruct es as [|e2 es].
  - destruct (dirF F j) as [data|] eqn:Hd; [|done]. cbn. intros [= <- <-]. split_and!; [done|by eexists|by exists e].
  - destruct (dirF F j) as [data|] eqn:Hd; [|done]. cbn [mbind option_bind].
    destruct (dlookup data (take DIRSIZ e)) as [j1|] eqn:Hj; [|done]. cbn [mbind option_bind]. intros Hw.
    by apply (IH j1); [eapply tree_next|].
Qed.

Definition startF N (cwd : nat) (path : list Z) : Z := if decide (head path = Some SLASH) then ROOTINO else N cwd.

(** The state after a path lookup that returns [res]. *)
Definition gained (res : option nat) R : nat → Z := match res with Some ip => <[ip := R ip + 1]> R | None => R end.

Lemma st_namex s F R N L B cwd path parent name :
  st s F R N L B → (∀ k, L k = false) → treeF F → linkedF F ROOTINO → 0 < R cwd → linkedF F (N cwd) → two_free R →
  0 ∈ path → length name = DIRSIZ →
  ∃ res name' s' N', namex devs cwd path parent name s = Ok (res, name', s') ∧ st s' F (gained res R) N' L B ∧
    (∀ k, 0 < R k → N' k = N k) ∧ (∀ ip, res = Some ip → 0 ≤ R ip) ∧
    let es := elems (cstr path) in
    if parent then
      match walk_parentF F (startF N cwd path) es with
      | Some (d, nm) => (∃ ip, res = Some ip ∧ N' ip = d) ∧ dname name' = nm ∧ length name' = DIRSIZ
      | None => res = None
      end
    else
      match walkF F (startF N cwd path) es with
      | Some j => ∃ ip, res = Some ip ∧ N' ip = j
      | None => res = None
      end.
Proof.
  intros Hst Hun Htree Hroot Hr Hcwd Htf H0 Hname. pose proof (st_inv _ _ _ _ _ _ Hst) as Hinv. pose proof (st_file _ _ _ _ _ _ Hst) as Hf.
  destruct (st_get _ _ _ _ _ _ cwd Hst Hr) as (i & Hi & Hri & Hn & _).
  destruct (namex_spec sb ds devs s R cwd i path parent name) as (res & name' & s' & Hok & [Hsd Hinv' Hrefs Hunl Hkept] & Hres); try done.
  { split; [done|intros k x Hx|intros k x Hx]; destruct (st_ent _ _ _ _ _ _ Hst k x Hx) as [H1 H2 _ _]; [rewrite decide_False by done; lia|].
    by rewrite H2, Hun. }
  { by apply (tree_ok_F s F). } { by apply (linked_F s F). } { rewrite Hn. by apply (linked_F s F). }
  set (N' := λ k, match f_icache s' !! k with Some i => i_inum i | None => 0 end).
  assert (start_inum s cwd path = startF N cwd path) as Hstart by (unfold start_inum, startF; by rewrite Hi, Hn).
  assert (linkedF F (startF N cwd path)) as Hsl by (unfold startF; by case_decide).
  assert (∀ k x, f_icache s' !! k = Some x → N' k = i_inum x) as HN' by (intros k x Hx; unfold N'; by rewrite Hx).
  assert (∀ k, 0 < R k → N' k = N k) as HNk.
  { intros k Hrk. destruct (st_get _ _ _ _ _ _ k Hst Hrk) as (x & Hx & _ & Hnx & _). destruct (Hkept k x Hrk Hx) as (x' & Hx' & Hn').
    rewrite (HN' k x' Hx'). congruence. }
  (* what the result refers to *)
  assert (∀ ip, res = Some ip → linkedF F (N' ip) ∧ (ip < NINODE)%nat ∧ 0 ≤ R ip) as Hip.
  { intros ip ->. assert (∃ j, refers s' (Some ip) j ∧ linkedF F j) as (j & (ip' & x & [= <-] & Hx & Hnx) & Hlj).
    { unfold namex_result in Hres. rewrite Hstart in Hres. destruct parent.
      - rewrite (walk_parent_F s F) in Hres by done. destruct (walk_parentF F _ _) as [[d nm]|] eqn:Hw; [|done]. exists d. split; [apply Hres|].
        by apply (walk_parentF_linked F _ _ _ _ Htree Hsl) in Hw as [? _].
      - rewrite (walk_F s F) in Hres by done. destruct (walkF F _ _) as [j|] eqn:Hw; [|done]. exists j. split; [apply Hres|].
        by apply (walkF_linked F _ _ _ Htree Hsl) in Hw. }
    rewrite (HN' ip x Hx), Hnx. split_and!; [done|rewrite <- (ci_len _ _ (proj2 Hinv')); by eapply lookup_lt_Some|].
    destruct (decide (0 ≤ R ip)) as [|Hneg]; [done|]. exfalso. destruct (lookup_lt_is_Some_2 (f_icache s) ip) as [y Hy].
    { rewrite (ci_len _ _ (proj2 Hinv)), <- (ci_len _ _ (proj2 Hinv')). by eapply lookup_lt_Some. }
    pose proof (ci_ref _ _ (proj2 Hinv) ip y Hy). pose proof (en_ref _ _ _ _ _ (st_ent _ _ _ _ _ _ Hst ip y Hy)). lia. }
  exists res, name', s', N'. split_and!; [done| |done|intros ip Hip'; by apply Hip|].
  - split; [done| | | | |].
    + intros j Hj. rewrite (proj1 (same_disk_file sb s s' j Hsd)). by apply Hf.
    + intros k x Hx. assert (gained res R k = R k + if decide (res = Some k) then 1 else 0) as Hg.
      { unfold gained. destruct res as [ip|]; [|rewrite decide_False by done; lia]. destruct (decide (ip = k)) as [->|Hne].
        - rewrite fn_lookup_insert, decide_True by done. lia.
        - rewrite fn_lookup_insert_ne, decide_False by congruence. lia. }
      split; [rewrite Hg; by apply Hrefs|rewrite Hun; by apply (Hunl k)| |by rewrite Hun].
      intros Hrk. split; [by rewrite (HN' k x)|]. destruct (decide (res = Some k)) as [->|Hne].
      * destruct (Hip k eq_refl) as [(_ & f & -> & _) _]. done.
      * rewrite Hg in Hrk. rewrite HNk by lia. destruct (st_get _ _ _ _ _ _ k Hst) as (_ & _ & _ & _ & _ & _ & _ & _ & ?); [lia|done].
    + intros k Hrk. destruct res as [ip|]; cbn in Hrk; [|by apply (st_dom _ _ _ _ _ _ Hst)]. destruct (decide (ip = k)) as [->|Hne]; [by apply Hip|].
      rewrite fn_lookup_insert_ne in Hrk by done. by apply (st_dom _ _ _ _ _ _ Hst).
    + intros k. by rewrite Hun.
    + rewrite (same_disk_nfree _ _ Hsd). apply (st_blocks _ _ _ _ _ _ Hst).
  - cbn zeta. unfold namex_result in Hres. rewrite Hstart in Hres. destruct parent.
    + rewrite (walk_parent_F s F) in Hres by done. destruct (walk_parentF F _ _) as [[d nm]|]; [|done].
      destruct Hres as ((ip & x & -> & Hx & Hnx) & ? & ?). split; [|done]. exists ip. split; [done|]. by rewrite (HN' ip x).
    + rewrite (walk_F s F) in Hres by done. destruct (walkF F _ _) as [j|]; [|done]. destruct Hres as (ip & x & -> & Hx & Hnx).
      exists ip. split; [done|]. by rewrite (HN' ip x).
Qed.
End rules.
