(* ===== verification/Links.v ===== *)
(** * The directory tree

    The tree as maps from names to inode numbers, one for each directory, with
    the link count of each inode.  [shape] says that it is a tree with correct
    counts; adding and removing files and directories keeps it so. *)

From stdpp Require Import gmap.
From S2P Require Import Prelude.
From S2P Require Import Fs.

Local Open Scope Z_scope.

Definition DOT : list Z := [46].
Definition DOTDOT : list Z := [46; 46].
Notation names := (gmap (list Z) Z).

(** Entries of a directory that count as links to [j]: all but its own [.]. *)
Definition refs_in (m : names) (j : Z) : nat := size (filter (λ kv, kv.2 = j ∧ kv.1 ≠ DOT) m).

Lemma refs_in_insert m nm i j :
  m !! nm = None → refs_in (<[nm := i]> m) j = (refs_in m j + if decide (i = j ∧ nm ≠ DOT) then 1 else 0)%nat.
Proof.
  intros Hn. unfold refs_in. case_decide as Hc.
  - rewrite map_filter_insert_True by done. rewrite map_size_insert_None; [lia|]. apply map_lookup_filter_None. by left.
  - rewrite map_filter_insert_False by done. rewrite delete_id by done. lia.
Qed.
Lemma refs_in_delete m nm i j :
  m !! nm = Some i → refs_in m j = (refs_in (delete nm m) j + if decide (i = j ∧ nm ≠ DOT) then 1 else 0)%nat.
Proof.
  intros Hn. rewrite <- (insert_delete_id m nm i) at 1 by done. apply refs_in_insert. apply lookup_delete_eq.
Qed.
Lemma refs_in_zero m j : refs_in m j = 0%nat ↔ ∀ nm, nm ≠ DOT → m !! nm ≠ Some j.
Proof.
  unfold refs_in. rewrite map_size_empty_iff, map_empty. split.
  - intros H nm Hnm Hm. specialize (H nm). rewrite map_lookup_filter_None in H. destruct H as [H|H]; [congruence|]. by apply (H j).
  - intros H nm. apply map_lookup_filter_None. right. cbn. intros x Hx [-> Hd]. by apply (H nm).
Qed.

Section sums.
Context {A : Type}.
Implicit Types (l : list A) (f g : A → nat).

Definition total f l : nat := sum_list_with f l.
Lemma total_perm f l l' : l ≡ₚ l' → total f l = total f l'.
Proof. unfold total. induction 1; cbn; lia. Qed.
Lemma total_app f l l' : total f (l ++ l') = (total f l + total f l')%nat.
Proof. unfold total. induction l; cbn; lia. Qed.
Lemma total_ext f g l : (∀ x, x ∈ l → f x = g x) → total f l = total g l.
Proof. unfold total. induction l as [|x l IH]; intros H; [done|]. cbn. rewrite H by left. f_equal. apply IH. intros y Hy. apply H. by right. Qed.
Lemma total_zero f l : total f l = 0%nat ↔ ∀ x, x ∈ l → f x = 0%nat.
Proof.
  unfold total. induction l as [|y l IH]; cbn; [split; [intros _ x Hx; by apply elem_of_nil in Hx|done]|]. split.
  - intros H x Hx. apply elem_of_cons in Hx as [->|Hx]; [lia|]. apply IH; [lia|done].
  - intros H. rewrite (H y) by left. cbn. apply IH. intros x Hx. apply H. by right.
Qed.
(** Two sums that differ only on the elements of [c]. *)
Lemma total_change f g l (c : list A) :
  NoDup c → (∀ x, x ∈ c → x ∈ l) → NoDup l → (∀ x, x ∈ l → x ∉ c → f x = g x) →
  (total f l + total g c = total g l + total f c)%nat.
Proof.
  intros Hc Hsub Hl Hfg. destruct (submseteq_Permutation c l) as [k Hk]; [by apply NoDup_submseteq|].
  rewrite (total_perm f _ _ Hk), (total_perm g _ _ Hk), !total_app. rewrite (total_ext f g k); [lia|].
  intros x Hx. rewrite Hk in Hl. apply NoDup_app in Hl as (_ & Hd & _). apply Hfg; [rewrite Hk; apply elem_of_app; by right|].
  intros Hxc. by apply (Hd x).
Qed.
End sums.

Definition plain (nm : list Z) : Prop := nm ≠ DOT ∧ nm ≠ DOTDOT.
#[export] Instance plain_dec nm : Decision (plain nm).
Proof. unfold plain. apply _. Defined.

Section shape.
Context (inos : list Z) (Hinos : NoDup inos).
Implicit Types (M : Z → option names) (nl : Z → option Z) (m : names) (d j : Z) (nm : list Z).

Definition cnt M j d : nat := match M d with Some m => refs_in m j | None => 0 end.
Definition nrefs M j : nat := total (cnt M j) inos.

Definition linked_in nl j : Prop := j ∈ inos ∧ ∃ n, nl j = Some n ∧ n ≠ 0.

(** [M] has the names of the directories that are in the tree, [nl] the link
    counts of all inodes in use. *)
Record shape M nl : Prop := {
  sh_dom : ∀ d m, M d = Some m → d ∈ inos;
  sh_root : ∃ m, M ROOTINO = Some m ∧ m !! DOTDOT = Some ROOTINO;
  sh_dots : ∀ d m, M d = Some m → m !! DOT = Some d ∧ ∃ p, m !! DOTDOT = Some p;
  sh_live : ∀ d m nm j, M d = Some m → m !! nm = Some j → linked_in nl j;
  sh_child : ∀ d m nm j mj, M d = Some m → m !! nm = Some j → plain nm → M j = Some mj →
    j ≠ ROOTINO ∧ j ≠ d ∧ mj !! DOTDOT = Some d;
  sh_named : ∀ j mj, M j = Some mj → j ≠ ROOTINO →
    ∃ d m nm, M d = Some m ∧ m !! nm = Some j ∧ plain nm ∧ ∀ nm', plain nm' → m !! nm' = Some j → nm' = nm;
  sh_depth : ∃ depth : Z → nat, ∀ d m nm j mj, M d = Some m → m !! nm = Some j → plain nm → M j = Some mj → (depth d < depth j)%nat;
  sh_count : ∀ j n, j ∈ inos → nl j = Some n → n = Z.of_nat (nrefs M j)
}.

Lemma nrefs_zero M j : nrefs M j = 0%nat ↔ ∀ d m nm, d ∈ inos → M d = Some m → nm ≠ DOT → m !! nm ≠ Some j.
Proof.
  unfold nrefs. rewrite total_zero. unfold cnt. split.
  - intros H d m nm Hd Hm. specialize (H d Hd). rewrite Hm in H. revert nm. by apply refs_in_zero.
  - intros H d Hd. destruct (M d) as [m|] eqn:Hm; [|done]. apply refs_in_zero. intros nm. by apply (H d).
Qed.

(** A count after a change of some directories. *)
Lemma nrefs_change M M' (c : list Z) j :
  NoDup c → (∀ x, x ∈ c → x ∈ inos) → (∀ x, x ∉ c → M' x = M x) →
  (nrefs M' j + total (cnt M j) c = nrefs M j + total (cnt M' j) c)%nat.
Proof using Hinos.
  intros Hc Hsub Heq. unfold nrefs. symmetry. apply total_change; [done|done|done|]. intros x _ Hx. unfold cnt. by rewrite Heq.
Qed.

Lemma entry_counts M nl d m nm j : shape M nl → M d = Some m → m !! nm = Some j → nm ≠ DOT → nrefs M j ≠ 0%nat.
Proof. intros Hs Hm Hj Hnm H0. rewrite nrefs_zero in H0. apply (H0 d m nm); [by apply (sh_dom _ _ Hs d m)|done..]. Qed.

(** An inode that is not in use has no entries. *)
Lemma free_nrefs M nl j : shape M nl → nl j = None → nrefs M j = 0%nat.
Proof.
  intros Hs Hj. apply nrefs_zero. intros d m nm _ Hm _ He. destruct (sh_live _ _ Hs d m nm j Hm He) as (_ & n & Hn & _). congruence.
Qed.

(** Names of a directory, its own [.] apart, that are in the map of [x]. *)
Lemma entry_not_dot M nl x m y j : shape M nl → M x = Some m → m !! y = Some j → M j = None → y ≠ DOT.
Proof. intros Hs Hx Hy Hj ->. destruct (sh_dots _ _ Hs x m Hx) as [Hd _]. congruence. Qed.

Lemma shape_ext M nl M' nl' : shape M nl → (∀ x, M' x = M x) → (∀ x, x ∈ inos → nl' x = nl x) → shape M' nl'.
Proof.
  intros [H1 H2 H3 H4 H5 H6 [depth Hdep] H7] HM Hnl. assert (∀ j, nrefs M' j = nrefs M j) as Hn by (intros j; apply total_ext; intros x _; unfold cnt; by rewrite HM).
  split.
  - intros d m. rewrite HM. apply H1.
  - by rewrite HM.
  - intros d m. rewrite HM. apply H3.
  - intros d m nm j. rewrite HM. intros Hm Hj. destruct (H4 d m nm j Hm Hj) as (Hin & n & Hn' & ?). split; [done|]. exists n. by rewrite Hnl.
  - intros d m nm j mj. rewrite !HM. apply H5.
  - intros j mj. rewrite HM. intros Hj Hr. destruct (H6 j mj Hj Hr) as (d & m & nm & Hd & ?). exists d, m, nm. by rewrite HM.
  - exists depth. intros d m nm j mj. rewrite !HM. apply Hdep.
  - intros j n Hj. rewrite Hnl, Hn by done. by apply H7.
Qed.

(** Every directory is reached from the root by exactly one path of names. *)
Fixpoint down M d (es : list (list Z)) : option Z :=
  match es with
  | [] => Some d
  | nm :: es' => m ← M d; j ← m !! nm; down M j es'
  end.

Lemma down_snoc M d es nm j : down M d (es ++ [nm]) = Some j ↔ ∃ p m, down M d es = Some p ∧ M p = Some m ∧ m !! nm = Some j.
Proof.
  revert d. induction es as [|e es IH]; intros d; cbn.
  - split.
    + destruct (M d) as [m|] eqn:Hm; [|done]. cbn. destruct (m !! nm) as [x|] eqn:Hx; [|done]. cbn. intros [= ->]. by exists d, m.
    + intros (p & m & [= <-] & Hm & Hx). rewrite Hm. cbn. by rewrite Hx.
  - destruct (M d) as [m|]; cbn; [destruct (m !! e) as [x|]; cbn; [apply IH|]|]; (split; [done|by intros (? & ? & ? & _)]).
Qed.

Lemma shape_path M nl d m :
  shape M nl → M d = Some m → ∃ es, Forall plain es ∧ down M ROOTINO es = Some d ∧ ∀ es', Forall plain es' → down M ROOTINO es' = Some d → es' = es.
Proof.
  intros Hs. destruct (sh_depth _ _ Hs) as [depth Hdep]. remember (depth d) as n eqn:Hn. revert d m Hn.
  induction (lt_wf n) as [n _ IH]. intros d m -> Hd. destruct (decide (d = ROOTINO)) as [->|Hr].
  - exists []. split_and!; [done|done|]. intros es' Hp Hdown. destruct es' as [|nm es _] using rev_ind; [done|]. exfalso.
    apply down_snoc in Hdown as (p & mp & _ & Hmp & Hnm). apply Forall_app in Hp as [_ Hp]. rewrite Forall_singleton in Hp.
    by destruct (sh_child _ _ Hs p mp nm ROOTINO m Hmp Hnm Hp Hd).
  - destruct (sh_named _ _ Hs d m Hd Hr) as (p & mp & nm & Hmp & Hnm & Hp & Hu). pose proof (sh_child _ _ Hs p mp nm d m Hmp Hnm Hp Hd) as (_ & _ & Hpd).
    destruct (IH (depth p) ltac:(by eapply Hdep) p mp eq_refl Hmp) as (es & Hes & Hdown & Huniq). exists (es ++ [nm]). split_and!.
    + apply Forall_app. by split; [|apply Forall_singleton].
    + apply down_snoc. by exists p, mp.
    + intros es' Hp' Hdown'. destruct es' as [|nm' es' _] using rev_ind; [cbn in Hdown'; congruence|].
      apply down_snoc in Hdown' as (p' & mp' & Hd' & Hmp' & Hnm'). apply Forall_app in Hp' as [Hes' Hp']. rewrite Forall_singleton in Hp'.
      destruct (sh_child _ _ Hs p' mp' nm' d m Hmp' Hnm' Hp' Hd) as (_ & _ & Hpd'). assert (p' = p) as -> by congruence.
      assert (mp' = mp) as -> by congruence. by rewrite (Hu nm' Hp' Hnm'), (Huniq es').
Qed.

(** An inode without links is freed. *)
Lemma shape_gone M nl nl' j : shape M nl → nl j = Some 0 → (∀ x, x ≠ j → nl' x = nl x) → nl' j = None → shape M nl'.
Proof.
  intros [H1 H2 H3 H4 H5 H6 H8 H7] Hj Hnl Hj'. split; try done.
  - intros d m nm x Hm Hx. destruct (H4 d m nm x Hm Hx) as (Hin & n & Hn & Hn0). split; [done|]. exists n. rewrite Hnl; [done|]. intros ->. congruence.
  - intros x n Hx. destruct (decide (x = j)) as [->|Hne]; [by rewrite Hj'|]. rewrite Hnl by done. by apply H7.
Qed.

(** ** A name for a file *)
Lemma shape_add M nl M' nl' d m nm j :
  shape M nl → M d = Some m → m !! nm = None → M j = None → j ∈ inos →
  M' d = Some (<[nm := j]> m) → (∀ x, x ≠ d → M' x = M x) →
  nl' j = Some (Z.of_nat (nrefs M j + 1)) → (∀ x, x ≠ j → nl' x = nl x) → shape M' nl'.
Proof using Hinos.
  intros Hs Hd Hnm Hj Hji Hd' Ho' Hnj Hno. destruct (sh_dots _ _ Hs d m Hd) as [Hdot (p & Hdd)].
  assert (plain nm) as Hpl by (split; intros ->; congruence). assert (d ∈ inos) as Hdi by (by apply (sh_dom _ _ Hs d m)).
  assert (j ≠ d) as Hjd by congruence.
  (* every directory, with what it had before *)
  assert (∀ x mx, M' x = Some mx → ∃ m0, M x = Some m0 ∧ ∀ y, y ≠ nm ∨ x ≠ d → mx !! y = m0 !! y) as Hback.
  { intros x mx Hx. destruct (decide (x = d)) as [->|Hxd]; [|rewrite Ho' in Hx by done; by exists mx].
    rewrite Hd' in Hx. simplify_eq. exists m. split; [done|]. intros y Hy. rewrite lookup_insert_ne; [done|]. intros ->. by destruct Hy. }
  assert (∀ x, linked_in nl x → linked_in nl' x) as Hlk.
  { intros x (Hx & n & Hn & Hn0). split; [done|]. destruct (decide (x = j)) as [->|]; [|exists n; by rewrite Hno]. eexists. split; [done|]. lia. }
  assert (∀ x mx y z, M' x = Some mx → mx !! y = Some z → (x = d ∧ y = nm ∧ z = j) ∨ ∃ m0, M x = Some m0 ∧ m0 !! y = Some z) as Hent.
  { intros x mx y z Hx Hy. destruct (Hback x mx Hx) as (m0 & Hm0 & Heq). destruct (decide (y = nm ∧ x = d)) as [[-> ->]|Hne].
    - left. rewrite Hd' in Hx. simplify_eq. rewrite lookup_insert_eq in Hy. by simplify_eq.
    - right. exists m0. rewrite <- Heq; [done|]. destruct (decide (y = nm)) as [->|]; [right; intros ->; by apply Hne|by left]. }
  split.
  - intros x mx Hx. destruct (Hback x mx Hx) as (m0 & Hm0 & _). by apply (sh_dom _ _ Hs x m0).
  - destruct (sh_root _ _ Hs) as (mr & Hr & Hrd). destruct (decide (ROOTINO = d)) as [<-|Hne].
    + eexists. split; [done|]. rewrite lookup_insert_ne by (by intros ->; apply Hpl). congruence.
    + exists mr. by rewrite Ho'.
  - intros x mx Hx. destruct (Hback x mx Hx) as (m0 & Hm0 & Heq). destruct (sh_dots _ _ Hs x m0 Hm0) as [H1 H2].
    rewrite !Heq by (left; intros E; subst nm; by destruct Hpl). done.
  - intros x mx y z Hx Hy. destruct (Hent x mx y z Hx Hy) as [(-> & -> & ->)|(m0 & Hm0 & Hz)].
    + split; [done|]. eexists. split; [done|]. lia.
    + apply Hlk. by apply (sh_live _ _ Hs x m0 y).
  - intros x mx y z mz Hx Hy Hpy Hz. destruct (Hback z mz Hz) as (mz0 & Hmz0 & Heq). destruct (Hent x mx y z Hx Hy) as [(-> & -> & ->)|(m0 & Hm0 & Hz0)].
    + congruence.
    + destruct (sh_child _ _ Hs x m0 y z mz0 Hm0 Hz0 Hpy Hmz0) as (H1 & H2 & H3). split_and!; try done.
      rewrite Heq; [done|]. left. intros E. subst nm. by destruct Hpl.
  - intros x mx Hx Hxr. destruct (Hback x mx Hx) as (m0 & Hm0 & _). destruct (sh_named _ _ Hs x m0 Hm0 Hxr) as (p' & mp & y & Hp & Hy & Hpy & Hu).
    assert (x ≠ j) as Hxj by congruence.
    assert (∃ mp', M' p' = Some mp' ∧ mp' !! y = Some x) as (mp' & Hp' & Hy').
    { destruct (decide (p' = d)) as [->|]; [|exists mp; by rewrite Ho']. eexists. split; [done|]. rewrite Hd in Hp. simplify_eq.
      rewrite lookup_insert_ne; [done|]. intros ->. congruence. }
    exists p', mp', y. split_and!; try done. intros y' Hpy' Hy2. apply Hu; [done|].
    destruct (Hent p' mp' y' x Hp' Hy2) as [(_ & _ & ?)|(m1 & Hm1 & ?)]; congruence.
  - destruct (sh_depth _ _ Hs) as [depth Hdep]. exists depth. intros x mx y z mz Hx Hy Hpy Hz. destruct (Hback z mz Hz) as (mz0 & Hmz0 & _).
    destruct (Hent x mx y z Hx Hy) as [(-> & -> & ->)|(m0 & Hm0 & Hz0)]; [congruence|]. by apply (Hdep x m0 y z mz0).
  - intros x n Hx Hn. pose proof (nrefs_change M M' [d] x (NoDup_singleton d)) as Hc. cbn in Hc. unfold cnt in Hc. rewrite Hd, Hd' in Hc.
    rewrite refs_in_insert in Hc by done. specialize (Hc ltac:(set_solver) ltac:(intros y Hy; apply Ho'; set_solver)).
    destruct (decide (x = j)) as [->|Hxj].
    + rewrite Hnj in Hn. simplify_eq. rewrite decide_True in Hc by (split; [done|apply Hpl]). lia.
    + rewrite Hno in Hn by done. rewrite decide_False in Hc by (intros [E _]; congruence). rewrite (sh_count _ _ Hs x n Hx Hn). lia.
Qed.

(** ** Removing the name of a file *)
Lemma shape_del M nl M' nl' d m nm j :
  shape M nl → M d = Some m → m !! nm = Some j → plain nm → M j = None →
  M' d = Some (delete nm m) → (∀ x, x ≠ d → M' x = M x) →
  (nl' j = Some (Z.of_nat (nrefs M j) - 1) ∨ nl' j = None ∧ nrefs M j = 1%nat) → (∀ x, x ≠ j → nl' x = nl x) → shape M' nl'.
Proof using Hinos.
  intros Hs Hd Hnm Hpl Hj Hd' Ho' Hnj Hno. assert (d ∈ inos) as Hdi by (by apply (sh_dom _ _ Hs d m)).
  assert (j ∈ inos) as Hji by (by apply (sh_live _ _ Hs d m nm)).
  assert (∀ x mx, M' x = Some mx → ∃ m0, M x = Some m0 ∧ (∀ y z, mx !! y = Some z → m0 !! y = Some z) ∧ ∀ y, ¬ plain y → mx !! y = m0 !! y) as Hback.
  { intros x mx Hx. destruct (decide (x = d)) as [->|Hxd]; [|rewrite Ho' in Hx by done; by exists mx].
    rewrite Hd' in Hx. apply Some_inj in Hx as <-. exists m. split_and!; [done|intros y z Hy; by apply lookup_delete_Some in Hy as [_ ?]|].
    intros y Hy. rewrite lookup_delete_ne; [done|]. by intros <-. }
  assert (∀ x, nrefs M x = nrefs M' x + if decide (x = j) then 1 else 0)%nat as Hcnt.
  { intros x. pose proof (nrefs_change M M' [d] x (NoDup_singleton d)) as Hc. cbn in Hc. unfold cnt in Hc. rewrite Hd, Hd' in Hc.
    rewrite (refs_in_delete m nm j x Hnm) in Hc.
    specialize (Hc ltac:(intros y Hy; by apply list_elem_of_singleton in Hy as ->) ltac:(intros y Hy; apply Ho'; by rewrite list_elem_of_singleton in Hy)).
    destruct (decide (x = j)) as [->|Hx]; [rewrite decide_True in Hc by (split; [done|apply Hpl])|rewrite decide_False in Hc by (intros [? _]; congruence)]; lia. }
  split.
  - intros x mx Hx. destruct (Hback x mx Hx) as (m0 & Hm0 & _). by apply (sh_dom _ _ Hs x m0).
  - destruct (sh_root _ _ Hs) as (mr & Hr & Hrd). destruct (decide (ROOTINO = d)) as [<-|Hne].
    + eexists. split; [done|]. rewrite lookup_delete_ne by (intros ->; by destruct Hpl). congruence.
    + exists mr. by rewrite Ho'.
  - intros x mx Hx. destruct (Hback x mx Hx) as (m0 & Hm0 & _ & Heq). rewrite !Heq by (intros [? ?]; congruence). by apply (sh_dots _ _ Hs).
  - intros x mx y z Hx Hy. destruct (Hback x mx Hx) as (m0 & Hm0 & Hsub & _). pose proof (Hsub y z Hy) as Hy0.
    destruct (sh_live _ _ Hs x m0 y z Hm0 Hy0) as (Hz & n & Hn & Hn0). split; [done|].
    destruct (decide (z = j)) as [->|]; [|exists n; by rewrite Hno].
    assert (nrefs M' j ≠ 0%nat) as Hpos.
    { intros H0. rewrite nrefs_zero in H0. apply (H0 x mx y); [by apply (sh_dom _ _ Hs x m0)|done| |done]. by eapply entry_not_dot. }
    specialize (Hcnt j). rewrite decide_True in Hcnt by done. destruct Hnj as [Hnj|[_ Hnj]]; [|lia]. eexists. split; [exact Hnj|]. lia.
  - intros x mx y z mz Hx Hy Hpy Hz. destruct (Hback x mx Hx) as (m0 & Hm0 & Hsub & _). destruct (Hback z mz Hz) as (mz0 & Hmz0 & _ & Heq).
    rewrite Heq by (intros [? ?]; congruence). by apply (sh_child _ _ Hs x m0 y z mz0 Hm0 (Hsub y z Hy) Hpy).
  - intros x mx Hx Hxr. destruct (Hback x mx Hx) as (m0 & Hm0 & _). destruct (sh_named _ _ Hs x m0 Hm0 Hxr) as (p' & mp & y & Hp & Hy & Hpy & Hu).
    assert (∃ mp', M' p' = Some mp' ∧ mp' !! y = Some x) as (mp' & Hp' & Hy').
    { destruct (decide (p' = d)) as [->|]; [|exists mp; by rewrite Ho']. eexists. split; [done|]. rewrite Hd in Hp. apply Some_inj in Hp as <-.
      rewrite lookup_delete_ne; [done|]. intros <-. congruence. }
    destruct (Hback p' mp' Hp') as (mp0 & Hmp0 & Hsub & _). rewrite Hp in Hmp0. apply Some_inj in Hmp0 as <-.
    exists p', mp', y. split_and!; try done. intros y' Hpy' Hy2. apply Hu; [done|]. by apply Hsub.
  - destruct (sh_depth _ _ Hs) as [depth Hdep]. exists depth. intros x mx y z mz Hx Hy Hpy Hz. destruct (Hback x mx Hx) as (m0 & Hm0 & Hsub & _).
    destruct (Hback z mz Hz) as (mz0 & Hmz0 & _). by apply (Hdep x m0 y z mz0); [|apply Hsub|..].
  - intros x n Hx Hn. specialize (Hcnt x). destruct (decide (x = j)) as [->|Hxj].
    + destruct Hnj as [Hnj|[Hnj _]]; [|congruence]. rewrite Hnj in Hn. apply Some_inj in Hn as <-. lia.
    + rewrite Hno in Hn by done. rewrite (sh_count _ _ Hs x n Hx Hn). lia.
Qed.

(** ** A new directory *)
Definition new_dir (d p : Z) : names := <[DOT := d]> (<[DOTDOT := p]> ∅).

Lemma new_dir_refs d p j : refs_in (new_dir d p) j = if decide (p = j) then 1%nat else 0%nat.
Proof.
  unfold new_dir. rewrite !refs_in_insert; [|by rewrite lookup_empty|by rewrite lookup_insert_ne, lookup_empty].
  assert (refs_in ∅ j = 0%nat) as -> by (apply refs_in_zero; intros nm _; by rewrite lookup_empty).
  rewrite (decide_False (P := d = j ∧ DOT ≠ DOT)) by (by intros [_ ?]). case_decide as H1; case_decide as H2; try done; [by destruct H1|].
  exfalso. by apply H1.
Qed.
Lemma new_dir_lookup d p nm j : new_dir d p !! nm = Some j → nm = DOT ∧ j = d ∨ nm = DOTDOT ∧ j = p.
Proof.
  unfold new_dir. intros H. apply lookup_insert_Some in H as [[<- <-]|[_ H]]; [by left|].
  apply lookup_insert_Some in H as [[<- <-]|[_ H]]; [by right|by rewrite lookup_empty in H].
Qed.

Lemma shape_mkdir M nl M' nl' d m nm i :
  shape M nl → M d = Some m → m !! nm = None → M i = None → nl i = None → i ∈ inos →
  M' d = Some (<[nm := i]> m) → M' i = Some (new_dir i d) → (∀ x, x ≠ d → x ≠ i → M' x = M x) →
  nl' i = Some 1 → nl' d = Some (Z.of_nat (nrefs M d) + 1) → (∀ x, x ≠ d → x ≠ i → nl' x = nl x) → shape M' nl'.
Proof using Hinos.
  intros Hs Hd Hnm Hi Hni Hii Hd' Hi' Ho' Hni' Hnd' Hno. destruct (sh_dots _ _ Hs d m Hd) as [Hdot (p & Hdd)].
  assert (plain nm) as Hpl by (split; intros ->; congruence). assert (d ∈ inos) as Hdi by (by apply (sh_dom _ _ Hs d m)).
  assert (d ≠ i) as Hdi' by congruence. destruct (sh_root _ _ Hs) as (mr & Hr & Hrd). assert (i ≠ ROOTINO) as Hir by congruence.
  assert (∀ x mx y, M x = Some mx → mx !! y ≠ Some i) as Hnone.
  { intros x mx y Hx Hy. destruct (sh_live _ _ Hs x mx y i Hx Hy) as (_ & n & Hn & _). congruence. }
  assert (∀ x mx, M' x = Some mx → (x = i ∧ mx = new_dir i d) ∨ x ≠ i ∧ ∃ m0, M x = Some m0 ∧
    (∀ y z, mx !! y = Some z → (x = d ∧ y = nm ∧ z = i) ∨ m0 !! y = Some z) ∧ (∀ y z, m0 !! y = Some z → mx !! y = Some z)) as Hback.
  { intros x mx Hx. destruct (decide (x = i)) as [->|Hxi]; [left; split; [done|congruence]|right]. split; [done|].
    destruct (decide (x = d)) as [->|Hxd]; [|rewrite Ho' in Hx by done; exists mx; split_and!; [done|by right|done]].
    rewrite Hd' in Hx. apply Some_inj in Hx as <-. exists m. split_and!; [done|..].
    - intros y z Hy. apply lookup_insert_Some in Hy as [[<- <-]|[_ Hy]]; [by left|by right].
    - intros y z Hy. rewrite lookup_insert_ne; [done|]. intros <-. congruence. }
  assert (∀ x, linked_in nl x → linked_in nl' x) as Hlk.
  { intros x (Hx & n & Hn & Hn0). split; [done|]. destruct (decide (x = d)) as [->|]; [eexists; split; [done|lia]|].
    exists n. rewrite Hno; [done|done|congruence]. }
  assert (linked_in nl d) as Hld by (by apply (sh_live _ _ Hs d m DOT)).
  assert (linked_in nl' i) as Hli by (split; [done|]; by exists 1).
  split.
  - intros x mx Hx. destruct (Hback x mx Hx) as [[-> _]|(_ & m0 & Hm0 & _)]; [done|]. by apply (sh_dom _ _ Hs x m0).
  - destruct (decide (ROOTINO = d)) as [<-|Hne].
    + eexists. split; [done|]. rewrite lookup_insert_ne by (intros ->; by destruct Hpl). congruence.
    + exists mr. rewrite Ho' by done. done.
  - intros x mx Hx. destruct (Hback x mx Hx) as [[-> ->]|(_ & m0 & Hm0 & _ & Hsup)].
    + split; [by unfold new_dir; rewrite lookup_insert_eq|]. exists d. unfold new_dir. by rewrite lookup_insert_ne, lookup_insert_eq.
    + destruct (sh_dots _ _ Hs x m0 Hm0) as [H1 (q & H2)]. split; [by apply Hsup|]. exists q. by apply Hsup.
  - intros x mx y z Hx Hy. destruct (Hback x mx Hx) as [[-> ->]|(_ & m0 & Hm0 & Hsub & _)].
    + destruct (new_dir_lookup _ _ _ _ Hy) as [[_ ->]|[_ ->]]; [done|by apply Hlk].
    + destruct (Hsub y z Hy) as [(_ & _ & ->)|Hz]; [done|]. by apply Hlk, (sh_live _ _ Hs x m0 y).
  - intros x mx y z mz Hx Hy Hpy Hz. destruct (Hback x mx Hx) as [[-> ->]|(Hxi & m0 & Hm0 & Hsub & _)].
    { destruct (new_dir_lookup _ _ _ _ Hy) as [[-> _]|[-> _]]; by destruct Hpy. }
    destruct (Hsub y z Hy) as [(-> & -> & ->)|Hz0].
    + rewrite Hi' in Hz. apply Some_inj in Hz as <-. split_and!; [done|done|]. unfold new_dir. by rewrite lookup_insert_ne, lookup_insert_eq.
    + destruct (Hback z mz Hz) as [[-> _]|(_ & mz0 & Hmz0 & _ & Hsup)]; [by destruct (Hnone _ _ _ Hm0 Hz0)|].
      destruct (sh_child _ _ Hs x m0 y z mz0 Hm0 Hz0 Hpy Hmz0) as (H1 & H2 & H3). split_and!; try done. by apply Hsup.
  - intros x mx Hx Hxr. destruct (Hback x mx Hx) as [[-> ->]|(Hxi & m0 & Hm0 & _)].
    + exists d, (<[nm := i]> m), nm. split_and!; [done|by rewrite lookup_insert_eq|done|]. intros nm' _ Hy.
      apply lookup_insert_Some in Hy as [[<- _]|[_ Hy]]; [done|by destruct (Hnone _ _ _ Hd Hy)].
    + destruct (sh_named _ _ Hs x m0 Hm0 Hxr) as (p' & mp & y & Hp & Hy & Hpy & Hu).
      assert (p' ≠ i) as Hpi by congruence. assert (∃ mp', M' p' = Some mp') as [mp' Hp'].
      { destruct (decide (p' = d)) as [->|]; [by eexists|]. exists mp. by rewrite Ho'. }
      destruct (Hback p' mp' Hp') as [[? _]|(_ & mp0 & Hmp0 & Hsub & Hsup)]; [done|]. rewrite Hp in Hmp0. apply Some_inj in Hmp0 as <-.
      exists p', mp', y. split_and!; [done|by apply Hsup|done|]. intros y' Hpy' Hy2. apply Hu; [done|].
      destruct (Hsub y' x Hy2) as [(_ & _ & ?)|?]; [congruence|done].
  - destruct (sh_depth _ _ Hs) as [depth Hdep]. exists (λ x, if decide (x = i) then S (depth d) else depth x).
    intros x mx y z mz Hx Hy Hpy Hz. destruct (Hback x mx Hx) as [[-> ->]|(Hxi & m0 & Hm0 & Hsub & _)].
    { destruct (new_dir_lookup _ _ _ _ Hy) as [[-> _]|[-> _]]; by destruct Hpy. }
    rewrite (decide_False (P := x = i)) by done. destruct (Hsub y z Hy) as [(-> & -> & ->)|Hz0]; [rewrite decide_True by done; lia|].
    destruct (Hback z mz Hz) as [[-> _]|(Hzi & mz0 & Hmz0 & _)]; [by destruct (Hnone _ _ _ Hm0 Hz0)|]. rewrite decide_False by done. by apply (Hdep x m0 y z mz0).
  - intros x n Hx Hn. pose proof (nrefs_change M M' [d; i] x) as Hc. cbn in Hc. unfold cnt in Hc. rewrite Hd, Hi, Hd', Hi' in Hc.
    rewrite refs_in_insert, new_dir_refs in Hc by done. specialize (Hc ltac:(by apply NoDup_cons; split; [rewrite list_elem_of_singleton|apply NoDup_singleton])).
    specialize (Hc ltac:(intros y Hy; rewrite elem_of_cons, list_elem_of_singleton in Hy; destruct Hy as [->| ->]; done)).
    specialize (Hc ltac:(intros y Hy; rewrite elem_of_cons, list_elem_of_singleton in Hy; apply Ho'; intros ->; apply Hy; auto)).
    destruct (decide (x = i)) as [->|Hxi].
    + rewrite Hni' in Hn. apply Some_inj in Hn as <-. rewrite decide_True in Hc by (split; [done|apply Hpl]). rewrite decide_False in Hc by done.
      rewrite (free_nrefs M nl i Hs Hni) in Hc. lia.
    + rewrite decide_False in Hc by (intros [? _]; congruence). destruct (decide (x = d)) as [->|Hxd].
      * rewrite Hnd' in Hn. apply Some_inj in Hn as <-. rewrite decide_True in Hc by done. lia.
      * rewrite Hno in Hn by done. rewrite decide_False in Hc by congruence. rewrite (sh_count _ _ Hs x n Hx Hn). lia.
Qed.

(** ** Removing an empty directory *)
Definition no_plain m : Prop := ∀ y, plain y → m !! y = None.

Lemma empty_dir M nl j mj p : shape M nl → M j = Some mj → no_plain mj → mj !! DOTDOT = Some p → mj = new_dir j p.
Proof.
  intros Hs Hj Hno Hp. destruct (sh_dots _ _ Hs j mj Hj) as [Hd _]. apply map_eq. intros y. unfold new_dir.
  destruct (decide (y = DOT)) as [->|H1]; [by rewrite lookup_insert_eq|]. rewrite lookup_insert_ne by done.
  destruct (decide (y = DOTDOT)) as [->|H2]; [by rewrite lookup_insert_eq|]. rewrite lookup_insert_ne, lookup_empty by done. by apply Hno.
Qed.

(** The only link to an empty directory is its name. *)
Lemma empty_dir_links M nl d m nm j mj :
  shape M nl → M d = Some m → m !! nm = Some j → plain nm → M j = Some mj → no_plain mj →
  ∀ x mx y, M x = Some mx → mx !! y = Some j → y ≠ DOT → x = d ∧ y = nm.
Proof.
  intros Hs Hd Hnm Hpl Hj Hno x mx y Hx Hy Hyd. destruct (sh_child _ _ Hs d m nm j mj Hd Hnm Hpl Hj) as (Hjr & Hjd & Hjp).
  destruct (decide (y = DOTDOT)) as [->|Hydd].
  - exfalso. destruct (decide (x = ROOTINO)) as [->|Hxr]; [destruct (sh_root _ _ Hs) as (mr & Hr & Hrd); congruence|].
    destruct (sh_named _ _ Hs x mx Hx Hxr) as (p & mp & y & Hp & Hpy & Hyp & _).
    destruct (sh_child _ _ Hs p mp y x mx Hp Hpy Hyp Hx) as (_ & _ & Hxp). assert (p = j) as -> by congruence.
    rewrite Hj in Hp. apply Some_inj in Hp as <-. by rewrite Hno in Hpy.
  - assert (plain y) as Hply by done. destruct (sh_child _ _ Hs x mx y j mj Hx Hy Hply Hj) as (_ & _ & Hjx).
    assert (x = d) as -> by congruence. split; [done|]. rewrite Hd in Hx. apply Some_inj in Hx as <-.
    destruct (sh_named _ _ Hs j mj Hj Hjr) as (p & mp & y0 & Hp & Hpy & Hyp & Hu).
    destruct (sh_child _ _ Hs p mp y0 j mj Hp Hpy Hyp Hj) as (_ & _ & Hjp2). assert (p = d) as -> by congruence.
    rewrite Hd in Hp. apply Some_inj in Hp as <-. by rewrite (Hu y), (Hu nm).
Qed.

Section rmdir.
Context M nl M' d m nm j (mj : names).
Hypothesis Hs : shape M nl.
Hypothesis Hd : M d = Some m.
Hypothesis Hnm : m !! nm = Some j.
Hypothesis Hpl : plain nm.
Hypothesis Hj : M j = Some mj.
Hypothesis Hno : no_plain mj.
Hypothesis Hd' : M' d = Some (delete nm m).
Hypothesis Hj' : M' j = None.
Hypothesis Ho' : ∀ x, x ≠ d → x ≠ j → M' x = M x.

Lemma rm_child : j ≠ ROOTINO ∧ j ≠ d ∧ mj !! DOTDOT = Some d.
Proof using Hs Hd Hnm Hpl Hj. by apply (sh_child _ _ Hs d m nm j mj). Qed.

Lemma rm_back x mx :
  M' x = Some mx → x ≠ j ∧ ∃ m0, M x = Some m0 ∧ (∀ y z, mx !! y = Some z ↔ m0 !! y = Some z ∧ ¬ (x = d ∧ y = nm)).
Proof using All.
  intros Hx. assert (x ≠ j) as Hxj by congruence. split; [done|]. destruct (decide (x = d)) as [->|Hxd].
  - rewrite Hd' in Hx. apply Some_inj in Hx as <-. exists m. split; [done|]. intros y z. rewrite lookup_delete_Some. naive_solver.
  - rewrite Ho' in Hx by done. exists mx. split; [done|]. intros y z. naive_solver.
Qed.
Lemma rm_fwd x : x ≠ j → is_Some (M x) → is_Some (M' x).
Proof using Hd' Ho'. intros Hxj Hx. destruct (decide (x = d)) as [->|]; [by eexists|by rewrite Ho']. Qed.

(** [j] had one link and took one from [d] with it. *)
Lemma rm_cnt x : (nrefs M x = nrefs M' x + (if decide (x = j) then 1 else 0) + if decide (x = d) then 1 else 0)%nat.
Proof using All.
  destruct rm_child as (Hjr & Hjd & Hjp). pose proof (empty_dir M nl j mj d Hs Hj Hno Hjp) as Hmj.
  assert (d ∈ inos) as Hdi by (by apply (sh_dom _ _ Hs d m)). assert (j ∈ inos) as Hji by (by apply (sh_dom _ _ Hs j mj)).
  pose proof (nrefs_change M M' [d; j] x) as Hc. cbn in Hc. unfold cnt in Hc. rewrite Hd, Hj, Hd', Hj', Hmj, new_dir_refs in Hc.
  rewrite (refs_in_delete m nm j x Hnm) in Hc. specialize (Hc ltac:(by apply NoDup_cons; split; [rewrite list_elem_of_singleton|apply NoDup_singleton])).
  specialize (Hc ltac:(intros y Hy; rewrite elem_of_cons, list_elem_of_singleton in Hy; destruct Hy as [->| ->]; done)).
  specialize (Hc ltac:(intros y Hy; rewrite elem_of_cons, list_elem_of_singleton in Hy; apply Ho'; intros ->; apply Hy; auto)).
  destruct (decide (x = j)) as [->|Hxj]; [rewrite decide_True in Hc by (split; [done|apply Hpl])|rewrite decide_False in Hc by (intros [? _]; congruence)];
    repeat case_decide; try congruence; lia.
Qed.
Lemma rm_gone : nrefs M' j = 0%nat.
Proof using All.
  apply nrefs_zero. intros x mx y _ Hx Hyd Hy. destruct (rm_back x mx Hx) as (_ & m0 & Hm0 & Heq). destruct (proj1 (Heq y j) Hy) as [Hy2 Hne].
  by apply Hne, (empty_dir_links M nl d m nm j mj Hs Hd Hnm Hpl Hj Hno x m0 y).
Qed.

(** Names of directories other than [j] stay. *)
Lemma rm_named x mx :
  M' x = Some mx → x ≠ ROOTINO → ∃ p mp y, M' p = Some mp ∧ mp !! y = Some x ∧ plain y ∧ ∀ y', plain y' → mp !! y' = Some x → y' = y.
Proof using All.
  intros Hx Hxr. destruct (rm_back x mx Hx) as (Hxj & m0 & Hm0 & _). destruct (sh_named _ _ Hs x m0 Hm0 Hxr) as (p & mp & y & Hp & Hy & Hpy & Hu).
  assert (p ≠ j) as Hpj. { intros ->. rewrite Hj in Hp. apply Some_inj in Hp as <-. by rewrite Hno in Hy. }
  destruct (rm_fwd p Hpj ltac:(by eexists)) as [mp' Hp']. destruct (rm_back p mp' Hp') as (_ & mp0 & Hmp0 & Heq). rewrite Hp in Hmp0. apply Some_inj in Hmp0 as <-.
  exists p, mp', y. split_and!; [done| |done|].
  - apply Heq. split; [done|]. intros [-> ->]. congruence.
  - intros y' Hpy' Hy'. apply Hu; [done|]. by apply Heq in Hy' as [? _].
Qed.
Lemma rm_root : ∃ mr, M' ROOTINO = Some mr ∧ mr !! DOTDOT = Some ROOTINO.
Proof using All.
  destruct rm_child as (Hjr & _). destruct (sh_root _ _ Hs) as (mr & Hr & Hrd). destruct (rm_fwd ROOTINO ltac:(congruence) ltac:(by eexists)) as [mr' Hr'].
  exists mr'. split; [done|]. destruct (rm_back _ _ Hr') as (_ & m0 & Hm0 & Heq). rewrite Hr in Hm0. apply Some_inj in Hm0 as <-.
  apply Heq. split; [done|]. intros [_ <-]. by destruct Hpl.
Qed.
(** Every directory that stays has a link. *)
Lemma rm_pos x mx : M' x = Some mx → nrefs M' x ≠ 0%nat.
Proof using All.
  intros Hx H0. rewrite nrefs_zero in H0. destruct (decide (x = ROOTINO)) as [->|Hxr].
  - destruct rm_root as (mr' & Hr' & Hrd'). destruct (rm_back _ _ Hr') as (_ & mr & Hmr & _). apply (H0 ROOTINO mr' DOTDOT); [by apply (sh_dom _ _ Hs _ mr)|done..].
  - destruct (rm_named x mx Hx Hxr) as (p & mp & y & Hp & Hy & [Hyd _] & _). destruct (rm_back p mp Hp) as (_ & mp0 & Hmp0 & _).
    apply (H0 p mp y); [by apply (sh_dom _ _ Hs _ mp0)|done..].
Qed.

Lemma rm_counts : nrefs M j = 1%nat ∧ (2 ≤ nrefs M d)%nat.
Proof using All.
  destruct rm_child as (_ & Hjd & _). pose proof (rm_cnt j) as H1. pose proof (rm_cnt d) as H2. pose proof (rm_pos d _ Hd') as H3. rewrite rm_gone in H1.
  rewrite decide_True in H1 by done. rewrite decide_False in H1 by done. rewrite decide_False in H2 by done. rewrite decide_True in H2 by done. lia.
Qed.

Context nl'.
Hypothesis Hnd' : nl' d = Some (Z.of_nat (nrefs M d) - 1).
Hypothesis Hnj' : nl' j = None ∨ nl' j = Some 0.
Hypothesis Hnl : ∀ x, x ≠ d → x ≠ j → nl' x = nl x.

Lemma shape_rmdir : shape M' nl'.
Proof using All.
  destruct rm_child as (_ & Hjd & _). destruct rm_counts as [Hnj Hnd]. split.
  - intros x mx Hx. destruct (rm_back x mx Hx) as (_ & m0 & Hm0 & _). by apply (sh_dom _ _ Hs x m0).
  - exact rm_root.
  - intros x mx Hx. destruct (rm_back x mx Hx) as (_ & m0 & Hm0 & Heq). destruct (sh_dots _ _ Hs x m0 Hm0) as [H1 (q & H2)].
    split; [|exists q]; apply Heq; (split; [done|]); intros [_ <-]; by destruct Hpl.
  - intros x mx y z Hx Hy. destruct (rm_back x mx Hx) as (Hxj & m0 & Hm0 & Heq). apply Heq in Hy as [Hy Hne].
    destruct (sh_live _ _ Hs x m0 y z Hm0 Hy) as (Hz & n & Hn & Hn0). split; [done|].
    assert (z ≠ j) as Hzj.
    { intros ->. destruct (decide (y = DOT)) as [->|Hyd]; [destruct (sh_dots _ _ Hs x m0 Hm0); congruence|].
      by apply Hne, (empty_dir_links M nl d m nm j mj Hs Hd Hnm Hpl Hj Hno x m0 y). }
    destruct (decide (z = d)) as [->|Hzd]; [|exists n; by rewrite Hnl]. eexists. split; [done|]. lia.
  - intros x mx y z mz Hx Hy Hpy Hz. destruct (rm_back x mx Hx) as (_ & m0 & Hm0 & Heq). destruct (rm_back z mz Hz) as (_ & mz0 & Hmz0 & Heqz).
    apply Heq in Hy as [Hy _]. destruct (sh_child _ _ Hs x m0 y z mz0 Hm0 Hy Hpy Hmz0) as (H1 & H2 & H3). split_and!; try done.
    apply Heqz. split; [done|]. intros [_ <-]. by destruct Hpl.
  - exact rm_named.
  - destruct (sh_depth _ _ Hs) as [depth Hdep]. exists depth. intros x mx y z mz Hx Hy Hpy Hz. destruct (rm_back x mx Hx) as (_ & m0 & Hm0 & Heq).
    destruct (rm_back z mz Hz) as (_ & mz0 & Hmz0 & _). apply (Hdep x m0 y z mz0); try done. by apply Heq.
  - intros x n Hx Hn. pose proof (rm_cnt x) as Hcnt. destruct (decide (x = j)) as [->|Hxj].
    + rewrite rm_gone. destruct Hnj' as [Hnj0|Hnj0]; rewrite Hnj0 in Hn; [done|]. by apply Some_inj in Hn as <-.
    + destruct (decide (x = d)) as [->|Hxd]; [rewrite Hnd' in Hn; apply Some_inj in Hn as <-; lia|].
      rewrite Hnl in Hn by done. rewrite (sh_count _ _ Hs x n Hx Hn). lia.
Qed.
End rmdir.

(** The link counts of an empty directory and its parent. *)
Lemma empty_dir_counts M nl d m nm j mj :
  shape M nl → M d = Some m → m !! nm = Some j → plain nm → M j = Some mj → no_plain mj → nrefs M j = 1%nat ∧ (2 ≤ nrefs M d)%nat.
Proof using Hinos.
  intros Hs Hd Hnm Hpl Hj Hno. destruct (rm_child M nl d m nm j mj Hs Hd Hnm Hpl Hj) as (_ & Hjd & _).
  apply (rm_counts M nl (λ x, if decide (x = d) then Some (delete nm m) else if decide (x = j) then None else M x) d m nm j mj Hs Hd Hnm Hpl Hj Hno).
  - by rewrite decide_True.
  - by rewrite decide_False, decide_True.
  - intros x ? ?. by rewrite !decide_False.
Qed.
End shape.
