(* ===== verification/DirMap.v ===== *)
(** * The names in a directory

    The content of a directory as the map of its names, what a well-formed
    directory is, and what adding and clearing an entry does to the map. *)

From stdpp Require Import gmap.
From S2P Require Import Prelude.
From S2P Require Import Bytes.
From S2P Require Import CString.
From S2P Require Import Log.
From S2P Require Import Fs.
From S2P Require Import FsDir.
From S2P Require Import FsOps.
From S2P Require Import DirSpec.
From S2P Require Import FsRules.
From S2P Require Import Links.

Local Open Scope Z_scope.

Implicit Types (data e nm : list Z) (n k : nat) (d p j : Z).

Fixpoint dmap_from data n k : names :=
  match n with
  | O => ∅
  | S n' =>
      if decide (dent_inum (entry data k) = 0) then dmap_from data n' (S k)
      else <[dent_name (entry data k) := dent_inum (entry data k)]> (dmap_from data n' (S k))
  end.
Definition dmap data : names := dmap_from data (nentries data) 0.

Lemma dmap_lookup data nm : dmap data !! nm = dlookup data nm.
Proof.
  unfold dmap, dlookup. generalize 0%nat as k. induction (nentries data) as [|n IH]; intros k; [done|]. cbn [dmap_from dfind].
  unfold is_entry. destruct (decide (dent_inum (entry data k) = 0)) as [H0|H0].
  - rewrite (decide_False (P := _ ∧ _)) by (intros [? _]; done). apply IH.
  - destruct (decide (dent_name (entry data k) = nm)) as [<-|Hne].
    + rewrite (decide_True (P := _ ∧ _)) by done. by rewrite lookup_insert_eq.
    + rewrite (decide_False (P := _ ∧ _)) by (intros [_ ?]; done). rewrite lookup_insert_ne by done. apply IH.
Qed.

(** Which entry has a name. *)
Lemma dlookup_Some data nm j :
  dlookup data nm = Some j → ∃ k, (k < nentries data)%nat ∧ dfind data nm (nentries data) 0 = Some k ∧ is_entry nm (entry data k) ∧ dent_inum (entry data k) = j.
Proof.
  unfold dlookup. intros (k & Hk & ->)%fmap_Some. exists k. destruct (dfind_Some _ _ _ _ _ Hk) as (? & ? & _). split_and!; [lia|done|done|done].
Qed.
Lemma dlookup_None data nm : dlookup data nm = None ↔ ∀ k, (k < nentries data)%nat → ¬ is_entry nm (entry data k).
Proof.
  unfold dlookup. rewrite fmap_None, dfind_None. split; intros H k Hk; apply H; lia.
Qed.

(** [.] and [..] come first and no name occurs twice. *)
Record dir_wf d data : Prop := {
  dw_whole : whole data;
  dw_two : (2 ≤ nentries data)%nat;
  dw_dot : is_entry DOT (entry data 0) ∧ dent_inum (entry data 0) = d;
  dw_dotdot : is_entry DOTDOT (entry data 1);
  dw_uniq : ∀ nm k k', (k < nentries data)%nat → (k' < nentries data)%nat →
    is_entry nm (entry data k) → is_entry nm (entry data k') → k = k'
}.

Lemma uniq_lookup data nm k :
  (∀ nm k k', (k < nentries data)%nat → (k' < nentries data)%nat → is_entry nm (entry data k) → is_entry nm (entry data k') → k = k') →
  (k < nentries data)%nat → is_entry nm (entry data k) → dlookup data nm = Some (dent_inum (entry data k)).
Proof.
  intros Hu Hk He. unfold dlookup. rewrite (dfind_first data nm _ 0 k); [done|lia|done|]. intros m Hm Hem.
  assert (m = k); [|lia]. by apply (Hu nm); [lia|..].
Qed.

Lemma dir_wf_dots d data : dir_wf d data → dmap data !! DOT = Some d ∧ dmap data !! DOTDOT = Some (dent_inum (entry data 1)).
Proof.
  intros [Hw H2 [H0 <-] H1 Hu]. rewrite !dmap_lookup. split; by apply uniq_lookup; [|lia|].
Qed.

(** ** Adding an entry *)
Section add.
Context (d : Z) (data e : list Z).
Hypothesis Hw : whole data.
Hypothesis Hu : ∀ nm k k', (k < nentries data)%nat → (k' < nentries data)%nat → is_entry nm (entry data k) → is_entry nm (entry data k') → k = k'.
Hypothesis He : length e = DIRENT.
Hypothesis Hi : dent_inum e ≠ 0.
Hypothesis Hnone : dlookup data (dent_name e) = None.
Let k0 := dfree data (nentries data) 0.

Lemma add_nentries : nentries (with_entry e data) = Nat.max (nentries data) (S k0) ∧ whole (with_entry e data).
Proof using Hw He.
  destruct (dfree_spec data (nentries data) 0) as (Hk & _). unfold with_entry, whole.
  destruct (nentries_overwrite data e (dfree data (nentries data) 0) He Hw) as [H1 H2]; [lia|]. rewrite H2, H1. done.
Qed.
Lemma add_entry k : (k < Nat.max (nentries data) (S k0))%nat → entry (with_entry e data) k = if decide (k = k0) then e else entry data k.
Proof using Hw He. intros Hk. destruct (dfree_spec data (nentries data) 0) as (Hk0 & _). apply entry_overwrite; [done|done|lia|done]. Qed.
(** The entry was free. *)
Lemma add_free nm : (k0 < nentries data)%nat → ¬ is_entry nm (entry data k0).
Proof. intros Hk [H0 _]. destruct (dfree_spec data (nentries data) 0) as (_ & Hz & _). apply H0, Hz. unfold k0 in Hk. lia. Qed.

Lemma add_uniq nm k k' :
  (k < nentries (with_entry e data))%nat → (k' < nentries (with_entry e data))%nat →
  is_entry nm (entry (with_entry e data) k) → is_entry nm (entry (with_entry e data) k') → k = k'.
Proof using Hw Hu He Hi Hnone.
  rewrite (proj1 add_nentries). intros Hk Hk'. rewrite !add_entry by done. destruct (dfree_spec data (nentries data) 0) as (Hle & _). rewrite dlookup_None in Hnone. case_decide as H1; case_decide as H2.
  - congruence.
  - intros [_ <-] Hx. destruct (Hnone k'); [unfold k0 in *; lia|done].
  - intros Hx [_ <-]. destruct (Hnone k); [unfold k0 in *; lia|done].
  - apply Hu; unfold k0 in *; lia.
Qed.

Lemma add_map : dmap (with_entry e data) = <[dent_name e := dent_inum e]> (dmap data).
Proof using Hw He Hi Hnone.
  apply map_eq. intros nm. rewrite dmap_lookup. unfold with_entry. rewrite (dlookup_link data e (dent_name e)) by done.
  case_decide as Hn; [subst; by rewrite lookup_insert_eq|]. by rewrite lookup_insert_ne, dmap_lookup by done.
Qed.
End add.

Lemma dir_wf_add d data e :
  dir_wf d data → length e = DIRENT → dent_inum e ≠ 0 → dmap data !! dent_name e = None →
  dir_wf d (with_entry e data) ∧ dmap (with_entry e data) = <[dent_name e := dent_inum e]> (dmap data).
Proof.
  intros [Hw H2 [H0 Hd] H1 Hu] He Hi Hnone. rewrite dmap_lookup in Hnone. destruct (add_nentries data e Hw He) as [Hn Hw'].
  assert (∀ k, (k < nentries data)%nat → dent_inum (entry data k) ≠ 0 → entry (with_entry e data) k = entry data k) as Hkeep.
  { intros k Hk Hk0. rewrite add_entry by (done || lia). case_decide as Heq; [|done]. exfalso. apply Hk0. rewrite Heq in Hk |- *.
    destruct (dfree_spec data (nentries data) 0) as (_ & Hz & _). apply Hz. lia. }
  split; [split|by apply add_map].
  - done.
  - rewrite Hn. lia.
  - by rewrite Hkeep by (lia || apply H0).
  - by rewrite Hkeep by (lia || apply H1).
  - intros nm k k'. by apply add_uniq.
Qed.

(** A directory with its first two entries. *)
Lemma dir_wf_new d p e1 e2 :
  length e1 = DIRENT → length e2 = DIRENT → dent_inum e1 = d → dent_inum e2 = p → d ≠ 0 → p ≠ 0 → dent_name e1 = DOT → dent_name e2 = DOTDOT →
  dir_wf d (with_entry e2 (with_entry e1 [])) ∧ dmap (with_entry e2 (with_entry e1 [])) = new_dir d p ∧ length (with_entry e1 []) = DIRENT.
Proof.
  intros H1 H2 Hd Hp Hd0 Hp0 Hn1 Hn2. assert (nentries [] = 0%nat) as Hn0 by done.
  assert (whole []) as Hw0 by done. assert (∀ nm, dlookup [] nm = None) as Hl0 by done.
  destruct (add_nentries [] e1 Hw0 H1) as [Hne1 Hw1]. rewrite Hn0 in Hne1. change (dfree [] 0 0) with 0%nat in Hne1. rewrite Nat.max_r in Hne1 by lia.
  assert (entry (with_entry e1 []) 0 = e1) as He1.
  { pose proof (add_entry [] e1 Hw0 H1 0) as Hx. rewrite Hn0 in Hx. change (dfree [] 0 0) with 0%nat in Hx. rewrite decide_True in Hx by done. apply Hx. lia. }
  assert (∀ nm k k', (k < nentries (with_entry e1 []))%nat → (k' < nentries (with_entry e1 []))%nat →
    is_entry nm (entry (with_entry e1 []) k) → is_entry nm (entry (with_entry e1 []) k') → k = k') as Hu1 by (rewrite Hne1; lia).
  assert (dmap (with_entry e1 []) = <[DOT := d]> ∅) as Hm1 by (rewrite add_map by (done || congruence || apply Hl0); by rewrite Hn1, Hd).
  assert (dlookup (with_entry e1 []) (dent_name e2) = None) as Hl1 by (by rewrite <- dmap_lookup, Hm1, Hn2).
  assert (dfree (with_entry e1 []) 1 0 = 1%nat) as Hf1. { cbn [dfree]. by rewrite He1, decide_False by congruence. }
  destruct (add_nentries (with_entry e1 []) e2 Hw1 H2) as [Hne2 Hw2]. rewrite Hne1, Hf1 in Hne2. rewrite Nat.max_r in Hne2 by lia.
  assert (∀ k, (k < 2)%nat → entry (with_entry e2 (with_entry e1 [])) k = if decide (k = 1)%nat then e2 else entry (with_entry e1 []) k) as Hent.
  { intros k Hk. pose proof (add_entry (with_entry e1 []) e2 Hw1 H2 k) as Hx. rewrite Hne1, Hf1 in Hx. apply Hx. lia. }
  split_and!.
  - split; [done|lia| | |].
    + rewrite Hent by lia. rewrite decide_False, He1 by done. split; [|done]. split; congruence.
    + rewrite Hent by lia. rewrite decide_True by done. split; congruence.
    + intros nm k k'. apply add_uniq; done || congruence.
  - rewrite add_map by (done || congruence || apply Hl0). rewrite Hm1, Hn2, Hp. unfold new_dir. by rewrite insert_insert_ne.
  - rewrite Hw1, Hne1. done.
Qed.

(** ** Clearing an entry *)
Definition clear_entry k data : list Z := overwrite (DIRENT * k) (replicate DIRENT 0) data.

Lemma clear_inum : dent_inum (replicate DIRENT 0) = 0.
Proof. by vm_compute. Qed.

Lemma dir_wf_clear d data nm k :
  dir_wf d data → (k < nentries data)%nat → is_entry nm (entry data k) → plain nm →
  dir_wf d (clear_entry k data) ∧ dmap (clear_entry k data) = delete nm (dmap data) ∧ length (clear_entry k data) = length data.
Proof.
  intros [Hw H2 [H0 Hd] H1 Hu] Hk He [Hdot Hdd]. unfold clear_entry.
  destruct (nentries_overwrite data (replicate DIRENT 0) k) as [Hn Hlen]; [by rewrite length_replicate|done|lia|].
  rewrite Nat.max_l in Hn, Hlen by lia. set (data' := overwrite _ _ _) in *.
  assert (∀ m, (m < nentries data)%nat → entry data' m = if decide (m = k) then replicate DIRENT 0 else entry data m) as Hent.
  { intros m Hm. apply entry_overwrite; [by rewrite length_replicate|done|lia|lia]. }
  assert (∀ x m, (m < nentries data)%nat → is_entry x (entry data' m) ↔ m ≠ k ∧ is_entry x (entry data m)) as Hiff.
  { intros x m Hm. rewrite Hent by done. case_decide as Hmk; [|naive_solver]. split; [intros [Hx _]; by rewrite clear_inum in Hx|by intros [? _]]. }
  assert (∀ x m m', (m < nentries data')%nat → (m' < nentries data')%nat → is_entry x (entry data' m) → is_entry x (entry data' m') → m = m') as Hu'.
  { rewrite Hn. intros x m m' Hm Hm'. rewrite !Hiff by done. intros [_ ?] [_ ?]. by apply (Hu x). }
  assert (0 ≠ k)%nat as Hk0. { intros <-. destruct H0, He. congruence. }
  assert (1 ≠ k)%nat as Hk1. { intros <-. destruct H1, He. congruence. }
  split_and!; [split| |].
  - unfold whole. by rewrite Hlen, Hn.
  - by rewrite Hn.
  - split; [apply Hiff; [lia|done]|]. rewrite Hent by lia. by rewrite decide_False.
  - apply Hiff; [lia|done].
  - done.
  - apply map_eq. intros x. rewrite dmap_lookup. destruct (decide (nm = x)) as [<-|Hne].
    + rewrite lookup_delete_eq. apply dlookup_None. rewrite Hn. intros m Hm [Hmk Hx]%Hiff; [|done]. by apply Hmk, (Hu nm).
    + rewrite lookup_delete_ne, dmap_lookup by done. destruct (dlookup data x) as [j|] eqn:Hx.
      * apply dlookup_Some in Hx as (m & Hm & _ & Hem & <-). assert (m ≠ k) as Hmk. { intros ->. destruct Hem, He. congruence. }
        rewrite (uniq_lookup data' x m); [|done|by rewrite Hn|by apply Hiff]. rewrite Hent by done. by rewrite decide_False.
      * rewrite dlookup_None in Hx |- *. rewrite Hn. intros m Hm [_ Hem]%Hiff; [|done]. by apply (Hx m).
  - by rewrite Hlen.
Qed.

(** ** Empty directories *)
Lemma dir_wf_empty d data :
  dir_wf d data → (∀ k, (2 ≤ k < nentries data)%nat → dent_inum (entry data k) = 0) ↔ no_plain (dmap data).
Proof.
  intros [Hw H2 [H0 Hd] H1 Hu]. split.
  - intros Hz nm [Hn1 Hn2]. rewrite dmap_lookup, dlookup_None. intros k Hk [Hx Hnm].
    destruct k as [|[|k]]; [destruct H0; congruence|destruct H1; congruence|]. apply Hx, Hz. lia.
  - intros Hno k Hk. destruct (decide (dent_inum (entry data k) = 0)) as [|Hne]; [done|]. exfalso.
    set (nm := dent_name (entry data k)). assert (is_entry nm (entry data k)) as Hent by done.
    assert (plain nm) as Hp.
    { split; intros Heq; rewrite Heq in Hent; [assert (k = 0)%nat|assert (k = 1)%nat]; try lia; [by apply (Hu DOT); [lia|lia|..]|by apply (Hu DOTDOT); [lia|lia|..]]. }
    specialize (Hno nm Hp). rewrite dmap_lookup, dlookup_None in Hno. apply (Hno k); [lia|done].
Qed.
