(* ===== verification/Tree.v ===== *)
(** * The directory tree of a file system

    [tree] of the files of all inodes: the linked directories are well formed
    and make up a tree from the root in which every link count is right.  The
    changes that the system calls make keep it. *)

From stdpp Require Import gmap functions.
From S2P Require Import Prelude.
From S2P Require Import Bytes.
From S2P Require Import Log.
From S2P Require Import Fs.
From S2P Require Import FsDir.
From S2P Require Import InodeSpec.
From S2P Require Import FsInv.
From S2P Require Import FsOps.
From S2P Require Import DirSpec.
From S2P Require Import PathSpec.
From S2P Require Import FsRules.
From S2P Require Import Links.
From S2P Require Import DirMap.

Local Open Scope Z_scope.

Section tree.
Context (sb : superblock).
Notation inode_no := (inode_no sb).
Notation linkedF := (linkedF sb).
Implicit Types (F : Z → option afile) (f : afile) (d j : Z) (nm e : list Z).

Definition inos : list Z := seqZ 1 (sb_ninodes sb - 1).
Lemma inos_NoDup : NoDup inos.
Proof. apply NoDup_seqZ. Qed.
Lemma elem_of_inos j : j ∈ inos ↔ inode_no j.
Proof. unfold inos, InodeSpec.inode_no. rewrite elem_of_seqZ. lia. Qed.

(** A directory in the tree. *)
Definition in_tree d f : Prop := inode_no d ∧ af_type f = T_DIR ∧ af_nlink f ≠ 0.
#[global] Instance in_tree_dec d f : Decision (in_tree d f).
Proof. unfold in_tree, InodeSpec.inode_no. apply _. Defined.

Definition namesF F d : option names := f ← F d; if decide (in_tree d f) then Some (dmap (af_data f)) else None.
Definition nlinkF F j : option Z := af_nlink <$> F j.

Record tree F : Prop := {
  tr_shape : shape inos (namesF F) (nlinkF F);
  tr_dirs : ∀ d f, F d = Some f → in_tree d f → dir_wf d (af_data f)
}.

Lemma namesF_Some F d m : namesF F d = Some m → ∃ f, F d = Some f ∧ in_tree d f ∧ dmap (af_data f) = m.
Proof. unfold namesF. destruct (F d) as [f|]; [|done]. cbn. case_decide; [|done]. intros [= <-]. by exists f. Qed.
Lemma namesF_in F d f : F d = Some f → in_tree d f → namesF F d = Some (dmap (af_data f)).
Proof. intros Hf Ht. unfold namesF. rewrite Hf. cbn. by rewrite decide_True. Qed.
Lemma names_lookup F d f nm : F d = Some f → in_tree d f → namesF F d ≫= (.!! nm) = dlookup (af_data f) nm.
Proof. intros Hf Ht. rewrite (namesF_in F d f Hf Ht). apply dmap_lookup. Qed.
Lemma namesF_out F d f : F d = Some f → ¬ in_tree d f → namesF F d = None.
Proof. intros Hf Ht. unfold namesF. rewrite Hf. cbn. by rewrite decide_False. Qed.
Lemma namesF_same F F' d : F' d = F d → namesF F' d = namesF F d.
Proof. intros Heq. unfold namesF. by rewrite Heq. Qed.

Lemma linked_in_F F j : linked_in inos (nlinkF F) j ↔ linkedF F j.
Proof.
  unfold linked_in, FsRules.linkedF, nlinkF. rewrite elem_of_inos. split; intros [Hj (n & Hn & Hn0)]; (split; [done|]).
  - apply fmap_Some in Hn as (f & Hf & ->). by exists f.
  - exists (af_nlink n). by rewrite Hn.
Qed.

Section ok.
Context F (Ht : tree F).

Lemma tree_root : linkedF F ROOTINO ∧ ∃ f, F ROOTINO = Some f ∧ in_tree ROOTINO f.
Proof using Ht.
  destruct (sh_root _ _ _ (tr_shape _ Ht)) as (m & Hm & _). apply namesF_Some in Hm as (f & Hf & Hin & _).
  split; [|by exists f]. destruct Hin as (? & _ & ?). split; [done|]. by exists f.
Qed.
Lemma tree_entry d f nm j : F d = Some f → in_tree d f → dlookup (af_data f) nm = Some j → linkedF F j.
Proof using Ht.
  intros Hf Hin Hj. apply linked_in_F. apply (sh_live _ _ _ (tr_shape _ Ht) d (dmap (af_data f)) nm); [by apply namesF_in|by rewrite dmap_lookup].
Qed.
Lemma tree_treeF : treeF sb F.
Proof using Ht.
  intros d f [Hd (f' & Hf' & Hnl)] Hf Hty. rewrite Hf in Hf'. apply Some_inj in Hf' as <-.
  assert (in_tree d f) as Hin by done. split; [apply (tr_dirs _ Ht d f Hf Hin)|]. intros nm j. by apply (tree_entry d f).
Qed.
Lemma tree_count j f : F j = Some f → inode_no j → af_nlink f = Z.of_nat (nrefs inos (namesF F) j).
Proof using Ht.
  intros Hf Hj. apply (sh_count _ _ _ (tr_shape _ Ht) j); [by apply elem_of_inos|]. unfold nlinkF. by rewrite Hf.
Qed.
(** A name other than [.] and [..] never leads back to its directory. *)
Lemma tree_child d f nm : F d = Some f → in_tree d f → plain nm → dlookup (af_data f) nm ≠ Some d.
Proof using Ht.
  intros Hf Hin Hp Hd. pose proof (namesF_in F d f Hf Hin) as Hm. rewrite <- dmap_lookup in Hd.
  by destruct (sh_child _ _ _ (tr_shape _ Ht) d _ nm d _ Hm Hd Hp Hm) as (_ & ? & _).
Qed.
End ok.

Lemma namesF_ext F F' : (∀ j, inode_no j → F' j = F j) → ∀ d, namesF F' d = namesF F d.
Proof.
  intros HF d. destruct (decide (1 ≤ d < sb_ninodes sb)) as [Hd|Hd]; [by apply namesF_same, HF|]. unfold namesF.
  assert (∀ f, ¬ in_tree d f) as Hn by (intros f [? _]; done). destruct (F d), (F' d); cbn; by rewrite ?decide_False by apply Hn.
Qed.
Lemma tree_ext F F' : (∀ j, inode_no j → F' j = F j) → tree F → tree F'.
Proof.
  intros HF [Hs Hd]. split.
  - apply (shape_ext _ _ _ _ _ Hs); [by apply namesF_ext|]. intros x Hx%elem_of_inos. unfold nlinkF. by rewrite HF.
  - intros d f Hf Hin. apply Hd; [|done]. by rewrite <- HF by apply Hin.
Qed.

(** Two inodes change. *)
Lemma dirs_two F F' d j :
  tree F → (∀ x, x ≠ d → x ≠ j → F' x = F x) → (∀ f, F' d = Some f → in_tree d f → dir_wf d (af_data f)) →
  (∀ f, F' j = Some f → in_tree j f → dir_wf j (af_data f)) → ∀ x f, F' x = Some f → in_tree x f → dir_wf x (af_data f).
Proof.
  intros Ht Hother Hd Hj x f Hx Hin. destruct (decide (x = d)) as [->|Hxd]; [by apply Hd|]. destruct (decide (x = j)) as [->|Hxj]; [by apply Hj|].
  rewrite Hother in Hx by done. by apply (tr_dirs _ Ht).
Qed.

Lemma tree_gone F j f : tree F → F j = Some f → af_nlink f = 0 → tree (<[j := None]> F).
Proof.
  intros [Hs Hd] Hf Hnl. set (F' := <[j := None]> F). assert (∀ x, x ≠ j → F' x = F x) as HF by (intros x Hx; unfold F'; by rewrite fn_lookup_insert_ne).
  assert (F' j = None) as Hj by apply fn_lookup_insert. split.
  - apply (shape_ext inos (namesF F) (nlinkF F')); [|intros x|done].
    + apply (shape_gone inos _ _ _ j Hs); [unfold nlinkF; rewrite Hf; cbn; by rewrite Hnl|intros x Hx; unfold nlinkF; by rewrite HF|unfold nlinkF; by rewrite Hj].
    + destruct (decide (x = j)) as [->|Hx]; [|by apply namesF_same, HF]. rewrite (namesF_out F j f Hf) by (by intros (_ & _ & ?)). unfold namesF. by rewrite Hj.
  - intros d fd Hfd Hin. destruct (decide (d = j)) as [->|Hx]; [congruence|]. rewrite HF in Hfd by done. by apply Hd.
Qed.

(** Other content of a file that is not a directory. *)
Lemma tree_data F j f data : tree F → F j = Some f → af_type f ≠ T_DIR → tree (<[j := Some (set_data data f)]> F).
Proof.
  intros [Hs Hd] Hf Hty. set (F' := <[j := _]> F). assert (∀ x, x ≠ j → F' x = F x) as HF by (intros x Hx; unfold F'; by rewrite fn_lookup_insert_ne).
  assert (F' j = Some (set_data data f)) as Hj by apply fn_lookup_insert. split.
  - apply (shape_ext inos (namesF F) (nlinkF F) _ _ Hs); intros x.
    + destruct (decide (x = j)) as [->|Hx]; [|by apply namesF_same, HF].
      rewrite (namesF_out F j f Hf), (namesF_out F' j _ Hj); [done|by intros (_ & ? & _)|by intros (_ & ? & _)].
    + intros _. unfold nlinkF. destruct (decide (x = j)) as [->|Hx]; [by rewrite Hj, Hf|by rewrite HF].
  - intros d fd Hfd Hin. destruct (decide (d = j)) as [->|Hx]; [|rewrite HF in Hfd by done; by apply Hd].
    rewrite Hj in Hfd. apply Some_inj in Hfd as <-. by destruct Hin as (_ & ? & _).
Qed.

(** The files with an entry [e] more in directory [d]. *)
Definition set_nlink (n : Z) f : afile := set_meta (af_major f) (af_minor f) n f.

Lemma tree_add F d fd e j f' :
  tree F → F d = Some fd → in_tree d fd → length e = DIRENT → dent_inum e = j → inode_no j →
  dlookup (af_data fd) (dent_name e) = None → af_type f' ≠ T_DIR →
  (F j = None ∧ af_nlink f' = 1 ∨ ∃ f, F j = Some f ∧ af_type f ≠ T_DIR ∧ af_nlink f' = af_nlink f + 1) →
  tree (<[d := Some (set_data (with_entry e (af_data fd)) fd)]> (<[j := Some f']> F)).
Proof.
  intros Ht Hd Hin He Hj Hno Hnone Hty Hcase. set (F' := <[d := _]> _).
  assert (namesF F j = None) as Hjm.
  { destruct Hcase as [[Hf _]|(f & Hf & Hft & _)]; [unfold namesF; by rewrite Hf|]. apply (namesF_out F j f Hf). by intros (_ & ? & _). }
  assert (d ≠ j) as Hdj. { intros <-. by rewrite (namesF_in F d fd) in Hjm. }
  rewrite <- dmap_lookup in Hnone. destruct (dir_wf_add d (af_data fd) e (tr_dirs _ Ht d fd Hd Hin) He) as [Hwf Hmap]; [unfold InodeSpec.inode_no in Hno; lia|done|].
  assert (F' d = Some (set_data (with_entry e (af_data fd)) fd)) as HFd by apply fn_lookup_insert.
  assert (F' j = Some f') as HFj by (unfold F'; by rewrite fn_lookup_insert_ne, fn_lookup_insert).
  assert (∀ x, x ≠ d → x ≠ j → F' x = F x) as HFx by (intros x ? ?; unfold F'; by rewrite !fn_lookup_insert_ne).
  assert (in_tree d (set_data (with_entry e (af_data fd)) fd)) as Hin' by done. split.
  - eapply (shape_add inos inos_NoDup (namesF F) (nlinkF F) _ _ d (dmap (af_data fd)) (dent_name e) j (tr_shape _ Ht)).
    + by apply namesF_in.
    + done.
    + done.
    + by apply elem_of_inos.
    + rewrite (namesF_in F' d _ HFd Hin'). cbn [set_data set_nlink set_meta af_data]. by rewrite Hmap, Hj.
    + intros x Hx. destruct (decide (x = j)) as [->|Hxj]; [|by apply namesF_same, HFx].
      rewrite Hjm. apply (namesF_out F' j f' HFj). by intros (_ & ? & _).
    + unfold nlinkF. rewrite HFj. cbn. f_equal. destruct Hcase as [[Hf ->]|(f & Hf & _ & ->)].
      * rewrite (free_nrefs inos _ (nlinkF F) j (tr_shape _ Ht)); [done|]. unfold nlinkF. by rewrite Hf.
      * rewrite (tree_count F Ht j f Hf Hno). lia.
    + intros x Hx. unfold nlinkF. destruct (decide (x = d)) as [->|Hxd]; [by rewrite HFd, Hd|by rewrite HFx].
  - apply (dirs_two F F' d j Ht HFx).
    + rewrite HFd. by intros f [= <-].
    + rewrite HFj. intros f [= <-] (_ & ? & _). done.
Qed.

(** A new directory [j] in [d]. *)
Lemma tree_mkdir F d fd e j fj :
  tree F → F d = Some fd → in_tree d fd → length e = DIRENT → dent_inum e = j → inode_no j → F j = None →
  dlookup (af_data fd) (dent_name e) = None → in_tree j fj → af_nlink fj = 1 → dir_wf j (af_data fj) → dmap (af_data fj) = new_dir j d →
  tree (<[d := Some (set_data (with_entry e (af_data fd)) (set_nlink (af_nlink fd + 1) fd))]> (<[j := Some fj]> F)).
Proof.
  intros Ht Hd Hin He Hj Hno HFj0 Hnone Hinj Hnl Hwfj Hmj. set (F' := <[d := _]> _).
  assert (d ≠ j) as Hdj by congruence. rewrite <- dmap_lookup in Hnone.
  destruct (dir_wf_add d (af_data fd) e (tr_dirs _ Ht d fd Hd Hin) He) as [Hwf Hmap]; [unfold InodeSpec.inode_no in Hno; lia|done|].
  assert (F' d = Some (set_data (with_entry e (af_data fd)) (set_nlink (af_nlink fd + 1) fd))) as HFd by apply fn_lookup_insert.
  assert (F' j = Some fj) as HFj by (unfold F'; by rewrite fn_lookup_insert_ne, fn_lookup_insert).
  assert (∀ x, x ≠ d → x ≠ j → F' x = F x) as HFx by (intros x ? ?; unfold F'; by rewrite !fn_lookup_insert_ne).
  pose proof (tree_count F Ht d fd Hd (proj1 Hin)) as Hcd.
  assert (in_tree d (set_data (with_entry e (af_data fd)) (set_nlink (af_nlink fd + 1) fd))) as Hin'.
  { destruct Hin as (? & ? & ?). split_and!; [done|done|]. cbn. lia. }
  split.
  - eapply (shape_mkdir inos inos_NoDup (namesF F) (nlinkF F) _ _ d (dmap (af_data fd)) (dent_name e) j (tr_shape _ Ht)).
    + by apply namesF_in.
    + done.
    + unfold namesF. by rewrite HFj0.
    + unfold nlinkF. by rewrite HFj0.
    + by apply elem_of_inos.
    + rewrite (namesF_in F' d _ HFd Hin'). cbn [set_data set_nlink set_meta af_data]. by rewrite Hmap, Hj.
    + by rewrite (namesF_in F' j _ HFj Hinj), Hmj.
    + intros x Hx Hxj. by apply namesF_same, HFx.
    + unfold nlinkF. rewrite HFj. cbn. by rewrite Hnl.
    + unfold nlinkF. rewrite HFd. cbn. by rewrite Hcd.
    + intros x Hx Hxj. unfold nlinkF. by rewrite HFx.
  - apply (dirs_two F F' d j Ht HFx); [rewrite HFd|rewrite HFj]; by intros f [= <-].
Qed.

(** The entry [k] with the name of a file is cleared. *)
Lemma tree_del F d fd k nm j f oj :
  tree F → F d = Some fd → in_tree d fd → (k < nentries (af_data fd))%nat → is_entry nm (entry (af_data fd) k) → plain nm →
  dlookup (af_data fd) nm = Some j → F j = Some f → af_type f ≠ T_DIR → inode_no j →
  (oj = Some (set_nlink (af_nlink f - 1) f) ∨ oj = None ∧ af_nlink f = 1) →
  tree (<[d := Some (set_data (clear_entry k (af_data fd)) fd)]> (<[j := oj]> F)).
Proof.
  intros Ht Hd Hin Hk He Hp Hj Hf Hty Hno Hoj. set (F' := <[d := _]> _).
  assert (namesF F j = None) as Hjm by (apply (namesF_out F j f Hf); by intros (_ & ? & _)).
  assert (d ≠ j) as Hdj. { intros <-. by rewrite (namesF_in F d fd) in Hjm. }
  destruct (dir_wf_clear d (af_data fd) nm k (tr_dirs _ Ht d fd Hd Hin) Hk He Hp) as (Hwf & Hmap & _). rewrite <- dmap_lookup in Hj.
  assert (F' d = Some (set_data (clear_entry k (af_data fd)) fd)) as HFd by apply fn_lookup_insert.
  assert (F' j = oj) as HFj by (unfold F'; by rewrite fn_lookup_insert_ne, fn_lookup_insert).
  assert (∀ x, x ≠ d → x ≠ j → F' x = F x) as HFx by (intros x ? ?; unfold F'; by rewrite !fn_lookup_insert_ne).
  assert (in_tree d (set_data (clear_entry k (af_data fd)) fd)) as Hin' by done. pose proof (tree_count F Ht j f Hf Hno) as Hcj. split.
  - eapply (shape_del inos inos_NoDup (namesF F) (nlinkF F) _ _ d (dmap (af_data fd)) nm j (tr_shape _ Ht)).
    + by apply namesF_in.
    + done.
    + done.
    + done.
    + rewrite (namesF_in F' d _ HFd Hin'). cbn [set_data af_data]. by rewrite Hmap.
    + intros x Hx. destruct (decide (x = j)) as [->|Hxj]; [|by apply namesF_same, HFx]. rewrite Hjm.
      destruct Hoj as [->|[-> _]]; [apply (namesF_out F' j _ HFj); by intros (_ & ? & _)|unfold namesF; by rewrite HFj].
    + unfold nlinkF. rewrite HFj. destruct Hoj as [->|[-> H1]]; [left; cbn; by rewrite Hcj|right; split; [done|lia]].
    + intros x Hx. unfold nlinkF. destruct (decide (x = d)) as [->|Hxd]; [by rewrite HFd, Hd|by rewrite HFx].
  - apply (dirs_two F F' d j Ht HFx); [rewrite HFd; by intros f' [= <-]|]. rewrite HFj. intros f' Hf' (_ & Hty' & _).
    by destruct Hoj as [->|[-> _]]; [apply Some_inj in Hf' as <-|].
Qed.

(** The entry [k] with the name of an empty directory is cleared. *)
Lemma tree_rmdir F d fd k nm j f oj :
  tree F → F d = Some fd → in_tree d fd → (k < nentries (af_data fd))%nat → is_entry nm (entry (af_data fd) k) → plain nm →
  dlookup (af_data fd) nm = Some j → F j = Some f → in_tree j f → no_plain (dmap (af_data f)) →
  (oj = Some (set_nlink 0 f) ∨ oj = None) →
  tree (<[d := Some (set_data (clear_entry k (af_data fd)) (set_nlink (af_nlink fd - 1) fd))]> (<[j := oj]> F)) ∧
  af_nlink f = 1 ∧ 2 ≤ af_nlink fd.
Proof.
  intros Ht Hd Hin Hk He Hp Hj Hf Hinj Hno Hoj. set (F' := <[d := _]> _). rewrite <- dmap_lookup in Hj.
  pose proof (namesF_in F d fd Hd Hin) as Hmd. pose proof (namesF_in F j f Hf Hinj) as Hmj.
  destruct (sh_child _ _ _ (tr_shape _ Ht) d _ nm j _ Hmd Hj Hp Hmj) as (Hjr & Hjd & Hjp).
  destruct (dir_wf_clear d (af_data fd) nm k (tr_dirs _ Ht d fd Hd Hin) Hk He Hp) as (Hwf & Hmap & _).
  assert (F' d = Some (set_data (clear_entry k (af_data fd)) (set_nlink (af_nlink fd - 1) fd))) as HFd by apply fn_lookup_insert.
  assert (F' j = oj) as HFj by (unfold F'; by rewrite fn_lookup_insert_ne, fn_lookup_insert).
  assert (∀ x, x ≠ d → x ≠ j → F' x = F x) as HFx by (intros x ? ?; unfold F'; by rewrite !fn_lookup_insert_ne).
  pose proof (tree_count F Ht j f Hf (proj1 Hinj)) as Hcj. pose proof (tree_count F Ht d fd Hd (proj1 Hin)) as Hcd.
  destruct (empty_dir_counts inos inos_NoDup (namesF F) (nlinkF F) d _ nm j _ (tr_shape _ Ht) Hmd Hj Hp Hmj Hno) as [Hj1 Hd2].
  split_and!; [|lia|lia].
  assert (namesF F' j = None) as Hnj.
  { destruct Hoj as [->| ->]; [apply (namesF_out F' j _ HFj); by intros (_ & _ & ?)|unfold namesF; by rewrite HFj]. }
  assert (∀ x, x ≠ d → x ≠ j → namesF F' x = namesF F x) as Hnx by (intros x Hx Hxj; by apply namesF_same, HFx).
  assert (in_tree d (set_data (clear_entry k (af_data fd)) (set_nlink (af_nlink fd - 1) fd))) as Hin'.
  { destruct Hin as (? & ? & ?). split_and!; [done|done|]. cbn. lia. }
  split.
  - eapply (shape_rmdir inos inos_NoDup (namesF F) (nlinkF F) _ d (dmap (af_data fd)) nm j (dmap (af_data f)) (tr_shape _ Ht)); try done.
    + rewrite (namesF_in F' d _ HFd Hin'). cbn [set_data set_nlink set_meta af_data]. by rewrite Hmap.
    + unfold nlinkF. rewrite HFd. cbn. by rewrite Hcd.
    + unfold nlinkF. rewrite HFj. destruct Hoj as [->| ->]; [by right|by left].
    + intros x Hx Hxj. unfold nlinkF. by rewrite HFx.
  - apply (dirs_two F F' d j Ht HFx); [rewrite HFd; by intros f' [= <-]|]. rewrite HFj. intros f' Hf' (_ & _ & Hnl).
    by destruct Hoj as [->| ->]; [apply Some_inj in Hf' as <-|].
Qed.
End tree.
