(* ===== verification/LinkSpec.v ===== *)
(** * [link] keeps the tree

    What [sys_link] does to the files: it adds a name for a file and counts
    it, or gives everything back. *)

From stdpp Require Import gmap functions.
From S2P Require Import Prelude.
From S2P Require Import Bytes.
From S2P Require Import CString.
From S2P Require Import Log.
From S2P Require Import Fs.
From S2P Require Import FsDir.
From S2P Require Import FsSpec.
From S2P Require Import FileSpec.
From S2P Require Import FileRw.
From S2P Require Import InodeSpec.
From S2P Require Import FsInv.
From S2P Require Import FsOps.
From S2P Require Import CacheSpec.
From S2P Require Import DirSpec.
From S2P Require Import PathSpec.
From S2P Require Import FsRules.
From S2P Require Import Links.
From S2P Require Import DirMap.
From S2P Require Import Tree.
From S2P Require Import Sysfile.

Local Open Scope Z_scope.

(** ** Paths and cache slots *)

Lemma elems_Forall (P : Z → Prop) l e : Forall P l → e ∈ elems l → Forall P e.
Proof.
  intros Hl [_ He]%list_elem_of_filter. revert e He. induction Hl as [|c l Hc Hl IH]; intros e; cbn [pieces].
  - intros ->%list_elem_of_singleton. done.
  - pose proof (pieces_nonempty l) as Hne. destruct (pieces l) as [|p ps]; [done|]. case_decide; rewrite elem_of_cons.
    + intros [->|?]; [done|by apply IH].
    + intros [->|?]; [constructor; [done|apply IH; left]|apply IH; by right].
Qed.

(** [n] entries of the inode cache are unused. *)
Definition free_slots (n : nat) (R : nat → Z) : Prop :=
  ∃ l, length l = n ∧ NoDup l ∧ ∀ k, k ∈ l → (k < NINODE)%nat ∧ R k = 0.

Lemma free_slots_gain n R ip r : free_slots (S n) R → free_slots n (<[ip := r]> R).
Proof.
  intros (l & Hlen & Hnd & Hl). destruct (decide (ip ∈ l)) as [Hin|Hin].
  - apply list_elem_of_split in Hin as (l1 & l2 & ->). exists (l1 ++ l2). rewrite length_app in *. cbn in Hlen.
    apply NoDup_app in Hnd as (H1 & H2 & [H3 H4]%NoDup_cons). split_and!; [lia| |].
    + apply NoDup_app. split_and!; [done| |done]. intros x Hx Hx2. apply (H2 x Hx). by right.
    + intros k Hk. rewrite fn_lookup_insert_ne.
      * apply Hl. rewrite elem_of_app in Hk. rewrite elem_of_app, elem_of_cons. naive_solver.
      * intros ->. apply elem_of_app in Hk as [Hk|Hk]; [|done]. apply (H2 k Hk). left.
  - destruct l as [|x l]; [done|]. exists l. apply NoDup_cons in Hnd as [_ Hnd]. split_and!; [by injection Hlen|done|].
    intros k Hk. rewrite fn_lookup_insert_ne; [apply Hl; by right|]. intros ->. apply Hin. by right.
Qed.
Lemma free_slots_le n n' R : (n' ≤ n)%nat → free_slots n R → free_slots n' R.
Proof.
  intros Hle (l & Hlen & Hnd & Hl). exists (take n' l). rewrite <- (take_drop n' l) in Hnd, Hl. apply NoDup_app in Hnd as (Hnd & _).
  split_and!; [rewrite length_take; lia|done|]. intros k Hk. apply Hl, elem_of_app. by left.
Qed.
Lemma free_slots_two R : free_slots 2 R → two_free R.
Proof.
  intros ([|a [|b [|]]] & Hlen & Hnd & Hl); try done. apply NoDup_cons in Hnd as [Hab _]. exists a, b.
  destruct (Hl a) as [? ?]; [left|]. destruct (Hl b) as [? ?]; [right; left|]. split_and!; try done. intros ->. apply Hab. left.
Qed.
Lemma free_slots_one n R : free_slots (S n) R → ∃ ip, (ip < NINODE)%nat ∧ R ip = 0.
Proof. intros ([|a l] & Hlen & _ & Hl); [done|]. exists a. apply Hl. left. Qed.

Lemma inode_u16 sb ds j : layout sb ds → inode_no sb j → j < 2 ^ 16.
Proof.
  intros [H1 H2 H3 H4 H5] Hj. unfold inode_no in Hj. unfold FSSIZE in *. assert (0 ≤ sb_size sb / Z.of_nat BPB) by (apply Z.div_pos; [lia|done]).
  assert (sb_ninodes sb / IPB < 1000) as Hd by lia. change IPB with 8 in Hd. pose proof (Z.mul_div_le (sb_ninodes sb) 8). pose proof (Z.mod_pos_bound (sb_ninodes sb) 8).
  pose proof (Z.div_mod (sb_ninodes sb) 8). lia.
Qed.

Section link.
Context (sb : superblock) (ds : Z) (devs : list devsw).
Notation inode_no := (inode_no sb).
Notation linkedF := (linkedF sb).
Notation st := (st sb ds).
Notation tree := (tree sb).
Implicit Types (s : fstate) (j d : Z) (k ip dp : nat) (F : Z → option afile) (R : nat → Z) (N : nat → Z) (L : nat → bool) (B : nat) (f : afile).

(** Nothing is locked. *)
Definition none : nat → bool := λ _, false.

Lemma st_none s F R N L B : st s F R N L B → (∀ k, L k = false) → st s F R N none B.
Proof. intros Hst HL. eapply st_ext; [exact Hst|..]; try done. Qed.

Lemma lock_one k k' : <[k := true]> none k' = true ↔ k' = k.
Proof. destruct (decide (k = k')) as [->|Hne]; [by rewrite fn_lookup_insert|]. rewrite fn_lookup_insert_ne by done. naive_solver. Qed.
Lemma unlock_one k k' : <[k := false]> (<[k := true]> none) k' = none k'.
Proof. rewrite fn_insert_twice. unfold none. destruct (decide (k = k')) as [->|Hne]; [by rewrite fn_lookup_insert|by rewrite fn_lookup_insert_ne]. Qed.

Lemma unlock_first dp ip k : dp ≠ ip → <[dp := false]> (<[ip := true]> (<[dp := true]> none)) k = <[ip := true]> none k.
Proof.
  intros Hne. destruct (decide (dp = k)) as [<-|Hdx]; [by rewrite fn_lookup_insert, fn_lookup_insert_ne|]. rewrite (fn_lookup_insert_ne _ dp) by done.
  destruct (decide (ip = k)) as [<-|Hix]; [by rewrite !fn_lookup_insert|]. by rewrite !fn_lookup_insert_ne.
Qed.

(** Inode numbers fit a directory entry. *)
Lemma st_inode_u16 s F R N L B k : st s F R N L B → 0 < R k → inode_no (N k) ∧ N k < 2 ^ 16.
Proof.
  intros Hst Hr. destruct (st_get sb ds _ _ _ _ _ _ k Hst Hr) as (_ & _ & _ & _ & _ & _ & Hno & _). split; [done|].
  apply (inode_u16 sb ds); [|done]. apply (st_inv _ _ _ _ _ _ _ _ Hst).
Qed.

(** ** Link counts *)
Lemma st_short s F R N L B k f :
  st s F R N L B → L k = true → F (N k) = Some f → short (af_major f) ∧ short (af_minor f) ∧ short (af_nlink f).
Proof.
  intros Hst Hl HF. destruct (st_locked sb ds _ _ _ _ _ _ k Hst Hl) as (i & f' & Hca & Hn & _ & _ & _ & _ & _ & HF' & Hf & _).
  assert (f' = f) as -> by congruence. pose proof (cached_file sb ds s k i (st_inv _ _ _ _ _ _ _ _ Hst) Hca) as Hcf. rewrite Hn, Hf in Hcf. apply Some_inj in Hcf as ->.
  by destruct (cached_facts sb ds s k i (st_inv _ _ _ _ _ _ _ _ Hst) Hca) as (_ & _ & _ & _ & [_ ? ? ? _ _ _] & _).
Qed.

Lemma i16_id z : short z → i16 z = z.
Proof. intros Hz. unfold short in Hz. unfold i16. rewrite Z.mod_small; lia. Qed.

Lemma st_add_link s F R N L B k f n :
  st s F R N L B → L k = true → F (N k) = Some f → short (af_nlink f + n) →
  ∃ s', iupdate k (updi (add_link n) k s) = Ok s' ∧ st s' (<[N k := Some (set_nlink (af_nlink f + n) f)]> F) R N L B.
Proof.
  intros Hst Hl HF Hs. destruct (st_short _ _ _ _ _ _ k f Hst Hl HF) as (Hma & Hmi & _). apply (st_iupdate sb ds); try done.
  intros i _ H1 H2 H3. unfold add_link. rewrite H3, (i16_id _ Hs). destruct i; cbn in *. by subst.
Qed.

(** The failure path: the count goes back. *)
Lemma link_bad_spec s F R N B ip f :
  st s F R N none B → 0 < R ip → F (N ip) = Some (set_nlink (af_nlink f + 1) f) → short (af_nlink f) → af_nlink f ≠ 0 →
  ∃ s', link_bad ip s = Ok (-1, s') ∧ st s' (<[N ip := Some f]> F) (<[ip := R ip - 1]> R) N none B.
Proof.
  intros Hst Hr HF Hs Hnz. unfold link_bad. destruct (st_ilock sb ds _ _ _ _ _ _ ip Hst Hr eq_refl) as (s1 & -> & Hst1). rewrite bind_ret.
  assert (<[ip := true]> none ip = true) as Hl by (by apply lock_one).
  destruct (st_add_link _ _ _ _ _ _ ip _ (-1) Hst1 Hl HF) as (s2 & -> & Hst2).
  { cbn. by replace (af_nlink f + 1 + -1) with (af_nlink f) by lia. }
  rewrite bind_ret.
  assert (set_nlink (af_nlink (set_nlink (af_nlink f + 1) f) + -1) (set_nlink (af_nlink f + 1) f) = f) as Heq.
  { destruct f; unfold set_nlink, set_meta; cbn. f_equal. lia. }
  rewrite Heq in Hst2. destruct (st_iunlockput sb ds _ _ _ _ _ _ ip f Hst2 Hl) as (s3 & -> & Hst3); [by rewrite fn_lookup_insert|by left|].
  rewrite bind_ret. exists s3. split; [done|]. eapply st_ext; [exact Hst3|..]; try done. intros k. by rewrite unlock_one.
Qed.

(** Counting a link more of a file that is not a directory. *)
Section bump.
Context F j f (HFj : F j = Some f) (Hty : af_type f ≠ T_DIR) (Hnz : 0 < af_nlink f).
Let F1 := <[j := Some (set_nlink (af_nlink f + 1) f)]> F.

Lemma bump_dirF x : dirF F1 x = dirF F x.
Proof using HFj Hty.
  unfold dirF, F1. destruct (decide (j = x)) as [<-|Hne]; [|by rewrite fn_lookup_insert_ne]. rewrite fn_lookup_insert, HFj. cbn. by rewrite !decide_False.
Qed.
Lemma bump_linked x : linkedF F1 x ↔ linkedF F x.
Proof using HFj Hnz.
  unfold FsRules.linkedF, F1. destruct (decide (j = x)) as [<-|Hne]; [|by rewrite fn_lookup_insert_ne]. rewrite fn_lookup_insert, HFj.
  split; intros [Hj _]; (split; [done|]); eexists; (split; [done|]); cbn; lia.
Qed.
Lemma bump_treeF : treeF sb F → treeF sb F1.
Proof using HFj Hty Hnz.
  intros Ht d fd Hl Hd Htd. rewrite bump_linked in Hl. unfold F1 in Hd. destruct (decide (j = d)) as [<-|Hne].
  { rewrite fn_lookup_insert in Hd. by apply Some_inj in Hd as <-. }
  rewrite fn_lookup_insert_ne in Hd by done. destruct (Ht d fd Hl Hd Htd) as [Hw Hn]. split; [done|]. intros nm x Hx. apply bump_linked. by apply (Hn nm).
Qed.
Lemma bump_walk_parent x es : walk_parentF F1 x es = walk_parentF F x es.
Proof using HFj Hty.
  revert x. induction es as [|e es IH]; intros x; [done|]. cbn [walk_parentF]. rewrite bump_dirF. destruct es as [|e2 es]; [done|].
  destruct (dirF F x) as [data|]; [|done]. cbn [mbind option_bind]. destruct (dlookup data (take DIRSIZ e)); [|done]. cbn [mbind option_bind]. apply IH.
Qed.
Lemma bump_back x : <[j := Some f]> F1 x = F x.
Proof using HFj. unfold F1. rewrite fn_insert_twice, <- HFj. apply fn_insert_same. Qed.
End bump.

(** A process in directory [cwd] at the start of a call. *)
Record ready s F R N B (cwd : nat) : Prop := {
  rd_st : st s F R N none B;
  rd_tree : tree F;
  rd_ref : 0 < R cwd;
  rd_cwd : linkedF F (N cwd)
}.

(** The references of others stay and keep their inodes. *)
Definition keeps R N N' : Prop := ∀ k, 0 < R k → N' k = N k.
Lemma keeps_gain R N N1 N2 ip : keeps R N N1 → keeps (<[ip := R ip + 1]> R) N1 N2 → keeps R N N2.
Proof.
  intros H1 H2 k Hk. rewrite H2; [by apply H1|]. destruct (decide (ip = k)) as [->|Hne]; [rewrite fn_lookup_insert; lia|by rewrite fn_lookup_insert_ne].
Qed.
Lemma gain_back R ip k : <[ip := <[ip := R ip + 1]> R ip - 1]> (<[ip := R ip + 1]> R) k = R k.
Proof. rewrite fn_insert_twice, fn_lookup_insert. replace (R ip + 1 - 1) with (R ip) by lia. apply fn_insert_same. Qed.

Lemma gain_pos R ip k : 0 ≤ R ip → 0 < R k → 0 < <[ip := R ip + 1]> R k.
Proof. intros ? ?. destruct (decide (ip = k)) as [->|Hne]; [rewrite fn_lookup_insert; lia|by rewrite fn_lookup_insert_ne]. Qed.

(** The call's two path lookups. *)
Lemma st_namei s F R N B cwd path :
  ready s F R N B cwd → two_free R → 0 ∈ path →
  ∃ res s' N', namei devs cwd path s = Ok (res, s') ∧ st s' F (gained res R) N' none B ∧ keeps R N N' ∧
    match walkF F (startF N cwd path) (elems (cstr path)) with
    | Some j => ∃ ip, res = Some ip ∧ N' ip = j ∧ 0 ≤ R ip ∧ linkedF F j
    | None => res = None
    end.
Proof.
  intros [Hst Ht Hr Hc] Htf H0. unfold namei.
  destruct (st_namex sb ds devs s F R N none B cwd path false (replicate DIRSIZ 0)) as (res & nm & s' & N' & -> & Hst' & Hk & Hpos & Hres); try done.
  { by apply tree_treeF. } { by apply tree_root. }
  rewrite bind_ret. exists res, s', N'. split_and!; try done. cbn zeta in Hres.
  destruct (walkF F _ _) as [j|] eqn:Hw; [|done]. destruct Hres as (ip & -> & Hn). exists ip. split_and!; [done|done|by apply Hpos|].
  apply (walkF_linked sb F _ _ _ (tree_treeF _ _ Ht)) in Hw; [done|]. unfold startF. case_decide; [by apply tree_root|done].
Qed.

Lemma st_nameiparent s F R N B cwd path :
  st s F R N none B → treeF sb F → linkedF F ROOTINO → 0 < R cwd → linkedF F (N cwd) → two_free R → 0 ∈ path → Forall byte_range (cstr path) →
  ∃ res name s' N', nameiparent devs cwd path name_buf s = Ok (res, name, s') ∧ st s' F (gained res R) N' none B ∧ keeps R N N' ∧
    match walk_parentF F (startF N cwd path) (elems (cstr path)) with
    | Some (d, nm) => ∃ dp fd, res = Some dp ∧ N' dp = d ∧ 0 ≤ R dp ∧ F d = Some fd ∧ in_tree sb d fd ∧
        dname name = nm ∧ (DIRSIZ ≤ length name)%nat ∧ Forall byte_range nm
    | None => res = None
    end.
Proof.
  intros Hst Ht Hroot Hr Hc Htf H0 Hb. unfold nameiparent.
  destruct (st_namex sb ds devs s F R N none B cwd path true name_buf) as (res & name & s' & N' & -> & Hst' & Hk & Hpos & Hres); try done.
  exists res, name, s', N'. split_and!; try done. cbn zeta in Hres.
  destruct (walk_parentF F _ _) as [[d nm]|] eqn:Hw; [|done]. destruct Hres as ((dp & -> & Hn) & Hnm & Hlen).
  apply (walk_parentF_linked sb F _ _ _ _ Ht) in Hw as (Hld & [data Hd] & e & Hlast & Hnme); [|unfold startF; by case_decide].
  apply dirF_Some in Hd as (fd & Hfd & Hty & _). exists dp, fd. destruct Hld as [Hno (fd' & Hfd' & Hnl)]. assert (fd' = fd) as -> by congruence.
  split_and!; try done; [by apply Hpos|by rewrite Hlen|]. rewrite Hnme. apply Forall_take. apply (elems_Forall byte_range (cstr path)); [done|].
  by apply last_Some_elem_of.
Qed.

(** ** The new name *)

(** [F'] is [F] with the entry [e] for [j] in directory [d] and one link more. *)
Definition linked_as F (d j : Z) (nm : list Z) F' : Prop :=
  ∃ fd f e, F d = Some fd ∧ in_tree sb d fd ∧ inode_no j ∧ F j = Some f ∧ af_type f ≠ T_DIR ∧ dlookup (af_data fd) nm = None ∧
    length e = DIRENT ∧ dent_inum e = j ∧ dent_name e = nm ∧
    F' = <[d := Some (set_data (with_entry e (af_data fd)) fd)]> (<[j := Some (set_nlink (af_nlink f + 1) f)]> F).

(** The name can be entered, or is there already and not the directory itself. *)
Definition can_name F (d : Z) (nm : list Z) : Prop :=
  ∀ fd, F d = Some fd → (length (af_data fd) < MAXBYTES)%nat ∧ dlookup (af_data fd) nm ≠ Some d.

(** The files while the call runs: the file at [ip] has one link more. *)
Section new.
Context s F R N B (cwd ip : nat) (new : list Z) f.
Let F1 := <[N ip := Some (set_nlink (af_nlink f + 1) f)]> F.
Let target := walk_parentF F (startF N cwd new) (elems (cstr new)).
Hypothesis Hst : st s F1 R N none B.
Hypothesis Ht : tree F.
Hypothesis Hr : 0 < R cwd.
Hypothesis Hcwd : linkedF F (N cwd).
Hypothesis Hrip : 0 < R ip.
Hypothesis HF : F (N ip) = Some f.
Hypothesis Hty : af_type f ≠ T_DIR.
Hypothesis Hnl : 0 < af_nlink f < 32767.
Hypothesis Hfree : free_slots 2 R.
Hypothesis H0 : 0 ∈ new.
Hypothesis Hb : Forall byte_range (cstr new).

(** What is left to do in the locked directory [dp]. *)
Definition link_enter dp (name : list Z) s : outcome (Z * fstate) :=
  '(r, s3) ← dirlink devs dp name (N ip) s;
  s4 ← iunlockput dp s3;
  if decide (r < 0) then link_bad ip s4 else s5 ← iput ip s4; Ok (0, s5).

Lemma link_new_enter :
  match target with
  | Some (d, nm) =>
      ∃ dp name s' N' fd, link_new devs cwd ip new s = link_enter dp name s' ∧
        st s' F1 (<[dp := R dp + 1]> R) N' (<[dp := true]> none) B ∧ keeps R N N' ∧ N' dp = d ∧ 0 ≤ R dp ∧
        F d = Some fd ∧ in_tree sb d fd ∧ dname name = nm ∧ (DIRSIZ ≤ length name)%nat ∧ Forall byte_range nm
  | None => ∃ s' N', link_new devs cwd ip new s = Ok (-1, s') ∧ st s' F (<[ip := R ip - 1]> R) N' none B ∧ keeps R N N'
  end.
Proof using All.
  pose proof (tree_treeF _ _ Ht) as HtF. unfold link_new.
  destruct (st_nameiparent s F1 R N B cwd new Hst) as (res & name & s1 & N1 & -> & Hst1 & Hk1 & Hres); try done.
  { apply bump_treeF; [done|done|lia|done]. } { apply bump_linked; [done|lia|]. by apply tree_root. } { apply bump_linked; [done|lia|done]. } { by apply free_slots_two. }
  rewrite bind_ret. unfold F1 in Hres. rewrite bump_walk_parent in Hres by done. fold F1 in Hres. fold target in Hres.
  destruct target as [[d nm]|].
  2:{ subst res. destruct (link_bad_spec s1 F1 R N1 B ip f Hst1) as (s2 & -> & Hst2); try done.
      { rewrite Hk1 by done. unfold F1. by rewrite fn_lookup_insert. } { unfold short. lia. } { lia. }
      exists s2, N1. split_and!; try done. eapply st_ext; [exact Hst2|..]; try done. intros x _. rewrite Hk1 by done. symmetry. by apply bump_back. }
  destruct Hres as (dp & fd & -> & Hdp & Hrdp & Hfd1 & Hin & Hnm & Hlen & Hbn). cbn [gained] in Hst1.
  assert (F d = Some fd) as Hfd.
  { unfold F1 in Hfd1. destruct (decide (N ip = d)) as [<-|Hne]; [|by rewrite fn_lookup_insert_ne in Hfd1].
    rewrite fn_lookup_insert in Hfd1. apply Some_inj in Hfd1 as <-. by destruct Hin as (_ & ? & _). }
  destruct (st_ilock sb ds _ _ _ _ _ _ dp Hst1) as (s2 & -> & Hst2); [rewrite fn_lookup_insert; lia|done|]. rewrite bind_ret.
  destruct (st_locked sb ds _ _ _ _ _ _ dp Hst2) as (di & fd' & [Hdi2 _ _] & _ & _ & _ & Hdd & _); [by apply lock_one|].
  destruct (st_get sb ds _ _ _ _ _ _ ip Hst2) as (i & Hi & _ & Hni & _ & Hdev & _); [by apply gain_pos|].
  rewrite (proj2 (geti_Ok _ _ _) Hdi2), bind_ret, (proj2 (geti_Ok _ _ _) Hi), bind_ret, decide_False by congruence. rewrite Hni, Hk1 by done.
  exists dp, name, s2, N1, fd. by split_and!.
Qed.

Section enter.
Context s' dp (N' : nat → Z) (d : Z) (fd : afile) (name : list Z).
Hypothesis Hst' : st s' F1 (<[dp := R dp + 1]> R) N' (<[dp := true]> none) B.
Hypothesis Hk : keeps R N N'.
Hypothesis Hdp : N' dp = d.
Hypothesis Hrdp : 0 ≤ R dp.
Hypothesis Hfd : F d = Some fd.
Hypothesis Hin : in_tree sb d fd.
Hypothesis Hlen : (DIRSIZ ≤ length name)%nat.

Lemma enter_facts : N' ip = N ip ∧ d ≠ N ip ∧ F1 d = Some fd ∧ whole (af_data fd) ∧ <[dp := true]> none dp = true.
Proof using All.
  assert (d ≠ N ip) as Hne. { intros Heq. rewrite Heq, HF in Hfd. apply Some_inj in Hfd as <-. by destruct Hin as (_ & ? & _). }
  split_and!; [by apply Hk|done|unfold F1; by rewrite fn_lookup_insert_ne|apply (tr_dirs _ _ Ht d fd Hfd Hin)|by apply lock_one].
Qed.

(** The name exists. *)
Lemma enter_exists j0 :
  dlookup (af_data fd) (dname name) = Some j0 → j0 ≠ d →
  ∃ s4 N4, link_enter dp name s' = Ok (-1, s4) ∧ st s4 F (<[ip := R ip - 1]> R) N4 none B ∧ keeps R N N4.
Proof using All.
  intros Hlk Hself. destruct enter_facts as (HN' & Hdi & Hfd1 & Hw & Hl). unfold link_enter.
  destruct (tree_entry sb F Ht d fd (dname name) j0 Hfd Hin Hlk) as [Hj0 (f0 & Hf0 & Hnl0)].
  assert (linkedF F1 j0) as [_ (f1 & Hf1 & Hnl1)]. { apply bump_linked; [done|lia|]. split; [done|by exists f0]. }
  destruct (st_dirlink_exists sb ds devs s' F1 _ N' _ B dp fd name (N ip) j0 f1 Hst' Hl) as (s3 & N3 & -> & Hst3 & Hk3);
    try done; [by rewrite Hdp|apply Hin|by right|by apply free_slots_one with 0%nat, free_slots_gain| |].
  { intros k ->%lock_one. rewrite Hdp. congruence. }
  rewrite bind_ret. assert (N3 dp = d) as Hdp3 by (rewrite Hk3, Hdp; [done|rewrite fn_lookup_insert; lia]).
  destruct (st_iunlockput sb ds _ _ _ _ _ _ dp fd Hst3 Hl) as (s4 & -> & Hst4); [by rewrite Hdp3|left; apply Hin|]. rewrite bind_ret, decide_True by lia.
  apply (st_ext sb ds _ _ _ _ _ _ F1 R N3 none B) in Hst4; [|done|intros k; by rewrite gain_back|done|intros k; by rewrite unlock_one|done].
  assert (N3 ip = N ip) as HN3 by (rewrite Hk3; [done|by apply gain_pos]).
  destruct (link_bad_spec s4 F1 R N3 B ip f Hst4) as (s5 & -> & Hst5); try done; [rewrite HN3; unfold F1; by rewrite fn_lookup_insert|unfold short; lia|lia|].
  exists s5, N3. split_and!; [done| |by eapply keeps_gain]. eapply st_ext; [exact Hst5|..]; try done. intros x _. rewrite HN3. symmetry. by apply bump_back.
Qed.

(** The name is entered. *)
Lemma enter_new :
  dlookup (af_data fd) (dname name) = None → Forall byte_range (dname name) → (length (af_data fd) < MAXBYTES)%nat → (3 ≤ B)%nat →
  ∃ s4 F', link_enter dp name s' = Ok (0, s4) ∧ st s4 F' (<[ip := R ip - 1]> R) N' none (B - 3) ∧ linked_as F d (N ip) (dname name) F'.
Proof using All.
  intros Hlk Hbn Hmax HB. destruct enter_facts as (HN' & Hdi & Hfd1 & Hw & Hl). unfold link_enter.
  destruct (st_inode_u16 s F1 R N none B ip Hst Hrip) as [Hino Hi16].
  destruct (st_dirlink sb ds devs s' F1 _ N' _ B dp fd name (N ip) Hst' Hl) as (s3 & e & -> & He1 & He2 & He3 & Hst3);
    try done; [by rewrite Hdp|apply Hin|by right|unfold InodeSpec.inode_no in Hino; lia|].
  rewrite bind_ret. rewrite Hdp in Hst3. set (F3 := <[d := _]> F1) in Hst3.
  destruct (st_iunlockput sb ds _ _ _ _ _ _ dp (set_data (with_entry e (af_data fd)) fd) Hst3 Hl) as (s4 & -> & Hst4);
    [rewrite Hdp; apply fn_lookup_insert|left; apply Hin|]. rewrite bind_ret, decide_False by lia.
  apply (st_ext sb ds _ _ _ _ _ _ F3 R N' none (B - 3)) in Hst4; [|done|intros k; by rewrite gain_back|done|intros k; by rewrite unlock_one|done].
  destruct (st_iput sb ds s4 F3 R N' none (B - 3) ip (set_nlink (af_nlink f + 1) f) Hst4) as (s5 & -> & Hst5); try done.
  { rewrite HN'. unfold F3, F1. by rewrite fn_lookup_insert_ne, fn_lookup_insert. } { left. cbn. lia. }
  rewrite bind_ret. exists s5, F3. split_and!; try done. exists fd, f, e. by split_and!.
Qed.

(** The name is that of the directory itself: [dirlink] drops its reference
    while the directory is locked. *)
Lemma enter_self : dlookup (af_data fd) (dname name) = Some d → link_enter dp name s' = Fault "acquiresleep: deadlock".
Proof using All.
  intros Hlk. destruct enter_facts as (HN' & Hdi & Hfd1 & Hw & Hl). unfold link_enter.
  rewrite (st_dirlink_self sb ds devs s' F1 _ N' _ B dp fd name (N ip) Hst' Hl); try done; [by rewrite Hdp|apply Hin|by right|by rewrite Hdp|].
  by apply free_slots_one with 0%nat, free_slots_gain.
Qed.
End enter.

Lemma link_new_spec :
  (3 ≤ B)%nat → (∀ d nm, target = Some (d, nm) → can_name F d nm) →
  ∃ r s' F' N', link_new devs cwd ip new s = Ok (r, s') ∧ st s' F' (<[ip := R ip - 1]> R) N' none (B - 3) ∧ keeps R N N' ∧
    match target with
    | Some (d, nm) =>
        if decide (namesF sb F d ≫= (.!! nm) = None) then r = 0 ∧ linked_as F d (N ip) nm F'
        else r = -1 ∧ F' = F
    | None => r = -1 ∧ F' = F
    end.
Proof using All.
  intros HB Hguard. pose proof link_new_enter as Hne. destruct target as [[d nm]|] eqn:Htg; fold target in Htg.
  2:{ destruct Hne as (s2 & N2 & -> & Hst2 & Hk2). exists (-1), s2, F, N2. split_and!; try done. eapply st_ext; [exact Hst2|..]; try done. lia. }
  destruct Hne as (dp & name & s2 & N2 & fd & -> & Hst2 & Hk2 & Hdp & Hrdp & Hfd & Hin & <- & Hlen & Hbn).
  destruct (Hguard d (dname name) eq_refl fd Hfd) as [Hmax Hself].
  rewrite (names_lookup sb F d fd _ Hfd Hin). destruct (dlookup (af_data fd) (dname name)) as [j0|] eqn:Hlk.
  - destruct (decide (Some j0 = None)) as [|_]; [done|].
    destruct (enter_exists s2 dp N2 d fd name) with j0 as (s4 & N4 & -> & Hst4 & Hk4); try done; [congruence|].
    exists (-1), s4, F, N4. split_and!; try done. eapply st_ext; [exact Hst4|..]; try done. lia.
  - destruct (decide (None = None)) as [_|]; [|done].
    destruct (enter_new s2 dp N2 d fd name) as (s4 & F' & -> & Hst4 & Has); try done. by exists 0, s4, F', N2.
Qed.
End new.

(** ** The call *)

(** What the call returns and does to the files, for what its paths lead to. *)
Definition link_result F (src : option Z) (target : option (Z * list Z)) (r : Z) F' : Prop :=
  match src, target with
  | Some j, Some (d, nm) =>
      if decide (dirF F j = None ∧ namesF sb F d ≫= (.!! nm) = None) then r = 0 ∧ linked_as F d j nm F' else r = -1 ∧ F' = F
  | _, _ => r = -1 ∧ F' = F
  end.

Section call.
Context s F R N B (cwd : nat) (old new : list Z).
Let src := walkF F (startF N cwd old) (elems (cstr old)).
Let target := walk_parentF F (startF N cwd new) (elems (cstr new)).
Hypothesis Hready : ready s F R N B cwd.
Hypothesis Hfree : free_slots 3 R.
Hypothesis Hold : 0 ∈ old.
Hypothesis Hnew : 0 ∈ new.
Hypothesis Hb : Forall byte_range (cstr new).
Hypothesis Hmax : ∀ j f, src = Some j → F j = Some f → af_nlink f < 32767.

(** The call up to [nameiparent]. *)
Lemma link_start :
  match src with
  | Some j =>
      ∃ f s1 N1, F j = Some f ∧ keeps R N N1 ∧
        if decide (af_type f = T_DIR) then link devs cwd old new s = Ok (-1, s1) ∧ st s1 F R N1 none B
        else ∃ ip, link devs cwd old new s = link_new devs cwd ip new s1 ∧ N1 ip = j ∧ 0 ≤ R ip ∧ 0 < af_nlink f < 32767 ∧
          st s1 (<[N1 ip := Some (set_nlink (af_nlink f + 1) f)]> F) (<[ip := R ip + 1]> R) N1 none B
  | None => ∃ s1 N1, link devs cwd old new s = Ok (-1, s1) ∧ st s1 F R N1 none B ∧ keeps R N N1
  end.
Proof using All.
  pose proof Hready as [Hst Ht Hr Hcwd]. unfold link.
  destruct (st_namei s F R N B cwd old Hready) as (res & s1 & N1 & -> & Hst1 & Hk1 & Hres); [by apply free_slots_two, (free_slots_le 3); [lia|]|done|].
  rewrite bind_ret. fold src in Hres. destruct src as [j|]; [|subst res; by exists s1, N1].
  destruct Hres as (ip & -> & Hip & Hrip & Hj). cbn [gained] in Hst1. pose proof Hj as [Hino (f & Hf & Hnl)].
  destruct (st_ilock sb ds _ _ _ _ _ _ ip Hst1) as (s2 & -> & Hst2); [rewrite fn_lookup_insert; lia|done|]. rewrite bind_ret.
  assert (<[ip := true]> none ip = true) as Hl by (by apply lock_one).
  destruct (st_locked sb ds _ _ _ _ _ _ ip Hst2 Hl) as (i & f' & [Hi _ _] & _ & _ & _ & _ & _ & _ & Hf' & _ & Hty & _).
  rewrite (proj2 (geti_Ok _ _ _) Hi), bind_ret, Hty. rewrite Hip, Hf in Hf'. apply Some_inj in Hf' as <-. exists f.
  destruct (decide (af_type f = T_DIR)) as [Hdir|Hdir].
  - destruct (st_iunlockput sb ds _ _ _ _ _ _ ip f Hst2 Hl) as (s3 & -> & Hst3); [by rewrite Hip|by left|]. rewrite bind_ret.
    exists s3, N1. split_and!; try done. eapply st_ext; [exact Hst3|..]; try done; [intros k; by rewrite gain_back|intros k; by rewrite unlock_one].
  - assert (0 < af_nlink f < 32767) as Hrange.
    { specialize (Hmax j f eq_refl Hf). pose proof (tree_count sb F Ht j f Hf Hino). lia. }
    destruct (st_add_link _ _ _ _ _ _ ip f 1 Hst2 Hl) as (s3 & -> & Hst3); [by rewrite Hip|unfold short; lia|]. rewrite bind_ret.
    destruct (st_iunlock sb ds _ _ _ _ _ _ ip Hst3 Hl) as (s4 & -> & Hst4). rewrite bind_ret.
    apply st_none in Hst4; [|intros k; by rewrite unlock_one]. exists s4, N1. split_and!; try done. by exists ip.
Qed.

Lemma start_kept N1 : keeps R N N1 → startF N1 cwd new = startF N cwd new ∧ linkedF F (N1 cwd).
Proof using Hready. destruct Hready as [_ _ Hr Hcwd]. intros Hk. unfold startF. rewrite Hk by done. done. Qed.

Lemma link_spec :
  (3 ≤ B)%nat → (∀ d nm, target = Some (d, nm) → can_name F d nm) →
  ∃ r s' F' N', link devs cwd old new s = Ok (r, s') ∧ st s' F' R N' none (B - 3) ∧ keeps R N N' ∧ link_result F src target r F'.
Proof using All.
  intros HB Hguard. pose proof Hready as [_ Ht Hr _]. pose proof link_start as Hs. destruct src as [j|].
  2:{ destruct Hs as (s1 & N1 & -> & Hst1 & Hk1). exists (-1), s1, F, N1. split_and!; try done. eapply st_ext; [exact Hst1|..]; try done. lia. }
  destruct Hs as (f & s1 & N1 & Hf & Hk1 & Hs). destruct (decide (af_type f = T_DIR)) as [Hty|Hty].
  - destruct Hs as [-> Hst1]. exists (-1), s1, F, N1. split_and!; [done| |done|].
    + eapply st_ext; [exact Hst1|..]; try done. lia.
    + unfold link_result. destruct target as [[d nm]|]; [|done]. rewrite decide_False; [done|]. intros [Hd _]. unfold dirF in Hd. rewrite Hf in Hd. cbn in Hd.
      by rewrite decide_True in Hd.
  - destruct Hs as (ip & -> & Hip & Hrip & Hrange & Hst1). destruct (start_kept N1 Hk1) as [Hstart Hcwd1].
    destruct (link_new_spec s1 F (<[ip := R ip + 1]> R) N1 B cwd ip new f) as (r & s5 & F' & N5 & -> & Hst5 & Hk5 & Hres); try done.
    { by apply gain_pos. } { rewrite fn_lookup_insert. lia. } { by rewrite Hip. } { by apply free_slots_gain. } { by rewrite Hstart. }
    exists r, s5, F', N5. split_and!; [done| |by eapply keeps_gain|].
    + eapply st_ext; [exact Hst5|..]; try done. intros k. by rewrite gain_back.
    + rewrite Hstart in Hres. fold target in Hres. unfold link_result. destruct target as [[d nm]|]; [|done]. rewrite Hip in Hres.
      assert (dirF F j = None) as Hdj by (unfold dirF; rewrite Hf; cbn; by rewrite decide_False).
      case_decide as Hc; [rewrite decide_True by done|rewrite decide_False by (intros [_ ?]; done)]; exact Hres.
Qed.

(** A new name that is the directory itself, as in [link("f", "d/.")]. *)
Lemma link_self j f d nm fd :
  src = Some j → F j = Some f → af_type f ≠ T_DIR → target = Some (d, nm) → F d = Some fd → dlookup (af_data fd) nm = Some d →
  link devs cwd old new s = Fault "acquiresleep: deadlock".
Proof using All.
  intros Hsrc Hf Hty Htg Hfd Hself. pose proof Hready as [_ Ht Hr _]. pose proof link_start as Hs. rewrite Hsrc in Hs.
  destruct Hs as (f' & s1 & N1 & Hf' & Hk1 & Hs). assert (f' = f) as -> by congruence. rewrite decide_False in Hs by done.
  destruct Hs as (ip & -> & Hip & Hrip & Hrange & Hst1). destruct (start_kept N1 Hk1) as [Hstart Hcwd1].
  pose proof (link_new_enter s1 F (<[ip := R ip + 1]> R) N1 B cwd ip new f Hst1 Ht) as He. rewrite Hstart in He. fold target in He. rewrite Htg in He.
  destruct He as (dp & name & s2 & N2 & fd' & -> & Hst2 & Hk2 & Hdp & Hrdp & Hfd' & Hin & Hnm & Hlen & _); try done.
  { by apply gain_pos. } { rewrite fn_lookup_insert. lia. } { by rewrite Hip. } { by apply free_slots_gain. }
  assert (fd' = fd) as -> by congruence. rewrite <- Hnm in Hself.
  apply (enter_self s1 F (<[ip := R ip + 1]> R) N1 B cwd ip new f) with (N' := N2) (d := d) (fd := fd); try done.
  { by apply gain_pos. } { rewrite fn_lookup_insert. lia. } { by rewrite Hip. } { by apply free_slots_gain. }
Qed.
End call.

(** The tree stays a tree. *)
Lemma link_tree F src target r F' : tree F → link_result F src target r F' → tree F'.
Proof.
  intros Ht. unfold link_result. destruct src as [j|]; [|by intros [_ ->]]. destruct target as [[d nm]|]; [|by intros [_ ->]].
  case_decide as Hc; [|by intros [_ ->]]. intros [_ (fd & f & e & Hfd & Hin & Hj & Hf & Hty & Hnone & He1 & He2 & He3 & ->)].
  apply tree_add; try done; [by rewrite He3|]. right. by exists f.
Qed.
End link.
