(* ===== verification/UnlinkSpec.v ===== *)
(** * [unlink] keeps the tree

    What [sys_unlink] does to the files: it removes a name and the link it
    counted, and the file with it when nobody else uses it. *)

From stdpp Require Import gmap functions.
From S2P Require Import Prelude.
From S2P Require Import Bytes.
From S2P Require Import CString.
From S2P Require Import Log.
From S2P Require Import Fs.
From S2P Require Import FsDir.
From S2P Require Import FsSpec.
From S2P Require Import FileSpec.
From S2P Require Import FileRw.
From S2P Require Import InodeSpec.
From S2P Require Import FsInv.
From S2P Require Import FsOps.
From S2P Require Import CacheSpec.
From S2P Require Import DirSpec.
From S2P Require Import PathSpec.
From S2P Require Import FsRules.
From S2P Require Import Links.
From S2P Require Import DirMap.
From S2P Require Import Tree.
From S2P Require Import Sysfile.
From S2P Require Import LinkSpec.

Local Open Scope Z_scope.

Lemma is_dots_spec name : (DIRSIZ ≤ length name)%nat → is_dots name = Ok (bool_decide (¬ plain (dname name))).
Proof.
  intros Hlen. unfold is_dots, namecmp.
  destruct (strncmp_eq DIRSIZ name [46; 0]) as (r & -> & Hr); [by right|left; set_solver|]. rewrite bind_ret. change (take DIRSIZ (cstr [46; 0])) with DOT in Hr.
  destruct (strncmp_eq DIRSIZ name [46; 46; 0]) as (r' & -> & Hr'); [by right|left; set_solver|]. change (take DIRSIZ (cstr [46; 46; 0])) with DOTDOT in Hr'.
  fold (dname name) in Hr, Hr'. rewrite bind_ret. unfold plain. case_decide as H0.
  - f_equal. symmetry. apply bool_decide_eq_true. intros [Hd _]. by apply Hd, Hr.
  - f_equal. apply bool_decide_ext. rewrite Hr'. split; [intros -> [_ ?]; done|]. intros Hn. destruct (decide (dname name = DOTDOT)) as [|Hdd]; [done|].
    exfalso. apply Hn. split; [|done]. intros Hd. by apply H0, Hr.
Qed.

Section unlink.
Context (sb : superblock) (ds : Z) (devs : list devsw).
Notation inode_no := (inode_no sb).
Notation linkedF := (linkedF sb).
Notation st := (st sb ds).
Notation tree := (tree sb).
Notation ready := (ready sb ds).
Implicit Types (s : fstate) (j d : Z) (k ip dp : nat) (F : Z → option afile) (R : nat → Z) (N : nat → Z) (L : nat → bool) (B : nat) (f : afile).

Lemma isdirempty_loop_spec fuel s dp i data k :
  fs_inv sb ds s → dir sb s dp i data → (k ≤ nentries data)%nat → (nentries data - k ≤ fuel)%nat →
  ∃ b, isdirempty_loop devs fuel dp (Z.of_nat (DIRENT * k)) s = Ok (b, s) ∧
    (b = true ↔ ∀ m, (k ≤ m < nentries data)%nat → dent_inum (entry data m) = 0).
Proof.
  intros Hinv Hdir. pose proof (dir_size sb ds s dp i data Hinv Hdir) as (Hsz & Hs0 & Hmax). pose proof (dr_whole _ _ _ _ _ Hdir) as Hw.
  pose proof (proj2 (geti_Ok _ _ _) (ca_entry _ _ _ (dr_cached _ _ _ _ _ Hdir))) as Hgi. revert k.
  induction fuel as [|fuel IH]; intros k Hk Hfuel; cbn [isdirempty_loop]; rewrite Hgi, bind_ret.
  { assert (k = nentries data) as -> by lia. rewrite decide_False by lia. exists true. split; [done|]. split; [intros _ m ?; lia|done]. }
  destruct (decide (k = nentries data)) as [->|Hne].
  { rewrite decide_False by lia. exists true. split; [done|]. split; [intros _ m ?; lia|done]. }
  rewrite decide_True by (unfold DIRENT in *; lia). rewrite (read_dirent_spec sb ds devs s dp i data k) by (done || lia). rewrite bind_ret.
  rewrite dent_get by (apply slice_length; unfold DIRENT in *; lia). rewrite bind_ret. destruct (decide (dent_inum (entry data k) ≠ 0)) as [H0|H0].
  - exists false. split; [done|]. split; [done|]. intros Hall. destruct H0. apply Hall. lia.
  - replace (Z.of_nat (DIRENT * k) + Z.of_nat DIRENT) with (Z.of_nat (DIRENT * S k)) by (unfold DIRENT; lia).
    destruct (IH (S k)) as (b & -> & Hb); [lia|lia|]. exists b. split; [done|]. rewrite Hb. split; intros Hall m Hm; [|apply Hall; lia].
    destruct (decide (m = k)) as [->|]; [destruct (decide (dent_inum (entry data k) = 0)); [done|by destruct H0]|apply Hall; lia].
Qed.

Lemma st_isdirempty s F R N L B ip f :
  st s F R N L B → L ip = true → F (N ip) = Some f → af_type f = T_DIR → dir_wf (N ip) (af_data f) →
  ∃ b, isdirempty devs ip s = Ok (b, s) ∧ (b = true ↔ no_plain (dmap (af_data f))).
Proof.
  intros Hst Hl HF Hty Hwf. destruct (st_dir sb ds s F R N L B ip f Hst Hl HF Hty) as (i & Hdir & _); [apply Hwf|].
  pose proof (st_inv _ _ _ _ _ _ _ _ Hst) as Hinv. pose proof (dir_size sb ds s ip i _ Hinv Hdir) as (_ & _ & Hmax).
  destruct (isdirempty_loop_spec MAXDIRENT s ip i (af_data f) 2 Hinv Hdir) as (b & Hok & Hb); [apply Hwf|by etrans; [apply Nat.le_sub_l|apply nentries_max]|].
  exists b. split; [|rewrite Hb; by apply (dir_wf_empty (N ip))]. unfold isdirempty.
  replace (2 * Z.of_nat DIRENT) with (Z.of_nat (DIRENT * 2)) by (unfold DIRENT; lia). exact Hok.
Qed.

Lemma st_size s F R N L B k f : st s F R N L B → L k = true → F (N k) = Some f → (length (af_data f) ≤ MAXBYTES)%nat.
Proof.
  intros Hst Hl HF. destruct (st_locked sb ds _ _ _ _ _ _ k Hst Hl) as (i & f' & Hca & Hn & _ & _ & _ & _ & _ & HF' & Hf & _).
  assert (f' = f) as -> by congruence. pose proof (cached_file sb ds s k i (st_inv _ _ _ _ _ _ _ _ Hst) Hca) as Hcf. rewrite Hn, Hf in Hcf. apply Some_inj in Hcf as ->.
  cbn [af_data]. rewrite range_length. destruct (cached_facts sb ds s k i (st_inv _ _ _ _ _ _ _ _ Hst) Hca) as (_ & _ & _ & _ & _ & _ & H & _). exact H.
Qed.

(** ** Removing the entry *)
Section entry.
Context s F R N B dp ip k (fd f : afile).
Let L := <[ip := true]> (<[dp := true]> none).
Hypothesis Hst : st s F R N L B.
Hypothesis Hne : dp ≠ ip.
Hypothesis Hfd : F (N dp) = Some fd.
Hypothesis Htd : af_type fd = T_DIR.
Hypothesis Hf : F (N ip) = Some f.
Hypothesis Hk : (k < nentries (af_data fd))%nat.
Hypothesis Hw : whole (af_data fd).
Hypothesis HB : (3 ≤ B)%nat.
Hypothesis Hnl : 0 < af_nlink f.
Hypothesis Hnd : if decide (af_type f = T_DIR) then 2 ≤ af_nlink fd else 0 < af_nlink fd.

(** The directory and the file after it. *)
Definition fd_after : afile :=
  set_data (clear_entry k (af_data fd)) (if decide (af_type f = T_DIR) then set_nlink (af_nlink fd - 1) fd else fd).
Definition f_after (last : bool) : option afile := if last then None else Some (set_nlink (af_nlink f - 1) f).

Lemma entry_locks : L dp = true ∧ L ip = true ∧ N dp ≠ N ip ∧ 0 < R dp ∧ 0 < R ip.
Proof using Hst Hne.
  assert (L dp = true) as H1 by (unfold L; rewrite fn_lookup_insert_ne by done; by apply lock_one).
  assert (L ip = true) as H2 by (unfold L; by rewrite fn_lookup_insert).
  pose proof (st_lock _ _ _ _ _ _ _ _ Hst dp H1). pose proof (st_lock _ _ _ _ _ _ _ _ Hst ip H2). split_and!; try done.
  intros Heq. by apply Hne, (st_same sb ds _ _ _ _ _ _ dp ip Hst).
Qed.

(** Clearing the entry and releasing the directory. *)
Lemma entry_clear :
  ∃ s1 s2 s3, writei devs dp (replicate DIRENT 0) (Z.of_nat (DIRENT * k)) (Z.of_nat DIRENT) s = Ok (Z.of_nat DIRENT, s1) ∧
    (if decide (af_type f = T_DIR) then iupdate dp (updi (add_link (-1)) dp s1) else Ok s1) = Ok s2 ∧ iunlockput dp s2 = Ok s3 ∧
    st s3 (<[N dp := Some fd_after]> F) (<[dp := R dp - 1]> R) N (<[ip := true]> none) (B - 3).
Proof using All.
  destruct entry_locks as (Hld & Hlip & HN & Hrd & Hrip). pose proof (st_size _ _ _ _ _ _ dp fd Hst Hld Hfd) as Hmax.
  destruct (st_writei sb ds devs s F R N L B dp fd (replicate DIRENT 0) (DIRENT * k) DIRENT Hst Hld Hfd) as (s1 & Hw1 & Hst1).
  { by rewrite Htd. } { by apply Forall_replicate. } { by rewrite length_replicate. } { rewrite Hw. unfold DIRENT. lia. } { rewrite Hw in Hmax. unfold DIRENT in *. lia. } { done. }
  rewrite take_ge in Hst1 by (by rewrite length_replicate). fold (clear_entry k (af_data fd)) in Hst1. change (blocks_touched (Z.of_nat DIRENT) + 1)%nat with 3%nat in Hst1.
  assert (∃ s2, (if decide (af_type f = T_DIR) then iupdate dp (updi (add_link (-1)) dp s1) else Ok s1) = Ok s2 ∧
    st s2 (<[N dp := Some fd_after]> F) R N L (B - 3)) as (s2 & Hs2 & Hst2).
  { unfold fd_after. destruct (decide (af_type f = T_DIR)); [|by exists s1].
    destruct (st_add_link sb ds _ _ _ _ _ _ dp _ (-1) Hst1 Hld (fn_lookup_insert _ _ _)) as (s2 & Hs2 & Hst2).
    { cbn. destruct (st_short sb ds _ _ _ _ _ _ dp fd Hst Hld Hfd) as (_ & _ & Hsh). unfold short in *. lia. }
    exists s2. split; [done|]. eapply st_ext; [exact Hst2|..]; try done. intros x _. by rewrite fn_insert_twice. }
  destruct (st_iunlockput sb ds s2 _ R N L (B - 3) dp fd_after Hst2 Hld) as (s3 & Hs3 & Hst3); [apply fn_lookup_insert| |].
  { left. unfold fd_after. destruct (decide (af_type f = T_DIR)); cbn; lia. }
  exists s1, s2, s3. split_and!; try done. eapply st_ext; [exact Hst3|..]; try done. intros x. unfold L. by rewrite unlock_first.
Qed.

Lemma unlink_entry_spec :
  ∃ s', unlink_entry devs dp ip (Z.of_nat (DIRENT * k)) (af_type f) s = Ok (0, s') ∧
    st s' (<[N dp := Some fd_after]> (<[N ip := f_after (bool_decide (af_nlink f = 1 ∧ R ip = 1))]> F))
       (<[ip := R ip - 1]> (<[dp := R dp - 1]> R)) N none 0.
Proof using All.
  destruct entry_locks as (Hld & Hlip & HN & Hrd & Hrip). destruct entry_clear as (s1 & s2 & s3 & Hw1 & Hs2 & Hs3 & Hst3). unfold unlink_entry.
  rewrite Hw1, bind_ret, decide_False by auto. rewrite Hs2, bind_ret, Hs3, bind_ret.
  assert (<[ip := true]> none ip = true) as Hl by (by apply lock_one).
  assert (<[dp := R dp - 1]> R ip = R ip) as HR by (by rewrite fn_lookup_insert_ne).
  destruct (st_add_link sb ds _ _ _ _ _ _ ip f (-1) Hst3 Hl) as (s4 & -> & Hst4); [by rewrite fn_lookup_insert_ne| |].
  { destruct (st_short sb ds _ _ _ _ _ _ ip f Hst Hlip Hf) as (_ & _ & Hsh). unfold short in *. lia. }
  rewrite bind_ret. replace (af_nlink f + -1) with (af_nlink f - 1) in Hst4 by lia. set (f' := set_nlink (af_nlink f - 1) f) in *.
  assert (∀ o x, <[N ip := o]> (<[N ip := Some f']> (<[N dp := Some fd_after]> F)) x = <[N dp := Some fd_after]> (<[N ip := o]> F) x) as Hswap.
  { intros o x. rewrite fn_insert_twice. destruct (decide (N dp = x)) as [<-|Hdx]; [by rewrite fn_lookup_insert_ne, !fn_lookup_insert|].
    rewrite (fn_lookup_insert_ne _ (N dp)) by done. destruct (decide (N ip = x)) as [<-|Hix]; [by rewrite !fn_lookup_insert|by rewrite !fn_lookup_insert_ne]. }
  destruct (decide (af_nlink f = 1 ∧ R ip = 1)) as [[H1 Hr1]|Hkeep].
  - destruct (st_iunlockput_free sb ds _ _ _ _ _ _ ip f' Hst4 Hl) as (s5 & -> & Hst5); [by rewrite fn_lookup_insert|unfold f'; cbn; lia|lia|].
    rewrite bind_ret. exists s5. split; [done|]. rewrite bool_decide_true by done. eapply st_ext; [exact Hst5| | |done| |done].
    + intros x _. by rewrite Hswap.
    + intros x. by rewrite Hr1.
    + intros x. by rewrite unlock_one.
  - destruct (st_iunlockput sb ds _ _ _ _ _ _ ip f' Hst4 Hl) as (s5 & -> & Hst5); [by rewrite fn_lookup_insert| |].
    { rewrite HR. unfold f'. cbn. destruct (decide (af_nlink f = 1)); [right|left]; lia. }
    rewrite bind_ret. exists s5. split; [done|]. rewrite bool_decide_false by done. eapply st_ext; [exact Hst5| |intros x; by rewrite HR|done| |lia].
    + intros x _. cbn [f_after]. fold f'. rewrite <- Hswap. by rewrite fn_insert_twice.
    + intros x. by rewrite unlock_one.
Qed.
End entry.

(** ** The call *)

(** [F'] is [F] without the name [nm] of [j] in directory [d]; the file goes
    with its last link when there is no other reference to it. *)
Definition unlinked_as F R N (d : Z) (nm : list Z) F' : Prop :=
  ∃ fd j f k last, F d = Some fd ∧ in_tree sb d fd ∧ dlookup (af_data fd) nm = Some j ∧ (k < nentries (af_data fd))%nat ∧ is_entry nm (entry (af_data fd) k) ∧
    linkedF F j ∧ F j = Some f ∧ (af_type f = T_DIR → no_plain (dmap (af_data f))) ∧
    (last = true ↔ af_nlink f = 1 ∧ ∀ k, 0 < R k → N k ≠ j) ∧
    F' = <[d := Some (fd_after k fd f)]> (<[j := f_after f last]> F).

(** Why the call may refuse. *)
Definition keeps_name F (d : Z) (nm : list Z) : Prop :=
  ¬ plain nm ∨ namesF sb F d ≫= (.!! nm) = None ∨
  ∃ j mj, namesF sb F d ≫= (.!! nm) = Some j ∧ namesF sb F j = Some mj ∧ ¬ no_plain mj.

Definition unlink_result F R N (target : option (Z * list Z)) (r : Z) F' : Prop :=
  match target with
  | Some (d, nm) => r = 0 ∧ plain nm ∧ unlinked_as F R N d nm F' ∨ r = -1 ∧ F' = F ∧ keeps_name F d nm
  | None => r = -1 ∧ F' = F
  end.

Section call.
Context s F R N B (cwd : nat) (path : list Z).
Let target := walk_parentF F (startF N cwd path) (elems (cstr path)).
Hypothesis Hready : ready s F R N B cwd.
Hypothesis Hfree : free_slots 2 R.
Hypothesis Hpath : 0 ∈ path.
Hypothesis Hb : Forall byte_range (cstr path).

(** Giving the directory back. *)
Lemma unlink_bad_spec s1 N1 L B1 dp fd :
  st s1 F (<[dp := R dp + 1]> R) N1 L B1 → (∀ k, L k = <[dp := true]> none k) → F (N1 dp) = Some fd → af_nlink fd ≠ 0 →
  ∃ s2, unlink_bad dp s1 = Ok (-1, s2) ∧ st s2 F R N1 none B1.
Proof.
  intros Hst1 HL Hfd Hnl. unfold unlink_bad. assert (L dp = true) as Hl by (rewrite HL; by apply lock_one).
  destruct (st_iunlockput sb ds _ _ _ _ _ _ dp fd Hst1 Hl) as (s2 & -> & Hst2); [done|by left|]. rewrite bind_ret. exists s2. split; [done|].
  eapply st_ext; [exact Hst2|done| |done| |done]; intros k; [by rewrite gain_back|]. rewrite <- (unlock_one dp).
  destruct (decide (dp = k)) as [<-|Hne]; [by rewrite !fn_lookup_insert|]. rewrite !(fn_lookup_insert_ne _ dp) by done. rewrite HL. by rewrite fn_lookup_insert_ne.
Qed.

(** With the directory and the inode locked. *)
Section found.
Context s1 N1 dp ip d (fd : afile) k (j : Z).
Let R1 := <[dp := R dp + 1]> R.
Let R2 := <[ip := R1 ip + 1]> R1.
Let N2 := <[ip := j]> N1.
Hypothesis Hk1 : keeps R N N1.
Hypothesis Hdp : N1 dp = d.
Hypothesis Hrdp : 0 ≤ R dp.
Hypothesis Hfd : F d = Some fd.
Hypothesis Hin : in_tree sb d fd.
Hypothesis Hor : R1 ip = 0 ∨ 0 < R1 ip ∧ N1 ip = j.
Hypothesis Hst1 : st s1 F R2 N2 (<[dp := true]> none) B.
Hypothesis Hjd : j ≠ d.

Lemma found_ne : dp ≠ ip ∧ R1 ip = R ip ∧ 0 ≤ R ip ∧ N2 dp = d ∧ keeps R N N2 ∧ (R ip = 0 ↔ ∀ k, 0 < R k → N k ≠ j).
Proof using Hk1 Hdp Hrdp Hor Hst1 Hjd.
  assert (dp ≠ ip) as Hne.
  { intros <-. unfold R1 in Hor. rewrite fn_lookup_insert in Hor. destruct Hor as [?|[_ ?]]; [lia|congruence]. }
  assert (R1 ip = R ip) as HR by (unfold R1; by rewrite fn_lookup_insert_ne). rewrite HR in Hor.
  assert (keeps R N N2) as Hk2.
  { intros k' Hk'. unfold N2. destruct (decide (ip = k')) as [<-|Hik]; [|rewrite fn_lookup_insert_ne by done; by apply Hk1].
    rewrite fn_lookup_insert. destruct Hor as [?|[_ Hj]]; [lia|]. rewrite <- Hj. by apply Hk1. }
  split_and!; [done|done|lia|unfold N2; by rewrite fn_lookup_insert_ne|done|].
  split.
  - intros H0 k' Hk' Hj. assert (k' ≠ ip) as Hki by (intros ->; lia). assert (0 < R1 k') as Hk1' by (by apply gain_pos).
    apply Hki, (st_same sb ds _ _ _ _ _ _ k' ip Hst1); unfold R2.
    + by rewrite fn_lookup_insert_ne.
    + rewrite fn_lookup_insert. lia.
    + unfold N2 at 2. rewrite fn_lookup_insert, Hk2 by done. done.
  - intros Hno. destruct Hor as [|[Hr Hj]]; [done|]. destruct (Hno ip Hr). rewrite <- Hj. symmetry. by apply Hk1.
Qed.

Lemma found_spec f nm :
  tree F → F j = Some f → linkedF F j → dlookup (af_data fd) nm = Some j → plain nm → (k < nentries (af_data fd))%nat → is_entry nm (entry (af_data fd) k) → (3 ≤ B)%nat →
  ∃ r s' F', unlink_found devs dp ip (Z.of_nat (DIRENT * k)) s1 = Ok (r, s') ∧
    st s' F' R N2 none 0 ∧ (r = 0 ∧ unlinked_as F R N d nm F' ∨ r = -1 ∧ F' = F ∧ keeps_name F d nm).
Proof using All.
  intros Ht Hf Hlinked Hlk Hp Hk He HB. unfold unlink_found. destruct found_ne as (Hne & HR & Hrip & HN2 & Hk2 & Hlast).
  assert (R2 ip = R ip + 1) as HR2 by (unfold R2; rewrite fn_lookup_insert; lia). assert (N2 ip = j) as HN2i by (unfold N2; by rewrite fn_lookup_insert).
  destruct (st_ilock sb ds _ _ _ _ _ _ ip Hst1) as (s4 & -> & Hst4); [lia|by rewrite fn_lookup_insert_ne|]. rewrite bind_ret.
  assert (<[ip := true]> (<[dp := true]> none) ip = true) as Hl by (by rewrite fn_lookup_insert).
  destruct (st_locked sb ds _ _ _ _ _ _ ip Hst4 Hl) as (i & f' & [Hi _ _] & _ & _ & _ & _ & _ & Hino & Hf' & _ & Hty & Hnl).
  rewrite HN2i, Hf in Hf'. apply Some_inj in Hf' as <-. rewrite HN2i in Hino. pose proof (tree_count sb F Ht j f Hf Hino) as Hcount.
  destruct Hlinked as [_ (f2 & Hf2 & Hnl2)]. assert (f2 = f) as -> by congruence.
  rewrite (proj2 (geti_Ok _ _ _) Hi), bind_ret, Hty, Hnl, decide_False by lia.
  assert (∃ b, (if decide (af_type f = T_DIR) then isdirempty devs ip s4 else Ok (true, s4)) = Ok (b, s4) ∧
    (b = true ↔ (af_type f = T_DIR → no_plain (dmap (af_data f))))) as (b & -> & Hbool).
  { destruct (decide (af_type f = T_DIR)) as [Hd|Hd]; [|by exists true].
    destruct (st_isdirempty s4 F _ _ _ B ip f Hst4 Hl) as (b & Hok & Hbb); [by rewrite HN2i|done|rewrite HN2i; by apply (tr_dirs _ _ Ht)|].
    exists b. split; [done|]. rewrite Hbb. naive_solver. }
  rewrite bind_ret. destruct b; cbn [negb].
  - destruct Hbool as [Hempty _]. specialize (Hempty eq_refl).
    destruct (unlink_entry_spec s4 F R2 N2 B dp ip k fd f Hst4 Hne) as (s' & -> & Hst'); try done; [by rewrite HN2|apply Hin|by rewrite HN2i| | | |].
    { apply (tr_dirs _ _ Ht d fd Hfd Hin). } { lia. }
    { case_decide as Hd; [|pose proof (tree_count sb F Ht d fd Hfd (proj1 Hin)); destruct Hin as (_ & _ & ?); lia].
      apply (tree_rmdir sb F d fd k nm j f None Ht Hfd Hin Hk He Hp Hlk Hf); [done|by apply Hempty|by right]. }
    exists 0, s'. eexists. split; [done|]. split.
    + eapply st_ext; [exact Hst'|..]; try done. intros x. rewrite HR2. replace (R ip + 1 - 1) with (R ip) by lia.
      assert (R2 dp = R dp + 1) as -> by (unfold R2, R1; rewrite fn_lookup_insert_ne, fn_lookup_insert by done; done). replace (R dp + 1 - 1) with (R dp) by lia.
      unfold R2, R1. destruct (decide (ip = x)) as [<-|Hix]; [by rewrite fn_lookup_insert|]. rewrite (fn_lookup_insert_ne _ ip) by done.
      destruct (decide (dp = x)) as [<-|Hdx]; [by rewrite fn_lookup_insert|]. by rewrite !fn_lookup_insert_ne.
    + left. split; [done|]. exists fd, j, f, k, (bool_decide (af_nlink f = 1 ∧ R2 ip = 1)). rewrite bool_decide_eq_true. split_and!; try done.
      * split; [done|by exists f].
      * rewrite <- Hlast, HR2. split; intros [? ?]; (split; [done|lia]).
      * by rewrite HN2, HN2i.
  - destruct (decide (af_type f = T_DIR)) as [Hd|Hd]; [|by assert (false = true) by (apply Hbool; by intros)].
    destruct (st_iunlockput sb ds _ _ _ _ _ _ ip f Hst4 Hl) as (s6 & -> & Hst6); [by rewrite HN2i|by left|]. rewrite bind_ret.
    apply (st_ext sb ds _ _ _ _ _ _ F R1 N2 (<[dp := true]> none) B) in Hst6; [|done| |done| |done].
    + destruct (unlink_bad_spec s6 N2 _ B dp fd Hst6) as (s7 & -> & Hst7); [done|by rewrite HN2|apply Hin|].
      exists (-1), s7, F. split; [done|]. split; [eapply st_ext; [exact Hst7|..]; try done; lia|]. right. split_and!; try done. right; right.
      exists j, (dmap (af_data f)). rewrite (names_lookup sb F d fd nm Hfd Hin). split_and!; [done| |].
      * by apply namesF_in.
      * intros Hno. by assert (false = true) by (apply Hbool; by intros).
    + intros x. rewrite HR2. unfold R2. rewrite fn_insert_twice. replace (R ip + 1 - 1) with (R1 ip) by lia. by rewrite fn_insert_same.
    + intros x. destruct (decide (ip = x)) as [<-|Hix]; [by rewrite fn_lookup_insert, fn_lookup_insert_ne|]. by rewrite !(fn_lookup_insert_ne _ ip).
Qed.
End found.

Lemma unlink_call_spec :
  (3 ≤ B)%nat → ∃ r s' F' N', unlink devs cwd path s = Ok (r, s') ∧ st s' F' R N' none 0 ∧ keeps R N N' ∧ unlink_result F R N target r F'.
Proof using All.
  intros HB. pose proof Hready as [Hst Ht Hr Hcwd]. unfold unlink, unlink_result.
  destruct (st_nameiparent sb ds devs s F R N B cwd path Hst) as (res & name & s1 & N1 & -> & Hst1 & Hk1 & Hres); try done.
  { by apply tree_treeF. } { by apply tree_root. } { by apply free_slots_two. }
  rewrite bind_ret. fold target in Hres. destruct target as [[d nm]|].
  2:{ subst res. exists (-1), s1, F, N1. split_and!; try done. eapply st_ext; [exact Hst1|..]; try done. lia. }
  destruct Hres as (dp & fd & -> & Hdp & Hrdp & Hfd & Hin & <- & Hlen & Hbn). cbn [gained] in Hst1. pose proof (tr_dirs _ _ Ht d fd Hfd Hin) as Hwf.
  destruct (st_ilock sb ds _ _ _ _ _ _ dp Hst1) as (s2 & -> & Hst2); [rewrite fn_lookup_insert; lia|done|]. rewrite bind_ret.
  assert (<[dp := true]> none dp = true) as Hl by (by apply lock_one).
  destruct (unlink_bad_spec s2 N1 _ B dp fd Hst2) as (sb' & Hbad & Hstb); [done|by rewrite Hdp|apply Hin|].
  assert (st sb' F R N1 none 0) as Hstb0 by (eapply st_ext; [exact Hstb|..]; try done; lia).
  rewrite is_dots_spec by done. rewrite bind_ret. destruct (decide (plain (dname name))) as [Hp|Hp].
  2:{ rewrite bool_decide_true by done. rewrite Hbad. exists (-1), sb', F, N1. split_and!; try done. right. split_and!; try done. by left. }
  rewrite bool_decide_false by auto. destruct (dlookup (af_data fd) (dname name)) as [j|] eqn:Hlk.
  2:{ rewrite (st_dirlookup_none sb ds devs s2 F _ N1 _ B dp fd name Hst2 Hl); try done; [|by rewrite Hdp|apply Hin|apply Hwf|by right].
      rewrite bind_ret, Hbad. exists (-1), sb', F, N1. split_and!; try done. right. split_and!; try done. right; left. by rewrite (names_lookup sb F d fd _ Hfd Hin). }
  destruct (dlookup_Some _ _ _ Hlk) as (k & Hk & Hfind & He & Hinum). pose proof (tree_entry sb F Ht d fd _ j Hfd Hin Hlk) as Hlj. pose proof Hlj as [Hnoj (f & Hf & _)].
  destruct (st_dirlookup sb ds devs s2 F _ N1 _ B dp fd name k Hst2 Hl) as (ip & s3 & -> & Hor & Hst3);
    rewrite ?Hinum in *; try done; [by rewrite Hdp|apply Hin|apply Hwf|by right|congruence|by apply free_slots_one with 0%nat, free_slots_gain|].
  rewrite bind_ret. assert (j ≠ d) as Hjd by (intros ->; by apply (tree_child sb F Ht d fd _ Hfd Hin Hp)).
  destruct (found_spec s3 N1 dp ip d fd k j Hk1 Hdp Hrdp Hfd Hin Hor Hst3 Hjd f (dname name)) as (r & s' & F' & Hrun & Hst' & Hres); try done.
  exists r, s', F', (<[ip := j]> N1). split_and!; [done|done| |].
  - by apply (found_ne s3 N1 dp ip d j Hk1 Hdp Hrdp Hor Hst3 Hjd).
  - destruct Hres as [[? ?]|?]; [by left|by right].
Qed.
End call.

(** The tree stays a tree. *)
Lemma unlink_tree F R N target r F' : tree F → unlink_result F R N target r F' → tree F'.
Proof.
  intros Ht. unfold unlink_result. destruct target as [[d nm]|]; [|by intros [_ ->]].
  intros [(_ & Hp & fd & j & f & k & last & Hfd & Hin & Hlk & Hk & He & [Hno (f' & Hf' & Hnl)] & Hf & Hempty & Hlast & ->)|(_ & -> & _)]; [|done].
  assert (f' = f) as -> by congruence. unfold fd_after. destruct (decide (af_type f = T_DIR)) as [Hty|Hty].
  - assert (∀ o, o = Some (set_nlink 0 f) ∨ o = None → tree (<[d := Some (set_data (clear_entry k (af_data fd)) (set_nlink (af_nlink fd - 1) fd))]> (<[j := o]> F)) ∧ af_nlink f = 1) as Hrm.
    { intros o Ho. destruct (tree_rmdir sb F d fd k nm j f o Ht Hfd Hin Hk He Hp Hlk Hf) as (? & ? & _); try done. by apply Hempty. }
    destruct (Hrm None ltac:(by right)) as [_ H1]. apply Hrm. unfold f_after. rewrite H1. destruct last; [by right|by left].
  - apply (tree_del sb F d fd k nm j f); try done. unfold f_after. destruct last; [right|by left]. split; [done|]. by apply Hlast.
Qed.
End unlink.
