(* ===== verification/CreateSpec.v ===== *)
(** * [create] keeps the tree

    What [create], and with it [open], [mkdir] and [mknod], does to the files:
    it returns the file with the name or makes a new file, device or directory
    with its entries [.] and [..]. *)

From stdpp Require Import gmap functions.
From S2P Require Import Prelude.
From S2P Require Import Bytes.
From S2P Require Import CString.
From S2P Require Import Log.
From S2P Require Import Fs.
From S2P Require Import FsDir.
From S2P Require Import FsSpec.
From S2P Require Import FileSpec.
From S2P Require Import FileRw.
From S2P Require Import InodeSpec.
From S2P Require Import FsInv.
From S2P Require Import FsOps.
From S2P Require Import CacheSpec.
From S2P Require Import DirSpec.
From S2P Require Import PathSpec.
From S2P Require Import FsRules.
From S2P Require Import Links.
From S2P Require Import DirMap.
From S2P Require Import Tree.
From S2P Require Import Sysfile.
From S2P Require Import LinkSpec.

Local Open Scope Z_scope.

Section create.
Context (sb : superblock) (ds : Z) (devs : list devsw).
Notation inode_no := (inode_no sb).
Notation linkedF := (linkedF sb).
Notation st := (st sb ds).
Notation tree := (tree sb).
Notation ready := (ready sb ds).
Implicit Types (s : fstate) (j d : Z) (k ip dp : nat) (F : Z → option afile) (R : nat → Z) (N : nat → Z) (L : nat → bool) (B : nat) (f : afile).

Lemma MAXBYTES_pos n : (n ≤ DIRENT)%nat → (n < MAXBYTES)%nat.
Proof. intros Hn. pose proof MAXBYTES_Z. unfold DIRENT in Hn. lia. Qed.

(** ** The entries [.] and [..] *)
Lemma link_dots_spec s F R N L B dp ip fd f :
  st s F R N L B → L dp = true → L ip = true → N dp ≠ N ip → F (N dp) = Some fd → F (N ip) = Some f →
  af_type f = T_DIR → af_data f = [] → 0 ≤ af_nlink fd < 32767 → (6 ≤ B)%nat →
  ∃ s' data, link_dots devs dp ip s = Ok s' ∧ dir_wf (N ip) data ∧ dmap data = new_dir (N ip) (N dp) ∧
    st s' (<[N ip := Some (set_data data f)]> (<[N dp := Some (set_nlink (af_nlink fd + 1) fd)]> F)) R N L (B - 6).
Proof.
  intros Hst Hld Hl Hne Hfd Hf Hty Hnil Hnl HB. unfold link_dots.
  destruct (st_inode_u16 sb ds _ _ _ _ _ _ dp Hst (st_lock _ _ _ _ _ _ _ _ Hst dp Hld)) as [Hnod Hd16].
  destruct (st_inode_u16 sb ds _ _ _ _ _ _ ip Hst (st_lock _ _ _ _ _ _ _ _ Hst ip Hl)) as [Hnoj Hj16]. unfold InodeSpec.inode_no in *.
  destruct (st_add_link sb ds _ _ _ _ _ _ dp fd 1 Hst Hld Hfd) as (s1 & -> & Hst1); [unfold short; lia|]. rewrite bind_ret.
  destruct (st_locked sb ds _ _ _ _ _ _ ip Hst1 Hl) as (i & _ & [Hi _ _] & Hni & _). rewrite (proj2 (geti_Ok _ _ _) Hi), bind_ret, Hni.
  destruct (st_dirlink sb ds devs s1 _ R N L B ip f [46; 0] (N ip) Hst1 Hl) as (s2 & e1 & -> & He1 & Hi1 & Hn1 & Hst2);
    rewrite ?Hnil; try done; [by rewrite fn_lookup_insert_ne|left; set_solver|by repeat constructor|lia|by apply MAXBYTES_pos; cbn; lia|lia|].
  rewrite bind_ret, decide_False by lia. change (dname [46; 0]) with DOT in Hn1. rewrite Hnil in Hst2.
  destruct (st_locked sb ds _ _ _ _ _ _ dp Hst2 Hld) as (di & _ & [Hdi _ _] & Hnd & _). rewrite (proj2 (geti_Ok _ _ _) Hdi), bind_ret, Hnd.
  assert (whole (with_entry e1 []) ∧ dlookup (with_entry e1 []) DOTDOT = None ∧ length (with_entry e1 []) = DIRENT) as (Hw1 & Hl1 & Hlen1).
  { split_and!; [by apply (add_nentries [] e1)|..].
    - rewrite <- dmap_lookup, add_map by (done || lia). rewrite Hn1. by rewrite lookup_insert_ne.
    - unfold with_entry. by rewrite overwrite_length, He1 by done. }
  destruct (st_dirlink sb ds devs s2 _ R N L (B - 3) ip (set_data (with_entry e1 []) f) [46; 46; 0] (N dp) Hst2 Hl) as (s3 & e2 & -> & He2 & Hi2 & Hn2 & Hst3);
    try done; [by rewrite fn_lookup_insert|left; set_solver|by repeat constructor|lia|apply MAXBYTES_pos; cbn [af_data set_data]; lia|lia|].
  rewrite bind_ret, decide_False by lia. change (dname [46; 46; 0]) with DOTDOT in Hn2.
  destruct (dir_wf_new (N ip) (N dp) e1 e2 He1 He2 Hi1 Hi2) as (Hwf & Hmap & _); try done; [lia|lia|].
  exists s3, (with_entry e2 (with_entry e1 [])). split_and!; try done. eapply st_ext; [exact Hst3|..]; try done; [|lia].
  intros x _. by rewrite fn_insert_twice.
Qed.

(** ** A new inode *)

(** The entries of the new file: none, or those of a new directory. *)
Definition fresh_data (type j d : Z) (data : list Z) : Prop :=
  if decide (type = T_DIR) then dir_wf j data ∧ dmap data = new_dir j d else data = [].

(** [F'] is [F] with the new inode [j] under the name [nm] in [d]. *)
Definition created_as F (d j type major minor : Z) (nm : list Z) F' : Prop :=
  ∃ fd e data, F d = Some fd ∧ in_tree sb d fd ∧ dlookup (af_data fd) nm = None ∧ inode_no j ∧ F j = None ∧
    length e = DIRENT ∧ dent_inum e = j ∧ dent_name e = nm ∧ fresh_data type j d data ∧
    F' = <[d := Some (set_data (with_entry e (af_data fd)) (if decide (type = T_DIR) then set_nlink (af_nlink fd + 1) fd else fd))]>
           (<[j := Some (mkafile type major minor 1 data)]> F).

Section new.
Context s F R N B dp (name : list Z) (type major minor : Z) (fd : afile).
Hypothesis Hst : st s F R N (<[dp := true]> none) B.
Hypothesis Hrdp : 0 < R dp.
Hypothesis Hfd : F (N dp) = Some fd.
Hypothesis Hin : in_tree sb (N dp) fd.
Hypothesis Hwf : dir_wf (N dp) (af_data fd).
Hypothesis Hnone : dlookup (af_data fd) (dname name) = None.
Hypothesis Hlen : (DIRSIZ ≤ length name)%nat.
Hypothesis Hbn : Forall byte_range (dname name).
Hypothesis Htype : short type ∧ type ≠ 0.
Hypothesis Hma : short major.
Hypothesis Hmi : short minor.
Hypothesis Hinode : ∃ j, inode_no j ∧ F j = None.
Hypothesis Hslot : ∃ ip, (ip < NINODE)%nat ∧ R ip = 0.
Hypothesis Hroom : (length (af_data fd) < MAXBYTES)%nat.
Hypothesis Hnl : 0 ≤ af_nlink fd < 32767.
Hypothesis HB : (9 ≤ B)%nat.

(** Up to the entries of a new directory. *)
Lemma create_inode :
  ∃ ip j s1 s2 s3 s4 data, ialloc ROOTDEV type s = Ok (ip, s1) ∧ ilock ip s1 = Ok s2 ∧
    iupdate ip (updi (λ i, i <| i_major := major |> <| i_minor := minor |> <| i_nlink := 1 |>) ip s2) = Ok s3 ∧
    (if decide (type = T_DIR) then link_dots devs dp ip s3 else Ok s3) = Ok s4 ∧
    inode_no j ∧ F j = None ∧ R ip = 0 ∧ dp ≠ ip ∧ fresh_data type j (N dp) data ∧
    st s4 (<[N dp := Some (if decide (type = T_DIR) then set_nlink (af_nlink fd + 1) fd else fd)]> (<[j := Some (mkafile type major minor 1 data)]> F))
       (<[ip := 1]> R) (<[ip := j]> N) (<[ip := true]> (<[dp := true]> none)) (B - 6).
Proof using All.
  destruct (st_ialloc sb ds s F R N _ B type Hst) as (ip & j & s1 & Hia & Hnoj & HFj & Hrip & Hst1); [apply Htype..|done|done|].
  assert (dp ≠ ip) as Hne by (intros <-; lia). assert (N dp ≠ j) as Hdj by congruence.
  destruct (st_ilock sb ds _ _ _ _ _ _ ip Hst1) as (s2 & Hil & Hst2); [rewrite fn_lookup_insert; lia|by rewrite fn_lookup_insert_ne|].
  set (L := <[ip := true]> (<[dp := true]> none)) in *. assert (L ip = true) as Hl by (unfold L; by rewrite fn_lookup_insert).
  assert (L dp = true) as Hld by (unfold L; rewrite fn_lookup_insert_ne by done; by apply lock_one).
  destruct (st_iupdate sb ds _ _ _ _ _ _ ip (mkafile type 0 0 0 []) (λ i, i <| i_major := major |> <| i_minor := minor |> <| i_nlink := 1 |>) major minor 1 Hst2 Hl) as (s3 & Hiu & Hst3);
    try done; [by rewrite !fn_lookup_insert|].
  rewrite fn_lookup_insert in Hst3. change (set_meta major minor 1 (mkafile type 0 0 0 [])) with (mkafile type major minor 1 []) in Hst3.
  assert (<[ip := j]> N dp = N dp) as HNdp by (by rewrite fn_lookup_insert_ne).
  destruct (decide (type = T_DIR)) as [Hd|Hd] eqn:Hdec.
  - destruct (link_dots_spec s3 _ _ _ L B dp ip fd (mkafile type major minor 1 []) Hst3 Hld Hl) as (s4 & data & Hdots & Hwfj & Hmap & Hst4); rewrite ?HNdp, ?fn_lookup_insert in *; try done.
    { by rewrite !fn_lookup_insert_ne. } { lia. }
    exists ip, j, s1, s2, s3, s4, data. split_and!; try done.
    + unfold fresh_data. by rewrite Hdec.
    + eapply st_ext; [exact Hst4|..]; try done. intros x _. destruct (decide (j = x)) as [<-|Hjx].
      { by rewrite (fn_lookup_insert_ne _ (N dp)), !fn_lookup_insert by done. }
      rewrite (fn_lookup_insert_ne (<[N dp := _]> _) j) by done. destruct (decide (N dp = x)) as [<-|Hdx]; [by rewrite !fn_lookup_insert|]. by rewrite !fn_lookup_insert_ne.
  - exists ip, j, s1, s2, s3, s3, []. split_and!; try done.
    + unfold fresh_data. by rewrite Hdec.
    + eapply st_ext; [exact Hst3|..]; try done; [|lia]. intros x _. destruct (decide (N dp = x)) as [<-|Hdx]; [by rewrite fn_lookup_insert, !fn_lookup_insert_ne|].
      rewrite (fn_lookup_insert_ne _ (N dp)) by done. by rewrite fn_insert_twice.
Qed.

Lemma create_new_spec :
  ∃ ip j s' F', create_new devs dp name type major minor s = Ok (Some ip, s') ∧ R ip = 0 ∧ created_as F (N dp) j type major minor (dname name) F' ∧
    st s' F' (<[dp := R dp - 1]> (<[ip := 1]> R)) (<[ip := j]> N) (<[ip := true]> none) (B - 9).
Proof using All.
  destruct create_inode as (ip & j & s1 & s2 & s3 & s4 & data & Hia & Hil & Hiu & Hld & Hnoj & HFj & Hrip & Hne & Hfresh & Hst4). unfold create_new.
  assert (<[dp := true]> none dp = true) as Hl by (by apply lock_one).
  destruct (st_locked sb ds _ _ _ _ _ _ dp Hst Hl) as (di & _ & [Hdi _ _] & _ & _ & _ & Hdev & _).
  rewrite (proj2 (geti_Ok _ _ _) Hdi), bind_ret, Hdev, Hia, bind_ret, Hil, bind_ret, Hiu, bind_ret, Hld, bind_ret.
  set (L := <[ip := true]> (<[dp := true]> none)) in *. assert (L ip = true) as Hlip by (unfold L; by rewrite fn_lookup_insert).
  assert (L dp = true) as Hldp by (unfold L; by rewrite fn_lookup_insert_ne).
  assert (<[ip := j]> N dp = N dp) as HNdp by (by rewrite fn_lookup_insert_ne).
  destruct (st_locked sb ds _ _ _ _ _ _ ip Hst4 Hlip) as (i & _ & [Hi _ _] & Hni & _). rewrite (proj2 (geti_Ok _ _ _) Hi), bind_ret, Hni, fn_lookup_insert.
  destruct (st_inode_u16 sb ds _ _ _ _ _ _ ip Hst4 (st_lock _ _ _ _ _ _ _ _ Hst4 ip Hlip)) as [_ Hj16]. rewrite fn_lookup_insert in Hj16.
  set (fd1 := if decide (type = T_DIR) then set_nlink (af_nlink fd + 1) fd else fd) in *.
  assert (af_type fd1 = T_DIR ∧ af_data fd1 = af_data fd ∧ af_nlink fd1 ≠ 0) as (Hty1 & Hda1 & Hnl1).
  { destruct Hin as (_ & ? & ?). unfold fd1. destruct (decide (type = T_DIR)); split_and!; try done. cbn. lia. }
  destruct (st_dirlink sb ds devs s4 _ _ _ L (B - 6) dp fd1 name j Hst4 Hldp) as (s5 & e & -> & He1 & He2 & He3 & Hst5);
    rewrite ?HNdp, ?Hda1 in *; try done; [by rewrite fn_lookup_insert|apply Hwf|by right|unfold InodeSpec.inode_no in Hnoj; lia|lia|].
  rewrite bind_ret, decide_False by lia. set (fd2 := set_data (with_entry e (af_data fd)) fd1) in *.
  destruct (st_iunlockput sb ds s5 _ _ _ L (B - 6 - 3) dp fd2 Hst5 Hldp) as (s6 & -> & Hst6); [by rewrite HNdp, fn_lookup_insert|by left|].
  rewrite bind_ret. exists ip, j, s6, (<[N dp := Some fd2]> (<[j := Some (mkafile type major minor 1 data)]> F)). split_and!; try done.
  - exists fd, e, data. by split_and!.
  - eapply st_ext; [exact Hst6|..]; try done; [| | |lia].
    + intros x _. by rewrite fn_insert_twice.
    + intros x. by rewrite (fn_lookup_insert_ne R ip dp 1).
    + intros x. unfold L. by rewrite unlock_first.
Qed.
End new.

(** ** The call *)

(** A reference to [j], locked, that the caller has in addition. *)
Definition returns s R N B (res : option nat) F' (j : Z) : Prop :=
  ∃ ip N', res = Some ip ∧ 0 ≤ R ip ∧ N' ip = j ∧ keeps R N N' ∧ st s F' (<[ip := R ip + 1]> R) N' (<[ip := true]> none) B.
Definition returns_none s R N B (res : option nat) F' : Prop := ∃ N', res = None ∧ keeps R N N' ∧ st s F' R N' none B.

Definition create_result s F R N B (target : option (Z * list Z)) (type major minor : Z) (res : option nat) F' : Prop :=
  match target with
  | Some (d, nm) =>
      match namesF sb F d ≫= (.!! nm) with
      | Some j =>
          F' = F ∧ if decide (type = T_FILE ∧ af_type <$> F j = Some T_FILE) then returns s R N B res F j else returns_none s R N B res F
      | None => ∃ j, created_as F d j type major minor nm F' ∧ returns s R N B res F' j
      end
  | None => F' = F ∧ returns_none s R N B res F
  end.

Lemma gain_swap R dp ip r k : dp ≠ ip → <[dp := <[ip := r]> (<[dp := R dp + 1]> R) dp - 1]> (<[ip := r]> (<[dp := R dp + 1]> R)) k = <[ip := r]> R k.
Proof.
  intros Hne. rewrite (fn_lookup_insert_ne _ ip dp), fn_lookup_insert by done. replace (R dp + 1 - 1) with (R dp) by lia.
  destruct (decide (dp = k)) as [<-|Hdk]; [by rewrite fn_lookup_insert, fn_lookup_insert_ne|]. rewrite (fn_lookup_insert_ne _ dp k) by done.
  destruct (decide (ip = k)) as [<-|Hik]; [by rewrite !fn_lookup_insert|by rewrite !fn_lookup_insert_ne].
Qed.

Section call.
Context s F R N B (cwd : nat) (path : list Z) (type major minor : Z).
Let target := walk_parentF F (startF N cwd path) (elems (cstr path)).
Hypothesis Hready : ready s F R N B cwd.
Hypothesis Hfree : free_slots 2 R.
Hypothesis Hpath : 0 ∈ path.
Hypothesis Hb : Forall byte_range (cstr path).

(** The name is there: its inode [j], entry [ip], and the locked directory. *)
Lemma create_found_spec s1 N1 dp ip d fd j f :
  let R1 := <[dp := R dp + 1]> R in
  st s1 F (<[ip := R1 ip + 1]> R1) (<[ip := j]> N1) (<[dp := true]> none) B → keeps R N N1 → N1 dp = d → 0 ≤ R dp → (R1 ip = 0 ∨ 0 < R1 ip ∧ N1 ip = j) →
  F d = Some fd → af_nlink fd ≠ 0 → F j = Some f → af_nlink f ≠ 0 →
  ∃ res s', create_found dp ip type s1 = Ok (res, s') ∧
    if decide (type = T_FILE ∧ af_type f = T_FILE) then returns s' R N B res F j else returns_none s' R N B res F.
Proof using All.
  intros R1 Hst1 Hk1 Hdp Hrdp Hor Hfd Hnd Hf Hnf. unfold create_found. set (R2 := <[ip := R1 ip + 1]> R1) in *. set (N2 := <[ip := j]> N1) in *.
  assert (<[dp := true]> none dp = true) as Hl by (by apply lock_one). assert (R1 dp = R dp + 1) as HR1 by (unfold R1; by rewrite fn_lookup_insert).
  assert (N2 dp = d) as HN2.
  { unfold N2. destruct (decide (ip = dp)) as [->|Hne]; [|by rewrite fn_lookup_insert_ne]. rewrite fn_lookup_insert. destruct Hor as [?|[_ ?]]; [lia|congruence]. }
  assert (keeps R N N2 ∧ 0 ≤ R ip) as [Hk2 Hrip].
  { assert (R ip ≤ R1 ip) by (unfold R1; destruct (decide (dp = ip)) as [->|Hne]; [rewrite fn_lookup_insert; lia|by rewrite fn_lookup_insert_ne]). split.
    - intros k Hk. unfold N2. destruct (decide (ip = k)) as [<-|Hik]; [|rewrite fn_lookup_insert_ne by done; by apply Hk1].
      rewrite fn_lookup_insert. destruct Hor as [?|[_ <-]]; [lia|by apply Hk1].
    - unfold R1 in Hor. destruct (decide (dp = ip)) as [<-|Hne]; [done|]. rewrite fn_lookup_insert_ne in Hor by done. lia. }
  destruct (st_iunlockput sb ds _ _ _ _ _ _ dp fd Hst1 Hl) as (s2 & -> & Hst2); [by rewrite HN2|by left|]. rewrite bind_ret.
  apply (st_ext sb ds _ _ _ _ _ _ F (<[ip := R ip + 1]> R) N2 none B) in Hst2; [|done| |done|intros k; by rewrite unlock_one|done].
  2:{ intros k. unfold R2. destruct (decide (dp = ip)) as [<-|Hne].
      - rewrite HR1, fn_lookup_insert. rewrite fn_insert_twice. replace (R dp + 1 + 1 - 1) with (R dp + 1) by lia. unfold R1. by rewrite fn_insert_twice.
      - assert (R1 ip = R ip) as -> by (unfold R1; by rewrite fn_lookup_insert_ne). unfold R1. by rewrite gain_swap. }
  destruct (st_ilock sb ds _ _ _ _ _ _ ip Hst2) as (s3 & -> & Hst3); [rewrite fn_lookup_insert; lia|done|]. rewrite bind_ret.
  assert (<[ip := true]> none ip = true) as Hlip by (by apply lock_one). assert (N2 ip = j) as HN2i by (unfold N2; by rewrite fn_lookup_insert).
  destruct (st_locked sb ds _ _ _ _ _ _ ip Hst3 Hlip) as (i & f' & [Hi _ _] & _ & _ & _ & _ & _ & _ & Hf' & _ & Hty & _).
  rewrite HN2i, Hf in Hf'. apply Some_inj in Hf' as <-. rewrite (proj2 (geti_Ok _ _ _) Hi), bind_ret, Hty. case_decide.
  - exists (Some ip), s3. split; [done|]. exists ip, N2. by split_and!.
  - destruct (st_iunlockput sb ds _ _ _ _ _ _ ip f Hst3 Hlip) as (s4 & -> & Hst4); [by rewrite HN2i|by left|]. rewrite bind_ret.
    exists None, s4. split; [done|]. exists N2. split_and!; try done.
    eapply st_ext; [exact Hst4|..]; try done; [intros k; by rewrite gain_back|intros k; by rewrite unlock_one].
Qed.

Lemma create_spec :
  short type → type ≠ 0 → short major → short minor → (∃ j, inode_no j ∧ F j = None) → (9 ≤ B)%nat →
  (∀ d nm fd, target = Some (d, nm) → F d = Some fd → (length (af_data fd) < MAXBYTES)%nat ∧ af_nlink fd < 32767) →
  ∃ res s' F', create devs cwd path type major minor s = Ok (res, s') ∧ create_result s' F R N (B - 9) target type major minor res F'.
Proof using All.
  intros Hty Hnz Hma Hmi Hinode HB Hguard. pose proof Hready as [Hst Ht Hr Hcwd]. unfold create, create_result.
  destruct (st_nameiparent sb ds devs s F R N B cwd path Hst) as (res & name & s1 & N1 & -> & Hst1 & Hk1 & Hres); try done.
  { by apply tree_treeF. } { by apply tree_root. } { by apply free_slots_two. }
  rewrite bind_ret. fold target in Hres. destruct target as [[d nm]|].
  2:{ subst res. exists None, s1, F. split_and!; try done. exists N1. split_and!; try done. eapply st_ext; [exact Hst1|..]; try done. lia. }
  destruct Hres as (dp & fd & -> & Hdp & Hrdp & Hfd & Hin & <- & Hlen & Hbn). cbn [gained] in Hst1. pose proof (tr_dirs _ _ Ht d fd Hfd Hin) as Hwf.
  destruct (st_ilock sb ds _ _ _ _ _ _ dp Hst1) as (s2 & -> & Hst2); [rewrite fn_lookup_insert; lia|done|]. rewrite bind_ret.
  assert (<[dp := true]> none dp = true) as Hl by (by apply lock_one). rewrite (names_lookup sb F d fd _ Hfd Hin).
  assert (∃ ip, (ip < NINODE)%nat ∧ <[dp := R dp + 1]> R ip = 0) as Hslot by (by apply free_slots_one with 0%nat, free_slots_gain).
  destruct (dlookup (af_data fd) (dname name)) as [j|] eqn:Hlk.
  - destruct (dlookup_Some _ _ _ Hlk) as (k & Hk & Hfind & He & Hinum). destruct (tree_entry sb F Ht d fd _ j Hfd Hin Hlk) as [Hnoj (f & Hf & Hnf)].
    destruct (st_dirlookup sb ds devs s2 F _ N1 _ B dp fd name k Hst2 Hl) as (ip & s3 & -> & Hor & Hst3);
      rewrite ?Hinum in *; try done; [by rewrite Hdp|apply Hin|apply Hwf|by right|congruence|].
    rewrite bind_ret. destruct (create_found_spec s3 N1 dp ip d fd j f Hst3 Hk1 Hdp Hrdp Hor Hfd ltac:(apply Hin) Hf Hnf) as (res & s' & -> & Hres).
    exists res, s', F. rewrite Hf. cbn [fmap option_fmap option_map]. split_and!; [done|done|].
    assert (∀ B', (B' ≤ B)%nat → returns s' R N B res F j → returns s' R N B' res F j) as Hless1.
    { intros B' HB' (ip' & N' & ? & ? & ? & ? & Hst'). exists ip', N'. split_and!; try done. eapply st_ext; [exact Hst'|..]; done. }
    assert (∀ B', (B' ≤ B)%nat → returns_none s' R N B res F → returns_none s' R N B' res F) as Hless2.
    { intros B' HB' (N' & ? & ? & Hst'). exists N'. split_and!; try done. eapply st_ext; [exact Hst'|..]; done. }
    destruct (decide (type = T_FILE ∧ af_type f = T_FILE)) as [[H1 H2]|Hn].
    + rewrite decide_True by (split; [done|by rewrite H2]). apply Hless1; [lia|exact Hres].
    + rewrite decide_False by (intros [? [= ?]]; by apply Hn). apply Hless2; [lia|exact Hres].
  - rewrite (st_dirlookup_none sb ds devs s2 F _ N1 _ B dp fd name Hst2 Hl); [|by rewrite Hdp|apply Hin|apply Hwf|by right|done]. rewrite bind_ret.
    destruct (Hguard d (dname name) fd eq_refl Hfd) as [Hroom Hmax]. pose proof (tree_count sb F Ht d fd Hfd (proj1 Hin)) as Hcount.
    destruct (create_new_spec s2 F _ N1 B dp name type major minor fd Hst2) as (ip & j & s' & F' & -> & Hrip & Has & Hst'); rewrite ?Hdp; try done; [rewrite fn_lookup_insert; lia|lia|].
    assert (dp ≠ ip) as Hne by (intros <-; rewrite fn_lookup_insert in Hrip; lia). rewrite fn_lookup_insert_ne in Hrip by done.
    exists (Some ip), s', F'. split; [done|]. exists j. rewrite Hdp in Has. split; [done|]. exists ip, (<[ip := j]> N1). split_and!; [done|lia|by rewrite fn_lookup_insert| |].
    + intros k Hk. rewrite fn_lookup_insert_ne by (intros <-; lia). by apply Hk1.
    + eapply st_ext; [exact Hst'|done| |done|done|done]. intros k. rewrite Hrip, <- (gain_swap R dp ip (0 + 1) k Hne).
      by rewrite (fn_lookup_insert_ne (<[dp := R dp + 1]> R) ip dp) by done.
Qed.
End call.

(** The tree stays a tree. *)
Lemma create_tree s F R N B target type major minor res F' :
  tree F → create_result s F R N B target type major minor res F' → tree F'.
Proof.
  intros Ht. unfold create_result. destruct target as [[d nm]|]; [|by intros [-> _]].
  destruct (namesF sb F d ≫= (.!! nm)) as [j|]; [by intros [-> _]|].
  intros (j & (fd & e & data & Hfd & Hin & Hnone & Hj & HFj & He1 & He2 & He3 & Hfresh & ->) & _). unfold fresh_data in Hfresh.
  destruct (decide (type = T_DIR)) as [->|Hty].
  - destruct Hfresh as [Hwf Hmap]. apply tree_mkdir; try done. by rewrite He3.
  - apply tree_add; try done; [by rewrite He3|by left].
Qed.
End create.
