(* ===== verification/TreeState.v ===== *)
(** * File systems whose directories form a tree

    [ok]: the state of the disk and the inode cache between system calls, with
    the references that descriptors and current directories hold.  The calls
    of [Sysfile] in these terms. *)

From stdpp Require Import gmap functions.
From S2P Require Import Prelude.
From S2P Require Import Bytes.
From S2P Require Import CString.
From S2P Require Import Log.
From S2P Require Import Fs.
From S2P Require Import FsDir.
From S2P Require Import FsSpec.
From S2P Require Import FileSpec.
From S2P Require Import FileRw.
From S2P Require Import InodeSpec.
From S2P Require Import FsInv.
From S2P Require Import FsOps.
From S2P Require Import CacheSpec.
From S2P Require Import DirSpec.
From S2P Require Import PathSpec.
From S2P Require Import FsRules.
From S2P Require Import Links.
From S2P Require Import DirMap.
From S2P Require Import Tree.
From S2P Require Import Sysfile.
From S2P Require Import LinkSpec.
From S2P Require Import UnlinkSpec.
From S2P Require Import CreateSpec.

Local Open Scope Z_scope.

(** How often a cache entry is held. *)
Definition uses (refs : list nat) (k : nat) : Z := Z.of_nat (length (filter (k =.) refs)).

Lemma uses_cons refs ip k : uses (ip :: refs) k = <[ip := uses refs ip + 1]> (uses refs) k.
Proof.
  unfold uses at 1. destruct (decide (ip = k)) as [<-|Hne].
  - rewrite filter_cons_True, fn_lookup_insert by done. cbn [length]. unfold uses. lia.
  - rewrite filter_cons_False, fn_lookup_insert_ne by congruence. done.
Qed.
Lemma uses_perm refs refs' k : refs ≡ₚ refs' → uses refs k = uses refs' k.
Proof. intros Hp. unfold uses. by rewrite Hp. Qed.
Lemma uses_pos refs k : k ∈ refs ↔ 0 < uses refs k.
Proof.
  unfold uses. split.
  - intros Hk. assert (k ∈ filter (k =.) refs) as Hf by (by apply list_elem_of_filter). destruct (filter _ refs); [by apply elem_of_nil in Hf|cbn; lia].
  - intros Hl. destruct (filter (k =.) refs) as [|x l] eqn:Hf; [done|]. assert (x ∈ filter (k =.) refs) as Hx by (rewrite Hf; left).
    apply list_elem_of_filter in Hx as [-> ?]. done.
Qed.

(** The inode of each cache entry. *)
Definition inums (s : fstate) (k : nat) : Z := match f_icache s !! k with Some i => i_inum i | None => 0 end.

Section states.
Context (sb : superblock) (ds : Z) (devs : list devsw).
Notation inode_no := (inode_no sb).
Notation file := (file sb).
Notation st := (st sb ds).
Notation tree := (tree sb).
Notation namesF := (namesF sb).
Implicit Types (s : fstate) (j d : Z) (k ip : nat) (F : Z → option afile) (R : nat → Z) (N : nat → Z) (B : nat) (f : afile) (refs : list nat).

(** [L] says which entries are locked. *)
Record okl (L : nat → bool) s refs : Prop := {
  ok_st : st s (file s) (uses refs) (inums s) L (nfree s);
  ok_tree : tree (file s)
}.
Definition ok : fstate → list nat → Prop := okl none.

(** [s'] has the references of [s]. *)
Definition same_refs refs s s' : Prop := ∀ k, k ∈ refs → inums s' k = inums s k.
(** The files are those of [F]. *)
Definition files s F : Prop := ∀ j, inode_no j → file s j = F j.

Lemma st_full s F R N L B : st s F R N L B → st s F R N L (nfree s).
Proof. intros [H1 H2 H3 H4 H5 _]. by split. Qed.

Lemma ok_of_st s F R N L B refs : st s F R N L B → tree F → (∀ k, uses refs k = R k) → okl L s refs ∧ files s F ∧ ∀ k, k ∈ refs → inums s k = N k.
Proof.
  intros Hst Ht HR. pose proof (st_file _ _ _ _ _ _ _ _ Hst) as Hf.
  assert (∀ k, 0 < R k → inums s k = N k) as HN.
  { intros k Hr. destruct (st_get sb ds _ _ _ _ _ _ k Hst Hr) as (i & Hi & _ & Hn & _). unfold inums. by rewrite Hi. }
  split_and!; [|done|intros k Hk; apply HN; rewrite <- HR; by apply uses_pos]. split; [|by apply (tree_ext sb F)].
  eapply st_ext; [exact (st_full _ _ _ _ _ _ Hst)|done|done|done|done|done].
Qed.

(** A process whose current directory is the entry [cwd]. *)
Definition at_cwd s refs (cwd : nat) : Prop := cwd ∈ refs ∧ linkedF sb (file s) (inums s cwd).
Lemma ok_ready s refs cwd : ok s refs → at_cwd s refs cwd → ready sb ds s (file s) (uses refs) (inums s) (nfree s) cwd.
Proof. intros [Hst Ht] [Hin Hl]. split; [done|done|by apply uses_pos|done]. Qed.

(** Where paths lead. *)
Definition path_inode s (cwd : nat) (path : list Z) : option Z := walkF (file s) (startF (inums s) cwd path) (elems (cstr path)).
Definition path_parent s (cwd : nat) (path : list Z) : option (Z * list Z) := walk_parentF (file s) (startF (inums s) cwd path) (elems (cstr path)).
Definition name_in s (d : Z) (nm : list Z) : option Z := namesF (file s) d ≫= (.!! nm).

(** A path in memory. *)
Definition path_ok (path : list Z) : Prop := 0 ∈ path ∧ Forall byte_range (cstr path).

Definition meta f : Z * Z * Z * Z := (af_type f, af_major f, af_minor f, af_nlink f).

(** ** [link] *)

(** The name [nm] for [j] more in [d], and nothing else. *)
Record name_added s s' (d : Z) (nm : list Z) (j : Z) : Prop := {
  na_names : namesF (file s') d = <[nm := j]> <$> namesF (file s) d;
  na_dir : meta <$> file s' d = meta <$> file s d;
  na_link : file s' j = (λ f, set_nlink (af_nlink f + 1) f) <$> file s j;
  na_other : ∀ x, inode_no x → x ≠ d → x ≠ j → file s' x = file s x
}.

Lemma linked_as_names s s' F' d j nm : tree (file s) → linked_as sb (file s) d j nm F' → files s' F' → name_added s s' d nm j ∧ is_Some (namesF (file s) d).
Proof.
  intros Ht (fd & f & e & Hfd & Hin & Hj & Hf & Hty & Hnone & He1 & He2 & He3 & ->) HF.
  assert (d ≠ j) as Hdj. { intros ->. rewrite Hfd in Hf. apply Some_inj in Hf as <-. by destruct Hin as (_ & ? & _). }
  assert (file s' d = Some (set_data (with_entry e (af_data fd)) fd)) as Hd' by (rewrite HF by apply Hin; by rewrite fn_lookup_insert).
  pose proof (namesF_in sb (file s) d fd Hfd Hin) as Hnames.
  split; [split|by eexists].
  - rewrite Hnames. rewrite (namesF_in sb (file s') d _ Hd' Hin). cbn [set_data af_data fmap option_fmap option_map]. f_equal.
    destruct (dir_wf_add d (af_data fd) e (tr_dirs _ _ Ht d fd Hfd Hin) He1) as [_ Hm]; [unfold InodeSpec.inode_no in Hj; lia|by rewrite dmap_lookup, He3|].
    by rewrite Hm, He2, He3.
  - by rewrite Hd', Hfd.
  - rewrite HF by done. rewrite fn_lookup_insert_ne, fn_lookup_insert, Hf by done. done.
  - intros x Hx Hxd Hxj. rewrite HF by done. by rewrite !fn_lookup_insert_ne.
Qed.

Lemma parent_in s refs cwd path d nm :
  ok s refs → at_cwd s refs cwd → path_parent s cwd path = Some (d, nm) → ∃ fd, file s d = Some fd ∧ in_tree sb d fd.
Proof.
  intros [Hst Ht] [_ Hl] Hp. apply (walk_parentF_linked sb _ _ _ _ _ (tree_treeF _ _ Ht)) in Hp as (Hld & [data Hd] & _).
  - apply dirF_Some in Hd as (fd & Hfd & Hty & _). exists fd. destruct Hld as [Hno (fd' & Hfd' & Hnl)]. split; [done|]. split_and!; [done|done|congruence].
  - unfold startF. case_decide; [by apply tree_root|done].
Qed.

Definition link_post s s' refs (src : option Z) (target : option (Z * list Z)) (r : Z) : Prop :=
  match src, target with
  | Some j, Some (d, nm) =>
      if decide (dirF (file s) j = None ∧ name_in s d nm = None) then r = 0 ∧ name_added s s' d nm j else r = -1 ∧ files s' (file s)
  | _, _ => r = -1 ∧ files s' (file s)
  end.

(** What [link] needs: room in the inode cache, the directory and on disk. *)
Record link_room s refs cwd old new : Prop := {
  lr_slots : free_slots 3 (uses refs);
  lr_blocks : (3 ≤ nfree s)%nat;
  lr_count : ∀ j f, path_inode s cwd old = Some j → file s j = Some f → af_nlink f < 32767;
  lr_dir : ∀ d nm fd, path_parent s cwd new = Some (d, nm) → file s d = Some fd → (length (af_data fd) < MAXBYTES)%nat
}.

Lemma link_ok s refs cwd old new :
  ok s refs → at_cwd s refs cwd → path_ok old → path_ok new → link_room s refs cwd old new →
  (∀ d nm, path_parent s cwd new = Some (d, nm) → name_in s d nm ≠ Some d) →
  ∃ r s', link devs cwd old new s = Ok (r, s') ∧ ok s' refs ∧ same_refs refs s s' ∧
    link_post s s' refs (path_inode s cwd old) (path_parent s cwd new) r.
Proof.
  intros Hok Hcwd [Hold _] [Hnew Hb] [Hslots Hblocks Hcount Hdir] Hself. pose proof Hok as [Hst Ht].
  destruct (link_spec sb ds devs s (file s) (uses refs) (inums s) (nfree s) cwd old new (ok_ready _ _ _ Hok Hcwd)) as (r & s' & F' & N' & Hrun & Hst' & Hk & Hres); try done.
  { intros d nm Hp fd Hfd. split; [by apply (Hdir d nm)|]. destruct (parent_in s refs cwd new d nm Hok Hcwd Hp) as (fd' & Hfd' & Hin).
    assert (fd' = fd) as -> by congruence. rewrite <- (names_lookup sb (file s) d fd nm Hfd Hin). by apply Hself. }
  pose proof (link_tree sb _ _ _ _ _ Ht Hres) as Ht'. destruct (ok_of_st s' F' _ N' _ _ refs Hst' Ht') as (Hok' & Hf' & HN'); [done|].
  exists r, s'. split_and!; [done|done|intros k Hin; rewrite HN' by done; by apply Hk, uses_pos|].
  fold (path_inode s cwd old) (path_parent s cwd new) in Hres. unfold link_result, link_post, name_in in *.
  destruct (path_inode s cwd old) as [j|]; [|by destruct Hres as [-> ->]]. destruct (path_parent s cwd new) as [[d nm]|]; [|by destruct Hres as [-> ->]].
  case_decide; [|by destruct Hres as [-> ->]]. destruct Hres as [-> Has]. split; [done|]. by apply (linked_as_names s s' F').
Qed.

(** ** [unlink] *)

(** The name [nm] of [j] less in [d], and nothing else. *)
Record name_removed refs s s' (d : Z) (nm : list Z) (j : Z) : Prop := {
  nr_names : namesF (file s') d = delete nm <$> namesF (file s) d;
  nr_dir : meta <$> file s' d =
    (λ fd, meta (if decide (af_type <$> file s j = Some T_DIR) then set_nlink (af_nlink fd - 1) fd else fd)) <$> file s d;
  nr_gone : af_nlink <$> file s j = Some 1 → j ∉ (inums s <$> refs) → file s' j = None;
  nr_link : af_nlink <$> file s j ≠ Some 1 ∨ j ∈ (inums s <$> refs) → file s' j = (λ f, set_nlink (af_nlink f - 1) f) <$> file s j;
  nr_other : ∀ x, inode_no x → x ≠ d → x ≠ j → file s' x = file s x
}.

Definition unlink_post s s' refs (target : option (Z * list Z)) (r : Z) : Prop :=
  match target with
  | Some (d, nm) =>
      r = 0 ∧ (∃ j, plain nm ∧ name_in s d nm = Some j ∧ (∀ mj, namesF (file s) j = Some mj → no_plain mj) ∧ name_removed refs s s' d nm j) ∨
      r = -1 ∧ files s' (file s) ∧ keeps_name sb (file s) d nm
  | None => r = -1 ∧ files s' (file s)
  end.

Lemma unlinked_as_names s s' refs F' d nm :
  tree (file s) → plain nm → unlinked_as sb (file s) (uses refs) (inums s) d nm F' → files s' F' → tree F' →
  ∃ j, plain nm ∧ name_in s d nm = Some j ∧ (∀ mj, namesF (file s) j = Some mj → no_plain mj) ∧ name_removed refs s s' d nm j.
Proof.
  intros Ht Hp (fd & j & f & k & last & Hfd & Hin & Hlk & Hk & He & [Hno (f' & Hf' & Hnl)] & Hf & Hempty & Hlast & ->) HF Ht'.
  assert (f' = f) as -> by congruence. exists j. unfold name_in. rewrite (names_lookup sb _ d fd nm Hfd Hin).
  assert (d ≠ j) as Hdj. { intros <-. by apply (tree_child sb _ Ht d fd nm). }
  split_and!; [done|done| |].
  { intros mj Hmj. apply namesF_Some in Hmj as (f' & Hf2 & (_ & Hty & _) & <-). assert (f' = f) as -> by congruence. by apply Hempty. }
  assert (file s' d = Some (fd_after k fd f)) as Hd' by (rewrite HF by apply Hin; by rewrite fn_lookup_insert).
  assert (file s' j = f_after f last) as Hj' by (rewrite HF by done; by rewrite fn_lookup_insert_ne, fn_lookup_insert).
  assert (j ∈ (inums s <$> refs) ↔ ¬ ∀ k, 0 < uses refs k → inums s k ≠ j) as Hmem.
  { rewrite list_elem_of_fmap. split; [intros (x & -> & Hx) Hall; by apply (Hall x); [by apply uses_pos|]|].
    intros Hn. destruct (decide (Exists (λ x, inums s x = j) refs)) as [Hex|Hnex].
    - apply Exists_exists in Hex as (x & Hx & <-). by exists x.
    - exfalso. apply Hn. intros x Hx%uses_pos Hxj. apply Hnex, Exists_exists. by exists x. }
  assert (in_tree sb d (fd_after k fd f)) as Hin'.
  { unfold fd_after. destruct (decide (af_type f = T_DIR)) as [Hty|]; [|done]. destruct Hin as (? & ? & ?). split_and!; [done|done|]. cbn.
    destruct (tree_rmdir sb (file s) d fd k nm j f None Ht Hfd ltac:(done) Hk He Hp Hlk Hf) as (_ & _ & ?); [done|by apply Hempty|by right|]. lia. }
  destruct (dir_wf_clear d (af_data fd) nm k (tr_dirs _ _ Ht d fd Hfd Hin) Hk He Hp) as (_ & Hm & _).
  split.
  - rewrite (namesF_in sb (file s) d fd Hfd Hin), (namesF_in sb (file s') d _ Hd' Hin'). cbn [fmap option_fmap option_map]. f_equal. rewrite <- Hm.
    unfold fd_after. by destruct (decide (af_type f = T_DIR)).
  - rewrite Hd', Hfd, Hf. cbn [fmap option_fmap option_map]. f_equal. unfold fd_after. destruct (decide (af_type f = T_DIR)) as [Hty|Hty].
    + rewrite decide_True by (by rewrite Hty). done.
    + rewrite decide_False by (intros [= ?]; done). done.
  - rewrite Hf, Hj'. intros [= H1] Hnot. destruct last; [done|]. exfalso. assert (false = true); [|done]. apply Hlast. split; [done|].
    destruct (decide (Exists (λ x, inums s x = j) refs)) as [Hex|Hnex].
    + exfalso. apply Hnot. apply Exists_exists in Hex as (x & Hx & <-). apply list_elem_of_fmap. by exists x.
    + intros x Hx%uses_pos Hxj. apply Hnex, Exists_exists. by exists x.
  - rewrite Hf, Hj'. intros Hc. destruct last; [|done]. exfalso. destruct (proj1 Hlast eq_refl) as [H1 Hall]. destruct Hc as [Hc|Hc]; [apply Hc; exact (f_equal Some H1)|].
    by apply Hmem in Hc.
  - intros x Hx Hxd Hxj. rewrite HF by done. by rewrite !fn_lookup_insert_ne.
Qed.

Lemma unlink_ok s refs cwd path :
  ok s refs → at_cwd s refs cwd → path_ok path → free_slots 2 (uses refs) → (3 ≤ nfree s)%nat →
  ∃ r s', unlink devs cwd path s = Ok (r, s') ∧ ok s' refs ∧ same_refs refs s s' ∧ unlink_post s s' refs (path_parent s cwd path) r.
Proof.
  intros Hok Hcwd [Hpath Hb] Hslots Hblocks. pose proof Hok as [Hst Ht].
  destruct (unlink_call_spec sb ds devs s (file s) (uses refs) (inums s) (nfree s) cwd path (ok_ready _ _ _ Hok Hcwd)) as (r & s' & F' & N' & Hrun & Hst' & Hk & Hres); try done.
  pose proof (unlink_tree sb _ _ _ _ _ _ Ht Hres) as Ht'. destruct (ok_of_st s' F' _ N' _ _ refs Hst' Ht') as (Hok' & Hf' & HN'); [done|].
  exists r, s'. split_and!; [done|done|intros k Hin; rewrite HN' by done; by apply Hk, uses_pos|].
  fold (path_parent s cwd path) in Hres. unfold unlink_result, unlink_post in *.
  destruct (path_parent s cwd path) as [[d nm]|]; [|by destruct Hres as [-> ->]].
  destruct Hres as [(-> & Hp & Has)|(-> & -> & Hkeep)]; [left|by right]. split; [done|]. by apply (unlinked_as_names s s' refs F').
Qed.

(** ** [create] *)

(** The inode [j] is new, with the name [nm] in [d]. *)
Record inode_added s s' (d : Z) (nm : list Z) (j type major minor : Z) : Prop := {
  ia_free : file s j = None;
  ia_names : namesF (file s') d = <[nm := j]> <$> namesF (file s) d;
  ia_dir : meta <$> file s' d = (λ fd, meta (if decide (type = T_DIR) then set_nlink (af_nlink fd + 1) fd else fd)) <$> file s d;
  ia_meta : meta <$> file s' j = Some (type, major, minor, 1);
  ia_data : if decide (type = T_DIR) then namesF (file s') j = Some (new_dir j d) else af_data <$> file s' j = Some [];
  ia_other : ∀ x, inode_no x → x ≠ d → x ≠ j → file s' x = file s x
}.

Lemma created_as_names s s' F' d nm j type major minor :
  tree (file s) → created_as sb (file s) d j type major minor nm F' → files s' F' → inode_added s s' d nm j type major minor.
Proof.
  intros Ht (fd & e & data & Hfd & Hin & Hnone & Hj & HFj & He1 & He2 & He3 & Hfresh & ->) HF. assert (d ≠ j) as Hdj by congruence.
  set (fd1 := if decide (type = T_DIR) then set_nlink (af_nlink fd + 1) fd else fd) in *.
  assert (file s' d = Some (set_data (with_entry e (af_data fd)) fd1)) as Hd' by (rewrite HF by apply Hin; by rewrite fn_lookup_insert).
  assert (file s' j = Some (mkafile type major minor 1 data)) as Hj' by (rewrite HF by done; by rewrite fn_lookup_insert_ne, fn_lookup_insert).
  assert (in_tree sb d (set_data (with_entry e (af_data fd)) fd1)) as Hin'.
  { pose proof (tree_count sb _ Ht d fd Hfd (proj1 Hin)). destruct Hin as (? & ? & ?). unfold fd1. destruct (decide (type = T_DIR)); split_and!; try done. cbn. lia. }
  split; [done| | | | |].
  - rewrite (namesF_in sb (file s) d fd Hfd Hin), (namesF_in sb (file s') d _ Hd' Hin'). cbn [set_data af_data fmap option_fmap option_map]. f_equal.
    destruct (dir_wf_add d (af_data fd) e (tr_dirs _ _ Ht d fd Hfd Hin) He1) as [_ Hm]; [unfold InodeSpec.inode_no in Hj; lia|by rewrite dmap_lookup, He3|].
    by rewrite Hm, He2, He3.
  - rewrite Hd', Hfd. unfold fd1. by destruct (decide (type = T_DIR)).
  - by rewrite Hj'.
  - unfold fresh_data in Hfresh. destruct (decide (type = T_DIR)) as [->|Hty]; [|rewrite Hj'; by rewrite Hfresh].
    destruct Hfresh as [_ Hm]. rewrite (namesF_in sb (file s') j _ Hj') by done. by rewrite <- Hm.
  - intros x Hx Hxd Hxj. rewrite HF by done. by rewrite !fn_lookup_insert_ne.
Qed.

(** The caller gets a reference to [j] and its lock. *)
Definition held s' refs (res : option nat) (j : Z) : Prop :=
  ∃ ip, res = Some ip ∧ inums s' ip = j ∧ okl (<[ip := true]> none) s' (ip :: refs).

Definition create_post s s' refs (target : option (Z * list Z)) (type major minor : Z) (res : option nat) : Prop :=
  match target with
  | Some (d, nm) =>
      match name_in s d nm with
      | Some j =>
          files s' (file s) ∧ if decide (type = T_FILE ∧ af_type <$> file s j = Some T_FILE) then held s' refs res j else res = None ∧ ok s' refs
      | None => ∃ j, inode_added s s' d nm j type major minor ∧ held s' refs res j
      end
  | None => res = None ∧ ok s' refs ∧ files s' (file s)
  end.

(** What [create] needs. *)
Record create_room s refs cwd path : Prop := {
  cr_slots : free_slots 2 (uses refs);
  cr_blocks : (9 ≤ nfree s)%nat;
  cr_inode : ∃ j, inode_no j ∧ file s j = None;
  cr_dir : ∀ d nm fd, path_parent s cwd path = Some (d, nm) → file s d = Some fd → (length (af_data fd) < MAXBYTES)%nat ∧ af_nlink fd < 32767
}.

Lemma create_ok s refs cwd path type major minor :
  ok s refs → at_cwd s refs cwd → path_ok path → create_room s refs cwd path → short type → type ≠ 0 → short major → short minor →
  ∃ res s', create devs cwd path type major minor s = Ok (res, s') ∧ same_refs refs s s' ∧
    create_post s s' refs (path_parent s cwd path) type major minor res.
Proof.
  intros Hok Hcwd [Hpath Hb] [Hslots Hblocks Hinode Hdir] Hty Hnz Hma Hmi. pose proof Hok as [Hst Ht].
  destruct (create_spec sb ds devs s (file s) (uses refs) (inums s) (nfree s) cwd path type major minor (ok_ready _ _ _ Hok Hcwd)) as (res & s' & F' & Hrun & Hres); try done.
  pose proof (create_tree sb ds _ _ _ _ _ _ _ _ _ _ _ Ht Hres) as Ht'. exists res, s'. split; [done|].
  assert (∀ j, returns sb ds s' (uses refs) (inums s) (nfree s - 9) res F' j → same_refs refs s s' ∧ held s' refs res j ∧ files s' F') as Hheld.
  { intros j (ip & N' & -> & Hpos & Hn & Hk & Hst'). destruct (ok_of_st s' F' _ N' _ _ (ip :: refs) Hst' Ht') as (Hok' & Hf' & HN').
    { intros k. by rewrite uses_cons. }
    split_and!; [|exists ip; split_and!; [done|rewrite HN'; [done|left]|done]|done]. intros k Hin. rewrite HN' by (by right). by apply Hk, uses_pos. }
  assert (returns_none sb ds s' (uses refs) (inums s) (nfree s - 9) res F' → same_refs refs s s' ∧ res = None ∧ ok s' refs ∧ files s' F') as Hnone.
  { intros (N' & -> & Hk & Hst'). destruct (ok_of_st s' F' _ N' _ _ refs Hst' Ht') as (Hok' & Hf' & HN'); [done|].
    split_and!; try done. intros k Hin. rewrite HN' by done. by apply Hk, uses_pos. }
  fold (path_parent s cwd path) in Hres. unfold create_result, create_post, name_in in *. destruct (path_parent s cwd path) as [[d nm]|].
  2:{ destruct Hres as [-> Hr]. by destruct (Hnone Hr) as (? & ? & ? & ?). }
  destruct (namesF (file s) d ≫= (.!! nm)) as [j|].
  - destruct Hres as [-> Hr]. case_decide; [by destruct (Hheld j Hr) as (? & ? & ?)|by destruct (Hnone Hr) as (? & ? & ? & ?)].
  - destruct Hres as (j & Has & Hr). destruct (Hheld j Hr) as (? & ? & ?). split; [done|]. exists j. split; [|done]. by apply (created_as_names s s' F').
Qed.

(** ** Keeping or dropping what [create] returns *)
Lemma held_iunlock s refs ip :
  okl (<[ip := true]> none) s refs → ∃ s', iunlock ip s = Ok s' ∧ ok s' refs ∧ same_refs refs s s' ∧ files s' (file s).
Proof.
  intros [Hst Ht]. destruct (st_iunlock sb ds _ _ _ _ _ _ ip Hst) as (s' & Hrun & Hst'); [by apply lock_one|]. exists s'.
  apply st_none in Hst'; [|intros k; by rewrite unlock_one]. destruct (ok_of_st s' _ _ _ _ _ refs Hst' Ht) as (? & ? & ?); [done|]. by split_and!.
Qed.

(** Dropping a reference; the last one to a file without links may remove it. *)
Lemma uses_drop refs refs' ip k : refs ≡ₚ ip :: refs' → uses refs' k = <[ip := uses refs ip - 1]> (uses refs) k.
Proof.
  intros Hp. rewrite (uses_perm _ _ ip Hp), (uses_cons refs' ip ip), fn_lookup_insert. replace (uses refs' ip + 1 - 1) with (uses refs' ip) by lia.
  destruct (decide (ip = k)) as [<-|Hne]; [by rewrite fn_lookup_insert|]. by rewrite fn_lookup_insert_ne, (uses_perm _ _ k Hp), uses_cons, fn_lookup_insert_ne by done.
Qed.

Lemma drop_ok s refs refs' ip :
  ok s refs → refs ≡ₚ ip :: refs' → ∃ s', iput ip s = Ok s' ∧ ok s' refs' ∧ same_refs refs' s s' ∧
    (files s' (file s) ∨ af_nlink <$> file s (inums s ip) = Some 0 ∧ file s' (inums s ip) = None ∧ ∀ x, inode_no x → x ≠ inums s ip → file s' x = file s x).
Proof.
  intros [Hst Ht] Hp. assert (0 < uses refs ip) as Hr. { apply uses_pos. rewrite Hp. left. }
  destruct (st_get sb ds _ _ _ _ _ _ ip Hst Hr) as (_ & _ & _ & _ & _ & _ & Hno & _ & Hs). destruct (file s (inums s ip)) as [f|] eqn:Hf; [|done].
  destruct (st_iput_any sb ds s (file s) (uses refs) (inums s) none _ ip f Hst Hr eq_refl Hf) as (s' & F' & Hrun & Hst' & HF'). exists s'.
  assert (tree F') as Ht' by (destruct HF' as [->|[Hnl ->]]; [done|by apply (tree_gone sb _ _ f)]).
  destruct (ok_of_st s' F' _ _ _ _ refs' Hst' Ht') as (Hok' & Hf' & HN'); [intros k; by apply uses_drop|]. split_and!; try done.
  destruct HF' as [->|[Hnl ->]]; [by left|right]. split_and!; [cbn; by rewrite Hnl|rewrite Hf' by done; by rewrite fn_lookup_insert|].
  intros x Hx Hne. rewrite Hf' by done. by rewrite fn_lookup_insert_ne.
Qed.

(** ** The other calls on inodes *)
Lemma dup_ok s refs k : ok s refs → k ∈ refs → ok (idup k s).2 (k :: refs) ∧ same_refs refs s (idup k s).2 ∧ files (idup k s).2 (file s).
Proof.
  intros [Hst Ht] Hin. pose proof (st_idup sb ds _ _ _ _ _ _ k Hst (proj1 (uses_pos _ _) Hin)) as Hst'.
  destruct (ok_of_st _ _ _ _ _ _ (k :: refs) Hst' Ht) as (Hok' & Hf' & HN'); [intros x; by rewrite uses_cons|]. split_and!; [done| |done].
  intros x Hx. apply HN'. by right.
Qed.

Lemma namei_ok s refs cwd path :
  ok s refs → at_cwd s refs cwd → path_ok path → free_slots 2 (uses refs) →
  ∃ res s', namei devs cwd path s = Ok (res, s') ∧ files s' (file s) ∧ same_refs refs s s' ∧ (nfree s ≤ nfree s')%nat ∧
    match path_inode s cwd path with
    | Some j => ∃ ip, res = Some ip ∧ ok s' (ip :: refs) ∧ inums s' ip = j
    | None => res = None ∧ ok s' refs
    end.
Proof.
  intros Hok Hcwd [Hpath _] Hslots. pose proof Hok as [Hst Ht].
  destruct (st_namei sb ds devs s (file s) (uses refs) (inums s) (nfree s) cwd path (ok_ready _ _ _ Hok Hcwd)) as (res & s' & N' & Hrun & Hst' & Hk & Hres); [by apply free_slots_two|done|].
  fold (path_inode s cwd path) in Hres. exists res, s'. pose proof (st_blocks _ _ _ _ _ _ _ _ Hst') as Hb. destruct (path_inode s cwd path) as [j|].
  - destruct Hres as (ip & -> & Hn & _ & _). destruct (ok_of_st s' _ _ N' _ _ (ip :: refs) Hst' Ht) as (Hok' & Hf' & HN'); [intros k; by rewrite uses_cons|].
    split_and!; try done; [intros k Hin; rewrite HN' by (by right); by apply Hk, uses_pos|]. exists ip. split_and!; [done|done|]. rewrite HN'; [done|left].
  - subst res. destruct (ok_of_st s' _ _ N' _ _ refs Hst' Ht) as (Hok' & Hf' & HN'); [done|]. split_and!; try done.
    intros k Hin. rewrite HN' by done. by apply Hk, uses_pos.
Qed.

Lemma write_ok s refs k src off n f :
  ok s refs → k ∈ refs → file s (inums s k) = Some f → af_type f = T_FILE → Forall byte_range src → (n ≤ length src)%nat →
  (off ≤ length (af_data f))%nat → (off + n ≤ MAXBYTES)%nat → (blocks_touched (Z.of_nat n) + 1 ≤ nfree s)%nat →
  ∃ s1 s2 s3, ilock k s = Ok s1 ∧ writei devs k src (Z.of_nat off) (Z.of_nat n) s1 = Ok (Z.of_nat n, s2) ∧ iunlock k s2 = Ok s3 ∧ ok s3 refs ∧
    same_refs refs s s3 ∧ files s3 (<[inums s k := Some (set_data (overwrite off (take n src) (af_data f)) f)]> (file s)).
Proof.
  intros [Hst Ht] Hin Hf Hty Hb Hlen Hoff Hmax Hfree. apply uses_pos in Hin.
  destruct (st_ilock sb ds _ _ _ _ _ _ k Hst Hin eq_refl) as (s1 & H1 & Hst1). assert (<[k := true]> none k = true) as Hl by (by apply lock_one).
  destruct (st_writei sb ds devs s1 _ _ _ _ _ k f src off n Hst1 Hl Hf) as (s2 & H2 & Hst2); try done; [by rewrite Hty|].
  destruct (st_iunlock sb ds _ _ _ _ _ _ k Hst2 Hl) as (s3 & H3 & Hst3). exists s1, s2, s3.
  apply st_none in Hst3; [|intros x; by rewrite unlock_one]. destruct (ok_of_st s3 _ _ _ _ _ refs Hst3) as (? & ? & ?); [apply tree_data; [done|done|by rewrite Hty]|done|]. by split_and!.
Qed.

(** [create] and the release of what it returns. *)
Lemma make_ok s refs cwd path type major minor :
  ok s refs → at_cwd s refs cwd → path_ok path → create_room s refs cwd path → short type → type ≠ 0 → short major → short minor →
  ∃ res s1, create devs cwd path type major minor s = Ok (res, s1) ∧
    match res with
    | Some ip => (∃ s2, iunlock ip s1 = Ok s2 ∧ ok s2 (ip :: refs)) ∧ ∃ s2, iunlockput ip s1 = Ok s2 ∧ ok s2 refs
    | None => ok s1 refs
    end.
Proof.
  intros Hok Hcwd Hp Hroom Hty Hnz Hma Hmi.
  destruct (create_ok s refs cwd path type major minor Hok Hcwd Hp Hroom Hty Hnz Hma Hmi) as (res & s1 & Hrun & _ & Hpost). exists res, s1. split; [done|].
  assert (∀ j, held s1 refs res j → match res with
    | Some ip => (∃ s2, iunlock ip s1 = Ok s2 ∧ ok s2 (ip :: refs)) ∧ ∃ s2, iunlockput ip s1 = Ok s2 ∧ ok s2 refs | None => ok s1 refs end) as Hheld.
  { intros j (ip & -> & _ & Hokl). destruct (held_iunlock s1 (ip :: refs) ip Hokl) as (s2 & H2 & Hok2 & _). split; [by exists s2|].
    destruct (drop_ok s2 (ip :: refs) refs ip Hok2) as (s3 & H3 & Hok3 & _); [done|]. exists s3. unfold iunlockput. by rewrite H2, bind_ret. }
  unfold create_post in Hpost. destruct (path_parent s cwd path) as [[d nm]|]; [|by destruct Hpost as (-> & ? & _)].
  destruct (name_in s d nm) as [j|]; [|destruct Hpost as (j & _ & ?); by apply (Hheld j)].
  destruct Hpost as [_ Hpost]. case_decide; [by apply (Hheld j)|by destruct Hpost as [-> ?]].
Qed.
End states.
