(* ===== verification/TreeImage.v ===== *)
(** * The tree of the image

    The image of [FsImage], with its root open in the first cache entry, is a
    state in which the theorems about the system calls apply. *)

From stdpp Require Import gmap functions.
From S2P Require Import Prelude.
From S2P Require Import Bytes.
From S2P Require Import CString.
From S2P Require Import Log.
From S2P Require Import Fs.
From S2P Require Import FsDir.
From S2P Require Import FsSpec.
From S2P Require Import FileSpec.
From S2P Require Import FileRw.
From S2P Require Import InodeSpec.
From S2P Require Import FsInv.
From S2P Require Import FsOps.
From S2P Require Import CacheSpec.
From S2P Require Import DirSpec.
From S2P Require Import PathSpec.
From S2P Require Import FsImage.
From S2P Require Import FsRules.
From S2P Require Import Links.
From S2P Require Import DirMap.
From S2P Require Import Tree.
From S2P Require Import Sysfile.
From S2P Require Import LinkSpec.
From S2P Require Import TreeState.

Local Open Scope Z_scope.

Lemma image_dmap : dmap root_data = <[DOT := 1]> (<[DOTDOT := 1]> (<[[102] := 2]> ∅)).
Proof. by vm_compute. Qed.

Local Opaque dmap root_data.

Lemma image_dots : dmap root_data !! DOT = Some 1 ∧ dmap root_data !! DOTDOT = Some 1.
Proof. rewrite image_dmap, lookup_insert_eq. split; [done|]. by rewrite lookup_insert_ne, lookup_insert_eq. Qed.

Lemma image_in_tree : in_tree img_sb 1 (mkafile T_DIR 0 0 1 root_data).
Proof. done. Qed.

Lemma image_names d : namesF img_sb (file img_sb image) d = if decide (d = 1) then Some (dmap root_data) else None.
Proof.
  destruct image_files as (H1 & H2 & H0). unfold namesF. destruct (decide (d = 1)) as [->|Hd].
  - rewrite H1. cbn [mbind option_bind]. rewrite decide_True by exact image_in_tree. reflexivity.
  - destruct (decide (1 ≤ d < 200)) as [Hr|Hr].
    + destruct (decide (d = 2)) as [->|]; [rewrite H2; cbn [mbind option_bind]; by rewrite decide_False by (intros (_ & ? & _); done)|]. by rewrite H0 by lia.
    + destruct (file img_sb image d) as [f|]; [|done]. cbn [mbind option_bind]. rewrite decide_False; [done|]. intros [Hno _]. unfold inode_no in Hno. cbn in Hno. lia.
Qed.

Lemma image_shape : shape (inos img_sb) (namesF img_sb (file img_sb image)) (nlinkF (file img_sb image)).
Proof.
  destruct image_files as (H1 & H2 & H0).
  assert (∀ d m, namesF img_sb (file img_sb image) d = Some m → d = 1 ∧ m = dmap root_data) as Hm.
  { intros d m. rewrite image_names. case_decide; [|discriminate]. intros Hm%Some_inj. by rewrite <- Hm. }
  destruct image_dots as [Hdot Hdd].
  assert (∀ nm j, dmap root_data !! nm = Some j → nm = DOT ∧ j = 1 ∨ nm = DOTDOT ∧ j = 1 ∨ nm = [102] ∧ j = 2) as Hlk.
  { rewrite image_dmap. intros nm j H. apply lookup_insert_Some in H as [[<- <-]|[_ H]]; [auto|]. apply lookup_insert_Some in H as [[<- <-]|[_ H]]; [auto|].
    apply lookup_insert_Some in H as [[<- <-]|[_ H]]; [auto|]. by rewrite lookup_empty in H. }
  split.
  - intros d m [-> _]%Hm. apply elem_of_inos. apply image_in_tree.
  - exists (dmap root_data). rewrite image_names. split; [reflexivity|exact Hdd].
  - intros d m [-> ->]%Hm. split; [exact Hdot|]. exists 1. exact Hdd.
  - intros d m nm j [-> ->]%Hm Hj. apply linked_in_F, (linked_F img_sb image (file img_sb image) ltac:(done)), image_linked. destruct (Hlk nm j Hj) as [[_ ->]|[[_ ->]|[_ ->]]]; auto.
  - intros d m nm j mj [-> ->]%Hm Hj [Hd Hdd'] [-> _]%Hm. exfalso. destruct (Hlk nm 1 Hj) as [[-> _]|[[-> _]|[_ ?]]]; [by apply Hd|by apply Hdd'|discriminate].
  - intros j mj [-> _]%Hm Hr. by destruct Hr.
  - exists (λ _, 0%nat). intros d m nm j mj [-> ->]%Hm Hj [Hd Hdd'] [-> _]%Hm. exfalso. destruct (Hlk nm 1 Hj) as [[-> _]|[[-> _]|[_ ?]]]; [by apply Hd|by apply Hdd'|discriminate].
  - intros j n Hj%elem_of_inos Hn. unfold inode_no in Hj. cbn in Hj. unfold nlinkF in Hn. destruct (decide (3 ≤ j)); [by rewrite H0 in Hn by lia|].
    assert (j = 1 ∨ j = 2) as [->| ->] by lia; [rewrite H1 in Hn|rewrite H2 in Hn]; apply Some_inj in Hn as <-; by vm_compute.
Qed.

Lemma image_entries :
  nentries root_data = 3%nat ∧ (dent_name (entry root_data 0) = DOT ∧ dent_inum (entry root_data 0) = 1) ∧
  (dent_name (entry root_data 1) = DOTDOT ∧ dent_inum (entry root_data 1) = 1) ∧ (dent_name (entry root_data 2) = [102] ∧ dent_inum (entry root_data 2) = 2).
Proof. by vm_compute. Qed.

Lemma image_dir_wf : dir_wf 1 root_data.
Proof.
  destruct image_entries as (Hn & [H0 I0] & [H1 I1] & [H2 I2]). split.
  - by vm_compute.
  - rewrite Hn. lia.
  - split; [|exact I0]. split; [rewrite I0; discriminate|exact H0].
  - split; [rewrite I1; discriminate|exact H1].
  - rewrite Hn. intros nm k k' Hk Hk' [_ E] [_ E']. assert (DOT ≠ DOTDOT) by done. assert (DOT ≠ [102]) by done. assert (DOTDOT ≠ [102]) by done.
    assert (k = 0 ∨ k = 1 ∨ k = 2)%nat as [->|[->| ->]] by lia; assert (k' = 0 ∨ k' = 1 ∨ k' = 2)%nat as [->|[->| ->]] by lia; congruence.
Qed.

Lemma image_is_tree : tree img_sb (file img_sb image).
Proof.
  split; [exact image_shape|]. destruct image_files as (H1 & H2 & H0). intros d f Hf (Hno & Hty & Hnl). unfold inode_no in Hno. cbn in Hno.
  destruct (decide (3 ≤ d)); [by rewrite H0 in Hf by lia|]. assert (d = 1 ∨ d = 2) as [->| ->] by lia.
  - rewrite H1 in Hf. apply Some_inj in Hf as <-. exact image_dir_wf.
  - rewrite H2 in Hf. apply Some_inj in Hf as <-. discriminate Hty.
Qed.

Lemma opened_ok : ok img_sb img_ds (opened 1) [0%nat].
Proof.
  destruct opened_none as [Hinv Hrefs Hun]. split; [|exact image_is_tree].
  assert (∀ k, uses [0%nat] k = opened_refs k) as Huses by (intros [|k]; done).
  split; [exact Hinv|done| | | |done].
  - intros k i Hi. split.
    + rewrite (Hrefs k i Hi), Huses, (decide_False (P := None = Some k)) by done. lia.
    + by apply (Hun k).
    + intros Hr. assert (k = 0%nat) as ->. { rewrite Huses in Hr. unfold opened_refs in Hr. case_decide; [done|lia]. }
      injection Hi as <-. split; [done|]. change (inums (opened 1) 0) with 1. change (file img_sb (opened 1) 1) with (file img_sb image 1).
      by rewrite (proj1 image_files).
    + discriminate.
  - intros k Hr. rewrite Huses in Hr. unfold opened_refs in Hr. case_decide; [subst; unfold NINODE; lia|lia].
  - discriminate.
Qed.

Lemma opened_cwd : at_cwd img_sb (opened 1) [0%nat] 0.
Proof.
  split; [left|]. split; [done|]. change (inums (opened 1) 0) with 1. change (file img_sb (opened 1) 1) with (file img_sb image 1).
  rewrite (proj1 image_files). eexists. split; [reflexivity|discriminate].
Qed.

Lemma opened_slots : free_slots 3 (uses [0%nat]).
Proof.
  exists [1; 2; 3]%nat. split_and!; [done|apply (bool_decide_eq_true_1 _); by vm_compute|].
  intros k Hk. repeat (apply elem_of_cons in Hk as [->|Hk]; [split; [unfold NINODE; lia|done]|]). by apply elem_of_nil in Hk.
Qed.
