(* ===== verification/TreeTheorems.v ===== *)
(** * The system calls on directories

    What [link], [unlink], [create] and with it [open], [mkdir] and [mknod] do
    to the names and link counts of the file system, for every state in which
    the directories form a tree, and that they keep it one. *)

From stdpp Require Import gmap functions.
From S2P Require Import Prelude.
From S2P Require Import Bytes.
From S2P Require Import CString.
From S2P Require Import Log.
From S2P Require Import Fs.
From S2P Require Import FsDir.
From S2P Require Import FsSpec.
From S2P Require Import FileSpec.
From S2P Require Import FileRw.
From S2P Require Import InodeSpec.
From S2P Require Import FsInv.
From S2P Require Import FsOps.
From S2P Require Import CacheSpec.
From S2P Require Import DirSpec.
From S2P Require Import PathSpec.
From S2P Require Import FsImage.
From S2P Require Import FsRules.
From S2P Require Import Links.
From S2P Require Import DirMap.
From S2P Require Import Tree.
From S2P Require Import Sysfile.
From S2P Require Import LinkSpec.
From S2P Require Import UnlinkSpec.
From S2P Require Import CreateSpec.
From S2P Require Import TreeState.
From S2P Require Import TreeImage.

Local Open Scope Z_scope.

(** ** The calls *)

Section calls.
Context (sb : superblock) (ds : Z) (devs : list devsw).
Notation ok := (ok sb ds).
Notation file := (file sb).
Notation path_inode := (path_inode sb).
Notation path_parent := (path_parent sb).
Notation name_in := (name_in sb).
Implicit Types (s : fstate) (refs : list nat) (cwd : nat) (path : list Z).

(** C19. [link(old, new)]: when [old] leads to a file that is not a directory
    and the last element of [new] is not in its directory, the call returns 0,
    that name leads to the file, its link count is one more, and nothing else
    changes.  Otherwise it returns -1 and no file changes.  In every case
    nothing stays locked, all references are given back and the directories
    are a tree with correct link counts as before.  (The inode cache needs
    three free entries, the disk three free blocks, the directory room for an
    entry, and the file fewer than 32767 links; and [new] must not name the
    directory itself.) *)
Theorem link_names s refs cwd old new :
  ok s refs → at_cwd sb s refs cwd → path_ok old → path_ok new → link_room sb s refs cwd old new →
  (∀ d nm, path_parent s cwd new = Some (d, nm) → name_in s d nm ≠ Some d) →
  ∃ r s', link devs cwd old new s = Ok (r, s') ∧ ok s' refs ∧ same_refs refs s s' ∧
    match path_inode s cwd old, path_parent s cwd new with
    | Some j, Some (d, nm) =>
        if decide (dirF (file s) j = None ∧ name_in s d nm = None) then r = 0 ∧ name_added sb s s' d nm j
        else r = -1 ∧ files sb s' (file s)
    | _, _ => r = -1 ∧ files sb s' (file s)
    end.
Proof. exact (link_ok sb ds devs s refs cwd old new). Qed.

(** [link(old, new)] never returns when [new] names the directory itself,
    as ["."] or ["d/."] do: [dirlink] finds the entry and drops its reference
    with [iput], which takes the lock of the directory that the call holds. *)
Theorem link_self_deadlocks s refs cwd old new j f d nm :
  ok s refs → at_cwd sb s refs cwd → path_ok old → path_ok new → link_room sb s refs cwd old new →
  path_inode s cwd old = Some j → file s j = Some f → af_type f ≠ T_DIR →
  path_parent s cwd new = Some (d, nm) → name_in s d nm = Some d →
  link devs cwd old new s = Fault "acquiresleep: deadlock".
Proof.
  intros Hok Hcwd [Hold _] [Hnew Hb] [Hslots Hblocks Hcount Hdir] Hsrc Hf Hty Htg Hself.
  destruct (parent_in sb ds s refs cwd new d nm Hok Hcwd Htg) as (fd & Hfd & Hin). unfold name_in in Hself. rewrite (names_lookup sb _ d fd nm Hfd Hin) in Hself.
  by apply (link_self sb ds devs s (file s) (uses refs) (inums s) (nfree s)) with j f d nm fd; [apply ok_ready|..].
Qed.

(** C20. [unlink(path)]: when the last element of [path] is in its directory,
    is not [.] or [..], and is not a directory with entries, the call returns
    0, the name is gone and the link count is one less (for a directory also
    that of its parent).  The file goes with its last link if no descriptor or
    current directory refers to it, and stays otherwise.  Else the call
    returns -1 and no file changes. *)
Theorem unlink_names s refs cwd path :
  ok s refs → at_cwd sb s refs cwd → path_ok path → free_slots 2 (uses refs) → (3 ≤ nfree s)%nat →
  ∃ r s', unlink devs cwd path s = Ok (r, s') ∧ ok s' refs ∧ same_refs refs s s' ∧
    match path_parent s cwd path with
    | Some (d, nm) =>
        r = 0 ∧ (∃ j, plain nm ∧ name_in s d nm = Some j ∧ (∀ mj, namesF sb (file s) j = Some mj → no_plain mj) ∧ name_removed sb refs s s' d nm j) ∨
        r = -1 ∧ files sb s' (file s) ∧ keeps_name sb (file s) d nm
    | None => r = -1 ∧ files sb s' (file s)
    end.
Proof. exact (unlink_ok sb ds devs s refs cwd path). Qed.

(** C21. [create(path, type, major, minor)]: when the last element of [path]
    is not in its directory, it becomes the name of a new inode with the given
    type, one link and no content, or, for a directory, the entries [.] and
    [..] and one link more to its parent.  When it is there, the call returns
    the inode if both are files and nothing otherwise.  The caller gets the
    inode with a reference and its lock. *)
Theorem create_names s refs cwd path type major minor :
  ok s refs → at_cwd sb s refs cwd → path_ok path → create_room sb s refs cwd path → short type → type ≠ 0 → short major → short minor →
  ∃ res s', create devs cwd path type major minor s = Ok (res, s') ∧ same_refs refs s s' ∧
    match path_parent s cwd path with
    | Some (d, nm) =>
        match name_in s d nm with
        | Some j =>
            files sb s' (file s) ∧
            if decide (type = T_FILE ∧ af_type <$> file s j = Some T_FILE) then held sb ds s' refs res j else res = None ∧ ok s' refs
        | None => ∃ j, inode_added sb s s' d nm j type major minor ∧ held sb ds s' refs res j
        end
    | None => res = None ∧ ok s' refs ∧ files sb s' (file s)
    end.
Proof. exact (create_ok sb ds devs s refs cwd path type major minor). Qed.

(** ** Sequences of calls *)

(** What processes do with inodes, and with the references they hold. *)
Inductive fcall :=
  | CLink (cwd : nat) (old new : list Z)
  | CUnlink (cwd : nat) (path : list Z)
  | CMake (cwd : nat) (path : list Z) (type major minor : Z)   (* mkdir, mknod *)
  | CCreate (cwd : nat) (path : list Z)                        (* open with O_CREATE *)
  | COpen (cwd : nat) (path : list Z)                          (* open, chdir *)
  | CDup (k : nat)                                             (* fork *)
  | CDrop (k : nat)                                            (* close, exit *)
  | CWrite (k : nat) (src : list Z) (off n : nat).

Fixpoint remove_one (k : nat) (refs : list nat) : list nat :=
  match refs with
  | [] => []
  | x :: refs' => if decide (x = k) then refs' else x :: remove_one k refs'
  end.
Lemma remove_one_perm k refs : k ∈ refs → refs ≡ₚ k :: remove_one k refs.
Proof.
  induction refs as [|x refs IH]; intros Hk; [by apply elem_of_nil in Hk|]. cbn. case_decide as Hx; [by subst|].
  apply elem_of_cons in Hk as [Hk|Hk]; [congruence|]. rewrite (IH Hk) at 1. constructor.
Qed.

Definition run (c : fcall) (w : fstate * list nat) : outcome (fstate * list nat) :=
  let '(s, refs) := w in
  match c with
  | CLink cwd old new => '(_, s1) ← link devs cwd old new s; Ok (s1, refs)
  | CUnlink cwd path => '(_, s1) ← unlink devs cwd path s; Ok (s1, refs)
  | CMake cwd path type major minor =>
      '(o, s1) ← create devs cwd path type major minor s;
      match o with Some ip => s2 ← iunlockput ip s1; Ok (s2, refs) | None => Ok (s1, refs) end
  | CCreate cwd path =>
      '(o, s1) ← create devs cwd path T_FILE 0 0 s;
      match o with Some ip => s2 ← iunlock ip s1; Ok (s2, ip :: refs) | None => Ok (s1, refs) end
  | COpen cwd path =>
      '(o, s1) ← namei devs cwd path s;
      match o with Some ip => Ok (s1, ip :: refs) | None => Ok (s1, refs) end
  | CDup k => Ok ((idup k s).2, k :: refs)
  | CDrop k => s1 ← iput k s; Ok (s1, remove_one k refs)
  | CWrite k src off n =>
      s1 ← ilock k s; '(_, s2) ← writei devs k src (Z.of_nat off) (Z.of_nat n) s1; s3 ← iunlock k s2; Ok (s3, refs)
  end.

(** The references a call uses are held, and there is room for what it adds. *)
Definition admissible (c : fcall) (w : fstate * list nat) : Prop :=
  let '(s, refs) := w in
  match c with
  | CLink cwd old new => at_cwd sb s refs cwd ∧ path_ok old ∧ path_ok new ∧ link_room sb s refs cwd old new ∧
      ∀ d nm, path_parent s cwd new = Some (d, nm) → name_in s d nm ≠ Some d
  | CUnlink cwd path => at_cwd sb s refs cwd ∧ path_ok path ∧ free_slots 2 (uses refs) ∧ (3 ≤ nfree s)%nat
  | CMake cwd path type major minor => at_cwd sb s refs cwd ∧ path_ok path ∧ create_room sb s refs cwd path ∧
      (type = T_DIR ∨ type = T_DEV) ∧ short major ∧ short minor
  | CCreate cwd path => at_cwd sb s refs cwd ∧ path_ok path ∧ create_room sb s refs cwd path
  | COpen cwd path => at_cwd sb s refs cwd ∧ path_ok path ∧ free_slots 2 (uses refs)
  | CDup k | CDrop k => k ∈ refs
  | CWrite k src off n => k ∈ refs ∧ Forall byte_range src ∧ (n ≤ length src)%nat ∧ (off + n ≤ MAXBYTES)%nat ∧ (blocks_touched (Z.of_nat n) + 1 ≤ nfree s)%nat ∧
      ∃ f, file s (inums s k) = Some f ∧ af_type f = T_FILE ∧ (off ≤ length (af_data f))%nat
  end.

Lemma run_ok c w : ok w.1 w.2 → admissible c w → ∃ w', run c w = Ok w' ∧ ok w'.1 w'.2.
Proof.
  destruct w as [s refs]. cbn [fst snd]. intros Hok. destruct c; cbn [admissible run].
  - intros (Hc & Ho & Hn & Hr & Hs). destruct (link_ok sb ds devs s refs cwd old new Hok Hc Ho Hn Hr Hs) as (r & s' & -> & Hok' & _). by exists (s', refs).
  - intros (Hc & Hp & Hs & Hb). destruct (unlink_ok sb ds devs s refs cwd path Hok Hc Hp Hs Hb) as (r & s' & -> & Hok' & _). by exists (s', refs).
  - intros (Hc & Hp & Hr & Hty & Hma & Hmi).
    destruct (make_ok sb ds devs s refs cwd path type major minor Hok Hc Hp Hr) as (res & s1 & -> & Hres); [destruct Hty as [->| ->]; done..|done|done|].
    rewrite bind_ret. destruct res as [ip|]; [|by exists (s1, refs)]. destruct Hres as [_ (s2 & -> & Hok2)]. rewrite bind_ret. by exists (s2, refs).
  - intros (Hc & Hp & Hr). destruct (make_ok sb ds devs s refs cwd path T_FILE 0 0 Hok Hc Hp Hr) as (res & s1 & -> & Hres); [done..|].
    rewrite bind_ret. destruct res as [ip|]; [|by exists (s1, refs)]. destruct Hres as [(s2 & -> & Hok2) _]. rewrite bind_ret. by exists (s2, ip :: refs).
  - intros (Hc & Hp & Hs). destruct (namei_ok sb ds devs s refs cwd path Hok Hc Hp Hs) as (res & s1 & -> & _ & _ & _ & Hres). rewrite bind_ret.
    destruct (path_inode s cwd path); [|destruct Hres as [-> ?]; by exists (s1, refs)]. destruct Hres as (ip & -> & ? & _). by exists (s1, ip :: refs).
  - intros Hk. destruct (dup_ok sb ds s refs k Hok Hk) as [Hok' _]. eexists. by split; [reflexivity|].
  - intros Hk. destruct (drop_ok sb ds s refs (remove_one k refs) k Hok (remove_one_perm k refs Hk)) as (s' & -> & Hok' & _). by exists (s', remove_one k refs).
  - intros (Hk & Hb & Hl & Hm & Hf & f & Hfile & Hty & Ho).
    destruct (write_ok sb ds devs s refs k src off n f Hok Hk Hfile Hty Hb Hl Ho Hm Hf) as (s1 & s2 & s3 & -> & H2 & H3 & Hok3 & _).
    rewrite bind_ret, H2, bind_ret, H3, bind_ret. by exists (s3, refs).
Qed.

Fixpoint run_all (cs : list fcall) (w : fstate * list nat) : outcome (fstate * list nat) :=
  match cs with
  | [] => Ok w
  | c :: cs' => w1 ← run c w; run_all cs' w1
  end.
Fixpoint all_admissible (cs : list fcall) (w : fstate * list nat) : Prop :=
  match cs with
  | [] => True
  | c :: cs' => admissible c w ∧ ∀ w1, run c w = Ok w1 → all_admissible cs' w1
  end.

End calls.

(** ** On the image *)

Lemma opened_path c : byte_range c → path_ok [c; 0].
Proof.
  intros Hc. split; [right; left|]. cbn. destruct (decide (c = 0)); [constructor|]. by apply Forall_singleton.
Qed.

Lemma opened_paths :
  path_inode img_sb (opened 1) 0 [102; 0] = Some 2 ∧ path_parent img_sb (opened 1) 0 [102; 0] = Some (1, [102]) ∧
  path_parent img_sb (opened 1) 0 [103; 0] = Some (1, [103]) ∧ path_parent img_sb (opened 1) 0 [46; 0] = Some (1, DOT).
Proof. by vm_compute. Qed.

Lemma opened_names :
  name_in img_sb (opened 1) 1 [102] = Some 2 ∧ name_in img_sb (opened 1) 1 [103] = None ∧ name_in img_sb (opened 1) 1 DOT = Some 1 ∧
  dirF (file img_sb (opened 1)) 2 = None ∧ namesF img_sb (file img_sb (opened 1)) 2 = None.
Proof. by vm_compute. Qed.

Lemma opened_files : file img_sb (opened 1) 1 = Some (mkafile T_DIR 0 0 1 root_data) ∧ file img_sb (opened 1) 2 = Some (mkafile T_FILE 0 0 1 hello).
Proof. destruct image_files as (H1 & H2 & _). exact (conj H1 H2). Qed.

Lemma opened_nfree : nfree (opened 1) = 939%nat.
Proof. exact image_nfree. Qed.

Lemma root_room : (length root_data < MAXBYTES)%nat.
Proof. pose proof MAXBYTES_Z. assert (length root_data = 48%nat) as -> by (by vm_compute). lia. Qed.

Lemma opened_link_room new nm : path_parent img_sb (opened 1) 0 new = Some (1, nm) → link_room img_sb (opened 1) [0%nat] 0 [102; 0] new.
Proof.
  intros Hp. destruct opened_paths as (Hi & _). destruct opened_files as [H1 H2]. split.
  - exact opened_slots.
  - rewrite opened_nfree. lia.
  - rewrite Hi. intros j f [= <-]. rewrite H2. intros [= <-]. cbn. lia.
  - rewrite Hp. intros d nm' fd [= <- <-]. rewrite H1. intros [= <-]. exact root_room.
Qed.

Lemma link_names_witness :
  ∃ s', link [] 0 [102; 0] [103; 0] (opened 1) = Ok (0, s') ∧ ok img_sb img_ds s' [0%nat] ∧
    namesF img_sb (file img_sb s') 1 = <[[103] := 2]> <$> namesF img_sb (file img_sb (opened 1)) 1.
Proof.
  destruct opened_paths as (Hi & _ & Hp & _). destruct opened_names as (_ & Hn & _ & Hd & _).
  destruct (link_names img_sb img_ds [] (opened 1) [0%nat] 0 [102; 0] [103; 0] opened_ok opened_cwd) as (r & s' & Hrun & Hok & _ & Hres).
  - apply opened_path. unfold byte_range. lia.
  - apply opened_path. unfold byte_range. lia.
  - by apply (opened_link_room _ [103]).
  - rewrite Hp. intros d nm [= <- <-]. by rewrite Hn.
  - rewrite Hi, Hp in Hres. rewrite decide_True in Hres by (split; [exact Hd|exact Hn]). destruct Hres as [-> Hadd].
    exists s'. split; [exact Hrun|]. split; [exact Hok|]. apply (na_names _ _ _ _ _ _ Hadd).
Defined.

Lemma link_self_deadlocks_witness : link [] 0 [102; 0] [46; 0] (opened 1) = Fault "acquiresleep: deadlock".
Proof.
  destruct opened_paths as (Hi & _ & _ & Hp). destruct opened_names as (_ & _ & Hn & _). destruct opened_files as [_ H2].
  apply (link_self_deadlocks img_sb img_ds [] (opened 1) [0%nat] 0 [102; 0] [46; 0] 2 (mkafile T_FILE 0 0 1 hello) 1 DOT opened_ok opened_cwd).
  - apply opened_path. unfold byte_range. lia.
  - apply opened_path. unfold byte_range. lia.
  - by apply (opened_link_room _ DOT).
  - exact Hi.
  - exact H2.
  - discriminate.
  - exact Hp.
  - exact Hn.
Defined.

Lemma unlink_names_witness :
  ∃ s', unlink [] 0 [102; 0] (opened 1) = Ok (0, s') ∧ ok img_sb img_ds s' [0%nat] ∧ file img_sb s' 2 = None.
Proof.
  destruct opened_paths as (_ & Hp & _). destruct opened_names as (Hn & _ & _ & _ & Hm). destruct opened_files as [_ H2].
  destruct (unlink_names img_sb img_ds [] (opened 1) [0%nat] 0 [102; 0] opened_ok opened_cwd) as (r & s' & Hrun & Hok & _ & Hres).
  - apply opened_path. unfold byte_range. lia.
  - apply (free_slots_le 3); [lia|exact opened_slots].
  - rewrite opened_nfree. lia.
  - rewrite Hp in Hres. destruct Hres as [[-> (j & _ & Hj & _ & Hrm)]|(_ & _ & Hkeep)].
    + rewrite Hn in Hj. injection Hj as <-. exists s'. split; [exact Hrun|]. split; [exact Hok|]. apply (nr_gone _ _ _ _ _ _ _ Hrm).
      * by rewrite H2.
      * apply (bool_decide_eq_true_1 _). by vm_compute.
    + exfalso. destruct Hkeep as [Hk|[Hk|(j & mj & Hj & Hmj & _)]].
      * apply Hk. split; discriminate.
      * unfold name_in in Hn. congruence.
      * unfold name_in in Hn. rewrite Hn in Hj. injection Hj as <-. congruence.
Defined.

Lemma opened_create_room : create_room img_sb (opened 1) [0%nat] 0 [103; 0].
Proof.
  destruct opened_paths as (_ & _ & Hp & _). destruct opened_files as [H1 _]. split.
  - apply (free_slots_le 3); [lia|exact opened_slots].
  - rewrite opened_nfree. lia.
  - exact image_room.
  - rewrite Hp. intros d nm fd [= <- <-]. rewrite H1. intros [= <-]. split; [exact root_room|]. cbn. lia.
Qed.

Lemma create_names_witness :
  ∃ ip s', create [] 0 [103; 0] T_DIR 0 0 (opened 1) = Ok (Some ip, s') ∧
    namesF img_sb (file img_sb s') (inums s' ip) = Some (new_dir (inums s' ip) 1).
Proof.
  destruct opened_paths as (_ & _ & Hp & _). destruct opened_names as (_ & Hn & _).
  destruct (create_names img_sb img_ds [] (opened 1) [0%nat] 0 [103; 0] T_DIR 0 0 opened_ok opened_cwd) as (res & s' & Hrun & _ & Hres).
  - apply opened_path. unfold byte_range. lia.
  - exact opened_create_room.
  - unfold short, T_DIR. lia.
  - discriminate.
  - unfold short. lia.
  - unfold short. lia.
  - rewrite Hp, Hn in Hres. destruct Hres as (j & Hadd & ip & -> & Hj & _). exists ip, s'. split; [exact Hrun|]. rewrite Hj.
    exact (ia_data _ _ _ _ _ _ _ _ _ Hadd).
Defined.

