(* ===== verification/Loader.v ===== *)
(** * Running a program: [exec.c], [loaduvm] of [vm.c], [sys_exec]

    The state is that of [File]: physical memory and the file system.  A path
    or an argument string is the memory from its address on, as in [Sysfile];
    [junk] is what the kernel stack holds where [ustack] is. *)

From stdpp Require Import gmap.
From S2P Require Import Prelude.
From S2P Require Import Bytes.
From S2P Require Import CString.
From S2P Require Import ProcTable.
From S2P Require Import Proc.
From S2P Require Import Log.
From S2P Require Import Fs.
From S2P Require Import FsDir.
From S2P Require Import Kalloc.
From S2P Require Import Vm.
From S2P Require Import Syscall.
From S2P Require Import File.
From S2P Require Import Sysfile.

Local Open Scope Z_scope.

Definition MAXARG : Z := 32.
Definition ELF_MAGIC : Z := 1179403647.   (* 0x464C457F *)
Definition ELF_PROG_LOAD : Z := 1.
Definition ELFHDR : Z := 52.              (* sizeof(struct elfhdr) *)
Definition PROGHDR : Z := 32.             (* sizeof(struct proghdr) *)

Record elfhdr := mkelfhdr {
  eh_magic : Z; eh_elf : list Z; eh_type : Z; eh_machine : Z; eh_version : Z;
  eh_entry : Z; eh_phoff : Z; eh_shoff : Z; eh_flags : Z; eh_ehsize : Z;
  eh_phentsize : Z; eh_phnum : Z; eh_shentsize : Z; eh_shnum : Z; eh_shstrndx : Z
}.
Record proghdr := mkproghdr {
  ph_type : Z; ph_off : Z; ph_vaddr : Z; ph_paddr : Z;
  ph_filesz : Z; ph_memsz : Z; ph_flags : Z; ph_align : Z
}.

(** The structures in memory. *)
Definition get_elfhdr (b : list Z) : outcome elfhdr :=
  magic ← get_le 4 b 0; elf ← bload b 4 12; type ← get_le 2 b 16; machine ← get_le 2 b 18;
  version ← get_le 4 b 20; entry ← get_le 4 b 24; phoff ← get_le 4 b 28; shoff ← get_le 4 b 32;
  flags ← get_le 4 b 36; ehsize ← get_le 2 b 40; phentsize ← get_le 2 b 42; phnum ← get_le 2 b 44;
  shentsize ← get_le 2 b 46; shnum ← get_le 2 b 48; shstrndx ← get_le 2 b 50;
  Ok (mkelfhdr magic elf type machine version entry phoff shoff flags ehsize phentsize phnum shentsize shnum shstrndx).
Definition get_proghdr (b : list Z) : outcome proghdr :=
  type ← get_le 4 b 0; off ← get_le 4 b 4; vaddr ← get_le 4 b 8; paddr ← get_le 4 b 12;
  filesz ← get_le 4 b 16; memsz ← get_le 4 b 20; flags ← get_le 4 b 24; align ← get_le 4 b 28;
  Ok (mkproghdr type off vaddr paddr filesz memsz flags align).

Section exec.
Context (kend kdata : Z) (devs : list devsw) (junk : list Z).

(** [readi]: the result, the bytes stored, and the new state. *)
Definition read_at (ip : nat) (off n : Z) (e : kenv) : outcome (Z * list Z * kenv) :=
  '(r, bytes, s) ← readi devs ip off n (n_fs e); Ok (r, bytes, e <| n_fs := s |>).

(** The loop of [loaduvm] from offset [i] on. *)
Fixpoint loaduvm_loop (fuel : nat) (pgdir addr : Z) (ip : nat) (offset i sz : Z) (e : kenv) : outcome (Z * kenv) :=
  if decide (i < sz) then
    match fuel with
    | O => Fault "fuel"
    | S fuel' =>
        '(pte, m) ← walkpgdir pgdir (u32 (addr + i)) false (n_mem e);
        if decide (pte = 0) then Panic "loaduvm: address should exist"
        else
          w ← load_word m pte;
          let pa := PTE_ADDR w in
          let n := if decide (sz - i < PGSIZE) then sz - i else PGSIZE in
          '(r, bytes, e1) ← read_at ip (u32 (offset + i)) n (e <| n_mem := m |>);
          m1 ← store_bytes (P2V pa) bytes (n_mem e1);
          if decide (u32 r ≠ n) then Ok (-1, e1 <| n_mem := m1 |>)
          else loaduvm_loop fuel' pgdir addr ip offset (u32 (i + PGSIZE)) sz (e1 <| n_mem := m1 |>)
    end
  else Ok (0, e).
Definition loaduvm (pgdir addr : Z) (ip : nat) (offset sz : Z) (e : kenv) : outcome (Z * kenv) :=
  if decide (addr mod PGSIZE ≠ 0) then Panic "loaduvm: addr must be page aligned"
  else loaduvm_loop (pages_between 0 sz) pgdir addr ip offset 0 sz e.

(** One segment: the new size, or [None] for [goto bad]. *)
Definition load_segment (ip : nat) (pgdir : Z) (ph : proghdr) (sz : Z) (e : kenv) : outcome (option Z * kenv) :=
  if decide (ph_memsz ph < ph_filesz ph) then Ok (None, e)
  else if decide (u32 (ph_vaddr ph + ph_memsz ph) < ph_vaddr ph) then Ok (None, e)
  else
    '(sz1, m) ← allocuvm kend pgdir sz (u32 (ph_vaddr ph + ph_memsz ph)) (n_mem e);
    let e1 := e <| n_mem := m |> in
    if decide (sz1 = 0) then Ok (None, e1)
    else if decide (ph_vaddr ph mod PGSIZE ≠ 0) then Ok (None, e1)
    else
      '(r, e2) ← loaduvm pgdir (ph_vaddr ph) ip (ph_off ph) (ph_filesz ph) e1;
      if decide (r < 0) then Ok (None, e2) else Ok (Some sz1, e2).

(** The loop over the [n] program headers that are left. *)
Fixpoint load_loop (n : nat) (ip : nat) (pgdir off sz : Z) (e : kenv) : outcome (option Z * kenv) :=
  match n with
  | O => Ok (Some sz, e)
  | S n' =>
      '(r, b, e1) ← read_at ip (u32 off) PROGHDR e;
      if decide (u32 r ≠ PROGHDR) then Ok (None, e1)
      else
        ph ← get_proghdr b;
        if decide (ph_type ph ≠ ELF_PROG_LOAD) then load_loop n' ip pgdir (i32 (off + PROGHDR)) sz e1
        else
          '(o, e2) ← load_segment ip pgdir ph sz e1;
          match o with
          | None => Ok (None, e2)
          | Some sz1 => load_loop n' ip pgdir (i32 (off + PROGHDR)) sz1 e2
          end
  end.

(** The argument strings: [argc], [sp] and [ustack] after the loop. *)
Fixpoint push_args (fuel : nat) (pgdir : Z) (argv : list (option (list Z))) (argc sp : Z) (ustack : list Z) (m : mem)
    : outcome (option (Z * Z * list Z) * mem) :=
  match fuel with
  | O => Fault "fuel"
  | S fuel' =>
      a ← aget argv argc;
      match a with
      | None => Ok (Some (argc, sp, ustack), m)
      | Some s =>
          if decide (MAXARG ≤ argc) then Ok (None, m)
          else
            n ← strlen s;
            let sp1 := Z.land (u32 (sp - (n + 1))) (Z.lnot 3) in
            '(r, m1) ← copyout pgdir sp1 s (n + 1) m;
            if decide (r < 0) then Ok (None, m1)
            else ust ← aset ustack (3 + argc) sp1; push_args fuel' pgdir argv (argc + 1) sp1 ust m1
      end
  end.

(** From [ustack[3+argc] = 0] to the last [copyout]: the new [sp]. *)
Definition push_frame (pgdir argc sp : Z) (ustack : list Z) (m : mem) : outcome (option Z * mem) :=
  u ← aset ustack (3 + argc) 0;
  u ← aset u 0 4294967295;
  u ← aset u 1 argc;
  u ← aset u 2 (u32 (sp - (argc + 1) * 4));
  let sp1 := u32 (sp - (3 + argc + 1) * 4) in
  '(r, m1) ← copyout pgdir sp1 (concat (le_bytes 4 <$> u)) ((3 + argc + 1) * 4) m;
  if decide (r < 0) then Ok (None, m1) else Ok (Some sp1, m1).

(** From [sz = PGROUNDUP(sz)] on: the new [sz] and [sp]. *)
Definition setup_stack (pgdir sz : Z) (argv : list (option (list Z))) (m : mem) : outcome (option (Z * Z) * mem) :=
  let sz := PGROUNDUP sz in
  '(sz1, m1) ← allocuvm kend pgdir sz (u32 (sz + 2 * PGSIZE)) m;
  if decide (sz1 = 0) then Ok (None, m1)
  else
    m2 ← clearpteu pgdir (u32 (sz1 - 2 * PGSIZE)) m1;
    '(o, m3) ← push_args (S (Z.to_nat MAXARG)) pgdir argv 0 sz1 junk m2;
    match o with
    | None => Ok (None, m3)
    | Some (argc, sp, ustack) =>
        '(o, m4) ← push_frame pgdir argc sp ustack m3;
        Ok (match o with Some sp1 => Some (sz1, sp1) | None => None end, m4)
    end.

(** [for(last=s=path; *s; s++) if( *s == '/') last = s+1;] *)
Fixpoint prog_name (s last : list Z) : outcome (list Z) :=
  match s with
  | [] => Fault "array read out of bounds"
  | c :: s' => if decide (c = 0) then Ok last else prog_name s' (if decide (c = 47) then s' else last)
  end.

(** From the label [bad]. *)
Definition exec_bad (pgdir : Z) (ip : option nat) (p : proc) (e : kenv) : outcome (Z * proc * kenv) :=
  m ← (if decide (pgdir ≠ 0) then freevm kend pgdir (n_mem e) else Ok (n_mem e));
  let e1 := e <| n_mem := m |> in
  match ip with
  | None => Ok (-1, p, e1)
  | Some ip => e2 ← on_fs (iunlockput ip) e1; Ok (-1, p, op_end e2)
  end.

(** From [// Save program name] to [return 0]. *)
Definition exec_commit (path : list Z) (pgdir sz entry sp : Z) (p : proc) (e : kenv) : outcome (Z * proc * kenv) :=
  last ← prog_name path path;
  let oldpgdir := p_pgdir p in
  let p1 := p <| p_name ::= copy_name 16 last |> <| p_pgdir := pgdir |> <| p_sz := sz |>
              <| p_tf ::= λ t, t <| tf_eip := entry |> <| tf_esp := sp |> |> in
  _ ← switchuvm p1;
  m ← freevm kend oldpgdir (n_mem e);
  Ok (0, p1, e <| n_mem := m |>).

(** [exec] once the inode is locked. *)
Definition exec_load (path : list Z) (argv : list (option (list Z))) (ip : nat) (p : proc) (e : kenv)
    : outcome (Z * proc * kenv) :=
  '(r, b, e1) ← read_at ip 0 ELFHDR e;
  if decide (u32 r ≠ ELFHDR) then exec_bad 0 (Some ip) p e1
  else
    elf ← get_elfhdr b;
    if decide (eh_magic elf ≠ ELF_MAGIC) then exec_bad 0 (Some ip) p e1
    else
      '(pgdir, m) ← setupkvm kend kdata (n_mem e1);
      let e2 := e1 <| n_mem := m |> in
      if decide (pgdir = 0) then exec_bad 0 (Some ip) p e2
      else
        '(o, e3) ← load_loop (Z.to_nat (eh_phnum elf)) ip pgdir (i32 (eh_phoff elf)) 0 e2;
        match o with
        | None => exec_bad pgdir (Some ip) p e3
        | Some sz =>
            e4 ← on_fs (iunlockput ip) e3;
            let e5 := op_end e4 in
            '(o, m1) ← setup_stack pgdir sz argv (n_mem e5);
            let e6 := e5 <| n_mem := m1 |> in
            match o with
            | None => exec_bad pgdir None p e6
            | Some (sz1, sp) => exec_commit path pgdir sz1 (eh_entry elf) sp p e6
            end
        end.

Definition exec (path : list Z) (argv : list (option (list Z))) (p : proc) (e : kenv) : outcome (Z * proc * kenv) :=
  let e := op_begin e in
  match p_cwd p with
  | None => Fault "no current directory"
  | Some cwd =>
      '(o, s) ← namei devs cwd path (n_fs e);
      let e1 := e <| n_fs := s |> in
      match o with
      | None => Ok (-1, p, op_end e1)
      | Some ip => e2 ← on_fs (ilock ip) e1; exec_load path argv ip p e2
      end
  end.

(** The loop of [sys_exec] from argument [i] on; [argv] is what it has stored.
    [None] is [return -1]. *)
Fixpoint fetch_argv (fuel : nat) (u : uproc) (uargv i : Z) (argv : list (option (list Z))) : outcome (option (list (option (list Z)))) :=
  match fuel with
  | O => Fault "fuel"
  | S fuel' =>
      if decide (MAXARG ≤ i) then Ok None
      else
        o ← fetchint u (u32 (uargv + 4 * i));
        match o with
        | None => Ok None
        | Some w =>
            let uarg := u32 w in
            if decide (uarg = 0) then a ← aset argv i None; Ok (Some a)
            else
              o ← fetchstr u uarg;
              match o with
              | None => Ok None
              | Some (_, s) => a ← aset argv i (Some (path_at u s)); fetch_argv fuel' u uargv (i + 1) a
              end
        end
  end.
Definition sys_exec (u : uproc) (p : proc) (e : kenv) : outcome (Z * proc * kenv) :=
  o ← argstr u 0;
  match o with
  | None => Ok (-1, p, e)
  | Some (_, path) =>
      o ← argint u 1;
      match o with
      | None => Ok (-1, p, e)
      | Some uargv =>
          o ← fetch_argv (S (Z.to_nat MAXARG)) u (u32 uargv) 0 (replicate (Z.to_nat MAXARG) None);
          match o with
          | None => Ok (-1, p, e)
          | Some argv => exec (path_at u path) argv p e
          end
      end
  end.
End exec.
