(* ===== verification/UserImage.v ===== *)
(** * The memory of a process as a list of bytes

    [uspace m R d g n I tot]: the address space of directory [d] maps the [n]
    pages from address 0 on, whose contents are the bytes [I], each readable
    and writable by the user but for the guard page [g], and above them only
    the kernel.  [R] are the pages in use by others, [tot] all pages. *)

From stdpp Require Import gmap numbers.
From S2P Require Import Prelude.
From S2P Require Import Bytes.
From S2P Require Import CString.
From S2P Require Import Kalloc.
From S2P Require Import Vm.
From S2P Require Import VmSpec.
From S2P Require Import VmOps.
From S2P Require Import VmLife.

Local Open Scope Z_scope.

(** The first byte of page [k]. *)
Definition pbase (k : Z) : nat := Z.to_nat (PGSIZE * k).

Lemma slice_inserts_in (a n o : nat) (src I : list Z) :
  (o + length src ≤ n)%nat → (a + n ≤ length I)%nat → slice a n (list_inserts (a + o) src I) = list_inserts o src (slice a n I).
Proof.
  intros Ho Ha. apply list_eq. intros i. pose proof (slice_length a n I Ha) as Hl. destruct (decide (i < n)%nat) as [Hi|Hi].
  - rewrite slice_lookup by done. destruct (decide (o ≤ i < o + length src)%nat) as [Hin|Hout].
    + rewrite !list_lookup_inserts by lia. f_equal. lia.
    + destruct (decide (i < o)%nat).
      * rewrite !list_lookup_inserts_lt by lia. by rewrite slice_lookup.
      * rewrite !list_lookup_inserts_ge by lia. by rewrite slice_lookup.
  - rewrite !lookup_ge_None_2; [done|rewrite length_inserts; lia|]. rewrite slice_length; [lia|]. by rewrite length_inserts.
Qed.

Lemma slice_zeros (a n c : nat) (l : list Z) : (length l ≤ a)%nat → (a + n ≤ length l + c)%nat → slice a n (l ++ replicate c 0) = replicate n 0.
Proof. intros. unfold slice. rewrite drop_app_ge by lia. rewrite drop_replicate, take_replicate. f_equal. lia. Qed.

(** ** Flags of an entry *)
Lemma page_bits pa i : pa mod PGSIZE = 0 → 0 ≤ i < 12 → Z.testbit pa i = false.
Proof.
  intros Hm Hi. apply Z.mod_divide in Hm as [q ->]; [|done]. change PGSIZE with (2 ^ 12). apply Z.mul_pow2_bits_low. lia.
Qed.
Lemma page_land pa c : pa mod PGSIZE = 0 → 0 ≤ c < PGSIZE → Z.land pa c = 0.
Proof.
  intros Hm Hc. apply Z.bits_inj'. intros i Hi. rewrite Z.land_spec, Z.bits_0. destruct (decide (i < 12)).
  - by rewrite page_bits.
  - destruct (decide (c = 0)) as [->|]; [by rewrite Z.bits_0, andb_false_r|]. rewrite (Z.bits_above_log2 c), andb_false_r; [done|lia|].
    apply Z.log2_lt_pow2; [lia|]. apply Z.lt_le_trans with (2 ^ 12); [apply Hc|apply Z.pow_le_mono_r; lia].
Qed.
Lemma page_land_flags pa f c : pa mod PGSIZE = 0 → 0 ≤ f < PGSIZE → 0 ≤ c < PGSIZE → Z.land (pa + f) c = Z.land f c.
Proof. intros. rewrite <- lor_flags, Z.land_lor_distr_l, page_land by done. done. Qed.
Lemma clear_user pa : pa mod PGSIZE = 0 → Z.land (leaf pa rw_user) (Z.lnot PTE_U) = leaf pa PTE_W.
Proof.
  intros Hm. unfold leaf. rewrite !Z.land_lor_distr_l. f_equal. f_equal.
  apply Z.bits_inj'. intros i Hi. rewrite Z.land_spec, Z.lnot_spec by done. change PTE_U with (2 ^ 2). destruct (decide (i = 2)) as [->|].
  - by rewrite page_bits.
  - by rewrite Z.pow2_bits_false, andb_true_r.
Qed.

(** The permissions of page [k]. *)
Definition perm_of (g : option Z) (k : Z) : Z := if decide (g = Some k) then PTE_W else rw_user.

Lemma perm_of_range g k : 0 ≤ perm_of g k < PGSIZE.
Proof. unfold perm_of. by case_decide. Qed.

Lemma leaf_user pa f : pa mod PGSIZE = 0 → (f = 0 ∨ f = PTE_W ∨ f = rw_user) → user (leaf pa f) = bool_decide (f = rw_user).
Proof. intros Hm Hf. unfold user, leaf. rewrite <- Z.lor_assoc. destruct Hf as [->|[->| ->]]; (rewrite lor_flags, page_land_flags by done); done. Qed.

Section image.
Context (kend : Z) (end_above : KERNBASE < kend).
Context (kdata : Z) (data_page : kdata mod PGSIZE = 0) (data_above : KERNLINK < kdata) (data_below : kdata < KERNBASE + PHYSTOP).
Local Notation page := (page kend).
Local Notation vm_ok := (vm_ok kend).

Record image (m : mem) (T M : gmap Z Z) (g : option Z) (n : Z) (I : list Z) : Prop := {
  im_size : 0 ≤ n ≤ NUSER;
  im_len : length I = pbase n;
  im_page : ∀ k, 0 ≤ k < n → ∃ pg, M !! k = Some (leaf (V2P pg) (perm_of g k)) ∧ page pg ∧ pgc m pg = slice (pbase k) PGBYTES I;
  im_rest : ∀ k, ¬ 0 ≤ k < n → M !! k = kern_of (kmap kdata) k
}.

Definition uspace (m : mem) (R : list Z) (d : Z) (g : option Z) (n : Z) (I tot : list Z) : Prop :=
  ∃ l T M, vm_ok m l R d T M ∧ total l R d T M ≡ₚ tot ∧ image m T M g n I.

Lemma kern_user k : k < NUSER → kern_of (kmap kdata) k = None.
Proof.
  intros Hk. destruct (kern_of _ k) as [e|] eqn:He; [|done]. apply kern_of_in in He as (x & Hin & Hx).
  destruct (data_vpn kdata data_page data_above data_below) as (c & Hc & Hcr). destruct (kmap_entries kdata c Hc Hcr) as [Hek _].
  rewrite Forall_forall in Hek. pose proof (eo_kern _ (Hek x Hin)). unfold k_in in Hx. lia.
Qed.

Lemma pbase_S k : 0 ≤ k → pbase (k + 1) = (pbase k + PGBYTES)%nat.
Proof. intros. unfold pbase, PGSIZE, PGBYTES. lia. Qed.
Lemma pbase_le k n : 0 ≤ k < n → (pbase k + PGBYTES ≤ pbase n)%nat.
Proof. intros. unfold pbase, PGSIZE, PGBYTES. lia. Qed.

(** The entry of a page. *)
Lemma walk_mapped m l R d T M k o e :
  vm_ok m l R d T M → M !! k = Some e → 0 ≤ o < PGSIZE →
  ∃ a, walkpgdir d (PGSIZE * k + o) false m = Ok (a, m) ∧ a ≠ 0 ∧ load_word m a = Ok e.
Proof.
  intros Hv He Ho. destruct (so_map _ _ _ _ _ (vo_space _ _ _ _ _ _ _ Hv) k e He) as (Hk & _ & t & Ht & _).
  destruct (walk_Some _ _ _ _ _ _ _ Hv k o false t Hk Ho Ht) as [Hw Hz]. destruct (load_pte _ _ _ _ _ _ _ Hv k t Hk Ht) as (e' & Hl & He').
  rewrite He in He'. destruct He' as [-> _]. by eexists.
Qed.

(** A frame is mapped once. *)
Lemma frames_inj m l R d T M k k' e e' :
  vm_ok m l R d T M → M !! k = Some e → M !! k' = Some e' → k < NUSER → k' < NUSER → frame e = frame e' → k = k'.
Proof.
  intros [_ _ Hn] He He' Hk Hk' Hf. destruct (decide (k = k')) as [|Hne]; [done|]. exfalso.
  apply NoDup_app in Hn as [Hn _]. unfold owned in Hn. apply NoDup_cons in Hn as [_ (_ & _ & Hn)%NoDup_app].
  rewrite (frames_delete M k e He Hk) in Hn. apply NoDup_cons in Hn as [[] _]. rewrite Hf.
  eapply elem_frames; [|exact Hk']. by rewrite lookup_delete_ne.
Qed.

Lemma store_bytes_Ok m v o src : direct v → wf_page (pgc m v) → 0 ≤ o → o + Z.of_nat (length src) ≤ PGSIZE → o < PGSIZE →
  store_bytes (v + o) src m = Ok (set_pgc v (list_inserts (Z.to_nat o) src (pgc m v)) m).
Proof.
  intros Hv [Hl _] Ho Hs Hlt. unfold store_bytes. assert ((v + o) mod PGSIZE = o) as Hm.
  { rewrite Zplus_mod, (proj1 Hv), Z.add_0_l, Zmod_mod. by apply Z.mod_small. }
  rewrite Hm. replace (v + o - o) with v by lia. rewrite load_page_Ok, bind_ret by done.
  unfold bstore. rewrite decide_True by (rewrite Hl; unfold PGBYTES, PGSIZE in *; lia). rewrite bind_ret. by apply store_page_Ok.
Qed.

(** ** Writing inside a page *)
Lemma image_store m l R d T M g n I k pg o src :
  vm_ok m l R d T M → image m T M g n I → 0 ≤ k < n → M !! k = Some (leaf (V2P pg) (perm_of g k)) → page pg →
  (o + length src ≤ PGBYTES)%nat → Forall byte_range src →
  let m' := set_pgc pg (list_inserts o src (pgc m pg)) m in
  vm_ok m' l R d T M ∧ image m' T M g n (list_inserts (pbase k + o) src I) ∧ kept m m' R.
Proof.
  intros Hv [Hn Hl Hp Hr] Hk HM Hpg Ho Hb m'. pose proof Hv as [Hkm Hs Hnd].
  pose proof (frame_leaf pg (perm_of g k) (proj1 Hpg) (perm_of_range g k)) as Hf.
  pose proof (elem_frames M k _ HM ltac:(lia)) as Hin. rewrite Hf in Hin. destruct (vo_frames _ _ _ _ _ _ _ Hv pg Hin) as (Hd & HR & Hl').
  assert (wf_page (list_inserts o src (pgc m pg))) as Hwf.
  { destruct (ko_pages _ _ _ Hkm pg) as [Hlen Hby]. split; [by rewrite length_inserts|by apply Forall_inserts]. }
  assert (∀ x, x ≠ pg → pgc m' x = pgc m x) as Hx by (intros x Hx; unfold m'; by rewrite pgc_set, decide_False). split_and!.
  - split; [by apply kmem_set| |done]. apply (space_frame _ m); [done|]. intros x Hxd. apply Hx. by intros ->.
  - split; [done|by rewrite length_inserts| |done]. intros k' Hk'. destruct (Hp k' Hk') as (pg' & HM' & Hpg' & Hc). exists pg'. split_and!; [done|done|].
    pose proof (pbase_le k' n Hk') as Hle. destruct (decide (k' = k)) as [->|Hne].
    + assert (pg' = pg) as -> by (pose proof (frame_leaf pg' _ (proj1 Hpg') (perm_of_range g k)); congruence).
      unfold m'. rewrite pgc_set, decide_True, Hc by done. symmetry. apply slice_inserts_in; lia.
    + rewrite Hx, Hc.
      * symmetry. apply slice_inserts_ne. unfold pbase, PGSIZE, PGBYTES in *. lia.
      * intros ->. apply Hne. pose proof (frame_leaf pg _ (proj1 Hpg') (perm_of_range g k')). eapply frames_inj; [exact Hv|exact HM'|exact HM|lia|lia|congruence].
  - intros x HxR. apply Hx. by intros ->.
Qed.

Section rules.
Context (R : list Z) (d : Z) (tot : list Z).
Implicit Types (m : mem) (g : option Z) (n k : Z) (I : list Z).

(** Page [k]: its entry, its address, and how it is written. *)
Lemma us_page m g n I k :
  uspace m R d g n I tot → 0 ≤ k < n → ∃ pg, page pg ∧
    (∀ o, 0 ≤ o < PGSIZE → ∃ a, walkpgdir d (PGSIZE * k + o) false m = Ok (a, m) ∧ a ≠ 0 ∧ load_word m a = Ok (leaf (V2P pg) (perm_of g k))) ∧
    ∀ o src, 0 ≤ o < PGSIZE → o + Z.of_nat (length src) ≤ PGSIZE → Forall byte_range src →
      ∃ m', store_bytes (pg + o) src m = Ok m' ∧ uspace m' R d g n (list_inserts (Z.to_nat (PGSIZE * k + o)) src I) tot ∧ kept m m' R.
Proof.
  intros (l & T & M & Hv & Ht & Him) Hk. destruct (im_page _ _ _ _ _ _ Him k Hk) as (pg & HM & Hpg & Hc). exists pg. split_and!; [done| |].
  - intros o Ho. by apply (walk_mapped m l R d T M).
  - intros o src Ho Hs Hb. rewrite store_bytes_Ok by (done || lia || apply Hpg || apply (ko_pages _ _ _ (vo_kmem _ _ _ _ _ _ _ Hv))). eexists. split; [done|].
    destruct (image_store m l R d T M g n I k pg (Z.to_nat o) src) as (Hv' & Him' & Hk'); try done; [unfold PGBYTES, PGSIZE in *; lia|].
    split; [|done]. exists l, T, M. split_and!; [done|done|].
    replace (Z.to_nat (PGSIZE * k + o)) with (pbase k + Z.to_nat o)%nat; [done|]. unfold pbase, PGSIZE. lia.
Qed.

Lemma us_len m g n I : uspace m R d g n I tot → length I = pbase n ∧ 0 ≤ n ≤ NUSER.
Proof. intros (l & T & M & _ & _ & Him). split; apply Him. Qed.

(** Its frames are at most [n]. *)
Lemma image_frames m l T M g n I : vm_ok m l R d T M → image m T M g n I → (length (frames M) ≤ Z.to_nat n)%nat.
Proof.
  intros Hv Him. unfold frames. rewrite length_fmap, <- (length_fmap fst).
  rewrite (submseteq_length _ (seqZ 0 n)); [by rewrite length_seqZ|]. apply NoDup_submseteq.
  - eapply sublist_NoDup; [apply (NoDup_fst_map_to_list M)|]. apply fmap_sublist, sublist_filter.
  - intros i ([j e] & -> & Hi)%list_elem_of_fmap. apply list_elem_of_filter in Hi as [Hj Hi]. cbn in Hj |- *. apply elem_of_map_to_list in Hi.
    apply elem_of_seqZ. destruct (decide (0 ≤ j < n)) as [|Hout]; [lia|]. rewrite (im_rest _ _ _ _ _ _ Him j Hout), kern_user in Hi by done. done.
Qed.

Lemma us_avail m l T M g n I :
  vm_ok m l R d T M → total l R d T M ≡ₚ tot → image m T M g n I →
  Z.of_nat (length tot) ≤ Z.of_nat (length R) + 1025 + n + Z.of_nat (length l).
Proof.
  intros Hv Ht Him. pose proof (image_frames m l T M g n I Hv Him). pose proof (tabs_count kend m d T M (vo_space _ _ _ _ _ _ _ Hv)).
  pose proof (im_size _ _ _ _ _ _ Him). apply Permutation_length in Ht. unfold total, owned in Ht. cbn [app length] in Ht. rewrite !length_app in Ht. lia.
Qed.

(** ** Growing *)
Lemma grown_image m m' T M T' M' n n' I :
  image m T M None n I → n ≤ n' → n' ≤ NUSER → grown kend m' n n' M M' → kept m m' (frames M) →
  image m' T' M' None n' (I ++ replicate (Z.to_nat (PGSIZE * (n' - n))) 0).
Proof.
  intros [Hn Hl Hp Hr] Hle Hu Hg Hk. split.
  - lia.
  - rewrite length_app, length_replicate, Hl. unfold pbase, PGSIZE. lia.
  - intros k Hk'. specialize (Hg k). case_decide as Hin.
    + destruct Hg as (pg & -> & Hpg & Hz). exists pg. split_and!; [done|done|]. rewrite Hz. symmetry. apply slice_zeros; rewrite Hl; unfold pbase, PGSIZE, PGBYTES; lia.
    + destruct (Hp k ltac:(lia)) as (pg & HM & Hpg & Hc). exists pg. rewrite Hg. split_and!; [done|done|].
      rewrite Hk, Hc. { symmetry. apply slice_app_l. rewrite Hl. apply pbase_le. lia. }
      pose proof (elem_frames M k _ HM ltac:(lia)) as Hf. by rewrite frame_leaf in Hf by (apply Hpg || apply perm_of_range).
  - intros k Hk'. specialize (Hg k). rewrite decide_False in Hg by lia. rewrite Hg. apply Hr. lia.
Qed.

Lemma us_grow m n I oldsz newsz :
  uspace m R d None n I tot → n = npages oldsz → 0 ≤ oldsz → oldsz ≤ newsz → newsz < KERNBASE →
  ∃ r m', allocuvm kend d oldsz newsz m = Ok (r, m') ∧ kept m m' R ∧
    (r = newsz ∧ uspace m' R d None (npages newsz) (I ++ replicate (Z.to_nat (PGSIZE * (npages newsz - n))) 0) tot ∨
     r = 0 ∧ uspace m' R d None n I tot ∧ Z.of_nat (length tot) < Z.of_nat (length R) + 1025 + 2 * npages newsz).
Proof.
  intros (l & T & M & Hv & Ht & Him) -> H0 Hle Hk.
  assert (∀ k, npages oldsz ≤ k → PGSIZE * k < newsz → M !! k = None) as Hfresh.
  { intros k H1 H2. rewrite (im_rest _ _ _ _ _ _ Him) by lia. apply kern_user. unfold PGSIZE, KERNBASE, NUSER in *. lia. }
  destruct (allocuvm_spec kend end_above R d oldsz newsz M H0 Hle Hk Hfresh m l T Hv) as (r & m' & l' & T' & M' & Hr & Hv' & Ht' & Hkept & Hres).
  assert (npages oldsz ≤ npages newsz ≤ NUSER) as Hnp.
  { unfold npages, NUSER, KERNBASE, PGSIZE in *. split; [apply Z.div_le_mono; lia|].
    enough ((newsz + 4096 - 1) / 4096 < 524289) by lia. apply Z.div_lt_upper_bound; lia. }
  exists r, m'. split; [done|]. split; [eapply kept_sub; [exact Hkept|by apply list_subseteq_app_r]|]. destruct Hres as [[-> Hg]|(-> & -> & Hlt)].
  - left. split; [done|]. exists l', T', M'. split_and!; [done|by rewrite Ht'|]. eapply grown_image; [exact Him|lia|lia|exact Hg|exact (kept_l _ _ _ _ Hkept)].
  - right. split; [done|]. split.
    + exists l', T', M. split_and!; [done|by rewrite Ht'|]. destruct Him as [H1 H2 H3 H4]. split; [done|done| |done]. intros k Hkn.
      destruct (H3 k Hkn) as (pg & HM & Hpg & Hc). exists pg. split_and!; [done|done|]. rewrite <- Hc. apply Hkept, elem_of_app. left.
      pose proof (elem_frames M k _ HM ltac:(lia)) as Hf. by rewrite frame_leaf in Hf by (apply Hpg || apply perm_of_range).
    + pose proof (us_avail m l T M None _ I Hv Ht Him). pose proof (im_size _ _ _ _ _ _ Him). lia.
Qed.

(** ** The guard page *)
Lemma us_clear m n I k :
  uspace m R d None n I tot → 0 ≤ k < n → ∃ m', clearpteu d (PGSIZE * k) m = Ok m' ∧ uspace m' R d (Some k) n I tot ∧ kept m m' R.
Proof.
  intros (l & T & M & Hv & Ht & [Hn Hl Hp Hr]) Hk. destruct (Hp k Hk) as (pg & HM & Hpg & Hc). pose proof Hv as [Hkm Hs Hnd].
  change (perm_of None k) with rw_user in HM. destruct (V2P_direct pg (proj1 Hpg)) as (_ & Hmod & Hpr).
  destruct (so_map _ _ _ _ _ Hs k _ HM) as (Hkr & _ & t & HT & _). destruct (walk_Some _ _ _ _ _ _ _ Hv k 0 false t Hkr ltac:(done) HT) as [Hw Hz].
  destruct (load_pte _ _ _ _ _ _ _ Hv k t Hkr HT) as (e & He & Hee). rewrite HM in Hee. destruct Hee as [-> _].
  unfold clearpteu. rewrite Z.add_0_r in Hw. rewrite Hw, bind_ret, decide_False, He, bind_ret, clear_user by done. set (e' := leaf (V2P pg) PTE_W).
  destruct (leaf_ok (V2P pg) PTE_W) as (Hp' & _ & _ & Her); [done|unfold PHYSTOP in *; lia|done|]. fold e' in Hp', Her.
  assert (frame e' = pg) as Hf by (by apply frame_leaf; [apply Hpg|]). assert (frame (leaf (V2P pg) rw_user) = pg) as Hf0 by (by apply frame_leaf; [apply Hpg|]).
  destruct (vo_apart _ _ _ _ _ _ _ Hv t ltac:(right; by eapply elem_tabs)) as (Ht1 & Ht2 & Ht3).
  destruct (store_pte kend m l d T M k t e' Hkm Hs (vo_dirs _ _ _ _ _ _ _ Hv) Hkr HT Ht3 Her ltac:(by rewrite Hf)) as (m' & Hst & Hkm' & Hs' & Hoth).
  unfold upd in Hs'. rewrite Hp' in Hs'. exists m'. split; [done|]. split; [|intros x Hx; apply Hoth; by intros ->].
  assert (total l R d T (<[k := e']> M) ≡ₚ total l R d T M) as Htot.
  { unfold total, owned. rewrite (frames_delete M k _ HM), Hf0 by lia. rewrite <- insert_delete_eq, frames_insert, Hf by (apply lookup_delete_eq || lia). done. }
  exists l, T, (<[k := e']> M). split_and!; [split; [done|done|]; unfold total in Htot; by rewrite Htot|by rewrite Htot|]. split; [done|done| |].
  - intros k' Hk'. destruct (Hp k' Hk') as (pg' & HM' & Hpg' & Hc'). exists pg'.
    assert (pgc m' pg' = pgc m pg') as ->. { apply Hoth. intros ->. apply Ht1. rewrite <- (frame_leaf t (perm_of None k') (proj1 Hpg') ltac:(done)). eapply elem_frames; [done|lia]. }
    split_and!; [|done|done]. unfold perm_of. destruct (decide (k' = k)) as [->|Hne].
    + rewrite lookup_insert_eq, decide_True by done. unfold e'. do 2 f_equal. assert (pg' = pg) as ->; [|done].
      pose proof (frame_leaf pg' (perm_of None k) (proj1 Hpg') ltac:(done)) as Hx. change (perm_of None k) with rw_user in *. congruence.
    + rewrite lookup_insert_ne, decide_False by congruence. done.
  - intros k' Hk'. rewrite lookup_insert_ne by lia. by apply Hr.
Qed.

(** ** [copyout] *)
Lemma uva2ka_mapped m l T M k e :
  vm_ok m l R d T M → M !! k = Some e → uva2ka d (PGSIZE * k) m = Ok (if user e then frame e else 0, m).
Proof.
  intros Hv HM. destruct (walk_mapped m l R d T M k 0 e Hv HM ltac:(done)) as (a & Hw & Hz & Hl). unfold uva2ka. rewrite Z.add_0_r in Hw.
  rewrite Hw, bind_ret, decide_False, Hl, bind_ret by done. destruct (so_map _ _ _ _ _ (vo_space _ _ _ _ _ _ _ Hv) k e HM) as (_ & -> & _). by destruct (user e).
Qed.

Lemma us_uva m g n I k :
  uspace m R d g n I tot → 0 ≤ k < n →
  if decide (g = Some k) then uva2ka d (PGSIZE * k) m = Ok (0, m)
  else ∃ pg, uva2ka d (PGSIZE * k) m = Ok (pg, m) ∧ pg ≠ 0 ∧
    ∀ o src, 0 ≤ o < PGSIZE → o + Z.of_nat (length src) ≤ PGSIZE → Forall byte_range src →
      ∃ m', store_bytes (pg + o) src m = Ok m' ∧ uspace m' R d g n (list_inserts (Z.to_nat (PGSIZE * k + o)) src I) tot ∧ kept m m' R.
Proof.
  intros Hus Hk. destruct (us_page m g n I k Hus Hk) as (pg & Hpg & Hw & Hst). destruct (Hw 0 ltac:(done)) as (a & Hwa & Hz & Hl).
  destruct (V2P_direct pg (proj1 Hpg)) as (_ & Hmod & Hpr).
  assert (uva2ka d (PGSIZE * k) m = Ok (if user (leaf (V2P pg) (perm_of g k)) then pg else 0, m)) as Hu.
  { unfold uva2ka. rewrite Z.add_0_r in Hwa. rewrite Hwa, bind_ret, decide_False, Hl, bind_ret by done.
    destruct (leaf_ok (V2P pg) (perm_of g k)) as (-> & Ha & _); [done|unfold PHYSTOP in *; lia|apply perm_of_range|]. rewrite Ha, P2V_V2P by apply Hpg.
    by destruct (user _). }
  rewrite leaf_user in Hu by (done || unfold perm_of; case_decide; auto). unfold perm_of in Hu. case_decide as Hg; [done|].
  exists pg. split_and!; [done| |done]. pose proof (page_range _ _ Hpg). lia.
Qed.

Lemma copyout_loop_S fuel va buf len m :
  copyout_loop (S fuel) d va buf len m =
  if decide (0 < len) then
    '(pa0, m1) ← uva2ka d (PGROUNDDOWN va) m;
    if decide (pa0 = 0) then Ok (-1, m1)
    else
      src ← bload buf 0 (Z.to_nat (Z.min (PGSIZE - (va - PGROUNDDOWN va)) len));
      m2 ← store_bytes (pa0 + (va - PGROUNDDOWN va)) src m1;
      copyout_loop fuel d (u32 (PGROUNDDOWN va + PGSIZE)) (drop (Z.to_nat (Z.min (PGSIZE - (va - PGROUNDDOWN va)) len)) buf)
        (len - Z.min (PGSIZE - (va - PGROUNDDOWN va)) len) m2
  else Ok (0, m).
Proof. reflexivity. Qed.

(** A page the user may write. *)
Lemma us_copyout m g n I k o buf len :
  uspace m R d g n I tot → 0 ≤ k < n → g ≠ Some k → 0 ≤ o < PGSIZE → 0 < len → o + len ≤ PGSIZE → len ≤ Z.of_nat (length buf) → Forall byte_range buf →
  ∃ m', copyout d (PGSIZE * k + o) buf len m = Ok (0, m') ∧ kept m m' R ∧
    uspace m' R d g n (list_inserts (Z.to_nat (PGSIZE * k + o)) (take (Z.to_nat len) buf) I) tot.
Proof.
  intros Hus Hk Hg Ho Hlen Hol Hbuf Hb. unfold copyout. rewrite copyout_loop_S, decide_True by done. rewrite PGROUNDDOWN_va by done.
  pose proof (us_uva m g n I k Hus Hk) as Hu. rewrite decide_False in Hu by done. destruct Hu as (pg & -> & Hz & Hst). rewrite bind_ret, decide_False by done.
  replace (PGSIZE * k + o - PGSIZE * k) with o by lia. rewrite Z.min_r by lia. unfold bload. rewrite decide_True by lia. rewrite bind_ret.
  change (drop (Z.to_nat 0) buf) with buf. destruct (Hst o (take (Z.to_nat len) buf) Ho) as (m' & -> & Hus' & Hk'); [rewrite length_take; lia|by apply Forall_take|].
  rewrite bind_ret, Z.sub_diag. exists m'. split; [|done]. by destruct (Z.to_nat (len / PGSIZE)).
Qed.

(** Bytes that reach into the guard page are refused. *)
Lemma us_copyout_guard gp n fuel : ∀ m I k o buf len,
  uspace m R d (Some gp) n I tot → 0 ≤ k ≤ gp → gp < n → 0 ≤ o < PGSIZE → PGSIZE * gp < PGSIZE * k + o + len → len ≤ Z.of_nat (length buf) →
  Forall byte_range buf → 0 < len → (Z.to_nat (gp - k) < fuel)%nat →
  ∃ m' I', copyout_loop fuel d (PGSIZE * k + o) buf len m = Ok (-1, m') ∧ kept m m' R ∧ uspace m' R d (Some gp) n I' tot.
Proof.
  induction fuel as [|fuel IH]; intros m I k o buf len Hus Hk Hg Ho Hreach Hbuf Hb Hlen Hf; [lia|].
  rewrite copyout_loop_S, decide_True, PGROUNDDOWN_va by done. pose proof (us_uva m (Some gp) n I k Hus ltac:(lia)) as Hu. case_decide as Hgk.
  - rewrite Hu, bind_ret, decide_True by done. by exists m, I.
  - destruct Hu as (pg & -> & Hz & Hst). rewrite bind_ret, decide_False by done. replace (PGSIZE * k + o - PGSIZE * k) with o by lia.
    assert (k < gp) as Hkg. { destruct (decide (k = gp)) as [->|]; [done|lia]. } rewrite Z.min_l by (unfold PGSIZE in *; lia).
    unfold bload. rewrite decide_True by (unfold PGSIZE in *; lia). rewrite bind_ret. change (drop (Z.to_nat 0) buf) with buf.
    destruct (Hst o (take (Z.to_nat (PGSIZE - o)) buf) Ho) as (m1 & -> & Hus1 & Hk1); [rewrite length_take; lia|by apply Forall_take|]. rewrite bind_ret.
    pose proof (us_len _ _ _ _ Hus) as [_ Hn]. rewrite u32_small by (unfold PGSIZE, NUSER in *; lia).
    replace (PGSIZE * k + PGSIZE) with (PGSIZE * (k + 1) + 0) by lia.
    destruct (IH m1 _ (k + 1) 0 (drop (Z.to_nat (PGSIZE - o)) buf) (len - (PGSIZE - o)) Hus1) as (m' & I' & Hrun & Hk' & Hus');
      [lia|lia|done|lia|rewrite length_drop; lia|by apply Forall_drop|unfold PGSIZE in *; lia|lia|].
    exists m', I'. split_and!; [done|by eapply kept_same|done].
Qed.

(** The kernel's own pages are refused. *)
Lemma us_copyout_kern m g n I k o buf len e :
  uspace m R d g n I tot → NUSER ≤ k → kern_of (kmap kdata) k = Some e → 0 ≤ o < PGSIZE → 0 < len → copyout d (PGSIZE * k + o) buf len m = Ok (-1, m).
Proof.
  intros (l & T & M & Hv & Ht & Him) Hk He Ho Hlen. unfold copyout. rewrite copyout_loop_S, decide_True, PGROUNDDOWN_va by done.
  rewrite (uva2ka_mapped m l T M k e Hv) by (rewrite (im_rest _ _ _ _ _ _ Him) by (pose proof (im_size _ _ _ _ _ _ Him); lia); done). rewrite bind_ret.
  assert (user e = false) as ->; [|by rewrite decide_True].
  destruct (data_vpn kdata data_page data_above data_below) as (c & Hc & Hcr). revert He. rewrite (kmap_shape kdata c Hc Hcr).
  cbn [kern_of k_phys_start k_perm]. unfold k_vpn. cbn [k_virt].
  repeat (case_decide; [intros [= <-]; rewrite leaf_user; [done| |auto]; rewrite <- Z.mul_add_distr_l, Z.mul_comm; by apply Z.mod_mul|]). done.
Qed.

(** Everything is given back. *)
Lemma us_free m g n I :
  uspace m R d g n I tot → ∃ m' l', freevm kend d m = Ok m' ∧ kmem_ok kend m' l' ∧ R ++ l' ≡ₚ tot ∧ kept m m' R.
Proof.
  intros (l & T & M & Hv & Ht & _). destruct (freevm_spec kend end_above _ _ _ _ _ _ Hv) as (m' & l' & Hf & Hk & Hl & Hkept).
  exists m', l'. split_and!; try done. rewrite Hl, <- Ht. unfold total. solve_Permutation.
Qed.
End rules.
End image.
