(* ===== verification/LoadSpec.v ===== *)
(** * Loading the segments of a program

    [load_segs] is what the program headers of a file ask for: a size and the
    bytes of memory.  [load_loop] of [Loader] builds it page by page from any
    file; [Readable] is all it needs to know of the file system. *)

From stdpp Require Import gmap numbers.
From S2P Require Import Prelude.
From S2P Require Import Bytes.
From S2P Require Import CString.
From S2P Require Import Fs.
From S2P Require Import Kalloc.
From S2P Require Import Vm.
From S2P Require Import VmSpec.
From S2P Require Import VmOps.
From S2P Require Import VmLife.
From S2P Require Import Syscall.
From S2P Require Import File.
From S2P Require Import Loader.
From S2P Require Import UserImage.

Local Open Scope Z_scope.

(** The inode [ip] reads as a file with the bytes [data]. *)
Class Readable (devs : list devsw) (ip : nat) (s : fstate) (data : list Z) : Prop := {
  rd_bytes : Forall byte_range data;
  rd_small : Z.of_nat (length data) < 2 ^ 31;
  rd_readi : ∀ off n, 0 ≤ off < 2 ^ 32 → 0 ≤ n ≤ PGSIZE →
    if decide (off + n ≤ Z.of_nat (length data))
    then readi devs ip off n s = Ok (n, slice (Z.to_nat off) (Z.to_nat n) data, s)
    else ∃ r bytes, readi devs ip off n s = Ok (r, bytes, s) ∧ -1 ≤ r < PGSIZE ∧ r ≠ n ∧ (length bytes ≤ Z.to_nat n)%nat ∧ Forall byte_range bytes
}.

(** ** What the headers ask for *)

(** Memory of [n] pages that starts with [I]. *)
Definition extend (n : Z) (I : list Z) : list Z := I ++ replicate (pbase n - length I) 0.

Definition seg_at (data : list Z) (off : Z) : option proghdr :=
  if decide (0 ≤ off ∧ off + PROGHDR ≤ Z.of_nat (length data)) then
    match get_proghdr (slice (Z.to_nat off) (Z.to_nat PROGHDR) data) with Ok ph => Some ph | _ => None end
  else None.
(** The table of [n] headers at [off]. *)
Fixpoint segments (data : list Z) (n : nat) (off : Z) : option (list proghdr) :=
  match n with
  | O => Some []
  | S n' => ph ← seg_at data off; l ← segments data n' (off + PROGHDR); Some (ph :: l)
  end.

(** What makes a segment acceptable, and its effect on the size and memory. *)
Definition seg_ok (data : list Z) (sz : Z) (ph : proghdr) : Prop :=
  ph_filesz ph ≤ ph_memsz ph ∧ ph_vaddr ph + ph_memsz ph < KERNBASE ∧ 0 < Z.max sz (ph_vaddr ph + ph_memsz ph) ∧
  ph_vaddr ph mod PGSIZE = 0 ∧ (ph_filesz ph = 0 ∨ ph_off ph + ph_filesz ph ≤ Z.of_nat (length data)).
#[export] Instance seg_ok_dec data sz ph : Decision (seg_ok data sz ph).
Proof. unfold seg_ok. apply _. Defined.
Definition load_seg (data : list Z) (x : Z * list Z) (ph : proghdr) : option (Z * list Z) :=
  let '(sz, img) := x in
  let sz' := Z.max sz (ph_vaddr ph + ph_memsz ph) in
  if decide (ph_type ph ≠ ELF_PROG_LOAD) then Some (sz, img)
  else if decide (seg_ok data sz ph)
  then Some (sz', list_inserts (Z.to_nat (ph_vaddr ph)) (slice (Z.to_nat (ph_off ph)) (Z.to_nat (ph_filesz ph)) data) (extend (npages sz') img))
  else None.
Fixpoint load_segs (data : list Z) (l : list proghdr) (x : Z * list Z) : option (Z * list Z) :=
  match l with
  | [] => Some x
  | ph :: l' => y ← load_seg data x ph; load_segs data l' y
  end.

Lemma load_segs_grow data l : ∀ sz I sz' I', load_segs data l (sz, I) = Some (sz', I') → sz ≤ sz'.
Proof.
  induction l as [|ph l IH]; intros sz I sz' I'; cbn [load_segs]; [intros [= -> _]; lia|]. unfold load_seg at 1.
  repeat case_decide; cbn [mbind option_bind]; try done; intros Hl; apply IH in Hl; lia.
Qed.

(** ** Headers in memory *)
Record ph_wf (ph : proghdr) : Prop := {
  pw_type : 0 ≤ ph_type ph < 2 ^ 32; pw_off : 0 ≤ ph_off ph < 2 ^ 32; pw_vaddr : 0 ≤ ph_vaddr ph < 2 ^ 32;
  pw_filesz : 0 ≤ ph_filesz ph < 2 ^ 32; pw_memsz : 0 ≤ ph_memsz ph < 2 ^ 32
}.

Lemma get_le_in w b o : (o + w ≤ length b)%nat → Forall byte_range b →
  ∃ v, get_le w b (Z.of_nat o) = Ok v ∧ 0 ≤ v < 256 ^ Z.of_nat w.
Proof.
  intros Hl Hb. rewrite get_le_Ok by done. eexists. split; [done|]. pose proof (le_val_range (slice o w b)) as Hr.
  rewrite slice_length in Hr by done. apply Hr. by apply Forall_slice.
Qed.

Lemma get_proghdr_Ok b : length b = 32%nat → Forall byte_range b → ∃ ph, get_proghdr b = Ok ph ∧ ph_wf ph.
Proof.
  intros Hl Hb. unfold get_proghdr.
  destruct (get_le_in 4 b 0) as (v0 & E0 & H0); [lia|done|]. change (Z.of_nat 0) with 0 in E0. rewrite E0, bind_ret.
  destruct (get_le_in 4 b 4) as (v1 & E1 & H1); [lia|done|]. change (Z.of_nat 4) with 4 in E1. rewrite E1, bind_ret.
  destruct (get_le_in 4 b 8) as (v2 & E2 & H2); [lia|done|]. change (Z.of_nat 8) with 8 in E2. rewrite E2, bind_ret.
  destruct (get_le_in 4 b 12) as (v3 & E3 & H3); [lia|done|]. change (Z.of_nat 12) with 12 in E3. rewrite E3, bind_ret.
  destruct (get_le_in 4 b 16) as (v4 & E4 & H4); [lia|done|]. change (Z.of_nat 16) with 16 in E4. rewrite E4, bind_ret.
  destruct (get_le_in 4 b 20) as (v5 & E5 & H5); [lia|done|]. change (Z.of_nat 20) with 20 in E5. rewrite E5, bind_ret.
  destruct (get_le_in 4 b 24) as (v6 & E6 & H6); [lia|done|]. change (Z.of_nat 24) with 24 in E6. rewrite E6, bind_ret.
  destruct (get_le_in 4 b 28) as (v7 & E7 & H7); [lia|done|]. change (Z.of_nat 28) with 28 in E7. rewrite E7, bind_ret.
  eexists. split; [done|]. by split.
Qed.

Section load.
Context (kend : Z) (end_above : KERNBASE < kend).
Context (kdata : Z) (data_page : kdata mod PGSIZE = 0) (data_above : KERNLINK < kdata) (data_below : kdata < KERNBASE + PHYSTOP).
Context (devs : list devsw) (R : list Z) (d : Z) (tot : list Z).
Context (ip : nat) (s : fstate) (data : list Z) (Hrd : Readable devs ip s data).
Local Notation uspace := (uspace kend kdata).

(** Too little memory for [n] pages. *)
Definition short_of (n : Z) : Prop := Z.of_nat (length tot) < Z.of_nat (length R) + 1025 + 2 * n.
(** Some address space that is not finished. *)
Definition partial (m : mem) : Prop := ∃ g n I, uspace m R d g n I tot.

Lemma read_at_eq e off n r bytes : n_fs e = s → readi devs ip off n s = Ok (r, bytes, s) → read_at devs ip off n e = Ok (r, bytes, e).
Proof. intros Hs Hr. unfold read_at. rewrite Hs, Hr, bind_ret. destruct e. cbn in Hs. by subst. Qed.

Lemma loaduvm_loop_S fuel addr offset i sz e :
  loaduvm_loop devs (S fuel) d addr ip offset i sz e =
  if decide (i < sz) then
    '(pte, m) ← walkpgdir d (u32 (addr + i)) false (n_mem e);
    if decide (pte = 0) then Panic "loaduvm: address should exist"
    else
      w ← load_word m pte;
      '(r, bytes, e1) ← read_at devs ip (u32 (offset + i)) (if decide (sz - i < PGSIZE) then sz - i else PGSIZE) (e <| n_mem := m |>);
      m1 ← store_bytes (P2V (PTE_ADDR w)) bytes (n_mem e1);
      if decide (u32 r ≠ if decide (sz - i < PGSIZE) then sz - i else PGSIZE) then Ok (-1, e1 <| n_mem := m1 |>)
      else loaduvm_loop devs fuel d addr ip offset (u32 (i + PGSIZE)) sz (e1 <| n_mem := m1 |>)
  else Ok (0, e).
Proof. reflexivity. Qed.

(** One page of a segment. *)
Lemma load_page_step m n I k off c (e : kenv) :
  uspace m R d None n I tot → 0 ≤ k < n → 0 ≤ off < 2 ^ 32 → 0 ≤ c ≤ PGSIZE → n_fs e = s → n_mem e = m →
  ∃ a w r bytes m', walkpgdir d (PGSIZE * k) false m = Ok (a, m) ∧ a ≠ 0 ∧ load_word m a = Ok w ∧ read_at devs ip off c e = Ok (r, bytes, e) ∧
    store_bytes (P2V (PTE_ADDR w)) bytes m = Ok m' ∧ kept m m' R ∧
    if decide (off + c ≤ Z.of_nat (length data)) then u32 r = c ∧ uspace m' R d None n (list_inserts (pbase k) (slice (Z.to_nat off) (Z.to_nat c) data) I) tot
    else u32 r ≠ c ∧ partial m'.
Proof.
  intros Hus Hk Hoff Hc Hs Hm. destruct (us_page kend kdata R d tot m None n I k Hus Hk) as (pg & Hpg & Hw & Hst).
  destruct (Hw 0 ltac:(done)) as (a & Ha & Hz & Hl). rewrite Z.add_0_r in Ha. destruct (V2P_direct pg (proj1 Hpg)) as (_ & Hmod & Hpr).
  destruct (leaf_ok (V2P pg) (perm_of None k)) as (_ & Hadr & _); [done|unfold PHYSTOP in *; lia|apply perm_of_range|].
  pose proof (rd_readi off c Hoff Hc) as Hrdi. case_decide as Hin.
  - destruct (Hst 0 (slice (Z.to_nat off) (Z.to_nat c) data)) as (m' & Hsb & Hus' & Hk'); [done| | |].
    { rewrite slice_length; lia. } { apply Forall_slice, rd_bytes. }
    eexists a, _, c, _, m'. rewrite Hadr, P2V_V2P by apply Hpg. rewrite Z.add_0_r in Hsb, Hus'. split_and!; try done; [by apply read_at_eq|].
    rewrite u32_small by (unfold PGSIZE in *; lia). done.
  - destruct Hrdi as (r & bytes & Hri & Hr & Hne & Hlen & Hb). destruct (Hst 0 bytes) as (m' & Hsb & Hus' & Hk'); [done|lia|done|].
    eexists a, _, r, bytes, m'. rewrite Hadr, P2V_V2P by apply Hpg. rewrite Z.add_0_r in Hsb. split_and!; try done; [by apply read_at_eq| |by eexists _, _, _].
    destruct (decide (r = -1)) as [->|]; [|rewrite u32_small by (unfold PGSIZE in *; lia); done]. change (u32 (-1)) with 4294967295. unfold PGSIZE in *. lia.
Qed.

Lemma kenv_same (e : kenv) : e <| n_mem := n_mem e |> = e.
Proof. by destruct e. Qed.

Lemma loaduvm_loop_spec n ka off sz fuel : 0 ≤ ka → 0 ≤ off < 2 ^ 32 → PGSIZE * ka + sz ≤ PGSIZE * n → ∀ m I j (e : kenv),
  uspace m R d None n I tot → 0 ≤ j → PGSIZE * j < sz + PGSIZE → j = 0 ∨ off + Z.min sz (PGSIZE * j) ≤ Z.of_nat (length data) →
  n_fs e = s → n_mem e = m → (pages_between (PGSIZE * j) sz ≤ fuel)%nat →
  ∃ r m', loaduvm_loop devs fuel d (PGSIZE * ka) ip off (PGSIZE * j) sz e = Ok (r, e <| n_mem := m' |>) ∧ kept m m' R ∧
    if decide (sz ≤ PGSIZE * j ∨ off + sz ≤ Z.of_nat (length data))
    then r = 0 ∧ uspace m' R d None n (list_inserts (pbase (ka + j)) (slice (Z.to_nat (off + PGSIZE * j)) (Z.to_nat (sz - PGSIZE * j)) data) I) tot
    else r = -1 ∧ partial m'.
Proof.
  intros Hka Hoff Hfit. induction fuel as [|fuel IH]; intros m I j e Hus Hj Hjs Hdone Hs <- Hf.
  { apply pages_between_0 in Hf. exists 0, (n_mem e). rewrite kenv_same. cbn [loaduvm_loop]. rewrite decide_False by lia. split_and!; [done|done|].
    rewrite decide_True by lia. replace (Z.to_nat (sz - PGSIZE * j)) with 0%nat by lia. split; [done|exact Hus]. }
  rewrite loaduvm_loop_S. destruct (decide (PGSIZE * j < sz)) as [Hlt|Hlt].
  2: { exists 0, (n_mem e). rewrite kenv_same. split_and!; [done|done|]. rewrite decide_True by lia. replace (Z.to_nat (sz - PGSIZE * j)) with 0%nat by lia. split; [done|exact Hus]. }
  pose proof (us_len _ _ _ _ _ _ _ _ _ Hus) as [_ Hn]. pose proof rd_small as Hsm. set (c := if decide (sz - PGSIZE * j < PGSIZE) then sz - PGSIZE * j else PGSIZE).
  assert (0 < c ≤ PGSIZE ∧ c ≤ sz - PGSIZE * j ∧ (c = PGSIZE ∨ c = sz - PGSIZE * j)) as (Hc & Hcs & Hcc) by (unfold c; destruct (decide (sz - PGSIZE * j < PGSIZE)); unfold PGSIZE in *; lia).
  rewrite <- Z.mul_add_distr_l, (u32_small (PGSIZE * (ka + j))), (u32_small (off + _)) by (unfold PGSIZE, NUSER in *; lia).
  destruct (load_page_step (n_mem e) n I (ka + j) (off + PGSIZE * j) c e Hus) as (a & w & r & bytes & m1 & -> & Hz & Hw & Hr & Hsb & Hk1 & Hres);
    [unfold PGSIZE in *; lia|unfold PGSIZE in *; lia|lia|done|done|].
  rewrite bind_ret, decide_False, Hw, bind_ret, kenv_same, Hr, bind_ret, Hsb, bind_ret by done. destruct (decide (off + PGSIZE * j + c ≤ Z.of_nat (length data))) as [Hin|Hin].
  - destruct Hres as [Hrc Hus1]. rewrite decide_False by congruence. rewrite u32_small by (unfold PGSIZE, NUSER in *; lia).
    replace (PGSIZE * j + PGSIZE) with (PGSIZE * (j + 1)) by lia.
    destruct (IH m1 _ (j + 1) (e <| n_mem := m1 |>) Hus1) as (r2 & m2 & Hrun & Hk2 & Hres2);
      [lia|lia|unfold PGSIZE in *; lia|done|done|eapply pages_between_S; [|exact Hlt|exact Hf]; lia|].
    exists r2, m2. split_and!; [exact Hrun|by eapply kept_same|]. destruct (decide (off + sz ≤ Z.of_nat (length data))) as [Hall|Hnot].
    + rewrite decide_True by lia. rewrite decide_True in Hres2 by lia. destruct Hres2 as [-> Hus2]. split; [done|].
      rewrite <- (Z.add_0_l (sz - PGSIZE * j)). destruct Hcc as [Hcc|Hcc].
      * replace (Z.to_nat (0 + (sz - PGSIZE * j))) with (Z.to_nat c + Z.to_nat (sz - PGSIZE * (j + 1)))%nat by lia.
        rewrite slice_split, inserts_app, slice_length by lia.
        replace (pbase (ka + j) + Z.to_nat c)%nat with (pbase (ka + (j + 1))) by (unfold pbase, PGSIZE in *; lia).
        by replace (Z.to_nat (off + PGSIZE * j) + Z.to_nat c)%nat with (Z.to_nat (off + PGSIZE * (j + 1))) by lia.
      * replace (Z.to_nat (sz - PGSIZE * (j + 1))) with 0%nat in Hus2 by lia. cbn [list_inserts] in Hus2.
        replace (Z.to_nat (0 + (sz - PGSIZE * j))) with (Z.to_nat c) by lia. exact Hus2.
    + rewrite decide_False by lia. rewrite decide_False in Hres2 by (unfold PGSIZE in *; lia). exact Hres2.
  - destruct Hres as [Hrc Hp]. rewrite decide_True by done. exists (-1), m1. split_and!; [done|done|]. by rewrite decide_False by (unfold PGSIZE in *; lia).
Qed.

Lemma loaduvm_spec n ka off sz m I (e : kenv) :
  uspace m R d None n I tot → 0 ≤ ka → 0 ≤ off < 2 ^ 32 → 0 ≤ sz → PGSIZE * ka + sz ≤ PGSIZE * n → n_fs e = s → n_mem e = m →
  ∃ r m', loaduvm devs d (PGSIZE * ka) ip off sz e = Ok (r, e <| n_mem := m' |>) ∧ kept m m' R ∧
    if decide (sz = 0 ∨ off + sz ≤ Z.of_nat (length data))
    then r = 0 ∧ uspace m' R d None n (list_inserts (pbase ka) (slice (Z.to_nat off) (Z.to_nat sz) data) I) tot
    else r = -1 ∧ partial m'.
Proof.
  intros Hus Hka Hoff Hsz Hfit Hs Hm. unfold loaduvm. rewrite decide_False; [|rewrite Z.mul_comm, Z.mod_mul; [auto|done]].
  destruct (loaduvm_loop_spec n ka off sz (pages_between 0 sz) Hka Hoff Hfit m I 0 e Hus) as (r & m' & Hrun & Hk & Hres);
    [done|unfold PGSIZE; lia|by left|done|done|done|]. change (PGSIZE * 0) with 0 in *. exists r, m'. split_and!; [done|done|].
  destruct (decide (sz ≤ 0 ∨ _)); destruct (decide (sz = 0 ∨ _)); try lia; [|done]. rewrite !Z.add_0_r, Z.sub_0_r in Hres. done.
Qed.

(** [allocuvm] as [exec] calls it. *)
Lemma alloc_seg m I sz top :
  uspace m R d None (npages sz) I tot → 0 ≤ sz ≤ KERNBASE → 0 ≤ top →
  ∃ r m', allocuvm kend d sz top m = Ok (r, m') ∧ kept m m' R ∧
    (r = Z.max sz top ∧ top < KERNBASE ∧ uspace m' R d None (npages r) (extend (npages r) I) tot ∨
     r = 0 ∧ partial m' ∧ (top < KERNBASE → short_of (npages (Z.max sz top)))).
Proof.
  intros Hus Hsz Htop. pose proof (us_len _ _ _ _ _ _ _ _ _ Hus) as [Hlen _].
  destruct (decide (KERNBASE ≤ top)) as [Hk|Hk]; [|destruct (decide (top < sz)) as [Hlt|Hge]].
  - exists 0, m. unfold allocuvm. rewrite decide_True by done. split_and!; [done|done|right]. split_and!; [done|by eexists _, _, _|lia].
  - exists sz, m. unfold allocuvm. rewrite decide_False, decide_True by lia. split_and!; [done|done|left]. split_and!; [lia|lia|].
    unfold extend. rewrite Hlen, Nat.sub_diag, app_nil_r. exact Hus.
  - destruct (us_grow kend end_above kdata data_page data_above data_below R d tot m _ I sz top Hus eq_refl) as (r & m' & Hrun & Hk' & Hres); [lia|lia|lia|].
    exists r, m'. split_and!; [done|done|]. rewrite Z.max_r by lia. destruct Hres as [[-> Hus']|(-> & Hus' & Hsh)].
    + left. split_and!; [done|lia|]. unfold extend. rewrite Hlen. destruct (npages_up sz) as [_ Hn1]; [lia|]. destruct (npages_up top) as [_ Hn2]; [lia|].
      assert (npages sz ≤ npages top) as Hle by (unfold npages; apply Z.div_le_mono; unfold PGSIZE; lia).
      replace (pbase (npages top) - pbase (npages sz))%nat with (Z.to_nat (PGSIZE * (npages top - npages sz))); [exact Hus'|]. unfold pbase, PGSIZE. lia.
    + right. split_and!; [done|by eexists _, _, _|done].
Qed.

Lemma npages_fits sz : 0 ≤ sz → sz ≤ PGSIZE * npages sz.
Proof. intros. unfold npages, PGSIZE. pose proof (Z.div_mod (sz + 4096 - 1) 4096). pose proof (Z.mod_pos_bound (sz + 4096 - 1) 4096). lia. Qed.

Definition load_post (m : mem) (e : kenv) (res : option (Z * list Z)) (o : outcome (option Z * kenv)) : Prop :=
  ∃ r m', o = Ok (r, e <| n_mem := m' |>) ∧ kept m m' R ∧
    match r with
    | Some sz => ∃ I, res = Some (sz, I) ∧ uspace m' R d None (npages sz) I tot ∧ 0 ≤ sz < KERNBASE
    | None => partial m' ∧ ∀ sz I, res = Some (sz, I) → short_of (npages sz)
    end.

Lemma load_segment_spec m I sz ph (e : kenv) :
  uspace m R d None (npages sz) I tot → 0 ≤ sz < KERNBASE → ph_wf ph → ph_type ph = ELF_PROG_LOAD → n_fs e = s → n_mem e = m →
  load_post m e (load_seg data (sz, I) ph) (load_segment kend devs ip d ph sz e).
Proof.
  intros Hus Hsz [_ Hpo Hpv Hpf Hpm] Hty Hs <-. unfold load_post, load_segment, load_seg. rewrite (decide_False (P := ph_type ph ≠ _)) by (by intros []).
  assert (partial (n_mem e)) as Hpart by (by eexists _, _, _). pose proof (kenv_same e) as Hsame.
  case_decide as H1. { exists None, (n_mem e). rewrite Hsame. split_and!; try done. intros *. rewrite decide_False; [done|]. unfold seg_ok. lia. }
  assert (∀ x y, 0 ≤ x < 2 ^ 32 → 0 ≤ y < 2 ^ 32 → u32 (x + y) = if decide (x + y < 2 ^ 32) then x + y else x + y - 2 ^ 32) as Hu32.
  { intros x y Hx Hy. case_decide; [by rewrite u32_small by lia|]. unfold u32. rewrite <- (Z.mod_small (x + y - 2 ^ 32) (2 ^ 32)) by lia.
    rewrite Zminus_mod, Z_mod_same_full, Z.sub_0_r, Zmod_mod. done. }
  rewrite (Hu32 _ _ Hpv Hpm). destruct (decide (ph_vaddr ph + ph_memsz ph < 2 ^ 32)) as [Htop|Htop].
  2: { rewrite decide_True by lia. exists None, (n_mem e). rewrite Hsame. split_and!; try done. intros *. rewrite decide_False; [done|]. unfold seg_ok, KERNBASE. lia. }
  rewrite decide_False by lia. set (top := ph_vaddr ph + ph_memsz ph) in *.
  destruct (alloc_seg (n_mem e) I sz top Hus ltac:(lia) ltac:(lia)) as (r & m1 & -> & Hk1 & Hres). rewrite bind_ret.
  destruct Hres as [(-> & Htk & Hus1)|(-> & Hp1 & Hsh)].
  2: { rewrite decide_True by done. exists None, m1. split_and!; try done. intros sz' I'. case_decide as Hok; [|done]. intros [= <- _].
    apply Hsh. destruct Hok as (_ & ? & _). done. }
  set (sz' := Z.max sz top) in *. assert (partial m1) as Hp1 by (by eexists _, _, _). case_decide as H0.
  { exists None, m1. split_and!; try done. intros *. rewrite decide_False; [done|]. intros (_ & _ & ? & _). unfold top in *. lia. }
  case_decide as Hal. { exists None, m1. split_and!; try done. intros *. rewrite decide_False; [done|]. by intros (_ & _ & _ & ? & _). }
  assert (ph_vaddr ph = PGSIZE * (ph_vaddr ph / PGSIZE)) as Hva by (apply Z_div_exact_full_2; done).
  pose proof (npages_fits sz' ltac:(lia)) as Hfit.
  destruct (loaduvm_spec (npages sz') (ph_vaddr ph / PGSIZE) (ph_off ph) (ph_filesz ph) m1 _ (e <| n_mem := m1 |>) Hus1) as (r & m2 & Hrun & Hk2 & Hres);
    [apply Z.div_pos; [lia|done]|lia|lia|unfold top in *; lia|done|done|]. rewrite <- Hva in Hrun. rewrite Hrun, bind_ret. clear Hrun.
  assert (pbase (ph_vaddr ph / PGSIZE) = Z.to_nat (ph_vaddr ph)) as Hpb by (unfold pbase; by rewrite <- Hva). rewrite Hpb in Hres.
  destruct (decide (ph_filesz ph = 0 ∨ _)) as [Hin|Hout]; destruct Hres as [-> Hres].
  - exists (Some sz'), m2. split_and!; [done|by eapply kept_same|]. eexists. rewrite decide_True; [split_and!; [done|exact Hres|lia|unfold sz'; lia]|].
    unfold seg_ok. fold top. split_and!; [lia|done|lia|done|done].
  - exists None, m2. split_and!; [done|by eapply kept_same|done|]. intros *. rewrite decide_False; [done|]. by intros (_ & _ & _ & _ & ?).
Qed.

Lemma load_loop_spec n : ∀ m I off sz (e : kenv),
  uspace m R d None (npages sz) I tot → 0 ≤ sz < KERNBASE → 0 ≤ off < 2 ^ 32 → n_fs e = s → n_mem e = m →
  load_post m e (segments data n off ≫= λ l, load_segs data l (sz, I)) (load_loop kend devs n ip d (i32 off) sz e).
Proof.
  induction n as [|n IH]; intros m I off sz e Hus Hsz Hoff Hs <-; cbn [load_loop segments].
  { exists (Some sz), (n_mem e). rewrite kenv_same. split_and!; try done. exists I. split; [done|]. split; [exact Hus|done]. }
  pose proof rd_small as Hsm. rewrite u32_i32, u32_small by done. pose proof (rd_readi off PROGHDR Hoff ltac:(done)) as Hri.
  unfold seg_at. destruct (decide (off + PROGHDR ≤ Z.of_nat (length data))) as [Hin|Hout].
  2: { rewrite (decide_False (P := 0 ≤ off ∧ _)) by lia. destruct Hri as (r & bytes & Hr & Hrr & Hne & _ & _).
    rewrite (read_at_eq e off PROGHDR r bytes Hs Hr), bind_ret, decide_True.
    - exists None, (n_mem e). rewrite kenv_same. split_and!; try done; [by eexists _, _, _].
    - destruct (decide (r = -1)) as [->|]; [done|]. rewrite u32_small by (unfold PGSIZE in *; lia). done. }
  rewrite (decide_True (P := 0 ≤ off ∧ _)) by lia. rewrite (read_at_eq e off PROGHDR _ _ Hs Hri), bind_ret, decide_False by (intros []; done).
  destruct (get_proghdr_Ok (slice (Z.to_nat off) (Z.to_nat PROGHDR) data)) as (ph & Hph & Hwf).
  { rewrite slice_length; [done|]. unfold PROGHDR in *. lia. } { apply Forall_slice, rd_bytes. }
  rewrite Hph, bind_ret. cbn [mbind option_bind]. assert (i32 (i32 off + PROGHDR) = i32 (off + PROGHDR)) as ->.
  { rewrite (i32_small off) by (unfold PROGHDR in *; lia). done. }
  assert (∀ x, (segments data n (off + PROGHDR) ≫= (λ l, Some (ph :: l))) ≫= (λ l, load_segs data l x) =
    load_seg data x ph ≫= λ y, segments data n (off + PROGHDR) ≫= λ l, load_segs data l y) as Hstep.
  { intros x. destruct (segments data n (off + PROGHDR)); cbn [mbind option_bind load_segs]; [done|]. by destruct (load_seg data x ph). }
  rewrite Hstep. assert (0 ≤ off + PROGHDR < 2 ^ 32) as Hoff' by (unfold PROGHDR in *; lia). case_decide as Hty.
  - assert (load_seg data (sz, I) ph = Some (sz, I)) as -> by (unfold load_seg; by rewrite decide_True). cbn [mbind option_bind].
    by apply (IH (n_mem e) I (off + PROGHDR) sz e).
  - destruct (load_segment_spec (n_mem e) I sz ph e Hus Hsz Hwf Hty Hs eq_refl) as (r & m1 & -> & Hk1 & Hr). rewrite bind_ret.
    destruct r as [sz1|].
    + destruct Hr as (I1 & -> & Hus1 & Hsz1). cbn [mbind option_bind].
      destruct (IH m1 I1 (off + PROGHDR) sz1 (e <| n_mem := m1 |>) Hus1 Hsz1 Hoff') as (r & m2 & -> & Hk2 & Hr); [done|done|].
      exists r, m2. split_and!; [done|by eapply kept_same|done].
    + destruct Hr as [Hp Hsh]. exists None, m1. split_and!; [done|done|done|]. intros sz' I' Heq. apply bind_Some in Heq as ([sz1 I1] & Hseg & Heq).
      apply bind_Some in Heq as (l & _ & Hl). pose proof (load_segs_grow _ _ _ _ _ _ Hl) as Hle. pose proof (Hsh sz1 I1 Hseg) as H. unfold short_of in *.
      assert (npages sz1 ≤ npages sz') by (unfold npages; apply Z.div_le_mono; unfold PGSIZE; lia). lia.
Qed.
End load.
