(* ===== verification/StackSpec.v ===== *)
(** * The stack of a new program

    [push_strings] and [stack_frame]: what [exec] leaves on the user stack, one
    page between the guard page and the top of memory. *)

From stdpp Require Import gmap numbers.
From S2P Require Import Prelude.
From S2P Require Import Bytes.
From S2P Require Import CString.
From S2P Require Import Fs.
From S2P Require Import InodeSpec.
From S2P Require Import Kalloc.
From S2P Require Import Vm.
From S2P Require Import VmSpec.
From S2P Require Import VmOps.
From S2P Require Import VmLife.
From S2P Require Import File.
From S2P Require Import Loader.
From S2P Require Import UserImage.
From S2P Require Import LoadSpec.

Local Open Scope Z_scope.

(** The strings [args] pushed below [sp], each with its NUL and aligned to a
    word: their addresses, the new [sp], and memory; [None] if one does not
    fit above [base]. *)
Fixpoint push_strings (base : Z) (args : list (list Z)) (sp : Z) (img : list Z) : option (list Z * Z * list Z) :=
  match args with
  | [] => Some ([], sp, img)
  | a :: args' =>
      let sp' := (sp - (Z.of_nat (length a) + 1)) / 4 * 4 in
      if decide (sp' < base) then None
      else
        '(ptrs, q, img') ← push_strings base args' sp' (list_inserts (Z.to_nat sp') (a ++ [0]) img);
        Some (sp' :: ptrs, q, img')
  end.

(** The words of [main]'s frame below the strings: a return address, [argc],
    [argv] and the array it points to. *)
Definition frame_words (ptrs : list Z) (sp : Z) : list Z :=
  [4294967295; Z.of_nat (length ptrs); sp - (Z.of_nat (length ptrs) + 1) * 4] ++ ptrs ++ [0].

(** Memory of [top] bytes with the arguments on its last page. *)
Definition stack_of (top : Z) (args : list (list Z)) (img : list Z) : option (Z * list Z) :=
  if decide (MAXARG < Z.of_nat (length args)) then None
  else
    '(ptrs, sp, img') ← push_strings (top - PGSIZE) args top img;
    let sp' := sp - 4 * (Z.of_nat (length ptrs) + 4) in
    if decide (sp' < top - PGSIZE) then None
    else Some (sp', list_inserts (Z.to_nat sp') (concat (le_bytes 4 <$> frame_words ptrs sp)) img').

(** An argument in memory; [exec] relies on it being shorter than the kernel's
    device mapping. *)
Definition arg_ok (s : list Z) : Prop := 0 ∈ s ∧ Forall byte_range s ∧ Z.of_nat (length (cstr s)) < 2 ^ 25.

Lemma push_strings_len base args : ∀ sp img ptrs q img', push_strings base args sp img = Some (ptrs, q, img') → length ptrs = length args.
Proof.
  induction args as [|a args IH]; intros sp img ptrs q img'; cbn [push_strings]; [by intros [= <- _ _]|]. case_decide; [done|].
  intros ([[ptrs1 q1] img1] & Hp & [= <- _ _])%bind_Some. cbn [length]. f_equal. by eapply IH.
Qed.

Lemma land_align x : Z.land x (Z.lnot 3) = x / 4 * 4.
Proof. rewrite <- Z.ldiff_land. change 3 with (Z.ones 2). rewrite Z.ldiff_ones_r, Z.shiftl_mul_pow2, Z.shiftr_div_pow2 by done. done. Qed.

(** ** What [main] finds on its stack *)

(** The word and the string of [n] characters at an address. *)
Definition word_of (img : list Z) (a : Z) : Z := le_val (slice (Z.to_nat a) 4 img).
Definition string_at (img : list Z) (a : Z) (str : list Z) : Prop := slice (Z.to_nat a) (S (length str)) img = str ++ [0].

(** A call [main(argc, argv)] that returns to an invalid address. *)
Definition main_frame (img : list Z) (sp : Z) (args : list (list Z)) : Prop :=
  word_of img sp = 4294967295 ∧ word_of img (sp + 4) = Z.of_nat (length args) ∧
  let argv := word_of img (sp + 8) in
  (∀ i a, args !! i = Some a → string_at img (word_of img (argv + 4 * Z.of_nat i)) a) ∧
  word_of img (argv + 4 * Z.of_nat (length args)) = 0.

(** The bytes from [a] on are the same. *)
Definition above (a : Z) (img img' : list Z) : Prop := length img' = length img ∧ ∀ i, (Z.to_nat a ≤ i)%nat → img' !! i = img !! i.

Lemma above_inserts a b src img : (0 ≤ b) → b + Z.of_nat (length src) ≤ a → above a img (list_inserts (Z.to_nat b) src img).
Proof. intros Hb Ha. split; [apply length_inserts|]. intros i Hi. apply list_lookup_inserts_ge. lia. Qed.
Lemma above_slice a img img' o n : above a img img' → (Z.to_nat a ≤ o)%nat → slice o n img' = slice o n img.
Proof.
  intros [_ Hi] Ho. apply list_eq. intros i. destruct (decide (i < n)%nat).
  - rewrite !slice_lookup by done. apply Hi. lia.
  - unfold slice. by rewrite !lookup_take_ge by lia.
Qed.
Lemma above_trans a b img1 img2 img3 : above a img1 img2 → above b img2 img3 → b ≤ a → above a img1 img3.
Proof. intros [H1 H2] [H3 H4] Hle. split; [congruence|]. intros i Hi. rewrite H4, H2; [done|lia|lia]. Qed.

Lemma slice_inserts_sub (o a n : nat) (k img : list Z) : (a + n ≤ length k)%nat → (o + length k ≤ length img)%nat → slice (o + a) n (list_inserts o k img) = slice a n k.
Proof.
  intros Ha Ho. apply list_eq. intros i. destruct (decide (i < n)%nat).
  - rewrite !slice_lookup by done. rewrite list_lookup_inserts by lia. f_equal. lia.
  - unfold slice. by rewrite !lookup_take_ge by lia.
Qed.

Lemma push_strings_spec base args : ∀ sp img ptrs q img',
  push_strings base args sp img = Some (ptrs, q, img') → 0 ≤ base → base ≤ sp → sp ≤ Z.of_nat (length img) →
  base ≤ q ≤ sp ∧ above sp img img' ∧ Forall2 (λ a ptr, q ≤ ptr < sp ∧ string_at img' ptr a) args ptrs.
Proof.
  induction args as [|a args IH]; intros sp img ptrs q img'; cbn [push_strings].
  { intros [= <- <- <-] ? ? ?. split_and!; [lia|lia|split; done|constructor]. }
  set (sp' := (sp - (Z.of_nat (length a) + 1)) / 4 * 4). case_decide as Hlow; [done|].
  intros ([[ptrs1 q1] img1] & Hp & [= <- <- <-])%bind_Some Hb Hbs Hlen.
  assert (sp' + Z.of_nat (length a) + 1 ≤ sp) as Hsp'.
  { unfold sp'. pose proof (Z.div_mod (sp - (Z.of_nat (length a) + 1)) 4). pose proof (Z.mod_pos_bound (sp - (Z.of_nat (length a) + 1)) 4). lia. }
  destruct (IH sp' _ _ _ _ Hp) as (Hq & Hab & Hall); [done|lia|rewrite length_inserts; lia|].
  split_and!; [lia|lia| |].
  { eapply above_trans; [|exact Hab|lia]. apply above_inserts; [lia|]. rewrite length_app. cbn [length]. lia. }
  constructor.
  - split; [lia|]. unfold string_at. rewrite (above_slice sp' _ img1 _ _ Hab) by lia.
    replace (S (length a)) with (length (a ++ [0])) by (rewrite length_app; cbn; lia). apply slice_inserts_eq. rewrite length_app. cbn [length]. lia.
  - eapply Forall2_impl; [exact Hall|]. intros b ptr [? ?]. split; [lia|done].
Qed.

Lemma stack_of_main top args img sp img' :
  stack_of top args img = Some (sp, img') → PGSIZE ≤ top → top ≤ Z.of_nat (length img) → top < 2 ^ 32 → main_frame img' sp args ∧ top - PGSIZE ≤ sp < top.
Proof.
  unfold stack_of. case_decide as Hmax; [done|]. intros ([[ptrs q] img1] & Hp & Hx)%bind_Some Hpg Htop H32. case_decide as Hlow; [done|]. apply Some_inj, pair_equal_spec in Hx as [<- <-].
  pose proof (push_strings_len _ _ _ _ _ _ _ Hp) as Hpl. destruct (push_strings_spec _ _ _ _ _ _ _ Hp) as (Hq & Hab & Hall); [unfold PGSIZE in *; lia|unfold PGSIZE in *; lia|done|].
  set (sp' := q - 4 * (Z.of_nat (length ptrs) + 4)) in *. set (fw := frame_words ptrs q). assert (length fw = length ptrs + 4)%nat as Hfl by (unfold fw, frame_words; rewrite !length_app; cbn; lia).
  set (img2 := list_inserts (Z.to_nat sp') (concat (le_bytes 4 <$> fw)) img1). pose proof (proj1 Hab) as Hl1.
  assert (above q img1 img2) as Hab2 by (apply above_inserts; rewrite ?words_length; unfold sp' in *; lia).
  assert (∀ k w, fw !! k = Some w → 0 ≤ w < 2 ^ 32 → word_of img2 (sp' + 4 * Z.of_nat k) = w) as Hword.
  { intros k w Hk Hw. pose proof (lookup_lt_Some _ _ _ Hk) as Hkl. unfold word_of, img2. replace (Z.to_nat (sp' + 4 * Z.of_nat k)) with (Z.to_nat sp' + 4 * k)%nat by (unfold sp' in *; lia).
    rewrite slice_inserts_sub by (rewrite words_length; unfold sp' in *; lia).
    rewrite slice_words by done. rewrite (list_lookup_total_correct _ _ _ Hk). apply le_val_bytes. exact Hw. }
  assert (word_of img2 sp' = 4294967295) as H0 by (rewrite <- (Z.add_0_r sp'); by apply (Hword 0%nat)).
  assert (word_of img2 (sp' + 4) = Z.of_nat (length ptrs)) as H1 by (apply (Hword 1%nat); [done|unfold MAXARG in *; lia]).
  assert (word_of img2 (sp' + 8) = sp' + 12) as H2.
  { apply (Hword 2%nat); [unfold fw, frame_words; cbn; f_equal; unfold sp'; lia|unfold sp' in *; lia]. }
  split; [|unfold sp' in *; lia]. unfold main_frame. rewrite H0, H1, H2. split_and!; [done|by rewrite Hpl| |].
  - intros i a Ha. destruct (Forall2_lookup_l _ _ _ _ _ Hall Ha) as (ptr & Hptr & [Hpr Hstr]). replace (sp' + 12 + 4 * Z.of_nat i) with (sp' + 4 * Z.of_nat (3 + i)) by lia.
    rewrite (Hword (3 + i)%nat ptr); [|unfold fw, frame_words; cbn; apply lookup_app_l_Some, Hptr|lia].
    unfold string_at. rewrite (above_slice q img1) by (done || lia). exact Hstr.
  - replace (sp' + 12 + 4 * Z.of_nat (length args)) with (sp' + 4 * Z.of_nat (3 + length ptrs)) by lia. apply Hword; [|lia].
    unfold fw, frame_words. rewrite app_assoc, lookup_app_r by (rewrite length_app; cbn; lia). rewrite length_app. cbn [length]. by replace (3 + length ptrs - (3 + length ptrs))%nat with 0%nat by lia.
Qed.

Section stack.
Context (kend : Z) (end_above : KERNBASE < kend).
Context (kdata : Z) (data_page : kdata mod PGSIZE = 0) (data_above : KERNLINK < kdata) (data_below : kdata < KERNBASE + PHYSTOP).
Context (R : list Z) (d : Z) (tot : list Z) (n : Z) (Hn2 : 2 ≤ n).
Local Notation space m img := (uspace kend kdata m R d (Some (n - 2)) n img tot).
Local Notation partial := (partial kend kdata R d tot).

(** The device mapping at the top of the kernel. *)
Lemma kern_top k : 1040384 ≤ k < NVPN → is_Some (kern_of (kmap kdata) k).
Proof.
  intros Hk. destruct (data_vpn kdata data_page data_above data_below) as (c & Hc & Hcr). destruct (kmap_entries kdata c Hc Hcr) as [_ Hs].
  revert Hs. unfold kmap. generalize (mkkmap KERNBASE 0 EXTMEM PTE_W).
  generalize (mkkmap KERNLINK (V2P KERNLINK) (V2P kdata) 0), (mkkmap kdata (V2P kdata) PHYSTOP PTE_W), (mkkmap DEVSPACE DEVSPACE 0 PTE_W).
  intros k2 k3 k4 k1. cbn [fmap list_fmap]. intros [= _ _ _ _ _ _ V4 C4]. cbn [kern_of]. repeat (case_decide; [by eexists|]). unfold NVPN in *. lia.
Qed.

(** Pushing [len] bytes below [sp]. *)
Lemma push_spec m img sp len buf :
  space m img → PGSIZE * (n - 1) ≤ sp ≤ PGSIZE * n → sp mod 4 = 0 → 0 < len ≤ 2 ^ 25 → len ≤ Z.of_nat (length buf) → Forall byte_range buf →
  let sp' := (sp - len) / 4 * 4 in
  ∃ r m', copyout d (u32 (sp - len) / 4 * 4) buf len m = Ok (r, m') ∧ kept m m' R ∧
    if decide (sp' < PGSIZE * (n - 1)) then r = -1 ∧ partial m'
    else r = 0 ∧ u32 (sp - len) / 4 * 4 = sp' ∧ space m' (list_inserts (Z.to_nat sp') (take (Z.to_nat len) buf) img).
Proof.
  intros Hsp Hrange Hal Hlen Hbuf Hb sp'. pose proof (us_len _ _ _ _ _ _ _ _ _ Hsp) as [_ Hn].
  pose proof (Z.div_mod (sp - len) 4 ltac:(done)) as Hd. pose proof (Z.mod_pos_bound (sp - len) 4 ltac:(done)) as Hm.
  assert (sp' ≤ sp - len < sp' + 4) as Hsp' by (unfold sp'; lia). case_decide as Hlow; [destruct (decide (0 ≤ sp - len)) as [Hpos|Hneg]|].
  - rewrite u32_small by (unfold PGSIZE, NUSER in *; lia). fold sp'. assert (0 ≤ sp') as Hp0 by (unfold sp'; pose proof (Z.div_pos (sp - len) 4); lia).
    pose proof (Z.div_mod sp' PGSIZE ltac:(done)) as Hk. pose proof (Z.mod_pos_bound sp' PGSIZE ltac:(done)) as Ho. rewrite Hk.
    assert (0 ≤ sp' / PGSIZE ≤ n - 2) as Hkr. { split; [by apply Z.div_pos|]. apply Z.lt_succ_r, Z.div_lt_upper_bound; [done|]. lia. }
    destruct (us_copyout_guard kend kdata R d tot (n - 2) n (S (S (Z.to_nat (len / PGSIZE)))) m img (sp' / PGSIZE) (sp' mod PGSIZE) buf len Hsp)
      as (m' & I' & Hrun & Hk' & Hus); try done; try lia.
    + unfold PGSIZE in *. lia.
    + pose proof (Z.div_mod len PGSIZE ltac:(done)). pose proof (Z.mod_pos_bound len PGSIZE ltac:(done)). pose proof (Z.div_pos len PGSIZE).
      assert (n - 2 - sp' / PGSIZE ≤ len / PGSIZE + 1) by (unfold PGSIZE in *; nia). lia.
    + exists (-1), m'. split_and!; [done|done|done|by eexists _, _, _].
  - assert (u32 (sp - len) = sp - len + 2 ^ 32) as Hu.
    { unfold u32. rewrite <- (Z_mod_plus_full (sp - len) 1), Z.mul_1_l. apply Z.mod_small. unfold PGSIZE, NUSER in *. lia. }
    rewrite Hu. set (q := (sp - len + 2 ^ 32) / 4 * 4). assert (q = sp' + 2 ^ 32) as Hq.
    { unfold q, sp'. change (2 ^ 32) with (2 ^ 30 * 4). rewrite Z.div_add by done. lia. }
    assert (2 ^ 32 - 2 ^ 25 ≤ q < 2 ^ 32) as Hqr.
    { split; [|lia]. unfold q. apply (Z.mul_le_mono_nonneg_r (2 ^ 30 - 2 ^ 23) _ 4); [done|]. apply Z.div_le_lower_bound; unfold PGSIZE in *; lia. }
    pose proof (Z.div_mod q PGSIZE ltac:(done)) as Hk. pose proof (Z.mod_pos_bound q PGSIZE ltac:(done)) as Ho. rewrite Hk.
    assert (1040384 ≤ q / PGSIZE < NVPN) as Hkr by (unfold PGSIZE, NVPN in *; lia). destruct (kern_top _ Hkr) as [e He].
    exists (-1), m. rewrite (us_copyout_kern kend kdata data_page data_above data_below R d tot m (Some (n - 2)) n img (q / PGSIZE) (q mod PGSIZE) buf len e) by (done || unfold NUSER; lia).
    split_and!; [done|done|done|by eexists _, _, _].
  - rewrite u32_small by (unfold PGSIZE, NUSER in *; lia). fold sp'.
    destruct (us_copyout kend kdata R d tot m (Some (n - 2)) n img (n - 1) (sp' - PGSIZE * (n - 1)) buf len Hsp) as (m' & Hrun & Hk & Hus);
      [lia|intros [= ?]; lia|lia|lia|lia|done|done|].
    replace (PGSIZE * (n - 1) + (sp' - PGSIZE * (n - 1))) with sp' in Hrun, Hus by lia. exists 0, m'. by split_and!.
Qed.

Lemma take_insert_next (j : nat) (x : Z) (l : list Z) : (j < length l)%nat → take (S j) (<[j := x]> l) = take j l ++ [x].
Proof.
  intros Hj. rewrite (take_S_r _ _ x) by (by apply list_lookup_insert_eq). by rewrite take_insert_ge.
Qed.

Lemma push_args_spec argv rest strs : ∀ fuel m img argc sp ust,
  space m img → PGSIZE * (n - 1) ≤ sp ≤ PGSIZE * n → sp mod 4 = 0 → 0 ≤ argc ≤ MAXARG →
  drop (Z.to_nat argc) argv = (Some <$> strs) ++ None :: rest → Forall arg_ok strs → length ust = 36%nat → (Z.to_nat (MAXARG - argc) < fuel)%nat →
  ∃ o m', push_args fuel d argv argc sp ust m = Ok (o, m') ∧ kept m m' R ∧
    match o with
    | Some (argc', sp', ust') => ∃ ptrs img',
        push_strings (PGSIZE * (n - 1)) (cstr <$> strs) sp img = Some (ptrs, sp', img') ∧ space m' img' ∧
        argc' = argc + Z.of_nat (length strs) ∧ argc' ≤ MAXARG ∧ length ust' = 36%nat ∧
        take (3 + Z.to_nat argc') ust' = take (3 + Z.to_nat argc) ust ++ ptrs ∧ PGSIZE * (n - 1) ≤ sp' ≤ PGSIZE * n ∧ sp' mod 4 = 0
    | None => partial m' ∧ (MAXARG < argc + Z.of_nat (length strs) ∨ push_strings (PGSIZE * (n - 1)) (cstr <$> strs) sp img = None)
    end.
Proof.
  induction strs as [|a strs IH]; intros fuel m img argc sp ust Hsp Hr Hal Hargc Hdrop Hok Hust Hf; (destruct fuel as [|fuel]; [lia|]); cbn [push_args].
  - assert (argv !! Z.to_nat argc = Some None) as Ha by (by rewrite <- (Nat.add_0_r (Z.to_nat argc)), <- lookup_drop, Hdrop).
    rewrite (proj2 (aget_Ok argv argc None)) by (split; [lia|done]). rewrite bind_ret. exists (Some (argc, sp, ust)), m. split_and!; [done|done|].
    exists [], img. cbn [length fmap list_fmap push_strings]. rewrite app_nil_r. split_and!; try done; lia.
  - assert (argv !! Z.to_nat argc = Some (Some a)) as Ha by (by rewrite <- (Nat.add_0_r (Z.to_nat argc)), <- lookup_drop, Hdrop).
    rewrite (proj2 (aget_Ok argv argc (Some a))) by (split; [lia|done]). rewrite bind_ret. cbn [length fmap list_fmap push_strings].
    destruct (decide (MAXARG ≤ argc)) as [Hmax|Hmax]. { exists None, m. split_and!; [done|done|by eexists _, _, _|left; lia]. }
    apply Forall_cons in Hok as [(H0 & Hb & Hlen) Hok]. rewrite strlen_cstr, bind_ret, land_align by done.
    destruct (push_spec m img sp (Z.of_nat (length (cstr a)) + 1) a Hsp Hr Hal) as (r & m1 & -> & Hk1 & Hres); [lia| |done|].
    { pose proof (f_equal length (cstr_take a H0)) as Hl. rewrite length_take, length_app in Hl. cbn [length] in Hl. lia. }
    rewrite bind_ret. set (sp1 := (sp - (Z.of_nat (length (cstr a)) + 1)) / 4 * 4) in *. destruct (decide (sp1 < PGSIZE * (n - 1))) as [Hlow|Hhigh].
    + destruct Hres as [-> Hp]. rewrite decide_True by lia. exists None, m1. split_and!; [done|done|done|by right].
    + destruct Hres as (-> & -> & Hsp1). rewrite decide_False by lia.
      rewrite (proj2 (aset_Ok ust (3 + argc) sp1 _)) by (split; [unfold MAXARG in *; lia|done]). rewrite bind_ret.
      replace (Z.to_nat (Z.of_nat (length (cstr a)) + 1)) with (S (length (cstr a))) in Hsp1 by lia. rewrite cstr_take in Hsp1 by done.
      assert (sp1 ≤ sp) as Hle. { unfold sp1. pose proof (Z.div_mod (sp - (Z.of_nat (length (cstr a)) + 1)) 4). pose proof (Z.mod_pos_bound (sp - (Z.of_nat (length (cstr a)) + 1)) 4). lia. }
      destruct (IH fuel m1 _ (argc + 1) sp1 (<[Z.to_nat (3 + argc) := sp1]> ust) Hsp1) as (o & m2 & -> & Hk2 & Hres);
        [lia|by apply Z.mod_mul|lia| |done|by rewrite length_insert|lia|].
      { replace (Z.to_nat (argc + 1)) with (Z.to_nat argc + 1)%nat by lia. by rewrite <- drop_drop, Hdrop. }
      exists o, m2. split_and!; [done|by eapply kept_same|]. destruct o as [[[argc' sp'] ust']|].
      * destruct Hres as (ptrs & img' & -> & Hsp2 & -> & Hmx & Hl & Htk & Hr' & Hal'). exists (sp1 :: ptrs), img'. split_and!; try done; try lia.
        replace (Z.to_nat (argc + Z.of_nat (S (length strs)))) with (Z.to_nat (argc + 1 + Z.of_nat (length strs))) by lia. rewrite Htk.
        replace (Z.to_nat (3 + argc)) with (3 + Z.to_nat argc)%nat by lia. replace (3 + Z.to_nat (argc + 1))%nat with (S (3 + Z.to_nat argc)) by lia.
        rewrite take_insert_next by (unfold MAXARG in *; lia). by rewrite <- app_assoc.
      * destruct Hres as [Hp [Hlt|Hnone]]; (split; [done|]); [left; lia|right; by rewrite Hnone].
Qed.

Lemma words_take k l : take (4 * k) (concat (le_bytes 4 <$> l)) = concat (le_bytes 4 <$> take k l).
Proof.
  revert k. induction l as [|x l IH]; intros [|k]; cbn [fmap list_fmap concat take]; try done.
  rewrite take_app_ge by (rewrite le_bytes_length; lia). rewrite le_bytes_length. f_equal. replace (4 * S k - 4)%nat with (4 * k)%nat by lia. apply IH.
Qed.
Lemma words_bytes l : Forall byte_range (concat (le_bytes 4 <$> l)).
Proof. apply Forall_concat, Forall_fmap, Forall_true. intros x. apply le_bytes_range. Qed.

Lemma push_frame_spec m img sp ust ptrs :
  space m img → PGSIZE * (n - 1) ≤ sp ≤ PGSIZE * n → sp mod 4 = 0 → length ust = 36%nat → (length ptrs ≤ 32)%nat →
  drop 3 (take (3 + length ptrs) ust) = ptrs →
  let sp' := sp - 4 * (Z.of_nat (length ptrs) + 4) in
  ∃ o m', push_frame d (Z.of_nat (length ptrs)) sp ust m = Ok (o, m') ∧ kept m m' R ∧
    if decide (sp' < PGSIZE * (n - 1)) then o = None ∧ partial m'
    else o = Some sp' ∧ space m' (list_inserts (Z.to_nat sp') (concat (le_bytes 4 <$> frame_words ptrs sp)) img).
Proof.
  intros Hsp Hr Hal Hust Hlen Hptrs sp'. pose proof (us_len _ _ _ _ _ _ _ _ _ Hsp) as [_ Hn]. set (c := length ptrs) in *. unfold push_frame.
  rewrite (proj2 (aset_Ok ust (3 + Z.of_nat c) 0 _)) by (split; [lia|done]). rewrite bind_ret.
  rewrite (proj2 (aset_Ok _ 0 4294967295 _)) by (split; [rewrite length_insert; lia|done]). rewrite bind_ret.
  rewrite (proj2 (aset_Ok _ 1 (Z.of_nat c) _)) by (split; [rewrite !length_insert; lia|done]). rewrite bind_ret.
  rewrite (proj2 (aset_Ok _ 2 _ _)) by (split; [rewrite !length_insert; lia|done]). rewrite bind_ret.
  rewrite (u32_small (sp - (Z.of_nat c + 1) * 4)) by (unfold PGSIZE, NUSER in *; lia).
  set (u := <[Z.to_nat 2 := _]> _). assert (take (4 + c) u = frame_words ptrs sp) as Hu.
  { unfold u, frame_words. fold c. replace (Z.to_nat (3 + Z.of_nat c)) with (3 + c)%nat by lia.
    do 3 (destruct ust as [|? ust]; [done|]). change (Z.to_nat 2) with 2%nat; change (Z.to_nat 1) with 1%nat; change (Z.to_nat 0) with 0%nat. cbn [insert list_insert Z.to_nat Pos.to_nat Pos.iter_op Nat.add take app]. do 3 f_equal.
    cbn [Nat.add take drop] in Hptrs. rewrite take_insert_next by (cbn in Hust; lia). rewrite drop_0 in Hptrs. by rewrite Hptrs. }
  assert (length u = 36%nat) as Hul by (unfold u; by rewrite !length_insert).
  pose proof (push_spec m img sp ((3 + Z.of_nat c + 1) * 4) (concat (le_bytes 4 <$> u)) Hsp Hr Hal) as Hpush. cbv zeta in Hpush.
  assert ((sp - (3 + Z.of_nat c + 1) * 4) / 4 * 4 = sp') as Hsp'.
  { unfold sp'. apply Z.mod_divide in Hal as [q ->]; [|done]. rewrite <- Z.mul_sub_distr_r, Z.div_mul by done. lia. }
  rewrite !u32_small, Hsp' in Hpush by (unfold PGSIZE, NUSER in *; lia). rewrite u32_small by (unfold PGSIZE, NUSER in *; lia).
  replace (sp - (3 + Z.of_nat c + 1) * 4) with sp' by (unfold sp'; lia).
  destruct Hpush as (r & m' & -> & Hk & Hres); [lia|rewrite words_length; lia|apply words_bytes|]. rewrite bind_ret.
  destruct (decide (sp' < PGSIZE * (n - 1))) as [Hlow|Hhigh].
  - destruct Hres as [-> Hp]. rewrite decide_True by lia. by exists None, m'.
  - destruct Hres as (-> & _ & Hs). rewrite decide_False by lia. exists (Some sp'), m'. split_and!; [done|done|done|].
    replace (Z.to_nat ((3 + Z.of_nat c + 1) * 4)) with (4 * (4 + c))%nat in Hs by lia. by rewrite words_take, Hu in Hs.
Qed.
End stack.

(** ** The whole of it *)
Section setup.
Context (kend : Z) (end_above : KERNBASE < kend).
Context (kdata : Z) (data_page : kdata mod PGSIZE = 0) (data_above : KERNLINK < kdata) (data_below : kdata < KERNBASE + PHYSTOP).
Context (R : list Z) (d : Z) (tot : list Z).
Local Notation partial := (partial kend kdata R d tot).

Lemma npages_page k : npages (PGSIZE * k) = k.
Proof. unfold npages, PGSIZE. rewrite <- Z.add_sub_assoc, Z.mul_comm, Z.div_add_l by done. change ((4096 - 1) / 4096) with 0. lia. Qed.

Lemma extend_npages sz img : 0 ≤ sz → length img = pbase (npages sz) → extend (npages (PGSIZE * npages sz)) img = img.
Proof. intros Hsz Hl. rewrite npages_page. unfold extend. by rewrite Hl, Nat.sub_diag, app_nil_r. Qed.

Lemma setup_stack_spec junk argv strs rest m img sz :
  uspace kend kdata m R d None (npages sz) img tot → 0 ≤ sz < KERNBASE → argv = (Some <$> strs) ++ None :: rest → Forall arg_ok strs → length junk = 36%nat →
  let n := npages sz + 2 in
  ∃ o m', setup_stack kend junk d sz argv m = Ok (o, m') ∧ kept m m' R ∧
    match o with
    | Some (sz', sp) => sz' = PGSIZE * n ∧ PGSIZE * n < KERNBASE ∧ ∃ img',
        stack_of (PGSIZE * n) (cstr <$> strs) (extend n img) = Some (sp, img') ∧ uspace kend kdata m' R d (Some (n - 2)) n img' tot
    | None => partial m' ∧ (KERNBASE ≤ PGSIZE * n ∨ short_of R tot n ∨ stack_of (PGSIZE * n) (cstr <$> strs) (extend n img) = None)
    end.
Proof.
  intros Hus Hsz -> Hstrs Hjunk n. unfold setup_stack. destruct (npages_up sz) as [Hup Hnp]; [lia|]. rewrite Hup.
  pose proof (us_len _ _ _ _ _ _ _ _ _ Hus) as [Hlen Hnu]. assert (PGSIZE * npages sz ≤ KERNBASE) as Hle by (unfold PGSIZE, KERNBASE, NUSER in *; lia).
  rewrite (u32_small (PGSIZE * npages sz + 2 * PGSIZE)) by (unfold PGSIZE, KERNBASE in *; lia).
  replace (PGSIZE * npages sz + 2 * PGSIZE) with (PGSIZE * n) by (unfold n; lia). rewrite <- (npages_page (npages sz)) in Hus.
  destruct (alloc_seg kend end_above kdata data_page data_above data_below R d tot m img (PGSIZE * npages sz) (PGSIZE * n) Hus) as (r & m1 & -> & Hk1 & Hres);
    [unfold PGSIZE in *; lia|unfold n, PGSIZE; lia|]. rewrite bind_ret. rewrite Z.max_r in Hres by (unfold n, PGSIZE; lia).
  destruct Hres as [(-> & Htop & Hus1)|(-> & Hp & Hsh)].
  2: { rewrite decide_True by done. exists None, m1. split_and!; [done|done|done|]. destruct (decide (KERNBASE ≤ PGSIZE * n)); [by left|right; left].
    rewrite npages_page in Hsh. apply Hsh. lia. }
  rewrite npages_page in Hus1. rewrite decide_False by (unfold n, PGSIZE; lia).
  rewrite u32_small by (unfold n, PGSIZE, KERNBASE in *; lia). replace (PGSIZE * n - 2 * PGSIZE) with (PGSIZE * (n - 2)) by lia.
  destruct (us_clear kend kdata R d tot m1 n _ (n - 2) Hus1) as (m2 & -> & Hus2 & Hk2); [unfold n; lia|]. rewrite bind_ret.
  destruct (push_args_spec kend kdata data_page data_above data_below R d tot n ltac:(unfold n; lia) ((Some <$> strs) ++ None :: rest) rest strs (S (Z.to_nat MAXARG)) m2 _ 0 (PGSIZE * n) junk Hus2)
    as (o & m3 & -> & Hk3 & Hres); try done; [unfold PGSIZE; lia|unfold PGSIZE; replace (4096 * n) with (1024 * n * 4) by lia; by apply Z.mod_mul|unfold MAXARG; lia|]. rewrite bind_ret.
  assert (kept m m3 R) as Hk by (eapply kept_same; [exact Hk1|by eapply kept_same]). replace (PGSIZE * (n - 1)) with (PGSIZE * n - PGSIZE) in Hres by lia.
  assert (Z.of_nat (length (cstr <$> strs)) = Z.of_nat (length strs)) as Hls by (by rewrite length_fmap).
  unfold stack_of. rewrite Hls. destruct o as [[[argc sp] ust]|].
  2: { destruct Hres as [Hp Hres]. exists None, m3. split_and!; [done|done|done|right; right]. case_decide; [done|]. destruct Hres as [?|Hnone]; [lia|]. by rewrite Hnone. }
  destruct Hres as (ptrs & img' & Hpush & Hus3 & -> & Hmax & Hul & Htk & Hr & Hal). rewrite Z.add_0_l in *. rewrite decide_False by lia. rewrite Hpush. cbn [mbind option_bind].
  pose proof (push_strings_len _ _ _ _ _ _ _ Hpush) as Hpl. rewrite length_fmap in Hpl. rewrite <- Hpl in *.
  destruct (push_frame_spec kend kdata data_page data_above data_below R d tot n ltac:(unfold n; lia) m3 img' sp ust ptrs Hus3) as (o & m4 & -> & Hk4 & Hres);
    [lia|done|done|unfold MAXARG in *; lia| |].
  { rewrite Nat2Z.id in Htk. rewrite Htk. change (Z.to_nat 0) with 0%nat. rewrite drop_app_length'; [done|]. rewrite length_take. lia. }
  rewrite bind_ret. exists (match o with Some sp1 => Some (PGSIZE * n, sp1) | None => None end), m4. split_and!; [by destruct o|by eapply kept_same|].
  replace (PGSIZE * (n - 1)) with (PGSIZE * n - PGSIZE) in Hres by lia. case_decide; destruct Hres as [-> Hres].
  - split; [done|]. right; right. done.
  - split_and!; [done|done|]. eexists. split; [|exact Hres]. done.
Qed.
End setup.
