(* ===== verification/ExecFs.v ===== *)
(** * What [exec] needs of the file system

    The file of the program is found by its path, locked while it is read and
    released before the new image is used.  An inode that is locked is
    [Readable], which is what [LoadSpec] asks for. *)

From stdpp Require Import gmap functions.
From S2P Require Import Prelude.
From S2P Require Import Bytes.
From S2P Require Import CString.
From S2P Require Import Log.
From S2P Require Import Fs.
From S2P Require Import FsDir.
From S2P Require Import FsSpec.
From S2P Require Import FileSpec.
From S2P Require Import FileRw.
From S2P Require Import InodeSpec.
From S2P Require Import FsInv.
From S2P Require Import FsOps.
From S2P Require Import CacheSpec.
From S2P Require Import PathSpec.
From S2P Require Import FsRules.
From S2P Require Import Tree.
From S2P Require Import LinkSpec.
From S2P Require Import TreeState.
From S2P Require Import Kalloc.
From S2P Require Import File.
From S2P Require Import FileIo.
From S2P Require Import Loader.
From S2P Require Import LoadSpec.

Local Open Scope Z_scope.

Section fs.
Context (sb : superblock) (ds : Z) (devs : list devsw).
Notation file := (FsInv.file sb).
Notation okl := (okl sb ds).
Notation ok := (ok sb ds).
Notation files := (TreeState.files sb).
Implicit Types (s : fstate) (e : kenv) (ip cwd : nat) (refs : list nat) (path : list Z).

Lemma range_bytes s addrs off n : blocks_ok s → Forall byte_range (range s addrs off n).
Proof.
  intros Hb. unfold range. apply Forall_fmap, Forall_true. intros o. unfold compose, byte_at. apply wf_block_byte; [apply Hb|].
  apply Nat.mod_upper_bound. done.
Qed.

(** A locked inode that is not a device is a file of bytes. *)
Lemma locked_readable s refs ip f :
  okl (<[ip := true]> none) s refs → file s (inums s ip) = Some f → af_type f ≠ T_DEV → Readable devs ip s (af_data f).
Proof.
  intros [Hst _] Hf Hty. destruct (st_locked sb ds _ _ _ _ _ _ ip Hst) as (i & f' & Hca & Hn & _ & _ & _ & _ & _ & HF & _ & Hit & _); [by apply lock_one|].
  assert (f' = f) as -> by congruence. pose proof (st_inv _ _ _ _ _ _ _ _ Hst) as Hinv. rewrite <- Hn in Hf.
  destruct (cached_facts sb ds s ip i Hinv Hca) as (_ & _ & _ & _ & _ & _ & Hsz & _ & Hs0).
  pose proof (cached_file sb ds s ip i Hinv Hca) as Hcf. rewrite Hf in Hcf. apply Some_inj in Hcf.
  assert (Z.of_nat (length (af_data f)) = i_size i) as Hlen by (rewrite Hcf; cbn [af_data]; rewrite range_length; lia).
  assert (Z.of_nat MAXBYTES < 2 ^ 31) as Hmax by (unfold MAXBYTES, MAXFILE, BSIZE; lia). assert (Forall byte_range (af_data f)) as Hb.
  { rewrite Hcf. apply range_bytes. apply (di_base _ _ _ (proj1 Hinv)). }
  split; [done|lia|]. intros off n Hoff Hn'. assert (i_type i ≠ T_DEV) as Hit' by congruence.
  destruct (decide (off ≤ Z.of_nat (length (af_data f)))) as [Hin|Hout].
  - pose proof (readi_spec sb ds devs s ip i (Z.to_nat off) (Z.to_nat n) f _ Hinv Hca Hit' Hf ltac:(lia) ltac:(unfold PGSIZE in *; lia) eq_refl) as Hr.
    rewrite !Z2Nat.id in Hr by lia. rewrite Hr. clear Hr. case_decide as Hfit.
    + rewrite Nat.min_l, Z2Nat.id by lia. done.
    + eexists _, _. split; [done|]. rewrite Nat.min_r by lia. split_and!; [lia|unfold PGSIZE in *; lia|lia| |by apply Forall_slice].
      rewrite slice_length by lia. lia.
  - rewrite decide_False by lia. exists (-1), []. split_and!; [|lia|done|lia|cbn; lia|done]. unfold readi.
    rewrite (proj2 (geti_Ok _ _ _) (ca_entry _ _ _ Hca)), bind_ret, decide_False by done. rewrite decide_True by lia. done.
Qed.

(** Beginning an operation changes no file. *)
Lemma ok_begin e refs : ok (n_fs e) refs → ok (n_fs (op_begin e)) refs.
Proof.
  intros [[H1 H2 H3 H4 H5 H6] Ht]. split; [|exact Ht]. split; [by apply begin_inv|exact H2|exact H3|exact H4|exact H5|done].
Qed.

(** [namei] and [ilock]. *)
Lemma exec_open e refs cwd path :
  ok (n_fs e) refs → at_cwd sb (n_fs e) refs cwd → path_ok path → free_slots 2 (uses refs) →
  ∃ o s1, namei devs cwd path (n_fs (op_begin e)) = Ok (o, s1) ∧ files s1 (file (n_fs e)) ∧ same_refs refs (n_fs e) s1 ∧
    match path_inode sb (n_fs e) cwd path with
    | Some j => ∃ ip s2 f, o = Some ip ∧ ilock ip s1 = Ok s2 ∧ okl (<[ip := true]> none) s2 (ip :: refs) ∧ inums s2 ip = j ∧
        file s2 j = Some f ∧ file (n_fs e) j = Some f ∧ af_nlink f ≠ 0 ∧ files s2 (file (n_fs e)) ∧ same_refs refs (n_fs e) s2
    | None => o = None ∧ ok s1 refs
    end.
Proof.
  intros Hok Hcwd Hpath Hslots. destruct (namei_ok sb ds devs (n_fs (op_begin e)) refs cwd path (ok_begin _ _ Hok) Hcwd Hpath Hslots)
    as (o & s1 & Hrun & Hf1 & Hr1 & _ & Hres). exists o, s1. split_and!; [done|done|done|].
  change (path_inode sb (n_fs (op_begin e)) cwd path) with (path_inode sb (n_fs e) cwd path) in Hres.
  change (file (n_fs (op_begin e))) with (file (n_fs e)) in Hf1. destruct (path_inode sb (n_fs e) cwd path) as [j|] eqn:Hp; [|done].
  destruct Hres as (ip & -> & [Hst Ht] & Hj). assert (linkedF sb (file (n_fs e)) j) as [Hno (f & Hf & Hnl)].
  { apply (walkF_linked sb (file (n_fs e)) _ _ _ (tree_treeF _ _ (ok_tree _ _ _ _ _ Hok))) in Hp; [done|]. unfold startF. case_decide; [apply tree_root, Hok|apply Hcwd]. }
  destruct (st_ilock sb ds _ _ _ _ _ _ ip Hst) as (s2 & Hlk & Hst2); [apply uses_pos; left|done|].
  destruct (ok_of_st sb ds s2 _ _ _ _ _ (ip :: refs) Hst2 Ht) as (Hok2 & Hf2 & HN2); [done|].
  exists ip, s2, f. split_and!; try done.
  - rewrite HN2 by left. done.
  - by rewrite Hf2, Hf1.
  - intros x Hx. by rewrite Hf2, Hf1.
  - intros k Hk. rewrite HN2 by (by right). by apply Hr1.
Qed.

(** Releasing the file. *)
Lemma exec_close s refs ip f :
  okl (<[ip := true]> none) s (ip :: refs) → file s (inums s ip) = Some f → af_nlink f ≠ 0 →
  ∃ s', iunlockput ip s = Ok s' ∧ ok s' refs ∧ same_refs refs s s' ∧ files s' (file s).
Proof.
  intros Hok Hf Hnl. destruct (held_iunlock sb ds s (ip :: refs) ip Hok) as (s1 & H1 & Hok1 & Hr1 & Hf1).
  assert (inums s1 ip = inums s ip) as Hi by (apply Hr1; left).
  assert (inode_no sb (inums s ip)) as Hno. { destruct Hok as [Hst _]. by destruct (st_get sb ds _ _ _ _ _ _ ip Hst) as (_ & _ & _ & _ & _ & _ & ? & _); [apply uses_pos; left|]. }
  destruct (drop_ok sb ds s1 (ip :: refs) refs ip Hok1) as (s2 & H2 & Hok2 & Hr2 & Hf2); [done|]. exists s2. unfold iunlockput. rewrite H1, bind_ret.
  split_and!; [done|done|intros k Hk; rewrite Hr2 by done; apply Hr1; by right|]. destruct Hf2 as [Hf2|(H0 & _)].
  - intros x Hx. by rewrite Hf2, Hf1.
  - rewrite Hi, Hf1, Hf in H0 by done. by injection H0.
Qed.
End fs.
