(* ===== verification/ExecSpec.v ===== *)
(** * Running a program: what [exec] does

    [program_of] is the memory, the entry point and the stack pointer that a
    file and a list of arguments ask for.  [exec] either installs exactly that
    image in place of the old one, or returns -1 with everything it took given
    back and the process untouched. *)

From stdpp Require Import gmap numbers functions.
From S2P Require Import Prelude.
From S2P Require Import Bytes.
From S2P Require Import CString.
From S2P Require Import ProcTable.
From S2P Require Import Proc.
From S2P Require Import Log.
From S2P Require Import Fs.
From S2P Require Import FsDir.
From S2P Require Import InodeSpec.
From S2P Require Import FsInv.
From S2P Require Import Kalloc.
From S2P Require Import Vm.
From S2P Require Import VmSpec.
From S2P Require Import VmOps.
From S2P Require Import VmLife.
From S2P Require Import File.
From S2P Require Import FsRules.
From S2P Require Import LinkSpec.
From S2P Require Import TreeState.
From S2P Require Import Loader.
From S2P Require Import UserImage.
From S2P Require Import LoadSpec.
From S2P Require Import StackSpec.
From S2P Require Import ExecFs.

Local Open Scope Z_scope.

Record program := mkprogram {
  pg_entry : Z;          (* where it starts *)
  pg_pages : Z;          (* pages of memory *)
  pg_sp : Z;             (* its stack pointer *)
  pg_mem : list Z        (* the bytes of memory *)
}.

Definition elf_of (data : list Z) : option elfhdr :=
  if decide (ELFHDR ≤ Z.of_nat (length data)) then
    match get_elfhdr (slice 0 (Z.to_nat ELFHDR) data) with
    | Ok h => if decide (eh_magic h = ELF_MAGIC) then Some h else None
    | _ => None
    end
  else None.

Definition program_of (data : list Z) (args : list (list Z)) : option program :=
  h ← elf_of data;
  segs ← segments data (Z.to_nat (eh_phnum h)) (eh_phoff h);
  '(sz, img) ← load_segs data segs (0, []);
  let n := npages sz + 2 in
  if decide (KERNBASE ≤ PGSIZE * n) then None
  else '(sp, img') ← stack_of (PGSIZE * n) args (extend n img); Some (mkprogram (eh_entry h) n sp img').

Lemma program_some data args x :
  program_of data args = Some x → ∃ h segs sz img, elf_of data = Some h ∧ segments data (Z.to_nat (eh_phnum h)) (eh_phoff h) = Some segs ∧
    load_segs data segs (0, []) = Some (sz, img) ∧ pg_pages x = npages sz + 2.
Proof.
  unfold program_of. intros (h & Hh & Hx)%bind_Some. apply bind_Some in Hx as (segs & Hsegs & Hx). apply bind_Some in Hx as ([sz img] & Hload & Hx).
  case_decide; [done|]. apply bind_Some in Hx as ([sp img'] & _ & [= <-]). by exists h, segs, sz, img.
Qed.
Lemma program_pages data args x : program_of data args = Some x → 2 ≤ pg_pages x.
Proof.
  intros (h & segs & sz & img & _ & _ & Hl & ->)%program_some. apply load_segs_grow in Hl.
  unfold npages. pose proof (Z.div_pos (sz + PGSIZE - 1) PGSIZE). unfold PGSIZE in *. lia.
Qed.

(** ** Headers *)
Lemma get_elfhdr_Ok b : length b = 52%nat → Forall byte_range b → ∃ h, get_elfhdr b = Ok h ∧ 0 ≤ eh_phoff h < 2 ^ 32.
Proof.
  intros Hl Hb. unfold get_elfhdr.
  assert (∀ (o : Z) (w : nat), (0 <= o)%Z → (Z.to_nat o + w ≤ 52)%nat → ∃ v, get_le w b o = Ok v ∧ 0 ≤ v < 256 ^ Z.of_nat w) as Hget.
  { intros o w Ho Hw. destruct (get_le_in w b (Z.to_nat o)) as (v & Hv & Hr); [lia|done|]. rewrite Z2Nat.id in Hv by done. by exists v. }
  destruct (Hget 0 4%nat) as (v0 & -> & _); [lia..|]. rewrite bind_ret. unfold bload. rewrite decide_True by lia. rewrite bind_ret.
  destruct (Hget 16 2%nat) as (v1 & -> & _); [lia..|]. rewrite bind_ret. destruct (Hget 18 2%nat) as (v2 & -> & _); [lia..|]. rewrite bind_ret.
  destruct (Hget 20 4%nat) as (v3 & -> & _); [lia..|]. rewrite bind_ret. destruct (Hget 24 4%nat) as (v4 & -> & _); [lia..|]. rewrite bind_ret.
  destruct (Hget 28 4%nat) as (v5 & -> & H5); [lia..|]. rewrite bind_ret. destruct (Hget 32 4%nat) as (v6 & -> & _); [lia..|]. rewrite bind_ret.
  destruct (Hget 36 4%nat) as (v7 & -> & _); [lia..|]. rewrite bind_ret. destruct (Hget 40 2%nat) as (v8 & -> & _); [lia..|]. rewrite bind_ret.
  destruct (Hget 42 2%nat) as (v9 & -> & _); [lia..|]. rewrite bind_ret. destruct (Hget 44 2%nat) as (v10 & -> & _); [lia..|]. rewrite bind_ret.
  destruct (Hget 46 2%nat) as (v11 & -> & _); [lia..|]. rewrite bind_ret. destruct (Hget 48 2%nat) as (v12 & -> & _); [lia..|]. rewrite bind_ret.
  destruct (Hget 50 2%nat) as (v13 & -> & _); [lia..|]. rewrite bind_ret. eexists. split; [reflexivity|]. exact H5.
Qed.

(** ** The name of the process *)

(** [nm] is what follows the last slash of [path]. *)
Definition base_name (path nm : list Z) : Prop := 47 ∉ nm ∧ (path = nm ∨ ∃ dir, path = dir ++ 47 :: nm).

Lemma prog_name_spec s : ∀ before nm0 last, 0 ∈ s → 0 ∈ last → cstr last = nm0 ++ cstr s → base_name before nm0 →
  ∃ x, prog_name s last = Ok x ∧ 0 ∈ x ∧ base_name (before ++ cstr s) (cstr x).
Proof.
  induction s as [|c s IH]; intros before nm0 last H0 Hl Hc Hb; [by apply not_elem_of_nil in H0|]. cbn [prog_name cstr] in *. destruct (decide (c = 0)) as [->|Hne].
  - exists last. rewrite app_nil_r in *. by rewrite Hc.
  - apply elem_of_cons in H0 as [?|H0]; [done|]. replace (before ++ c :: cstr s) with ((before ++ [c]) ++ cstr s) by (by rewrite <- app_assoc).
    destruct Hb as [Hn47 Hb]. case_decide as Hs.
    + subst c. apply (IH _ []); [done|done|done|]. split; [apply not_elem_of_nil|]. right. by exists before.
    + apply (IH _ (nm0 ++ [c])); [done|done|by rewrite Hc, <- app_assoc|]. split.
      * rewrite elem_of_app, list_elem_of_singleton. intros [?|?]; [done|congruence].
      * destruct Hb as [->|(dir & ->)]; [by left|right]. exists dir. by rewrite <- app_assoc.
Qed.

Lemma copy_name_spec n : ∀ src dst, 0 ∈ src → length dst = S n →
  length (copy_name (S n) src dst) = S n ∧ cstr (copy_name (S n) src dst) = take n (cstr src).
Proof.
  induction n as [|n IH]; intros src dst H0 Hd; (destruct dst as [|y dst]; [done|]); cbn [length] in Hd; injection Hd as Hd.
  - cbn [copy_name]. rewrite decide_True by done. cbn [zero_head length cstr]. split; [by rewrite Hd|]. by rewrite take_0.
  - change (copy_name (S (S n)) src (y :: dst)) with (match src with x :: src' => if decide (x = 0) then 0 :: zero_head dst else x :: copy_name (S n) src' dst | _ => y :: dst end).
    destruct src as [|x src]; [by apply not_elem_of_nil in H0|]. cbn [cstr]. case_decide as Hx.
    + split; [|done]. cbn [length]. destruct dst; [done|]. cbn [zero_head length] in *. by rewrite Hd.
    + apply elem_of_cons in H0 as [?|H0]; [done|]. destruct (IH src dst H0 Hd) as [Hl Hc]. cbn [length cstr take]. rewrite decide_False by done. by rewrite Hl, Hc.
Qed.

(** ** Replacing the address space *)
Section exec.
Context (kend : Z) (end_above : KERNBASE < kend).
Context (kdata : Z) (data_page : kdata mod PGSIZE = 0) (data_above : KERNLINK < kdata) (data_below : kdata < KERNBASE + PHYSTOP).
Context (R l : list Z) (old : Z) (To Mo : gmap Z Z).
Local Notation uspace := (uspace kend kdata).
Local Notation kmem_ok := (kmem_ok kend).
(** The pages that are not [exec]'s to take, and those that are. *)
Let Rp : list Z := owned old To Mo ++ R.
Let tot : list Z := Rp ++ l.

Lemma old_kept m m' : space_ok kend m old To Mo → kept m m' Rp → space_ok kend m' old To Mo.
Proof.
  intros Hs Hk. apply (space_frame _ m); [done|]. intros x Hx. apply Hk. unfold Rp, owned. rewrite app_comm_cons, <- app_assoc. apply elem_of_app. by left.
Qed.

(** The new image takes over from the old one. *)
Lemma free_old m d g n img :
  uspace m Rp d g n img tot → space_ok kend m old To Mo → ∃ m', freevm kend old m = Ok m' ∧ kept m m' R ∧ uspace m' R d g n img tot.
Proof.
  intros (lx & T & M & Hv & Ht & Him) Hs. pose proof Hv as [Hk Hsd Hnd].
  assert (owned old To Mo ++ (owned d T M ++ R) ++ lx ≡ₚ owned d T M ++ Rp ++ lx) as Hperm by (unfold Rp; solve_Permutation).
  assert (vm_ok kend m lx (owned d T M ++ R) old To Mo) as Hvo by (split; [done|done|by rewrite Hperm]).
  destruct (freevm_spec kend end_above _ _ _ _ _ _ Hvo) as (m' & l' & Hf & Hk' & Hl' & Hkept). exists m'. split; [done|].
  assert (kept m m' (owned d T M)) as Hko by (exact (kept_l _ _ _ _ Hkept)). split; [eapply kept_sub; [exact Hkept|by apply list_subseteq_app_r]|].
  assert (owned d T M ++ R ++ l' ≡ₚ owned d T M ++ Rp ++ lx) as Hp' by (rewrite Hl'; unfold Rp; solve_Permutation).
  exists l', T, M. split_and!.
  - split; [done| |by rewrite Hp']. apply (space_frame _ m); [done|]. intros x Hx. apply Hko. unfold owned. rewrite app_comm_cons. apply elem_of_app. by left.
  - unfold total in *. by rewrite Hp'.
  - destruct Him as [H1 H2 H3 H4]. split; [done|done| |done]. intros k Hkn. destruct (H3 k Hkn) as (pg & HM & Hpg & Hc). exists pg. split_and!; [done|done|].
    rewrite <- Hc. apply Hko. unfold owned. right. apply elem_of_app. right. rewrite <- (frame_leaf pg (perm_of g k)); [|apply Hpg|apply perm_of_range].
    eapply elem_frames; [done|lia].
Qed.

(** What is given back when it fails. *)
Lemma partial_free m d : partial kend kdata Rp d tot m → ∃ m' l', freevm kend d m = Ok m' ∧ kmem_ok m' l' ∧ l' ≡ₚ l ∧ kept m m' Rp.
Proof.
  intros (g & n & img & Hus). destruct (us_free kend end_above kdata Rp d tot m g n img Hus) as (m' & l' & Hf & Hk & Hl & Hkept).
  exists m', l'. split_and!; try done. by apply (Permutation_app_inv_l Rp).
Qed.

(** The process that runs the program [x] in the space [d]. *)
Definition installed (p : proc) (x : program) (d : Z) (nm : list Z) : proc :=
  p <| p_name := nm |> <| p_pgdir := d |> <| p_sz := PGSIZE * pg_pages x |>
    <| p_tf ::= λ t, t <| tf_eip := pg_entry x |> <| tf_esp := pg_sp x |> |>.

Record runs (m : mem) (path : list Z) (x : program) (p p' : proc) : Prop := {
  ru_proc : p' = installed p x (p_pgdir p') (p_name p');
  ru_name : ∃ nm, base_name (cstr path) nm ∧ cstr (p_name p') = take 15 nm;
  ru_space : uspace m R (p_pgdir p') (Some (pg_pages x - 2)) (pg_pages x) (pg_mem x) tot
}.
Record unchanged (m m' : mem) : Prop := {
  un_kept : kept m m' Rp;
  un_pages : ∃ l', kmem_ok m' l' ∧ l' ≡ₚ l
}.

Lemma exec_commit_spec m path d x p (e : kenv) :
  uspace m Rp d (Some (pg_pages x - 2)) (pg_pages x) (pg_mem x) tot → space_ok kend m old To Mo → n_mem e = m →
  p_pgdir p = old → p_kstack p ≠ 0 → length (p_name p) = 16%nat → 0 ∈ path →
  ∃ p' m', exec_commit kend path d (PGSIZE * pg_pages x) (pg_entry x) (pg_sp x) p e = Ok (0, p', e <| n_mem := m' |>) ∧ kept m m' R ∧ runs m' path x p p'.
Proof.
  intros Hus Hs <- Hold Hks Hnm H0. unfold exec_commit.
  destruct (prog_name_spec path [] [] path H0 H0 eq_refl) as (nm & -> & Hn0 & Hbase); [by split; [apply not_elem_of_nil|left]|]. rewrite bind_ret.
  assert (d ≠ 0) as Hd0. { destruct Hus as (lx & T & M & Hv & _). pose proof (page_range _ _ (so_page _ _ _ _ _ (vo_space _ _ _ _ _ _ _ Hv))). lia. }
  destruct (copy_name_spec 15 nm (p_name p) Hn0 Hnm) as [_ Hcn]. destruct (free_old (n_mem e) d _ _ _ Hus Hs) as (m' & Hf & Hk & Hus').
  set (p1 := p <| p_name ::= _ |> <| p_pgdir := _ |> <| p_sz := _ |> <| p_tf ::= _ |>). unfold switchuvm.
  change (p_kstack p1) with (p_kstack p). change (p_pgdir p1) with d. rewrite !decide_False, bind_ret by done. rewrite Hold, Hf, bind_ret.
  exists p1, m'. split_and!; [done|done|]. split.
  - unfold installed, p1. by destruct p.
  - exists (cstr nm). split; [done|]. exact Hcn.
  - exact Hus'.
Qed.

(** ** The call *)
Section call.
Context (sb : superblock) (ds : Z) (devs : list devsw) (junk : list Z).
Local Notation file := (FsInv.file sb).
Local Notation ok := (TreeState.ok sb ds).
Local Notation files := (TreeState.files sb).

(** The inode cache and the files are as they were. *)
Record fs_same (refs : list nat) (s s' : fstate) : Prop := {
  fss_ok : ok s' refs;
  fss_refs : same_refs refs s s';
  fss_files : files s' (file s)
}.

Definition exec_result (path : list Z) (want : option program) (p : proc) (refs : list nat) (e e' : kenv) (r : Z) (p' : proc) : Prop :=
  fs_same refs (n_fs e) (n_fs e') ∧ n_ft e' = n_ft e ∧ n_pipe e' = n_pipe e ∧ kept (n_mem e) (n_mem e') R ∧
  (r = 0 ∧ (∃ x, want = Some x ∧ runs (n_mem e') path x p p') ∨
   r = -1 ∧ p' = p ∧ unchanged (n_mem e) (n_mem e') ∧ ∀ x, want = Some x → Z.of_nat (length l) < 1025 + 2 * pg_pages x).

Lemma kept_R m m' : kept m m' Rp → kept m m' R.
Proof. intros Hk. eapply kept_sub; [exact Hk|]. unfold Rp. by apply list_subseteq_app_r. Qed.

(** [bad] while the file is locked. *)
Lemma bad_locked e0 refs ip f d path want p (e : kenv) :
  okl sb ds (<[ip := true]> none) (n_fs e) (ip :: refs) → file (n_fs e) (inums (n_fs e) ip) = Some f → af_nlink f ≠ 0 →
  files (n_fs e) (file (n_fs e0)) → same_refs refs (n_fs e0) (n_fs e) → n_ft e = n_ft e0 → n_pipe e = n_pipe e0 → kept (n_mem e0) (n_mem e) Rp →
  (d = 0 ∧ (∃ l', kmem_ok (n_mem e) l' ∧ l' ≡ₚ l) ∨ partial kend kdata Rp d tot (n_mem e)) →
  (∀ x, want = Some x → Z.of_nat (length l) < 1025 + 2 * pg_pages x) →
  ∃ r p' e', exec_bad kend d (Some ip) p e = Ok (r, p', e') ∧ exec_result path want p refs e0 e' r p'.
Proof.
  intros Hok Hf Hnl Hfiles Hrefs Hft Hpi Hk Hmem Hwant. unfold exec_bad.
  destruct (exec_close sb ds (n_fs e) refs ip f Hok Hf Hnl) as (s' & Hcl & Hok' & Hr' & Hf').
  assert (∃ m' l', (if decide (d ≠ 0) then freevm kend d (n_mem e) else Ok (n_mem e)) = Ok m' ∧ kmem_ok m' l' ∧ l' ≡ₚ l ∧ kept (n_mem e) m' Rp)
    as (m' & l' & Hfr & Hkm & Hl' & Hk').
  { destruct Hmem as [[-> (l' & ? & ?)]|Hp]; [exists (n_mem e), l'; by rewrite decide_False by (intros []; done)|].
    rewrite decide_True; [by apply partial_free|]. destruct Hp as (g & n & img & lx & T & M & Hv & _).
    pose proof (page_range _ _ (so_page _ _ _ _ _ (vo_space _ _ _ _ _ _ _ Hv))). lia. }
  rewrite Hfr, bind_ret. unfold on_fs. change (n_fs (e <| n_mem := m' |>)) with (n_fs e). rewrite Hcl, bind_ret. cbn [mbind outcome_bind].
  eexists _, p, _. split; [reflexivity|]. assert (kept (n_mem e0) m' Rp) as Hk0 by (by eapply kept_same). split_and!; try done.
  - split; [done|intros k Hin; change (inums s' k = inums (n_fs e0) k); rewrite Hr' by done; by apply Hrefs|].
    intros j Hj. change (file s' j = file (n_fs e0) j). rewrite Hf' by done. by apply Hfiles.
  - exact (kept_R _ _ Hk0).
  - right. split_and!; [done|done| |done]. split; [done|by exists l'].
Qed.

(** [bad] once it is released. *)
Lemma bad_released e0 refs d path want p (e : kenv) :
  fs_same refs (n_fs e0) (n_fs e) → n_ft e = n_ft e0 → n_pipe e = n_pipe e0 → kept (n_mem e0) (n_mem e) Rp → partial kend kdata Rp d tot (n_mem e) →
  (∀ x, want = Some x → Z.of_nat (length l) < 1025 + 2 * pg_pages x) →
  ∃ r p' e', exec_bad kend d None p e = Ok (r, p', e') ∧ exec_result path want p refs e0 e' r p'.
Proof.
  intros Hfs Hft Hpi Hk Hp Hwant. unfold exec_bad. destruct (partial_free _ _ Hp) as (m' & l' & Hfr & Hkm & Hl' & Hk').
  rewrite decide_True by (destruct Hp as (g & n & img & lx & T & M & Hv & _); pose proof (page_range _ _ (so_page _ _ _ _ _ (vo_space _ _ _ _ _ _ _ Hv))); lia).
  rewrite Hfr, bind_ret. eexists _, p, _. split; [reflexivity|]. assert (kept (n_mem e0) m' Rp) as Hk0 by (by eapply kept_same). split_and!; try done; [exact (kept_R _ _ Hk0)|].
  right. split_and!; [done|done| |done]. split; [done|by exists l'].
Qed.

Lemma short_pages n : short_of Rp tot n → Z.of_nat (length l) < 1025 + 2 * n.
Proof. unfold short_of, tot. rewrite length_app. lia. Qed.

Section load.
Context (e0 : kenv) (refs : list nat) (ip : nat) (f : afile) (path : list Z) (strs : list (list Z)) (rest : list (option (list Z))) (p : proc).
Context (Hold : p_pgdir p = old) (Hks : p_kstack p ≠ 0) (Hnm : length (p_name p) = 16%nat) (Hpath : 0 ∈ path).
Context (Hstrs : Forall arg_ok strs) (Hjunk : length junk = 36%nat).
Context (Hkm : kmem_ok (n_mem e0) l) (Hso : space_ok kend (n_mem e0) old To Mo) (Hnd : NoDup tot).

(** Everything after the segments are loaded. *)
Lemma exec_tail h segs d sz img (e : kenv) :
  elf_of (af_data f) = Some h → segments (af_data f) (Z.to_nat (eh_phnum h)) (eh_phoff h) = Some segs → load_segs (af_data f) segs (0, []) = Some (sz, img) →
  uspace (n_mem e) Rp d None (npages sz) img tot → 0 ≤ sz < KERNBASE → kept (n_mem e0) (n_mem e) Rp → fs_same refs (n_fs e0) (n_fs e) →
  n_ft e = n_ft e0 → n_pipe e = n_pipe e0 →
  ∃ r p' e',
    ('(o, m1) ← setup_stack kend junk d sz ((Some <$> strs) ++ None :: rest) (n_mem e);
     match o with
     | None => exec_bad kend d None p (e <| n_mem := m1 |>)
     | Some (sz1, sp) => exec_commit kend path d sz1 (eh_entry h) sp p (e <| n_mem := m1 |>)
     end) = Ok (r, p', e') ∧
    exec_result path (program_of (af_data f) (cstr <$> strs)) p refs e0 e' r p'.
Proof.
  intros Hh Hsegs Hload Hus Hsz Hk Hfs Hft Hpi. unfold program_of. rewrite Hh. cbn [mbind option_bind]. rewrite Hsegs. cbn [mbind option_bind]. rewrite Hload. cbn [mbind option_bind].
  destruct (setup_stack_spec kend end_above kdata data_page data_above data_below Rp d tot junk _ strs rest (n_mem e) img sz Hus Hsz eq_refl Hstrs Hjunk)
    as (o & m1 & -> & Hk1 & Hres). rewrite bind_ret. set (n := npages sz + 2) in *. assert (kept (n_mem e0) m1 Rp) as Hk01 by (by eapply kept_same).
  destruct o as [[sz1 sp]|].
  - destruct Hres as (-> & Htop & img' & Hst & Hus'). rewrite decide_False by lia. rewrite Hst. cbn [mbind option_bind]. set (x := mkprogram (eh_entry h) n sp img').
    destruct (exec_commit_spec m1 path d x p (e <| n_mem := m1 |>) Hus' (old_kept _ _ Hso Hk01)) as (p' & m' & Hrun & Hk' & Hruns); try done.
    eexists _, _, _. split; [exact Hrun|]. split_and!; try done; [eapply kept_same; [exact (kept_R _ _ Hk01)|exact Hk']|]. left. split; [done|]. by exists x.
  - destruct Hres as [Hp Hwhy]. apply (bad_released e0); try done. intros x. case_decide as Htop; [done|]. destruct Hwhy as [?|[Hsh|Hnone]]; [done| |by rewrite Hnone].
    intros Hx. apply bind_Some in Hx as ([sp img'] & _ & [= <-]). by apply short_pages.
Qed.

Lemma exec_load_spec (e : kenv) :
  okl sb ds (<[ip := true]> none) (n_fs e) (ip :: refs) → file (n_fs e) (inums (n_fs e) ip) = Some f → af_nlink f ≠ 0 → af_type f ≠ T_DEV →
  files (n_fs e) (file (n_fs e0)) → same_refs refs (n_fs e0) (n_fs e) → n_ft e = n_ft e0 → n_pipe e = n_pipe e0 → n_mem e = n_mem e0 →
  ∃ r p' e', exec_load kend kdata devs junk path ((Some <$> strs) ++ None :: rest) ip p e = Ok (r, p', e') ∧
    exec_result path (program_of (af_data f) (cstr <$> strs)) p refs e0 e' r p'.
Proof.
  intros Hok Hf Hnl Hty Hfiles Hrefs Hft Hpi Hm. pose proof (locked_readable sb ds devs (n_fs e) (ip :: refs) ip f Hok Hf Hty) as Hrd.
  assert (∀ d m' want, kept (n_mem e0) m' Rp → (d = 0 ∧ (∃ l', kmem_ok m' l' ∧ l' ≡ₚ l) ∨ partial kend kdata Rp d tot m') →
    (∀ x, want = Some x → Z.of_nat (length l) < 1025 + 2 * pg_pages x) →
    ∃ r p' e', exec_bad kend d (Some ip) p (e <| n_mem := m' |>) = Ok (r, p', e') ∧ exec_result path want p refs e0 e' r p') as Hbad.
  { intros d m' want Hk Hmem Hw. by apply (bad_locked e0 refs ip f d path want p (e <| n_mem := m' |>)). }
  assert (∀ want, want = None → ∃ r p' e', exec_bad kend 0 (Some ip) p e = Ok (r, p', e') ∧ exec_result path want p refs e0 e' r p') as Hbad0.
  { intros want ->. destruct (Hbad 0 (n_mem e) None) as (r & p' & e' & Hr & ?); [rewrite Hm; done|left; split; [done|]; exists l; by rewrite Hm|done|].
    rewrite kenv_same in Hr. by exists r, p', e'. }
  unfold exec_load. pose proof (rd_readi (Readable := Hrd) 0 ELFHDR ltac:(done) ltac:(done)) as Hri. rewrite Z.add_0_l in Hri. destruct (decide (ELFHDR ≤ Z.of_nat (length (af_data f)))) as [Hlen|Hlen].
  2: { destruct Hri as (r & b & Hr & Hrr & Hne & _). rewrite (read_at_eq devs ip (n_fs e) e 0 ELFHDR r b eq_refl Hr), bind_ret, decide_True.
    - apply Hbad0. unfold program_of, elf_of. by rewrite decide_False.
    - destruct (decide (r = -1)) as [->|]; [done|]. rewrite u32_small by (unfold PGSIZE in *; lia). done. }
  rewrite (read_at_eq devs ip (n_fs e) e 0 ELFHDR _ _ eq_refl Hri), bind_ret, decide_False by (intros []; done).
  destruct (get_elfhdr_Ok (slice (Z.to_nat 0) (Z.to_nat ELFHDR) (af_data f))) as (h & Hh & Hoff).
  { rewrite slice_length; [done|]. unfold ELFHDR in *. lia. } { apply Forall_slice, rd_bytes. }
  change (Z.to_nat 0) with 0%nat in *. rewrite Hh, bind_ret. destruct (decide (eh_magic h ≠ ELF_MAGIC)) as [Hmag|Hmag].
  { apply Hbad0. unfold program_of, elf_of. rewrite decide_True, Hh by done. by rewrite decide_False. }
  apply dec_stable in Hmag. assert (elf_of (af_data f) = Some h) as Helf by (unfold elf_of; rewrite decide_True, Hh by done; by rewrite decide_True).
  destruct (setupkvm_spec kend end_above kdata data_page data_above data_below (n_mem e) l Rp) as [(d & m1 & l1 & T1 & M1 & -> & Hv1 & Ht1 & Hk1 & HM1)|(m1 & l1 & -> & Hk1 & Hl1 & Hkp1 & Hcnt)];
    [by rewrite Hm|done| |]; rewrite bind_ret.
  2: { rewrite decide_True by done. apply Hbad; [by rewrite <- Hm|left; split; [done|by exists l1]|]. intros x Hx. apply program_pages in Hx. lia. }
  pose proof (page_range _ _ (so_page _ _ _ _ _ (vo_space _ _ _ _ _ _ _ Hv1))). rewrite decide_False by lia.
  assert (uspace m1 Rp d None (npages 0) [] tot) as Hus.
  { exists l1, T1, M1. split_and!; [done|done|]. split; [done|done|intros k Hk; change (npages 0) with 0 in Hk; lia|done]. }
  rewrite Hm in Hk1.
  destruct (load_loop_spec kend end_above kdata data_page data_above data_below devs Rp d tot ip (n_fs e) (af_data f) Hrd (Z.to_nat (eh_phnum h)) m1 [] (eh_phoff h) 0 (e <| n_mem := m1 |>) Hus)
    as (o & m2 & -> & Hk2 & Hres); [done|done|done|done|]. rewrite bind_ret. assert (kept (n_mem e0) m2 Rp) as Hk02 by (by eapply kept_same).
  destruct o as [sz|].
  - destruct Hres as (img & Hres & Hus2 & Hsz). apply bind_Some in Hres as (segs & Hsegs & Hload).
    destruct (exec_close sb ds (n_fs e) refs ip f Hok Hf Hnl) as (s' & Hcl & Hok' & Hr' & Hf'). unfold on_fs.
    change (n_fs (e <| n_mem := m1 |> <| n_mem := m2 |>)) with (n_fs e). rewrite Hcl. cbn [mbind outcome_bind].
    apply (exec_tail h segs d sz img (op_end (e <| n_mem := m1 |> <| n_mem := m2 |> <| n_fs := s' |>))); try done.
    split; [done|intros k Hin; change (inums s' k = inums (n_fs e0) k); rewrite Hr' by done; by apply Hrefs|].
    intros j Hj. change (file s' j = file (n_fs e0) j). rewrite Hf' by done. by apply Hfiles.
  - destruct Hres as [Hp Hsh]. apply (Hbad d m2); [done|by right|]. intros x Hx. apply program_some in Hx as (h' & segs & sz & img & Hh' & Hsegs & Hload & Hn).
    assert (h' = h) as -> by congruence. specialize (Hsh sz img). rewrite Hsegs in Hsh. specialize (Hsh Hload). apply short_pages in Hsh. lia.
Qed.
End load.

(** The program that [path] names. *)
Definition program_at (s : fstate) (cwd : nat) (path : list Z) (args : list (list Z)) : option program :=
  j ← path_inode sb s cwd path; f ← file s j; program_of (af_data f) args.

Lemma exec_spec e refs cwd path strs rest p :
  vm_ok kend (n_mem e) l R old To Mo → p_pgdir p = old → p_cwd p = Some cwd → p_kstack p ≠ 0 → length (p_name p) = 16%nat → length junk = 36%nat →
  ok (n_fs e) refs → at_cwd sb (n_fs e) refs cwd → path_ok path → free_slots 2 (uses refs) → Forall arg_ok strs →
  (∀ j f, path_inode sb (n_fs e) cwd path = Some j → file (n_fs e) j = Some f → af_type f ≠ T_DEV) →
  ∃ r p' e', exec kend kdata devs junk path ((Some <$> strs) ++ None :: rest) p e = Ok (r, p', e') ∧
    exec_result path (program_at (n_fs e) cwd path (cstr <$> strs)) p refs e e' r p'.
Proof.
  intros [Hkm Hso Hnd] Hold Hcw Hks Hnm Hjunk Hok Hcwd Hpath Hslots Hstrs Hdev. unfold exec. rewrite Hcw. unfold program_at.
  assert (NoDup tot) as Hndt. { unfold tot, Rp. by rewrite <- app_assoc. }
  destruct (exec_open sb ds devs e refs cwd path Hok Hcwd Hpath Hslots) as (o & s1 & -> & Hf1 & Hr1 & Hres). rewrite bind_ret.
  destruct (path_inode sb (n_fs e) cwd path) as [j|]; cbn [mbind option_bind].
  - destruct Hres as (ip & s2 & f & -> & Hlk & Hok2 & Hj & Hf2 & Hf & Hnl & Hfs2 & Hr2). rewrite Hf. cbn [mbind option_bind]. unfold on_fs.
    change (n_fs ((op_begin e) <| n_fs := s1 |>)) with s1. rewrite Hlk. cbn [mbind outcome_bind].
    apply exec_load_spec; try done; [apply Hpath|by subst j|by apply (Hdev j)].
  - destruct Hres as [-> Hok1]. eexists _, p, _. split; [reflexivity|]. split_and!; try done. right. split_and!; try done. split; [done|by exists l].
Qed.
End call.
End exec.
