(* ===== verification/ExecTheorems.v ===== *)
(** * Properties of [exec] and [sys_exec] *)

From stdpp Require Import gmap numbers functions.
From S2P Require Import Prelude.
From S2P Require Import Bytes.
From S2P Require Import CString.
From S2P Require Import ProcTable.
From S2P Require Import Proc.
From S2P Require Import Log.
From S2P Require Import Fs.
From S2P Require Import FsDir.
From S2P Require Import FsSpec.
From S2P Require Import InodeSpec.
From S2P Require Import FsInv.
From S2P Require Import FsOps.
From S2P Require Import DirSpec.
From S2P Require Import PathSpec.
From S2P Require Import FsImage.
From S2P Require Import Kalloc.
From S2P Require Import Vm.
From S2P Require Import VmSpec.
From S2P Require Import VmOps.
From S2P Require Import VmTheorems.
From S2P Require Import Syscall.
From S2P Require Import Pipe.
From S2P Require Import File.
From S2P Require Import Sysfile.
From S2P Require Import FsRules.
From S2P Require Import LinkSpec.
From S2P Require Import TreeState.
From S2P Require Import TreeImage.
From S2P Require Import Loader.
From S2P Require Import UserImage.
From S2P Require Import LoadSpec.
From S2P Require Import StackSpec.
From S2P Require Import ExecSpec.

Local Open Scope Z_scope.

(** The program starts in [main] with its arguments, on the last page of its
    memory. *)
Lemma program_main data args x :
  program_of data args = Some x → main_frame (pg_mem x) (pg_sp x) args ∧ PGSIZE * (pg_pages x - 1) ≤ pg_sp x < PGSIZE * pg_pages x.
Proof.
  unfold program_of. intros (h & _ & Hx)%bind_Some. apply bind_Some in Hx as (segs & _ & Hx). apply bind_Some in Hx as ([sz img] & Hl & Hx).
  case_decide as Htop; [done|]. apply bind_Some in Hx as ([sp img'] & Hst & [= <-]). cbn [pg_mem pg_sp pg_pages].
  apply load_segs_grow in Hl. assert (0 ≤ npages sz) by (unfold npages; apply Z.div_pos; unfold PGSIZE; lia).
  apply stack_of_main in Hst as [Hm Hr].
  - split; [done|lia].
  - unfold PGSIZE. lia.
  - unfold extend. rewrite length_app, length_replicate. unfold pbase, PGSIZE. lia.
  - unfold KERNBASE in *. lia.
Qed.

(** ** The arguments of [sys_exec] *)

(** The [i]th word of the array at [a], and whether it is in memory. *)
Definition argv_word (u : uproc) (a i : Z) : Z := uword u (u32 (a + 4 * i)).
Definition argv_in (u : uproc) (a i : Z) : Prop := u32 (a + 4 * i) + 4 ≤ u_sz u.

(** A vector of fewer than [MAXARG] strings, which ends with a null pointer;
    each string is the memory from its address on. *)
Record user_argv (u : uproc) (a : Z) (strs : list (list Z)) : Prop := {
  ua_len : Z.of_nat (length strs) < MAXARG;
  ua_str : ∀ i s, strs !! i = Some s → argv_in u a (Z.of_nat i) ∧ argv_word u a (Z.of_nat i) ≠ 0 ∧
    (∃ n, ustring u (argv_word u a (Z.of_nat i)) n) ∧ s = path_at u (argv_word u a (Z.of_nat i));
  ua_end : argv_in u a (Z.of_nat (length strs)) ∧ argv_word u a (Z.of_nat (length strs)) = 0
}.

Lemma ustring_path u p n : uproc_ok u → 0 ≤ p → ustring u p n → 0 ∈ path_at u p ∧ Forall byte_range (path_at u p) ∧ Z.of_nat (length (cstr (path_at u p))) < u_sz u.
Proof.
  intros [Hsz Hm Hb] Hp (Hn & Hlt & H0 & Hnz). unfold path_at. assert (0 ∈ drop (Z.to_nat p) (u_mem u)) as Hin.
  { apply list_elem_of_lookup. exists (Z.to_nat n). rewrite lookup_drop, <- Z2Nat.inj_add by lia. done. }
  split_and!; [done|by apply Forall_drop|]. assert (length (cstr (drop (Z.to_nat p) (u_mem u))) ≤ Z.to_nat n)%nat; [|lia].
  destruct (decide (length (cstr (drop (Z.to_nat p) (u_mem u))) ≤ Z.to_nat n)%nat) as [|Hgt]; [done|]. exfalso.
  pose proof (cstr_take _ Hin) as Ht. assert (cstr (drop (Z.to_nat p) (u_mem u)) !! Z.to_nat n = Some 0) as Hc.
  { rewrite <- (lookup_app_l _ [0]) by lia. rewrite <- Ht, lookup_take_lt, lookup_drop, <- Z2Nat.inj_add by lia. done. }
  pose proof (cstr_nonzero (drop (Z.to_nat p) (u_mem u))) as Hf. rewrite Forall_lookup in Hf. by apply (Hf _ _ Hc).
Qed.

Section fetch.
Context (u : uproc) (Hu : uproc_ok u) (Hsz : u_sz u ≤ 2 ^ 25) (a : Z) (Ha : 0 ≤ a < 2 ^ 32).

Lemma argv_word_range i : argv_in u a i → 0 ≤ argv_word u a i < 2 ^ 32.
Proof. intros Hi. apply uword_range; [done|apply u32_range|done]. Qed.

Lemma fetch_argv_spec fuel : ∀ strs,
  Z.of_nat (length strs) ≤ MAXARG → (Z.to_nat MAXARG - length strs < fuel)%nat →
  (∀ i s, strs !! i = Some s → argv_in u a (Z.of_nat i) ∧ argv_word u a (Z.of_nat i) ≠ 0 ∧
    (∃ n, ustring u (argv_word u a (Z.of_nat i)) n) ∧ s = path_at u (argv_word u a (Z.of_nat i))) →
  ∃ o, fetch_argv fuel u a (Z.of_nat (length strs)) ((Some <$> strs) ++ replicate (Z.to_nat MAXARG - length strs) None) = Ok o ∧
    match o with
    | Some argv => ∃ strs' rest, argv = (Some <$> strs') ++ None :: rest ∧ user_argv u a strs'
    | None => ∀ strs', ¬ user_argv u a strs'
    end.
Proof.
  induction fuel as [|fuel IH]; intros strs Hlen Hf Hpre; [lia|]. cbn [fetch_argv].
  (* a vector cannot end among the strings that were read *)
  assert (∀ strs', user_argv u a strs' → (length strs ≤ length strs')%nat) as Hshort.
  { intros strs' [_ _ [_ Hend]]. destruct (decide (length strs ≤ length strs')%nat) as [|Hlt]; [done|]. exfalso.
    destruct (lookup_lt_is_Some_2 strs (length strs')) as [s Hs]; [lia|]. by destruct (Hpre _ _ Hs) as (_ & ? & _). }
  case_decide as Hmax. { exists None. split; [done|]. intros strs' Hua. pose proof (Hshort _ Hua). pose proof (ua_len _ _ _ Hua). lia. }
  rewrite (fetchint_spec u _ Hu) by apply u32_range. rewrite bind_ret. fold (argv_word u a (Z.of_nat (length strs))).
  destruct (decide (u32 (a + 4 * Z.of_nat (length strs)) + 4 ≤ u_sz u)) as [Hin|Hout].
  2: { exists None. split; [done|]. intros strs' Hua. pose proof (Hshort _ Hua). destruct (decide (length strs' = length strs)) as [Heq|Hne].
    - destruct (ua_end _ _ _ Hua) as [He _]. by rewrite Heq in He.
    - destruct (lookup_lt_is_Some_2 strs' (length strs)) as [s Hs]; [lia|]. by destruct (ua_str _ _ _ Hua _ _ Hs) as (? & _). }
  pose proof (argv_word_range _ Hin) as Hw. set (w := argv_word u a (Z.of_nat (length strs))) in *. rewrite u32_i32, u32_small by done.
  assert (length ((Some <$> strs) ++ replicate (Z.to_nat MAXARG - length strs) None) = Z.to_nat MAXARG) as Hal by (rewrite length_app, length_fmap, length_replicate; lia).
  assert (∀ v, aset ((Some <$> strs) ++ replicate (Z.to_nat MAXARG - length strs) None) (Z.of_nat (length strs)) v =
    Ok ((Some <$> strs) ++ v :: replicate (Z.to_nat MAXARG - S (length strs)) None)) as Hset.
  { intros v. apply aset_Ok. split; [rewrite Hal; lia|]. rewrite Nat2Z.id. replace (Z.to_nat MAXARG - length strs)%nat with (S (Z.to_nat MAXARG - S (length strs))) by lia.
    cbn [replicate]. rewrite <- (length_fmap Some strs) at 2. by rewrite insert_app_r_alt, Nat.sub_diag by lia. }
  case_decide as Hz.
  { rewrite Hset, bind_ret. eexists. split; [done|]. exists strs, (replicate (Z.to_nat MAXARG - S (length strs)) None). split; [done|]. by split; [lia|exact Hpre|]. }
  destruct (fetchstr_spec u w Hu Hw) as (r & -> & Hr). rewrite bind_ret. destruct r as [[n q]|].
  2: { exists None. split; [done|]. intros strs' Hua. pose proof (Hshort _ Hua). destruct (decide (length strs' = length strs)) as [Heq|Hne].
    - destruct (ua_end _ _ _ Hua) as [_ He]. by rewrite Heq in He.
    - destruct (lookup_lt_is_Some_2 strs' (length strs)) as [s Hs]; [lia|]. destruct (ua_str _ _ _ Hua _ _ Hs) as (_ & _ & (n & Hn) & _). by apply (Hr n). }
  destruct Hr as [-> Hstr]. rewrite Hset, bind_ret.
  specialize (IH (strs ++ [path_at u w])). rewrite length_app, fmap_app, <- app_assoc in IH. cbn [length fmap list_fmap app] in IH.
  replace (Z.of_nat (length strs + 1)) with (Z.of_nat (length strs) + 1) in IH by lia. replace (Z.to_nat MAXARG - (length strs + 1))%nat with (Z.to_nat MAXARG - S (length strs))%nat in IH by lia.
  apply IH; [lia|lia|]. intros i s Hs. destruct (decide (i < length strs)%nat); [rewrite lookup_app_l in Hs by done; by apply Hpre|].
  rewrite lookup_app_r in Hs by lia. apply list_lookup_singleton_Some in Hs as [Hi <-]. replace i with (length strs) by lia. split_and!; [done|done|by exists n|done].
Qed.

Lemma user_args_ok strs : user_argv u a strs → Forall arg_ok strs.
Proof.
  intros Hua. apply Forall_lookup. intros i s Hs. destruct (ua_str _ _ _ Hua i s Hs) as (Hin & _ & (n & Hn) & ->).
  pose proof (argv_word_range _ Hin) as Hr. destruct (ustring_path u _ n Hu (proj1 Hr) Hn) as (? & ? & ?). split_and!; [done|done|lia].
Qed.

(** The vector is determined by memory. *)
Lemma user_argv_unique strs strs' : user_argv u a strs → user_argv u a strs' → strs = strs'.
Proof.
  intros H H'. assert (length strs = length strs') as Hl.
  { destruct (Nat.lt_trichotomy (length strs) (length strs')) as [Hlt|[?|Hlt]]; [|done|]; exfalso.
    - destruct (lookup_lt_is_Some_2 _ _ Hlt) as [s Hs]. by destruct (ua_str _ _ _ H' _ _ Hs) as (_ & ? & _), (ua_end _ _ _ H) as [_ ?].
    - destruct (lookup_lt_is_Some_2 _ _ Hlt) as [s Hs]. by destruct (ua_str _ _ _ H _ _ Hs) as (_ & ? & _), (ua_end _ _ _ H') as [_ ?]. }
  apply list_eq_same_length with (length strs); [done|done|]. intros i s s' _ Hs Hs'.
  destruct (ua_str _ _ _ H i s Hs) as (_ & _ & _ & ->), (ua_str _ _ _ H' i s' Hs') as (_ & _ & _ & ->). done.
Qed.
End fetch.

(** ** The calls *)

(** Where the linker puts the kernel. *)
Record kernel_layout (kend kdata : Z) : Prop := {
  kl_end : KERNBASE < kend;
  kl_data : kdata mod PGSIZE = 0 ∧ KERNLINK < kdata ∧ kdata < KERNBASE + PHYSTOP
}.

Section calls.
Context (kend kdata : Z) (Hlay : kernel_layout kend kdata) (sb : superblock) (ds : Z) (devs : list devsw) (junk : list Z).
Context (l R : list Z) (To Mo : gmap Z Z).
Implicit Types (e : kenv) (p : proc) (refs : list nat) (cwd : nat) (path : list Z).

(** The process that calls [exec], with [l] free pages and [R] those of
    others; [refs] are the references to inodes. *)
Record caller e refs p cwd : Prop := {
  cl_space : vm_ok kend (n_mem e) l R (p_pgdir p) To Mo;
  cl_cwd : p_cwd p = Some cwd;
  cl_kstack : p_kstack p ≠ 0;
  cl_name : length (p_name p) = 16%nat;
  cl_ustack : length junk = 36%nat;
  cl_fs : ok sb ds (n_fs e) refs;
  cl_dir : at_cwd sb (n_fs e) refs cwd;
  cl_slots : free_slots 2 (uses refs)
}.
Definition no_device e cwd path : Prop :=
  ∀ j f, path_inode sb (n_fs e) cwd path = Some j → FsInv.file sb (n_fs e) j = Some f → af_type f ≠ T_DEV.

(** C37. [exec(path, argv)] always returns.  When it returns 0, the file that
    [path] names is a program, and the process now runs exactly the image that
    its headers ask for: each segment's bytes at its address and zeroes after
    them, a guard page, and a stack page on which [main] finds its return
    address, [argc] and [argv] with the strings; the instruction and stack
    pointers, the size and the name are set, and the pages of the old image
    are free.  When it returns -1, the process and its memory are as before,
    every page it took is free again, and the file is not a program with these
    arguments unless memory is short.  Either way no file, reference, open
    file or pipe changes, and no page of another process. *)
Theorem exec_installs e refs p cwd path strs rest :
  caller e refs p cwd → path_ok path → Forall arg_ok strs → no_device e cwd path →
  ∃ r p' e', exec kend kdata devs junk path ((Some <$> strs) ++ None :: rest) p e = Ok (r, p', e') ∧
    fs_same sb ds refs (n_fs e) (n_fs e') ∧ n_ft e' = n_ft e ∧ n_pipe e' = n_pipe e ∧ kept (n_mem e) (n_mem e') R ∧
    let want := program_at sb (n_fs e) cwd path (cstr <$> strs) in
    (r = 0 ∧ (∃ x, want = Some x ∧ main_frame (pg_mem x) (pg_sp x) (cstr <$> strs) ∧
                runs kend kdata R l (p_pgdir p) To Mo (n_mem e') path x p p') ∨
     r = -1 ∧ p' = p ∧ unchanged kend R l (p_pgdir p) To Mo (n_mem e) (n_mem e') ∧
       ∀ x, want = Some x → Z.of_nat (length l) < 1025 + 2 * pg_pages x).
Proof.
  intros [H1 H2 H3 H4 H5 H6 H7 H8] Hpath Hstrs Hdev. destruct Hlay as [He (Hd1 & Hd2 & Hd3)].
  destruct (exec_spec kend He kdata Hd1 Hd2 Hd3 R l (p_pgdir p) To Mo sb ds devs junk e refs cwd path strs rest p H1 eq_refl H2 H3 H4 H5 H6 H7 Hpath H8 Hstrs Hdev)
    as (r & p' & e' & Hrun & Hfs & Hft & Hpi & Hk & Hres). exists r, p', e'. split_and!; try done. destruct Hres as [[-> (x & Hx & Hr)]|Hres]; [left|by right].
  split; [done|]. exists x. split_and!; [done| |done]. unfold program_at in Hx. apply bind_Some in Hx as (j & _ & Hx). apply bind_Some in Hx as (f & _ & Hx).
  by apply (program_main _ _ _ Hx).
Qed.

(** C38. [sys_exec]: whatever the registers and the memory of a process of at
    most 32 MB, the call returns.  If the first argument is a string and the
    second an array of fewer than [MAXARG] strings with a null pointer at its
    end, all within the process's memory, the path and the strings are passed
    to [exec], and in this case only; otherwise the call returns -1 and
    nothing changes. *)
Theorem sys_exec_fetches e refs p cwd u :
  let arg n := u32 (u_esp u + 4 + 4 * n) in
  caller e refs p cwd → uproc_ok u → u_sz u ≤ 2 ^ 25 → no_device e cwd (path_at u (uword u (arg 0))) →
  ∃ r p' e', sys_exec kend kdata devs junk u p e = Ok (r, p', e') ∧
    ((∃ strs rest n, arg 0 + 4 ≤ u_sz u ∧ arg 1 + 4 ≤ u_sz u ∧ ustring u (uword u (arg 0)) n ∧ user_argv u (uword u (arg 1)) strs ∧
        exec kend kdata devs junk (path_at u (uword u (arg 0))) ((Some <$> strs) ++ None :: rest) p e = Ok (r, p', e')) ∨
     r = -1 ∧ p' = p ∧ e' = e ∧
       (u_sz u < arg 0 + 4 ∨ u_sz u < arg 1 + 4 ∨ (∀ n, ¬ ustring u (uword u (arg 0)) n) ∨ ∀ strs, ¬ user_argv u (uword u (arg 1)) strs)).
Proof.
  intros arg Hc Hu Hsz Hdev. unfold sys_exec, argstr. pose proof (argint_spec u 0 Hu) as Hi0. pose proof (argint_spec u 1 Hu) as Hi1. cbv zeta in Hi0, Hi1.
  fold (arg 0) in Hi0. fold (arg 1) in Hi1. rewrite Hi0, bind_ret. assert (0 ≤ arg 0 ∧ 0 ≤ arg 1) as [Ha0 Ha1] by (split; apply u32_range).
  destruct (decide (arg 0 + 4 ≤ u_sz u)) as [H0|H0]; [|rewrite bind_ret; exists (-1), p, e; split; [done|right]; split_and!; try done; left; lia].
  pose proof (uword_range u (arg 0) Hu Ha0 H0) as Hw0. rewrite u32_i32, u32_small by done.
  destruct (fetchstr_spec u _ Hu Hw0) as (r0 & -> & Hr0). rewrite bind_ret. destruct r0 as [[n q]|]; [|exists (-1), p, e; split; [done|right]; split_and!; try done; auto].
  destruct Hr0 as [-> Hstr]. rewrite Hi1, bind_ret. destruct (decide (arg 1 + 4 ≤ u_sz u)) as [H1|H1]; [|exists (-1), p, e; split; [done|right]; split_and!; try done; right; left; lia].
  pose proof (uword_range u (arg 1) Hu Ha1 H1) as Hw1. rewrite u32_i32, u32_small by done.
  destruct (fetch_argv_spec u Hu (uword u (arg 1)) (S (Z.to_nat MAXARG)) []) as (o & Ho & Hres); [done|cbn; lia|done|].
  cbn [length fmap list_fmap app] in Ho. rewrite Nat.sub_0_r in Ho. change (Z.of_nat 0) with 0 in Ho. rewrite Ho, bind_ret.
  destruct o as [argv|]; [|exists (-1), p, e; split; [done|right]; split_and!; try done; auto].
  destruct Hres as (strs & rest & -> & Hua). destruct (ustring_path u _ n Hu (proj1 Hw0) Hstr) as (Hp0 & Hpb & _). pose proof Hc as [C1 C2 C3 C4 C5 C6 C7 C8].
  destruct Hlay as [He (Hd1 & Hd2 & Hd3)].
  destruct (exec_spec kend He kdata Hd1 Hd2 Hd3 R l (p_pgdir p) To Mo sb ds devs junk e refs cwd (path_at u (uword u (arg 0))) strs rest p C1 eq_refl C2 C3 C4 C5 C6 C7)
    as (r & p' & e' & Hrun & _); [by split; [|apply Forall_cstr]|done|by apply (user_args_ok u Hu Hsz (uword u (arg 1)))|exact Hdev|].
  exists r, p', e'. split; [done|left]. by exists strs, rest, n.
Qed.
End calls.

(** ** A program on the image *)

(** The file of a program with one segment of four bytes at address 0. *)
Definition demo_elf : list Z :=
  [127; 69; 76; 70] ++ replicate 12 0 ++ le_bytes 2 2 ++ le_bytes 2 3 ++ le_bytes 4 1 ++ le_bytes 4 0 ++ le_bytes 4 52 ++ le_bytes 4 0 ++
  le_bytes 4 0 ++ le_bytes 2 52 ++ le_bytes 2 32 ++ le_bytes 2 1 ++ replicate 6 0 ++
  concat (le_bytes 4 <$> [1; 84; 0; 0; 4; 8; 7; 4096]) ++ [235; 254; 144; 144].
Definition demo_args : list (list Z) := [[102; 0]; [97; 98; 0]].

Lemma demo_program : pg_pages <$> program_of demo_elf (cstr <$> demo_args) = Some 3.
Proof. by vm_compute. Qed.

(** The image with the program written to the file [f]. *)
Lemma demo_fs : ∃ ip s, ok img_sb img_ds s [ip; 0%nat] ∧ at_cwd img_sb s [ip; 0%nat] 0 ∧ free_slots 2 (uses [ip; 0%nat]) ∧
  path_inode img_sb s 0 [102; 0] = Some 2 ∧ FsInv.file img_sb s 2 = Some (mkafile T_FILE 0 0 1 demo_elf).
Proof.
  assert (path_ok [102; 0]) as Hpath by (split; [right; left|repeat constructor; done]).
  destruct (namei_ok img_sb img_ds [] (opened 1) [0%nat] 0 [102; 0] opened_ok opened_cwd Hpath (free_slots_le 3 2 _ ltac:(lia) opened_slots)) as (res & s1 & _ & Hf1 & Hr1 & Hnf & Hres).
  assert (path_inode img_sb (opened 1) 0 [102; 0] = Some 2) as Hpi by (by vm_compute). rewrite Hpi in Hres. destruct Hres as (ip & _ & Hok1 & Hi).
  assert (FsInv.file img_sb (opened 1) 1 = Some (mkafile T_DIR 0 0 1 root_data) ∧ FsInv.file img_sb (opened 1) 2 = Some (mkafile T_FILE 0 0 1 hello)) as [H1 H2].
  { destruct image_files as (H1 & H2 & _). exact (conj H1 H2). }
  assert (inode_no img_sb 1 ∧ inode_no img_sb 2) as [Hn1 Hn2] by (split; unfold inode_no; cbn; lia).
  assert (FsInv.file img_sb s1 (inums s1 ip) = Some (mkafile T_FILE 0 0 1 hello)) as Hfi by (rewrite Hi, Hf1; [exact H2|exact Hn2]).
  destruct (write_ok img_sb img_ds [] s1 [ip; 0%nat] ip demo_elf 0 88 _ Hok1 ltac:(left) Hfi) as (_ & _ & s3 & _ & _ & _ & Hok3 & Hr3 & Hf3).
  { reflexivity. } { apply (bool_decide_eq_true_1 _). by vm_compute. } { apply Nat.leb_le. by vm_compute. } { apply Nat.le_0_l. } { pose proof MAXBYTES_Z. lia. }
  { assert (nfree (opened 1) = 939%nat) as Hn by exact image_nfree. rewrite Hn in Hnf. assert (blocks_touched (Z.of_nat 88) = 2%nat) as -> by (by vm_compute). lia. }
  rewrite Hi in Hf3. assert (FsInv.file img_sb s3 1 = Some (mkafile T_DIR 0 0 1 root_data)) as H31.
  { rewrite Hf3 by exact Hn1. rewrite fn_lookup_insert_ne by done. rewrite Hf1 by exact Hn1. exact H1. }
  assert (inums s3 0 = 1) as Hroot.
  { rewrite Hr3 by (right; left). rewrite Hr1 by left. reflexivity. }
  exists ip, s3. split; [exact Hok3|]. split; [|split; [|split]].
  - split; [right; left|]. rewrite Hroot. split; [exact Hn1|]. eexists. split; [exact H31|discriminate].
  - destruct (free_slots_gain 2 (uses [0%nat]) ip (uses [0%nat] ip + 1) opened_slots) as (ks & Hl & Hnd & Hall). exists ks. split; [exact Hl|]. split; [exact Hnd|].
    intros k Hk. rewrite uses_cons. exact (Hall k Hk).
  - unfold path_inode, startF. rewrite decide_False by discriminate. rewrite Hroot. change (elems (cstr [102; 0])) with [[102]]. cbn [walkF]. unfold dirF. rewrite H31.
    cbn [mbind option_bind af_type af_data]. rewrite decide_True by reflexivity. cbn [mbind option_bind].
    assert (dlookup root_data (take DIRSIZ [102]) = Some 2) as -> by (by vm_compute). reflexivity.
  - rewrite Hf3 by exact Hn2. rewrite fn_lookup_insert. reflexivity.
Qed.

(** All of memory, with an empty address space for the process. *)
Lemma demo_mem : ∃ d m l, vm_ok arena_end m l [] d ∅ ∅ ∧ 56000 ≤ Z.of_nat (length l).
Proof.
  destruct (boot_spec arena_end ltac:(done) ltac:(done)) as (m & l & _ & Hk & Hl).
  destruct (all_pages_split arena_end ltac:(done) ltac:(done)) as (k & _ & _ & _ & Hall). rewrite Hall in Hl. apply Permutation_length in Hl.
  rewrite length_app in Hl. unfold pages_from in Hl. rewrite !length_fmap, !length_seq in Hl.
  destruct l as [|d l]; [cbn [length] in Hl; lia|]. destruct (first_space arena_end m d l Hk) as (_ & m2 & _ & _ & Hv). exists d, m2, l. split; [exact Hv|]. cbn [length] in Hl. lia.
Qed.

Lemma demo_layout : kernel_layout arena_end arena_data.
Proof. destruct arena_sizes as (H1 & H2 & H3 & H4 & _). by split. Qed.

(** A caller of [exec] in this kernel. *)
Lemma demo_caller : ∃ e refs p l d, caller arena_end img_sb img_ds (replicate 36 0) l [] ∅ ∅ e refs p 0 ∧ p_pgdir p = d ∧ 56000 ≤ Z.of_nat (length l) ∧
  path_inode img_sb (n_fs e) 0 [102; 0] = Some 2 ∧ FsInv.file img_sb (n_fs e) 2 = Some (mkafile T_FILE 0 0 1 demo_elf).
Proof.
  destruct demo_fs as (ip & s & Hok & Hcwd & Hslots & Hp & Hf). destruct demo_mem as (d & m & l & Hv & Hl).
  exists (mkkenv m [] ∅ s []), [ip; 0%nat], (proc_zero <| p_pgdir := d |> <| p_cwd := Some 0%nat |> <| p_kstack := KERNBASE |>), l, d.
  split; [|by split_and!]. split; try done.
Qed.

Lemma exec_installs_witness : ∃ e refs p l, caller arena_end img_sb img_ds (replicate 36 0) l [] ∅ ∅ e refs p 0 ∧
  ∃ p' e', exec arena_end arena_data [] (replicate 36 0) [102; 0] ((Some <$> demo_args) ++ None :: []) p e = Ok (0, p', e') ∧ p_sz p' = 12288.
Proof.
  destruct demo_caller as (e & refs & p & l & d & Hc & _ & Hl & Hp & Hf). exists e, refs, p, l. split; [exact Hc|].
  assert (program_at img_sb (n_fs e) 0 [102; 0] (cstr <$> demo_args) = program_of demo_elf (cstr <$> demo_args)) as Hat.
  { unfold program_at. rewrite Hp. cbn [mbind option_bind]. rewrite Hf. reflexivity. }
  destruct (exec_installs arena_end arena_data demo_layout img_sb img_ds [] (replicate 36 0) l [] ∅ ∅ e refs p 0 [102; 0] demo_args [] Hc)
    as (r & p' & e' & Hrun & _ & _ & _ & _ & Hres).
  - split; [right; left|]. repeat constructor; done.
  - repeat constructor; apply (bool_decide_eq_true_1 _); by vm_compute.
  - intros j f Hj. rewrite Hp in Hj. injection Hj as <-. rewrite Hf. intros [= <-]. discriminate.
  - cbv zeta in Hres. rewrite Hat in Hres. pose proof demo_program as Hx. apply fmap_Some in Hx as (x & Hx & Hn). destruct Hres as [[-> (x' & Hx' & _ & Hruns)]|(_ & _ & _ & Hsh)].
    + exists p', e'. split; [exact Hrun|]. rewrite Hx in Hx'. injection Hx' as <-. rewrite (ru_proc _ _ _ _ _ _ _ _ _ _ _ _ Hruns). cbn [p_sz installed]. 
      change (PGSIZE * pg_pages x = 12288). rewrite <- Hn. reflexivity.
    + specialize (Hsh x Hx). rewrite <- Hn in Hsh. lia.
Defined.

(** A process whose stack asks for [exec("f", {"f", 0})]. *)
Definition demo_exec_call : uproc := mkuproc ([0; 0; 0; 0; 20; 0; 0; 0; 12; 0; 0; 0] ++ [20; 0; 0; 0; 0; 0; 0; 0] ++ [102; 0; 0; 0]) 24 0.

Lemma sys_exec_fetches_witness : ∃ e refs p l, caller arena_end img_sb img_ds (replicate 36 0) l [] ∅ ∅ e refs p 0 ∧
  ∃ r p' e', sys_exec arena_end arena_data [] (replicate 36 0) demo_exec_call p e = Ok (r, p', e') ∧
    ∃ strs rest, exec arena_end arena_data [] (replicate 36 0) [102; 0; 0; 0] ((Some <$> strs) ++ None :: rest) p e = Ok (r, p', e').
Proof.
  destruct demo_caller as (e & refs & p & l & d & Hc & _ & _ & Hp & Hf). exists e, refs, p, l. split; [exact Hc|].
  assert (uproc_ok demo_exec_call) as Hu by (split; [done|done|repeat constructor; done]).
  destruct (sys_exec_fetches arena_end arena_data demo_layout img_sb img_ds [] (replicate 36 0) l [] ∅ ∅ e refs p 0 demo_exec_call Hc Hu)
    as (r & p' & e' & Hrun & Hres).
  - discriminate.
  - change (path_at demo_exec_call _) with [102; 0; 0; 0]. intros j f Hj. change (path_inode img_sb (n_fs e) 0 [102; 0; 0; 0]) with (path_inode img_sb (n_fs e) 0 [102; 0]) in Hj.
    rewrite Hp in Hj. injection Hj as <-. rewrite Hf. intros [= <-]. discriminate.
  - exists r, p', e'. split; [exact Hrun|]. destruct Hres as [(strs & rest & n & _ & _ & _ & _ & Hex)|(_ & _ & _ & Hbad)]; [by exists strs, rest|]. exfalso.
    destruct Hbad as [Hb|[Hb|[Hb|Hb]]]; [discriminate Hb|discriminate Hb| |].
    + apply (Hb 1). split_and!; [done|done|done|]. intros k Hk. assert (k = 0) as -> by lia. exists 102. split; [done|done].
    + apply (Hb [[102; 0; 0; 0]]). split; [done| |done]. intros [|i] s Hs; [|done]. injection Hs as <-. split_and!; [done|done| |done].
      exists 1. split_and!; [done|done|done|]. intros k Hk. assert (k = 0) as -> by lia. exists 102. split; [done|done].
Defined.
