(* ===== verification/Mkfs.v ===== *)
(** * Making a file system image: [mkfs.c]

    The image is a map from sectors to blocks of 512 bytes; a sector that has
    not been written lies beyond the end of the image file, and reading it is
    the error exit of [rsect].  The files of the host are an argument: [host]
    gives for a name the pieces in which [read] delivers the file, [creat] says
    whether the image file can be opened.  The host is taken to be
    little-endian and its writes to succeed.  [Panic] is [exit(1)] or a failed
    [assert]. *)

From stdpp Require Import gmap.
From S2P Require Import Prelude.
From S2P Require Import Bytes.
From S2P Require Import Log.
From S2P Require Import Fs.
From S2P Require Import FsDir.

Local Open Scope Z_scope.

Definition NINODES : Z := 200.
Definition nbitmap : Z := FSSIZE / (Z.of_nat BSIZE * 8) + 1.
Definition ninodeblocks : Z := NINODES / IPB + 1.
Definition nlog : Z := Z.of_nat LOGSIZE.
Definition nmeta : Z := 2 + nlog + ninodeblocks + nbitmap.
Definition nblocks : Z := FSSIZE - nmeta.

(** The bytes of [x] in Intel order, read as the host does. *)
Definition xshort (x : Z) : Z := le_val (le_bytes 2 x).
Definition xint (x : Z) : Z := le_val (le_bytes 4 x).

Definition sb : superblock :=
  mksb (xint FSSIZE) (xint nblocks) (xint NINODES) (xint nlog) (xint 2) (xint (2 + nlog)) (xint (2 + nlog + ninodeblocks)).

(** [fsfd] and the global counters. *)
Record mkst := mkmk { k_img : gmap Z block; k_freeinode : Z; k_freeblock : Z }.
#[export] Instance mkst_fields : Fields mkst := λ k, mkmk (k_img k) (k_freeinode k) (k_freeblock k).

(** ** Sectors *)

(** The sector at the [uint] offset [sec * BSIZE] of the file. *)
Definition sector (sec : Z) : Z := u32 (sec * Z.of_nat BSIZE) / Z.of_nat BSIZE.

Definition wsect (sec : Z) (buf : block) (k : mkst) : mkst := k <| k_img ::= <[sector sec := buf]> |>.
Definition rsect (sec : Z) (k : mkst) : outcome block :=
  match k_img k !! sector sec with Some d => Ok d | None => Panic "read" end.

(** ** Inodes *)

Definition winode (inum : Z) (ip : dinode) (k : mkst) : outcome mkst :=
  let bn := IBLOCK inum sb in
  buf ← rsect bn k;
  buf' ← put_dinode buf inum ip;
  Ok (wsect bn buf' k).

Definition rinode (inum : Z) (k : mkst) : outcome dinode :=
  buf ← rsect (IBLOCK inum sb) k;
  get_dinode buf inum.

Definition ialloc (type : Z) (k : mkst) : outcome (Z * mkst) :=
  let inum := k_freeinode k in
  k' ← winode inum (mkdinode (xshort type) 0 0 (xshort 1) (xint 0) (replicate (S NDIRECT) 0))
         (k <| k_freeinode := u32 (inum + 1) |>);
  Ok (inum, k').

(** ** The free map *)

(** [for(i = 0; i < used; i++)], [n] iterations from [i] on. *)
Fixpoint set_bits (n : nat) (i : Z) (buf : block) : outcome block :=
  match n with
  | O => Ok buf
  | S n' =>
      c ← aget buf (i / 8);
      buf' ← aset buf (i / 8) (u8 (Z.lor c (bit_mask i)));
      set_bits n' (i + 1) buf'
  end.

Definition balloc (used : Z) (k : mkst) : outcome mkst :=
  if decide (used < Z.of_nat BSIZE * 8) then
    buf ← set_bits (Z.to_nat used) 0 zero_block;
    Ok (wsect (sb_bmapstart sb) buf k)
  else Panic "assert".

(** ** Appending to a file *)

(** [freeblock++] *)
Definition new_block (k : mkst) : Z * mkst := (k_freeblock k, k <| k_freeblock ::= λ b, u32 (b + 1) |>).

(** [x] for a block [fbn] that the indirect block lists. *)
Definition indirect_block (fbn : Z) (addrs : list Z) (k : mkst) : outcome (Z * list Z * mkst) :=
  ind ← aget addrs (Z.of_nat NDIRECT);
  indirect ← rsect (xint ind) k;
  e ← get_le 4 indirect (4 * (fbn - Z.of_nat NDIRECT));
  if decide (e = 0) then
    let (b, k1) := new_block k in
    indirect' ← put_le 4 indirect (4 * (fbn - Z.of_nat NDIRECT)) (xint b);
    Ok (xint (xint b), addrs, wsect (xint ind) indirect' k1)
  else Ok (xint e, addrs, k).

(** The block [x] for block [fbn] of the file, allocated if there is none. *)
Definition file_block (fbn : Z) (addrs : list Z) (k : mkst) : outcome (Z * list Z * mkst) :=
  if decide (fbn < Z.of_nat NDIRECT) then
    a ← aget addrs fbn;
    if decide (xint a = 0) then
      let (b, k1) := new_block k in
      addrs1 ← aset addrs fbn (xint b);
      Ok (xint (xint b), addrs1, k1)
    else Ok (xint a, addrs, k)
  else
    a ← aget addrs (Z.of_nat NDIRECT);
    '(addrs1, k1) ← (if decide (xint a = 0) then
                       let (b, k1) := new_block k in
                       addrs1 ← aset addrs (Z.of_nat NDIRECT) (xint b);
                       Ok (addrs1, k1)
                     else Ok (addrs, k));
    indirect_block fbn addrs1 k1.

(** The loop: [p] is what is left of the bytes; every turn takes at least one. *)
Fixpoint iappend_loop (fuel : nat) (p : list Z) (off : Z) (addrs : list Z) (k : mkst) : outcome (Z * list Z * mkst) :=
  if decide (0 < Z.of_nat (length p)) then
    match fuel with
    | O => Fault "fuel"
    | S fuel' =>
        let fbn := off / Z.of_nat BSIZE in
        if decide (fbn < Z.of_nat MAXFILE) then
          '(x, addrs1, k1) ← file_block fbn addrs k;
          let n1 := Z.min (Z.of_nat (length p)) (u32 ((fbn + 1) * Z.of_nat BSIZE - off)) in
          buf ← rsect x k1;
          buf' ← bstore buf (off - fbn * Z.of_nat BSIZE) (take (Z.to_nat n1) p);
          iappend_loop fuel' (drop (Z.to_nat n1) p) (u32 (off + n1)) addrs1 (wsect x buf' k1)
        else Panic "assert"
    end
  else Ok (off, addrs, k).

Definition iappend (inum : Z) (p : list Z) (k : mkst) : outcome mkst :=
  din ← rinode inum k;
  '(off, addrs, k1) ← iappend_loop (length p) p (xint (di_size din)) (di_addrs din) k;
  winode inum (mkdinode (di_type din) (di_major din) (di_minor din) (di_nlink din) (xint off) addrs) k1.

(** ** The program *)

(** [struct dirent] with the name copied by [strcpy] or [strncpy]. *)
Definition mkdirent (inum : Z) (name : list Z) : list Z :=
  le_bytes 2 (xshort inum) ++ take DIRSIZ name ++ replicate (DIRSIZ - length name) 0.

(** [for(i = 0; i < FSSIZE; i++) wsect(i, zeroes)], [n] sectors from [i] on. *)
Fixpoint clear_sects (n : nat) (i : Z) (k : mkst) : mkst :=
  match n with O => k | S n' => clear_sects n' (i + 1) (wsect i zero_block k) end.

(** Block 1: the bytes of [sb]. *)
Definition sb_block : block :=
  let b := concat (le_bytes 4 <$> [sb_size sb; sb_nblocks sb; sb_ninodes sb; sb_nlog sb;
                                   sb_logstart sb; sb_inodestart sb; sb_bmapstart sb]) in
  b ++ replicate (BSIZE - length b) 0.

(** The image before the first inode, and the root directory with [.] and [..]. *)
Definition start : mkst := wsect 1 sb_block (clear_sects (Z.to_nat FSSIZE) 0 (mkmk ∅ 1 nmeta)).

Definition make_root : outcome (Z * mkst) :=
  '(rootino, k) ← ialloc T_DIR start;
  if decide (rootino = ROOTINO) then
    k1 ← iappend rootino (mkdirent rootino [46]) k;
    k2 ← iappend rootino (mkdirent rootino [46; 46]) k1;
    Ok (rootino, k2)
  else Panic "assert".

(** [while((cc = read(fd, buf, sizeof(buf))) > 0) iappend(inum, buf, cc);] *)
Fixpoint copy_pieces (inum : Z) (pieces : list (list Z)) (k : mkst) : outcome mkst :=
  match pieces with
  | [] => Ok k
  | p :: pieces' =>
      if decide (0 < Z.of_nat (length p)) then k' ← iappend inum p k; copy_pieces inum pieces' k'
      else Ok k
  end.

(** [if(argv[i][0] == '_') ++argv[i];] *)
Definition skip_underscore (arg : list Z) : list Z :=
  match arg with c :: r => if decide (c = 95) then r else arg | [] => [] end.

Section host.
Context (creat : list Z → bool) (host : list Z → option (list (list Z))).

(** One turn of the loop over the arguments. *)
Definition add_file (rootino : Z) (arg : list Z) (k : mkst) : outcome mkst :=
  if decide (47 ∈ arg) then Panic "assert"
  else
    match host arg with
    | None => Panic "open"
    | Some pieces =>
        let name := skip_underscore arg in
        '(inum, k1) ← ialloc T_FILE k;
        k2 ← iappend rootino (mkdirent inum name) k1;
        copy_pieces inum pieces k2
    end.

Fixpoint add_files (rootino : Z) (args : list (list Z)) (k : mkst) : outcome mkst :=
  match args with
  | [] => Ok k
  | arg :: args' => k' ← add_file rootino arg k; add_files rootino args' k'
  end.

(** [off = ((off/BSIZE) + 1) * BSIZE] *)
Definition fix_root (rootino : Z) (k : mkst) : outcome mkst :=
  din ← rinode rootino k;
  let off := xint (di_size din) in
  let off' := u32 ((off / Z.of_nat BSIZE + 1) * Z.of_nat BSIZE) in
  winode rootino (mkdinode (di_type din) (di_major din) (di_minor din) (di_nlink din) (xint off') (di_addrs din)) k.

Definition main (argv : list (list Z)) : outcome mkst :=
  match argv with
  | _ :: image :: args =>
      if creat image then
        '(rootino, k) ← make_root;
        k1 ← add_files rootino args k;
        k2 ← fix_root rootino k1;
        balloc (i32 (k_freeblock k2)) k2
      else Panic "open"
  | _ => Panic "usage"
  end.
End host.
