(* ===== verification/MkfsSpec.v ===== *)
(** * The blocks of the image under construction

    [sim k s]: the file system [s] has the sectors of the image [k] and the
    free map that [balloc] would write now.  Taking [freeblock++] is an
    allocation in [s], and [iappend] writes to a file of [s] as [writei]
    would, with the same specification [wrote]. *)

From stdpp Require Import gmap.
From S2P Require Import Prelude.
From S2P Require Import Bytes.
From S2P Require Import Mkfs.
From S2P Require Import Log.
From S2P Require Import Fs.
From S2P Require Import FsSpec.
From S2P Require Import FileSpec.
From S2P Require Import FileRw.
From S2P Require Import InodeSpec.
From S2P Require Import FsInv.
From S2P Require Import FsOps.
From S2P Require Import FsImage.

Local Open Scope Z_scope.

Notation base := (fs_base img_sb img_ds).
Notation iwf := (iwf img_sb img_ds).
Notation is_data := (is_data img_sb img_ds).
Notation bmapped := (bmapped img_sb img_ds).
Notation wrote := (wrote img_sb img_ds).
Notation mkst := Mkfs.mkst.
Notation freeblock := Mkfs.k_freeblock.
Notation freeinode := Mkfs.k_freeinode.

Implicit Types (k : mkst) (s : fstate) (b : Z) (d : block) (addrs : list Z).

Lemma sb_img : Mkfs.sb = img_sb.
Proof. reflexivity. Qed.
Lemma nmeta_img : Mkfs.nmeta = img_ds.
Proof. reflexivity. Qed.
Lemma xint_id x : 0 ≤ x < 2 ^ 32 → Mkfs.xint x = x.
Proof. apply (le_val_bytes 4). Qed.
Lemma sector_id b : 0 ≤ b < FSSIZE → Mkfs.sector b = b.
Proof.
  unfold FSSIZE, Mkfs.sector. intros Hb. change (Z.of_nat BSIZE) with 512. rewrite u32_small by lia. by apply Z.div_mul.
Qed.

(** ** The free map *)

Definition set_bit_in d (i : Z) : block := <[Z.to_nat (i / 8) := u8 (Z.lor (d !!! Z.to_nat (i / 8)) (bit_mask i))]> d.

Fixpoint bitmap (n : nat) : block :=
  match n with O => zero_block | S n' => set_bit_in (bitmap n') (Z.of_nat n') end.

Lemma bitmap_wf n : wf_block (bitmap n).
Proof. induction n as [|n IH]; [apply wf_zero_block|]. apply wf_block_insert; [done|apply u8_range]. Qed.

Lemma bitmap_tb n j : (n ≤ BPB)%nat → 0 ≤ j < Z.of_nat BPB → tb (bitmap n) j = bool_decide (j < Z.of_nat n).
Proof.
  intros Hn Hj. induction n as [|n IH].
  - rewrite bool_decide_false by lia. unfold tb. cbn [bitmap]. unfold zero_block.
    rewrite lookup_total_replicate_2 by (by apply byte_index_lt). apply Z.bits_0.
  - cbn [bitmap]. unfold set_bit_in. rewrite tb_set; [|apply bitmap_wf|lia|done]. rewrite IH by lia.
    destruct (decide (j = Z.of_nat n)); repeat case_bool_decide; done || lia.
Qed.

Lemma set_bits_spec n i : (i + n ≤ BPB)%nat → Mkfs.set_bits n (Z.of_nat i) (bitmap i) = Ok (bitmap (i + n)).
Proof.
  revert i. induction n as [|n IH]; intros i Hi; [by rewrite Nat.add_0_r|]. cbn [Mkfs.set_bits].
  rewrite aget_bit by (apply bitmap_wf || lia). rewrite bind_ret, aset_bit by (apply bitmap_wf || lia). rewrite bind_ret.
  replace (Z.of_nat i + 1) with (Z.of_nat (S i)) by lia. replace (i + S n)%nat with (S i + n)%nat by lia. apply (IH (S i)). lia.
Qed.

(** ** The relation *)

Record sim k s : Prop := {
  sm_sb : f_sb s = img_sb;
  sm_free : img_ds ≤ freeblock k ≤ FSSIZE;
  sm_blk : f_blk s = <[sb_bmapstart img_sb := bitmap (Z.to_nat (freeblock k))]> (Mkfs.k_img k);
  sm_dom : ∀ b, 0 ≤ b < FSSIZE → is_Some (Mkfs.k_img k !! b);
  sm_wf : blocks_ok s;
  sm_zero : ∀ b, freeblock k ≤ b < FSSIZE → blk s b = zero_block
}.

Section sim.
Context (k : mkst) (s : fstate) (Hsim : sim k s).

Lemma sim_bit b : 0 ≤ b < FSSIZE → bit s b = bool_decide (b < freeblock k).
Proof using Hsim.
  intros Hb. pose proof (sm_free _ _ Hsim) as Hf. unfold img_ds, FSSIZE in *. rewrite (bit_tb img_sb img_ds) by (apply image_layout || apply Hsim || done).
  unfold blk. rewrite (sm_blk _ _ Hsim), lookup_total_insert_eq. change (Z.of_nat BPB) with 4096 in *.
  rewrite bitmap_tb by (change (Z.of_nat BPB) with 4096 || unfold BPB; lia). rewrite Z2Nat.id by lia. done.
Qed.

Lemma sim_base : base s.
Proof using Hsim.
  pose proof (sm_free _ _ Hsim) as Hf. split; [apply image_layout|apply Hsim|apply Hsim|]. intros b Hb. unfold img_ds in *.
  rewrite sim_bit by (unfold FSSIZE; lia). apply bool_decide_true. lia.
Qed.

Lemma sim_data b : is_data b → bit s b = true → 0 ≤ b < FSSIZE ∧ b < freeblock k ∧ b ≠ sb_bmapstart img_sb.
Proof using Hsim.
  intros Hb Hbit. destruct (data_nonzero _ _ s b sim_base Hb) as (_ & ? & Hr & _). rewrite sim_bit in Hbit by done.
  apply bool_decide_eq_true in Hbit. done.
Qed.

Lemma sim_rsect b : 0 ≤ b < FSSIZE → b ≠ sb_bmapstart img_sb → Mkfs.rsect b k = Ok (blk s b).
Proof using Hsim.
  intros Hb Hne. unfold Mkfs.rsect. rewrite sector_id by done. destruct (sm_dom _ _ Hsim b Hb) as [d Hd]. rewrite Hd. f_equal.
  unfold blk. rewrite (sm_blk _ _ Hsim), lookup_total_insert_ne by done. symmetry. by apply lookup_total_correct.
Qed.

Lemma sim_wsect b d :
  0 ≤ b < FSSIZE → b ≠ sb_bmapstart img_sb → b < freeblock k → wf_block d → sim (Mkfs.wsect b d k) (lw b d s).
Proof using Hsim.
  intros Hb Hne Hlt Hd. pose proof Hsim as [Hsb Hf Hblk Hdom Hwf Hz]. unfold Mkfs.wsect. rewrite sector_id by done.
  split; [done|done| | |by apply blocks_ok_lw|].
  - cbn. rewrite Hblk. by rewrite insert_insert_ne.
  - intros x Hx. cbn. destruct (decide (b = x)) as [->|Hxb]; [rewrite lookup_insert_eq; eauto|]. rewrite lookup_insert_ne by done. by apply Hdom.
  - cbn. intros x Hx. rewrite blk_lw_ne by lia. by apply Hz.
Qed.

Lemma sim_new :
  freeblock k < FSSIZE →
  let b := freeblock k in let k' := (Mkfs.new_block k).2 in
  sim k' (allocated img_sb s b) ∧ is_data b ∧ bit s b = false ∧ freeblock k' = b + 1 ∧ freeinode k' = freeinode k ∧
  0 ≤ b < 2 ^ 32.
Proof using Hsim.
  intros Hlt b k'. pose proof Hsim as [Hsb Hf Hblk Hdom Hwf Hz]. fold b in Hf, Hz, Hblk.
  assert (freeblock k' = b + 1) as Hk'. { unfold k'. cbn. apply u32_small. unfold FSSIZE, img_ds in *. lia. }
  assert (0 ≤ b < FSSIZE) as Hb by (unfold img_ds in *; lia).
  assert (b ≠ sb_bmapstart img_sb) as Hbm by (unfold img_ds in *; cbn; lia).
  assert (is_data b) as Hd by (unfold FsSpec.is_data; cbn; unfold FSSIZE in *; lia).
  split_and!; [|done|rewrite sim_bit by done; apply bool_decide_false; unfold b; lia|done|done|lia|unfold FSSIZE in *; lia].
  split.
  - done.
  - rewrite Hk'. lia.
  - rewrite Hk'. change (Mkfs.k_img k') with (Mkfs.k_img k).
    change (f_blk (allocated img_sb s b)) with (<[b := zero_block]> (<[sb_bmapstart img_sb := alloc_map img_sb s b]> (f_blk s))).
    rewrite Hblk. replace (Z.to_nat (b + 1)) with (S (Z.to_nat b)) by lia.
    rewrite insert_insert_eq, insert_insert_ne by done. rewrite (insert_id _ b).
    + f_equal. unfold alloc_map, blk. rewrite Hblk, lookup_total_insert_eq. cbn [bitmap]. unfold set_bit_in. by rewrite Z2Nat.id by lia.
    + destruct (Hdom b Hb) as [d Hdb]. rewrite Hdb. f_equal. rewrite <- (Hz b) by lia. unfold blk.
      rewrite Hblk, lookup_total_insert_ne by done. symmetry. by apply lookup_total_correct.
  - done.
  - apply blocks_ok_lw; [|apply wf_zero_block]. apply blocks_ok_lw; [done|]. apply wf_block_insert; [apply Hwf|apply u8_range].
  - rewrite Hk'. intros x Hx. rewrite allocated_blk; [apply Hz; lia|lia|unfold img_ds in *; cbn; lia].
Qed.
End sim.

(** ** The blocks of a file *)

(** How many blocks [file_block] takes for block [n] of the file. *)
Definition missing (a : Z) : Z := if decide (a = 0) then 1 else 0.
Definition takes s addrs (n : nat) : Z :=
  missing (slot s addrs n) + if decide (n < NDIRECT)%nat then 0 else missing (slot s addrs MAXFILE).

Lemma missing_range a : 0 ≤ missing a ≤ 1.
Proof. unfold missing. case_decide; lia. Qed.
Lemma missing_ne a : a ≠ 0 → missing a = 0.
Proof. intros. unfold missing. by rewrite decide_False. Qed.

Record fetched k s k' s' addrs addrs' (n : nat) (x : Z) : Prop := {
  fe_sim : sim k' s';
  fe_map : bmapped s s' addrs addrs' n x;
  fe_ind : (n < NDIRECT)%nat → slot s' addrs' MAXFILE = slot s addrs MAXFILE;
  fe_free : freeblock k' = freeblock k + takes s addrs n;
  fe_ino : freeinode k' = freeinode k
}.

Section blocks.
Context (k : mkst) (s : fstate) (addrs : list Z) (n : nat) (Hsim : sim k s) (Hw : iwf s addrs) (Hn : (n < MAXFILE)%nat).

Lemma addr_get i : (i ≤ NDIRECT)%nat → aget addrs (Z.of_nat i) = Ok (addrs !!! i) ∧ Mkfs.xint (addrs !!! i) = addrs !!! i.
Proof using Hsim Hw.
  intros Hi. clear n Hn. pose proof (iw_len _ _ _ _ Hw) as Hlen.
  assert (addrs !! i = Some (addrs !!! i)) as Ha by (apply list_lookup_lookup_total_lt; lia).
  split; [by apply aget_nat|]. apply xint_id. pose proof (iwf_uint img_sb img_ds s addrs (sim_base k s Hsim) Hw) as Hu.
  by apply (Forall_lookup_1 _ _ _ _ Hu) in Ha.
Qed.

Lemma fetched_found : slot s addrs n ≠ 0 → ((NDIRECT ≤ n)%nat → addrs !!! NDIRECT ≠ 0) → fetched k s k s addrs addrs n (slot s addrs n).
Proof using Hsim Hw.
  clear Hn. intros Hne Hind. split; [done|by apply bmapped_refl; [eapply sim_base|..]|done| |done]. unfold takes. rewrite (missing_ne _ Hne).
  case_decide; [lia|]. rewrite missing_ne by (apply Hind; lia). lia.
Qed.

Lemma indirect_block_spec :
  (NDIRECT ≤ n)%nat → addrs !!! NDIRECT ≠ 0 → freeblock k + takes s addrs n ≤ FSSIZE →
  ∃ x k' s', Mkfs.indirect_block (Z.of_nat n) addrs k = Ok (x, addrs, k') ∧ fetched k s k' s' addrs addrs n x.
Proof using Hsim Hw Hn.
  intros Hge Hind Hroom. pose proof (sim_base k s Hsim) as Hs. destruct (iw_data _ _ _ _ Hw MAXFILE) as [Hd Hbit]; [done..|].
  rewrite slot_indirect in Hd, Hbit. destruct (sim_data k s Hsim _ Hd Hbit) as (Hr & Hlt & Hbm).
  unfold Mkfs.indirect_block. destruct (addr_get NDIRECT) as [Hg Hx]; [lia|]. rewrite Hg, bind_ret, Hx, (sim_rsect k s Hsim) by done. rewrite bind_ret.
  replace (4 * (Z.of_nat n - Z.of_nat NDIRECT)) with (Z.of_nat (4 * (n - NDIRECT))) by lia.
  assert (4 * (n - NDIRECT) + 4 ≤ length (blk s (addrs !!! NDIRECT)))%nat as Hfit.
  { rewrite (proj1 (fb_blocks _ _ _ Hs _)). unfold NDIRECT, MAXFILE, BSIZE in *. lia. }
  rewrite get_le_Ok by done. rewrite bind_ret.
  assert (le_val (slice (4 * (n - NDIRECT)) 4 (blk s (addrs !!! NDIRECT))) = slot s addrs n) as ->.
  { unfold slot, word. by rewrite !decide_False by (done || lia). }
  case_decide as H0.
  - assert (freeblock k < FSSIZE) as Hlt'.
    { unfold takes, missing in Hroom. rewrite H0, decide_True in Hroom by done. case_decide; [lia|]. case_decide; lia. }
    destruct (sim_new k s Hsim Hlt') as (Hsim1 & Hdb & Hfb & Hk1 & Hi1 & Hub). set (b := freeblock k) in *.
    change (Mkfs.new_block k) with (b, (Mkfs.new_block k).2). set (k1 := (Mkfs.new_block k).2) in *. cbv iota beta.
    rewrite (xint_id b Hub). rewrite (xint_id b Hub). rewrite put_le_Ok by done. rewrite bind_ret.
    eexists _, _, (entered img_sb s (addrs !!! NDIRECT) (n - NDIRECT) b). split; [done|]. split.
    + apply sim_wsect; [done|done|done|lia|]. apply wf_block_inserts; [apply Hs|apply le_bytes_range].
    + by apply bmap_entry.
    + intros. lia.
    + change (freeblock k1 = b + takes s addrs n). rewrite Hk1. unfold takes. rewrite H0, decide_False by lia.
      rewrite (missing_ne (slot s addrs MAXFILE)) by done. done.
    + done.
  - assert (0 ≤ slot s addrs n < 2 ^ 32) as Hu.
    { destruct (iw_data _ _ _ _ Hw n) as [Hdn Hbn]; [lia|done|]. destruct (sim_data k s Hsim _ Hdn Hbn) as (Hxr & _). unfold FSSIZE in Hxr. lia. }
    rewrite (xint_id _ Hu). eexists _, _, _. split; [done|]. by apply fetched_found.
Qed.
End blocks.

Lemma file_block_spec k s addrs n :
  sim k s → iwf s addrs → (n < MAXFILE)%nat → freeblock k + takes s addrs n ≤ FSSIZE →
  ∃ x addrs' k' s', Mkfs.file_block (Z.of_nat n) addrs k = Ok (x, addrs', k') ∧ fetched k s k' s' addrs addrs' n x.
Proof.
  intros Hsim Hw Hn Hroom. pose proof (sim_base k s Hsim) as Hs. pose proof (iw_len _ _ _ _ Hw) as Hlen.
  assert (∀ i, (i ≤ NDIRECT)%nat → ∀ b, aset addrs (Z.of_nat i) b = Ok (<[i := b]> addrs)) as Hset by (intros; apply aset_nat; lia).
  unfold Mkfs.file_block. destruct (decide (n < NDIRECT)%nat) as [Hd|Hd].
  - rewrite decide_True by lia. destruct (addr_get k s addrs Hsim Hw n) as [Hg Hx]; [lia|]. rewrite Hg, bind_ret, Hx.
    assert (slot s addrs n = addrs !!! n) as Hsl by (unfold slot; by rewrite decide_True). rewrite <- Hsl. case_decide as H0.
    + unfold takes in Hroom. rewrite H0, decide_True in Hroom by done. change (missing 0) with 1 in Hroom.
      destruct (sim_new k s Hsim) as (Hsim1 & Hdb & Hfb & Hk1 & Hi1 & Hub); [lia|]. set (b := freeblock k) in *.
      change (Mkfs.new_block k) with (b, (Mkfs.new_block k).2). cbv iota beta. rewrite !(xint_id b Hub), Hset by lia. rewrite bind_ret.
      eexists _, _, _, (allocated img_sb s b). split; [done|]. pose proof (bmap_direct img_sb img_ds s addrs n b Hs Hw Hd H0 Hdb Hfb) as Hbm. split; [done|done| | |done].
      * intros _. rewrite !slot_indirect. apply list_lookup_total_insert_ne. lia.
      * rewrite Hk1. unfold takes. by rewrite H0, decide_True.
    + eexists _, _, _, _. split; [done|]. apply fetched_found; [done|done|done|lia].
  - rewrite decide_False by lia. destruct (addr_get k s addrs Hsim Hw NDIRECT) as [Hg Hx]; [lia|]. rewrite Hg, bind_ret, Hx. case_decide as H0.
    + assert (slot s addrs n = 0) as Hsl. { unfold slot. by rewrite !decide_False, decide_True by (done || lia). }
      assert (takes s addrs n = 2) as Ht. { unfold takes. rewrite Hsl, decide_False by lia. rewrite slot_indirect, H0. done. }
      destruct (sim_new k s Hsim) as (Hsim1 & Hdb & Hfb & Hk1 & Hi1 & Hub); [lia|]. set (b := freeblock k) in *.
      change (Mkfs.new_block k) with (b, (Mkfs.new_block k).2). set (k1 := (Mkfs.new_block k).2) in *. cbv iota beta.
      rewrite (xint_id b Hub), Hset by lia. rewrite !bind_ret.
      destruct (bmap_ind img_sb img_ds s addrs b) as (Hw1 & Hf1 & Hslot); try done. set (addrs1 := <[NDIRECT := b]> addrs) in *.
      assert (addrs1 !!! NDIRECT = b) as Hind by (apply list_lookup_total_insert_eq; lia). destruct (data_nonzero _ _ s b Hs Hdb) as (Hb0 & _).
      assert (takes (allocated img_sb s b) addrs1 n = 1) as Ht1.
      { unfold takes. rewrite Hslot, Hsl, decide_False by lia. rewrite slot_indirect, Hind, (missing_ne b) by done. done. }
      destruct (indirect_block_spec k1 (allocated img_sb s b) addrs1 n) as (x & k' & s' & -> & [? ? ? Hfr ?]); [done|done|done|lia|by rewrite Hind|lia|].
      eexists _, _, _, _. split; [done|]. split; [done|by apply (bmapped_ind img_sb img_ds s s' addrs n x b)|lia|lia|congruence].
    + rewrite bind_ret. destruct (indirect_block_spec k s addrs n) as (x & k' & s' & -> & Hfe); [done|done|done|lia|done|done|]. eauto 10.
Qed.

(** ** Appending *)

(** A file of [size] bytes has no more blocks than it needs, and zeros beyond its end. *)
Record clean s addrs (size : nat) : Prop := {
  cl_slot : ∀ n, (n < MAXFILE)%nat → slot s addrs n ≠ 0 → (n * BSIZE < size)%nat;
  cl_ind : slot s addrs MAXFILE ≠ 0 → (NDIRECT * BSIZE < size)%nat;
  cl_tail : ∀ o, (size ≤ o < MAXBYTES)%nat → slot s addrs (o / BSIZE) ≠ 0 → byte_at s addrs o = 0
}.

(** The number of blocks of such a file. *)
Definition nblk (n : nat) : Z := Z.of_nat ((n + (BSIZE - 1)) / BSIZE) + if decide (NDIRECT * BSIZE < n)%nat then 1 else 0.

Lemma nblk_mono n m : (n ≤ m)%nat → nblk n ≤ nblk m.
Proof.
  intros Hnm. unfold nblk. assert ((n + (BSIZE - 1)) / BSIZE ≤ (m + (BSIZE - 1)) / BSIZE)%nat by (apply Nat.Div0.div_le_mono; lia).
  repeat case_decide; lia.
Qed.

Lemma nblk_at q r : (r < BSIZE)%nat →
  nblk (BSIZE * q + r) = Z.of_nat q + (if decide (r = 0%nat) then 0 else 1) +
    if decide (NDIRECT < q ∨ q = NDIRECT ∧ r ≠ 0)%nat then 1 else 0.
Proof.
  intros Hr. unfold nblk. assert ((BSIZE * q + r + (BSIZE - 1)) / BSIZE = q + if decide (r = 0%nat) then 0 else 1)%nat as ->.
  { symmetry. case_decide as H0; [apply (Nat.div_unique _ _ _ (BSIZE - 1))|apply (Nat.div_unique _ _ _ (r - 1))]; unfold BSIZE in *; lia. }
  unfold NDIRECT, BSIZE in *. repeat case_decide; lia.
Qed.

Lemma nblk_chunk off m :
  (0 < m)%nat → (off mod BSIZE + m ≤ BSIZE)%nat →
  nblk (off + m) = nblk off + if decide (off mod BSIZE = 0)%nat then if decide (off / BSIZE = NDIRECT)%nat then 2 else 1 else 0.
Proof.
  intros H0 Hm. pose proof (Nat.div_mod_eq off BSIZE) as Hd. pose proof (Nat.mod_upper_bound off BSIZE) as Hu.
  set (q := (off / BSIZE)%nat) in *. set (r := (off mod BSIZE)%nat) in *. assert (r < BSIZE)%nat as Hr by (unfold BSIZE in *; lia). rewrite Hd, nblk_at by done.
  destruct (decide (r + m = BSIZE)%nat) as [He|He].
  - replace (BSIZE * q + r + m)%nat with (BSIZE * (q + 1) + 0)%nat by lia. rewrite nblk_at by lia. repeat case_decide; lia.
  - replace (BSIZE * q + r + m)%nat with (BSIZE * q + (r + m))%nat by lia. rewrite nblk_at by lia. repeat case_decide; lia.
Qed.

Lemma takes_chunk s addrs off m :
  covers s addrs off → clean s addrs off → (off < MAXBYTES)%nat → (0 < m)%nat → (off mod BSIZE + m ≤ BSIZE)%nat →
  takes s addrs (off / BSIZE) = nblk (off + m) - nblk off.
Proof.
  intros Hcv [Hsl Hi _] Hmax H0 Hm. rewrite nblk_chunk by done. set (q := (off / BSIZE)%nat) in *.
  assert (q < MAXFILE)%nat as Hq by (by apply block_range).
  pose proof (Nat.div_mod_eq off BSIZE) as Hd. fold q in Hd. set (r := (off mod BSIZE)%nat) in *.
  assert (missing (slot s addrs q) = if decide (r = 0%nat) then 1 else 0) as Hmq.
  { unfold missing. case_decide as Hs0; case_decide as Hr; [done| |specialize (Hsl q Hq Hs0); lia|done]. exfalso. revert Hs0. apply Hcv; [done|lia]. }
  unfold takes. rewrite Hmq. destruct (decide (q < NDIRECT)%nat) as [Hnd|Hnd].
  - rewrite (decide_False (P := q = NDIRECT)) by lia. repeat case_decide; lia.
  - assert (missing (slot s addrs MAXFILE) = if decide (r = 0%nat ∧ q = NDIRECT) then 1 else 0) as ->; [|repeat case_decide; lia].
    unfold missing. destruct (decide (slot s addrs MAXFILE = 0)) as [Hs0|Hs0], (decide (r = 0%nat ∧ q = NDIRECT)) as [Hc|Hc]; [reflexivity| | |reflexivity].
    + exfalso. assert (NDIRECT * BSIZE < off)%nat as Hlt by (unfold NDIRECT, BSIZE in *; lia).
      assert (slot s addrs NDIRECT ≠ 0) as Hne by (apply Hcv; [unfold NDIRECT, MAXFILE; lia|done]). apply Hne. unfold slot.
      rewrite decide_False, decide_False by (unfold NDIRECT, MAXFILE; lia). rewrite slot_indirect in Hs0. by rewrite decide_True.
    + specialize (Hi Hs0). destruct Hc as [-> ->]. lia.
Qed.

(** One turn of the loop. *)
Lemma clean_chunk k s k1 s1 addrs addrs' off d1 a :
  fetched k s k1 s1 addrs addrs' (off / BSIZE) a → iwf s addrs → sim k s → clean s addrs off →
  (0 < length d1)%nat → (off mod BSIZE + length d1 ≤ BSIZE)%nat → (off < MAXBYTES)%nat → Forall byte_range d1 →
  let s2 := lw a (list_inserts (off mod BSIZE) d1 (blk s1 a)) s1 in
  wrote s s2 addrs addrs' off d1 1 ∧ clean s2 addrs' (off + length d1).
Proof.
  intros [Hsim1 Hbd Hfi _ _] Hw Hsim Hcl H0 Hlen Hmax Hby s2. pose proof (sim_base _ _ Hsim) as Hs.
  assert (wrote s s2 addrs addrs' off d1 1) as Hwr by (by apply wrote_chunk). split; [done|].
  set (q := (off / BSIZE)%nat) in *. assert (q < MAXFILE)%nat as Hq by (by apply block_range).
  destruct (bd_slot _ _ _ _ _ _ _ _ Hbd) as [Ha Ha0].
  pose proof (Nat.div_mod_eq off BSIZE) as Hd. fold q in Hd.
  destruct (lw_owned img_sb img_ds s1 s2 addrs' q (list_inserts (off mod BSIZE) d1 (blk s1 a))) as (Hslot & _);
    [apply (if_base _ _ _ _ _ _ (bd_frame _ _ _ _ _ _ _ _ Hbd))|apply Hbd|done|by rewrite Ha| |by rewrite Ha|].
  { apply wf_block_inserts; [|done]. apply (if_base _ _ _ _ _ _ (bd_frame _ _ _ _ _ _ _ _ Hbd)). }
  assert (∀ n, (n < MAXFILE)%nat → slot s2 addrs' n ≠ 0 → (n * BSIZE < off + length d1)%nat) as Hcs.
  { intros n Hn Hne. destruct (decide (n = q)) as [->|Hnq]; [lia|]. rewrite Hslot, (bd_others _ _ _ _ _ _ _ _ Hbd) in Hne by done.
    pose proof (cl_slot _ _ _ Hcl n Hn Hne). lia. }
  split; [done| |].
  - rewrite Hslot. intros Hne. destruct (decide (q < NDIRECT)%nat) as [Hqd|Hqd]; [|unfold NDIRECT, BSIZE in *; lia].
    rewrite Hfi in Hne by done. pose proof (cl_ind _ _ _ Hcl Hne). lia.
  - intros o Ho Hne. assert (o / BSIZE < MAXFILE)%nat as Hqo by (apply block_range; lia).
    pose proof (Hcs (o / BSIZE)%nat Hqo Hne) as Hb. pose proof (Nat.div_mod_eq o BSIZE) as Hdo. pose proof (Nat.mod_upper_bound o BSIZE).
    assert (o / BSIZE = q)%nat as Heq by (unfold BSIZE in *; lia).
    destruct (decide (slot s addrs q = 0)) as [Hz|Hz].
    + unfold byte_at. rewrite Heq, Hslot, Ha. unfold s2. rewrite blk_lw_eq, (bd_new _ _ _ _ _ _ _ _ Hbd Hz).
      rewrite list_lookup_total_alt, list_lookup_inserts_ge by (rewrite Heq in Hdo; lia). unfold zero_block. by rewrite lookup_replicate_2 by (unfold BSIZE in *; lia).
    + rewrite (wr_out _ _ _ _ _ _ _ _ _ Hwr) by (done || lia || by rewrite Heq). apply (cl_tail _ _ _ Hcl); [lia|by rewrite Heq].
Qed.

Record appended k s k' s' addrs addrs' (off : nat) (p : list Z) : Prop := {
  ap_sim : sim k' s';
  ap_wrote : ∃ c, wrote s s' addrs addrs' off p c;
  ap_covers : covers s' addrs' (off + length p);
  ap_clean : clean s' addrs' (off + length p);
  ap_free : freeblock k' = freeblock k + (nblk (off + length p) - nblk off);
  ap_ino : freeinode k' = freeinode k
}.

Lemma iappend_loop_spec fuel k s addrs off p :
  sim k s → iwf s addrs → covers s addrs off → clean s addrs off → Forall byte_range p → (off + length p ≤ MAXBYTES)%nat →
  (length p ≤ fuel)%nat → freeblock k + (nblk (off + length p) - nblk off) ≤ FSSIZE →
  ∃ addrs' k' s', Mkfs.iappend_loop fuel p (Z.of_nat off) addrs k = Ok (Z.of_nat (off + length p), addrs', k') ∧
    appended k s k' s' addrs addrs' off p.
Proof.
  revert k s addrs off p. induction fuel as [|fuel IH]; intros k s addrs off p Hsim Hw Hcv Hcl Hp Hmax Hfuel Hroom.
  - destruct p; [|cbn in Hfuel; lia]. eexists _, _, _. cbn [length]. rewrite Nat.add_0_r in *. split; [reflexivity|].
    split; [done|exists 0%nat; apply wrote_nil; [by eapply sim_base|done]|by rewrite Nat.add_0_r..| |done]. rewrite Nat.add_0_r. lia.
  - cbn [Mkfs.iappend_loop]. case_decide as Hlt.
    2: { destruct p; [|cbn in Hlt; lia]. eexists _, _, _. cbn [length]. rewrite Nat.add_0_r in *. split; [reflexivity|].
         split; [done|exists 0%nat; apply wrote_nil; [by eapply sim_base|done]|by rewrite Nat.add_0_r..| |done]. rewrite Nat.add_0_r. lia. }
    rewrite div_BSIZE. assert (off < MAXBYTES)%nat as Hoff by lia.
    assert (off / BSIZE < MAXFILE)%nat as Hq by (by apply block_range). rewrite decide_True by lia.
    set (m := chunk off (length p)). destruct (chunk_bounds off (length p)) as [Hm1 Hm2]; [lia|]. fold m in Hm1, Hm2.
    pose proof (takes_chunk s addrs off m Hcv Hcl Hoff ltac:(lia) Hm2) as Htk. pose proof (nblk_mono (off + m) (off + length p) ltac:(lia)).
    destruct (file_block_spec k s addrs (off / BSIZE)) as (x & addrs1 & k1 & s1 & -> & Hfe); [done|done|done|lia|]. rewrite bind_ret.
    pose proof Hfe as [Hsim1 Hbd _ Hfree1 Hino1]. destruct (bd_slot _ _ _ _ _ _ _ _ Hbd) as [Hx Hx0].
    destruct (iw_data _ _ _ _ (bd_wf _ _ _ _ _ _ _ _ Hbd) (off / BSIZE)) as [Hdx Hbx]; [lia|by rewrite Hx|]. rewrite Hx in Hdx, Hbx.
    destruct (sim_data k1 s1 Hsim1 x Hdx Hbx) as (Hxr & Hxl & Hxb). rewrite (sim_rsect k1 s1) by done. rewrite bind_ret.
    pose proof (Nat.div_mod_eq off BSIZE) as Hdm.
    assert (Z.min (Z.of_nat (length p)) (u32 ((Z.of_nat (off / BSIZE) + 1) * Z.of_nat BSIZE - Z.of_nat off)) = Z.of_nat m) as ->.
    { rewrite u32_small by (pose proof (Nat.mod_upper_bound off BSIZE); unfold MAXBYTES, MAXFILE, BSIZE in *; lia). unfold m, chunk. lia. }
    rewrite Nat2Z.id. replace (Z.of_nat off - Z.of_nat (off / BSIZE) * Z.of_nat BSIZE) with (Z.of_nat (off mod BSIZE)) by lia.
    assert (length (take m p) = m) as Hlm by (rewrite length_take; lia).
    rewrite bstore_Ok by (rewrite Hlm, (proj1 (sm_wf _ _ Hsim1 _)); done). rewrite bind_ret.
    rewrite u32_small by (unfold MAXBYTES, MAXFILE, BSIZE in *; lia). rewrite <- Nat2Z.inj_add.
    destruct (clean_chunk k s k1 s1 addrs addrs1 off (take m p) x) as [Hwr Hcl2]; [done|done|done|done|lia|lia|done|by apply Forall_take|].
    set (s2 := lw x _ s1) in *. rewrite Hlm in Hcl2.
    assert (sim (Mkfs.wsect x (list_inserts (off mod BSIZE) (take m p) (blk s1 x)) k1) s2) as Hsim2.
    { apply sim_wsect; [done|done|done|done|]. apply wf_block_inserts; [apply Hsim1|by apply Forall_take]. }
    pose proof (covers_wrote img_sb img_ds s s2 addrs addrs1 off (take m p) off 1 Hwr Hcv ltac:(lia) ltac:(lia)) as Hcv2.
    rewrite Hlm, Nat.max_r in Hcv2 by lia. set (k2 := Mkfs.wsect x _ k1) in *.
    assert (length (drop m p) = length p - m)%nat as Hld by apply length_drop.
    destruct (IH k2 s2 addrs1 (off + m)%nat (drop m p)) as (addrs' & k' & s' & Hl & [H1 [c Hwr3] H3 H4 H5 H6]);
      [done|apply Hwr|done|done|by apply Forall_drop|lia|lia| |].
    { change (freeblock k2) with (freeblock k1). rewrite Hfree1, Htk, Hld. replace (off + m + (length p - m))%nat with (off + length p)%nat by lia. lia. }
    rewrite Hld in *. replace (off + m + (length p - m))%nat with (off + length p)%nat in * by lia.
    eexists _, _, _. split; [exact Hl|]. split; [done| |done|done| |].
    + exists (1 + c)%nat. rewrite <- (take_drop m p) at 1. eapply wrote_trans; [|exact Hwr|]; rewrite Hlm; [lia|done].
    + rewrite H5. change (freeblock k2) with (freeblock k1). lia.
    + rewrite H6. done.
Qed.
