(* ===== verification/MkfsInv.v ===== *)
(** * The files of the image under construction

    [minv k s]: besides [sim], the file system [s] is consistent, its files
    are the inodes below [freeinode], and none has a block too many.  [ialloc],
    [iappend] and the correction of the size of the root keep it. *)

From stdpp Require Import gmap.
From S2P Require Import Prelude.
From S2P Require Import Bytes.
From S2P Require Import Mkfs.
From S2P Require Import Log.
From S2P Require Import Fs.
From S2P Require Import FsSpec.
From S2P Require Import FileSpec.
From S2P Require Import FileRw.
From S2P Require Import InodeSpec.
From S2P Require Import TruncSpec.
From S2P Require Import FsInv.
From S2P Require Import FsOps.
From S2P Require Import DirSpec.
From S2P Require Import FsImage.
From S2P Require Import MkfsSpec.

Local Open Scope Z_scope.

Notation inode_no := (inode_no img_sb).
Notation dino := (dino img_sb).
Notation put := (put img_sb).
Notation ifile := (file img_sb).
Notation disk_inv := (disk_inv img_sb img_ds).
Notation update := (update img_sb img_ds).

Implicit Types (k : mkst) (s : fstate) (b inum : Z) (d : block) (addrs : list Z) (f : afile) (di : dinode).

(** ** Inodes on the image *)

Lemma inode_block inum : inode_no inum → 2 ≤ IBLOCK inum img_sb < sb_bmapstart img_sb ∧ 0 ≤ IBLOCK inum img_sb < FSSIZE.
Proof. intros Hi. destruct (IBLOCK_range img_sb img_ds inum image_layout Hi) as (_ & ? & ?). lia. Qed.

Lemma rinode_spec k s inum : sim k s → inode_no inum → Mkfs.rinode inum k = Ok (dino s inum).
Proof.
  intros Hsim Hi. destruct (inode_block inum Hi) as [? ?]. unfold Mkfs.rinode. rewrite sb_img, (sim_rsect k s) by (done || lia).
  rewrite bind_ret. apply get_dinode_Ok. apply Hsim.
Qed.

Lemma winode_spec k s inum di :
  sim k s → inode_no inum → wf_dinode di →
  ∃ k', Mkfs.winode inum di k = Ok k' ∧ sim k' (put s inum di) ∧ freeblock k' = freeblock k ∧ freeinode k' = freeinode k.
Proof.
  intros Hsim Hi Hdi. destruct (inode_block inum Hi) as [? ?]. pose proof (sm_free _ _ Hsim). unfold img_ds in *. cbn in *.
  unfold Mkfs.winode. rewrite sb_img, (sim_rsect k s) by (done || cbn; lia). rewrite bind_ret, put_dinode_Ok by (done || apply Hsim). rewrite bind_ret.
  eexists. split; [done|]. split; [|done]. apply sim_wsect; [done|done|cbn; lia|cbn; lia|].
  apply wf_block_inserts; [apply Hsim|apply encode_bytes].
Qed.

(** ** The invariant *)

Record minv k s : Prop := {
  mv_sim : sim k s;
  mv_inv : disk_inv s;
  mv_next : 1 ≤ freeinode k ≤ Mkfs.NINODES;
  mv_ino : ∀ j, inode_no j → di_type (dino s j) ≠ 0 ↔ j < freeinode k;
  mv_clean : ∀ j, inode_no j → j < freeinode k → clean s (di_addrs (dino s j)) (dsize (dino s j));
  mv_head : ∀ b, 0 ≤ b < sb_inodestart img_sb → blk s b = if decide (b = 1) then Mkfs.sb_block else zero_block
}.

Lemma clean_same s s' addrs size :
  (∀ n, slot s' addrs n = slot s addrs n) → (∀ b, owns s addrs b → blk s' b = blk s b) → clean s addrs size → clean s' addrs size.
Proof.
  intros Hsl Hb [H1 H2 H3]. split; [intros n; rewrite Hsl; apply H1|rewrite Hsl; apply H2|]. intros o Ho. rewrite Hsl. intros Hne.
  rewrite <- (H3 o Ho Hne). unfold byte_at. rewrite Hsl, Hb; [done|]. apply owns_slot; [|done]. apply Nat.lt_le_incl, block_range. lia.
Qed.

(** One file changes, or the first one that does not exist is made. *)
Section change.
Context (k k' : mkst) (s s1 : fstate) (inum : Z) (addrs' : list Z) (di : dinode).
Hypothesis (Hmv : minv k s) (Hup : update s s1 inum addrs' di) (Hsim : sim k' (put s1 inum di)).
Hypothesis (Hty : di_type di ≠ 0) (Hcl : clean s1 addrs' (dsize di)).
Hypothesis Hnext : freeinode k' = freeinode k ∧ inum < freeinode k ∨ freeinode k' = freeinode k + 1 ∧ inum = freeinode k.

Let s' := put s1 inum di.

Lemma change_written : written img_sb img_ds s1 s' inum di.
Proof using Hup. apply written_put; [apply (if_base _ _ _ _ _ _ (up_frame _ _ _ _ _ _ _ Hup))|apply Hup|apply Hup]. Qed.

Lemma change_addrs : addrs' = di_addrs di.
Proof using Hup Hty. pose proof (up_addrs _ _ _ _ _ _ _ Hup) as H. by rewrite decide_False in H. Qed.

Lemma change_clean j : inode_no j → j < freeinode k' → clean s' (di_addrs (dino s' j)) (dsize (dino s' j)).
Proof using Hmv Hup Hty Hcl Hnext.
  intros Hj Hlt. pose proof (mv_inv _ _ Hmv) as Hinv. pose proof change_written as Hwn. pose proof (wn_data _ _ _ _ _ _ Hwn) as Hsd.
  destruct (decide (j = inum)) as [->|Hne].
  - rewrite (wn_self _ _ _ _ _ _ Hwn), <- change_addrs. apply (clean_same s1); [| |done].
    + intros n. apply (same_slot img_sb img_ds s1 s' Hsd). apply Hup.
    + intros b Hb. apply (sd_blk _ _ _ _ Hsd). apply (owns_data img_sb img_ds s1 addrs'); [apply Hup|done].
  - rewrite (update_other img_sb img_ds s s1 s' inum addrs' di Hinv Hup Hwn) by done.
    assert (j < freeinode k) as Hlt' by lia. pose proof (mv_clean _ _ Hmv j Hj Hlt') as Hc.
    assert (addrs_of img_sb s j = di_addrs (dino s j)) as Ha. { unfold addrs_of. rewrite decide_False; [done|]. by apply (mv_ino _ _ Hmv). }
    destruct (update_iwf_other img_sb img_ds s s1 inum addrs' di Hinv Hup j) as [Hwj Hsl]; [done..|]. rewrite Ha in *.
    apply (clean_same s); [| |done].
    + intros n. rewrite (same_slot img_sb img_ds s1 s' Hsd) by done. apply Hsl.
    + intros b Hb. rewrite (sd_blk _ _ _ _ Hsd).
      * apply (update_blk img_sb img_ds s s1 inum addrs' di Hinv Hup j); [done|done|by rewrite Ha].
      * apply (owns_data img_sb img_ds s (di_addrs (dino s j))); [|done]. rewrite <- Ha. by apply Hinv.
Qed.

Lemma change_head b : 0 ≤ b < sb_inodestart img_sb → blk s' b = if decide (b = 1) then Mkfs.sb_block else zero_block.
Proof using Hmv Hup.
  intros Hb. rewrite <- (mv_head _ _ Hmv b Hb). pose proof (up_no _ _ _ _ _ _ _ Hup) as Hno.
  destruct (IBLOCK_range img_sb img_ds inum image_layout Hno) as (Hi & _). pose proof (Z.div_pos inum IPB) as Hp. unfold IPB, InodeSpec.inode_no in *.
  unfold s'. rewrite put_blk by lia. apply (if_meta _ _ _ _ _ _ (up_frame _ _ _ _ _ _ _ Hup)); cbn in *; unfold img_ds; lia.
Qed.

Lemma change_spec :
  freeinode k' ≤ Mkfs.NINODES → minv k' s' ∧ ifile s' inum = Some (mkafile (di_type di) (di_major di) (di_minor di) (di_nlink di) (range s1 addrs' 0 (dsize di))) ∧
  ∀ j, inode_no j → j ≠ inum → ifile s' j = ifile s j.
Proof using Hmv Hup Hsim Hty Hcl Hnext.
  intros Hmax. pose proof (mv_inv _ _ Hmv) as Hinv. pose proof change_written as Hwn. pose proof (mv_next _ _ Hmv) as Hn1. split_and!.
  - split; [done|by eapply update_inv|lia| |exact change_clean|exact change_head].
    intros j Hj. destruct (decide (j = inum)) as [->|Hne].
    + rewrite (wn_self _ _ _ _ _ _ Hwn). split; [lia|done].
    + rewrite (update_other img_sb img_ds s s1 s' inum addrs' di Hinv Hup Hwn), (mv_ino _ _ Hmv) by done. lia.
  - rewrite (update_file_self img_sb img_ds s s1 s' inum addrs' di Hinv Hup Hwn). by rewrite decide_False.
  - intros j Hj Hne. by apply (update_file img_sb img_ds s s1 s' inum addrs' di Hinv Hup Hwn).
Qed.
End change.

(** ** The operations *)

Lemma sim_freeinode k s n : sim k s → sim (k <| Mkfs.k_freeinode := n |>) s.
Proof. intros [? ? ? ? ? ?]. by split. Qed.

Lemma mk_ialloc_spec k s type :
  minv k s → freeinode k < Mkfs.NINODES → 0 < type < 2 ^ 15 →
  ∃ k' s', Mkfs.ialloc type k = Ok (freeinode k, k') ∧ minv k' s' ∧ freeinode k' = freeinode k + 1 ∧ freeblock k' = freeblock k ∧
    ifile s' (freeinode k) = Some (mkafile type 0 0 1 []) ∧ ∀ j, inode_no j → j ≠ freeinode k → ifile s' j = ifile s j.
Proof.
  intros Hmv Hlt Hty. pose proof (mv_next _ _ Hmv) as Hnx. unfold Mkfs.NINODES in *. set (inum := freeinode k) in *.
  assert (inode_no inum) as Hno by (unfold InodeSpec.inode_no; cbn; lia).
  unfold Mkfs.ialloc. fold inum. rewrite (u32_small (inum + 1)) by lia.
  assert (Mkfs.xshort type = type) as -> by (apply (le_val_bytes 2); cbn; lia). change (Mkfs.xshort 1) with 1. change (Mkfs.xint 0) with 0.
  change (replicate (S NDIRECT) 0) with zero_addrs. set (di := mkdinode type 0 0 1 0 zero_addrs).
  assert (wf_dinode di) as Hwf.
  { split; try done; [unfold short; cbn; lia|]. change (Forall uint (replicate (S NDIRECT) 0)). by apply Forall_replicate. }
  set (k0 := k <| Mkfs.k_freeinode := inum + 1 |>). pose proof (sim_freeinode k s (inum + 1) (mv_sim _ _ Hmv)) as Hsim0. fold k0 in Hsim0.
  destruct (winode_spec k0 s inum di Hsim0 Hno Hwf) as (k' & -> & Hsim & Hfb & Hfi). rewrite bind_ret.
  pose proof (mv_inv _ _ Hmv) as Hinv. assert (di_type (dino s inum) = 0) as Ht0.
  { destruct (decide (di_type (dino s inum) = 0)) as [|Hne]; [done|]. apply (mv_ino _ _ Hmv) in Hne; [unfold inum in Hne; lia|done]. }
  assert (addrs_of img_sb s inum = zero_addrs) as Ha by (unfold addrs_of; by rewrite decide_True).
  assert (update s s inum zero_addrs di) as Hup.
  { split; [done|rewrite Ha; apply iframe_refl; [apply Hinv|apply iwf_zero]|apply iwf_zero|done| |].
    - rewrite decide_False; [done|]. cbn. lia.
    - intros _. change (dsize di) with 0%nat. split; [apply Nat.le_0_l|]. intros n _ Hn. lia. }
  assert (clean s zero_addrs 0) as Hcl.
  { split.
    - intros n Hn Hne. rewrite slot_zero in Hne by lia. done.
    - intros Hne. by rewrite slot_zero in Hne.
    - intros o Ho Hne. rewrite slot_zero in Hne; [done|]. apply Nat.lt_le_incl, block_range. lia. }
  destruct (change_spec k k' s s inum zero_addrs di Hmv Hup Hsim) as (Hmv' & Hf & Hoth); [cbn; lia|done|right; done|by rewrite Hfi; cbn; unfold Mkfs.NINODES; lia|].
  exists k', (put s inum di). split_and!; [done|done|done|done|exact Hf|done].
Qed.

(** A file in the image and its addresses. *)
Lemma minv_file k s inum f :
  minv k s → inode_no inum → ifile s inum = Some f →
  inum < freeinode k ∧ addrs_of img_sb s inum = di_addrs (dino s inum) ∧ dsize (dino s inum) = length (af_data f) ∧ (length (af_data f) ≤ MAXBYTES)%nat ∧
  iwf s (di_addrs (dino s inum)) ∧ covers s (di_addrs (dino s inum)) (length (af_data f)) ∧ clean s (di_addrs (dino s inum)) (length (af_data f)) ∧
  di_size (dino s inum) = Z.of_nat (length (af_data f)) ∧ wf_dinode (dino s inum) ∧ di_type (dino s inum) ≠ 0 ∧
  f = mkafile (di_type (dino s inum)) (di_major (dino s inum)) (di_minor (dino s inum)) (di_nlink (dino s inum)) (range s (di_addrs (dino s inum)) 0 (length (af_data f))).
Proof.
  intros Hmv Hno Hf. pose proof (mv_inv _ _ Hmv) as Hinv. unfold file in Hf. case_decide as Ht; [done|]. injection Hf as <-. cbn [af_data]. rewrite range_length.
  assert (inum < freeinode k) as Hlt by (by apply (mv_ino _ _ Hmv)).
  assert (addrs_of img_sb s inum = di_addrs (dino s inum)) as Ha by (unfold addrs_of; by rewrite decide_False).
  destruct (di_sizes _ _ _ Hinv inum Hno Ht) as [Hsz Hcv]. pose proof (dino_wf img_sb s inum (sm_wf _ _ (mv_sim _ _ Hmv))) as Hwf.
  split_and!; [done|done|done|done|rewrite <- Ha; by apply Hinv|done|by apply (mv_clean _ _ Hmv)| |done|done|done].
  unfold dsize. rewrite Z2Nat.id; [done|]. pose proof (wd_size _ Hwf). unfold uint in *. lia.
Qed.

Lemma overwrite_end p c : overwrite (length c) p c = c ++ p.
Proof. unfold overwrite. rewrite take_ge, drop_ge, app_nil_r by lia. done. Qed.

(** An inode with other addresses and size is well formed. *)
Definition resized di (size : nat) addrs : dinode := mkdinode (di_type di) (di_major di) (di_minor di) (di_nlink di) (Z.of_nat size) addrs.
Lemma resized_wf s di size addrs :
  base s → iwf s addrs → wf_dinode di → (size ≤ MAXBYTES)%nat → wf_dinode (resized di size addrs).
Proof. intros Hs Hw [? ? ? ? ? ? ?] Hsz. split; try done; [by apply uint_size|apply Hw|by apply (iwf_uint img_sb img_ds s)]. Qed.
Lemma resized_dsize di size addrs : dsize (resized di size addrs) = size.
Proof. unfold dsize. cbn [resized di_size]. lia. Qed.

(** Storing a file whose blocks are in place. *)
Lemma store_inode k k1 s s1 inum f addrs' size :
  minv k s → inode_no inum → ifile s inum = Some f → (size ≤ MAXBYTES)%nat →
  iframe img_sb img_ds s s1 (di_addrs (dino s inum)) addrs' → iwf s1 addrs' → covers s1 addrs' size → clean s1 addrs' size →
  sim k1 s1 → freeinode k1 = freeinode k →
  ∃ k' s', Mkfs.winode inum (resized (dino s inum) size addrs') k1 = Ok k' ∧ minv k' s' ∧ freeinode k' = freeinode k ∧ freeblock k' = freeblock k1 ∧
    ifile s' inum = Some (set_data (range s1 addrs' 0 size) f) ∧ ∀ j, inode_no j → j ≠ inum → ifile s' j = ifile s j.
Proof.
  intros Hmv Hno Hf Hsz Hfr Hw Hcv Hcl Hsim Hfi. destruct (minv_file k s inum f Hmv Hno Hf) as (Hlt & Ha & _ & _ & _ & _ & _ & _ & Hwf & Hty & Hfeq).
  pose proof (resized_wf s1 (dino s inum) size addrs' (sim_base _ _ Hsim) Hw Hwf Hsz) as Hwf'.
  destruct (winode_spec k1 s1 inum _ Hsim Hno Hwf') as (k' & Hwi & Hsim' & Hfb' & Hfi').
  assert (update s s1 inum addrs' (resized (dino s inum) size addrs')) as Hup.
  { split; [done|by rewrite Ha|done|done|by rewrite decide_False|]. intros _. by rewrite resized_dsize. }
  pose proof (mv_next _ _ Hmv) as Hnx.
  destruct (change_spec k k' s s1 inum addrs' _ Hmv Hup Hsim') as (Hmv' & Hf' & Hoth); [done|by rewrite resized_dsize|left; lia|lia|].
  exists k', (put s1 inum (resized (dino s inum) size addrs')). split_and!; [done|done|congruence|done| |done].
  rewrite Hf', resized_dsize, Hfeq. done.
Qed.

Lemma iappend_spec k s inum f p :
  minv k s → inode_no inum → ifile s inum = Some f → Forall byte_range p → (length (af_data f) + length p ≤ MAXBYTES)%nat →
  freeblock k + (nblk (length (af_data f) + length p) - nblk (length (af_data f))) ≤ FSSIZE →
  ∃ k' s', Mkfs.iappend inum p k = Ok k' ∧ minv k' s' ∧ freeinode k' = freeinode k ∧
    freeblock k' = freeblock k + (nblk (length (af_data f) + length p) - nblk (length (af_data f))) ∧
    ifile s' inum = Some (set_data (af_data f ++ p) f) ∧ ∀ j, inode_no j → j ≠ inum → ifile s' j = ifile s j.
Proof.
  intros Hmv Hno Hf Hp Hmax Hroom. pose proof (mv_sim _ _ Hmv) as Hsim.
  destruct (minv_file k s inum f Hmv Hno Hf) as (Hlt & Ha & _ & _ & Hw & Hcv & Hcl & Hsz & Hwf & _ & Hfeq). set (off := length (af_data f)) in *.
  unfold Mkfs.iappend. rewrite (rinode_spec k s inum Hsim Hno), bind_ret, Hsz.
  assert (∀ n, (n ≤ MAXBYTES)%nat → Mkfs.xint (Z.of_nat n) = Z.of_nat n) as Hx by (intros n Hn; by apply xint_id, uint_size).
  rewrite Hx by lia. destruct (iappend_loop_spec (length p) k s (di_addrs (dino s inum)) off p) as (addrs' & k1 & s1 & -> & [Hsim1 [c Hwr] Hcv1 Hcl1 Hfb1 Hfi1]); [done..|].
  rewrite bind_ret, Hx by lia.
  destruct (store_inode k k1 s s1 inum f addrs' (off + length p)) as (k' & s' & Hwi & Hmv' & Hfi & Hfb & Hf' & Hoth); [done|done|done|done|apply Hwr|apply Hwr|done..|].
  exists k', s'. split_and!; [exact Hwi|done|done|congruence| |done]. rewrite Hf'. do 2 f_equal.
  pose proof (overwrite_range img_sb img_ds s s1 _ addrs' off p off c Hwr Hcv ltac:(lia) ltac:(lia) Hmax) as Hov. rewrite Nat.max_r in Hov by lia.
  rewrite Hov. assert (range s (di_addrs (dino s inum)) 0 off = af_data f) as -> by (symmetry; exact (f_equal af_data Hfeq)). apply overwrite_end.
Qed.

(** The size [((off/BSIZE) + 1) * BSIZE]. *)
Definition round_up (n : nat) : nat := ((n / BSIZE + 1) * BSIZE)%nat.

Lemma fix_root_spec k s inum f :
  minv k s → inode_no inum → ifile s inum = Some f → (length (af_data f) mod BSIZE ≠ 0)%nat → (round_up (length (af_data f)) ≤ MAXBYTES)%nat →
  ∃ k' s', Mkfs.fix_root inum k = Ok k' ∧ minv k' s' ∧ freeinode k' = freeinode k ∧ freeblock k' = freeblock k ∧
    ifile s' inum = Some (set_data (af_data f ++ replicate (round_up (length (af_data f)) - length (af_data f)) 0) f) ∧
    ∀ j, inode_no j → j ≠ inum → ifile s' j = ifile s j.
Proof.
  intros Hmv Hno Hf Hmod Hmax. pose proof (mv_sim _ _ Hmv) as Hsim.
  destruct (minv_file k s inum f Hmv Hno Hf) as (Hlt & Ha & _ & _ & Hw & Hcv & Hcl & Hsz & Hwf & _ & Hfeq). set (off := length (af_data f)) in *.
  pose proof (Nat.div_mod_eq off BSIZE) as Hdm. pose proof (Nat.mod_upper_bound off BSIZE) as Hub.
  assert (off < round_up off)%nat as Hru by (unfold round_up, BSIZE in *; lia).
  unfold Mkfs.fix_root. rewrite (rinode_spec k s inum Hsim Hno), bind_ret, Hsz.
  assert (∀ n, (n ≤ MAXBYTES)%nat → Mkfs.xint (Z.of_nat n) = Z.of_nat n) as Hx by (intros n Hn; by apply xint_id, uint_size).
  rewrite Hx by lia. rewrite div_BSIZE. replace ((Z.of_nat (off / BSIZE) + 1) * Z.of_nat BSIZE) with (Z.of_nat (round_up off)) by (unfold round_up; lia).
  rewrite u32_small by (apply uint_size; done). rewrite Hx by done. set (addrs := di_addrs (dino s inum)) in *.
  assert (covers s addrs (round_up off)) as Hcv'.
  { intros n Hn Hlt'. apply Hcv; [done|]. unfold round_up in Hlt'. assert (n ≤ off / BSIZE)%nat by (unfold BSIZE in *; nia). unfold BSIZE in *. nia. }
  assert (clean s addrs (round_up off)) as Hcl'.
  { destruct Hcl as [H1 H2 H3]. split; [intros n Hn Hne; specialize (H1 n Hn Hne); lia|intros Hne; specialize (H2 Hne); lia|].
    intros o Ho. apply H3. lia. }
  destruct (store_inode k k s s inum f addrs (round_up off)) as (k' & s' & Hwi & Hmv' & Hfi & Hfb & Hf' & Hoth); [done|done|done|done| |done..|].
  { apply iframe_refl; [by eapply sim_base|done]. }
  exists k', s'. split_and!; [exact Hwi|done|done|done| |done]. rewrite Hf'. do 2 f_equal.
  replace (round_up off) with (off + (round_up off - off))%nat at 1 by lia. rewrite range_app. f_equal; [symmetry; exact (f_equal af_data Hfeq)|].
  apply list_eq_same_length with (round_up off - off)%nat; [by rewrite length_replicate|by rewrite range_length|]. intros i x y Hi Hx1 Hy1.
  rewrite range_lookup in Hx1 by done. apply lookup_replicate in Hy1 as [-> _]. injection Hx1 as <-.
  apply (cl_tail _ _ _ Hcl); [lia|]. apply Hcv'; [apply block_range; lia|]. pose proof (Nat.Div0.mul_div_le (off + i) BSIZE). lia.
Qed.
