(* ===== verification/MkfsTree.v ===== *)
(** * The root directory of the image

    The root is a sequence of entries without gaps; appending an entry adds a
    name, and the zeros up to the end of the last block add none. *)

From stdpp Require Import gmap functions.
From S2P Require Import Prelude.
From S2P Require Import Bytes.
From S2P Require Import CString.
From S2P Require Import Mkfs.
From S2P Require Import Log.
From S2P Require Import Fs.
From S2P Require Import FsDir.
From S2P Require Import FsSpec.
From S2P Require Import FileSpec.
From S2P Require Import FileRw.
From S2P Require Import InodeSpec.
From S2P Require Import FsInv.
From S2P Require Import FsOps.
From S2P Require Import DirSpec.
From S2P Require Import FsImage.
From S2P Require Import FsRules.
From S2P Require Import Links.
From S2P Require Import DirMap.
From S2P Require Import Tree.
From S2P Require Import MkfsSpec.
From S2P Require Import MkfsInv.

Local Open Scope Z_scope.

Implicit Types (data e nm : list Z) (inum d j : Z) (F : Z → option afile) (f : afile).

(** ** Entries *)

Lemma mkdirent_fields inum nm :
  0 ≤ inum < 2 ^ 16 → Forall (λ c, c ≠ 0) nm →
  length (Mkfs.mkdirent inum nm) = DIRENT ∧ dent_inum (Mkfs.mkdirent inum nm) = inum ∧ dent_name (Mkfs.mkdirent inum nm) = take DIRSIZ nm.
Proof.
  intros Hi Hnm. assert (cstr (nm ++ [0]) = nm) as Hc by (rewrite cstr_app by done; apply app_nil_r).
  assert (u16 inum = inum) as Hu by (apply Z.mod_small; done).
  assert (Mkfs.xshort inum = u16 inum) as Hx by (rewrite Hu; by apply (le_val_bytes 2)).
  pose proof (dirent_fields inum (nm ++ [0]) _ eq_refl) as Hf. unfold dname in Hf. rewrite Hc, Hu in Hf. unfold Mkfs.mkdirent. rewrite Hx, Hu. unfold dirent in Hf. by rewrite Hu in Hf.
Qed.

Lemma mkdirent_bytes inum nm : Forall byte_range nm → Forall byte_range (Mkfs.mkdirent inum nm).
Proof. intros Hnm. unfold Mkfs.mkdirent. rewrite !Forall_app. split_and!; [apply le_bytes_range|by apply Forall_take|by apply Forall_replicate]. Qed.

(** No entry of the directory is free. *)
Definition gapless data : Prop := ∀ k, (k < nentries data)%nat → dent_inum (entry data k) ≠ 0.

Lemma gapless_free data : gapless data → dfree data (nentries data) 0 = nentries data.
Proof.
  intros Hf. destruct (dfree_spec data (nentries data) 0) as (Hle & Hz & _). destruct (decide (dfree data (nentries data) 0 < nentries data)%nat) as [Hlt|]; [|lia].
  by destruct (Hf _ Hlt), Hz.
Qed.

Lemma gapless_append data e : whole data → gapless data → with_entry e data = data ++ e.
Proof. intros Hw Hf. unfold with_entry. rewrite gapless_free by done. rewrite <- Hw. apply overwrite_end. Qed.

Lemma gapless_add data e : whole data → gapless data → length e = DIRENT → dent_inum e ≠ 0 → gapless (data ++ e).
Proof.
  intros Hw Hf He Hi k. rewrite <- (gapless_append data e) by done. rewrite (proj1 (add_nentries data e Hw He)). intros Hk.
  rewrite (add_entry data e Hw He) by done. rewrite gapless_free in * by done. case_decide; [done|]. apply Hf. lia.
Qed.

(** ** The zeros at the end *)

Lemma entry_pad data n k :
  whole data → entry (data ++ replicate (DIRENT * n) 0) k =
  if decide (k < nentries data)%nat then entry data k else slice (DIRENT * (k - nentries data)) DIRENT (replicate (DIRENT * n) 0).
Proof.
  intros Hw. unfold entry. unfold whole in Hw. case_decide as Hk.
  - apply slice_app_l. rewrite Hw. unfold DIRENT. lia.
  - rewrite slice_app_r by (rewrite Hw; unfold DIRENT; lia). f_equal. rewrite Hw. unfold DIRENT. lia.
Qed.

Lemma nentries_pad data n : whole data → nentries (data ++ replicate (DIRENT * n) 0) = (nentries data + n)%nat ∧ whole (data ++ replicate (DIRENT * n) 0).
Proof.
  intros Hw. assert (length (data ++ replicate (DIRENT * n) 0) = (DIRENT * (nentries data + n))%nat) as Hl.
  { rewrite length_app, length_replicate. unfold whole in Hw. rewrite Hw at 1. lia. }
  assert (nentries (data ++ replicate (DIRENT * n) 0) = (nentries data + n)%nat) as Hn.
  { unfold nentries at 1. rewrite Hl, Nat.mul_comm. by apply Nat.div_mul. }
  split; [done|]. unfold whole. by rewrite Hn, Hl.
Qed.

Lemma pad_inum m n : dent_inum (slice m DIRENT (replicate n 0)) = 0.
Proof.
  unfold dent_inum, slice. rewrite drop_replicate, take_replicate, drop_replicate, take_replicate. apply le_val_zeros.
Qed.

Lemma dir_wf_pad d data n :
  dir_wf d data → dir_wf d (data ++ replicate (DIRENT * n) 0) ∧ dmap (data ++ replicate (DIRENT * n) 0) = dmap data.
Proof.
  intros [Hw H2 [H0 Hd] H1 Hu]. destruct (nentries_pad data n Hw) as [Hn Hw']. set (data' := data ++ _) in *.
  assert (∀ nm k, is_entry nm (entry data' k) ↔ (k < nentries data)%nat ∧ is_entry nm (entry data k)) as Hiff.
  { intros nm k. unfold data'. rewrite entry_pad by done. case_decide as Hk; [naive_solver|]. split; [intros [Hx _]; by rewrite pad_inum in Hx|by intros [? _]]. }
  assert (∀ nm k k', (k < nentries data')%nat → (k' < nentries data')%nat → is_entry nm (entry data' k) → is_entry nm (entry data' k') → k = k') as Hu'.
  { intros nm k k' _ _ [Hk He]%Hiff [Hk' He']%Hiff. by apply (Hu nm). }
  assert (∀ k, (k < nentries data)%nat → entry data' k = entry data k) as Hsame.
  { intros k Hk. unfold data'. by rewrite entry_pad, decide_True by done. }
  split; [split|].
  - done.
  - lia.
  - by rewrite Hsame by lia.
  - by rewrite Hsame by lia.
  - done.
  - apply map_eq. intros nm. rewrite !dmap_lookup. destruct (dlookup data nm) as [j|] eqn:Hl.
    + apply dlookup_Some in Hl as (k & Hk & _ & He & <-). rewrite (uniq_lookup data' nm k Hu'); [by rewrite Hsame|lia|by apply Hiff].
    + rewrite dlookup_None in Hl |- *. intros k _ [Hk He]%Hiff. by apply (Hl k).
Qed.

(** The same names in other bytes. *)
Lemma tree_bytes F d f data :
  tree img_sb F → F d = Some f → in_tree img_sb d f → dir_wf d data → dmap data = dmap (af_data f) → tree img_sb (<[d := Some (set_data data f)]> F).
Proof.
  intros [Hs Hd] Hf Hin Hwf Hm. set (F' := <[d := _]> F). assert (F' d = Some (set_data data f)) as HFd by apply fn_lookup_insert.
  assert (∀ x, x ≠ d → F' x = F x) as HFx by (intros x Hx; unfold F'; by rewrite fn_lookup_insert_ne). split.
  - apply (shape_ext _ _ _ _ _ Hs); intros x.
    + destruct (decide (x = d)) as [->|Hx]; [|by apply namesF_same, HFx]. rewrite (namesF_in img_sb F d f Hf Hin), (namesF_in img_sb F' d _ HFd) by done. change (af_data (set_data data f)) with data. by rewrite Hm.
    + intros _. unfold nlinkF. destruct (decide (x = d)) as [->|Hx]; [by rewrite HFd, Hf|by rewrite HFx].
  - intros x g Hg Hin'. destruct (decide (x = d)) as [->|Hx]; [|rewrite HFx in Hg by done; by apply Hd]. rewrite HFd in Hg. by injection Hg as <-.
Qed.

(** ** The root with its first two entries *)

Definition root0 : list Z := Mkfs.mkdirent 1 DOT ++ Mkfs.mkdirent 1 DOTDOT.
Definition files0 (j : Z) : option afile := if decide (j = 1) then Some (mkafile T_DIR 0 0 1 root0) else None.

Lemma root0_wf : dir_wf 1 root0 ∧ dmap root0 = new_dir 1 1.
Proof.
  assert (root0 = with_entry (Mkfs.mkdirent 1 DOTDOT) (with_entry (Mkfs.mkdirent 1 DOT) [])) as -> by (by vm_compute).
  destruct (dir_wf_new 1 1 (Mkfs.mkdirent 1 DOT) (Mkfs.mkdirent 1 DOTDOT)) as (? & ? & _); by vm_compute.
Qed.

Lemma root0_gapless : gapless root0.
Proof.
  assert (∀ k, (k < 2)%nat → dent_inum (entry root0 k) ≠ 0) as H.
  { intros [|[|k]] Hk; [by vm_compute|by vm_compute|lia]. }
  intros k Hk. apply H. by change (nentries root0) with 2%nat in Hk.
Qed.

Lemma names0 d : namesF img_sb files0 d = if decide (d = 1) then Some (new_dir 1 1) else None.
Proof.
  unfold namesF, files0. destruct (decide (d = 1)) as [->|Hd]; [|done]. cbn [mbind option_bind]. rewrite decide_True by done.
  by rewrite <- (proj2 root0_wf).
Qed.

Lemma tree0 : tree img_sb files0.
Proof.
  split.
  2: { intros d f Hf Hin. unfold files0 in Hf. case_decide as Hd; [|done]. injection Hf as <-. subst. apply root0_wf. }
  assert (∀ d m, namesF img_sb files0 d = Some m → d = 1 ∧ m = new_dir 1 1) as Hm.
  { intros d m. rewrite names0. case_decide; [|done]. by intros [= <-]. }
  assert (∀ nm j, (new_dir 1 1) !! nm = Some j → j = 1 ∧ ¬ plain nm) as Hlk.
  { unfold new_dir, plain. intros nm j Hj. apply lookup_insert_Some in Hj as [[<- <-]|[_ Hj]]; [naive_solver|].
    apply lookup_insert_Some in Hj as [[<- <-]|[_ Hj]]; [naive_solver|done]. }
  assert (new_dir 1 1 !! DOT = Some 1 ∧ new_dir 1 1 !! DOTDOT = Some 1) as [Hdot Hdd] by done.
  split.
  - intros d m [-> _]%Hm. by apply elem_of_inos.
  - exists (new_dir 1 1). by rewrite names0.
  - intros d m [-> ->]%Hm. eauto.
  - intros d m nm j [-> ->]%Hm [-> _]%Hlk. split; [by apply elem_of_inos|]. by exists 1.
  - intros d m nm j mj [-> ->]%Hm [_ Hp]%Hlk. by intros ?%Hp.
  - intros j mj [-> _]%Hm Hr. by destruct Hr.
  - exists (λ _, 0%nat). intros d m nm j mj [-> ->]%Hm [_ Hp]%Hlk. by intros ?%Hp.
  - intros j n _ Hn. unfold nlinkF, files0 in Hn. case_decide as Hj; [|done]. injection Hn as <-. subst. by vm_compute.
Qed.
