(* ===== verification/MkfsTheorems.v ===== *)
(** * The image that [mkfs] makes

    [main] on arguments that fit makes a file system that is consistent, whose
    root has exactly the files it was given, and that the kernel can boot
    from: the system calls find a state in which their theorems apply. *)

From stdpp Require Import gmap functions.
From S2P Require Import Prelude.
From S2P Require Import Bytes.
From S2P Require Import CString.
From S2P Require Import Mkfs.
From S2P Require Import Log.
From S2P Require Import Fs.
From S2P Require Import FsDir.
From S2P Require Import FsSpec.
From S2P Require Import FileSpec.
From S2P Require Import FileRw.
From S2P Require Import InodeSpec.
From S2P Require Import TruncSpec.
From S2P Require Import FsInv.
From S2P Require Import FsOps.
From S2P Require Import DirSpec.
From S2P Require Import FsImage.
From S2P Require Import FsRules.
From S2P Require Import Links.
From S2P Require Import DirMap.
From S2P Require Import Tree.
From S2P Require Import LinkSpec.
From S2P Require Import TreeState.
From S2P Require Import MkfsSpec.
From S2P Require Import MkfsInv.
From S2P Require Import MkfsTree.

Local Open Scope Z_scope.

Implicit Types (k : mkst) (s : fstate) (p c nm : list Z) (j : Z) (fs : list (list Z * list Z)).

(** ** The empty image *)

Lemma clear_sects_img n i k b :
  0 ≤ i → i + Z.of_nat n ≤ FSSIZE →
  Mkfs.k_img (Mkfs.clear_sects n i k) !! b = (if decide (i ≤ b < i + Z.of_nat n) then Some zero_block else Mkfs.k_img k !! b) ∧
  freeblock (Mkfs.clear_sects n i k) = freeblock k ∧ freeinode (Mkfs.clear_sects n i k) = freeinode k.
Proof.
  revert i k. induction n as [|n IH]; intros i k Hi Hn; [cbn [Mkfs.clear_sects]; rewrite decide_False by lia; done|].
  cbn [Mkfs.clear_sects]. destruct (IH (i + 1) (Mkfs.wsect i zero_block k)) as (Hl & Hb & Hf); [lia|lia|]. split; [|by rewrite Hb, Hf].
  rewrite Hl. destruct (decide (i + 1 ≤ b < i + 1 + Z.of_nat n)); [by rewrite decide_True by lia|].
  unfold Mkfs.wsect. rewrite sector_id by lia.
  change (Mkfs.k_img (k <| Mkfs.k_img ::= <[i := zero_block]> |>)) with (<[i := zero_block]> (Mkfs.k_img k)). destruct (decide (b = i)) as [->|Hne].
  - by rewrite lookup_insert_eq, decide_True by lia.
  - rewrite lookup_insert_ne, decide_False by lia. done.
Qed.

Lemma start_img b : Mkfs.k_img Mkfs.start !! b = if decide (b = 1) then Some Mkfs.sb_block else if decide (0 ≤ b < FSSIZE) then Some zero_block else None.
Proof.
  unfold Mkfs.start, Mkfs.wsect. rewrite (sector_id 1) by (unfold FSSIZE; lia). set (k := Mkfs.clear_sects _ _ _).
  change (<[1 := Mkfs.sb_block]> (Mkfs.k_img k) !! b = if decide (b = 1) then Some Mkfs.sb_block else if decide (0 ≤ b < FSSIZE) then Some zero_block else None).
  destruct (decide (b = 1)) as [->|Hne]; [by rewrite lookup_insert_eq|]. rewrite lookup_insert_ne by done. unfold k.
  destruct (clear_sects_img (Z.to_nat FSSIZE) 0 (Mkfs.mkmk ∅ 1 Mkfs.nmeta) b) as [-> _]; [lia|unfold FSSIZE; lia|].
  by replace (0 + Z.of_nat (Z.to_nat FSSIZE)) with FSSIZE by (unfold FSSIZE; lia).
Qed.

Lemma wsect_counters b d k : freeblock (Mkfs.wsect b d k) = freeblock k ∧ freeinode (Mkfs.wsect b d k) = freeinode k.
Proof. done. Qed.

Lemma start_counters : freeblock Mkfs.start = img_ds ∧ freeinode Mkfs.start = 1.
Proof.
  destruct (clear_sects_img (Z.to_nat FSSIZE) 0 (Mkfs.mkmk ∅ 1 Mkfs.nmeta) 0) as (_ & Hb & Hi); [lia|unfold FSSIZE; lia|].
  unfold Mkfs.start. destruct (wsect_counters 1 Mkfs.sb_block (Mkfs.clear_sects (Z.to_nat FSSIZE) 0 (Mkfs.mkmk ∅ 1 Mkfs.nmeta))) as [-> ->].
  rewrite Hb, Hi. split; reflexivity.
Qed.

Definition state0 : fstate :=
  mkfs img_sb (<[sb_bmapstart img_sb := bitmap (Z.to_nat img_ds)]> (Mkfs.k_img Mkfs.start)) [] (replicate NINODE free_inode_entry).

Lemma sb_block_wf : wf_block Mkfs.sb_block.
Proof. apply (bool_decide_eq_true_1 _). by vm_compute. Qed.

Lemma state0_blk b : b ≠ 1 → b ≠ sb_bmapstart img_sb → blk state0 b = zero_block.
Proof.
  intros H1 Hb. unfold blk. change (f_blk state0) with (<[sb_bmapstart img_sb := bitmap (Z.to_nat img_ds)]> (Mkfs.k_img Mkfs.start)).
  rewrite lookup_total_insert_ne by done. rewrite lookup_total_alt, start_img, decide_False by done. by case_decide.
Qed.

Lemma state0_sb : blk state0 1 = Mkfs.sb_block.
Proof.
  unfold blk. change (f_blk state0) with (<[sb_bmapstart img_sb := bitmap (Z.to_nat img_ds)]> (Mkfs.k_img Mkfs.start)).
  rewrite lookup_total_insert_ne by done. apply lookup_total_correct. by rewrite start_img, decide_True.
Qed.

Lemma state0_sim : sim Mkfs.start state0.
Proof.
  destruct start_counters as [Hfb Hfi]. split.
  - done.
  - rewrite Hfb. unfold img_ds, FSSIZE. lia.
  - by rewrite Hfb.
  - intros b Hb. rewrite start_img. case_decide; [eauto|]. rewrite decide_True by done. eauto.
  - intros b. destruct (decide (b = sb_bmapstart img_sb)) as [->|Hbm].
    + unfold blk. change (f_blk state0) with (<[sb_bmapstart img_sb := bitmap (Z.to_nat img_ds)]> (Mkfs.k_img Mkfs.start)). rewrite lookup_total_insert_eq. apply bitmap_wf.
    + destruct (decide (b = 1)) as [->|H1]; [|rewrite state0_blk by done; apply wf_zero_block]. rewrite state0_sb. apply sb_block_wf.
  - rewrite Hfb. unfold img_ds. intros b Hb. apply state0_blk; [lia|cbn; lia].
Qed.

Lemma state0_free j : inode_no j → di_type (dino state0 j) = 0.
Proof.
  intros Hj. destruct (inode_block j Hj) as [Hr _]. unfold InodeSpec.dino. rewrite state0_blk by (cbn in *; lia).
  unfold slice, zero_block. rewrite drop_replicate, take_replicate. unfold decode, word_at, slice. cbn [di_type].
  by rewrite drop_replicate, take_replicate, le_val_zeros.
Qed.

Lemma state0_minv : minv Mkfs.start state0 ∧ ∀ j, inode_no j → ifile state0 j = None.
Proof.
  pose proof state0_sim as Hsim. destruct start_counters as [Hfb Hfi].
  assert (∀ j, inode_no j → addrs_of img_sb state0 j = zero_addrs) as Ha by (intros j Hj; unfold addrs_of; by rewrite decide_True by (by apply state0_free)).
  split; [|intros j Hj; unfold file; by rewrite decide_True by (by apply state0_free)]. split.
  - done.
  - split.
    + by eapply sim_base.
    + intros j Hj. rewrite Ha by done. apply iwf_zero.
    + intros i j b Hi Hj Hne. rewrite Ha by done. intros Ho. exfalso. exact (owns_zero state0 b Ho).
    + intros b Hb Hbit. destruct (sim_data _ _ Hsim b Hb Hbit) as (_ & Hlt & _). rewrite Hfb in Hlt. unfold is_data in Hb. lia.
    + intros j Hj Ht. destruct Ht. exact (state0_free j Hj).
  - rewrite Hfi. unfold Mkfs.NINODES. lia.
  - intros j Hj. rewrite state0_free, Hfi by done. unfold InodeSpec.inode_no in Hj. lia.
  - intros j Hj. rewrite Hfi. unfold InodeSpec.inode_no in Hj. lia.
  - intros b Hb. case_decide as H1; [rewrite H1; exact state0_sb|]. apply state0_blk; [done|]. cbn in *. lia.
Qed.

(** ** Adding files *)

Definition blocks_of fs : Z := foldr (λ f n, nblk (length f.2) + n) 0 fs.
Definition dir_bytes (n : nat) : nat := (DIRENT * (2 + n))%nat.

Lemma blocks_of_app fs fs' : blocks_of (fs ++ fs') = blocks_of fs + blocks_of fs'.
Proof. induction fs as [|f fs IH]; [done|]. unfold blocks_of in *. cbn [app foldr]. lia. Qed.
Lemma nblk_pos n : 0 ≤ nblk n.
Proof. unfold nblk. case_decide; lia. Qed.
Lemma blocks_of_pos fs : 0 ≤ blocks_of fs.
Proof. induction fs as [|f fs IH]; [done|]. unfold blocks_of in *. cbn [foldr]. pose proof (nblk_pos (length f.2)). lia. Qed.

(** What the root [data] of an image with the files [fs] has. *)
Record root_of fs data : Prop := {
  ro_len : length data = dir_bytes (length fs);
  ro_gapless : gapless data;
  ro_map : ∀ nm j, dmap data !! nm = Some j ↔ ¬ plain nm ∧ j = 1 ∨ ∃ i c, fs !! i = Some (nm, c) ∧ j = 2 + Z.of_nat i
}.

Record built k s fs data : Prop := {
  bl_minv : minv k s;
  bl_root : ifile s 1 = Some (mkafile T_DIR 0 0 1 data);
  bl_names : root_of fs data;
  bl_next : freeinode k = 2 + Z.of_nat (length fs);
  bl_files : ∀ i nm c, fs !! i = Some (nm, c) → ifile s (2 + Z.of_nat i) = Some (mkafile T_FILE 0 0 1 c);
  bl_tree : tree img_sb (ifile s);
  bl_free : freeblock k = img_ds + nblk (dir_bytes (length fs)) + blocks_of fs
}.

Lemma root_whole fs data : root_of fs data → whole data ∧ nentries data = (2 + length fs)%nat.
Proof.
  intros [Hl _ _]. assert (nentries data = (2 + length fs)%nat) as Hn.
  { unfold nentries. rewrite Hl. unfold dir_bytes. rewrite Nat.mul_comm. by apply Nat.div_mul. }
  split; [|done]. unfold whole. by rewrite Hn, Hl.
Qed.

Lemma root_add fs data e nm c :
  root_of fs data → dir_wf 1 data → length e = DIRENT → dent_inum e = 2 + Z.of_nat (length fs) → dent_name e = nm → plain nm → nm ∉ fs.*1 →
  dmap data !! nm = None ∧ root_of (fs ++ [(nm, c)]) (data ++ e).
Proof.
  intros Hr Hwf He Hi Hn Hp Hfresh. pose proof Hr as [Hl Hf Hm]. destruct (root_whole fs data Hr) as [Hw _].
  assert (dmap data !! nm = None) as Hnone.
  { destruct (dmap data !! nm) as [j|] eqn:Hj; [|done]. exfalso. apply Hm in Hj as [[Hnp _]|(i & c' & Hi' & _)]; [done|].
    apply Hfresh. apply list_elem_of_fmap. exists (nm, c'). split; [done|by eapply list_elem_of_lookup_2]. }
  split; [done|]. split.
  - rewrite !length_app, Hl, He. unfold dir_bytes. cbn [length]. unfold DIRENT. lia.
  - apply gapless_add; [done|done|done|lia].
  - destruct (dir_wf_add 1 data e Hwf He) as [_ Hmap]; [lia|by rewrite Hn|]. rewrite (gapless_append data e) in Hmap by done. rewrite Hmap, Hn, Hi.
    intros nm' j. rewrite lookup_insert_Some, Hm. split.
    + intros [[<- <-]|[Hne [[Hnp ->]|(i & c' & Hi' & ->)]]]; [right|by left|right].
      * exists (length fs), c. split; [|done]. by rewrite lookup_app_r, Nat.sub_diag by lia.
      * exists i, c'. split; [|done]. by apply lookup_app_l_Some.
    + intros [[Hnp ->]|(i & c' & Hi' & ->)].
      * right. split; [by intros ->|by left].
      * apply lookup_app_Some in Hi' as [Hi'|[Hge Hi']].
        -- right. split; [|right; eauto]. intros <-. apply Hfresh. apply list_elem_of_fmap. exists (nm, c'). split; [done|by eapply list_elem_of_lookup_2].
        -- left. apply list_lookup_singleton_Some in Hi' as [Hz [= <- <-]]. split; [done|lia].
Qed.

Definition piece_ok p : Prop := (0 < length p ≤ BSIZE)%nat ∧ Forall byte_range p.

Lemma copy_pieces_spec pieces k s j f :
  minv k s → inode_no j → ifile s j = Some f → Forall piece_ok pieces → (length (af_data f) + length (concat pieces) ≤ MAXBYTES)%nat →
  freeblock k + (nblk (length (af_data f) + length (concat pieces)) - nblk (length (af_data f))) ≤ FSSIZE →
  ∃ k' s', Mkfs.copy_pieces j pieces k = Ok k' ∧ minv k' s' ∧ freeinode k' = freeinode k ∧
    freeblock k' = freeblock k + (nblk (length (af_data f) + length (concat pieces)) - nblk (length (af_data f))) ∧
    ifile s' j = Some (set_data (af_data f ++ concat pieces) f) ∧ ∀ i, inode_no i → i ≠ j → ifile s' i = ifile s i.
Proof.
  revert k s f. induction pieces as [|p pieces IH]; intros k s f Hmv Hno Hf Hp Hmax Hroom.
  - exists k, s. cbn [concat length]. rewrite Nat.add_0_r, app_nil_r. split_and!; [done|done|done|lia|by destruct f|done].
  - apply Forall_cons in Hp as [[Hlen Hby] Hp]. cbn [concat] in Hmax, Hroom |- *. rewrite length_app in Hmax, Hroom |- *. cbn [Mkfs.copy_pieces]. rewrite decide_True by lia.
    pose proof (nblk_mono (length (af_data f) + length p) (length (af_data f) + (length p + length (concat pieces))) ltac:(lia)) as Hmono.
    destruct (iappend_spec k s j f p) as (k1 & s1 & -> & Hmv1 & Hfi1 & Hfb1 & Hf1 & Ho1); [done|done|done|done|lia|lia|]. rewrite bind_ret.
    assert (length (af_data (set_data (af_data f ++ p) f)) = (length (af_data f) + length p)%nat) as Hl1 by (cbn; apply length_app).
    destruct (IH k1 s1 (set_data (af_data f ++ p) f)) as (k' & s' & -> & Hmv' & Hfi' & Hfb' & Hf' & Ho'); [done|done|done|done|rewrite Hl1; lia|rewrite Hl1, Hfb1; rewrite <- Nat.add_assoc; lia|].
    exists k', s'. rewrite Hl1, <- Nat.add_assoc in Hfb'. split_and!; [done|done|congruence|lia| |].
    + rewrite Hf'. cbn. by rewrite <- app_assoc.
    + intros i Hi Hne. by rewrite Ho', Ho1.
Qed.

Lemma root_no : inode_no 1.
Proof. done. Qed.

Lemma root_in_tree data : in_tree img_sb 1 (mkafile T_DIR 0 0 1 data).
Proof. done. Qed.

Lemma make_root_spec : ∃ k s, Mkfs.make_root = Ok (1, k) ∧ built k s [] root0.
Proof.
  destruct state0_minv as [Hmv0 Hnone]. destruct start_counters as [Hfb Hfi]. unfold Mkfs.make_root.
  generalize dependent Mkfs.start. generalize dependent state0. intros s0 Hnone k0 Hmv0 Hfb Hfi.
  destruct (mk_ialloc_spec k0 s0 T_DIR Hmv0) as (k1 & s1 & -> & Hmv1 & Hfi1 & Hfb1 & Hf1 & Ho1); [rewrite Hfi; done|done|].
  rewrite bind_ret, Hfi. rewrite Hfi in Hf1, Ho1, Hfi1. rewrite Hfb in Hfb1. rewrite decide_True by done. fold DOTDOT. fold DOT.
  assert (nblk 0 = 0 ∧ nblk DIRENT = 1 ∧ nblk (DIRENT + DIRENT) = 1) as (N0 & N1 & N2) by done.
  destruct (iappend_spec k1 s1 1 _ (Mkfs.mkdirent 1 DOT) Hmv1 root_no Hf1) as (k2 & s2 & -> & Hmv2 & Hfi2 & Hfb2 & Hf2 & Ho2).
  { by apply mkdirent_bytes, (bool_decide_eq_true_1 _). }
  { change (length _ + length _)%nat with DIRENT. pose proof MAXBYTES_Z. unfold DIRENT. lia. }
  { change (freeblock k1 + (nblk DIRENT - nblk 0) ≤ FSSIZE). rewrite N1, N0, Hfb1. unfold img_ds, FSSIZE. lia. }
  rewrite bind_ret. change (nblk (length _ + length _) - nblk _) with (nblk DIRENT - nblk 0) in Hfb2. rewrite N1, N0, Hfb1 in Hfb2.
  destruct (iappend_spec k2 s2 1 _ (Mkfs.mkdirent 1 DOTDOT) Hmv2 root_no Hf2) as (k3 & s3 & -> & Hmv3 & Hfi3 & Hfb3 & Hf3 & Ho3).
  { by apply mkdirent_bytes, (bool_decide_eq_true_1 _). }
  { change (length _ + length _)%nat with (DIRENT + DIRENT)%nat. pose proof MAXBYTES_Z. unfold DIRENT. lia. }
  { change (freeblock k2 + (nblk (DIRENT + DIRENT) - nblk DIRENT) ≤ FSSIZE). rewrite N1, N2, Hfb2. unfold img_ds, FSSIZE. lia. }
  rewrite bind_ret. change (nblk (length _ + length _) - nblk _) with (nblk (DIRENT + DIRENT) - nblk DIRENT) in Hfb3. rewrite N1, N2, Hfb2 in Hfb3.
  exists k3, s3. split; [done|]. split.
  - done.
  - exact Hf3.
  - split; [done|exact root0_gapless|]. rewrite (proj2 root0_wf). intros nm j. unfold new_dir. rewrite !lookup_insert_Some, lookup_empty. unfold plain. split.
    + intros [[<- <-]|[_ [[<- <-]|[_ ?]]]]; [left|left|done]; (split; [|done]); intros [H1 H2]; [by apply H1|by apply H2].
    + intros [[Hnp ->]|(i & c & Hi & _)]; [|by rewrite lookup_nil in Hi]. destruct (decide (nm = DOT)) as [->|]; [by left|]. right. split; [congruence|]. left.
      destruct (decide (nm = DOTDOT)) as [->|]; [done|]. by destruct Hnp.
  - rewrite Hfi3, Hfi2, Hfi1. done.
  - intros i nm c Hi. by rewrite lookup_nil in Hi.
  - apply (tree_ext img_sb files0); [|exact tree0]. intros j Hj. unfold files0. destruct (decide (j = 1)) as [->|Hne]; [exact Hf3|].
    rewrite Ho3, Ho2, Ho1 by done. by apply Hnone.
  - rewrite Hfb3. done.
Qed.

Section files.
Context (creat : list Z → bool) (host : list Z → option (list (list Z))).

(** The name and the content of a file of the image. *)
Definition file_name (arg : list Z) : list Z := take DIRSIZ (Mkfs.skip_underscore arg).
Definition input (arg : list Z) : list Z * list Z := (file_name arg, concat (default [] (host arg))).

(** An argument that names a file of the host that is not too long. *)
Record arg_ok (arg : list Z) : Prop := {
  ao_chars : Forall (λ x, 0 < x < 256 ∧ x ≠ 47) arg;
  ao_plain : plain (file_name arg);
  ao_pieces : ∃ pieces, host arg = Some pieces ∧ Forall piece_ok pieces ∧ (length (concat pieces) ≤ MAXBYTES)%nat
}.

Lemma add_file_spec k s fs data arg :
  built k s fs data → arg_ok arg → file_name arg ∉ fs.*1 → (length fs < 198)%nat →
  img_ds + nblk (dir_bytes (S (length fs))) + blocks_of (fs ++ [input arg]) ≤ FSSIZE →
  ∃ k' s' data', Mkfs.add_file host 1 arg k = Ok k' ∧ built k' s' (fs ++ [input arg]) data'.
Proof.
  intros [Hmv Hroot Hro Hnext Hfiles Htree Hfree] [Hch Hp (pieces & Hh & Hpc & Hlen)] Hfresh Hmax Hroom.
  set (j := 2 + Z.of_nat (length fs)) in *. set (nm := Mkfs.skip_underscore arg).
  assert (Forall (λ x, 0 < x < 256) nm) as Hnm.
  { assert (Forall (λ x, 0 < x < 256) arg) as Ha by (eapply Forall_impl; [exact Hch|naive_solver]).
    unfold nm, Mkfs.skip_underscore. destruct arg as [|x r]; [done|]. apply Forall_cons in Ha as [? ?]. case_decide; [done|]. by apply Forall_cons. }
  unfold Mkfs.add_file. rewrite decide_False.
  2: { intros Hin. rewrite Forall_forall in Hch. destruct (Hch 47 Hin). done. }
  rewrite Hh. fold nm. assert (inode_no j) as Hno by (unfold InodeSpec.inode_no; cbn; lia).
  destruct (mk_ialloc_spec k s T_FILE Hmv) as (k1 & s1 & -> & Hmv1 & Hfi1 & Hfb1 & Hf1 & Ho1); [rewrite Hnext; unfold Mkfs.NINODES; lia|done|].
  rewrite bind_ret. rewrite Hnext in Hf1, Ho1, Hfi1 |- *. set (e := Mkfs.mkdirent j nm).
  destruct (mkdirent_fields j nm) as (He & Hei & Hen); [lia|eapply Forall_impl; [exact Hnm|cbn; lia]|]. fold e in He, Hei, Hen.
  pose proof Hro as [Hdl Hdf Hdm]. destruct (root_whole fs data Hro) as [Hdw _].
  rewrite blocks_of_app in Hroom. change (blocks_of [input arg]) with (nblk (length (input arg).2) + 0) in Hroom. unfold input in Hroom. rewrite Hh in Hroom. cbn [default from_option id snd] in Hroom.
  assert (length data + length e = dir_bytes (S (length fs)))%nat as Hds by (rewrite Hdl, He; unfold dir_bytes, DIRENT; lia).
  pose proof (nblk_pos (length (concat pieces))). assert (ifile s1 1 = Some (mkafile T_DIR 0 0 1 data)) as Hr1 by (rewrite Ho1; [done|done|lia]).
  destruct (iappend_spec k1 s1 1 _ e Hmv1 root_no Hr1) as (k2 & s2 & -> & Hmv2 & Hfi2 & Hfb2 & Hf2 & Ho2).
  { apply mkdirent_bytes. eapply Forall_impl; [exact Hnm|]. unfold byte_range. cbn. lia. }
  { change (length (af_data _)) with (length data). rewrite Hds. pose proof MAXBYTES_Z. unfold dir_bytes, DIRENT. lia. }
  { change (length (af_data _)) with (length data). rewrite Hds, Hdl, Hfb1, Hfree. lia. }
  rewrite bind_ret. change (length (af_data _)) with (length data) in Hfb2. rewrite Hds, Hdl, Hfb1, Hfree in Hfb2.
  assert (ifile s2 j = Some (mkafile T_FILE 0 0 1 [])) as Hj2 by (rewrite Ho2; [done|done|lia]).
  destruct (copy_pieces_spec pieces k2 s2 j _ Hmv2 Hno Hj2) as (k3 & s3 & -> & Hmv3 & Hfi3 & Hfb3 & Hf3 & Ho3); [done|done| |].
  { change (length (af_data _)) with 0%nat. rewrite Nat.add_0_l. change (nblk 0) with 0. lia. }
  change (length (af_data _)) with 0%nat in Hfb3. rewrite Nat.add_0_l in Hfb3. change (nblk 0) with 0 in Hfb3.
  change (set_data _ _) with (mkafile T_FILE 0 0 1 (concat pieces)) in Hf3. change (set_data _ _) with (mkafile T_DIR 0 0 1 (data ++ e)) in Hf2.
  pose proof (root_in_tree data) as Hin. pose proof (tr_dirs _ _ Htree 1 _ Hroot Hin) as Hwf.
  destruct (root_add fs data e (file_name arg) (concat pieces) Hro Hwf He Hei Hen Hp Hfresh) as [Hnone Hro'].
  assert (ifile s3 1 = Some (mkafile T_DIR 0 0 1 (data ++ e))) as Hr3 by (rewrite Ho3; [done|done|lia]).
  assert (∀ x, inode_no x → x ≠ 1 → x ≠ j → ifile s3 x = ifile s x) as Hother by (intros x Hx H1 Hj; by rewrite Ho3, Ho2, Ho1).
  exists k3, s3, (data ++ e). unfold input. rewrite Hh. cbn [default from_option id]. split; [done|]. split.
  - done.
  - done.
  - done.
  - rewrite Hfi3, Hfi2, Hfi1, length_app. unfold j. cbn [length]. lia.
  - intros i nm' c Hi. apply lookup_app_Some in Hi as [Hi|[Hge Hi]].
    + pose proof (lookup_lt_Some _ _ _ Hi). rewrite Hother; [by eapply Hfiles|unfold InodeSpec.inode_no; cbn; lia|lia|unfold j; lia].
    + apply list_lookup_singleton_Some in Hi as [Hz [= <- <-]]. replace (2 + Z.of_nat i) with j by (unfold j; lia). done.
  - eapply (tree_ext img_sb); [|eapply (tree_add img_sb (ifile s) 1 _ e j (mkafile T_FILE 0 0 1 (concat pieces)) Htree Hroot Hin He Hei Hno)]; [| |done|].
    + intros x Hx. cbn [af_data]. rewrite (gapless_append data e) by done. destruct (decide (x = 1)) as [->|H1]; [by rewrite fn_lookup_insert|].
      rewrite fn_lookup_insert_ne by congruence. destruct (decide (x = j)) as [->|Hj]; [by rewrite fn_lookup_insert|]. rewrite fn_lookup_insert_ne by congruence. by apply Hother.
    + cbn [af_data]. rewrite Hen, <- dmap_lookup. exact Hnone.
    + left. split; [|done]. unfold file. rewrite decide_True; [done|]. destruct (decide (di_type (dino s j) = 0)) as [|Hne]; [done|].
      apply (mv_ino _ _ Hmv) in Hne; [|done]. unfold j in Hne. lia.
  - rewrite Hfb3, Hfb2, blocks_of_app, length_app. change (length [_]) with 1%nat. rewrite Nat.add_1_r. change (blocks_of [_]) with (nblk (length (concat pieces)) + 0). lia.
Qed.

Lemma add_files_spec args k s fs data :
  built k s fs data → Forall arg_ok args → NoDup (fs.*1 ++ (file_name <$> args)) → (length fs + length args ≤ 198)%nat →
  img_ds + nblk (dir_bytes (length fs + length args)) + blocks_of (fs ++ (input <$> args)) ≤ FSSIZE →
  ∃ k' s' data', Mkfs.add_files host 1 args k = Ok k' ∧ built k' s' (fs ++ (input <$> args)) data'.
Proof.
  revert k s fs data. induction args as [|arg args IH]; intros k s fs data Hb Hok Hnd Hlen Hroom; [exists k, s, data; by rewrite app_nil_r|].
  apply Forall_cons in Hok as [Ha Hok]. cbn [fmap list_fmap] in Hnd, Hroom |- *. rewrite cons_middle, app_assoc in Hroom |- *.
  cbn [length] in Hlen, Hroom. rewrite blocks_of_app in Hroom. pose proof (blocks_of_pos (input <$> args)).
  pose proof (nblk_mono (dir_bytes (S (length fs))) (dir_bytes (length fs + S (length args)))) as Hmono.
  assert (file_name arg ∉ fs.*1) as Hfresh.
  { apply NoDup_app in Hnd as (_ & Hd & _). intros Hin. apply (Hd _ Hin). left. }
  destruct (add_file_spec k s fs data arg Hb Ha Hfresh) as (k1 & s1 & data1 & Hadd & Hb1); [lia|unfold dir_bytes in *; lia|].
  cbn [Mkfs.add_files]. rewrite Hadd, bind_ret.
  destruct (IH k1 s1 (fs ++ [input arg]) data1 Hb1 Hok) as (k' & s' & data' & Hk' & Hb'); [| | |eauto].
  - rewrite fmap_app. cbn [fmap list_fmap input fst]. rewrite <- app_assoc. exact Hnd.
  - rewrite length_app. cbn [length]. lia.
  - rewrite length_app, blocks_of_app. cbn [length]. replace (length fs + 1 + length args)%nat with (length fs + S (length args))%nat by lia. lia.
Qed.

(** The arguments fit on the disk, and the directory does not end at the end of a block. *)
Record args_ok (args : list (list Z)) : Prop := {
  as_each : Forall arg_ok args;
  as_names : NoDup (file_name <$> args);
  as_inodes : (length args ≤ 198)%nat;
  as_blocks : img_ds + nblk (dir_bytes (length args)) + blocks_of (input <$> args) ≤ FSSIZE;
  as_root : ((2 + length args) mod 32 ≠ 0)%nat
}.
End files.

(** ** The image as the kernel finds it *)

Definition booted (img : gmap Z block) : fstate := mkfs img_sb img [] (replicate NINODE free_inode_entry).

Lemma booted_inv s :
  f_sb s = img_sb → disk_inv s → disk_inv (booted (f_blk s)) ∧ (∀ j, ifile (booted (f_blk s)) j = ifile s j).
Proof.
  intros Hsb. assert (∃ l ic, booted (f_blk s) = s <| f_logged := l |> <| f_icache := ic |>) as (l & ic & ->).
  { destruct s. cbn in *. subst. by eexists _, _. }
  intros [[? ? ? ?] Hw ? ? ?]. split; [|done]. split; try done. intros inum Hi. destruct (Hw inum Hi). by split.
Qed.

Lemma booted_ok img : disk_inv (booted img) → tree img_sb (ifile (booted img)) → ok img_sb img_ds (booted img) [].
Proof.
  intros Hd Ht. assert (∀ ip i, f_icache (booted img) !! ip = Some i → i = free_inode_entry) as He.
  { intros ip i Hi. by apply lookup_replicate in Hi as [? _]. }
  split; [|done]. split.
  - split; [done|]. split; [done| | | |].
    + by intros ip i ->%He.
    + by intros ip i ->%He.
    + by intros ip i ->%He.
    + by intros ip jp i j ->%He.
  - done.
  - intros ip i ->%He. by split.
  - done.
  - done.
  - done.
Qed.

(** Recovery finds an empty log. *)
Lemma booted_log (img : gmap Z block) :
  img !! 1 = Some Mkfs.sb_block → img !! 2 = Some zero_block →
  readsb (img !!! 1) = Ok img_sb ∧ ∃ l, initlog (boot img) = Ok l ∧ lg_disk l = img ∧ lg_n l = 0 ∧ lg_cache l = ∅.
Proof.
  intros H1 H2. assert (readsb Mkfs.sb_block = Ok img_sb) as Hsb by (by vm_compute).
  assert (img !!! 1 = Mkfs.sb_block) as H1' by (by apply lookup_total_correct). assert (img !!! 2 = zero_block) as H2' by (by apply lookup_total_correct).
  split; [by rewrite H1'|]. unfold initlog. change (bread (boot img) 1) with (img !!! 1). rewrite H1', Hsb, bind_ret.
  change (i32 (sb_logstart img_sb)) with 2. change (i32 (sb_nlog img_sb)) with 30.
  unfold recover_from_log, read_head. set (l0 := (boot img) <| lg_start := 2 |> <| lg_size := 30 |>).
  change (bread l0 (lg_start l0)) with (img !!! 2). rewrite H2'. assert (get_le 4 zero_block 0 = Ok 0) as -> by (by vm_compute). rewrite bind_ret.
  change (i32 0) with 0. change (read_head_loop zero_block (Z.to_nat 0) 0 (lg_block l0)) with (@Ok (list Z) (lg_block l0)). rewrite !bind_ret.
  set (l1 := l0 <| lg_n := 0 |> <| lg_block := lg_block l0 |>). change (install_trans l1) with (@Ok lstate l1). rewrite bind_ret.
  unfold write_head. set (l2 := l1 <| lg_n := 0 |>). change (bread l2 (lg_start l2)) with (img !!! 2). change (lg_n l2) with 0. change (lg_start l2) with 2.
  rewrite H2'. assert (put_le 4 zero_block 0 (u32 0) = Ok zero_block) as -> by (by vm_compute). rewrite bind_ret.
  change (write_head_loop (lg_block l2) (Z.to_nat 0) 0 zero_block) with (@Ok block zero_block). rewrite bind_ret. eexists. split; [done|]. split_and!; [|done|].
  - change (<[2 := zero_block]> img = img). by apply insert_id.
  - change (delete 2 (∅ : gmap Z block) = ∅). apply delete_empty.
Qed.

(** The last two steps: the size of the root and the free map. *)
Lemma finish_spec k s fs data :
  built k s fs data → (length fs ≤ 198)%nat → ((2 + length fs) mod 32 ≠ 0)%nat →
  ∃ k2 k' s' data', Mkfs.fix_root 1 k = Ok k2 ∧ Mkfs.balloc (i32 (freeblock k2)) k2 = Ok k' ∧
    minv k2 s' ∧ f_blk s' = Mkfs.k_img k' ∧ tree img_sb (ifile s') ∧
    ifile s' 1 = Some (mkafile T_DIR 0 0 1 data') ∧ dmap data' = dmap data ∧ ∀ j, inode_no j → j ≠ 1 → ifile s' j = ifile s j.
Proof.
  intros [Hmv Hroot Hro Hnext Hfiles Htree Hfree] Hlen Hmod. pose proof Hro as [Hdl Hdf Hdm]. destruct (root_whole fs data Hro) as [Hdw Hdn].
  assert (length data mod BSIZE ≠ 0 ∧ ∃ n, round_up (length data) - length data = DIRENT * n)%nat as [Hm [n Hn]].
  { rewrite Hdl. unfold dir_bytes, round_up. change BSIZE with (DIRENT * 32)%nat. rewrite Nat.Div0.mul_mod_distr_l, Nat.Div0.div_mul_cancel_l by (unfold DIRENT; lia).
    split; [unfold DIRENT; lia|]. pose proof (Nat.div_mod_eq (2 + length fs) 32) as Hd. pose proof (Nat.mod_upper_bound (2 + length fs) 32) as Hu.
    set (q := ((2 + length fs) / 32)%nat) in *. set (r := ((2 + length fs) mod 32)%nat) in *. exists (32 - r)%nat. unfold DIRENT. lia. }
  assert (round_up (length data) ≤ MAXBYTES)%nat as Hmax.
  { pose proof MAXBYTES_Z. pose proof (Nat.Div0.mul_div_le (length data) BSIZE) as Hmd. unfold round_up. rewrite Hdl in Hmd |- *. unfold dir_bytes, DIRENT, BSIZE in *. lia. }
  destruct (fix_root_spec k s 1 _ Hmv root_no Hroot Hm Hmax) as (k2 & s' & Hfix & Hmv2 & Hfi2 & Hfb2 & Hf2 & Ho2).
  cbn [af_data set_data] in Hf2. rewrite Hn in Hf2. set (data' := data ++ replicate (DIRENT * n) 0) in *.
  pose proof (root_in_tree data) as Hin.
  destruct (dir_wf_pad 1 data n (tr_dirs _ _ Htree 1 _ Hroot Hin)) as [Hwf' Hmap']. fold data' in Hwf', Hmap'.
  pose proof (mv_sim _ _ Hmv2) as Hsim. pose proof (sm_free _ _ Hsim) as Hfr. unfold img_ds, FSSIZE in Hfr.
  assert (i32 (freeblock k2) = freeblock k2) as Hi32 by (apply i32_small; lia).
  exists k2, (Mkfs.wsect (sb_bmapstart Mkfs.sb) (bitmap (Z.to_nat (freeblock k2))) k2), s', data'. split_and!; [done| |done| | |done|done|done].
  - rewrite Hi32. unfold Mkfs.balloc. rewrite decide_True by (change (Z.of_nat BSIZE * 8) with 4096; lia).
    change zero_block with (bitmap 0). change 0 with (Z.of_nat 0) at 1. rewrite set_bits_spec by (unfold BPB; lia). done.
  - rewrite (sm_blk _ _ Hsim). unfold Mkfs.wsect. rewrite sb_img, sector_id by done. done.
  - apply (tree_ext img_sb (<[1 := Some (set_data data' (mkafile T_DIR 0 0 1 data))]> (ifile s))).
    + intros j Hj. destruct (decide (j = 1)) as [->|Hne]; [by rewrite fn_lookup_insert|]. rewrite fn_lookup_insert_ne by congruence. by apply Ho2.
    + by apply (tree_bytes (ifile s) 1 _ data' Htree Hroot Hin).
Qed.


Definition demo_host (nm : list Z) : option (list (list Z)) := if decide (nm = [95; 99]) then Some [[1; 2]; [3]] else Some [].

Lemma demo_args_ok : args_ok demo_host [[95; 99]; [102]].
Proof.
  split.
  - apply Forall_cons; split; [|apply Forall_singleton].
    + split; [by apply (bool_decide_eq_true_1 _)|by split|]. exists [[1; 2]; [3]]. split_and!; [done| |pose proof MAXBYTES_Z; cbn [concat length app]; lia].
      apply Forall_cons; split; [|apply Forall_singleton]; (split; [unfold BSIZE; cbn [length]; lia|by apply (bool_decide_eq_true_1 _)]).
    + split; [by apply (bool_decide_eq_true_1 _)|by split|]. exists []. split_and!; [done|done|apply Nat.le_0_l].
  - by apply (bool_decide_eq_true_1 _).
  - cbn [length]. lia.
  - by vm_compute.
  - done.
Qed.


(** With 30 files the root fills its block, its size is set to two blocks, and
    only one is allocated: reading the directory in the kernel allocates a
    block.  [fileread] does so outside of any transaction. *)
Definition thirty : list (list Z) := (λ x, [x]) <$> seqZ 64 30.

Definition read_root (k : mkst) : outcome fstate :=
  '(ip, s1) ← iget ROOTDEV ROOTINO (booted (Mkfs.k_img k));
  s2 ← ilock ip s1;
  '(_, _, s3) ← readi [] ip 512 16 s2;
  Ok s3.

Lemma mkfs_root_hole :
  match Mkfs.main (λ _, true) (λ _, Some []) ([] :: [] :: thirty) with
  | Ok k => match read_root k with Ok s => f_logged s = [sb_bmapstart img_sb; 60] | _ => False end
  | _ => False
  end.
Proof. by vm_compute. Qed.
