(* ===== verification/Spinlock.v ===== *)
(** * Spin locks: [spinlock.c]

    Several CPUs run [acquire] and [release] at the same time.  [cpu_step] is
    what one CPU does up to its next access to a lock that others can see: a
    read of [lk->locked] or [lk->cpu], the [xchg], or one of the stores; the
    steps of different CPUs interleave freely, in a memory that is
    sequentially consistent at these accesses ([xchg] and
    [__sync_synchronize] make it so).  What the CPUs do between the calls is
    up to their clients. *)

From stdpp Require Import gmap functions.
From S2P Require Import Prelude.
From S2P Require Import Kalloc.

Local Open Scope Z_scope.

(** ** State *)

(** [struct spinlock]; [lk_cpu] is the number of the CPU [lk->cpu] points to. *)
Record spinlock := mklock { lk_locked : Z; lk_cpu : option nat; lk_pcs : list Z }.
#[export] Instance spinlock_fields : Fields spinlock := λ l, mklock (lk_locked l) (lk_cpu l) (lk_pcs l).

Definition initlock : spinlock := mklock 0 None (replicate 10 0).

(** [eflags & FL_IF], and [ncli] and [intena] of [struct cpu]. *)
Record cpu := mkcpu { c_if : bool; c_ncli : Z; c_intena : bool }.
#[export] Instance cpu_fields : Fields cpu := λ c, mkcpu (c_if c) (c_ncli c) (c_intena c).

(** ** Nested disabling of interrupts *)

Definition pushcli (c : cpu) : cpu :=
  let eflags := c_if c in
  let c1 := c <| c_if := false |> in
  let c2 := if decide (c_ncli c1 = 0) then c1 <| c_intena := eflags |> else c1 in
  c2 <| c_ncli ::= λ n, i32 (n + 1) |>.

Definition popcli (c : cpu) : outcome cpu :=
  if c_if c then Panic "popcli - interruptible"
  else
    let c1 := c <| c_ncli ::= λ n, i32 (n - 1) |> in
    if decide (c_ncli c1 < 0) then Panic "popcli"
    else if decide (c_ncli c1 = 0 ∧ c_intena c1 = true) then Ok (c1 <| c_if := true |>)
    else Ok c1.

(** ** The call stack *)

(** [getcallerpcs]: [mem] is the kernel stack, a word at each address; [n]
    entries are left. *)
Fixpoint getcallerpcs (mem : Z → Z) (ebp : Z) (n : nat) : list Z :=
  match n with
  | O => []
  | S n' =>
      if decide (ebp = 0 ∨ ebp < KERNBASE ∨ ebp = 2 ^ 32 - 1) then replicate n 0
      else mem (u32 (ebp + 4)) :: getcallerpcs mem (mem ebp) n'
  end.

(** ** A CPU in the middle of a call *)

Inductive pc : Type :=
| Client
| Acq_push (l : nat)          (* pushcli() of acquire *)
| Acq_locked (l : nat)        (* holding: lock->locked *)
| Acq_cpu (l : nat)           (* holding: lock->cpu == mycpu() *)
| Acq_xchg (l : nat)          (* while(xchg(&lk->locked, 1) != 0) *)
| Acq_owner (l : nat)         (* lk->cpu = mycpu() *)
| Acq_pcs (l : nat)           (* getcallerpcs(&lk, lk->pcs) *)
| Rel_locked (l : nat)        (* holding: lock->locked *)
| Rel_cpu (l : nat)           (* holding: lock->cpu == mycpu() *)
| Rel_owner (l : nat)         (* lk->pcs[0] = 0; lk->cpu = 0 *)
| Rel_unlock (l : nat)        (* movl $0, lk->locked *)
| Rel_pop.                    (* popcli() of release *)

(** The last three fields record what the clients have done: [m_held i] are the
    locks of CPU [i] from the return of [acquire] to the store of [release],
    [m_push i] its own calls of [pushcli] without [popcli], and [m_flag i]
    whether it has interrupts on outside of all of them. *)
Record mstate := mkm {
  m_lock : nat → spinlock; m_cpu : nat → cpu; m_pc : nat → pc;
  m_held : nat → list nat; m_push : nat → nat; m_flag : nat → bool
}.
#[export] Instance mstate_fields : Fields mstate := λ s,
  mkm (m_lock s) (m_cpu s) (m_pc s) (m_held s) (m_push s) (m_flag s).

Definition set_pc (i : nat) (p : pc) (s : mstate) : mstate := s <| m_pc ::= <[i := p]> |>.
Definition set_cpu (i : nat) (c : cpu) (s : mstate) : mstate := s <| m_cpu ::= <[i := c]> |>.
Definition set_lock (l : nat) (k : spinlock) (s : mstate) : mstate := s <| m_lock ::= <[l := k]> |>.

Section step.
(** The stack of a CPU: its memory and the address of the argument [lk]. *)
Context (stack : nat → Z → Z) (argp : nat → Z).

(** [holding] up to the read of [locked], and from there to its end. *)
Definition holding_locked (l i : nat) (s : mstate) : outcome (bool * mstate) :=
  let c := pushcli (m_cpu s i) in
  if decide (lk_locked (m_lock s l) ≠ 0) then Ok (true, set_cpu i c s)
  else c' ← popcli c; Ok (false, set_cpu i c' s).
Definition holding_cpu (l i : nat) (s : mstate) : outcome (bool * mstate) :=
  c' ← popcli (m_cpu s i);
  Ok (bool_decide (lk_cpu (m_lock s l) = Some i), set_cpu i c' s).

Definition acquire_step (l i : nat) (s : mstate) : outcome mstate :=
  match m_pc s i with
  | Acq_push _ => Ok (set_pc i (Acq_locked l) (set_cpu i (pushcli (m_cpu s i)) s))
  | Acq_locked _ =>
      '(r, s') ← holding_locked l i s;
      Ok (set_pc i (if (r : bool) then Acq_cpu l else Acq_xchg l) s')
  | Acq_cpu _ =>
      '(r, s') ← holding_cpu l i s;
      if (r : bool) then Panic "acquire" else Ok (set_pc i (Acq_xchg l) s')
  | Acq_xchg _ =>
      let old := lk_locked (m_lock s l) in
      let s' := set_lock l ((m_lock s l) <| lk_locked := 1 |>) s in
      if decide (old ≠ 0) then Ok s' else Ok (set_pc i (Acq_owner l) s')
  | Acq_owner _ => Ok (set_pc i (Acq_pcs l) (set_lock l ((m_lock s l) <| lk_cpu := Some i |>) s))
  | Acq_pcs _ =>
      Ok ((set_pc i Client (set_lock l ((m_lock s l) <| lk_pcs := getcallerpcs (stack i) (u32 (argp i - 8)) 10 |>) s))
            <| m_held ::= <[i := l :: m_held s i]> |>)
  | _ => Fault "pc"
  end.

Definition release_step (l i : nat) (s : mstate) : outcome mstate :=
  match m_pc s i with
  | Rel_locked _ =>
      '(r, s') ← holding_locked l i s;
      if (r : bool) then Ok (set_pc i (Rel_cpu l) s') else Panic "release"
  | Rel_cpu _ =>
      '(r, s') ← holding_cpu l i s;
      if (r : bool) then Ok (set_pc i (Rel_owner l) s') else Panic "release"
  | Rel_owner _ =>
      Ok (set_pc i (Rel_unlock l) (set_lock l ((m_lock s l) <| lk_pcs ::= <[0%nat := 0]> |> <| lk_cpu := None |>) s))
  | Rel_unlock _ =>
      Ok ((set_pc i Rel_pop (set_lock l ((m_lock s l) <| lk_locked := 0 |>) s))
            <| m_held ::= <[i := filter (λ x, x ≠ l) (m_held s i)]> |>)
  | _ => Fault "pc"
  end.

Definition cpu_step (i : nat) (s : mstate) : outcome mstate :=
  match m_pc s i with
  | Client => Ok s
  | Acq_push l | Acq_locked l | Acq_cpu l | Acq_xchg l | Acq_owner l | Acq_pcs l => acquire_step l i s
  | Rel_locked l | Rel_cpu l | Rel_owner l | Rel_unlock l => release_step l i s
  | Rel_pop => c ← popcli (m_cpu s i); Ok (set_pc i Client (set_cpu i c s))
  end.

(** ** Clients *)

(** Client code takes locks it does not hold, releases locks it holds, nests
    less than [2 ^ 30] deep, and touches the interrupt flag itself only where
    it has not disabled interrupts. *)
Inductive lstep (s : mstate) : mstate → Prop :=
| st_run i s' : cpu_step i s = Ok s' → lstep s s'
| st_acquire i l :
    m_pc s i = Client → l ∉ m_held s i → Z.of_nat (length (m_held s i) + m_push s i) < 2 ^ 30 →
    lstep s (set_pc i (Acq_push l) s)
| st_release i l : m_pc s i = Client → l ∈ m_held s i → lstep s (set_pc i (Rel_locked l) s)
| st_push i :
    m_pc s i = Client → Z.of_nat (length (m_held s i) + m_push s i) < 2 ^ 30 →
    lstep s ((set_cpu i (pushcli (m_cpu s i)) s) <| m_push ::= <[i := S (m_push s i)]> |>)
| st_pop i n c :
    m_pc s i = Client → m_push s i = S n → popcli (m_cpu s i) = Ok c →
    lstep s ((set_cpu i c s) <| m_push ::= <[i := n]> |>)
| st_flag i b :
    m_pc s i = Client → m_held s i = [] → m_push s i = 0%nat →
    lstep s ((set_cpu i ((m_cpu s i) <| c_if := b |>) s) <| m_flag ::= <[i := b]> |>).
End step.

Definition lock_init (flag : nat → bool) : mstate :=
  mkm (λ _, initlock) (λ i, mkcpu (flag i) 0 false) (λ _, Client) (λ _, []) (λ _, 0%nat) flag.

(** ** Interrupts *)

(** CPU [c] is [n] levels deep, and its client has the interrupt flag [b]. *)
Record cpu_ok (b : bool) (n : Z) (c : cpu) : Prop := {
  co_ncli : c_ncli c = n;
  co_if : c_if c = if decide (n = 0) then b else false;
  co_intena : n ≠ 0 → c_intena c = b
}.

Lemma cpu_ok_eq b n m c : cpu_ok b n c → n = m → cpu_ok b m c.
Proof. by intros ? <-. Qed.

Lemma pushcli_ok b n c : cpu_ok b n c → 0 ≤ n < 2 ^ 31 - 1 → cpu_ok b (n + 1) (pushcli c).
Proof.
  intros [Hn Hif Hin] Hr. unfold pushcli. destruct c as [f m e]. cbn in *. subst m.
  assert (i32 (n + 1) = n + 1) as Hi by (apply i32_small; lia). destruct (decide (n = 0)) as [->|Hne].
  - split; [done|done|done].
  - split; cbn; [done|by rewrite decide_False by lia|]. intros _. by apply Hin.
Qed.

Lemma popcli_ok b n c : cpu_ok b (n + 1) c → 0 ≤ n < 2 ^ 31 - 1 → ∃ c', popcli c = Ok c' ∧ cpu_ok b n c'.
Proof.
  intros [Hn Hif Hin] Hr. unfold popcli. destruct c as [f m e]. cbn in *. subst m. rewrite decide_False in Hif by lia. subst f.
  assert (i32 (n + 1 - 1) = n) as Hi by (rewrite i32_small; lia). cbn. rewrite Hi. rewrite decide_False by lia.
  rewrite Hin by lia. destruct (decide (n = 0)) as [->|Hne].
  - destruct b; [rewrite decide_True by done|rewrite decide_False by naive_solver]; (eexists; split; [done|]); by split.
  - rewrite decide_False by naive_solver. eexists. split; [done|]. split; cbn; [done|by rewrite decide_False|done].
Qed.

(** ** The invariant *)

Section inv.
Context (s : mstate).

(** CPU [i] has lock [l]; and [lk->cpu] says so. *)
Definition owner (i l : nat) : Prop := l ∈ m_held s i ∨ m_pc s i = Acq_owner l ∨ m_pc s i = Acq_pcs l.
Definition recorded (i l : nat) : Prop := l ∈ m_held s i ∧ m_pc s i ≠ Rel_unlock l ∨ m_pc s i = Acq_pcs l.

(** The levels of [pushcli] that the call in progress adds. *)
Definition extra (p : pc) : Z :=
  match p with
  | Client | Acq_push _ | Rel_locked _ | Rel_owner _ | Rel_unlock _ => 0
  | Acq_locked _ | Acq_xchg _ | Acq_owner _ | Acq_pcs _ | Rel_cpu _ | Rel_pop => 1
  | Acq_cpu _ => 2
  end.
Definition depth (i : nat) : Z := Z.of_nat (length (m_held s i) + m_push s i).

(** What the call in progress needs to know of the locks held. *)
Definition pc_ok (i : nat) : Prop :=
  match m_pc s i with
  | Client | Rel_pop => True
  | Acq_push l | Acq_locked l | Acq_cpu l | Acq_xchg l | Acq_owner l | Acq_pcs l => l ∉ m_held s i ∧ depth i < 2 ^ 30
  | Rel_locked l | Rel_cpu l | Rel_owner l | Rel_unlock l => l ∈ m_held s i
  end.

(** The part of the invariant that is about one CPU. *)
Record cpu_inv (i : nat) : Prop := {
  ci_depth : depth i ≤ 2 ^ 30;
  ci_cpu : cpu_ok (m_flag s i) (depth i + extra (m_pc s i)) (m_cpu s i);
  ci_pc : pc_ok i;
  ci_nodup : NoDup (m_held s i)
}.

Record linv : Prop := {
  li_cpu : ∀ i, cpu_inv i;
  li_locked : ∀ l, lk_locked (m_lock s l) ≠ 0 ↔ ∃ i, owner i l;
  li_one : ∀ l i j, owner i l → owner j l → i = j;
  li_record : ∀ l i, lk_cpu (m_lock s l) = Some i ↔ recorded i l
}.
End inv.

(** CPU [i] takes a step that may change lock [l]. *)
Record changes (i l : nat) (s s' : mstate) : Prop := {
  ch_cpu : ∀ j, j ≠ i → m_cpu s' j = m_cpu s j ∧ m_pc s' j = m_pc s j ∧ m_held s' j = m_held s j ∧ m_push s' j = m_push s j ∧ m_flag s' j = m_flag s j;
  ch_lock : ∀ l', l' ≠ l → m_lock s' l' = m_lock s l';
  ch_other : ∀ l', l' ≠ l → (owner s' i l' ↔ owner s i l') ∧ (recorded s' i l' ↔ recorded s i l')
}.

Section changes.
Context (i l : nat) (s s' : mstate) (Hs : linv s) (Hch : changes i l s s').

Lemma changes_owner j l' : j ≠ i ∨ l' ≠ l → owner s' j l' ↔ owner s j l'.
Proof using Hch.
  destruct Hch as [Hc _ Ho]. destruct (decide (j = i)) as [->|Hne]; [intros [?|Hl]; [done|by apply Ho]|]. intros _. unfold owner.
  by destruct (Hc j Hne) as (_ & -> & -> & _).
Qed.
Lemma changes_recorded j l' : j ≠ i ∨ l' ≠ l → recorded s' j l' ↔ recorded s j l'.
Proof using Hch.
  destruct Hch as [Hc _ Ho]. destruct (decide (j = i)) as [->|Hne]; [intros [?|Hl]; [done|by apply Ho]|]. intros _. unfold recorded.
  by destruct (Hc j Hne) as (_ & -> & -> & _).
Qed.

Lemma linv_change :
  cpu_inv s' i →
  (lk_locked (m_lock s' l) ≠ 0 ↔ owner s' i l ∨ ∃ j, j ≠ i ∧ owner s j l) →
  (owner s' i l → ∀ j, j ≠ i → ¬ owner s j l) →
  (∀ j, lk_cpu (m_lock s' l) = Some j ↔ if decide (j = i) then recorded s' i l else recorded s j l) →
  linv s'.
Proof using Hs Hch.
  intros Hi Hl Hone Hrec. pose proof Hs as [Hcpu Hlk Hon Hre]. pose proof Hch as [Hc Hlo Ho]. split.
  - intros j. destruct (decide (j = i)) as [->|Hne]; [done|]. destruct (Hc j Hne) as (H1 & H2 & H3 & H4 & H5), (Hcpu j) as [D C P N].
    split; unfold pc_ok, depth in *; rewrite ?H1, ?H2, ?H3, ?H4, ?H5; done.
  - intros l'. destruct (decide (l' = l)) as [->|Hne].
    + rewrite Hl. split; [intros [?|(j & Hj & Hoj)]; [by exists i|]; exists j; apply changes_owner; [by left|done]|].
      intros (j & Hoj). destruct (decide (j = i)) as [->|Hj]; [by left|right]. exists j. split; [done|]. apply changes_owner; [by left|done].
    + rewrite Hlo by done. rewrite Hlk. split; intros (j & Hoj); exists j; apply changes_owner; auto.
  - intros l' j1 j2. destruct (decide (l' = l)) as [->|Hne].
    + destruct (decide (j1 = i)) as [->|H1], (decide (j2 = i)) as [->|H2]; [done| | |].
      * intros Ho1 Ho2. exfalso. apply (Hone Ho1 j2 H2). apply changes_owner; [by left|done].
      * intros Ho1 Ho2. exfalso. apply (Hone Ho2 j1 H1). apply changes_owner; [by left|done].
      * rewrite !changes_owner by auto. by apply Hon.
    + rewrite !changes_owner by auto. by apply Hon.
  - intros l' j. destruct (decide (l' = l)) as [->|Hne].
    + rewrite Hrec. case_decide as Hj; [by subst|]. symmetry. apply changes_recorded. by left.
    + rewrite Hlo by done. rewrite changes_recorded by auto. apply Hre.
Qed.

(** The lock itself does not change, nor who has it. *)
Lemma linv_same :
  cpu_inv s' i → m_lock s' l = m_lock s l → (owner s' i l ↔ owner s i l) → (recorded s' i l ↔ recorded s i l) → linv s'.
Proof using Hs Hch.
  intros Hi Hm Ho Hr. pose proof Hs as [_ Hlk Hon Hre]. apply linv_change; [done|..].
  - rewrite Hm, Hlk, Ho. split; [|intros [?|(j & _ & ?)]; eauto]. intros (j & Hj). destruct (decide (j = i)) as [->|]; eauto.
  - rewrite Ho. intros Hi' j Hne Hj. apply Hne. by apply (Hon l).
  - intros j. rewrite Hm, Hre. case_decide as Hj; [subst; by rewrite Hr|done].
Qed.
End changes.

(** ** Every step keeps it *)

(** A state that is [s] except for CPU [i]. *)
Definition only_cpu (i : nat) (s s' : mstate) : Prop :=
  ∀ j, j ≠ i → m_cpu s' j = m_cpu s j ∧ m_pc s' j = m_pc s j ∧ m_held s' j = m_held s j ∧ m_push s' j = m_push s j ∧ m_flag s' j = m_flag s j.

Ltac upd := unfold set_pc, set_cpu, set_lock in *; cbn in *; rewrite ?fn_lookup_insert in *; rewrite ?fn_lookup_insert_ne in * by congruence; cbn in *.
Ltac others := intros ? ?; upd; done.

Definition neutral (p : pc) : Prop :=
  match p with Acq_owner _ | Acq_pcs _ | Rel_unlock _ => False | _ => True end.
Lemma neutral_ne p l : neutral p → p ≠ Acq_owner l ∧ p ≠ Acq_pcs l ∧ p ≠ Rel_unlock l.
Proof. by destruct p. Qed.

Lemma linv_local i s s' :
  linv s → only_cpu i s s' → (∀ l, m_lock s' l = m_lock s l) → m_held s' i = m_held s i → neutral (m_pc s i) → neutral (m_pc s' i) →
  cpu_inv s' i → linv s'.
Proof.
  intros Hs Hc Hl Hh Hn Hn' Hi.
  assert (∀ l, (owner s' i l ↔ owner s i l) ∧ (recorded s' i l ↔ recorded s i l)) as Ho.
  { intros l. unfold owner, recorded. rewrite Hh. destruct (neutral_ne _ l Hn) as (? & ? & ?), (neutral_ne _ l Hn') as (? & ? & ?). naive_solver. }
  apply (linv_same i 0%nat s s' Hs); [|done|done|apply Ho|apply Ho]. split; [done|done|]. intros l _. apply Ho.
Qed.

Section steps.
Context (stack : nat → Z → Z) (argp : nat → Z).

(** [holding] on CPU [i], in its two parts. *)
Lemma holding_locked_ok i l s n :
  cpu_ok (m_flag s i) n (m_cpu s i) → 0 ≤ n < 2 ^ 31 - 2 →
  (lk_locked (m_lock s l) ≠ 0 ∧ ∃ c, holding_locked l i s = Ok (true, set_cpu i c s) ∧ cpu_ok (m_flag s i) (n + 1) c) ∨
  (lk_locked (m_lock s l) = 0 ∧ ∃ c, holding_locked l i s = Ok (false, set_cpu i c s) ∧ cpu_ok (m_flag s i) n c).
Proof.
  intros Hc Hn. assert (cpu_ok (m_flag s i) (n + 1) (pushcli (m_cpu s i))) as Hp by (apply pushcli_ok; [done|lia]).
  unfold holding_locked. case_decide as Hl; [left; eauto|right]. split; [done|].
  destruct (popcli_ok (m_flag s i) n (pushcli (m_cpu s i)) Hp) as (c & -> & Hc'); [lia|]. eauto.
Qed.
Lemma holding_cpu_ok i l s n :
  cpu_ok (m_flag s i) (n + 1) (m_cpu s i) → 0 ≤ n < 2 ^ 31 - 2 →
  ∃ c, holding_cpu l i s = Ok (bool_decide (lk_cpu (m_lock s l) = Some i), set_cpu i c s) ∧ cpu_ok (m_flag s i) n c.
Proof.
  intros Hc Hn. unfold holding_cpu. destruct (popcli_ok (m_flag s i) n (m_cpu s i) Hc) as (c & -> & Hc'); [lia|]. eauto.
Qed.

Lemma acquire_inv i l s :
  linv s → m_pc s i ∈ [Acq_push l; Acq_locked l; Acq_cpu l; Acq_xchg l; Acq_owner l; Acq_pcs l] →
  ∃ s', acquire_step stack argp l i s = Ok s' ∧ linv s'.
Proof.
  intros Hs Hin. pose proof (li_cpu _ Hs i) as [Hd Hc Hp Hnd]. pose proof Hs as [_ Hlk Hone Hrec]. unfold acquire_step, pc_ok in *.
  assert (0 ≤ depth s i) as Hd0 by (unfold depth; lia).
  rewrite !elem_of_cons, elem_of_nil in Hin. destruct Hin as [Hpc|[Hpc|[Hpc|[Hpc|[Hpc|[Hpc|[]]]]]]]; rewrite Hpc in Hc, Hp |- *; cbn [extra] in Hc; destruct Hp as [Hnh Hdd].
  - (* pushcli *)
    eexists. split; [done|]. apply (linv_local i s); [done|others|done|by upd|by rewrite Hpc|by upd|]. split; unfold pc_ok, depth in *; upd; [done| |done|done].
    rewrite Z.add_0_r in Hc. apply pushcli_ok; [done|lia].
  - (* lock->locked *)
    destruct (holding_locked_ok i l s _ Hc) as [(Hl & c & -> & Hc')|(Hl & c & -> & Hc')]; [lia|..]; rewrite bind_ret; (eexists; split; [done|]);
      (apply (linv_local i s); [done|others|done|by upd|by rewrite Hpc|by upd|]); split; unfold pc_ok, depth in *; upd; try done.
    apply (cpu_ok_eq _ _ _ _ Hc'). lia.
  - (* lock->cpu *)
    replace (depth s i + 2) with (depth s i + 1 + 1) in Hc by lia. destruct (holding_cpu_ok i l s _ Hc) as (c & -> & Hc'); [lia|]. rewrite bind_ret.
    rewrite bool_decide_false by (rewrite Hrec; unfold recorded; rewrite Hpc; naive_solver). eexists. split; [done|].
    apply (linv_local i s); [done|others|done|by upd|by rewrite Hpc|by upd|]. split; unfold pc_ok, depth in *; upd; done.
  - (* xchg *)
    destruct (decide (lk_locked (m_lock s l) ≠ 0)) as [Hl|Hl].
    + eexists. split; [done|]. apply (linv_change i l s); [done| | | | |].
      * split; [done|intros l' Hne; by upd|done].
      * split; unfold pc_ok, depth in *; upd; rewrite ?Hpc; done.
      * upd. split; [intros _|done]. apply Hlk in Hl as (j & Hj). destruct (decide (j = i)) as [->|Hne]; [by left|right; eauto].
      * intros Ho j Hne Hj. apply Hne. by apply (Hone l).
      * upd. intros j. rewrite Hrec. by case_decide as Hj; [subst|].
    + try apply dec_stable in Hl. assert (∀ j, ¬ owner s j l) as Hfree by (intros j Hj; destruct (proj2 (Hlk l)); eauto).
      eexists. split; [done|]. apply (linv_change i l s); [done| | | | |].
      * split; [others|intros l' Hne; by upd|]. intros l' Hne. unfold owner, recorded. upd. rewrite Hpc. naive_solver.
      * split; unfold pc_ok, depth in *; upd; done.
      * upd. split; [intros _|done]. left. unfold owner. upd. naive_solver.
      * intros _ j _. apply Hfree.
      * upd. intros j. rewrite Hrec. case_decide as Hj; [|done]. subst. unfold recorded. upd. rewrite Hpc. naive_solver.
  - (* lk->cpu = mycpu() *)
    assert (owner s i l) as How by (unfold owner; auto). eexists. split; [done|]. apply (linv_change i l s); [done| | | | |].
    + split; [others|intros l' Hne; by upd|]. intros l' Hne. unfold owner, recorded. upd. rewrite Hpc. naive_solver.
    + split; unfold pc_ok, depth in *; upd; done.
    + upd. rewrite Hlk. split; [intros _; left; unfold owner; upd; naive_solver|eauto].
    + intros _ j Hne Hj. apply Hne. by apply (Hone l).
    + upd. intros j. case_decide as Hj; [subst|].
      * split; [intros _|done]. unfold recorded. upd. naive_solver.
      * split; [naive_solver|]. intros Hr. destruct Hj. apply (Hone l); [|done]. unfold recorded, owner in *. naive_solver.
  - (* getcallerpcs *)
    assert (owner s i l) as How by (unfold owner; auto). assert (recorded s i l) as Hre by (unfold recorded; auto).
    eexists. split; [done|]. apply (linv_change i l s); [done| | | | |].
    + split; [others|intros l' Hne; by upd|]. intros l' Hne. unfold owner, recorded. upd. rewrite Hpc. split; rewrite elem_of_cons; naive_solver.
    + split; unfold pc_ok, depth in *; upd; [lia| |done|by apply NoDup_cons].
      apply (cpu_ok_eq _ _ _ _ Hc). lia.
    + upd. rewrite Hlk. split; [intros _; left; unfold owner; upd; left; left|eauto].
    + intros _ j Hne Hj. apply Hne. by apply (Hone l).
    + upd. intros j. rewrite Hrec. case_decide as Hj; [subst|done]. split; [intros _|done]. unfold recorded. upd. left. split; [left|done].
Qed.

Lemma filter_length_remove (l : nat) (h : list nat) : NoDup h → l ∈ h → S (length (filter (λ x, x ≠ l) h)) = length h.
Proof.
  intros Hnd Hin. induction h as [|x h IH]; [by apply elem_of_nil in Hin|]. apply NoDup_cons in Hnd as [Hx Hnd].
  apply elem_of_cons in Hin as [->|Hin].
  - rewrite filter_cons_False by naive_solver. cbn. f_equal. f_equal. clear IH. induction h as [|y h IH]; [done|].
    apply NoDup_cons in Hnd as [_ Hnd]. rewrite elem_of_cons in Hx. rewrite filter_cons_True by naive_solver. f_equal. apply IH; [naive_solver|done].
  - rewrite filter_cons_True by naive_solver. cbn. f_equal. by apply IH.
Qed.

Lemma release_inv i l s :
  linv s → m_pc s i ∈ [Rel_locked l; Rel_cpu l; Rel_owner l; Rel_unlock l] → ∃ s', release_step l i s = Ok s' ∧ linv s'.
Proof.
  intros Hs Hin. pose proof (li_cpu _ Hs i) as [Hd Hc Hp Hnd]. pose proof Hs as [_ Hlk Hone Hrec]. unfold release_step, pc_ok in *.
  assert (0 ≤ depth s i) as Hd0 by (unfold depth; lia).
  rewrite !elem_of_cons, elem_of_nil in Hin. destruct Hin as [Hpc|[Hpc|[Hpc|[Hpc|[]]]]]; rewrite Hpc in Hc, Hp |- *; cbn [extra] in Hc;
    (assert (owner s i l) as How by (unfold owner; auto)).
  - (* lock->locked *)
    destruct (holding_locked_ok i l s _ Hc) as [(Hl & c & -> & Hc')|(Hl & _)]; [lia| |by destruct (proj2 (Hlk l)); eauto]. rewrite bind_ret. eexists. split; [done|].
    apply (linv_local i s); [done|others|done|by upd|by rewrite Hpc|by upd|]. split; unfold pc_ok, depth in *; upd; try done. apply (cpu_ok_eq _ _ _ _ Hc'). lia.
  - (* lock->cpu *)
    destruct (holding_cpu_ok i l s _ Hc) as (c & -> & Hc'); [lia|]. rewrite bind_ret.
    rewrite bool_decide_true by (rewrite Hrec; unfold recorded; rewrite Hpc; naive_solver). eexists. split; [done|].
    apply (linv_local i s); [done|others|done|by upd|by rewrite Hpc|by upd|]. split; unfold pc_ok, depth in *; upd; try done. apply (cpu_ok_eq _ _ _ _ Hc'). lia.
  - (* lk->cpu = 0 *)
    eexists. split; [done|]. apply (linv_change i l s); [done| | | | |].
    + split; [others|intros l' Hne; by upd|]. intros l' Hne. unfold owner, recorded. upd. rewrite Hpc. naive_solver.
    + split; unfold pc_ok, depth in *; upd; done.
    + upd. rewrite Hlk. split; [intros _; left; unfold owner; upd; naive_solver|eauto].
    + intros _ j Hne Hj. apply Hne. by apply (Hone l).
    + upd. intros j. case_decide as Hj; [subst; unfold recorded; upd; naive_solver|]. split; [done|]. intros Hr. destruct Hj. apply (Hone l); [|done].
      unfold recorded, owner in *. naive_solver.
  - (* lk->locked = 0 *)
    assert (∀ j, j ≠ i → ¬ owner s j l) as Hoth by (intros j Hne Hj; apply Hne; by apply (Hone l)).
    pose proof (filter_length_remove l (m_held s i) Hnd Hp) as Hlen.
    eexists. split; [done|]. apply (linv_change i l s); [done| | | | |].
    + split; [others|intros l' Hne; by upd|]. intros l' Hne. unfold owner, recorded. upd. rewrite Hpc, list_elem_of_filter. naive_solver.
    + split; unfold pc_ok, depth in *; upd; [lia|apply (cpu_ok_eq _ _ _ _ Hc); lia|done|by apply NoDup_filter].
    + upd. split; [done|]. intros [Ho|(j & Hne & Hj)]; [|by destruct (Hoth j)]. unfold owner in Ho. upd. rewrite list_elem_of_filter in Ho. naive_solver.
    + intros _. exact Hoth.
    + upd. intros j. rewrite Hrec. case_decide as Hj; [subst|done]. unfold recorded. upd. rewrite Hpc, list_elem_of_filter. naive_solver.
Qed.

(** No CPU ever panics or stops inside [acquire] or [release]. *)
Lemma cpu_step_inv i s : linv s → ∃ s', cpu_step stack argp i s = Ok s' ∧ linv s'.
Proof.
  intros Hs. unfold cpu_step. destruct (m_pc s i) as [|l|l|l|l|l|l|l|l|l|l|] eqn:Hpc; [eauto|..|];
    try (apply acquire_inv; [done|rewrite Hpc, !elem_of_cons; naive_solver]); try (apply release_inv; [done|rewrite Hpc, !elem_of_cons; naive_solver]).
  pose proof (li_cpu _ Hs i) as [Hd Hc _ Hnd]. rewrite Hpc in Hc. cbn [extra] in Hc. assert (0 ≤ depth s i) as Hd0 by (unfold depth; lia).
  destruct (popcli_ok _ _ _ Hc) as (c & -> & Hc'); [lia|]. rewrite bind_ret. eexists. split; [done|].
  apply (linv_local i s); [done|others|done|by upd|by rewrite Hpc|by upd|]. split; unfold pc_ok, depth in *; upd; try done. apply (cpu_ok_eq _ _ _ _ Hc'). lia.
Qed.

Lemma lstep_inv s s' : linv s → lstep stack argp s s' → linv s'.
Proof.
  intros Hs Hst. destruct Hst as [i s' Hst|i l Hpc Hl Hd|i l Hpc Hl|i Hpc Hd|i n c Hpc Hp Hpop|i b Hpc Hh Hp].
  - destruct (cpu_step_inv i s Hs) as (s1 & Heq & Hs1). rewrite Heq in Hst. by injection Hst as <-.
  - pose proof (li_cpu _ Hs i) as [Hd' Hc _ Hnd]. rewrite Hpc in Hc.
    apply (linv_local i s); [done|others|done|by upd|by rewrite Hpc|by upd|]. split; unfold pc_ok, depth in *; upd; done.
  - pose proof (li_cpu _ Hs i) as [Hd' Hc _ Hnd]. rewrite Hpc in Hc.
    apply (linv_local i s); [done|others|done|by upd|by rewrite Hpc|by upd|]. split; unfold pc_ok, depth in *; upd; done.
  - pose proof (li_cpu _ Hs i) as [Hd' Hc _ Hnd]. rewrite Hpc in Hc. cbn [extra] in Hc. rewrite Z.add_0_r in Hc.
    apply (linv_local i s); [done|others|done|by upd|by rewrite Hpc|by upd; rewrite Hpc|]. split; unfold pc_ok, depth in *; upd; rewrite ?Hpc; [lia| |done|done].
    eapply cpu_ok_eq; [apply pushcli_ok; [exact Hc|lia]|]. cbn [extra]. lia.
  - pose proof (li_cpu _ Hs i) as [Hd' Hc _ Hnd]. rewrite Hpc in Hc. cbn [extra] in Hc. unfold depth in *. rewrite Hp in Hc, Hd'.
    destruct (popcli_ok (m_flag s i) (Z.of_nat (length (m_held s i) + n)) (m_cpu s i)) as (c' & Hpop' & Hc'); [apply (cpu_ok_eq _ _ _ _ Hc); lia|lia|].
    rewrite Hpop' in Hpop. injection Hpop as <-.
    apply (linv_local i s); [done|others|done|by upd|by rewrite Hpc|by upd; rewrite Hpc|]. split; unfold pc_ok, depth in *; upd; rewrite ?Hpc; [lia| |done|done].
    apply (cpu_ok_eq _ _ _ _ Hc'). cbn. lia.
  - pose proof (li_cpu _ Hs i) as [Hd' Hc _ Hnd]. rewrite Hpc in Hc. unfold depth in *. rewrite Hh, Hp in Hc, Hd'. cbn in Hc. destruct Hc as [Hn _ _].
    apply (linv_local i s); [done|others|done|by upd|by rewrite Hpc|by upd; rewrite Hpc|]. split; unfold pc_ok, depth in *; upd; rewrite ?Hpc, ?Hh, ?Hp; [done| |done|constructor].
    by split.
Qed.
End steps.

Lemma linv_init flag : linv (lock_init flag).
Proof.
  split.
  - intros i. split; [done| |done|constructor]. by split.
  - intros l. split; [done|]. intros (i & [H|[H|H]]); cbn in H; [by apply elem_of_nil in H|done|done].
  - intros l i j [H|[H|H]]; cbn in H; [by apply elem_of_nil in H|done|done].
  - intros l i. split; [done|]. intros [[H _]|H]; cbn in H; [by apply elem_of_nil in H|done].
Qed.

Section theorems.
Context (stack : nat → Z → Z) (argp : nat → Z).

(** [n] steps of CPU [i] alone. *)
Fixpoint run (n i : nat) (s : mstate) : outcome mstate :=
  match n with O => Ok s | S n' => s' ← cpu_step stack argp i s; run n' i s' end.

(** [acquire] of a lock that no CPU has, without others in between. *)
Lemma run_acquire s i l :
  linv s → m_pc s i = Client → depth s i < 2 ^ 30 → (∀ j, ¬ owner s j l) →
  ∃ s', run 5 i (set_pc i (Acq_push l) s) = Ok s' ∧ m_pc s' i = Client ∧ m_held s' i = l :: m_held s i.
Proof.
  intros Hs Hpc Hd Hfree. pose proof (li_cpu _ Hs i) as [_ Hc _ _]. rewrite Hpc in Hc. cbn [extra] in Hc. rewrite Z.add_0_r in Hc.
  assert (0 ≤ depth s i) as Hd0 by (unfold depth; lia).
  assert (lk_locked (m_lock s l) = 0) as Hl.
  { destruct (decide (lk_locked (m_lock s l) = 0)) as [|Hne]; [done|]. apply (li_locked _ Hs) in Hne as (j & Hj). by destruct (Hfree j). }
  cbn [run]. set (s1 := set_pc i (Acq_push l) s).
  assert (cpu_step stack argp i s1 = Ok (set_pc i (Acq_locked l) (set_cpu i (pushcli (m_cpu s i)) s1))) as ->.
  { unfold cpu_step, acquire_step, s1. by upd. }
  rewrite bind_ret. set (s2 := set_pc i (Acq_locked l) _).
  destruct (holding_locked_ok i l s2 (depth s i + 1)) as [(Hl2 & _)|(_ & c & Hh & _)].
  { unfold s2, s1. upd. apply pushcli_ok; [done|lia]. }
  { lia. }
  { by unfold s2, s1 in Hl2. }
  assert (cpu_step stack argp i s2 = Ok (set_pc i (Acq_xchg l) (set_cpu i c s2))) as ->.
  { unfold cpu_step, acquire_step. assert (m_pc s2 i = Acq_locked l) as -> by (unfold s2; by upd). by rewrite Hh. }
  rewrite bind_ret. clear Hh. set (s3 := set_pc i (Acq_xchg l) _).
  assert (cpu_step stack argp i s3 = Ok (set_pc i (Acq_owner l) (set_lock l ((m_lock s l) <| lk_locked := 1 |>) s3))) as ->.
  { unfold cpu_step, acquire_step. assert (m_pc s3 i = Acq_xchg l) as -> by (unfold s3; by upd). change (m_lock s3 l) with (m_lock s l). by rewrite Hl. }
  rewrite bind_ret. set (s4 := set_pc i (Acq_owner l) _). set (s5 := set_pc i (Acq_pcs l) (set_lock l ((m_lock s4 l) <| lk_cpu := Some i |>) s4)).
  assert (cpu_step stack argp i s4 = Ok s5) as ->.
  { unfold cpu_step, acquire_step. assert (m_pc s4 i = Acq_owner l) as -> by (unfold s4; by upd). done. }
  rewrite bind_ret. unfold cpu_step, acquire_step. assert (m_pc s5 i = Acq_pcs l) as -> by (unfold s5; by upd). rewrite bind_ret.
  eexists. split; [done|]. unfold s5, s4, s3, s2, s1. by upd.
Qed.

(** C40. Mutual exclusion and nesting of interrupts, for any number of CPUs and
    any interleaving of their steps inside [acquire] and [release], when the
    clients take only locks they do not hold and release only locks they
    hold: no lock is held by two CPUs, no CPU panics or gets stuck, and
    between calls [ncli] counts the locks held and the client's own [pushcli],
    interrupts are off exactly while it is not 0 and otherwise as the client
    had them, and the test of [holding] is true exactly for the locks this CPU
    holds.  A CPU that calls [acquire] on a lock nobody has gets it. *)
Theorem spinlock_exclusion flag s :
  rtc (lstep stack argp) (lock_init flag) s →
  (∀ l i j, l ∈ m_held s i → l ∈ m_held s j → i = j) ∧
  (∀ i, ∃ s', cpu_step stack argp i s = Ok s') ∧
  (∀ i, m_pc s i = Client →
     c_ncli (m_cpu s i) = Z.of_nat (length (m_held s i) + m_push s i) ∧
     c_if (m_cpu s i) = (if decide (m_held s i = [] ∧ m_push s i = 0%nat) then m_flag s i else false) ∧
     (∀ l, lk_locked (m_lock s l) ≠ 0 ∧ lk_cpu (m_lock s l) = Some i ↔ l ∈ m_held s i) ∧
     ∀ l, Z.of_nat (length (m_held s i) + m_push s i) < 2 ^ 30 → (∀ j, ¬ owner s j l) →
       ∃ s', run 5 i (set_pc i (Acq_push l) s) = Ok s' ∧ m_pc s' i = Client ∧ m_held s' i = l :: m_held s i).
Proof.
  intros Hr. assert (linv s) as Hs.
  { revert Hr. generalize (linv_init flag). generalize (lock_init flag). intros s0 H0 Hr. induction Hr as [|s1 s2 s3 Hst _ IH]; [done|]. by apply IH, (lstep_inv stack argp s1). }
  split_and!.
  - intros l i j Hi Hj. apply (li_one _ Hs l); by left.
  - intros i. destruct (cpu_step_inv stack argp i s Hs) as (s' & ? & _). eauto.
  - intros i Hpc. pose proof (li_cpu _ Hs i) as [_ [Hn Hif _] _ _]. rewrite Hpc in Hn, Hif. cbn [extra] in Hn, Hif. rewrite Z.add_0_r in Hn, Hif. split_and!.
    + done.
    + rewrite Hif. unfold depth. apply decide_ext. destruct (m_held s i); cbn; split; intros; [|lia| |]; naive_solver lia.
    + intros l. rewrite (li_locked _ Hs), (li_record _ Hs). unfold recorded. rewrite Hpc. split; [naive_solver|]. intros Hl.
      split; [exists i; by left|left; done].
    + intros l Hd Hfree. by apply run_acquire.
Qed.
End theorems.

(** Two CPUs: the first takes lock 0 while the second spins on it. *)
Definition no_stack (_ : nat) (_ : Z) : Z := 0.
Definition demo_start : mstate := lock_init (λ _, true).
Definition demo_steps : list nat := [0; 1; 0; 1; 0; 0; 1; 1; 0; 1; 1]%nat.
Definition demo_called : mstate := set_pc 1 (Acq_push 0) (set_pc 0 (Acq_push 0) demo_start).

Fixpoint interleave (sch : list nat) (s : mstate) : outcome mstate :=
  match sch with [] => Ok s | i :: sch' => s' ← cpu_step no_stack (λ _, 0) i s; interleave sch' s' end.

Lemma interleave_steps sch s s' : interleave sch s = Ok s' → rtc (lstep no_stack (λ _, 0)) s s'.
Proof.
  revert s. induction sch as [|i sch IH]; intros s Hi; cbn in Hi; [by injection Hi as <-|]. apply bind_Ok in Hi as (s1 & H1 & Hi).
  eapply rtc_l; [|by apply IH]. by apply (st_run _ _ _ i).
Qed.

Lemma spinlock_exclusion_witness :
  ∃ s, interleave demo_steps demo_called = Ok s ∧ m_held s 0%nat = [0%nat] ∧ m_pc s 1%nat = Acq_xchg 0 ∧
    c_if (m_cpu s 0%nat) = false ∧ ∀ j, 0%nat ∈ m_held s j → 0%nat = j.
Proof.
  eexists. split; [vm_compute; reflexivity|]. split_and!; [reflexivity|reflexivity|reflexivity|]. intros j Hj.
  assert (rtc (lstep no_stack (λ _, 0)) demo_start demo_called) as H0.
  { eapply rtc_l; [apply (st_acquire no_stack (λ _, 0) demo_start 0 0); [done|apply not_elem_of_nil|done]|].
    eapply rtc_l; [apply (st_acquire no_stack (λ _, 0) _ 1 0); [done|apply not_elem_of_nil|done]|]. reflexivity. }
  refine (proj1 (spinlock_exclusion no_stack (λ _, 0) (λ _, true) _ _) 0%nat 0%nat j _ Hj).
  - etrans; [exact H0|]. apply (interleave_steps demo_steps). vm_compute. reflexivity.
  - left.
Defined.
